(* ===== verification/_CoqProject ===== *)
-Q . S2P
Prelude.v
AocIpc.v
AocRing.v
AocQueue.v
GvElection.v
GvOrder.v
GvSpec.v
GvResults.v
GvLocks.v
GvRegistry.v
GbmsProfile.v
GbmsLookup.v
GbmsTables.v
GbmsCharge.v
GbmsText.v
Ttf.v
TtfPower.v
TtfLearn.v
TtfEstimate.v
GcipQueue.v
GcipStream.v
GcipMailbox.v
GcipAwait.v
GcipSafe.v
GcipOnce.v
GcipLive.v
GcipEnd.v
GcipIkv.v
GcipSend.v
GbmsStorage.v
StorageTable.v
StorageContract.v
Eeprom.v
EepromStore.v
EepromHistory.v
StorageBee.v
StorageDevice.v
StorageDemo.v
Ssoc.v
SsocCurve.v
SsocLimit.v
SsocTrace.v
SsocRecharge.v
SsocSave.v
SsocDemo.v
Msc.v
MscDrv.v
MscHealth.v
MscLogic.v
MscTable.v
MscSafe.v
MscRun.v
MscDemo.v
MscProps.v
MscLive.v
MscVote.v
MscAdaptive.v
MscDefects.v
StorageUse.v
Bhi.v
BhiRes.v
BhiSwell.v
BhiIndex.v
BhiDate.v
BhiUpdate.v
BhiSafe.v
BhiRecal.v
BhiAge.v
BhiDemo.v
BhiDefects.v
Aacp.v
AacpStore.v
AacpFade.v
AacpTiers.v
AacpCount.v
AacpRun.v
AacpCharge.v
AacpDemo.v
Logbuffer.v
LogbufferRing.v
