(* ===== verification/Prelude.v ===== *)
(** * Verification of core logic of the Google kernel modules (gs, 6.1)

    The repository holds the out-of-tree kernel modules of a phone: drivers for display,
    wireless, camera, touch, modem, accelerators and audio, and the battery management
    stack [src/bms].  Most of it moves bytes to and from devices.  This development models
    the parts whose correctness is a matter of their own data structures and arithmetic:

    - the IPC core of the always-on coprocessor ([src/aoc_ipc]): services are rings or
      queues in memory shared with firmware, driven by two 32-bit counters;
    - the voting library of the battery stack ([src/bms/misc/gvotable.c]): drivers cast
      votes under a reason, an election publishes the best one and calls back its owner;
    - the charge profiles of the battery stack ([src/bms/google_bms.c]): tables read from
      the device tree, scaled to the capacity and looked up by temperature, voltage and
      age; the charger state word, the statistics of a charge tier, some text formats;
    - the time-to-full estimator ([src/bms/google_ttf.c], [src/bms/qmath.h]), which uses
      the profile, learns from charging events and corrects for the adapter;
    - the storage of the battery stack ([src/bms/gbms_storage.c]): records under four-letter
      tags in whatever devices the board has, with a cache of who knows which tag, and the
      battery EEPROM ([src/bms/google_eeprom*.c]) as its provider;
    - the state of charge that the user sees ([src/bms/google_battery.c]): a curve over the
      level of the gauge, a limiter of its rate of change, the recharge logic, and the level
      that is kept over a reboot in the storage;
    - multi step charging (the same file): the poll that moves the battery through the
      charge table, adaptive charging, the statistics of a charging event, and what a report
      of the charger does to all of them, votes included;
    - the battery health index (the same file): the metrics of wear and their records, the
      indices and the status that they are weighed into, the dates of the battery, and the
      recalibration of the gauge;
    - the age adjusted profiles (the same file): less current (AACR), less voltage (AAFV) or
      another table (AACT) for a worn battery, and weighted cycles (AACC), under one lock;
    - the log buffer of the drivers ([src/bms/misc/logbuffer.c]): a ring of lines behind a
      device file;
    - the mailbox library of the accelerators (gcip-mailbox.c under [src/edgetpu/rio]): two
      circular queues shared with firmware, a wait list of the responses that are due, and
      reference-counted awaiters that a response, a timeout, a cancellation or a flush
      resolves; and its client, the in-kernel VII of the EdgeTPU (edgetpu-ikv*.c).

    The battery and charger drivers call all of these: a charging loop looks up the profile,
    books the tier statistics, votes the resulting limits into elections, and asks the
    estimator for the time left; what must survive a reboot goes to the storage.  The mailbox
    is separate: a device group sends a command with [gcip_mailbox_put_cmd_flags], and the
    mailbox calls back the handlers of the VII.

    ** Conventions (this file)

    A C integer is a [Z]; [u32], [s32] and the like write the wrap-around out at the width
    of the source (the kernel is built so that signed arithmetic wraps around).  A function
    returns in the type [outcome]: [Ret] for a normal return, [Undef] for an access out of
    range, a null pointer, freed memory or a division by zero, [Deadlock] for a thread that
    blocks.  State is passed and returned.  Byte memory is a total map from addresses to bytes; an allocated
    vote is an entry of a [gmap].  Error codes are negative numbers as in the source.

    ** Files

    - [AocIpc.v]: aoc_ipc_core.c, one definition per function.  The state is the service
      header with its two memory regions and the shared memory.
      [AocRing.v]: a region of a ring represents an unbounded stream of bytes ([ring_rep]);
      write, read, flush, reset and index advance implement the operations on streams, and
      any interleaving of writer and reader that does not overrun is lossless and in order.
      [AocQueue.v]: a region of a queue represents a bounded list of messages; write and
      read implement enqueue and dequeue, full and empty are refused without an effect;
      when the number of slots does not divide 2^32, slots are reused too early as the
      counter wraps around.
    - [GvElection.v]: gvotable.c, elections and ballots with both locks, the debugfs
      controls that change state, and callbacks as a parameter ([Environment]).
      [GvOrder.v]: the list of ballots under insertion, update and withdrawal.
      [GvSpec.v]: the specification: a tally from reasons to votes, the comparators as
      orders on keys ([KeyComparator]).  [GvResults.v]: an election refines the tally; the
      results of the recency and boolean elections; defects.  [GvLocks.v]: requests as a
      transition system; apart from a change of the default, no request blocks.
      [GvRegistry.v]: creation, lookup by name, destruction and module exit.
    - [GbmsProfile.v]: the charge profile of google_bms.c, with the device tree as a class
      of parameters ([DeviceTree]) and its documented behaviour ([DeviceTreeLaws]).
      [GbmsLookup.v]: the lookups select the row, tier and limit they mean to.
      [GbmsTables.v]: reading gives a well-formed table or an error, scaling rounds each
      cell to the nearest step.  [GbmsCharge.v]: charger state, properties, statistics.
      [GbmsText.v]: cycle counts survive printing and scanning; the log splitter.
    - [Ttf.v]: google_ttf.c and the fixed-point macros.  [TtfPower.v]: the power ratio is
      defined and never below 100%.  [TtfLearn.v]: what is learned stays near the
      reference; the reference read from the device tree; estimates per tier.
      [TtfEstimate.v]: the estimate is the sum of the percents left.
    - [GbmsStorage.v]: gbms_storage.c, the table of providers, the cache, and the requests;
      a descriptor is a record of optional callbacks over the state of the devices.
      [StorageTable.v]: any sequence of requests keeps the table consistent.
      [StorageContract.v]: the documented obligations of a provider as a class
      ([StorageContract]); with providers that keep them the cache is transparent and the
      storage is a map from tags to records.  [Eeprom.v]: google_eeprom.c and its two
      variants over an NVMEM device, which is a class ([Nvmem]) with its documented
      behaviour ([NvmemLaws]).  [EepromStore.v]: the layouts keep the records apart, and
      the EEPROM is an instance of the contract.  [EepromHistory.v]: history entries, the
      change of layout, and a record on its way through storage, cache and device.
      [StorageBee.v]: start-up and the polling for the EEPROM.  [StorageDevice.v]: the
      device file of an enumeration.  [StorageDemo.v]: a device in memory, on which the
      theorems apply, and the defects.
    - [Ssoc.v]: the state of charge of google_battery.c, with the readings of the gauge and
      the time as arguments.  [SsocCurve.v]: the displayed level as a function of the gauge;
      splices do not make it jump.  [SsocLimit.v]: one update of the limiter in closed form.
      [SsocTrace.v]: sequences of updates: the rate, no rise while the charger is away, and
      convergence.  [SsocRecharge.v]: all operations as events, the splice at full included,
      their invariant, and when charging restarts.  [SsocSave.v]: the level over a reboot, on top of the contract of
      the storage.  [SsocDemo.v]: instances of the theorems, and the defects.
    - [Msc.v]: one decision of the charge table in google_battery.c: the row, the tier, the
      compensation of the drop over the cable, the counters.  [MscDrv.v]: the part of
      [struct batt_drv] that charging changes, the statistics, the estimate, and the whole of
      [msc_logic].  [MscHealth.v]: deadlines, policy and the states of adaptive charging.
      [MscLogic.v]: [batt_chg_logic], connecting and disconnecting, and the votes.  What other
      drivers decide in an election is a class ([Elections]); the battery's votes are a log.
      [MscTable.v]: profiles that charging may run with ([wf_msc]); a decision stays in the
      table.  [MscSafe.v]: a poll always returns, and what it leaves ([poll_case]).
      [MscRun.v]: reports and requests as events in any order ([drv_run]) and their invariant
      ([run_ok]).  [MscProps.v]: the safety of runs, what a poll publishes, what is booked.
      [MscLive.v]: a taper ends in a higher tier.  [MscVote.v]: the log replayed in an election
      of [GvElection].  [MscAdaptive.v]: adaptive charging as a state machine ([adaptive]) that
      the code refines.  [MscDemo.v], [MscDefects.v]: instances, and the defects.
    - [StorageUse.v]: what a client of the storage relies on ([ready], [only]).
      [Bhi.v]: the data of the health index and the fuel gauge as a class ([FuelGauge]).
      [BhiRes.v]: the running average of the resistance stays in the range of the readings
      and survives a reboot.  [BhiSwell.v]: hot times and charge counts; the counts are the
      percents that were charged.  [BhiIndex.v]: the metrics as indices; the bounds of the
      capacity interpolate their tables.  [BhiDate.v]: dates and their characters, over the
      kernel's calendar as a class ([Calendar], [CalendarLaws]); the first use reads back.
      [BhiUpdate.v]: the composition, the status, requests, start-up.  [BhiSafe.v]: every
      entry point as an event, and the invariant ([bhi_ok]) in any order of them.
      [BhiAge.v]: more wear never gives a better index or status.  [BhiRecal.v]: the
      recalibration as a state machine ([recal_step]) that the code refines, and that it
      comes to an end.  [BhiDemo.v], [BhiDefects.v]: a gauge, a calendar and a storage in
      memory on which the theorems apply, start-up, and the defects.
    - [Aacp.v]: the age adjusted profiles: their part of [struct batt_drv], the updates of the
      charge profile, start-up, and what connecting and disconnecting does.  [AacpStore.v]:
      the requests of user space.  [AacpFade.v]: the capacity falls with the cycles, in bounds.
      [AacpTiers.v]: the scheduled offset ([scheduled]) and the tiers under it.
      [AacpCount.v]: the weights of a session, and the count over a reboot.  [AacpRun.v]: all
      of it as events in any order, and their invariant ([aacp_ok]), for boards without AACT
      and requests that the code can take ([event_ok]).
      [AacpCharge.v]: charging and aging together: aged tables are tables of [wf_msc], and
      reachable states of the whole driver ([aged_reach]) are safe.  [AacpDemo.v]: a
      device tree and a driver that starts from it, on which the theorems apply, and the
      defects.
    - [Logbuffer.v]: logbuffer.c, at the level of bytes.  [LogbufferRing.v]: the log as an
      unbounded list of lines ([log_spec]), whose end is what the file shows, and the log as it
      is meant ([meant_run]), which is the same without empty messages; a defect.
    - [GcipQueue.v]: the queue arithmetic of gcip-mailbox.h, the queues of edgetpu-mailbox.c
      and the fetching of responses.  [GcipStream.v]: an index with its wrap bit stands for
      an unbounded position; a fetch returns the responses written since the last one.
      [GcipMailbox.v]: gcip-mailbox.c.  A function is a tree of atomic steps ([prog]), one
      per critical section, atomic operation or callback; the operations that a chip
      supplies on commands and responses are a class ([MailboxElems]).  [exec] runs a tree
      alone.  [GcipAwait.v]: any number of calls, timers and workers run interleaved:
      [perform] makes one step of the system, [reach] any number of them, and [code] lists
      the points at which a call can stand.  [GcipSafe.v]: the reference count of an
      awaiter is the number of its holders ([good]), so freed memory is never used while the
      driver keeps the contract of the mailbox ([driver_ok]).
      [GcipOnce.v], [GcipLive.v], [GcipEnd.v]: who may still resolve an awaiter ([once]),
      and a measure that each step decreases: each command is resolved at most once, every
      call returns, and at rest every command has been resolved.  [GcipSend.v]: the
      synchronous command.  [GcipIkv.v]: the VII client as an instance of the classes, the
      credits of a group, and schedules that show the defects.

    ** What the theorems show

    Refinement: rings are streams, queues are lists, elections are tallies, the storage is
    a map, adaptive charging and recalibration are their state machines, the elected current
    is bounded by the table, the log buffer is the end of a list. Invariants: the
    well-formedness of a profile, the brackets of the tier statistics, the bounds of what is
    learned, the published health, the aged tables. Functional behaviour on every branch,
    errors included, for lookups, scaling, interpolation and the estimates. Round trips:
    the charger state word, the cycle counts, records and history entries of the EEPROM,
    the displayed level, the resistance and the weighted cycles over a reboot, the date of the
    first use.
    Types: the layouts of the EEPROM. Safety: the locks of an election, the memory of the
    awaiters under every interleaving, the level while the charger is away, restarts of
    charging, the place in the charge table over any run of reports, also while the table ages;
    the lock of the profiles. Bounds: the rate of the
    displayed level, the average of the resistance, the capacity of an aged battery. Liveness and termination: the calls of
    the mailbox, the convergence of the displayed level, the polling for the EEPROM, the
    switch of tiers, the end of a recalibration.
    The theorems on defects state what the code does where that differs from what it means
    to do; the manifest lists them.

    Where such a defect breaks a property, the property has a precondition that leaves it out,
    or a case of its own for it.  The comment of each theorem names its preconditions, and for
    each the defect that is left out: among them are queues whose number of slots does not
    divide 2^32 at the wrap of the counter, a zero resolution in the device tree, mailbox
    responses without a buffer and doorbells that fail, rates of the limiter below 8, a charge
    table with a zero last cell, a battery that has counted no charge, and requests on the
    aged profiles with an unknown state, points with equal cycles or a row outside the table.

    ** Bounds and fuel

    Loops are structural recursions on the number of turns that the C loop can make at
    most: [scan_up] on the length of the table, the debugfs and ballot loops on the lists,
    [as_default_loop] on the entries of its table; in each case a lemma shows that the loop
    ends by its own test.  Hypotheses that keep a sum inside its width are stated with the
    theorem that needs them; the largest are 2^48 hundredths of a second for the cost of a
    percent and 2^31 for the length of a tier.  [fetch_loop] takes as fuel the
    number of turns; as the firmware cannot get more than a queue ahead of the head, more
    turns than the queue has slots are enough.  The polling for the EEPROM has fuel for one run more
    than it has retries, the walk over an enumeration for one more than it has entries, and
    the file of a log buffer takes no more turns than the ring has slots.

    ** Not modelled

    Memory ordering between the processor and the firmware (a step of the IPC model is one
    call); the printing of dumps and debugfs files; reference counts of modules; the
    drivers outside the parts above.  Of google_battery.c: publishing statistics, the
    detection of faulty cells, charging speed status, the history, the calls that trigger an
    update of the health index; in multi step charging, writes to the gauge are logged and
    succeed, and the table after the age adjustments of a connect is an argument, which
    [AacpCharge.v] supplies.  There, requests on the profiles are made while no charger is
    connected: the driver also takes them while charging, and the next poll uses the changed
    table.  The runs of [AacpRun.v] leave AACT out, whose defects break their invariant.
    Calls that take and release a lock around a pure computation are modelled by the
    computation, except for the lock of the profiles, which a request can leave held.

    ** Order of the work

    The IPC core, the elections, the profiles, the estimator, the mailbox, the storage, the
    state of charge, multi step charging, the battery health index, the log buffer, the age
    adjusted profiles, and charging with them.  What is left of google_battery.c (publishing,
    history, charging speed) and the other drivers of the battery stack (google_charger.c,
    the direct charger, the gauges) would come next in the same style: their state machines
    run on the parts above. *)

From stdpp Require Export base list numbers relations strings.
From Stdlib Require Export ZArith Lia.

#[global] Open Scope Z_scope.

(** ** Machine-width integers

    A C integer of width [w] is a [Z].  The unsigned conversions reduce modulo
    [2^w]; the signed ones pick the two's-complement representative. *)

Definition wrap (w x : Z) : Z := x mod 2 ^ w.

Definition swrap (w x : Z) : Z :=
  (x + 2 ^ (w - 1)) mod 2 ^ w - 2 ^ (w - 1).

Abbreviation u8 := (wrap 8).
Abbreviation u16 := (wrap 16).
Abbreviation u32 := (wrap 32).
Abbreviation u64 := (wrap 64).
Abbreviation s8 := (swrap 8).
Abbreviation s16 := (swrap 16).
Abbreviation s32 := (swrap 32).
Abbreviation s64 := (swrap 64).

Definition SIZE_MAX : Z := 2 ^ 64 - 1.
Definition U32_MAX : Z := 2 ^ 32 - 1.
Definition U16_MAX : Z := 2 ^ 16 - 1.

(** C division and remainder of signed operands truncate towards zero. *)
Abbreviation cdiv := Z.quot.
Abbreviation crem := Z.rem.

(** ** Linux error numbers *)

Definition ENOENT : Z := 2.
Definition EIO : Z := 5.
Definition EAGAIN : Z := 11.
Definition ENOMEM : Z := 12.
Definition EACCES : Z := 13.
Definition EFAULT : Z := 14.
Definition EBUSY : Z := 16.
Definition EEXIST : Z := 17.
Definition ENODEV : Z := 19.
Definition EINVAL : Z := 22.
Definition ERANGE : Z := 34.
Definition ENODATA : Z := 61.
Definition EPROBE_DEFER : Z := 517.

(** ** Outcomes

    A C function that returns normally gives [Ret]; [Undef] stands for
    undefined behaviour (an access outside an object, a division by zero);
    [Deadlock] for a thread that blocks on a mutex it already holds. *)

Inductive outcome (A : Type) : Type :=
| Ret (a : A)
| Undef
| Deadlock.
Arguments Ret {A} _.
Arguments Undef {A}.
Arguments Deadlock {A}.

Definition obind {A B} (m : outcome A) (k : A -> outcome B) : outcome B :=
  match m with
  | Ret a => k a
  | Undef => Undef
  | Deadlock => Deadlock
  end.

(** An access that the C code makes without a check. *)
Definition must {A} (o : option A) : outcome A :=
  match o with
  | Some a => Ret a
  | None => Undef
  end.

Declare Scope c_scope.
Delimit Scope c_scope with c.
Notation "'let*' x := m 'in' k" := (obind m (fun x => k))
  (at level 10, x binder, m at level 100, k at level 200,
   format "'let*'  x  :=  m  'in' '//' k") : c_scope.
#[global] Open Scope c_scope.

(** ** Byte-addressed memory *)

(** Memory is a total map from addresses to byte values. *)
Definition memory : Type := Z -> Z.

(** [load m a n]: the [n] bytes at address [a]. *)
Definition load (m : memory) (a n : Z) : list Z :=
  (fun i => m (a + i)) <$> seqZ 0 n.

(** [store m a bs]: memory with the bytes [bs] written from address [a] on. *)
Definition store (m : memory) (a : Z) (bs : list Z) : memory :=
  fun x => match bs !! Z.to_nat (x - a) with
           | Some b => if a <=? x then b else m x
           | None => m x
           end.

(** [memcpy(dst, src, n)]. *)
Definition memcpy (m : memory) (dst src n : Z) : memory :=
  store m dst (load m src n).

(** ** Tactics *)

(** Turns boolean integer tests of the hypotheses and the goal into
    propositions. *)
Ltac bool_to_prop :=
  repeat first
    [ rewrite Z.leb_le in * | rewrite Z.ltb_lt in * | rewrite Z.eqb_eq in *
    | rewrite Z.leb_gt in * | rewrite Z.ltb_ge in * | rewrite Z.eqb_neq in *
    | rewrite andb_true_iff in * | rewrite orb_false_iff in *
    | rewrite negb_true_iff in * | rewrite negb_false_iff in * ].

(** Case split on the first boolean integer test of the goal, with its meaning
    as a hypothesis. *)
Ltac case_test :=
  match goal with
  | |- context [?a <=? ?b] => destruct (Z.leb_spec a b)
  | |- context [?a <? ?b] => destruct (Z.ltb_spec a b)
  | |- context [?a =? ?b] => destruct (Z.eqb_spec a b)
  end.

(** The same on a hypothesis. *)
Ltac case_test_in H :=
  match type of H with
  | context [?a <=? ?b] => destruct (Z.leb_spec a b)
  | context [?a <? ?b] => destruct (Z.ltb_spec a b)
  | context [?a =? ?b] => destruct (Z.eqb_spec a b)
  end.

(** Splits every test of the goal, closing what [lia] closes on the way. *)
Ltac case_tests := repeat (case_test; simpl; try lia).

(** Runs the outcome monad and the boolean connectives, nothing else. *)
Ltac run := cbn [obind must negb orb andb fst snd].
Ltac run_in H := cbn [obind must negb orb andb fst snd] in H.

(** ** Lemmas on machine integers *)

Create Rewrite HintDb cint.

Lemma wrap_range w x : 0 <= w -> 0 <= wrap w x < 2 ^ w.
Proof. intros. apply Z.mod_pos_bound. lia. Qed.

Lemma wrap_id w x : 0 <= x < 2 ^ w -> wrap w x = x.
Proof. apply Z.mod_small. Qed.

Lemma wrap_wrap w x : wrap w (wrap w x) = wrap w x.
Proof. apply Zmod_mod. Qed.

Lemma wrap_add_l w x y : wrap w (wrap w x + y) = wrap w (x + y).
Proof. apply Zplus_mod_idemp_l. Qed.

Lemma wrap_add_r w x y : wrap w (x + wrap w y) = wrap w (x + y).
Proof. apply Zplus_mod_idemp_r. Qed.

Lemma wrap_sub_l w x y : wrap w (wrap w x - y) = wrap w (x - y).
Proof. apply Zminus_mod_idemp_l. Qed.

Lemma wrap_sub_r w x y : wrap w (x - wrap w y) = wrap w (x - y).
Proof. apply Zminus_mod_idemp_r. Qed.

#[export] Hint Rewrite wrap_wrap wrap_add_l wrap_add_r wrap_sub_l wrap_sub_r : cint.

(** A modulus that divides [2^w] sees through a [w]-bit wrap-around. *)
Lemma wrap_mod_divide w n x : (n | 2 ^ w) -> wrap w x mod n = x mod n.
Proof. apply Z.mod_mod_divide. Qed.

Lemma swrap_range w x : 0 < w -> - 2 ^ (w - 1) <= swrap w x < 2 ^ (w - 1).
Proof.
  intros Hw. unfold swrap.
  pose proof (Z.mod_pos_bound (x + 2 ^ (w - 1)) (2 ^ w)).
  replace (2 ^ w) with (2 * 2 ^ (w - 1)) in *; [lia|].
  rewrite <- Z.pow_succ_r by lia. f_equal. lia.
Qed.

Lemma swrap_id w x : 0 < w -> - 2 ^ (w - 1) <= x < 2 ^ (w - 1) -> swrap w x = x.
Proof.
  intros Hw Hx. unfold swrap. rewrite Z.mod_small; [lia|].
  replace (2 ^ w) with (2 * 2 ^ (w - 1)); [lia|].
  rewrite <- Z.pow_succ_r by lia. f_equal. lia.
Qed.

(** Reduces every wrap-around whose argument [lia] proves to be in range. *)
Ltac wrap_small :=
  repeat match goal with
  | |- context [wrap ?w ?x] => rewrite (wrap_id w x) by lia
  | |- context [swrap ?w ?x] => rewrite (swrap_id w x) by lia
  end.

(** The C idiom [if (a > b) a = b] takes a minimum. *)
Lemma if_ltb_min a b : (if b <? a then b else a) = Z.min a b.
Proof. case_test; lia. Qed.

(** The step from [a] to [a + n] inside a ring of [s] cells. *)
Lemma mod_add_small a n s :
  0 < s -> 0 <= n -> (a mod s + n) mod s = (a + n) mod s.
Proof. intros. apply Zplus_mod_idemp_l. Qed.

(** ** Lemmas on outcomes *)

Lemma Ret_inj {A} (x y : A) : Ret x = Ret y -> x = y.
Proof. by intros [= ->]. Qed.

Lemma obind_Ret {A B} (m : outcome A) (k : A -> outcome B) b :
  obind m k = Ret b <-> exists a, m = Ret a /\ k a = Ret b.
Proof.
  split; [destruct m; simpl; intros; try discriminate; eauto|].
  by intros (a & -> & Hk).
Qed.

(** ** Lemmas on memory *)

Lemma length_load m a n : length (load m a n) = Z.to_nat n.
Proof. unfold load. by rewrite length_fmap, length_seqZ. Qed.

Lemma lookup_load m a n i :
  load m a n !! i = if decide (Z.of_nat i < n) then Some (m (a + Z.of_nat i)) else None.
Proof.
  unfold load. rewrite list_lookup_fmap. case_decide.
  - rewrite lookup_seqZ_lt by lia. done.
  - rewrite lookup_seqZ_ge by lia. done.
Qed.

Lemma store_in m a bs x b :
  a <= x -> bs !! Z.to_nat (x - a) = Some b -> store m a bs x = b.
Proof. intros ? Hb. unfold store. rewrite Hb. case_test; [done|lia]. Qed.

Lemma store_out m a bs x :
  x < a \/ a + Z.of_nat (length bs) <= x -> store m a bs x = m x.
Proof.
  intros Hx. unfold store. destruct (bs !! _) eqn:E; [|done].
  case_test; [|done]. apply lookup_lt_Some in E. lia.
Qed.

Lemma load_ext m m' a n :
  (forall x, a <= x < a + n -> m x = m' x) -> load m a n = load m' a n.
Proof.
  intros H. apply list_eq. intros i. rewrite !lookup_load.
  case_decide; [|done]. f_equal. apply H. lia.
Qed.

Lemma load_app m a n k :
  0 <= n -> 0 <= k -> load m a (n + k) = load m a n ++ load m (a + n) k.
Proof.
  intros. apply list_eq. intros i. rewrite lookup_load.
  destruct (decide (Z.of_nat i < n)).
  - rewrite lookup_app_l by (rewrite length_load; lia).
    rewrite lookup_load. rewrite !decide_True by lia. done.
  - rewrite lookup_app_r by (rewrite length_load; lia).
    rewrite lookup_load, length_load. do 2 case_decide; try lia; [|done].
    do 2 f_equal. lia.
Qed.

Lemma load_store_same m a bs : load (store m a bs) a (Z.of_nat (length bs)) = bs.
Proof.
  apply list_eq. intros i. rewrite lookup_load. case_decide as Hi.
  - destruct (lookup_lt_is_Some_2 bs i) as [b Hb]; [lia|]. rewrite Hb.
    f_equal. apply store_in; [lia|]. by replace (Z.to_nat _) with i by lia.
  - symmetry. apply lookup_ge_None. lia.
Qed.

Lemma load_store_disjoint m a bs a' n :
  a' + n <= a \/ a + Z.of_nat (length bs) <= a' ->
  load (store m a bs) a' n = load m a' n.
Proof. intros H. apply load_ext. intros x Hx. apply store_out. lia. Qed.

Lemma memcpy_at m dst src n x :
  memcpy m dst src n x =
  if (dst <=? x) && (x <? dst + n) then m (src + (x - dst)) else m x.
Proof.
  unfold memcpy. destruct (Z.leb_spec dst x); simpl.
  - case_test.
    + apply store_in; [done|]. rewrite lookup_load, decide_True by lia.
      do 2 f_equal. lia.
    + apply store_out. rewrite length_load. lia.
  - apply store_out. lia.
Qed.

(** The representative of a negative offset inside a ring. *)
Lemma mod_neg_small a s : - s <= a < 0 -> a mod s = a + s.
Proof.
  intros. rewrite <- (Z.mod_add a 1 s) by lia. rewrite Z.mod_small; lia.
Qed.

(** The offset in the ring of stream position [i], seen from position [len]. *)
Lemma ring_distance i len s : 0 < s -> (i mod s - len mod s) mod s = (i - len) mod s.
Proof. intros. by rewrite <- Zminus_mod. Qed.
