(* ===== verification/AocIpc.v ===== *)
(** The AoC inter-processor transport (aoc_ipc/aoc_ipc_core.c).

    A service is a header in memory shared by the application processor and the
    AoC firmware; each direction has a region that works as a byte ring, as a
    queue of fixed-size message slots or as a plain buffer.  This file holds the
    data and every operation of aoc_ipc_core.c; AocRing.v and AocQueue.v prove
    what rings and queues promise.

    A pointer argument is an [option] when the code tests it for NULL; the IPC
    memory and the caller's buffers are one byte-addressed memory, with address
    0 for a NULL buffer or base.  An operation that may divide by zero or index
    [regions] out of range returns an [outcome]. *)

From S2P Require Import Prelude.

(** ** Data *)

(** [aoc_direction]: FW to AP is up, AP to FW is down. *)
Definition AOC_UP : Z := 0.
Definition AOC_DOWN : Z := 1.

Definition VALID_DIRECTION (d : Z) : bool := (d =? AOC_UP) || (d =? AOC_DOWN).

Definition AOC_SERVICE_NAME_LENGTH : Z := 32.
Definition AOC_SERVICE_FLAG_RING_PUSH : Z := 0x01000000.
Definition AOC_SERVICE_TYPE_MASK : Z := 0x00070000.
Definition AOC_SERVICE_IRQ_MASK : Z := 0x00f80000.
Definition AOC_SERVICE_IRQ_SHIFT : Z := 19.

Definition AOC_SERVICE_TYPE_QUEUE : Z := 0.
Definition AOC_SERVICE_TYPE_RING : Z := 1.
Definition AOC_SERVICE_TYPE_BUFFER : Z := 2.

Record aoc_ipc_memory_region := mk_region {
  r_offset : Z;
  r_size : Z;
  r_slots : Z;
  r_tx : Z;
  r_rx : Z;
  r_wp : Z;
  r_rp : Z;
}.

Record aoc_ipc_service_header := mk_service {
  h_name : list Z;
  h_flags : Z;
  h_up : aoc_ipc_memory_region;
  h_down : aoc_ipc_memory_region;
}.

(** [&header->regions[dir]]. *)
Definition regions (s : aoc_ipc_service_header) (dir : Z) : outcome aoc_ipc_memory_region :=
  if dir =? AOC_UP then Ret (h_up s)
  else if dir =? AOC_DOWN then Ret (h_down s)
  else Undef.

(** The header after a store through [&header->regions[dir]]. *)
Definition set_region (s : aoc_ipc_service_header) (dir : Z) (r : aoc_ipc_memory_region)
    : aoc_ipc_service_header :=
  if dir =? AOC_UP
  then mk_service (h_name s) (h_flags s) r (h_down s)
  else mk_service (h_name s) (h_flags s) (h_up s) r.

(** [struct aoc_ipc_message_header]: four little-endian 16-bit words. *)
Definition MESSAGE_HEADER_SIZE : Z := 8.

Definition message_header (length : Z) : list Z :=
  [u16 length mod 256; u16 length / 256; 0; 0; 0; 0; 0; 0].

Definition message_header_length (m : memory) (a : Z) : Z := m a + 256 * m (a + 1).

(** ** Index arithmetic *)

Definition _region_advance_tx (r : aoc_ipc_memory_region) (amount : Z)
    : outcome aoc_ipc_memory_region :=
  let sz := r_size r in
  let tx := r_tx r in
  let wp := r_wp r in
  if sz =? 0 then Undef else
  let updated_tx := u32 (tx + amount) in
  let updated_wp := u32 (wp + amount) mod sz in
  Ret (mk_region (r_offset r) (r_size r) (r_slots r) updated_tx (r_rx r) updated_wp (r_rp r)).

Definition _region_advance_rx (r : aoc_ipc_memory_region) (amount : Z)
    : outcome aoc_ipc_memory_region :=
  let sz := r_size r in
  let rx := r_rx r in
  let rp := r_rp r in
  if sz =? 0 then Undef else
  let updated_rx := u32 (rx + amount) in
  let updated_rp := u32 (rp + amount) mod sz in
  Ret (mk_region (r_offset r) (r_size r) (r_slots r) (r_tx r) updated_rx (r_wp r) updated_rp).

(** [SIZE_MAX] is 64 bits wide, the result is truncated to [u32]. *)
Definition _read_write_delta (r : aoc_ipc_memory_region) : Z :=
  let tx := r_tx r in
  let rx := r_rx r in
  if rx <=? tx then tx - rx
  else u32 (u64 (u64 (u64 (SIZE_MAX - rx) + tx) + 1)).

(** ** Buffer access *)

Definition _aoc_queue_write_buffer (m : memory) (dest src length : Z) : Z * memory :=
  let m := store m dest (message_header length) in
  let m := memcpy m (dest + MESSAGE_HEADER_SIZE) src length in
  (length, m).

Definition _aoc_ring_reader_sync_offset (r : aoc_ipc_memory_region) (bytes_to_leave : Z)
    : outcome (bool * aoc_ipc_memory_region) :=
  let sz := r_size r in
  let delta := _read_write_delta r in
  let bytes_to_leave := if sz <? bytes_to_leave then sz else bytes_to_leave in
  let bytes_to_leave := if delta <? bytes_to_leave then delta else bytes_to_leave in
  let* r := _region_advance_rx r (u32 (u64 (delta - bytes_to_leave))) in
  Ret (true, r).

(** Returns the bytes read, the updated [*dest_size], the memory and the region. *)
Definition _aoc_ring_read_buffer (m : memory) (ring : Z) (r : aoc_ipc_memory_region)
    (dest dest_size : Z) : outcome (Z * Z * memory * aoc_ipc_memory_region) :=
  let bytes_available := _read_write_delta r in
  let sz := r_size r in
  let* r :=
    if sz <? bytes_available
    then let* br := _aoc_ring_reader_sync_offset r sz in Ret (snd br)
    else Ret r in
  let tx := r_tx r in
  let rx := r_rx r in
  let wp := r_wp r in
  let rp := r_rp r in
  let bytes_available :=
    if rp <? wp then u32 (wp - rp)
    else if wp <? rp then u32 (u32 (wp + sz) - rp)
    else if tx =? rx then 0 else sz in
  let to_read := if dest_size <? bytes_available then u32 dest_size else bytes_available in
  let m :=
    if u32 (rp + to_read) <=? sz
    then memcpy m dest (ring + rp) to_read
    else
      let partial := u32 (sz - rp) in
      let m := memcpy m dest (ring + rp) partial in
      memcpy m (dest + partial) ring (u32 (to_read - partial)) in
  Ret (to_read, to_read, m, r).

Definition _aoc_ring_write_buffer (m : memory) (ring : Z) (r : aoc_ipc_memory_region)
    (src size : Z) : Z * memory :=
  let wp := r_wp r in
  let sz := r_size r in
  let to_write := u32 size in
  let to_write := if sz <? to_write then sz else to_write in
  let m :=
    if u32 (wp + to_write) <=? sz
    then memcpy m (ring + wp) src to_write
    else
      let partial := u32 (sz - wp) in
      let m := memcpy m (ring + wp) src partial in
      memcpy m ring (src + partial) (u64 (to_write - partial)) in
  (to_write, m).

(** ** Service attributes *)

Definition aoc_service_name (s : aoc_ipc_service_header) : outcome (option (list Z)) :=
  let* last := must (h_name s !! Z.to_nat (AOC_SERVICE_NAME_LENGTH - 1)) in
  if negb (last =? 0) then Ret None else Ret (Some (h_name s)).

Definition aoc_service_type (s : aoc_ipc_service_header) : Z :=
  Z.shiftr (Z.land (h_flags s) AOC_SERVICE_TYPE_MASK) 16.

Definition aoc_service_is_queue (s : aoc_ipc_service_header) : bool :=
  aoc_service_type s =? AOC_SERVICE_TYPE_QUEUE.

Definition aoc_service_is_ring (s : aoc_ipc_service_header) : bool :=
  aoc_service_type s =? AOC_SERVICE_TYPE_RING.

Definition aoc_service_is_buffer (s : aoc_ipc_service_header) : bool :=
  aoc_service_type s =? AOC_SERVICE_TYPE_BUFFER.

Definition aoc_service_irq_index (s : aoc_ipc_service_header) : Z :=
  Z.shiftr (Z.land (h_flags s) AOC_SERVICE_IRQ_MASK) AOC_SERVICE_IRQ_SHIFT.

Definition aoc_ring_is_push (service : option aoc_ipc_service_header) : bool :=
  match service with
  | None => false
  | Some s =>
    if negb (aoc_service_is_ring s) then false
    else negb (Z.land (h_flags s) AOC_SERVICE_FLAG_RING_PUSH =? 0)
  end.

(** ** Queries *)

(** The common guard [!service || !aoc_service_is_ring(service) ||
    !VALID_DIRECTION(dir)]. *)
Definition bad_ring (service : option aoc_ipc_service_header) (dir : Z) : bool :=
  match service with
  | None => true
  | Some s => negb (aoc_service_is_ring s) || negb (VALID_DIRECTION dir)
  end.

(** The guard [!service || !VALID_DIRECTION(dir)]. *)
Definition bad_service (service : option aoc_ipc_service_header) (dir : Z) : bool :=
  match service with
  | None => true
  | Some _ => negb (VALID_DIRECTION dir)
  end.

Definition aoc_ring_bytes_read (service : option aoc_ipc_service_header) (dir : Z) : outcome Z :=
  if bad_ring service dir then Ret 0 else
  let* s := must service in
  let* region := regions s dir in
  Ret (r_rx region).

Definition aoc_ring_bytes_written (service : option aoc_ipc_service_header) (dir : Z) : outcome Z :=
  if bad_ring service dir then Ret 0 else
  let* s := must service in
  let* region := regions s dir in
  Ret (r_tx region).

Definition aoc_ring_did_overflow (service : option aoc_ipc_service_header) (dir : Z) : outcome bool :=
  if bad_ring service dir then Ret false else
  let* s := must service in
  let* region := regions s dir in
  Ret (r_size region <? _read_write_delta region).

Definition aoc_service_message_size (service : option aoc_ipc_service_header) (dir : Z) : outcome Z :=
  if bad_service service dir then Ret 0 else
  let* s := must service in
  let* region := regions s dir in
  if aoc_service_is_ring s || aoc_service_is_buffer s then Ret (r_size region)
  else
    if r_size region <=? MESSAGE_HEADER_SIZE then Ret 0
    else Ret (r_size region - MESSAGE_HEADER_SIZE).

Definition aoc_service_message_slots (service : option aoc_ipc_service_header) (dir : Z) : outcome Z :=
  if bad_service service dir then Ret 0 else
  let* s := must service in
  let* region := regions s dir in
  Ret (r_slots region).

Definition aoc_service_total_size (service : option aoc_ipc_service_header) (dir : Z) : outcome Z :=
  if bad_service service dir then Ret 0 else
  let* s := must service in
  let* region := regions s dir in
  Ret (u32 (r_slots region * r_size region)).

Definition aoc_ring_bytes_available_to_read (service : option aoc_ipc_service_header) (dir : Z)
    : outcome Z :=
  if bad_ring service dir then Ret 0 else
  let* s := must service in
  let* region := regions s dir in
  let difference := _read_write_delta region in
  Ret (if r_size region <? difference then r_size region else difference).

Definition aoc_ring_bytes_available_to_write (service : option aoc_ipc_service_header) (dir : Z)
    : outcome Z :=
  if bad_ring service dir then Ret 0 else
  let* s := must service in
  let* region := regions s dir in
  let* available := aoc_ring_bytes_available_to_read service dir in
  Ret (u64 (r_size region - available)).

Definition aoc_service_slots_available_to_read (service : option aoc_ipc_service_header) (dir : Z)
    : outcome Z :=
  if bad_service service dir then Ret 0 else
  let* s := must service in
  let* region := regions s dir in
  if r_slots region =? 0 then Ret 0 else
  if aoc_service_is_buffer s then Ret 0 else
  if aoc_service_is_ring s then
    Ret (if negb (r_tx region =? r_rx region) then 1 else 0)
  else
    let diff := _read_write_delta region in
    Ret (if r_slots region <? diff then r_slots region else diff).

Definition aoc_service_slots_available_to_write (service : option aoc_ipc_service_header) (dir : Z)
    : outcome Z :=
  if bad_service service dir then Ret 0 else
  let* s := must service in
  let* region := regions s dir in
  if r_slots region =? 0 then Ret 0 else
  if aoc_service_is_ring s then Ret 1 else
  if aoc_service_is_buffer s then Ret 0 else
  let diff := _read_write_delta region in
  Ret (u64 (r_slots region - diff)).

Definition aoc_service_can_read_message (service : option aoc_ipc_service_header) (dir : Z)
    : outcome bool :=
  let* n := aoc_service_slots_available_to_read service dir in Ret (0 <? n).

Definition aoc_service_can_write_message (service : option aoc_ipc_service_header) (dir : Z)
    : outcome bool :=
  let* n := aoc_service_slots_available_to_write service dir in Ret (0 <? n).

(** ** Pointers into the IPC memory *)

(** An address, 0 for NULL. *)
Definition aoc_service_current_read_pointer (service : option aoc_ipc_service_header)
    (base dir : Z) : outcome Z :=
  if bad_service service dir || (base =? 0) then Ret 0 else
  let* s := must service in
  let* region := regions s dir in
  let* offset :=
    if aoc_service_is_ring s then Ret (r_rp region)
    else if r_slots region =? 0 then Undef
    else Ret (u32 (r_size region * (r_rx region mod r_slots region))) in
  Ret (base + r_offset region + offset).

Definition aoc_service_current_write_pointer (service : option aoc_ipc_service_header)
    (base dir : Z) : outcome Z :=
  if bad_service service dir || (base =? 0) then Ret 0 else
  let* s := must service in
  let* region := regions s dir in
  let* offset :=
    if aoc_service_is_ring s then Ret (r_wp region)
    else if r_slots region =? 0 then Undef
    else Ret (u32 (r_size region * (r_tx region mod r_slots region))) in
  Ret (base + r_offset region + offset).

Definition aoc_service_current_message_size (m : memory)
    (service : option aoc_ipc_service_header) (base dir : Z) : outcome Z :=
  let* can := aoc_service_can_read_message service dir in
  if negb can then Ret 0 else
  let* hdr := aoc_service_current_read_pointer service base dir in
  if hdr =? 0 then Undef else Ret (message_header_length m hdr).

Definition aoc_service_current_message_pointer
    (service : option aoc_ipc_service_header) (base dir : Z) : outcome Z :=
  let* can := aoc_service_can_read_message service dir in
  if negb can then Ret 0 else
  let* ptr := aoc_service_current_read_pointer service base dir in
  Ret (ptr + MESSAGE_HEADER_SIZE).

Definition aoc_service_ring_base (service : option aoc_ipc_service_header)
    (base dir : Z) : outcome Z :=
  if bad_ring service dir then Ret 0 else
  let* s := must service in
  let* region := regions s dir in
  Ret (if 0 <? r_size region then base + r_offset region else 0).

Definition aoc_service_ring_size (service : option aoc_ipc_service_header) (dir : Z) : outcome Z :=
  if bad_ring service dir then Ret 0 else
  let* s := must service in
  let* region := regions s dir in
  Ret (r_size region).

Definition aoc_service_ring_read_offset (service : option aoc_ipc_service_header) (dir : Z)
    : outcome Z :=
  if bad_ring service dir then Ret 0 else
  let* s := must service in
  let* region := regions s dir in
  Ret (r_rp region).

Definition aoc_service_ring_write_offset (service : option aoc_ipc_service_header) (dir : Z)
    : outcome Z :=
  if bad_ring service dir then Ret 0 else
  let* s := must service in
  let* region := regions s dir in
  Ret (r_wp region).

(** ** Index updates: the result and the updated header *)

Definition aoc_service_advance_write_index (service : option aoc_ipc_service_header)
    (dir amount : Z) : outcome (bool * option aoc_ipc_service_header) :=
  match service with
  | None => Ret (false, None)
  | Some s =>
    let* available := aoc_service_slots_available_to_write service dir in
    let* available :=
      if aoc_service_is_ring s then aoc_service_message_size service dir
      else Ret available in
    if available <? amount then Ret (false, service) else
    let* region := regions s dir in
    let* region := _region_advance_tx region amount in
    Ret (true, Some (set_region s dir region))
  end.

Definition aoc_service_advance_read_index (service : option aoc_ipc_service_header)
    (dir amount : Z) : outcome (bool * option aoc_ipc_service_header) :=
  match service with
  | None => Ret (false, None)
  | Some s =>
    let* go :=
      if aoc_service_is_ring s then
        let* n := aoc_ring_bytes_available_to_read service dir in
        let bytes_available := u32 n in
        Ret (Some (if bytes_available <? amount then bytes_available else amount))
      else
        let* n := aoc_service_slots_available_to_read service dir in
        if n <? amount then Ret None else Ret (Some amount) in
    match go with
    | None => Ret (false, service)
    | Some bytes_to_advance =>
      let* region := regions s dir in
      let* region := _region_advance_rx region bytes_to_advance in
      Ret (bytes_to_advance =? amount, Some (set_region s dir region))
    end
  end.

Definition aoc_service_increment_write_index (service : option aoc_ipc_service_header)
    (dir : Z) : outcome (bool * option aoc_ipc_service_header) :=
  aoc_service_advance_write_index service dir 1.

Definition aoc_service_increment_read_index (service : option aoc_ipc_service_header)
    (dir : Z) : outcome (bool * option aoc_ipc_service_header) :=
  aoc_service_advance_read_index service dir 1.

Definition aoc_ring_flush_read_data (service : option aoc_ipc_service_header)
    (dir bytes_to_leave : Z) : outcome (bool * option aoc_ipc_service_header) :=
  match service with
  | None => Ret (false, None)
  | Some s =>
    if negb (aoc_service_is_ring s) then Ret (false, service) else
    let* r := regions s dir in
    let* br := _aoc_ring_reader_sync_offset r bytes_to_leave in
    Ret (fst br, Some (set_region s dir (snd br)))
  end.

Definition aoc_ring_reset_write_pointer (service : option aoc_ipc_service_header)
    (dir : Z) : outcome (bool * option aoc_ipc_service_header) :=
  match service with
  | None => Ret (false, None)
  | Some s =>
    if negb (aoc_service_is_ring s) then Ret (false, service) else
    let* r := regions s dir in
    let sz := r_size r in
    let wp := r_wp r in
    let bytes_remaining := s32 (u32 (sz - wp)) in
    if 0 <? bytes_remaining then
      let* r := _region_advance_tx r (u32 bytes_remaining) in
      Ret (true, Some (set_region s dir r))
    else Ret (true, service)
  end.

(** ** Messages *)

(** Returns the result, [*size], the memory and the header.  [size] is [None]
    for a NULL pointer, [buffer] an address. *)
Definition aoc_service_read_message (m : memory) (service : option aoc_ipc_service_header)
    (base dir buffer : Z) (size : option Z)
    : outcome (bool * option Z * memory * option aoc_ipc_service_header) :=
  if bad_service service dir || (base =? 0) || (buffer =? 0) then
    Ret (false, size, m, service) else
  match size with
  | None => Ret (false, size, m, service)
  | Some dest_size =>
    let* can := aoc_service_can_read_message service dir in
    if negb can then Ret (false, size, m, service) else
    let* s := must service in
    let* r := regions s dir in
    if aoc_service_is_ring s then
      let* ptr := aoc_service_ring_base service base dir in
      let* res := _aoc_ring_read_buffer m ptr r buffer dest_size in
      let '(bytes_read, dest_size, m, r) := res in
      let* r := _region_advance_rx r bytes_read in
      Ret (true, Some dest_size, m, Some (set_region s dir r))
    else
      let* ptr := aoc_service_current_read_pointer service base dir in
      let length := message_header_length m ptr in
      let ptr := ptr + MESSAGE_HEADER_SIZE in
      if dest_size <? length then Ret (false, size, m, service) else
      let m := memcpy m buffer ptr length in
      let* res := aoc_service_increment_read_index service dir in
      Ret (true, Some length, m, snd res)
  end.

(** [WRITE_BARRIER] orders the payload before the index for the other core;
    in this sequential model the order of the two updates is the order below. *)
Definition aoc_service_write_message (m : memory) (service : option aoc_ipc_service_header)
    (base dir buffer size : Z)
    : outcome (bool * memory * option aoc_ipc_service_header) :=
  if bad_service service dir || (base =? 0) || (buffer =? 0) then
    Ret (false, m, service) else
  let* s := must service in
  let* r := regions s dir in
  let* can := aoc_service_can_write_message service dir in
  if negb can then Ret (false, m, service) else
  let* max := aoc_service_message_size service dir in
  if max <? size then Ret (false, m, service) else
  if aoc_service_is_ring s then
    let* ptr := aoc_service_ring_base service base dir in
    let '(bytes_written, m) := _aoc_ring_write_buffer m ptr r buffer size in
    let* r := _region_advance_tx r bytes_written in
    Ret (true, m, Some (set_region s dir r))
  else
    let* ptr := aoc_service_current_write_pointer service base dir in
    let '(_, m) := _aoc_queue_write_buffer m ptr buffer (u32 size) in
    let* res := aoc_service_increment_write_index service dir in
    Ret (true, m, snd res).

#[global] Arguments _aoc_ring_write_buffer : simpl never.
#[global] Arguments _aoc_ring_read_buffer : simpl never.
#[global] Arguments _aoc_queue_write_buffer : simpl never.
#[global] Arguments _read_write_delta : simpl never.
#[global] Arguments _region_advance_tx : simpl never.
#[global] Arguments _region_advance_rx : simpl never.
#[global] Arguments message_header : simpl never.
