(* ===== verification/AocRing.v ===== *)
(** What an AoC byte ring promises (aoc_ipc/aoc_ipc_core.c).

    The abstract ring is a lossy first-in first-out byte stream: everything ever
    written and the number of bytes consumed.  The writer never blocks, so a
    reader that falls more than the capacity behind loses the oldest bytes.  The
    theorems relate the shared-memory header and cells to this stream, across
    the 32-bit wrap-around of the [tx] and [rx] counters. *)

From S2P Require Import Prelude AocIpc.

Definition lenZ {A} (l : list A) : Z := Z.of_nat (length l).

Lemma lenZ_app {A} (l k : list A) : lenZ (l ++ k) = lenZ l + lenZ k.
Proof. unfold lenZ. rewrite length_app. lia. Qed.

Lemma lenZ_nonneg {A} (l : list A) : 0 <= lenZ l.
Proof. unfold lenZ. lia. Qed.

Lemma lenZ_load m a n : 0 <= n -> lenZ (load m a n) = n.
Proof. intros. unfold lenZ. rewrite length_load. lia. Qed.

(** ** The abstract lossy stream *)

Record stream := mk_stream {
  written : list Z;
  consumed : Z;
}.

(** The position of the oldest byte that is still in a ring of [cap] bytes. *)
Definition oldest (cap : Z) (st : stream) : Z :=
  Z.max (consumed st) (lenZ (written st) - cap).

Definition stream_available (cap : Z) (st : stream) : Z :=
  lenZ (written st) - oldest cap st.

Definition stream_write (st : stream) (bs : list Z) : stream :=
  mk_stream (written st ++ bs) (consumed st).

(** Reading at most [n] bytes: what is returned and the new stream. *)
Definition stream_read (cap n : Z) (st : stream) : list Z * stream :=
  let k := Z.min n (stream_available cap st) in
  (take (Z.to_nat k) (drop (Z.to_nat (oldest cap st)) (written st)),
   mk_stream (written st) (oldest cap st + k)).

(** Dropping all but the newest [n] bytes. *)
Definition stream_flush (cap n : Z) (st : stream) : stream :=
  mk_stream (written st)
    (lenZ (written st) - Z.min (Z.min n cap) (lenZ (written st) - consumed st)).

(** ** Representation *)

(** [ring_rep m ring r st]: region [r], with its cells at address [ring] of
    memory [m], represents [st].  Fewer than [2^32] bytes are outstanding, so the
    difference of the counters determines the backlog. *)
Record ring_rep (m : memory) (ring : Z) (r : aoc_ipc_memory_region) (st : stream) : Prop := {
  rep_size : 0 < r_size r <= 2 ^ 31;
  rep_tx : r_tx r = u32 (lenZ (written st));
  rep_rx : r_rx r = u32 (consumed st);
  rep_wp : r_wp r = lenZ (written st) mod r_size r;
  rep_rp : r_rp r = consumed st mod r_size r;
  rep_order : 0 <= consumed st <= lenZ (written st);
  rep_lag : lenZ (written st) - consumed st < 2 ^ 32;
  rep_data : forall i,
    Z.max 0 (lenZ (written st) - r_size r) <= i < lenZ (written st) ->
    written st !! Z.to_nat i = Some (m (ring + i mod r_size r));
}.

(** The buffer [a, a + n) does not meet the cells of the ring. *)
Definition apart (a n ring sz : Z) : Prop := a + n <= ring \/ ring + sz <= a.

(** ** The counters *)

(** The 64-bit computation of the backlog is subtraction modulo [2^32]. *)
Lemma read_write_delta_wrap r :
  0 <= r_tx r < 2 ^ 32 -> 0 <= r_rx r < 2 ^ 32 ->
  _read_write_delta r = u32 (r_tx r - r_rx r).
Proof.
  intros Ht Hr. unfold _read_write_delta, SIZE_MAX, wrap. case_test.
  - rewrite Z.mod_small; lia.
  - rewrite (Z.mod_small (2 ^ 64 - 1 - r_rx r)) by lia.
    rewrite (Z.mod_small (2 ^ 64 - 1 - r_rx r + r_tx r)) by lia.
    rewrite (Z.mod_small (2 ^ 64 - 1 - r_rx r + r_tx r + 1)) by lia.
    replace (2 ^ 64 - 1 - r_rx r + r_tx r + 1)
      with (r_tx r - r_rx r + 2 ^ 32 * 2 ^ 32) by lia.
    by rewrite Z.mod_add by lia.
Qed.

Section counters.
Context (m : memory) (ring : Z) (r : aoc_ipc_memory_region) (st : stream).
Hypothesis R : ring_rep m ring r st.

Lemma ring_delta : _read_write_delta r = lenZ (written st) - consumed st.
Proof using R.
  destruct R. rewrite read_write_delta_wrap.
  - rewrite rep_tx0, rep_rx0. rewrite wrap_sub_l, wrap_sub_r. apply wrap_id. lia.
  - rewrite rep_tx0. apply wrap_range. lia.
  - rewrite rep_rx0. apply wrap_range. lia.
Qed.

Lemma ring_wp_bound : 0 <= r_wp r < r_size r.
Proof using R. destruct R. rewrite rep_wp0. apply Z.mod_pos_bound. lia. Qed.

Lemma ring_rp_bound : 0 <= r_rp r < r_size r.
Proof using R. destruct R. rewrite rep_rp0. apply Z.mod_pos_bound. lia. Qed.

(** Moving the reader forward by [n] bytes of the backlog. *)
Lemma ring_advance_rx n :
  0 <= n <= lenZ (written st) - consumed st -> r_rp r + n < 2 ^ 32 ->
  exists r', _region_advance_rx r n = Ret r' /\
    ring_rep m ring r' (mk_stream (written st) (consumed st + n)) /\
    r_size r' = r_size r /\ r_offset r' = r_offset r /\ r_slots r' = r_slots r.
Proof using R.
  intros Hn Hle. pose proof ring_rp_bound. destruct R.
  unfold _region_advance_rx. case_test; [lia|].
  eexists. split; [done|]. split; [|done].
  constructor; simpl; try done; try lia.
  - by rewrite rep_rx0, wrap_add_l.
  - rewrite (wrap_id 32) by lia. rewrite rep_rp0. apply mod_add_small; lia.
Qed.

(** Moving the writer forward once its bytes are in the cells. *)
Lemma ring_advance_tx m' bs :
  lenZ bs <= 2 ^ 31 -> lenZ (written st) + lenZ bs - consumed st < 2 ^ 32 ->
  (forall i, Z.max 0 (lenZ (written st ++ bs) - r_size r) <= i < lenZ (written st ++ bs) ->
     (written st ++ bs) !! Z.to_nat i = Some (m' (ring + i mod r_size r))) ->
  exists r', _region_advance_tx r (lenZ bs) = Ret r' /\
    ring_rep m' ring r' (stream_write st bs) /\
    r_size r' = r_size r /\ r_offset r' = r_offset r /\ r_slots r' = r_slots r.
Proof using R.
  intros Hn Hlag Hdata. pose proof ring_wp_bound. destruct R.
  assert (Hlen : lenZ (written st ++ bs) = lenZ (written st) + lenZ bs)
    by apply lenZ_app.
  pose proof (lenZ_nonneg bs).
  unfold _region_advance_tx. case_test; [lia|].
  eexists. split; [done|]. split; [|done].
  constructor; simpl; rewrite ?Hlen; try done; try lia.
  - by rewrite rep_tx0, wrap_add_l.
  - rewrite (wrap_id 32) by lia. rewrite rep_wp0. apply mod_add_small; lia.
  - rewrite <- Hlen. exact Hdata.
Qed.

(** Catching up leaves the newest [min n size] bytes, or the whole backlog. *)
Lemma ring_sync_offset n :
  0 <= n -> r_rp r + (lenZ (written st) - consumed st) - Z.min n (r_size r) < 2 ^ 32 ->
  exists r', _aoc_ring_reader_sync_offset r n = Ret (true, r') /\
    ring_rep m ring r' (stream_flush (r_size r) n st) /\
    r_size r' = r_size r /\ r_offset r' = r_offset r /\ r_slots r' = r_slots r.
Proof using R.
  intros Hn Hw. unfold _aoc_ring_reader_sync_offset.
  rewrite ring_delta, !if_ltb_min.
  assert (Hk : exists k, k = Z.min (Z.min n (r_size r)) (lenZ (written st) - consumed st))
    by eauto. destruct Hk as [k Hk].
  pose proof ring_rp_bound. pose proof (rep_size _ _ _ _ R).
  pose proof (rep_order _ _ _ _ R). pose proof (rep_lag _ _ _ _ R).
  destruct (ring_advance_rx (lenZ (written st) - consumed st - k)) as (r' & Hr' & HR' & Hs');
    [lia..|].
  exists r'. split.
  - replace (u32 (u64 _)) with (lenZ (written st) - consumed st - k);
      [by rewrite Hr'|].
    rewrite (wrap_id 64), (wrap_id 32); lia.
  - split; [|done]. unfold stream_flush.
    by replace (lenZ (written st) - _) with
      (consumed st + (lenZ (written st) - consumed st - k)) by lia.
Qed.
End counters.

(** ** Writing *)

(** The cells after a write of [n] bytes: offset [o] holds byte [(o - wp) mod
    size] of the source when that is below [n] and is untouched otherwise. *)
Lemma ring_write_cells m ring r src n :
  0 < r_size r <= 2 ^ 31 -> 0 <= r_wp r < r_size r ->
  0 <= n <= r_size r -> apart src n ring (r_size r) ->
  exists m', _aoc_ring_write_buffer m ring r src n = (n, m') /\
    forall o, 0 <= o < r_size r ->
      m' (ring + o) = if (o - r_wp r) mod r_size r <? n
                      then m (src + (o - r_wp r) mod r_size r) else m (ring + o).
Proof.
  intros Hs Hw Hn Ha. unfold _aoc_ring_write_buffer.
  rewrite (wrap_id 32 n) by lia. rewrite if_ltb_min, Z.min_l by lia.
  rewrite (wrap_id 32 (r_wp r + n)), (wrap_id 32 (r_size r - r_wp r)) by lia.
  destruct (Z.leb_spec (r_wp r + n) (r_size r)).
  - eexists. split; [done|]. intros o Ho. rewrite memcpy_at.
    destruct (Z.lt_ge_cases o (r_wp r)).
    + rewrite mod_neg_small by lia. case_tests; done.
    + rewrite Z.mod_small by lia. case_tests; f_equal; lia.
  - rewrite (wrap_id 64) by lia. eexists. split; [done|]. intros o Ho.
    rewrite !memcpy_at. unfold apart in Ha.
    destruct (Z.lt_ge_cases o (r_wp r)).
    + rewrite mod_neg_small by lia. case_tests; f_equal; lia.
    + rewrite Z.mod_small by lia. case_tests; f_equal; lia.
Qed.

Lemma lookup_app_lenZ {A} (l k : list A) i x :
  0 <= i -> (i < lenZ l -> l !! Z.to_nat i = Some x) ->
  (lenZ l <= i -> k !! Z.to_nat (i - lenZ l) = Some x) ->
  (l ++ k) !! Z.to_nat i = Some x.
Proof.
  unfold lenZ. intros Hi Hl Hk. destruct (Z.lt_ge_cases i (Z.of_nat (length l))).
  - rewrite lookup_app_l by lia. auto.
  - rewrite lookup_app_r by lia.
    replace (Z.to_nat i - length l)%nat with (Z.to_nat (i - Z.of_nat (length l))) by lia.
    auto.
Qed.

(** A write appends the source bytes to the stream. *)
Lemma ring_write_rep m ring r st src n :
  ring_rep m ring r st -> 0 <= n <= r_size r -> apart src n ring (r_size r) ->
  lenZ (written st) + n - consumed st < 2 ^ 32 ->
  exists m' r', _aoc_ring_write_buffer m ring r src n = (n, m') /\
    _region_advance_tx r n = Ret r' /\
    ring_rep m' ring r' (stream_write st (load m src n)) /\
    r_size r' = r_size r /\ r_offset r' = r_offset r /\ r_slots r' = r_slots r.
Proof.
  intros R Hn Ha Hlag.
  pose proof (rep_size _ _ _ _ R) as Hs. pose proof (ring_wp_bound _ _ _ _ R) as Hw.
  destruct (ring_write_cells m ring r src n Hs Hw Hn Ha) as (m' & Hm' & Hcell).
  assert (Hlen : lenZ (load m src n) = n) by (apply lenZ_load; lia).
  destruct (ring_advance_tx m ring r st R m' (load m src n)) as (r' & Hr' & HR' & Hrest);
    rewrite ?Hlen in *; [lia..| |eauto 10].
  assert (HL : lenZ (written st ++ load m src n) = lenZ (written st) + n)
    by (rewrite lenZ_app; lia).
  rewrite HL. intros i Hi.
  rewrite Hcell by (apply Z.mod_pos_bound; lia).
  rewrite (rep_wp _ _ _ _ R), ring_distance by lia.
  apply lookup_app_lenZ; [lia| |].
  - intros Hlt. rewrite mod_neg_small by lia. case_test; [lia|].
    apply (rep_data _ _ _ _ R). lia.
  - intros Hge. rewrite Z.mod_small by lia. case_test; [|lia].
    rewrite lookup_load, decide_True by lia. do 2 f_equal. lia.
Qed.

(** ** Reading *)

(** Only the cells of the ring matter. *)
Lemma ring_rep_frame m m' ring r st :
  ring_rep m ring r st ->
  (forall o, 0 <= o < r_size r -> m' (ring + o) = m (ring + o)) -> ring_rep m' ring r st.
Proof.
  intros R Hf. destruct R. constructor; try done.
  intros i Hi. rewrite Hf by (apply Z.mod_pos_bound; lia). auto.
Qed.

(** The number of bytes the reader finds from the positions [wp] and [rp]. *)
Lemma ring_bytes_available m ring r st :
  ring_rep m ring r st -> lenZ (written st) - consumed st <= r_size r ->
  (if r_rp r <? r_wp r then u32 (r_wp r - r_rp r)
   else if r_wp r <? r_rp r then u32 (u32 (r_wp r + r_size r) - r_rp r)
   else if r_tx r =? r_rx r then 0 else r_size r) = lenZ (written st) - consumed st.
Proof.
  intros R Hle. pose proof (ring_wp_bound _ _ _ _ R). pose proof (ring_rp_bound _ _ _ _ R).
  destruct R. set (d := lenZ (written st) - consumed st) in *.
  assert (Hd : d mod r_size r = (r_wp r - r_rp r) mod r_size r)
    by (rewrite rep_wp0, rep_rp0; symmetry; apply ring_distance; lia).
  assert (Hsplit : d = r_size r \/ d mod r_size r = d)
    by (destruct (Z.eq_dec d (r_size r)); [by left|right; apply Z.mod_small; lia]).
  destruct (Z.ltb_spec (r_rp r) (r_wp r)); [|destruct (Z.ltb_spec (r_wp r) (r_rp r))].
  - rewrite (Z.mod_small (r_wp r - r_rp r)) in Hd by lia. rewrite (wrap_id 32) by lia.
    destruct Hsplit as [Heq|]; [rewrite Heq, Z.mod_same in Hd by lia|]; lia.
  - rewrite (mod_neg_small (r_wp r - r_rp r)) in Hd by lia. wrap_small.
    destruct Hsplit as [Heq|]; [rewrite Heq, Z.mod_same in Hd by lia|]; lia.
  - assert (Heq : r_wp r = r_rp r) by lia. rewrite Heq, Z.sub_diag, Z.mod_0_l in Hd by lia.
    destruct (Z.eqb_spec (r_tx r) (r_rx r)) as [Ht|Ht].
    + assert (u32 d = 0) as Hz
        by (unfold d; rewrite <- wrap_sub_l, <- wrap_sub_r, <- rep_tx0, <- rep_rx0, Ht;
            by rewrite Z.sub_diag).
      rewrite (wrap_id 32) in Hz by lia. lia.
    + destruct Hsplit as [|Hs0]; [lia|]. destruct Ht. rewrite rep_tx0, rep_rx0. f_equal. lia.
Qed.

(** The two copies of a read fetch [k] consecutive cells, modulo the size. *)
Lemma ring_read_cells m ring dest rp sz k :
  0 < sz <= 2 ^ 31 -> 0 <= rp < sz -> 0 <= k <= sz -> apart dest k ring sz ->
  let m' := if u32 (rp + k) <=? sz then memcpy m dest (ring + rp) k
            else memcpy (memcpy m dest (ring + rp) (u32 (sz - rp)))
                   (dest + u32 (sz - rp)) ring (u32 (k - u32 (sz - rp))) in
  (forall j, 0 <= j < k -> m' (dest + j) = m (ring + (rp + j) mod sz)) /\
  (forall x, x < dest \/ dest + k <= x -> m' x = m x).
Proof.
  intros Hs Hr Hk Ha m'. subst m'. unfold apart in Ha.
  rewrite (wrap_id 32 (rp + k)), !(wrap_id 32 (sz - rp)) by lia.
  destruct (Z.leb_spec (rp + k) sz).
  - split; [intros j Hj|intros x Hx]; rewrite memcpy_at; case_tests; try done.
    rewrite Z.mod_small by lia. f_equal. lia.
  - rewrite (wrap_id 32 (k - _)) by lia.
    split; [intros j Hj|intros x Hx]; rewrite !memcpy_at; case_tests; try done.
    3: rewrite Z.mod_small by lia; f_equal; lia.
    all: rewrite <- (Z.mod_add (rp + j) (-1) sz), Z.mod_small by lia; f_equal; lia.
Qed.

(** A run of stream positions, read from its cells. *)
Lemma ring_load_stream m m' ring r st dest p k :
  ring_rep m ring r st -> Z.max 0 (lenZ (written st) - r_size r) <= p ->
  0 <= k -> p + k <= lenZ (written st) ->
  (forall j, 0 <= j < k -> m' (dest + j) = m (ring + (p mod r_size r + j) mod r_size r)) ->
  load m' dest k = take (Z.to_nat k) (drop (Z.to_nat p) (written st)).
Proof.
  intros R Hp Hk Hle Hm. pose proof (rep_size _ _ _ _ R). apply list_eq. intros i.
  rewrite lookup_load. case_decide as Hi.
  - rewrite lookup_take_lt, lookup_drop by lia.
    replace (Z.to_nat p + i)%nat with (Z.to_nat (p + Z.of_nat i)) by lia.
    rewrite (rep_data _ _ _ _ R) by lia.
    rewrite Hm by lia. do 3 f_equal. apply Zplus_mod_idemp_l.
  - symmetry. apply lookup_take_ge. lia.
Qed.

(** Catching up with a backlog larger than the ring, or staying put. *)
Lemma ring_resync m ring r st :
  ring_rep m ring r st ->
  exists r1,
    (if r_size r <? _read_write_delta r
     then let* br := _aoc_ring_reader_sync_offset r (r_size r) in Ret (snd br)
     else Ret r) = Ret r1 /\
    ring_rep m ring r1 (mk_stream (written st) (oldest (r_size r) st)) /\
    r_size r1 = r_size r /\ r_offset r1 = r_offset r /\ r_slots r1 = r_slots r.
Proof.
  intros R. pose proof (rep_size _ _ _ _ R). pose proof (ring_rp_bound _ _ _ _ R).
  pose proof (rep_lag _ _ _ _ R). rewrite (ring_delta _ _ _ _ R). unfold oldest. case_test.
  - destruct (ring_sync_offset _ _ _ _ R (r_size r)) as (r1 & -> & HR & Hrest); [lia..|].
    exists r1. split; [done|]. split; [|done]. unfold stream_flush in HR.
    replace (Z.max _ _) with (lenZ (written st) -
      Z.min (Z.min (r_size r) (r_size r)) (lenZ (written st) - consumed st)) by lia. done.
  - exists r. split; [done|]. split; [|done].
    replace (Z.max _ _) with (consumed st) by lia. by destruct st.
Qed.

(** A read returns the oldest retained bytes in order and consumes them. *)
Lemma ring_read_rep m ring r st dest n :
  ring_rep m ring r st -> 0 <= n ->
  apart dest (Z.min n (stream_available (r_size r) st)) ring (r_size r) ->
  exists k m' r1 r', _aoc_ring_read_buffer m ring r dest n = Ret (k, k, m', r1) /\
    _region_advance_rx r1 k = Ret r' /\
    k = Z.min n (stream_available (r_size r) st) /\
    ring_rep m' ring r' (snd (stream_read (r_size r) n st)) /\
    load m' dest k = fst (stream_read (r_size r) n st) /\
    r_size r' = r_size r /\ r_offset r' = r_offset r /\ r_slots r' = r_slots r.
Proof.
  intros R Hn Ha. pose proof (rep_size _ _ _ _ R).
  destruct (ring_resync _ _ _ _ R) as (r1 & Hr1 & R1 & Hs1 & Ho1 & Hl1).
  assert (Hav : stream_available (r_size r) st <= r_size r)
    by (unfold stream_available, oldest; lia).
  assert (Hav0 : 0 <= stream_available (r_size r) st).
  { pose proof (rep_order _ _ _ _ R). unfold stream_available, oldest. lia. }
  unfold _aoc_ring_read_buffer. rewrite Hr1. simpl. rewrite <- Hs1.
  rewrite (ring_bytes_available _ _ _ _ R1)
    by (rewrite Hs1; simpl; fold (stream_available (r_size r) st); lia).
  simpl. rewrite Hs1. fold (stream_available (r_size r) st).
  set (k := Z.min n (stream_available (r_size r) st)) in *.
  replace (if n <? stream_available (r_size r) st then u32 n
           else stream_available (r_size r) st) with k
    by (case_test; [rewrite wrap_id|]; lia).
  pose proof (ring_rp_bound _ _ _ _ R1) as Hrp. rewrite Hs1 in Hrp.
  destruct (ring_read_cells m ring dest (r_rp r1) (r_size r) k) as [Hc Hx]; [lia..|done|].
  match goal with |- context [Ret (_, _, ?mm, _)] => set (m' := mm) in * end.
  assert (R1' : ring_rep m' ring r1 (mk_stream (written st) (oldest (r_size r) st))).
  { apply (ring_rep_frame m); [done|]. intros o Ho. apply Hx. unfold apart in Ha.
    rewrite Hs1 in Ho. lia. }
  destruct (ring_advance_rx _ _ _ _ R1' k) as (r' & Hr' & HR' & Hs' & Ho' & Hl').
  { simpl. fold (stream_available (r_size r) st). lia. }
  { lia. }
  exists k, m', r1, r'. split_and!; try congruence; try done.
  unfold stream_read. simpl. fold k.
  pose proof (rep_order _ _ _ _ R).
  apply (ring_load_stream m m' ring r1 (mk_stream (written st) (oldest (r_size r) st)));
    rewrite ?Hs1; simpl; [done|unfold oldest; lia|lia|unfold k, stream_available; lia|].
  intros j Hj. rewrite Hc by done. by rewrite (rep_rp _ _ _ _ R1), Hs1.
Qed.

(** ** Ring services *)

(** Direction [dir] of service [s], mapped at [base], is a ring that represents
    [st]. *)
Record ring_service (m : memory) (s : aoc_ipc_service_header) (base dir : Z) (st : stream)
    : Prop := {
  rs_ring : aoc_service_is_ring s = true;
  rs_dir : VALID_DIRECTION dir = true;
  rs_base : base <> 0;
  rs_region : exists r, regions s dir = Ret r /\ r_slots r <> 0 /\
    ring_rep m (base + r_offset r) r st;
}.

(** The capacity of the ring, as the service reports it. *)
Definition ring_capacity (s : aoc_ipc_service_header) (dir : Z) : Z :=
  match aoc_service_ring_size (Some s) dir with Ret n => n | _ => 0 end.

Definition ring_address (s : aoc_ipc_service_header) (base dir : Z) : Z :=
  match aoc_service_ring_base (Some s) base dir with Ret a => a | _ => 0 end.

Lemma regions_set_region s dir r :
  VALID_DIRECTION dir = true -> regions (set_region s dir r) dir = Ret r.
Proof.
  unfold VALID_DIRECTION, regions, set_region, AOC_UP, AOC_DOWN.
  destruct (Z.eqb_spec dir 0); simpl; [done|]. by intros ->.
Qed.

Lemma is_ring_set_region s dir r :
  aoc_service_is_ring (set_region s dir r) = aoc_service_is_ring s.
Proof. unfold set_region. by destruct (dir =? AOC_UP). Qed.

#[export] Hint Rewrite is_ring_set_region : cint.

Section service.
Context (m : memory) (s : aoc_ipc_service_header) (base dir : Z) (st : stream).
Hypothesis S : ring_service m s base dir st.

Lemma ring_service_region :
  exists r, regions s dir = Ret r /\ r_slots r <> 0 /\ ring_rep m (base + r_offset r) r st /\
    ring_capacity s dir = r_size r /\ ring_address s base dir = base + r_offset r.
Proof using S.
  destruct S as [Hr Hd Hb (r & Hreg & Hsl & HR)]. exists r. split_and!; try done.
  - unfold ring_capacity, aoc_service_ring_size, bad_ring. by rewrite Hr, Hd; run; rewrite Hreg.
  - unfold ring_address, aoc_service_ring_base, bad_ring. rewrite Hr, Hd; run; rewrite Hreg.
    run. pose proof (rep_size _ _ _ _ HR). case_test; [done|lia].
Qed.

(** Replacing the region of the direction by one that represents [st']. *)
Lemma ring_service_update m' r r' st' :
  regions s dir = Ret r -> r_slots r <> 0 ->
  ring_rep m' (base + r_offset r) r' st' ->
  r_size r' = r_size r -> r_offset r' = r_offset r -> r_slots r' = r_slots r ->
  ring_service m' (set_region s dir r') base dir st'.
Proof using S.
  intros Hreg Hsl HR Hs Ho Hl. destruct S.
  constructor; [by rewrite is_ring_set_region|done|done|].
  exists r'. rewrite regions_set_region by done. by rewrite Ho, Hl.
Qed.

Lemma ring_capacity_set_region r r' :
  regions s dir = Ret r -> r_size r' = r_size r ->
  ring_capacity (set_region s dir r') dir = ring_capacity s dir.
Proof using S.
  intros Hreg Hs. unfold ring_capacity, aoc_service_ring_size, bad_ring.
  rewrite is_ring_set_region, (rs_ring _ _ _ _ _ S), (rs_dir _ _ _ _ _ S). run.
  rewrite regions_set_region, Hreg by apply (rs_dir _ _ _ _ _ S). done.
Qed.

Lemma ring_address_set_region r r' :
  regions s dir = Ret r -> r_size r' = r_size r -> r_offset r' = r_offset r ->
  ring_address (set_region s dir r') base dir = ring_address s base dir.
Proof using S.
  intros Hreg Hs Ho. unfold ring_address, aoc_service_ring_base, bad_ring.
  rewrite is_ring_set_region, (rs_ring _ _ _ _ _ S), (rs_dir _ _ _ _ _ S). run.
  rewrite regions_set_region, Hreg by apply (rs_dir _ _ _ _ _ S). run. by rewrite Hs, Ho.
Qed.

Lemma ring_base_address r :
  regions s dir = Ret r -> aoc_service_ring_base (Some s) base dir = Ret (base + r_offset r).
Proof using S.
  intros Hreg. destruct ring_service_region as (r0 & Hreg0 & _ & HR & _).
  rewrite Hreg in Hreg0. injection Hreg0 as <-.
  unfold aoc_service_ring_base, bad_ring.
  rewrite (rs_ring _ _ _ _ _ S), (rs_dir _ _ _ _ _ S); run; rewrite Hreg. run.
  pose proof (rep_size _ _ _ _ HR). case_test; [done|lia].
Qed.

(** The byte counts a client sees. *)
Lemma ring_available_to_read :
  aoc_ring_bytes_available_to_read (Some s) dir =
    Ret (stream_available (ring_capacity s dir) st).
Proof using S.
  destruct ring_service_region as (r & Hreg & Hsl & HR & Hc & _).
  unfold aoc_ring_bytes_available_to_read, bad_ring.
  rewrite (rs_ring _ _ _ _ _ S), (rs_dir _ _ _ _ _ S). run. rewrite Hreg. run.
  rewrite (ring_delta _ _ _ _ HR), Hc, if_ltb_min. unfold stream_available, oldest.
  f_equal. lia.
Qed.

Lemma ring_available_to_write :
  aoc_ring_bytes_available_to_write (Some s) dir =
    Ret (ring_capacity s dir - stream_available (ring_capacity s dir) st).
Proof using S.
  destruct ring_service_region as (r & Hreg & Hsl & HR & Hc & _).
  pose proof ring_available_to_read as Hav.
  unfold aoc_ring_bytes_available_to_write.
  replace (bad_ring (Some s) dir) with false
    by (unfold bad_ring; by rewrite (rs_ring _ _ _ _ _ S), (rs_dir _ _ _ _ _ S)).
  run. rewrite Hreg. run. rewrite Hav. run. rewrite Hc. rewrite wrap_id; [done|].
  pose proof (rep_size _ _ _ _ HR). pose proof (rep_order _ _ _ _ HR).
  unfold stream_available, oldest. lia.
Qed.

Lemma ring_can_write : aoc_service_can_write_message (Some s) dir = Ret true.
Proof using S.
  destruct ring_service_region as (r & Hreg & Hsl & HR & Hc & _).
  unfold aoc_service_can_write_message, aoc_service_slots_available_to_write, bad_service.
  rewrite (rs_dir _ _ _ _ _ S). run. rewrite Hreg. run. case_test; [done|].
  by rewrite (rs_ring _ _ _ _ _ S).
Qed.

Lemma ring_can_read :
  aoc_service_can_read_message (Some s) dir = Ret (consumed st <? lenZ (written st)).
Proof using S.
  destruct ring_service_region as (r & Hreg & Hsl & HR & Hc & _).
  unfold aoc_service_can_read_message, aoc_service_slots_available_to_read, bad_service.
  pose proof (rs_ring _ _ _ _ _ S) as Hring.
  assert (Hbuf : aoc_service_is_buffer s = false).
  { unfold aoc_service_is_ring, aoc_service_is_buffer in *.
    apply Z.eqb_eq in Hring. by rewrite Hring. }
  rewrite (rs_dir _ _ _ _ _ S). run. rewrite Hreg. run.
  destruct (Z.eqb_spec (r_slots r) 0); [done|]. rewrite Hbuf, Hring. run. f_equal.
  destruct HR. destruct (Z.eqb_spec (r_tx r) (r_rx r)) as [E|E]; run.
  - symmetry. apply Z.ltb_ge. rewrite rep_tx0, rep_rx0 in E.
    assert (u32 (lenZ (written st) - consumed st) = 0) as Hz
      by (rewrite <- wrap_sub_l, <- wrap_sub_r, E; by rewrite Z.sub_diag).
    rewrite (wrap_id 32) in Hz by lia. lia.
  - symmetry. apply Z.ltb_lt. destruct (Z.eq_dec (consumed st) (lenZ (written st))); [|lia].
    destruct E. by rewrite rep_tx0, rep_rx0; f_equal.
Qed.
End service.

(** ** What clients rely on *)

Lemma ring_write_message_ok m s base dir st buffer size :
  ring_service m s base dir st -> buffer <> 0 ->
  0 <= size <= ring_capacity s dir ->
  apart buffer size (ring_address s base dir) (ring_capacity s dir) ->
  lenZ (written st) + size - consumed st < 2 ^ 32 ->
  exists m' s', aoc_service_write_message m (Some s) base dir buffer size
      = Ret (true, m', Some s') /\
    ring_service m' s' base dir (stream_write st (load m buffer size)) /\
    ring_capacity s' dir = ring_capacity s dir /\
    ring_address s' base dir = ring_address s base dir.
Proof.
  intros S Hb Hsz Ha Hlag.
  destruct (ring_service_region _ _ _ _ _ S) as (r & Hreg & Hsl & HR & Hc & Had).
  rewrite Hc, Had in *.
  destruct (ring_write_rep _ _ _ _ buffer size HR) as (m' & r' & Hw & Htx & HR' & Hs' & Ho' & Hl');
    try done.
  exists m', (set_region s dir r').
  pose proof (ring_base_address _ _ _ _ _ S r Hreg) as Hp.
  split_and!.
  - unfold aoc_service_write_message. rewrite (ring_can_write _ _ _ _ _ S).
    unfold bad_service. rewrite (rs_dir _ _ _ _ _ S). run.
    destruct (Z.eqb_spec base 0); [by destruct (rs_base _ _ _ _ _ S)|].
    destruct (Z.eqb_spec buffer 0); [done|]. run. rewrite Hreg. run.
    unfold aoc_service_message_size, bad_service. rewrite (rs_dir _ _ _ _ _ S). run.
    rewrite Hreg. run. rewrite (rs_ring _ _ _ _ _ S). run.
    case_test; [lia|].
    rewrite Hp. run. rewrite Hw, Htx. done.
  - by apply (ring_service_update _ _ _ _ _ S) with r.
  - by rewrite (ring_capacity_set_region _ _ _ _ _ S r).
  - by rewrite (ring_address_set_region _ _ _ _ _ S r).
Qed.

(** C1. Writing a message of at most the ring's size to a ring service succeeds,
    never runs into undefined behaviour, and appends exactly the caller's bytes to
    the stream the ring represents, whether or not the write wraps around the end
    of the cells or the 32-bit counters wrap. *)
Theorem ring_write_message_refines m s base dir st buffer size :
  ring_service m s base dir st -> buffer <> 0 ->
  0 <= size <= ring_capacity s dir ->
  apart buffer size (ring_address s base dir) (ring_capacity s dir) ->
  lenZ (written st) + size - consumed st < 2 ^ 32 ->
  exists m' s', aoc_service_write_message m (Some s) base dir buffer size
      = Ret (true, m', Some s') /\
    ring_service m' s' base dir (stream_write st (load m buffer size)) /\
    ring_capacity s' dir = ring_capacity s dir /\
    ring_address s' base dir = ring_address s base dir.
Proof. exact (ring_write_message_ok m s base dir st buffer size). Qed.

Lemma ring_read_message_ok m s base dir st buffer size :
  ring_service m s base dir st -> buffer <> 0 -> 0 <= size ->
  consumed st < lenZ (written st) ->
  apart buffer (Z.min size (stream_available (ring_capacity s dir) st))
    (ring_address s base dir) (ring_capacity s dir) ->
  exists n m' s', aoc_service_read_message m (Some s) base dir buffer (Some size)
      = Ret (true, Some n, m', Some s') /\
    n = Z.min size (stream_available (ring_capacity s dir) st) /\
    load m' buffer n = fst (stream_read (ring_capacity s dir) size st) /\
    ring_service m' s' base dir (snd (stream_read (ring_capacity s dir) size st)) /\
    ring_capacity s' dir = ring_capacity s dir /\
    ring_address s' base dir = ring_address s base dir.
Proof.
  intros S Hb Hsz Hne Ha.
  destruct (ring_service_region _ _ _ _ _ S) as (r & Hreg & Hsl & HR & Hc & Had).
  rewrite Hc, Had in *.
  destruct (ring_read_rep _ _ _ _ buffer size HR)
    as (k & m' & r1 & r' & Hrd & Hrx & Hk & HR' & Hld & Hs' & Ho' & Hl'); try done.
  exists k, m', (set_region s dir r').
  pose proof (ring_base_address _ _ _ _ _ S r Hreg) as Hp.
  split_and!; try done.
  - unfold aoc_service_read_message. rewrite (ring_can_read _ _ _ _ _ S).
    unfold bad_service. rewrite (rs_dir _ _ _ _ _ S). run.
    destruct (Z.eqb_spec base 0); [by destruct (rs_base _ _ _ _ _ S)|].
    destruct (Z.eqb_spec buffer 0); [done|]. run. case_test; [|lia]. run.
    rewrite Hreg. run. rewrite (rs_ring _ _ _ _ _ S). rewrite Hp. run.
    rewrite Hrd. run. by rewrite Hrx.
  - by apply (ring_service_update _ _ _ _ _ S) with r.
  - by rewrite (ring_capacity_set_region _ _ _ _ _ S r).
  - by rewrite (ring_address_set_region _ _ _ _ _ S r).
Qed.

(** C2. Reading from a non-empty ring service succeeds, returns the oldest bytes
    that the ring still holds in the order they were written (at most [size] of
    them, the oldest being dropped if the reader was lapped), stores their number
    in [*size] and consumes exactly them. *)
Theorem ring_read_message_refines m s base dir st buffer size :
  ring_service m s base dir st -> buffer <> 0 -> 0 <= size ->
  consumed st < lenZ (written st) ->
  apart buffer (Z.min size (stream_available (ring_capacity s dir) st))
    (ring_address s base dir) (ring_capacity s dir) ->
  exists n m' s', aoc_service_read_message m (Some s) base dir buffer (Some size)
      = Ret (true, Some n, m', Some s') /\
    n = Z.min size (stream_available (ring_capacity s dir) st) /\
    load m' buffer n = fst (stream_read (ring_capacity s dir) size st) /\
    ring_service m' s' base dir (snd (stream_read (ring_capacity s dir) size st)) /\
    ring_capacity s' dir = ring_capacity s dir /\
    ring_address s' base dir = ring_address s base dir.
Proof. exact (ring_read_message_ok m s base dir st buffer size). Qed.

(** Flushing the reader keeps the newest [bytes_to_leave] bytes (at most the
    ring's size and at most the backlog) and discards everything older. *)
Theorem ring_flush_read_data_refines m s base dir st bytes_to_leave :
  ring_service m s base dir st -> 0 <= bytes_to_leave ->
  lenZ (written st) - consumed st <= 2 ^ 31 ->
  exists s', aoc_ring_flush_read_data (Some s) dir bytes_to_leave = Ret (true, Some s') /\
    ring_service m s' base dir (stream_flush (ring_capacity s dir) bytes_to_leave st).
Proof.
  intros S Hn Hlag.
  destruct (ring_service_region _ _ _ _ _ S) as (r & Hreg & Hsl & HR & Hc & Had).
  pose proof (ring_rp_bound _ _ _ _ HR). pose proof (rep_size _ _ _ _ HR).
  destruct (ring_sync_offset _ _ _ _ HR bytes_to_leave) as (r' & Hr' & HR' & Hs' & Ho' & Hl');
    [lia..|].
  exists (set_region s dir r'). split.
  - unfold aoc_ring_flush_read_data. rewrite (rs_ring _ _ _ _ _ S). run.
    rewrite Hreg. run. by rewrite Hr'.
  - rewrite Hc. by apply (ring_service_update _ _ _ _ _ S) with r.
Qed.

(** Resetting the write pointer puts it at the start of the cells and counts
    the skipped cells as written: the stream grows by the stale bytes they hold
    (a whole ring of them when the pointer already was at the start). *)
Theorem ring_reset_write_pointer_refines m s base dir st :
  ring_service m s base dir st ->
  lenZ (written st) + ring_capacity s dir - consumed st < 2 ^ 32 ->
  ring_capacity s dir < 2 ^ 31 ->
  exists s' stale, aoc_ring_reset_write_pointer (Some s) dir = Ret (true, Some s') /\
    aoc_service_ring_write_offset (Some s') dir = Ret 0 /\
    ring_service m s' base dir (stream_write st stale) /\
    lenZ stale = ring_capacity s dir - lenZ (written st) mod ring_capacity s dir.
Proof.
  intros S Hlag Hcap.
  destruct (ring_service_region _ _ _ _ _ S) as (r & Hreg & Hsl & HR & Hc & Had).
  rewrite Hc in *. pose proof (ring_wp_bound _ _ _ _ HR) as Hw.
  pose proof (rep_size _ _ _ _ HR). pose proof (rep_order _ _ _ _ HR).
  set (ring := base + r_offset r) in *. set (n := r_size r - r_wp r).
  assert (Hlen : lenZ (load m (ring + r_wp r) n) = n)
    by (apply lenZ_load; lia).
  destruct (ring_advance_tx m ring r st HR m (load m (ring + r_wp r) n))
    as (r' & Hr' & HR' & Hs' & Ho' & Hl'); rewrite ?Hlen in *; [lia..| |].
  { assert (HL : lenZ (written st ++ load m (ring + r_wp r) n) = lenZ (written st) + n)
      by (rewrite lenZ_app; lia).
    rewrite HL. intros i Hi. apply lookup_app_lenZ; [lia| |].
    - intros Hlt. apply (rep_data _ _ _ _ HR). lia.
    - intros Hge. rewrite lookup_load, decide_True by lia. do 2 f_equal.
      replace (i mod r_size r) with (r_wp r + (i - lenZ (written st))); [lia|].
      apply Z.mod_unique_pos with (lenZ (written st) / r_size r); [lia|].
      pose proof (Z.div_mod (lenZ (written st)) (r_size r)).
      rewrite (rep_wp _ _ _ _ HR). lia. }
  exists (set_region s dir r'), (load m (ring + r_wp r) n). split_and!.
  - unfold aoc_ring_reset_write_pointer. rewrite (rs_ring _ _ _ _ _ S). run.
    rewrite Hreg. run. fold n. rewrite (wrap_id 32 n), (swrap_id 32 n) by lia.
    case_test; [|lia]. rewrite (wrap_id 32 n) by lia. by rewrite Hr'.
  - unfold aoc_service_ring_write_offset, bad_ring.
    rewrite is_ring_set_region, (rs_ring _ _ _ _ _ S), (rs_dir _ _ _ _ _ S). run.
    rewrite regions_set_region by apply (rs_dir _ _ _ _ _ S). run.
    rewrite (rep_wp _ _ _ _ HR'). simpl. rewrite lenZ_app, Hlen, Hs', <- mod_add_small by lia.
    rewrite <- (rep_wp _ _ _ _ HR). f_equal. unfold n.
    replace (r_wp r + (r_size r - r_wp r)) with (r_size r) by lia. apply Z.mod_same. lia.
  - by apply (ring_service_update _ _ _ _ _ S) with r.
  - rewrite Hlen. unfold n. by rewrite (rep_wp _ _ _ _ HR).
Qed.

(** A service whose counters are all zero holds the empty stream. *)
Lemma ring_service_empty m s base dir r :
  aoc_service_is_ring s = true -> VALID_DIRECTION dir = true -> base <> 0 ->
  regions s dir = Ret r -> r_slots r <> 0 -> 0 < r_size r <= 2 ^ 31 ->
  r_tx r = 0 -> r_rx r = 0 -> r_wp r = 0 -> r_rp r = 0 ->
  ring_service m s base dir (mk_stream [] 0).
Proof.
  intros. constructor; try done. exists r. split_and!; try done.
  constructor; unfold lenZ; simpl; rewrite ?Z.mod_0_l by lia; done || lia.
Qed.

(** Reading from an empty ring fails and changes nothing. *)
Lemma ring_read_empty m s base dir st buffer size :
  ring_service m s base dir st -> lenZ (written st) <= consumed st ->
  aoc_service_read_message m (Some s) base dir buffer (Some size)
    = Ret (false, Some size, m, Some s).
Proof.
  intros S He. unfold aoc_service_read_message. rewrite (ring_can_read _ _ _ _ _ S).
  destruct (_ || _ || _); [done|]. run. case_test; [lia|]. done.
Qed.

(** ** A writer that respects the free space loses nothing *)

(** A run of one ring: the memory, the header, and the bytes accepted from the
    writer and delivered to the reader so far. *)
Record conf := mk_conf {
  c_mem : memory;
  c_service : aoc_ipc_service_header;
  c_sent : list Z;
  c_delivered : list Z;
}.

Inductive ring_step (base dir : Z) : conf -> conf -> Prop :=
| step_write m s W D buffer size free m' s' :
    buffer <> 0 ->
    aoc_ring_bytes_available_to_write (Some s) dir = Ret free -> 0 <= size <= free ->
    apart buffer size (ring_address s base dir) (ring_capacity s dir) ->
    aoc_service_write_message m (Some s) base dir buffer size = Ret (true, m', Some s') ->
    ring_step base dir (mk_conf m s W D) (mk_conf m' s' (W ++ load m buffer size) D)
| step_read m s W D buffer size n m' s' :
    buffer <> 0 -> 0 <= size ->
    apart buffer size (ring_address s base dir) (ring_capacity s dir) ->
    aoc_service_read_message m (Some s) base dir buffer (Some size)
      = Ret (true, Some n, m', Some s') ->
    ring_step base dir (mk_conf m s W D) (mk_conf m' s' W (D ++ load m' buffer n))
| step_client m s W D a bs :
    apart a (lenZ bs) (ring_address s base dir) (ring_capacity s dir) ->
    ring_step base dir (mk_conf m s W D) (mk_conf (store m a bs) s W D).

(** The delivered bytes are a prefix of the accepted ones, and the ring holds the
    rest. *)
Definition lossless (base dir cap : Z) (c : conf) : Prop :=
  ring_service (c_mem c) (c_service c) base dir (mk_stream (c_sent c) (lenZ (c_delivered c))) /\
  ring_capacity (c_service c) dir = cap /\ 0 < cap <= 2 ^ 31 /\
  exists pending, c_sent c = c_delivered c ++ pending /\ lenZ pending <= cap.

(** With the backlog inside the ring, a read takes a prefix of the pending bytes. *)
Lemma stream_read_pending cap n D pending :
  0 <= n -> lenZ pending <= cap ->
  let k := Z.min n (lenZ pending) in
  stream_available cap (mk_stream (D ++ pending) (lenZ D)) = lenZ pending /\
  stream_read cap n (mk_stream (D ++ pending) (lenZ D)) =
    (take (Z.to_nat k) pending, mk_stream (D ++ pending) (lenZ D + k)).
Proof.
  intros Hn Hp k. pose proof (lenZ_nonneg pending).
  assert (Ho : oldest cap (mk_stream (D ++ pending) (lenZ D)) = lenZ D)
    by (unfold oldest; simpl; rewrite lenZ_app; lia).
  assert (Ha : stream_available cap (mk_stream (D ++ pending) (lenZ D)) = lenZ pending)
    by (unfold stream_available; rewrite Ho; simpl; rewrite lenZ_app; lia).
  split; [done|]. unfold stream_read. rewrite Ho, Ha. simpl. fold k. do 2 f_equal.
  replace (Z.to_nat (lenZ D)) with (length D) by (unfold lenZ; lia).
  apply drop_app_length.
Qed.

Lemma ring_step_lossless base dir cap c c' :
  lossless base dir cap c -> ring_step base dir c c' -> lossless base dir cap c'.
Proof.
  intros (S & Hc & Hcap & pending & HW & Hp) Hstep. destruct Hstep as
    [m s W D buffer size free m' s' Hb Hfree Hsz Ha Hw
    |m s W D buffer size n m' s' Hb Hsz Ha Hr|m s W D a bs Ha]; simpl in *; subst W.
  - rewrite (ring_available_to_write _ _ _ _ _ S), Hc in Hfree. injection Hfree as <-.
    destruct (stream_read_pending cap 0 D pending) as [Hav _]; [lia..|]. rewrite Hav in Hsz.
    pose proof (lenZ_nonneg pending).
    destruct (ring_write_message_ok _ _ _ _ _ buffer size S)
      as (m1 & s1 & Hw1 & S1 & Hc1 & _); simpl; rewrite ?lenZ_app, ?Hc; [done|lia| |lia|].
    { by rewrite Hc in Ha. }
    rewrite Hw in Hw1. injection Hw1 as <- <-. unfold lossless; simpl.
    split_and!; [done|congruence|lia|lia|]. exists (pending ++ load m buffer size).
    rewrite app_assoc, lenZ_app, lenZ_load by lia. split; [done|lia].
  - destruct (stream_read_pending cap size D pending) as [Hav Hrd]; [lia..|].
    pose proof (lenZ_nonneg pending).
    destruct (Z.le_gt_cases (lenZ (D ++ pending)) (lenZ D)) as [He|Hne].
    { by rewrite (ring_read_empty _ _ _ _ _ buffer size S He) in Hr. }
    destruct (ring_read_message_ok _ _ _ _ _ buffer size S)
      as (n1 & m1 & s1 & Hr1 & Hn1 & Hld & S1 & Hc1 & _); rewrite ?Hc, ?Hav; try done.
    { unfold apart in *. rewrite Hc in Ha. lia. }
    rewrite Hr in Hr1. injection Hr1 as <- <- <-. rewrite Hc, Hav in *. rewrite Hrd in *.
    simpl in *. unfold lossless; simpl. rewrite Hld, lenZ_app.
    assert (Hk : lenZ (take (Z.to_nat (Z.min size (lenZ pending))) pending)
                 = Z.min size (lenZ pending)) by (unfold lenZ in *; rewrite length_take; lia).
    rewrite Hk. split_and!; [done|congruence|lia|lia|].
    exists (drop (Z.to_nat (Z.min size (lenZ pending))) pending).
    rewrite <- app_assoc, take_drop. split; [done|].
    unfold lenZ in *. rewrite length_drop. lia.
  - unfold lossless; simpl. split_and!; [|done|lia|lia|by exists pending].
    destruct S as [Hring Hdir Hbase (r & Hreg & Hsl & HR)]. constructor; try done.
    exists r. split_and!; try done. apply (ring_rep_frame m); [done|].
    intros o Ho. apply store_out. fold (lenZ bs).
    unfold ring_address, ring_capacity, aoc_service_ring_base, aoc_service_ring_size, bad_ring in Ha.
    rewrite Hring, Hdir in Ha. run_in Ha. rewrite Hreg in Ha. run_in Ha.
    unfold apart in Ha. destruct (Z.ltb_spec 0 (r_size r)); lia.
Qed.

(** C3. Started on an empty ring, any interleaving of writes that fit the
    reported free space, reads of any size and unrelated client stores delivers a
    prefix of the accepted bytes, in order, and never has more than the ring's
    size outstanding: no byte is lost, duplicated or reordered. *)
Theorem ring_lossless_fifo base dir c c' :
  ring_service (c_mem c) (c_service c) base dir (mk_stream [] 0) ->
  c_sent c = [] -> c_delivered c = [] ->
  rtc (ring_step base dir) c c' ->
  exists pending, c_sent c' = c_delivered c' ++ pending /\
    lenZ pending <= ring_capacity (c_service c) dir /\
    aoc_ring_bytes_available_to_read (Some (c_service c')) dir = Ret (lenZ pending).
Proof.
  intros S Hs Hd Hrun.
  assert (Hinv : lossless base dir (ring_capacity (c_service c) dir) c).
  { destruct (ring_service_region _ _ _ _ _ S) as (r & _ & _ & HR & Hc & _).
    pose proof (rep_size _ _ _ _ HR). unfold lossless. rewrite Hs, Hd, Hc.
    split_and!; [done|done|lia|lia|]. exists []. split; [done|]. unfold lenZ. simpl. lia. }
  assert (Hinv' : lossless base dir (ring_capacity (c_service c) dir) c').
  { clear S Hs Hd. revert Hinv. generalize (ring_capacity (c_service c) dir).
    induction Hrun; eauto using ring_step_lossless. }
  destruct Hinv' as (S' & Hc' & Hcap & pending & HW & Hp). exists pending.
  split_and!; [done|done|]. rewrite (ring_available_to_read _ _ _ _ _ S'), Hc', HW.
  f_equal. apply (stream_read_pending _ 0); [lia|done].
Qed.

(** Advancing the read index of a ring by hand never passes the writer: it
    consumes [min amount available] bytes and reports whether that was all. *)
Theorem ring_advance_read_index_clamps m s base dir st amount :
  ring_service m s base dir st -> 0 <= amount < 2 ^ 32 ->
  lenZ (written st) - consumed st <= ring_capacity s dir ->
  let n := Z.min amount (lenZ (written st) - consumed st) in
  exists s', aoc_service_advance_read_index (Some s) dir amount
      = Ret (n =? amount, Some s') /\
    ring_service m s' base dir (mk_stream (written st) (consumed st + n)).
Proof.
  intros S Ham Hle n.
  destruct (ring_service_region _ _ _ _ _ S) as (r & Hreg & Hsl & HR & Hc & Had).
  pose proof (rep_size _ _ _ _ HR). pose proof (rep_order _ _ _ _ HR).
  pose proof (ring_rp_bound _ _ _ _ HR). rewrite Hc in Hle.
  assert (Hav : stream_available (r_size r) st = lenZ (written st) - consumed st)
    by (unfold stream_available, oldest; lia).
  destruct (ring_advance_rx _ _ _ _ HR n) as (r' & Hr' & HR' & Hs' & Ho' & Hl'); [lia..|].
  exists (set_region s dir r'). split.
  - unfold aoc_service_advance_read_index. rewrite (rs_ring _ _ _ _ _ S).
    rewrite (ring_available_to_read _ _ _ _ _ S), Hc, Hav. run.
    rewrite (wrap_id 32), if_ltb_min by lia. fold n. rewrite Hreg. run. by rewrite Hr'.
  - by apply (ring_service_update _ _ _ _ _ S) with r.
Qed.

(** ** Witnesses *)

(** An empty ring of eight bytes, and client bytes to write at address 100. *)
Definition demo_region : aoc_ipc_memory_region := mk_region 64 8 1 0 0 0 0.
Definition demo_service : aoc_ipc_service_header :=
  mk_service [] 0x00010000 demo_region demo_region.
Definition demo_memory : memory := fun x => if (100 <=? x) && (x <? 112) then x else 0.

Lemma demo_ring : ring_service demo_memory demo_service 4096 AOC_UP (mk_stream [] 0).
Proof. apply (ring_service_empty _ _ _ _ demo_region); vm_compute; (done || split; done). Qed.

Lemma ring_write_message_refines_witness :
  exists m' s', aoc_service_write_message demo_memory (Some demo_service) 4096 AOC_UP 100 5
      = Ret (true, m', Some s') /\
    ring_service m' s' 4096 AOC_UP (stream_write (mk_stream [] 0) [100; 101; 102; 103; 104]).
Proof.
  destruct (ring_write_message_refines demo_memory demo_service 4096 AOC_UP (mk_stream [] 0) 100 5)
    as (m' & s' & Hw & S & _); [exact demo_ring|done|by vm_compute|left; by vm_compute|by vm_compute|].
  exists m', s'. split; [exact Hw|exact S].
Defined.

(** The same ring with five bytes written, two of them consumed. *)
Definition demo_region5 : aoc_ipc_memory_region := mk_region 64 8 1 5 2 5 2.
Definition demo_service5 : aoc_ipc_service_header :=
  mk_service [] 0x00010000 demo_region5 demo_region.
Definition demo_memory5 : memory :=
  fun x => if (4160 <=? x) && (x <? 4168) then x - 4150 else 0.
Definition demo_stream5 : stream := mk_stream [10; 11; 12; 13; 14] 2.

Lemma demo_ring5 : ring_service demo_memory5 demo_service5 4096 AOC_UP demo_stream5.
Proof.
  constructor; try done. exists demo_region5. split_and!; [done|done|].
  constructor; [vm_compute; done|reflexivity..|vm_compute; done|vm_compute; done|].
  intros i Hi. assert (Hc : i = 0 \/ i = 1 \/ i = 2 \/ i = 3 \/ i = 4)
    by (change (Z.max 0 (5 - 8) <= i < 5) in Hi; lia).
  destruct Hc as [->|[->|[->|[->| ->]]]]; reflexivity.
Qed.

Lemma ring_read_message_refines_witness :
  exists m' s', aoc_service_read_message demo_memory5 (Some demo_service5) 4096 AOC_UP 100 (Some 2)
      = Ret (true, Some 2, m', Some s') /\ load m' 100 2 = [12; 13] /\
    ring_service m' s' 4096 AOC_UP (mk_stream [10; 11; 12; 13; 14] 4).
Proof.
  destruct (ring_read_message_refines demo_memory5 demo_service5 4096 AOC_UP demo_stream5 100 2)
    as (n & m' & s' & Hr & Hn & Hl & S & _);
    [exact demo_ring5|done|done|by vm_compute|left; by vm_compute|].
  change (n = 2) in Hn. subst n. exists m', s'. split; [exact Hr|]. split; [exact Hl|exact S].
Defined.

Lemma ring_flush_read_data_refines_witness :
  exists s', aoc_ring_flush_read_data (Some demo_service5) AOC_UP 1 = Ret (true, Some s') /\
    ring_service demo_memory5 s' 4096 AOC_UP (mk_stream [10; 11; 12; 13; 14] 4).
Proof.
  exact (ring_flush_read_data_refines demo_memory5 demo_service5 4096 AOC_UP demo_stream5 1
           demo_ring5 ltac:(done) ltac:(by vm_compute)).
Defined.

Lemma ring_reset_write_pointer_refines_witness :
  exists s' stale, aoc_ring_reset_write_pointer (Some demo_service5) AOC_UP = Ret (true, Some s') /\
    aoc_service_ring_write_offset (Some s') AOC_UP = Ret 0 /\
    ring_service demo_memory5 s' 4096 AOC_UP (stream_write demo_stream5 stale) /\
    lenZ stale = 3.
Proof.
  exact (ring_reset_write_pointer_refines demo_memory5 demo_service5 4096 AOC_UP demo_stream5
           demo_ring5 ltac:(by vm_compute) ltac:(by vm_compute)).
Defined.

Lemma ring_advance_read_index_clamps_witness :
  exists s', aoc_service_advance_read_index (Some demo_service5) AOC_UP 7
      = Ret (false, Some s') /\
    ring_service demo_memory5 s' 4096 AOC_UP (mk_stream [10; 11; 12; 13; 14] 5).
Proof.
  exact (ring_advance_read_index_clamps demo_memory5 demo_service5 4096 AOC_UP demo_stream5 7
           demo_ring5 ltac:(done) ltac:(by vm_compute)).
Defined.

Lemma ring_lossless_fifo_witness :
  exists c', c_sent c' = [100; 101; 102; 103; 104] /\ c_delivered c' = [100; 101] /\
    exists pending, c_sent c' = c_delivered c' ++ pending /\ lenZ pending <= 8 /\
      aoc_ring_bytes_available_to_read (Some (c_service c')) AOC_UP = Ret (lenZ pending).
Proof.
  destruct (ring_write_message_ok demo_memory demo_service 4096 AOC_UP (mk_stream [] 0) 100 5)
    as (m1 & s1 & W & S1 & C1 & A1);
    [exact demo_ring|done|by vm_compute|left; by vm_compute|by vm_compute|].
  change (ring_capacity demo_service AOC_UP) with 8 in C1.
  change (ring_address demo_service 4096 AOC_UP) with 4160 in A1.
  destruct (ring_read_message_ok m1 s1 4096 AOC_UP _ 200 2 S1)
    as (n & m2 & s2 & R & N & L & _ & C2 & A2);
    [done|done|by vm_compute|rewrite A1, C1; left; by vm_compute|].
  rewrite C1 in N, L. change (n = 2) in N. subst n.
  exists (mk_conf m2 s2 ([] ++ load demo_memory 100 5) ([] ++ load m2 200 2)).
  split; [by vm_compute|]. split; [simpl; by rewrite L|].
  apply (ring_lossless_fifo 4096 AOC_UP (mk_conf demo_memory demo_service [] []));
    [exact demo_ring|done|done|].
  eapply rtc_l; [apply (step_write _ _ _ _ _ _ 100 5 8);
                 [done|by vm_compute|done|left; by vm_compute|exact W]|].
  eapply rtc_l; [|apply rtc_refl]. apply (step_read _ _ _ _ _ _ 200 2 2); [done|done| |exact R].
  rewrite A1, C1. left. by vm_compute.
Defined.
