(* ===== verification/AocQueue.v ===== *)
(** What an AoC message queue promises (aoc_ipc/aoc_ipc_core.c).

    A queue region is an array of [slots] slots of [size] bytes, each an eight-byte
    header followed by the payload; slot [counter mod slots] is the next one to
    write or to read.  The abstract queue is a list of messages.  Reading is correct
    for every slot count.  Writing is, unless the 32-bit counter wraps among the
    pending messages and the slot count does not divide [2^32] ([window]):
    [slot_reuse_at_wrap] shows what the code does then. *)

From S2P Require Import Prelude AocIpc AocRing.

(** ** Representation *)

(** The slot at address [a] holds message [msg]. *)
Record slot_holds (m : memory) (a sz : Z) (msg : list Z) : Prop := {
  slot_length : message_header_length m a = lenZ msg;
  slot_fits : lenZ msg <= sz - MESSAGE_HEADER_SIZE;
  slot_payload : load m (a + MESSAGE_HEADER_SIZE) (lenZ msg) = msg;
}.

(** The address of the slot for message number [c], whose counter is [u32 c]. *)
Definition slot_addr (q : Z) (r : aoc_ipc_memory_region) (c : Z) : Z :=
  q + r_size r * (u32 c mod r_slots r).

(** The last [k] numbers before [n], and [n] itself, have distinct slots: the slot
    count divides [2^32], or the counter did not wrap among them. *)
Definition window (slots n k : Z) : Prop := (slots | 2 ^ 32) \/ k <= u32 n.

(** [queue_rep m q r n msgs]: the region [r] with its slots at address [q] has
    accepted [n] messages so far and [msgs] are the pending ones. *)
Record queue_rep (m : memory) (q : Z) (r : aoc_ipc_memory_region) (n : Z)
    (msgs : list (list Z)) : Prop := {
  qr_size : MESSAGE_HEADER_SIZE < r_size r;
  qr_slots : 0 < r_slots r;
  qr_total : r_slots r * r_size r < 2 ^ 32;
  qr_tx : r_tx r = u32 n;
  qr_rx : r_rx r = u32 (n - lenZ msgs);
  qr_pending : lenZ msgs <= r_slots r;
  qr_nonneg : lenZ msgs <= n;
  qr_data : forall i msg, msgs !! i = Some msg ->
    slot_holds m (slot_addr q r (n - lenZ msgs + Z.of_nat i)) (r_size r) msg;
}.

(** Direction [dir] of service [s], mapped at [base], is such a queue. *)
Record queue_service (m : memory) (s : aoc_ipc_service_header) (base dir n : Z)
    (msgs : list (list Z)) : Prop := {
  qs_not_ring : aoc_service_is_ring s = false;
  qs_not_buffer : aoc_service_is_buffer s = false;
  qs_dir : VALID_DIRECTION dir = true;
  qs_base : base <> 0;
  qs_region : exists r, regions s dir = Ret r /\ queue_rep m (base + r_offset r) r n msgs;
}.

(** Address, slot size and slot count of the queue of a service. *)
Definition queue_geometry (s : aoc_ipc_service_header) (base dir : Z) : Z * Z * Z :=
  match regions s dir with
  | Ret r => (base + r_offset r, r_size r, r_slots r)
  | _ => (0, 0, 0)
  end.

(** ** Slots *)

Lemma message_header_length_store m a n :
  0 <= n < 2 ^ 16 -> message_header_length (store m a (message_header n)) a = n.
Proof.
  intros Hn. unfold message_header_length.
  rewrite (store_in m a _ a (u16 n mod 256)), (store_in m a _ (a + 1) (u16 n / 256)).
  - rewrite wrap_id by lia. pose proof (Z.div_mod n 256). lia.
  - lia.
  - by replace (Z.to_nat (a + 1 - a)) with 1%nat by lia.
  - lia.
  - by replace (Z.to_nat (a - a)) with 0%nat by lia.
Qed.

Lemma slot_holds_frame m m' a sz msg :
  slot_holds m a sz msg -> MESSAGE_HEADER_SIZE < sz ->
  (forall x, a <= x < a + sz -> m' x = m x) -> slot_holds m' a sz msg.
Proof.
  intros [Hl Hf Hp] Hs Hx. unfold MESSAGE_HEADER_SIZE in *. constructor; [|done|].
  - rewrite <- Hl. unfold message_header_length. by rewrite !Hx by lia.
  - rewrite <- Hp at 2. apply load_ext. intros x Hb. apply Hx.
    unfold MESSAGE_HEADER_SIZE in *. lia.
Qed.

(** Writing a message into the slot at [a]. *)
Lemma queue_write_slot m a src n sz :
  0 <= n < 2 ^ 16 -> n <= sz - MESSAGE_HEADER_SIZE -> apart src n a sz ->
  exists m', _aoc_queue_write_buffer m a src n = (n, m') /\
    slot_holds m' a sz (load m src n) /\
    (forall x, x < a \/ a + sz <= x -> m' x = m x).
Proof.
  unfold MESSAGE_HEADER_SIZE. intros Hn Hs Ha. unfold _aoc_queue_write_buffer.
  set (m1 := store m a (message_header n)). eexists. split; [done|].
  unfold MESSAGE_HEADER_SIZE, apart in *.
  assert (Hsrc : load m1 src n = load m src n).
  { apply load_store_disjoint. change (Z.of_nat (length (message_header n))) with 8. lia. }
  assert (Hlen : lenZ (load m src n) = n) by (apply lenZ_load; lia).
  unfold memcpy. rewrite Hsrc. split.
  - constructor; unfold MESSAGE_HEADER_SIZE; rewrite Hlen; [|lia|].
    + unfold message_header_length. rewrite !store_out by lia.
      by apply message_header_length_store.
    + pose proof (load_store_same m1 (a + 8) (load m src n)) as Hss.
      fold (lenZ (load m src n)) in Hss. by rewrite Hlen in Hss.
  - intros x Hx. rewrite store_out by (fold (lenZ (load m src n)); lia).
    apply store_out. change (Z.of_nat (length (message_header n))) with 8. lia.
Qed.

(** Slots with distinct indices do not overlap. *)
Lemma slot_addr_apart q r c c' x :
  0 < r_slots r -> 0 <= r_size r -> u32 c mod r_slots r <> u32 c' mod r_slots r ->
  slot_addr q r c <= x < slot_addr q r c + r_size r ->
  x < slot_addr q r c' \/ slot_addr q r c' + r_size r <= x.
Proof.
  intros Hs Hz Hne Hx. unfold slot_addr in *.
  pose proof (Z.mod_pos_bound (u32 c) (r_slots r) Hs).
  pose proof (Z.mod_pos_bound (u32 c') (r_slots r) Hs). nia.
Qed.

(** Numbers less than a queue apart have distinct indices. *)
Lemma mod_apart s a b : 0 < s -> 0 < b - a < s -> a mod s <> b mod s.
Proof.
  intros Hs Hd E. assert (Hz : (b - a) mod s = 0)
    by (rewrite Zminus_mod, E, Z.sub_diag; apply Z.mod_0_l; lia).
  rewrite Z.mod_small in Hz; lia.
Qed.

Lemma window_apart slots n k c :
  0 < slots -> window slots n k -> n - k <= c < n -> n - c < slots ->
  u32 c mod slots <> u32 n mod slots.
Proof.
  intros Hs [Hd|Hk] Hc Hn.
  - rewrite !wrap_mod_divide by done. apply mod_apart; lia.
  - assert (E : u32 c = u32 n - (n - c)).
    { pose proof (wrap_range 32 n ltac:(lia)).
      replace c with (n - (n - c)) at 1 by lia. rewrite <- wrap_sub_l. apply wrap_id. lia. }
    rewrite E. apply mod_apart; lia.
Qed.

Lemma slot_addr_inside q r c :
  0 < r_slots r -> 0 <= r_size r ->
  q <= slot_addr q r c /\ slot_addr q r c + r_size r <= q + r_slots r * r_size r.
Proof.
  intros Hs Hz. unfold slot_addr. pose proof (Z.mod_pos_bound (u32 c) (r_slots r) Hs). nia.
Qed.

(** ** Queue operations on the representation *)

Section rep.
Context (m : memory) (q : Z) (r : aoc_ipc_memory_region) (n : Z) (msgs : list (list Z)).
Hypothesis Q : queue_rep m q r n msgs.

Lemma queue_delta : _read_write_delta r = lenZ msgs.
Proof using Q.
  destruct Q. pose proof (lenZ_nonneg msgs). unfold MESSAGE_HEADER_SIZE in *.
  rewrite read_write_delta_wrap.
  - rewrite qr_tx0, qr_rx0, wrap_sub_l, wrap_sub_r.
    replace (n - (n - lenZ msgs)) with (lenZ msgs) by lia. apply wrap_id. nia.
  - rewrite qr_tx0. apply wrap_range. lia.
  - rewrite qr_rx0. apply wrap_range. lia.
Qed.

(** The slots that the counters select. *)
Lemma queue_tx_slot : r_tx r mod r_slots r = u32 n mod r_slots r.
Proof using Q. destruct Q. by rewrite qr_tx0. Qed.

Lemma queue_rx_slot : r_rx r mod r_slots r = u32 (n - lenZ msgs) mod r_slots r.
Proof using Q. destruct Q. by rewrite qr_rx0. Qed.

Lemma queue_slot_offset c :
  u32 (r_size r * (c mod r_slots r)) = r_size r * (c mod r_slots r).
Proof using Q.
  destruct Q. pose proof (Z.mod_pos_bound c (r_slots r) qr_slots0).
  unfold MESSAGE_HEADER_SIZE in *. apply wrap_id. nia.
Qed.

(** Appending a message that sits in the next slot of a memory that agrees with
    [m] outside that slot. *)
Lemma queue_push m' msg :
  lenZ msgs < r_slots r -> window (r_slots r) n (lenZ msgs) ->
  slot_holds m' (slot_addr q r n) (r_size r) msg ->
  (forall x, x < slot_addr q r n \/ slot_addr q r n + r_size r <= x -> m' x = m x) ->
  exists r', _region_advance_tx r 1 = Ret r' /\ queue_rep m' q r' (n + 1) (msgs ++ [msg]) /\
    r_size r' = r_size r /\ r_slots r' = r_slots r /\ r_offset r' = r_offset r.
Proof using Q.
  intros Hroom Hwin Hslot Hframe. pose proof (lenZ_nonneg msgs). destruct Q.
  unfold _region_advance_tx, MESSAGE_HEADER_SIZE in *. case_test; [lia|].
  eexists. split; [done|]. split; [|done].
  assert (HL : lenZ (msgs ++ [msg]) = lenZ msgs + 1) by (rewrite lenZ_app; done).
  constructor; simpl; rewrite ?HL; try done; try lia.
  - by rewrite qr_tx0, wrap_add_l.
  - rewrite qr_rx0. f_equal. lia.
  - intros i x Hi. unfold slot_addr. simpl. fold (slot_addr q r (n + 1 - (lenZ msgs + 1) + Z.of_nat i)).
    replace (n + 1 - (lenZ msgs + 1)) with (n - lenZ msgs) by lia.
    apply lookup_app_Some in Hi as [Hi|[Hge Hi]].
    + pose proof (lookup_lt_Some _ _ _ Hi). apply (slot_holds_frame m); [by apply qr_data0|done|].
      intros y Hy. apply Hframe. eapply slot_addr_apart; [..|exact Hy]; [lia|lia|].
      eapply window_apart; [|exact Hwin|..]; unfold lenZ in *; lia.
    + apply list_lookup_singleton_Some in Hi as [Hi <-].
      replace (n - lenZ msgs + Z.of_nat i) with n by (unfold lenZ; lia). done.
Qed.

(** Dropping the oldest message. *)
Lemma queue_pop m' msg rest :
  msgs = msg :: rest ->
  (forall x, q <= x < q + r_slots r * r_size r -> m' x = m x) ->
  exists r', _region_advance_rx r 1 = Ret r' /\ queue_rep m' q r' n rest /\
    r_size r' = r_size r /\ r_slots r' = r_slots r /\ r_offset r' = r_offset r.
Proof using Q.
  intros -> Hframe. destruct Q.
  assert (HL : lenZ (msg :: rest) = lenZ rest + 1) by (unfold lenZ; simpl; lia).
  rewrite HL in *. unfold _region_advance_rx, MESSAGE_HEADER_SIZE in *. case_test; [lia|].
  eexists. split; [done|]. split; [|done].
  constructor; simpl; try done; try lia.
  - rewrite qr_rx0, wrap_add_l. f_equal. lia.
  - intros i x Hi. unfold slot_addr. simpl. fold (slot_addr q r (n - lenZ rest + Z.of_nat i)).
    replace (n - lenZ rest + Z.of_nat i) with (n - (lenZ rest + 1) + Z.of_nat (S i)) by lia.
    apply (slot_holds_frame m); [by apply qr_data0|done|].
    intros y Hy. apply Hframe.
    pose proof (slot_addr_inside q r (n - (lenZ rest + 1) + Z.of_nat (S i))). lia.
Qed.
End rep.

(** ** What clients rely on *)

Section queue_clients.
Context (m : memory) (s : aoc_ipc_service_header) (base dir n : Z) (msgs : list (list Z)).
Hypothesis S : queue_service m s base dir n msgs.

Lemma queue_service_region :
  exists r, regions s dir = Ret r /\ queue_rep m (base + r_offset r) r n msgs /\
    queue_geometry s base dir = (base + r_offset r, r_size r, r_slots r).
Proof using S.
  destruct S as [_ _ _ _ (r & Hreg & HQ)]. exists r. split_and!; [done|done|].
  unfold queue_geometry. by rewrite Hreg.
Qed.

Lemma queue_slots_to_read :
  aoc_service_slots_available_to_read (Some s) dir = Ret (lenZ msgs).
Proof using S.
  destruct queue_service_region as (r & Hreg & HQ & _).
  unfold aoc_service_slots_available_to_read, bad_service.
  rewrite (qs_dir _ _ _ _ _ _ S). run. rewrite Hreg. run.
  rewrite (qs_not_ring _ _ _ _ _ _ S), (qs_not_buffer _ _ _ _ _ _ S).
  rewrite (queue_delta _ _ _ _ _ HQ), if_ltb_min.
  pose proof (qr_slots _ _ _ _ _ HQ). pose proof (qr_pending _ _ _ _ _ HQ).
  case_test; [lia|]. f_equal. lia.
Qed.

Lemma queue_slots_to_write :
  aoc_service_slots_available_to_write (Some s) dir =
    Ret (snd (queue_geometry s base dir) - lenZ msgs).
Proof using S.
  destruct queue_service_region as (r & Hreg & HQ & ->).
  unfold aoc_service_slots_available_to_write, bad_service.
  rewrite (qs_dir _ _ _ _ _ _ S). run. rewrite Hreg. run.
  rewrite (qs_not_ring _ _ _ _ _ _ S), (qs_not_buffer _ _ _ _ _ _ S).
  rewrite (queue_delta _ _ _ _ _ HQ).
  pose proof (lenZ_nonneg msgs). destruct HQ. unfold MESSAGE_HEADER_SIZE in *.
  case_test; [lia|]. f_equal. apply wrap_id. nia.
Qed.

(** Replacing the region of the direction. *)
Lemma queue_service_update m' r r' n' msgs' :
  regions s dir = Ret r -> queue_rep m' (base + r_offset r) r' n' msgs' ->
  r_size r' = r_size r -> r_slots r' = r_slots r -> r_offset r' = r_offset r ->
  queue_service m' (set_region s dir r') base dir n' msgs' /\
  queue_geometry (set_region s dir r') base dir = queue_geometry s base dir.
Proof using S.
  intros Hreg HQ Hs Hl Ho. destruct S. split.
  - constructor; [by rewrite is_ring_set_region| |done|done|].
    + unfold set_region. by destruct (dir =? AOC_UP).
    + exists r'. rewrite regions_set_region by done. by rewrite Ho.
  - unfold queue_geometry. rewrite regions_set_region, Hreg by done. by rewrite Hs, Hl, Ho.
Qed.

Lemma queue_write_pointer r :
  regions s dir = Ret r ->
  aoc_service_current_write_pointer (Some s) base dir
    = Ret (slot_addr (base + r_offset r) r n).
Proof using S.
  intros Hreg. destruct queue_service_region as (r0 & Hreg0 & HQ & _).
  rewrite Hreg in Hreg0. injection Hreg0 as <-.
  unfold aoc_service_current_write_pointer, bad_service.
  rewrite (qs_dir _ _ _ _ _ _ S). run.
  destruct (Z.eqb_spec base 0); [by destruct (qs_base _ _ _ _ _ _ S)|]. rewrite Hreg. run.
  rewrite (qs_not_ring _ _ _ _ _ _ S). pose proof (qr_slots _ _ _ _ _ HQ).
  case_test; [lia|]. run. by rewrite (queue_tx_slot _ _ _ _ _ HQ), (queue_slot_offset _ _ _ _ _ HQ).
Qed.

Lemma queue_read_pointer r :
  regions s dir = Ret r ->
  aoc_service_current_read_pointer (Some s) base dir
    = Ret (slot_addr (base + r_offset r) r (n - lenZ msgs)).
Proof using S.
  intros Hreg. destruct queue_service_region as (r0 & Hreg0 & HQ & _).
  rewrite Hreg in Hreg0. injection Hreg0 as <-.
  unfold aoc_service_current_read_pointer, bad_service.
  rewrite (qs_dir _ _ _ _ _ _ S). run.
  destruct (Z.eqb_spec base 0); [by destruct (qs_base _ _ _ _ _ _ S)|]. rewrite Hreg. run.
  rewrite (qs_not_ring _ _ _ _ _ _ S). pose proof (qr_slots _ _ _ _ _ HQ).
  case_test; [lia|]. run. by rewrite (queue_rx_slot _ _ _ _ _ HQ), (queue_slot_offset _ _ _ _ _ HQ).
Qed.
End queue_clients.

(** C4. Writing a message that fits a slot and 16 bits of length to a queue with a
    free slot succeeds and appends exactly the caller's bytes as the newest
    message, and the queue's older messages are untouched; for a queue whose number of
    slots divides 2^32, or whose 32-bit counter did not wrap among the pending messages
    (without either the older messages can be overwritten, [slot_reuse_at_wrap]). *)
Theorem queue_write_message_refines m s base dir n msgs buffer size :
  let '(q, sz, slots) := queue_geometry s base dir in
  queue_service m s base dir n msgs -> buffer <> 0 ->
  0 <= size <= sz - MESSAGE_HEADER_SIZE -> size < 2 ^ 16 -> lenZ msgs < slots ->
  (slots | 2 ^ 32) \/ lenZ msgs <= u32 n ->
  apart buffer size q (slots * sz) ->
  exists m' s', aoc_service_write_message m (Some s) base dir buffer size
      = Ret (true, m', Some s') /\
    queue_service m' s' base dir (n + 1) (msgs ++ [load m buffer size]) /\
    queue_geometry s' base dir = queue_geometry s base dir.
Proof.
  destruct (queue_geometry s base dir) as [[q sz] slots] eqn:Hg.
  intros S Hb Hsz H16 Hroom Hwin Ha.
  destruct (queue_service_region _ _ _ _ _ _ S) as (r & Hreg & HQ & Hg').
  rewrite Hg in Hg'. injection Hg' as -> -> ->.
  pose proof (queue_slots_to_write _ _ _ _ _ _ S) as Hfree. rewrite Hg in Hfree. simpl in Hfree.
  assert (Hms : aoc_service_message_size (Some s) dir = Ret (r_size r - MESSAGE_HEADER_SIZE)).
  { unfold aoc_service_message_size, bad_service. rewrite (qs_dir _ _ _ _ _ _ S). run.
    rewrite Hreg. run. rewrite (qs_not_ring _ _ _ _ _ _ S), (qs_not_buffer _ _ _ _ _ _ S). run.
    pose proof (qr_size _ _ _ _ _ HQ). case_test; [lia|done]. }
  pose proof (slot_addr_inside (base + r_offset r) r n).
  destruct (queue_write_slot m (slot_addr (base + r_offset r) r n) buffer size (r_size r))
    as (m' & Hw & Hslot & Hframe); [lia|lia| |].
  { pose proof (qr_size _ _ _ _ _ HQ). pose proof (qr_slots _ _ _ _ _ HQ).
    unfold apart, MESSAGE_HEADER_SIZE in *. lia. }
  destruct (queue_push _ _ _ _ _ HQ m' _ Hroom Hwin Hslot Hframe) as (r' & Hr' & HQ' & Hs' & Hl' & Ho').
  destruct (queue_service_update _ _ _ _ _ _ S m' r r' _ _ Hreg HQ' Hs' Hl' Ho') as [S' Hg'].
  exists m', (set_region s dir r'). split_and!; [|exact S'|by rewrite Hg', Hg].
  unfold aoc_service_write_message, aoc_service_can_write_message.
  rewrite Hfree, Hms, (queue_write_pointer _ _ _ _ _ _ S r Hreg). unfold bad_service.
  rewrite (qs_dir _ _ _ _ _ _ S). run.
  destruct (Z.eqb_spec base 0); [by destruct (qs_base _ _ _ _ _ _ S)|].
  destruct (Z.eqb_spec buffer 0); [done|]. run. rewrite Hreg. run.
  case_test; [|lia]. run. case_test; [lia|]. rewrite (qs_not_ring _ _ _ _ _ _ S).
  rewrite (wrap_id 32 size), Hw by lia.
  unfold aoc_service_increment_write_index, aoc_service_advance_write_index.
  rewrite Hfree, (qs_not_ring _ _ _ _ _ _ S). run. case_test; [lia|].
  rewrite Hreg. run. by rewrite Hr'.
Qed.

(** One run of a read on a queue whose oldest message is [msg]. *)
Lemma queue_read_message_run m s base dir n msg rest buffer size r :
  queue_service m s base dir n (msg :: rest) -> buffer <> 0 -> regions s dir = Ret r ->
  aoc_service_read_message m (Some s) base dir buffer (Some size) =
    if size <? lenZ msg then Ret (false, Some size, m, Some s)
    else let* r' := _region_advance_rx r 1 in
         Ret (true, Some (lenZ msg),
              memcpy m buffer (slot_addr (base + r_offset r) r (n - lenZ (msg :: rest))
                               + MESSAGE_HEADER_SIZE) (lenZ msg),
              Some (set_region s dir r')).
Proof.
  intros S Hb Hreg. destruct (queue_service_region _ _ _ _ _ _ S) as (r0 & Hreg0 & HQ & _).
  rewrite Hreg in Hreg0. injection Hreg0 as <-.
  pose proof (queue_slots_to_read _ _ _ _ _ _ S) as Hpend.
  assert (Hlen : 0 < lenZ (msg :: rest)) by (unfold lenZ; simpl; lia).
  assert (Hslot := qr_data _ _ _ _ _ HQ 0%nat msg eq_refl). rewrite Z.add_0_r in Hslot.
  destruct Hslot as [Hl _ _].
  unfold aoc_service_read_message, aoc_service_can_read_message.
  rewrite Hpend, (queue_read_pointer _ _ _ _ _ _ S r Hreg). unfold bad_service.
  rewrite (qs_dir _ _ _ _ _ _ S). run.
  destruct (Z.eqb_spec base 0); [by destruct (qs_base _ _ _ _ _ _ S)|].
  destruct (Z.eqb_spec buffer 0); [done|]. run.
  destruct (Z.ltb_spec 0 (lenZ (msg :: rest))); [|lia]. run.
  rewrite Hreg. run. rewrite (qs_not_ring _ _ _ _ _ _ S). run. rewrite Hl.
  destruct (Z.ltb_spec size (lenZ msg)); [done|].
  unfold aoc_service_increment_read_index, aoc_service_advance_read_index.
  rewrite Hpend, (qs_not_ring _ _ _ _ _ _ S). run.
  destruct (Z.ltb_spec (lenZ (msg :: rest)) 1); [lia|]. run. rewrite Hreg. run.
  by destruct (_region_advance_rx r 1).
Qed.

(** C5. Reading from a non-empty queue of any number of slots, also across the wrap of its
    counters, returns the oldest message, byte for byte,
    stores its length in [*size] and removes it; when the caller's buffer is too
    small the read fails and the queue, the memory and [*size] are unchanged. *)
Theorem queue_read_message_refines m s base dir n msg rest buffer size :
  let '(q, sz, slots) := queue_geometry s base dir in
  queue_service m s base dir n (msg :: rest) -> buffer <> 0 ->
  apart buffer (lenZ msg) q (slots * sz) ->
  (size < lenZ msg ->
     aoc_service_read_message m (Some s) base dir buffer (Some size)
       = Ret (false, Some size, m, Some s)) /\
  (lenZ msg <= size ->
     exists m' s', aoc_service_read_message m (Some s) base dir buffer (Some size)
         = Ret (true, Some (lenZ msg), m', Some s') /\
       load m' buffer (lenZ msg) = msg /\
       queue_service m' s' base dir n rest /\
       queue_geometry s' base dir = queue_geometry s base dir).
Proof.
  destruct (queue_geometry s base dir) as [[q sz] slots] eqn:Hg. intros S Hb Ha.
  destruct (queue_service_region _ _ _ _ _ _ S) as (r & Hreg & HQ & Hg').
  rewrite Hg in Hg'. injection Hg' as -> -> ->.
  rewrite (queue_read_message_run _ _ _ _ _ _ _ _ _ r S Hb Hreg).
  destruct (Z.ltb_spec size (lenZ msg)); split; intros Hcmp; try lia; [done|].
  assert (Hslot := qr_data _ _ _ _ _ HQ 0%nat msg eq_refl). rewrite Z.add_0_r in Hslot.
  destruct Hslot as [_ _ Hp].
  set (a := slot_addr _ r _) in *. set (m' := memcpy m buffer _ _).
  assert (Hfr : forall x, x < buffer \/ buffer + lenZ msg <= x -> m' x = m x).
  { intros x Hx. unfold m'. rewrite memcpy_at. case_tests; done. }
  destruct (queue_pop _ _ _ _ _ HQ m' msg rest eq_refl) as (r' & Hr' & HQ' & Hs' & Hl' & Ho').
  { intros x Hx. apply Hfr. unfold apart in Ha. lia. }
  destruct (queue_service_update _ _ _ _ _ _ S m' r r' _ _ Hreg HQ' Hs' Hl' Ho') as [S' Hg'].
  exists m', (set_region s dir r'). rewrite Hr'. split_and!; [done| |exact S'|by rewrite Hg', Hg].
  rewrite <- Hp at 2. pose proof (lenZ_nonneg msg).
  apply list_eq. intros i. rewrite !lookup_load. case_decide; [|done].
  f_equal. unfold m'. rewrite memcpy_at. case_tests. f_equal. lia.
Qed.

(** A full queue refuses a write and an empty queue refuses a read; both leave
    the memory and the header as they were. *)
Theorem queue_full_and_empty m s base dir n msgs buffer size :
  queue_service m s base dir n msgs ->
  (lenZ msgs = snd (queue_geometry s base dir) ->
     aoc_service_write_message m (Some s) base dir buffer size = Ret (false, m, Some s)) /\
  (msgs = [] ->
     aoc_service_read_message m (Some s) base dir buffer (Some size)
       = Ret (false, Some size, m, Some s)).
Proof.
  intros S. destruct (queue_service_region _ _ _ _ _ _ S) as (r & Hreg & HQ & Hg). split; intros H.
  - unfold aoc_service_write_message, aoc_service_can_write_message.
    rewrite (queue_slots_to_write _ _ _ _ _ _ S), H, Z.sub_diag.
    destruct (_ || _ || _); [done|]. run. rewrite Hreg. done.
  - unfold aoc_service_read_message, aoc_service_can_read_message.
    rewrite (queue_slots_to_read _ _ _ _ _ _ S). subst msgs.
    destruct (_ || _ || _); done.
Qed.

(** ** Witnesses and the counter wrap *)

(** A queue of four 16-byte slots whose message counter is about to wrap:
    [2^32 - 1] messages were accepted, one of them is pending. *)
Definition queue_region (slots tx rx : Z) : aoc_ipc_memory_region :=
  mk_region 64 16 slots tx rx 0 0.
Definition queue_header (slots tx rx : Z) : aoc_ipc_service_header :=
  mk_service [] 0 (queue_region slots tx rx) (queue_region slots tx rx).
Definition queue_memory : memory :=
  store (store (fun _ => 0) (4160 + 32) (message_header 3 ++ [7; 8; 9])) 100 [1; 2; 3; 4].

Lemma demo_queue :
  queue_service queue_memory (queue_header 4 (2 ^ 32 - 1) (2 ^ 32 - 2)) 4096 AOC_DOWN
    (2 ^ 32 - 1) [[7; 8; 9]].
Proof.
  constructor; try done. eexists. split; [done|].
  constructor; [done|done|done|done|done|done|done|].
  intros i msg Hi. apply list_lookup_singleton_Some in Hi as [-> <-].
  constructor; vm_compute; done.
Qed.

Lemma queue_write_message_refines_witness :
  exists m' s', aoc_service_write_message queue_memory
        (Some (queue_header 4 (2 ^ 32 - 1) (2 ^ 32 - 2))) 4096 AOC_DOWN 100 4
      = Ret (true, m', Some s') /\
    queue_service m' s' 4096 AOC_DOWN (2 ^ 32) [[7; 8; 9]; [1; 2; 3; 4]].
Proof.
  destruct (queue_write_message_refines queue_memory (queue_header 4 (2 ^ 32 - 1) (2 ^ 32 - 2))
              4096 AOC_DOWN (2 ^ 32 - 1) [[7; 8; 9]] 100 4) as (m' & s' & Hw & S & _);
    [exact demo_queue|done|done|done|done|left; by exists (2 ^ 30)|left; done|].
  exists m', s'. split; [exact Hw|exact S].
Defined.

Lemma queue_read_message_refines_witness :
  exists m' s', aoc_service_read_message queue_memory
        (Some (queue_header 4 (2 ^ 32 - 1) (2 ^ 32 - 2))) 4096 AOC_DOWN 200 (Some 8)
      = Ret (true, Some 3, m', Some s') /\ load m' 200 3 = [7; 8; 9] /\
    queue_service m' s' 4096 AOC_DOWN (2 ^ 32 - 1) [].
Proof.
  destruct (queue_read_message_refines queue_memory (queue_header 4 (2 ^ 32 - 1) (2 ^ 32 - 2))
              4096 AOC_DOWN (2 ^ 32 - 1) [7; 8; 9] [] 200 8) as [_ H];
    [exact demo_queue|done|left; done|].
  destruct H as (m' & s' & Hr & Hl & S & _); [done|].
  exists m', s'. split; [exact Hr|]. split; [exact Hl|exact S].
Defined.

Lemma queue_full_and_empty_witness :
  aoc_service_read_message queue_memory (Some (queue_header 4 7 7)) 4096 AOC_DOWN 200 (Some 8)
    = Ret (false, Some 8, queue_memory, Some (queue_header 4 7 7)).
Proof.
  apply (queue_full_and_empty queue_memory (queue_header 4 7 7) 4096 AOC_DOWN 7 [] 200 8); [|done].
  constructor; try done. eexists. split; [done|].
  constructor; [done|done|done|done|done|done|done|]. intros i msg Hi. by rewrite lookup_nil in Hi.
Defined.

(** With a slot count that does not divide [2^32], the wrap of the 32-bit
    message counter reuses a slot: on an empty three-slot queue at counter
    [2^32 - 1], two accepted writes go to the same slot and the first message is
    overwritten, so the first read returns the second message's bytes. *)
Theorem slot_reuse_at_wrap :
  exists m1 s1 m2 s2 m3 s3,
    aoc_service_write_message queue_memory (Some (queue_header 3 (2 ^ 32 - 1) (2 ^ 32 - 1)))
      4096 AOC_DOWN 100 1 = Ret (true, m1, Some s1) /\
    aoc_service_write_message m1 (Some s1) 4096 AOC_DOWN 101 1 = Ret (true, m2, Some s2) /\
    aoc_service_read_message m2 (Some s2) 4096 AOC_DOWN 200 (Some 8)
      = Ret (true, Some 1, m3, Some s3) /\
    load queue_memory 100 1 = [1] /\ load queue_memory 101 1 = [2] /\ load m3 200 1 = [2].
Proof.
  do 6 eexists. split; [reflexivity|]. split; [reflexivity|]. split; [reflexivity|].
  vm_compute. done.
Qed.
