(* ===== verification/GvElection.v ===== *)
(** Elections of the vote library (bms/misc/gvotable.c).

    An election collects ballots, one per reason, keeps them in the order of its
    comparator, and publishes a result: the first enabled ballot, else the default.
    This file holds the data and the operations on one election; GvOrder.v proves
    what they elect, GvLocks.v the lock discipline, GvRegistry.v the table of named
    elections.

    A [void *] vote is a 64-bit number: the vote itself when [vote_size] fits a
    pointer, else the address of a buffer of the heap.  A mutex is a flag; taking a
    mutex that is already held never returns, which is the outcome [Deadlock]. *)

From stdpp Require Import gmap.
From S2P Require Import Prelude.

(** ** Strings, buffers *)

Definition GVOTABLE_MAX_REASON_LEN : nat := 32.
Definition MAX_NAME_LEN : nat := 16.
Definition VOTES_HISTORY_DEPTH : Z := 1.
Definition DEBUGFS_CAST_VOTE_REASON : string := "DEBUGFS".
Definition DEBUGFS_FORCE_VOTE_REASON : string := "DEBUGFS_FORCE".
Definition default_reason : string := "Default".

(** [strlcpy] into a buffer of [n] bytes keeps at most [n - 1] characters. *)
Definition strlcpy (n : nat) (src : string) : string := String.substring 0 (n - 1) src.

(** [strncmp(a, b, n) == 0]. *)
Definition strncmp_eq (n : nat) (a b : string) : bool :=
  bool_decide (String.substring 0 n a = String.substring 0 n b).

(** The vote buffers, by address. *)
Abbreviation heap := (gmap Z (list Z)).

(** [memcpy] between vote buffers; undefined outside them. *)
Definition memcpy_buf (h : heap) (dst src n : Z) : outcome heap :=
  let* s := must (h !! src) in
  let* d := must (h !! dst) in
  if (Z.of_nat (length s) <? n) || (Z.of_nat (length d) <? n) then Undef else
  Ret (<[dst := take (Z.to_nat n) s ++ drop (Z.to_nat n) d]> h).

(** ** Comparators *)

Inductive comparator :=
| CmpUintMax
| CmpUintMin
| CmpIntMax
| CmpIntMin
| CmpMostRecent
| CmpLeastRecent
| CmpBool
| CmpNone
| CmpUser (f : Z -> Z -> Z).

(** [*((unsigned int * )&l)] is the low word of the pointer. *)
Definition gvotable_comparator_uint_max (l r : Z) : Z :=
  let a := u32 l in
  let b := u32 r in
  if b <? a then 1 else if a <? b then -1 else 0.

Definition gvotable_comparator_int (l r : Z) : Z :=
  let a := s32 l in
  let b := s32 r in
  if b <? a then 1 else if a <? b then -1 else 0.

Definition gvotable_comparator_int_max (a b : Z) : Z := - gvotable_comparator_int a b.

Definition gvotable_comparator_int_min (a b : Z) : Z := gvotable_comparator_int a b.

Definition gvotable_comparator_uint_min (a b : Z) : Z := - gvotable_comparator_uint_max a b.

Definition gvotable_comparator_most_recent (a b : Z) : Z := -1.

Definition gvotable_comparator_least_recent (a b : Z) : Z := 1.

Definition gvotable_comparator_bool (a b : Z) : Z := gvotable_comparator_most_recent a b.

Definition gvotable_comparator_none (a b : Z) : Z := gvotable_comparator_most_recent a b.

(** A call through the [cmp] function pointer. *)
Definition run_cmp (c : comparator) : Z -> Z -> Z :=
  match c with
  | CmpUintMax => gvotable_comparator_uint_max
  | CmpUintMin => gvotable_comparator_uint_min
  | CmpIntMax => gvotable_comparator_int_max
  | CmpIntMin => gvotable_comparator_int_min
  | CmpMostRecent => gvotable_comparator_most_recent
  | CmpLeastRecent => gvotable_comparator_least_recent
  | CmpBool => gvotable_comparator_bool
  | CmpNone => gvotable_comparator_none
  | CmpUser f => f
  end.

(** [cmp == gvotable_comparator_none]. *)
Definition is_cmp_none (c : comparator) : bool :=
  match c with CmpNone => true | _ => false end.

(** ** Ballots and elections *)

Record ballot := mk_ballot {
  b_enabled : bool;
  b_reason_hash : Z;
  b_reason : string;
  b_idx : Z;
  b_vote : list Z;      (* [VOTES_HISTORY_DEPTH] entries *)
  b_vote_size : Z;      (* != 0 when copy is requested *)
  b_num_votes : Z;
}.

(** [ballot->vote[ballot->idx]]. *)
Definition cur_vote (b : ballot) : Z := nth (Z.to_nat (b_idx b)) (b_vote b) 0.

Record gvotable_election := mk_el {
  el_hash : Z;
  el_vote_size : Z;
  el_use_alloc : bool;
  el_name : string;
  el_has_name : bool;
  el_cb_lock : bool;
  el_re_lock : bool;
  el_owner : option Z;  (* thread that holds [cb_lock] *)
  el_result : Z;
  el_reason : string;
  el_result_is_valid : bool;
  el_data : Z;  (* opaque pointer *)
  el_callback : bool;  (* non-NULL [callback] *)
  el_cmp : comparator;
  el_auto_callback : bool;
  el_default_vote : Z;
  el_has_default_vote : Z;  (* -1 no, 1 yes *)
  el_force_result : Z;
  el_force_result_is_enabled : bool;
  el_votes : list ballot;
  el_num_voters : Z;
  el_num_votes : Z;
  el_vote2str : Z;  (* function pointer *)
  el_is_int_type : bool;
  el_is_bool_type : bool;
  el_disable_force_int_entry : bool;
}.

(** Assignments [el->field = v]. *)
Definition set_hash (v : Z) (el : gvotable_election) : gvotable_election :=
  mk_el v (el_vote_size el) (el_use_alloc el) (el_name el) (el_has_name el) (el_cb_lock el) 
    (el_re_lock el) (el_owner el) (el_result el) (el_reason el) (el_result_is_valid el) 
    (el_data el) (el_callback el) (el_cmp el) (el_auto_callback el) (el_default_vote el) 
    (el_has_default_vote el) (el_force_result el) (el_force_result_is_enabled el) (el_votes el) 
    (el_num_voters el) (el_num_votes el) (el_vote2str el) (el_is_int_type el) 
    (el_is_bool_type el) (el_disable_force_int_entry el).

Definition set_name (v : string) (el : gvotable_election) : gvotable_election :=
  mk_el (el_hash el) (el_vote_size el) (el_use_alloc el) v (el_has_name el) (el_cb_lock el) 
    (el_re_lock el) (el_owner el) (el_result el) (el_reason el) (el_result_is_valid el) 
    (el_data el) (el_callback el) (el_cmp el) (el_auto_callback el) (el_default_vote el) 
    (el_has_default_vote el) (el_force_result el) (el_force_result_is_enabled el) (el_votes el) 
    (el_num_voters el) (el_num_votes el) (el_vote2str el) (el_is_int_type el) 
    (el_is_bool_type el) (el_disable_force_int_entry el).

Definition set_has_name (v : bool) (el : gvotable_election) : gvotable_election :=
  mk_el (el_hash el) (el_vote_size el) (el_use_alloc el) (el_name el) v (el_cb_lock el) 
    (el_re_lock el) (el_owner el) (el_result el) (el_reason el) (el_result_is_valid el) 
    (el_data el) (el_callback el) (el_cmp el) (el_auto_callback el) (el_default_vote el) 
    (el_has_default_vote el) (el_force_result el) (el_force_result_is_enabled el) (el_votes el) 
    (el_num_voters el) (el_num_votes el) (el_vote2str el) (el_is_int_type el) 
    (el_is_bool_type el) (el_disable_force_int_entry el).

Definition set_cb_lock (v : bool) (el : gvotable_election) : gvotable_election :=
  mk_el (el_hash el) (el_vote_size el) (el_use_alloc el) (el_name el) (el_has_name el) v 
    (el_re_lock el) (el_owner el) (el_result el) (el_reason el) (el_result_is_valid el) 
    (el_data el) (el_callback el) (el_cmp el) (el_auto_callback el) (el_default_vote el) 
    (el_has_default_vote el) (el_force_result el) (el_force_result_is_enabled el) (el_votes el) 
    (el_num_voters el) (el_num_votes el) (el_vote2str el) (el_is_int_type el) 
    (el_is_bool_type el) (el_disable_force_int_entry el).

Definition set_re_lock (v : bool) (el : gvotable_election) : gvotable_election :=
  mk_el (el_hash el) (el_vote_size el) (el_use_alloc el) (el_name el) (el_has_name el) 
    (el_cb_lock el) v (el_owner el) (el_result el) (el_reason el) (el_result_is_valid el) 
    (el_data el) (el_callback el) (el_cmp el) (el_auto_callback el) (el_default_vote el) 
    (el_has_default_vote el) (el_force_result el) (el_force_result_is_enabled el) (el_votes el) 
    (el_num_voters el) (el_num_votes el) (el_vote2str el) (el_is_int_type el) 
    (el_is_bool_type el) (el_disable_force_int_entry el).

Definition set_owner (v : option Z) (el : gvotable_election) : gvotable_election :=
  mk_el (el_hash el) (el_vote_size el) (el_use_alloc el) (el_name el) (el_has_name el) 
    (el_cb_lock el) (el_re_lock el) v (el_result el) (el_reason el) (el_result_is_valid el) 
    (el_data el) (el_callback el) (el_cmp el) (el_auto_callback el) (el_default_vote el) 
    (el_has_default_vote el) (el_force_result el) (el_force_result_is_enabled el) (el_votes el) 
    (el_num_voters el) (el_num_votes el) (el_vote2str el) (el_is_int_type el) 
    (el_is_bool_type el) (el_disable_force_int_entry el).

Definition set_result (v : Z) (el : gvotable_election) : gvotable_election :=
  mk_el (el_hash el) (el_vote_size el) (el_use_alloc el) (el_name el) (el_has_name el) 
    (el_cb_lock el) (el_re_lock el) (el_owner el) v (el_reason el) (el_result_is_valid el) 
    (el_data el) (el_callback el) (el_cmp el) (el_auto_callback el) (el_default_vote el) 
    (el_has_default_vote el) (el_force_result el) (el_force_result_is_enabled el) (el_votes el) 
    (el_num_voters el) (el_num_votes el) (el_vote2str el) (el_is_int_type el) 
    (el_is_bool_type el) (el_disable_force_int_entry el).

Definition set_reason (v : string) (el : gvotable_election) : gvotable_election :=
  mk_el (el_hash el) (el_vote_size el) (el_use_alloc el) (el_name el) (el_has_name el) 
    (el_cb_lock el) (el_re_lock el) (el_owner el) (el_result el) v (el_result_is_valid el) 
    (el_data el) (el_callback el) (el_cmp el) (el_auto_callback el) (el_default_vote el) 
    (el_has_default_vote el) (el_force_result el) (el_force_result_is_enabled el) (el_votes el) 
    (el_num_voters el) (el_num_votes el) (el_vote2str el) (el_is_int_type el) 
    (el_is_bool_type el) (el_disable_force_int_entry el).

Definition set_result_is_valid (v : bool) (el : gvotable_election) : gvotable_election :=
  mk_el (el_hash el) (el_vote_size el) (el_use_alloc el) (el_name el) (el_has_name el) 
    (el_cb_lock el) (el_re_lock el) (el_owner el) (el_result el) (el_reason el) v (el_data el) 
    (el_callback el) (el_cmp el) (el_auto_callback el) (el_default_vote el) 
    (el_has_default_vote el) (el_force_result el) (el_force_result_is_enabled el) (el_votes el) 
    (el_num_voters el) (el_num_votes el) (el_vote2str el) (el_is_int_type el) 
    (el_is_bool_type el) (el_disable_force_int_entry el).

Definition set_default_vote (v : Z) (el : gvotable_election) : gvotable_election :=
  mk_el (el_hash el) (el_vote_size el) (el_use_alloc el) (el_name el) (el_has_name el) 
    (el_cb_lock el) (el_re_lock el) (el_owner el) (el_result el) (el_reason el) 
    (el_result_is_valid el) (el_data el) (el_callback el) (el_cmp el) (el_auto_callback el) v 
    (el_has_default_vote el) (el_force_result el) (el_force_result_is_enabled el) (el_votes el) 
    (el_num_voters el) (el_num_votes el) (el_vote2str el) (el_is_int_type el) 
    (el_is_bool_type el) (el_disable_force_int_entry el).

Definition set_has_default_vote (v : Z) (el : gvotable_election) : gvotable_election :=
  mk_el (el_hash el) (el_vote_size el) (el_use_alloc el) (el_name el) (el_has_name el) 
    (el_cb_lock el) (el_re_lock el) (el_owner el) (el_result el) (el_reason el) 
    (el_result_is_valid el) (el_data el) (el_callback el) (el_cmp el) (el_auto_callback el) 
    (el_default_vote el) v (el_force_result el) (el_force_result_is_enabled el) (el_votes el) 
    (el_num_voters el) (el_num_votes el) (el_vote2str el) (el_is_int_type el) 
    (el_is_bool_type el) (el_disable_force_int_entry el).

Definition set_force_result (v : Z) (el : gvotable_election) : gvotable_election :=
  mk_el (el_hash el) (el_vote_size el) (el_use_alloc el) (el_name el) (el_has_name el) 
    (el_cb_lock el) (el_re_lock el) (el_owner el) (el_result el) (el_reason el) 
    (el_result_is_valid el) (el_data el) (el_callback el) (el_cmp el) (el_auto_callback el) 
    (el_default_vote el) (el_has_default_vote el) v (el_force_result_is_enabled el) 
    (el_votes el) (el_num_voters el) (el_num_votes el) (el_vote2str el) (el_is_int_type el) 
    (el_is_bool_type el) (el_disable_force_int_entry el).

Definition set_force_result_is_enabled (v : bool) (el : gvotable_election) : gvotable_election :=
  mk_el (el_hash el) (el_vote_size el) (el_use_alloc el) (el_name el) (el_has_name el) 
    (el_cb_lock el) (el_re_lock el) (el_owner el) (el_result el) (el_reason el) 
    (el_result_is_valid el) (el_data el) (el_callback el) (el_cmp el) (el_auto_callback el) 
    (el_default_vote el) (el_has_default_vote el) (el_force_result el) v (el_votes el) 
    (el_num_voters el) (el_num_votes el) (el_vote2str el) (el_is_int_type el) 
    (el_is_bool_type el) (el_disable_force_int_entry el).

Definition set_votes (v : list ballot) (el : gvotable_election) : gvotable_election :=
  mk_el (el_hash el) (el_vote_size el) (el_use_alloc el) (el_name el) (el_has_name el) 
    (el_cb_lock el) (el_re_lock el) (el_owner el) (el_result el) (el_reason el) 
    (el_result_is_valid el) (el_data el) (el_callback el) (el_cmp el) (el_auto_callback el) 
    (el_default_vote el) (el_has_default_vote el) (el_force_result el) 
    (el_force_result_is_enabled el) v (el_num_voters el) (el_num_votes el) (el_vote2str el) 
    (el_is_int_type el) (el_is_bool_type el) (el_disable_force_int_entry el).

Definition set_num_voters (v : Z) (el : gvotable_election) : gvotable_election :=
  mk_el (el_hash el) (el_vote_size el) (el_use_alloc el) (el_name el) (el_has_name el) 
    (el_cb_lock el) (el_re_lock el) (el_owner el) (el_result el) (el_reason el) 
    (el_result_is_valid el) (el_data el) (el_callback el) (el_cmp el) (el_auto_callback el) 
    (el_default_vote el) (el_has_default_vote el) (el_force_result el) 
    (el_force_result_is_enabled el) (el_votes el) v (el_num_votes el) (el_vote2str el) 
    (el_is_int_type el) (el_is_bool_type el) (el_disable_force_int_entry el).

Definition set_num_votes (v : Z) (el : gvotable_election) : gvotable_election :=
  mk_el (el_hash el) (el_vote_size el) (el_use_alloc el) (el_name el) (el_has_name el) 
    (el_cb_lock el) (el_re_lock el) (el_owner el) (el_result el) (el_reason el) 
    (el_result_is_valid el) (el_data el) (el_callback el) (el_cmp el) (el_auto_callback el) 
    (el_default_vote el) (el_has_default_vote el) (el_force_result el) 
    (el_force_result_is_enabled el) (el_votes el) (el_num_voters el) v (el_vote2str el) 
    (el_is_int_type el) (el_is_bool_type el) (el_disable_force_int_entry el).

Definition set_vote2str (v : Z) (el : gvotable_election) : gvotable_election :=
  mk_el (el_hash el) (el_vote_size el) (el_use_alloc el) (el_name el) (el_has_name el) 
    (el_cb_lock el) (el_re_lock el) (el_owner el) (el_result el) (el_reason el) 
    (el_result_is_valid el) (el_data el) (el_callback el) (el_cmp el) (el_auto_callback el) 
    (el_default_vote el) (el_has_default_vote el) (el_force_result el) 
    (el_force_result_is_enabled el) (el_votes el) (el_num_voters el) (el_num_votes el) v 
    (el_is_int_type el) (el_is_bool_type el) (el_disable_force_int_entry el).

Definition set_is_int_type (v : bool) (el : gvotable_election) : gvotable_election :=
  mk_el (el_hash el) (el_vote_size el) (el_use_alloc el) (el_name el) (el_has_name el) 
    (el_cb_lock el) (el_re_lock el) (el_owner el) (el_result el) (el_reason el) 
    (el_result_is_valid el) (el_data el) (el_callback el) (el_cmp el) (el_auto_callback el) 
    (el_default_vote el) (el_has_default_vote el) (el_force_result el) 
    (el_force_result_is_enabled el) (el_votes el) (el_num_voters el) (el_num_votes el) 
    (el_vote2str el) v (el_is_bool_type el) (el_disable_force_int_entry el).

Definition set_is_bool_type (v : bool) (el : gvotable_election) : gvotable_election :=
  mk_el (el_hash el) (el_vote_size el) (el_use_alloc el) (el_name el) (el_has_name el) 
    (el_cb_lock el) (el_re_lock el) (el_owner el) (el_result el) (el_reason el) 
    (el_result_is_valid el) (el_data el) (el_callback el) (el_cmp el) (el_auto_callback el) 
    (el_default_vote el) (el_has_default_vote el) (el_force_result el) 
    (el_force_result_is_enabled el) (el_votes el) (el_num_voters el) (el_num_votes el) 
    (el_vote2str el) (el_is_int_type el) v (el_disable_force_int_entry el).

Definition set_disable_force_int_entry (v : bool) (el : gvotable_election) : gvotable_election :=
  mk_el (el_hash el) (el_vote_size el) (el_use_alloc el) (el_name el) (el_has_name el) 
    (el_cb_lock el) (el_re_lock el) (el_owner el) (el_result el) (el_reason el) 
    (el_result_is_valid el) (el_data el) (el_callback el) (el_cmp el) (el_auto_callback el) 
    (el_default_vote el) (el_has_default_vote el) (el_force_result el) 
    (el_force_result_is_enabled el) (el_votes el) (el_num_voters el) (el_num_votes el) 
    (el_vote2str el) (el_is_int_type el) (el_is_bool_type el) v.


(** What a thread sees: the heap, the election a handle points to ([None] for a
    NULL handle) and the callbacks made so far. *)
Record world := mk_world {
  w_heap : heap;
  w_el : option gvotable_election;
  w_calls : list (option string * Z);
}.

Definition put (el : gvotable_election) (w : world) : world :=
  mk_world (w_heap w) (Some el) (w_calls w).

Definition put_heap (h : heap) (w : world) : world :=
  mk_world h (w_el w) (w_calls w).

(** Computes the fields of an election built by assignments. *)
Ltac el_cbv :=
  cbv [
    set_hash set_name set_has_name set_cb_lock set_re_lock set_owner set_result
    set_reason set_result_is_valid set_default_vote set_has_default_vote
    set_force_result set_force_result_is_enabled set_votes set_num_voters
    set_num_votes set_vote2str set_is_int_type set_is_bool_type
    set_disable_force_int_entry el_hash el_vote_size el_use_alloc el_name
    el_has_name el_cb_lock el_re_lock el_owner el_result el_reason
    el_result_is_valid el_data el_callback el_cmp el_auto_callback el_default_vote
    el_has_default_vote el_force_result el_force_result_is_enabled el_votes
    el_num_voters el_num_votes el_vote2str el_is_int_type el_is_bool_type
    el_disable_force_int_entry
    w_el w_heap w_calls put put_heap] in *.

(** ** Results *)

Definition gvotable_internal_update_reason (new_reason : string) (el : gvotable_election)
    : gvotable_election :=
  set_reason (strlcpy GVOTABLE_MAX_REASON_LEN new_reason) el.

(** Copies [new_result] to [*result]: the heap and the new value of [*result]. *)
Definition gvotable_internal_copy_result (h : heap) (el : gvotable_election)
    (result new_result : Z) : outcome (heap * Z) :=
  if el_use_alloc el then
    let* h := memcpy_buf h result new_result (el_vote_size el) in Ret (h, result)
  else Ret (h, new_result).

Definition gvotable_internal_update_result (h : heap) (new_result : Z)
    (el : gvotable_election) : outcome (heap * gvotable_election) :=
  let* hr := gvotable_internal_copy_result h el (el_result el) new_result in
  Ret (fst hr, set_result_is_valid true (set_result (snd hr) el)).

Definition GVOTABLE_BOOL_TRUE_VALUE : Z := 1.
Definition GVOTABLE_BOOL_FALSE_VALUE : Z := 0.

(** The two updates shared by the branches of [gvotable_internal_run_election]:
    reason and result become those of [reason] and [vote] (with [new_result] the
    value stored) when they differ.  Returns whether the callback is required. *)
Definition elect (h : heap) (el : gvotable_election) (reason : string) (vote new_result : Z)
    : outcome (bool * heap * gvotable_election) :=
  let callback_required := false in
  let '(el, callback_required) :=
    if negb (el_result_is_valid el) ||
       negb (strncmp_eq GVOTABLE_MAX_REASON_LEN (el_reason el) reason)
    then (gvotable_internal_update_reason reason el, el_auto_callback el)
    else (el, callback_required) in
  if callback_required || negb (run_cmp (el_cmp el) (el_result el) vote =? 0) then
    let* he := gvotable_internal_update_result h new_result el in
    let '(h, el) := he in
    Ret (el_auto_callback el, h, set_result_is_valid true el)
  else Ret (callback_required, h, set_result_is_valid true el).

(** Whether the callback is needed, and the updated heap and election. *)
Definition gvotable_internal_run_election (h : heap) (el : gvotable_election)
    : outcome (bool * heap * gvotable_election) :=
  if el_force_result_is_enabled el then Ret (false, h, el) else
  let* res :=
    match List.find b_enabled (el_votes el) with
    | Some ballot =>
      let new_result :=
        if el_is_bool_type el then GVOTABLE_BOOL_TRUE_VALUE else cur_vote ballot in
      elect h el (b_reason ballot) (cur_vote ballot) new_result
    | None =>
      if el_has_default_vote el =? 1 then
        elect h el default_reason (el_default_vote el) (el_default_vote el)
      else
        let callback_required := el_result_is_valid el && el_auto_callback el in
        Ret (callback_required, h, set_reason "" (set_result_is_valid false el))
    end in
  let '(callback_required, h, el) := res in
  Ret (callback_required && el_callback el, h, el).

(** ** The code around an election

    The hash of a string ([full_name_hash] of the kernel), the client's callback and
    the identity of the running thread are not part of the library. *)
Class Environment := {
  full_name_hash : string -> Z;
  callback_fn : world -> option string -> Z -> outcome (Z * world);
  get_current : Z;
}.

Section operations.
Context `{Environment}.

Definition gvotable_internal_hash (str : string) : Z := full_name_hash str.

(** *** Locks *)

Definition mutex_lock (held : bool) : outcome bool := if held then Deadlock else Ret true.

Definition gvotable_lock_result (el : gvotable_election) : outcome gvotable_election :=
  let* l := mutex_lock (el_re_lock el) in Ret (set_re_lock l el).

Definition gvotable_unlock_result (el : gvotable_election) : gvotable_election :=
  set_re_lock false el.

(** A failed [mutex_trylock] only adds a warning before the [mutex_lock]. *)
Definition gvotable_lock_election (el : gvotable_election) : outcome gvotable_election :=
  let* l := mutex_lock (el_cb_lock el) in
  let el := set_owner (Some get_current) (set_cb_lock l el) in
  gvotable_lock_result el.

Definition gvotable_unlock_callback (el : gvotable_election) : gvotable_election :=
  set_cb_lock false (set_owner None el).

Definition gvotable_unlock_election (el : gvotable_election) : gvotable_election :=
  gvotable_unlock_callback (set_re_lock false el).

(** *** Callbacks *)

(** A call through [el->callback], recorded in the trace. *)
Definition run_callback_with (w : world) (reason : option string) (vote : Z)
    : outcome (Z * world) :=
  callback_fn (mk_world (w_heap w) (w_el w) (w_calls w ++ [(reason, vote)])) reason vote.

Definition gvotable_run_callback (w : world) : outcome (Z * world) :=
  let* el := must (w_el w) in
  if el_result_is_valid el then run_callback_with w (Some (el_reason el)) (el_result el)
  else run_callback_with w None 0.

(** Releases [cb_lock] after a callback that may have changed the election. *)
Definition unlock_callback_w (w : world) : outcome world :=
  let* el := must (w_el w) in Ret (put (gvotable_unlock_callback el) w).

(** The common tail of the operations that hold both locks: run the election,
    release [re_lock], call back if needed, release [cb_lock], return [ret] or the
    callback's result. *)
Definition run_and_notify (w : world) (el : gvotable_election) (ret : Z) : outcome (Z * world) :=
  let* res := gvotable_internal_run_election (w_heap w) el in
  let '(callback, h, el) := res in
  let w := put (gvotable_unlock_result el) (put_heap h w) in
  let* rw := if callback then gvotable_run_callback w else Ret (ret, w) in
  let* w := unlock_callback_w (snd rw) in
  Ret (fst rw, w).

(** *** Ballots *)

Definition is_ballot_for (reason : string) (b : ballot) : Prop :=
  gvotable_internal_hash reason = b_reason_hash b /\
  strncmp_eq GVOTABLE_MAX_REASON_LEN (b_reason b) reason = true.

#[global] Instance is_ballot_for_dec reason b : Decision (is_ballot_for reason b).
Proof. unfold is_ballot_for. apply _. Defined.

(** The position and the ballot of a reason. *)
Definition gvotable_ballot_find_internal (el : gvotable_election) (reason : string)
    : option (nat * ballot) :=
  list_find (is_ballot_for reason) (el_votes el).

(** [alloc] is what this call's [kzalloc] returns. *)
Definition gvotable_update_ballot (alloc : option Z) (h : heap) (b : ballot) (vote : Z)
    (enabled : bool) : outcome (Z * heap * ballot) :=
  let idx := u32 (b_idx b + 1) mod VOTES_HISTORY_DEPTH in
  let b := mk_ballot enabled (b_reason_hash b) (b_reason b) (b_idx b) (b_vote b)
             (b_vote_size b) (b_num_votes b) in
  let exit_done h votes :=
    Ret (0, h, mk_ballot (b_enabled b) (b_reason_hash b) (b_reason b) idx votes
                 (b_vote_size b) (u32 (b_num_votes b + 1))) in
  if b_vote_size b =? 0 then exit_done h (<[Z.to_nat idx := vote]> (b_vote b)) else
  let* p := must (b_vote b !! Z.to_nat idx) in
  if p =? 0 then
    match alloc with
    | None => Ret (- ENOMEM, h, b)
    | Some a =>
      let h := <[a := replicate (Z.to_nat (b_vote_size b)) 0]> h in
      let* h := memcpy_buf h a vote (b_vote_size b) in
      exit_done h (<[Z.to_nat idx := a]> (b_vote b))
    end
  else
    let* h := memcpy_buf h p vote (b_vote_size b) in
    exit_done h (b_vote b).

(** Adds the ballot before the first one that compares greater. *)
Fixpoint add_before (cmp : Z -> Z -> Z) (b : ballot) (l : list ballot) : option (list ballot) :=
  match l with
  | [] => None
  | tmp :: l' =>
    if cmp (cur_vote b) (cur_vote tmp) <? 0 then Some (b :: tmp :: l')
    else match add_before cmp b l' with
         | Some l'' => Some (tmp :: l'')
         | None => None
         end
  end.

Definition gvotable_add_ballot (el : gvotable_election) (b : ballot) (enabled : bool)
    : gvotable_election :=
  match el_votes el with
  | [] => set_votes [b] el
  | votes =>
    match (if enabled then add_before (run_cmp (el_cmp el)) b votes else None) with
    | Some votes' => set_votes votes' el
    | None => set_num_votes (u32 (el_num_votes el + 1)) (set_votes (votes ++ [b]) el)
    end
  end.

Definition gvotable_recast_ballot (alloc : option Z) (w : world) (reason : string)
    (enabled : bool) : outcome (Z * world) :=
  let* el := must (w_el w) in
  let* el := gvotable_lock_election el in
  match gvotable_ballot_find_internal el reason with
  | None => Ret (- EINVAL, put (gvotable_unlock_election el) w)
  | Some (i, b) =>
    let el := set_votes (delete i (el_votes el)) el in
    let* res := gvotable_update_ballot alloc (w_heap w) b (cur_vote b) enabled in
    let '(ret, h, b) := res in
    let w := put_heap h w in
    if ret <? 0 then Ret (ret, put (gvotable_unlock_election el) w) else
    run_and_notify w (gvotable_add_ballot el b enabled) ret
  end.

Definition gvotable_run_election (w : world) (force_callback : bool) : outcome (Z * world) :=
  let* el := must (w_el w) in
  let* el := gvotable_lock_election el in
  let* res := gvotable_internal_run_election (w_heap w) el in
  let '(callback, h, el) := res in
  let el := gvotable_unlock_result el in
  let w := put el (put_heap h w) in
  let* rw :=
    if negb (el_callback el) then Ret (0, w)
    else if el_force_result_is_enabled el then
      run_callback_with w (Some DEBUGFS_FORCE_VOTE_REASON) (el_force_result el)
    else if callback || force_callback then gvotable_run_callback w
    else Ret (0, w) in
  let* w := unlock_callback_w (snd rw) in
  Ret (fst rw, w).

(** [reason] is [None] for NULL. *)
Definition gvotable_election_set_result (w : world) (reason : option string) (result : Z)
    : outcome (Z * world) :=
  match w_el w, reason with
  | Some el, Some reason =>
    if String.eqb reason "" then Ret (- EINVAL, w) else
    if el_use_alloc el && (result =? 0) then Ret (- EINVAL, w) else
    if negb (is_cmp_none (el_cmp el)) then Ret (- EINVAL, w) else
    let el := gvotable_internal_update_reason reason el in
    let* he := gvotable_internal_update_result (w_heap w) result el in
    Ret (0, put (snd he) (put_heap (fst he) w))
  | _, _ => Ret (- EINVAL, w)
  end.

(** [balloc] is what the [kzalloc] of the ballot returns, [alloc] that of its
    buffer. *)
Definition gvotable_cast_vote (balloc : bool) (alloc : option Z) (w : world)
    (reason : option string) (vote : Z) (enabled : bool) : outcome (Z * world) :=
  match w_el w, reason with
  | Some el, Some reason =>
    if String.eqb reason "" then Ret (- EINVAL, w) else
    if el_use_alloc el && (vote =? 0) then Ret (- EINVAL, w) else
    let* el := gvotable_lock_election el in
    match gvotable_ballot_find_internal el reason with
    | None =>
      if negb balloc then Ret (- ENOMEM, put (gvotable_unlock_election el) w) else
      let b := mk_ballot false (gvotable_internal_hash reason)
                 (strlcpy GVOTABLE_MAX_REASON_LEN reason) 0
                 (replicate (Z.to_nat VOTES_HISTORY_DEPTH) 0)
                 (if el_use_alloc el then el_vote_size el else 0) 0 in
      let el := set_num_voters (u32 (el_num_voters el + 1)) el in
      let vote := if el_is_bool_type el then Z.b2z enabled else vote in
      let* res := gvotable_update_ballot alloc (w_heap w) b vote enabled in
      let '(ret, h, b) := res in
      let w := put_heap h w in
      if ret <? 0 then Ret (ret, put (gvotable_unlock_election el) w) else
      run_and_notify w (gvotable_add_ballot el b enabled) ret
    | Some (i, b) =>
      let el := if enabled then set_votes (delete i (el_votes el)) el else el in
      let vote := if el_is_bool_type el then Z.b2z enabled else vote in
      let* res := gvotable_update_ballot alloc (w_heap w) b vote enabled in
      let '(ret, h, b) := res in
      let w := put_heap h w in
      let el := if enabled then el else set_votes (<[i := b]> (el_votes el)) el in
      if ret <? 0 then Ret (ret, put (gvotable_unlock_election el) w) else
      run_and_notify w (if enabled then gvotable_add_ballot el b enabled else el) ret
    end
  | _, _ => Ret (- EINVAL, w)
  end.
End operations.

Section defaults_and_queries.
Context `{Environment}.

(** *** The default vote *)

(** As written: when the default changes and the election does not ask for a
    callback, [re_lock] is not released. *)
Definition gvotable_set_default (w : world) (default_val : Z) : outcome (Z * world) :=
  match w_el w with
  | None => Ret (- EINVAL, w)
  | Some el =>
    if el_is_bool_type el then Ret (- EINVAL, w) else
    let* el := gvotable_lock_election el in
    let changed := (el_has_default_vote el =? 1) && negb (el_default_vote el =? default_val) in
    let el := set_default_vote default_val el in
    let* rw :=
      if changed then
        let* res := gvotable_internal_run_election (w_heap w) el in
        let '(callback, h, el) := res in
        if callback then gvotable_run_callback (put (gvotable_unlock_result el) (put_heap h w))
        else Ret (0, put el (put_heap h w))
      else Ret (0, put (gvotable_unlock_result el) w) in
    let* el := must (w_el (snd rw)) in
    Ret (fst rw, put (gvotable_unlock_callback (set_has_default_vote 1 el)) (snd rw))
  end.

(** Returns the status and the new value of [*result]. *)
Definition gvotable_get_default (w : world) (result : Z) : outcome (Z * Z * world) :=
  match w_el w with
  | None => Ret (- EINVAL, result, w)
  | Some el =>
    if el_has_default_vote el =? 0 then Ret (- EINVAL, result, w) else
    let* el := gvotable_lock_election el in
    let* hr := gvotable_internal_copy_result (w_heap w) el result (el_default_vote el) in
    Ret (0, snd hr, put (gvotable_unlock_election el) (put_heap (fst hr) w))
  end.

Definition gvotable_use_default (w : world) (default_is_enabled : bool) : outcome (Z * world) :=
  match w_el w with
  | None => Ret (- EINVAL, w)
  | Some el =>
    if el_is_bool_type el then Ret (- EINVAL, w) else
    let* el := gvotable_lock_election el in
    run_and_notify w (set_has_default_vote (Z.b2z default_is_enabled) el) 0
  end.

(** *** Queries *)

Definition gvotable_get_data (w : world) : Z :=
  match w_el w with Some el => el_data el | None => 0 end.

Definition gvotable_set_vote2str (w : world) (vote2str : Z) : outcome world :=
  let* el := must (w_el w) in Ret (put (set_vote2str vote2str el) w).

(** The status and what is stored through the result pointer, if anything. *)
Definition gvotable_get_current_result_unlocked (el : gvotable_election) : Z * option Z :=
  if el_force_result_is_enabled el then (0, Some (el_force_result el))
  else if el_result_is_valid el then (0, Some (el_result el))
  else (- EAGAIN, None).

(** [lock_result] followed by [unlock_result] leaves the election as it was. *)
Definition under_result_lock {A} (el : gvotable_election) (a : A) : outcome A :=
  let* _ := gvotable_lock_result el in Ret a.

(** [vote] tells whether the out parameter is not NULL. *)
Definition gvotable_get_current_vote (w : world) (vote : bool) : outcome (Z * option Z) :=
  match w_el w with
  | Some el =>
    if negb vote then Ret (- EINVAL, None)
    else under_result_lock el (gvotable_get_current_result_unlocked el)
  | None => Ret (- EINVAL, None)
  end.

Definition gvotable_get_current_int_vote (w : world) : outcome Z :=
  let* rv := gvotable_get_current_vote w true in
  if negb (fst rv =? 0) then Ret (fst rv)
  else let* ptr := must (snd rv) in Ret (s32 ptr).

Definition gvotable_copy_current_result (w : world) (vote vote_size : Z) : outcome (Z * world) :=
  match w_el w with
  | None => Ret (- EINVAL, w)
  | Some el =>
    if vote =? 0 then Ret (- EINVAL, w) else
    if negb (vote_size =? el_vote_size el) then Ret (- ERANGE, w) else
    let* rv := under_result_lock el (gvotable_get_current_result_unlocked el) in
    if fst rv =? 0 then
      let* tmp := must (snd rv) in
      let* h := memcpy_buf (w_heap w) vote tmp vote_size in
      Ret (fst rv, put_heap h w)
    else Ret (fst rv, w)
  end.

(** The length of the reason, and the string copied to a buffer of [max_len]. *)
Definition gvotable_get_current_reason_unlocked (el : gvotable_election) (max_len : nat)
    : Z * option string :=
  let r := if el_force_result_is_enabled el then Some DEBUGFS_FORCE_VOTE_REASON
           else if el_result_is_valid el then Some (el_reason el) else None in
  match r with
  | Some r => (Z.of_nat (String.length r), Some (strlcpy max_len r))
  | None => (- EAGAIN, None)
  end.

Definition gvotable_get_current_reason (w : world) (reason : bool) (max_len : nat)
    : outcome (Z * option string) :=
  match w_el w with
  | Some el =>
    if negb reason then Ret (- EINVAL, None)
    else under_result_lock el (gvotable_get_current_reason_unlocked el max_len)
  | None => Ret (- EINVAL, None)
  end.

Definition gvotable_get_vote (w : world) (reason : option string) (vote : bool)
    : outcome (Z * option Z) :=
  match w_el w, reason with
  | Some el, Some reason =>
    if negb vote then Ret (- EINVAL, None) else
    under_result_lock el
      match gvotable_ballot_find_internal el reason with
      | None => (if el_is_bool_type el then 0 else - ENODEV, Some 0)
      | Some (_, b) =>
        if negb (el_is_bool_type el) && negb (b_enabled b) then (- EINVAL, None)
        else (0, Some (cur_vote b))
      end
  | _, _ => Ret (- EINVAL, None)
  end.

Definition gvotable_get_int_vote (w : world) (reason : option string) : outcome Z :=
  let* rv := gvotable_get_vote w reason true in
  if negb (fst rv =? 0) then Ret (fst rv)
  else let* ptr := must (snd rv) in Ret (s32 ptr).

Definition gvotable_is_enabled (w : world) (reason : option string) (enabled : bool)
    : outcome (Z * option bool) :=
  match w_el w, reason with
  | Some el, Some reason =>
    if negb enabled then Ret (- EINVAL, None) else
    under_result_lock el
      match gvotable_ballot_find_internal el reason with
      | None => (- ENODEV, None)
      | Some (_, b) => (0, Some (b_enabled b))
      end
  | _, _ => Ret (- EINVAL, None)
  end.

(** The loop of [gvotable_election_for_each], with the client's data threaded
    through its callback; a negative result stops it. *)
Fixpoint for_each_ballot {D} (f : D -> string -> Z -> Z * D) (ret : Z) (d : D)
    (l : list ballot) : Z * D :=
  match l with
  | [] => (ret, d)
  | b :: l' =>
    if negb (b_enabled b) then for_each_ballot f ret d l' else
    let '(ret, d) := f d (b_reason b) (cur_vote b) in
    if ret <? 0 then (ret, d) else for_each_ballot f ret d l'
  end.

Definition gvotable_election_for_each {D} (w : world) (f : D -> string -> Z -> Z * D) (d : D)
    : outcome (Z * D) :=
  let* el := must (w_el w) in
  if el_force_result_is_enabled el then
    Ret (f d DEBUGFS_FORCE_VOTE_REASON (el_force_result el))
  else under_result_lock el (for_each_ballot f 0 d (el_votes el)).

(** *** Debug entries *)

(** A write of [count] bytes to a debug file: [user] is the text when it can be read
    from user space.  [simple_write_to_buffer] keeps what fits the reason. *)
Definition debugfs_recast (alloc : option Z) (w : world) (user : option string) (count : Z)
    (enabled : bool) : outcome (Z * world) :=
  match user with
  | None => Ret (- EFAULT, w)
  | Some text =>
    let reason := String.substring 0 (GVOTABLE_MAX_REASON_LEN - 1) text in
    let* rw := gvotable_recast_ballot alloc w reason enabled in
    Ret (if fst rw <? 0 then fst rw else count, snd rw)
  end.

Definition debugfs_enable_vote (alloc : option Z) (w : world) (user : option string) (count : Z)
    : outcome (Z * world) :=
  debugfs_recast alloc w user count true.

Definition debugfs_disable_vote (alloc : option Z) (w : world) (user : option string) (count : Z)
    : outcome (Z * world) :=
  debugfs_recast alloc w user count false.

Definition debugfs_cast_int_vote (balloc : bool) (alloc : option Z) (w : world) (val : Z)
    : outcome (Z * world) :=
  let* re := gvotable_is_enabled w (Some DEBUGFS_CAST_VOTE_REASON) true in
  let enabled := match snd re with Some e => e | None => false end in
  gvotable_cast_vote balloc alloc w (Some DEBUGFS_CAST_VOTE_REASON) val enabled.

Definition debugfs_force_int_value (w : world) (val : Z) : outcome (Z * world) :=
  let* el := must (w_el w) in
  let pre_val := u64 (el_force_result el) in
  let* el := gvotable_lock_election el in
  let el := gvotable_unlock_result (set_force_result val el) in
  let w := put el w in
  let* rw :=
    if negb (el_callback el) then Ret (0, w)
    else if el_force_result_is_enabled el && negb (pre_val =? val) then
      run_callback_with w (Some DEBUGFS_FORCE_VOTE_REASON) (el_force_result el)
    else Ret (0, w) in
  let* w := unlock_callback_w (snd rw) in
  Ret (fst rw, w).

Definition debugfs_force_int_active (w : world) (val : Z) : outcome (Z * world) :=
  let* el := must (w_el w) in
  let* el := gvotable_lock_election el in
  let el := gvotable_unlock_result (set_force_result_is_enabled (negb (val =? 0)) el) in
  let w := put el w in
  let* rw :=
    if negb (el_callback el) then Ret (0, w)
    else if el_force_result_is_enabled el then
      run_callback_with w (Some DEBUGFS_FORCE_VOTE_REASON) (el_force_result el)
    else gvotable_run_callback w in
  let* w := unlock_callback_w (snd rw) in
  Ret (fst rw, w).

(** [gvotable_cast_int_vote] and friends of gvotable.h. *)
Definition gvotable_cast_int_vote (balloc : bool) (alloc : option Z) (w : world)
    (reason : option string) (vote : Z) (enabled : bool) : outcome (Z * world) :=
  gvotable_cast_vote balloc alloc w reason (u64 vote) enabled.

Definition gvotable_cast_long_vote (balloc : bool) (alloc : option Z) (w : world)
    (reason : option string) (vote : Z) (enabled : bool) : outcome (Z * world) :=
  gvotable_cast_vote balloc alloc w reason (u64 vote) enabled.

Definition gvotable_cast_bool_vote (balloc : bool) (alloc : option Z) (w : world)
    (reason : option string) (vote : bool) : outcome (Z * world) :=
  gvotable_cast_vote balloc alloc w reason 0 vote.
End defaults_and_queries.
