(* ===== verification/GvOrder.v ===== *)
(** What an election elects (bms/misc/gvotable.c).

    The abstract state of an election is the list of its active votes, in the order
    of its ballots.  A cast removes the vote of its reason and, when it is enabled,
    puts the new one where the comparator says; the result is the first active vote,
    else the default.  Comparators that order votes by a key keep the ballots sorted,
    so the first active vote is the extremal one. *)

From stdpp Require Import gmap.
From S2P Require Import Prelude GvElection.

(** ** Strings of bounded length *)

Lemma substring_all n s : (String.length s <= n)%nat -> String.substring 0 n s = s.
Proof.
  revert n. induction s as [|c s IH]; intros [|n] Hn; simpl in *; try done; [lia|].
  f_equal. apply IH. lia.
Qed.

Lemma length_substring n s : (String.length (String.substring 0 n s) <= n)%nat.
Proof.
  revert n. induction s as [|c s IH]; intros [|n]; simpl; try lia.
  specialize (IH n). lia.
Qed.

Lemma strlcpy_short n s : (String.length s < n)%nat -> strlcpy n s = s.
Proof. intros. apply substring_all. lia. Qed.

Lemma length_strlcpy n s : (0 < n)%nat -> (String.length (strlcpy n s) < n)%nat.
Proof. intros. pose proof (length_substring (n - 1) s). unfold strlcpy. lia. Qed.

Lemma strncmp_eq_short n a b :
  (String.length a < n)%nat -> (String.length b < n)%nat -> strncmp_eq n a b = true <-> a = b.
Proof.
  intros. unfold strncmp_eq. rewrite bool_decide_eq_true.
  by rewrite !substring_all by lia.
Qed.

(** ** Active votes *)

Definition vote_of (b : ballot) : string * Z := (b_reason b, cur_vote b).

Definition active (l : list ballot) : list (string * Z) :=
  vote_of <$> filter (fun b => b_enabled b = true) l.

(** The votes of the other reasons. *)
Definition without (reason : string) (a : list (string * Z)) : list (string * Z) :=
  filter (fun p => p.1 <> reason) a.

Lemma active_app l1 l2 : active (l1 ++ l2) = active l1 ++ active l2.
Proof. unfold active. by rewrite filter_app, fmap_app. Qed.

Lemma active_cons b l :
  active (b :: l) = (if b_enabled b then [vote_of b] else []) ++ active l.
Proof.
  unfold active. destruct (b_enabled b) eqn:E.
  - by rewrite filter_cons_True.
  - by rewrite filter_cons_False by congruence.
Qed.

Lemma active_find l : (vote_of <$> List.find b_enabled l) = head (active l).
Proof.
  induction l as [|b l IH]; [done|]. rewrite active_cons. simpl.
  destruct (b_enabled b); simpl; [done|]. by rewrite IH.
Qed.

Lemma elem_of_active r v l :
  (r, v) ∈ active l <->
  exists b, b ∈ l /\ b_enabled b = true /\ b_reason b = r /\ cur_vote b = v.
Proof.
  unfold active. rewrite list_elem_of_fmap. split.
  - intros (b & Hb & Hin). apply list_elem_of_filter in Hin as [? ?].
    unfold vote_of in Hb. simplify_eq. eauto.
  - intros (b & ? & ? & <- & <-). exists b. split; [done|]. by apply list_elem_of_filter.
Qed.

Lemma without_app reason a b : without reason (a ++ b) = without reason a ++ without reason b.
Proof. apply filter_app. Qed.

Lemma without_none reason l :
  reason ∉ (b_reason <$> l) -> without reason (active l) = active l.
Proof.
  induction l as [|b l IH]; [done|]. rewrite fmap_cons, not_elem_of_cons. intros [Hb Hl].
  rewrite active_cons, without_app, IH by done. f_equal.
  destruct (b_enabled b); [|done]. unfold without.
  by rewrite filter_cons_True.
Qed.

(** ** Well-formed elections

    Elections whose votes fit a pointer, between two operations. *)

Section elections.
Context `{Environment}.

Record wf_ballot (b : ballot) : Prop := {
  wf_hash : b_reason_hash b = full_name_hash (b_reason b);
  wf_reason : (String.length (b_reason b) < GVOTABLE_MAX_REASON_LEN)%nat;
  wf_idx : b_idx b = 0;
  wf_vote : length (b_vote b) = 1%nat;
  wf_vote_size : b_vote_size b = 0;
}.

Record wf_votes (l : list ballot) : Prop := {
  wf_ballots : Forall wf_ballot l;
  wf_nodup : NoDup (b_reason <$> l);
}.

Record wf_election (el : gvotable_election) : Prop := {
  wf_use_alloc : el_use_alloc el = false;
  wf_el_votes : wf_votes (el_votes el);
  wf_cb_lock : el_cb_lock el = false;
  wf_re_lock : el_re_lock el = false;
  wf_el_reason : (String.length (el_reason el) < GVOTABLE_MAX_REASON_LEN)%nat;
}.

(** The client's callback returns and leaves the election as it is: it may read it,
    but the operations that change an election cannot be called from its callback
    and [gvotable_election_set_result] refuses all but "none" elections. *)
Class QuietCallback : Prop :=
  callback_returns w reason vote :
    exists rc w', callback_fn w reason vote = Ret (rc, w') /\ w_el w' = w_el w.

(** *** Finding the ballot of a reason *)

Lemma is_ballot_for_spec reason b :
  wf_ballot b -> (String.length reason < GVOTABLE_MAX_REASON_LEN)%nat ->
  is_ballot_for reason b <-> b_reason b = reason.
Proof.
  intros Hb Hr. unfold is_ballot_for, gvotable_internal_hash.
  rewrite strncmp_eq_short by (try apply Hb; done).
  rewrite (wf_hash b Hb). split; [by intros [_ ?]|by intros ->].
Qed.

Lemma ballot_find_None el reason :
  wf_votes (el_votes el) -> (String.length reason < GVOTABLE_MAX_REASON_LEN)%nat ->
  gvotable_ballot_find_internal el reason = None -> reason ∉ (b_reason <$> el_votes el).
Proof.
  intros [Hwf _] Hr Hf. apply list_find_None in Hf.
  rewrite list_elem_of_fmap. intros (b & -> & Hb).
  rewrite Forall_forall in Hwf, Hf. apply (Hf b Hb).
  apply is_ballot_for_spec; auto.
Qed.

Lemma ballot_find_Some el reason i b :
  wf_votes (el_votes el) -> (String.length reason < GVOTABLE_MAX_REASON_LEN)%nat ->
  gvotable_ballot_find_internal el reason = Some (i, b) ->
  exists l1 l2, el_votes el = l1 ++ b :: l2 /\ i = length l1 /\ b_reason b = reason /\
    wf_ballot b /\ wf_votes (l1 ++ l2) /\ reason ∉ (b_reason <$> l1 ++ l2).
Proof.
  intros [Hwf Hnd] Hr Hf. apply list_find_Some in Hf as (Hi & Hb & _).
  assert (Hlen := lookup_lt_Some _ _ _ Hi). apply list_elem_of_split_length in Hi as (l1 & l2 & Hl & ->).
  rewrite Hl in Hwf, Hnd. apply Forall_app in Hwf as [? Hwf].
  apply Forall_cons in Hwf as [? ?].
  assert (b_reason b = reason) as <- by (by apply is_ballot_for_spec).
  rewrite fmap_app, fmap_cons in Hnd.
  rewrite <- Permutation_middle in Hnd. apply NoDup_cons in Hnd as [Hni Hnd].
  exists l1, l2. rewrite fmap_app. split_and!; auto.
  split; [by apply Forall_app|by rewrite fmap_app].
Qed.

(** *** Adding a ballot *)

(** Where an enabled ballot goes: after ballots that do not compare greater, before
    one that does. *)
Definition inserted (cmp : Z -> Z -> Z) (b : ballot) (l l' : list ballot) : Prop :=
  exists l1 l2, l = l1 ++ l2 /\ l' = l1 ++ b :: l2 /\
    Forall (fun t => 0 <= cmp (cur_vote b) (cur_vote t)) l1 /\
    match l2 with [] => True | t :: _ => cmp (cur_vote b) (cur_vote t) < 0 end.

Lemma add_before_spec cmp b l :
  match add_before cmp b l with
  | Some l' => inserted cmp b l l'
  | None => inserted cmp b l (l ++ [b])
  end.
Proof.
  induction l as [|t l IH]; simpl.
  - by exists [], [].
  - case_test.
    + by exists [], (t :: l).
    + destruct (add_before cmp b l) as [l'|];
        destruct IH as (l1 & l2 & -> & Hl' & ? & ?);
        exists (t :: l1), l2; (split; [done|]); (split; [|auto using Forall_cons_2]);
        by rewrite ?Hl', <- ?app_comm_cons, ?Hl'.
Qed.

Lemma add_ballot_spec el b enabled :
  exists votes n, gvotable_add_ballot el b enabled = set_num_votes n (set_votes votes el) /\
    if enabled then inserted (run_cmp (el_cmp el)) b (el_votes el) votes
    else votes = el_votes el ++ [b].
Proof.
  unfold gvotable_add_ballot. destruct (el_votes el) as [|t l] eqn:E.
  - exists [b], (el_num_votes el). split; [by destruct el|].
    destruct enabled; [by exists [], []|done].
  - pose proof (add_before_spec (run_cmp (el_cmp el)) b (t :: l)) as Hs.
    destruct enabled.
    + destruct (add_before _ _ _) as [l'|].
      * by exists l', (el_num_votes el); destruct el.
      * exists ((t :: l) ++ [b]), (u32 (el_num_votes el + 1)). by destruct el.
    + exists ((t :: l) ++ [b]), (u32 (el_num_votes el + 1)). by destruct el.
Qed.

Lemma inserted_permutation cmp b l l' : inserted cmp b l l' -> l' ≡ₚ b :: l.
Proof. intros (l1 & l2 & -> & -> & _). by rewrite Permutation_middle. Qed.

Lemma wf_votes_add b l l' :
  wf_ballot b -> wf_votes l -> b_reason b ∉ (b_reason <$> l) -> l' ≡ₚ b :: l -> wf_votes l'.
Proof.
  intros Hb [Hl Hnd] Hni Hp. split.
  - rewrite Hp. by constructor.
  - rewrite Hp. by constructor.
Qed.

(** *** Updating a ballot of an election whose votes fit a pointer *)

Definition updated (b : ballot) (vote : Z) (enabled : bool) : ballot :=
  mk_ballot enabled (b_reason_hash b) (b_reason b) 0 [vote] 0 (u32 (b_num_votes b + 1)).

Lemma update_ballot_ok alloc h b vote enabled :
  b_vote_size b = 0 -> length (b_vote b) = 1%nat ->
  gvotable_update_ballot alloc h b vote enabled = Ret (0, h, updated b vote enabled).
Proof.
  intros Hs Hl. unfold gvotable_update_ballot, VOTES_HISTORY_DEPTH. rewrite Z.mod_1_r.
  cbn [b_vote_size b_vote b_reason_hash b_reason b_enabled b_num_votes]. rewrite Hs.
  by destruct (b_vote b) as [|v [|? ?]].
Qed.

Lemma wf_updated b vote enabled : wf_ballot b -> wf_ballot (updated b vote enabled).
Proof. intros [? ? ? ? ?]. by split. Qed.
(** *** Running an election *)

(** The published result agrees with the vote [v]: it is the vote, or compares equal
    to it (then it is not rewritten); boolean elections publish TRUE. *)
Definition publishes (el : gvotable_election) (v : Z) : Prop :=
  el_result el = v \/ run_cmp (el_cmp el) (el_result el) v = 0.

(** What an election publishes: the first active vote, else the default, else
    nothing. *)
Definition elected (el : gvotable_election) : Prop :=
  match active (el_votes el) with
  | (r, v) :: _ =>
    el_result_is_valid el = true /\ el_reason el = r /\
    (if el_is_bool_type el then
       el_result el = GVOTABLE_BOOL_TRUE_VALUE \/ run_cmp (el_cmp el) (el_result el) v = 0
     else publishes el v)
  | [] =>
    if el_has_default_vote el =? 1 then
      el_result_is_valid el = true /\ el_reason el = default_reason /\
      publishes el (el_default_vote el)
    else el_result_is_valid el = false /\ el_reason el = ""%string
  end.

(** The three fields an election writes. *)
Definition set_published (valid : bool) (reason : string) (result : Z)
    (el : gvotable_election) : gvotable_election :=
  set_result_is_valid valid (set_reason reason (set_result result el)).

Lemma elect_ok h el reason vote new_result :
  el_use_alloc el = false ->
  (String.length (el_reason el) < GVOTABLE_MAX_REASON_LEN)%nat ->
  (String.length reason < GVOTABLE_MAX_REASON_LEN)%nat ->
  exists cb r, elect h el reason vote new_result = Ret (cb, h, set_published true reason r el) /\
    (r = new_result \/ r = el_result el /\ run_cmp (el_cmp el) r vote = 0).
Proof.
  intros Ha Hel Hr. unfold elect, gvotable_internal_update_reason.
  rewrite strlcpy_short by done.
  destruct (negb (el_result_is_valid el) || _) eqn:E.
  - destruct (el_auto_callback el || _) eqn:Ec.
    + exists (el_auto_callback el), new_result. split; [|by left].
      unfold gvotable_internal_update_result, gvotable_internal_copy_result.
      destruct el; simpl in *; subst. done.
    + exists (el_auto_callback el), (el_result el).
      destruct el; simpl in *; subst. split; [done|]. right. split; [done|].
      apply orb_false_elim in Ec as [_ Ec]. by bool_to_prop.
  - apply orb_false_elim in E as [_ E]. apply negb_false_iff in E.
    apply strncmp_eq_short in E; [|done..]. subst reason. simpl.
    destruct (negb (_ =? 0)) eqn:Ec.
    + exists (el_auto_callback el), new_result. split; [|by left].
      unfold gvotable_internal_update_result, gvotable_internal_copy_result.
      destruct el; simpl in *; by subst.
    + exists false, (el_result el). split; [by destruct el|]. right. split; [done|].
      by bool_to_prop.
Qed.

Lemma run_election_ok h el :
  el_use_alloc el = false -> Forall wf_ballot (el_votes el) ->
  (String.length (el_reason el) < GVOTABLE_MAX_REASON_LEN)%nat ->
  exists cb valid reason r,
    gvotable_internal_run_election h el = Ret (cb, h, set_published valid reason r el) /\
    (String.length reason < GVOTABLE_MAX_REASON_LEN)%nat /\
    (el_force_result_is_enabled el = false -> elected (set_published valid reason r el)).
Proof.
  intros Ha Hv Hr. unfold gvotable_internal_run_election, elected.
  destruct (el_force_result_is_enabled el).
  { exists false, (el_result_is_valid el), (el_reason el), (el_result el). by destruct el. }
  cbn [set_published set_result_is_valid set_reason set_result el_votes el_has_default_vote
       el_result_is_valid el_reason el_is_bool_type el_default_vote].
  pose proof (active_find (el_votes el)) as Hf.
  destruct (List.find b_enabled (el_votes el)) as [b|] eqn:E; simpl in Hf.
  - destruct (active (el_votes el)) as [|[r v] a]; [done|]. injection Hf as <- <-.
    assert (String.length (b_reason b) < GVOTABLE_MAX_REASON_LEN)%nat.
    { apply List.find_some in E as [E _]. rewrite Forall_forall in Hv.
      apply Hv. by apply list_elem_of_In. }
    destruct (elect_ok h el (b_reason b) (cur_vote b)
      (if el_is_bool_type el then GVOTABLE_BOOL_TRUE_VALUE else cur_vote b))
      as (cb & r & -> & Hr'); [done..|].
    run. exists (cb && el_callback el), true, (b_reason b), r. split_and!; [done..|].
    intros _. split_and!; [done..|].
    destruct (el_is_bool_type el); destruct Hr' as [->|[-> ?]]; by (left + right).
  - destruct (active (el_votes el)); [|done]. destruct (el_has_default_vote el =? 1).
    + destruct (elect_ok h el default_reason (el_default_vote el) (el_default_vote el))
        as (cb & r & -> & Hr'); [done| done|by apply Nat.ltb_lt|].
      run. exists (cb && el_callback el), true, default_reason, r. split_and!; [done| |].
      * by apply Nat.ltb_lt.
      * intros _. split_and!; [done..|]. destruct Hr' as [->|[-> ?]]; by (left + right).
    + run. eexists _, false, ""%string, (el_result el). split_and!; [by destruct el| |done].
      by apply Nat.ltb_lt.
Qed.

(** The state an operation leaves: locks free, ballots [votes], a result that is
    elected unless one is forced. *)
Definition settled (w : world) (el : gvotable_election) (votes : list ballot) : Prop :=
  exists el', w_el w = Some el' /\ wf_election el' /\ el_votes el' = votes /\
    (el_force_result_is_enabled el' = false -> elected el') /\
    (exists n m valid reason r,
       el' = set_num_voters m (set_num_votes n (set_votes votes
               (set_owner None (set_published valid reason r el))))).

Lemma run_callback_ok `{!QuietCallback} w el :
  w_el w = Some el ->
  exists rc w', gvotable_run_callback w = Ret (rc, w') /\ w_el w' = w_el w.
Proof.
  intros Hw. unfold gvotable_run_callback, run_callback_with. rewrite Hw. run.
  destruct (el_result_is_valid el);
    edestruct callback_returns as (rc & w1 & -> & Hw1); exists rc, w1; by rewrite Hw1.
Qed.

Lemma run_and_notify_ok `{!QuietCallback} w el0 el ret votes :
  wf_election el0 -> wf_votes votes ->
  (exists n m o, el = set_num_voters m (set_num_votes n (set_votes votes
                        (set_re_lock true (set_cb_lock true (set_owner o el0)))))) ->
  exists rc w', run_and_notify w el ret = Ret (rc, w') /\ settled w' el0 votes.
Proof.
  intros Hwf Hv (n & m & o & ->). unfold run_and_notify.
  destruct (run_election_ok (w_heap w) (set_num_voters m (set_num_votes n (set_votes votes
              (set_re_lock true (set_cb_lock true (set_owner o el0)))))))
    as (cb & valid & reason & r & -> & Hlen & He); [apply Hwf|apply Hv|apply Hwf|]. run.
  set (el1 := set_published valid reason r _) in *.
  assert (Hdone : forall w1, w_el w1 = Some (gvotable_unlock_result el1) ->
    exists w', unlock_callback_w w1 = Ret w' /\ settled w' el0 votes).
  { intros w1 Hw1. unfold unlock_callback_w. rewrite Hw1. run. eexists. split; [done|].
    eexists. split; [reflexivity|]. destruct Hwf. subst el1. destruct el0.
    unfold set_published, gvotable_unlock_callback, gvotable_unlock_result in *. el_cbv. subst.
    split; [by split|]. split; [done|]. split; [exact He|].
    by exists n, m, valid, reason, r. }
  destruct cb.
  - edestruct run_callback_ok as (rc & w1 & -> & Hw1); [reflexivity|]. run.
    destruct (Hdone w1) as (w' & -> & ?); [by rewrite Hw1|]. run. eauto.
  - run. edestruct Hdone as (w' & -> & ?); [|run; eauto]. done.
Qed.
(** *** Casting

    How a vote changes the list of ballots: [b] is the ballot after the update. *)

Inductive cast_step (cmp : Z -> Z -> Z) (b : ballot) : list ballot -> list ballot -> Prop :=
| cast_new l l' :
    b_enabled b = true -> b_reason b ∉ (b_reason <$> l) ->
    inserted cmp b l l' -> cast_step cmp b l l'
| cast_new_disabled l :
    b_enabled b = false -> b_reason b ∉ (b_reason <$> l) -> cast_step cmp b l (l ++ [b])
| cast_again l1 b0 l2 l' :
    b_enabled b = true -> b_reason b0 = b_reason b -> b_reason b ∉ (b_reason <$> l1 ++ l2) ->
    inserted cmp b (l1 ++ l2) l' -> cast_step cmp b (l1 ++ b0 :: l2) l'
| cast_off l1 b0 l2 :
    b_enabled b = false -> b_reason b0 = b_reason b -> b_reason b ∉ (b_reason <$> l1 ++ l2) ->
    cast_step cmp b (l1 ++ b0 :: l2) (l1 ++ b :: l2)
| cast_last l1 b0 l2 :
    b_enabled b = false -> b_reason b0 = b_reason b -> b_reason b ∉ (b_reason <$> l1 ++ l2) ->
    cast_step cmp b (l1 ++ b0 :: l2) ((l1 ++ l2) ++ [b]).

Lemma cast_step_wf cmp b l l' :
  wf_ballot b -> wf_votes l -> cast_step cmp b l l' -> wf_votes l'.
Proof.
  intros Hb Hl Hs.
  assert (Hsub : forall l1 b0 l2, wf_votes (l1 ++ b0 :: l2) -> wf_votes (l1 ++ l2)).
  { intros l1 b0 l2 [Hf Hnd]. rewrite <- Permutation_middle in Hf, Hnd.
    rewrite fmap_cons in Hnd. split; [by inversion Hf|by inversion Hnd]. }
  destruct Hs as [l l' ? ? ?|l ? ?|l1 b0 l2 l' ? ? ? ?|l1 b0 l2 ? ? ?|l1 b0 l2 ? ? ?].
  - eauto using wf_votes_add, inserted_permutation.
  - apply (wf_votes_add b l); auto. by rewrite Permutation_app_comm.
  - eauto using wf_votes_add, inserted_permutation.
  - apply (wf_votes_add b (l1 ++ l2)); eauto. by rewrite <- Permutation_middle.
  - apply (wf_votes_add b (l1 ++ l2)); eauto. by rewrite (Permutation_app_comm _ [b]).
Qed.

Lemma delete_middle {A} (l1 : list A) x l2 : delete (length l1) (l1 ++ x :: l2) = l1 ++ l2.
Proof. induction l1; simpl; [done|]. by f_equal. Qed.

Lemma insert_middle {A} (l1 : list A) x y l2 :
  <[length l1 := y]> (l1 ++ x :: l2) = l1 ++ y :: l2.
Proof. induction l1; simpl; [done|]. by f_equal. Qed.

Lemma lock_election_ok el :
  wf_election el ->
  gvotable_lock_election el =
    Ret (set_re_lock true (set_owner (Some get_current) (set_cb_lock true el))).
Proof.
  intros [? ? Hc Hr ?]. unfold gvotable_lock_election. rewrite Hc. run.
  unfold gvotable_lock_result. destruct el; simpl in *. by rewrite Hr.
Qed.

(** What the election stores for a vote. *)
Definition stored_vote (el : gvotable_election) (vote : Z) (enabled : bool) : Z :=
  if el_is_bool_type el then Z.b2z enabled else vote.

(** A ballot that was found is voted again: taken out and inserted if it is enabled,
    disabled where it is otherwise. *)
Lemma place_again el b b0 l1 l2 enabled :
  el_votes el = l1 ++ b0 :: l2 -> b_enabled b = enabled -> b_reason b0 = b_reason b ->
  b_reason b ∉ (b_reason <$> l1 ++ l2) ->
  exists votes n, (if enabled
      then gvotable_add_ballot (set_votes (delete (length l1) (el_votes el)) el) b enabled
      else set_votes (<[length l1 := b]> (el_votes el)) el)
        = set_num_votes n (set_votes votes el) /\
    cast_step (run_cmp (el_cmp el)) b (el_votes el) votes.
Proof.
  intros Hl He Hr Hni. rewrite Hl, delete_middle, insert_middle. destruct enabled.
  - destruct (add_ballot_spec (set_votes (l1 ++ l2) el) b true) as (votes & n & Ha & Hi).
    exists votes, n. split; [rewrite Ha; by destruct el|]. by apply cast_again.
  - exists (l1 ++ b :: l2), (el_num_votes el). split; [by destruct el|]. by apply cast_off.
Qed.

Lemma cast_vote_ok `{!QuietCallback} alloc w el reason vote enabled :
  w_el w = Some el -> wf_election el -> reason <> ""%string ->
  (String.length reason < GVOTABLE_MAX_REASON_LEN)%nat ->
  exists rc w' b votes,
    gvotable_cast_vote true alloc w (Some reason) vote enabled = Ret (rc, w') /\
    settled w' el votes /\ cast_step (run_cmp (el_cmp el)) b (el_votes el) votes /\
    wf_ballot b /\ b_reason b = reason /\ b_enabled b = enabled /\
    cur_vote b = stored_vote el vote enabled.
Proof.
  intros Hw Hwf Hne Hlen. unfold gvotable_cast_vote. rewrite Hw.
  apply String.eqb_neq in Hne as ->. rewrite (wf_use_alloc el Hwf). run.
  rewrite (lock_election_ok el Hwf). run.
  set (el1 := set_re_lock true _).
  assert (Hf : gvotable_ballot_find_internal el1 reason = gvotable_ballot_find_internal el reason)
    by done. rewrite Hf. clear Hf.
  pose proof (wf_el_votes el Hwf) as Hv.
  destruct (gvotable_ballot_find_internal el reason) as [[i b0]|] eqn:Hf.
  - destruct (ballot_find_Some el reason i b0 Hv Hlen Hf)
      as (l1 & l2 & Hl & -> & Hb0 & Hwb0 & Hv12 & Hni).
    rewrite update_ballot_ok by apply Hwb0. run.
    set (b := updated b0 _ enabled).
    assert (Hb : wf_ballot b) by (by apply wf_updated).
    destruct (place_again el1 b b0 l1 l2 enabled) as (votes & n & Hn & Hs);
      [done|by destruct enabled|done|subst; done|].
    edestruct (run_and_notify_ok (put_heap (w_heap w) w) el (set_num_votes n (set_votes votes el1)) 0 votes)
      as (rc & w' & Hr & Hs'); [done|by apply (cast_step_wf _ b _ _ ltac:(eassumption) Hv Hs)| |].
    { exists n, (el_num_voters el), (Some get_current). subst el1. destruct el. el_cbv. done. }
    exists rc, w', b, votes. split_and!; try done.
    + rewrite <- Hr, <- Hn. by destruct enabled.
    + by destruct enabled.
  - pose proof (ballot_find_None el reason Hv Hlen Hf) as Hni.
    change (el_use_alloc (set_num_voters _ _)) with (el_use_alloc el).
    change (el_use_alloc el1) with (el_use_alloc el). rewrite (wf_use_alloc el Hwf).
    change (el_is_bool_type (set_num_voters _ _)) with (el_is_bool_type el).
    fold (stored_vote el vote enabled).
    rewrite update_ballot_ok by done. run.
    set (b := updated _ _ enabled). set (m := u32 _).
    assert (Hwb : wf_ballot b).
    { subst b. unfold updated. simpl. split; simpl; try done; rewrite strlcpy_short; done. }
    assert (Hb : b_reason b = reason) by (simpl; by rewrite strlcpy_short).
    destruct (add_ballot_spec (set_num_voters m el1) b enabled) as (votes & n & Ha & Hi).
    change (el_votes (set_num_voters m el1)) with (el_votes el) in Hi.
    assert (Hs : cast_step (run_cmp (el_cmp el)) b (el_votes el) votes).
    { destruct enabled; [|subst votes]; constructor; try done; by rewrite Hb. }
    edestruct (run_and_notify_ok (put_heap (w_heap w) w) el
                 (set_num_votes n (set_votes votes (set_num_voters m el1))) 0 votes)
      as (rc & w' & Hr & Hs'); [done|by apply (cast_step_wf _ b _ _ ltac:(eassumption) Hv Hs)| |].
    { exists n, m, (Some get_current). subst el1. destruct el. el_cbv. done. }
    exists rc, w', b, votes. split_and!; try done. by rewrite <- Hr, Ha.
Qed.

Lemma recast_ballot_ok `{!QuietCallback} alloc w el reason enabled i b0 :
  w_el w = Some el -> wf_election el ->
  (String.length reason < GVOTABLE_MAX_REASON_LEN)%nat ->
  gvotable_ballot_find_internal el reason = Some (i, b0) ->
  exists rc w' b votes,
    gvotable_recast_ballot alloc w reason enabled = Ret (rc, w') /\
    settled w' el votes /\ cast_step (run_cmp (el_cmp el)) b (el_votes el) votes /\
    wf_ballot b /\ b_reason b = reason /\ b_enabled b = enabled /\ cur_vote b = cur_vote b0.
Proof.
  intros Hw Hwf Hlen Hf. unfold gvotable_recast_ballot. rewrite Hw. run.
  rewrite (lock_election_ok el Hwf). run. set (el1 := set_re_lock true _).
  change (gvotable_ballot_find_internal el1 reason)
    with (gvotable_ballot_find_internal el reason). rewrite Hf.
  pose proof (wf_el_votes el Hwf) as Hv.
  destruct (ballot_find_Some el reason i b0 Hv Hlen Hf)
    as (l1 & l2 & Hl & -> & Hb0 & Hwb0 & Hv12 & Hni).
  rewrite update_ballot_ok by apply Hwb0. run. set (b := updated b0 _ enabled).
  assert (Hb : wf_ballot b) by (by apply wf_updated).
  change (el_votes el1) with (el_votes el). rewrite Hl, delete_middle.
  destruct (add_ballot_spec (set_votes (l1 ++ l2) el1) b enabled) as (votes & n & Ha & Hi).
  assert (Hs : cast_step (run_cmp (el_cmp el)) b (el_votes el) votes).
  { rewrite Hl. destruct enabled; [apply cast_again|subst votes; apply cast_last]; subst; done. }
  edestruct (run_and_notify_ok (put_heap (w_heap w) w) el (set_num_votes n (set_votes votes el1)) 0 votes)
    as (rc & w' & Hr & Hs'); [done|by apply (cast_step_wf _ b _ _ Hb Hv Hs)| |].
  { exists n, (el_num_voters el), (Some get_current). subst el1. destruct el. el_cbv. done. }
  exists rc, w', b, votes. rewrite <- Hl. split_and!; try done.
  rewrite <- Hr, Ha. done.
Qed.
End elections.
