(* ===== verification/GvSpec.v ===== *)
(** The contract of integer, recency and boolean elections (bms/misc/gvotable.c).

    The abstract state of an integer election is its tally, a map from reasons to
    their last vote and whether it is enabled; the result is the extremal enabled
    vote.  [KeyComparator] is what an election asks of a comparator that orders votes
    by a key; the comparators of the library are its instances. *)

From stdpp Require Import gmap sorting.
From S2P Require Import Prelude GvElection GvOrder.

(** ** Active votes after a vote *)

Section steps.
Context `{Environment}.

Lemma without_middle l1 b0 l2 r :
  b_reason b0 = r -> r ∉ (b_reason <$> l1 ++ l2) ->
  without r (active (l1 ++ b0 :: l2)) = active (l1 ++ l2).
Proof.
  intros Hr Hni. rewrite fmap_app, not_elem_of_app in Hni. destruct Hni.
  rewrite !active_app, active_cons, !without_app, !without_none by done. f_equal.
  destruct (b_enabled b0); [|done]. unfold without.
  by rewrite filter_cons_False by naive_solver.
Qed.

Lemma cast_step_disabled cmp b l l' :
  b_enabled b = false -> cast_step cmp b l l' ->
  active l' = without (b_reason b) (active l).
Proof.
  intros Hd Hs.
  destruct Hs as [l l' ? ? ?|l ? ?|l1 b0 l2 l' ? ? ? ?|l1 b0 l2 ? ? ?|l1 b0 l2 ? ? ?];
    try congruence.
  - by rewrite active_app, active_cons, Hd, without_none, app_nil_r.
  - rewrite without_middle by done. by rewrite !active_app, active_cons, Hd.
  - rewrite without_middle by done. by rewrite active_app, active_cons, Hd, app_nil_r.
Qed.

Lemma cast_step_enabled cmp b l l' :
  b_enabled b = true -> cast_step cmp b l l' ->
  exists rest, inserted cmp b rest l' /\ active rest = without (b_reason b) (active l).
Proof.
  intros He Hs.
  destruct Hs as [l l' ? ? ?|l ? ?|l1 b0 l2 l' ? ? ? ?|l1 b0 l2 ? ? ?|l1 b0 l2 ? ? ?];
    try congruence.
  - exists l. split; [done|]. by rewrite without_none.
  - exists (l1 ++ l2). split; [done|]. by rewrite without_middle.
Qed.

(** ** Comparators by recency *)

Lemma inserted_first cmp b l l' :
  (forall x y, cmp x y < 0) -> inserted cmp b l l' -> l' = b :: l.
Proof.
  intros Hc (l1 & l2 & -> & -> & Hf & _). destruct l1 as [|t l1]; [done|].
  apply Forall_cons in Hf as [Ht _]. specialize (Hc (cur_vote b) (cur_vote t)). lia.
Qed.

Lemma inserted_last cmp b l l' :
  (forall x y, 0 <= cmp x y) -> inserted cmp b l l' -> l' = l ++ [b].
Proof.
  intros Hc (l1 & l2 & -> & -> & _ & Hm). destruct l2 as [|t l2].
  - by rewrite app_nil_r.
  - specialize (Hc (cur_vote b) (cur_vote t)). lia.
Qed.
End steps.

(** ** Comparators by a key *)

Class KeyComparator (cmp : Z -> Z -> Z) (key : Z -> Z) : Prop := {
  cmp_lt a b : cmp a b < 0 <-> key a < key b;
  cmp_eq a b : cmp a b = 0 <-> key a = key b;
}.

#[export] Instance int_min_key : KeyComparator gvotable_comparator_int_min (fun v => 1 * s32 v).
Proof.
  split; intros a b; unfold gvotable_comparator_int_min, gvotable_comparator_int; case_tests.
Qed.

#[export] Instance int_max_key : KeyComparator gvotable_comparator_int_max (fun v => (-1) * s32 v).
Proof.
  split; intros a b; unfold gvotable_comparator_int_max, gvotable_comparator_int; case_tests.
Qed.

(** The unsigned comparators order the other way round: see [uint_max_elects_minimum]. *)
#[export] Instance uint_max_key : KeyComparator gvotable_comparator_uint_max u32.
Proof. split; intros a b; unfold gvotable_comparator_uint_max; case_tests. Qed.

#[export] Instance uint_min_key :
  KeyComparator gvotable_comparator_uint_min (fun v => - u32 v).
Proof.
  split; intros a b; unfold gvotable_comparator_uint_min, gvotable_comparator_uint_max;
    case_tests.
Qed.

(** Ballots in the order of the key: no ballot has a greater key than an
    enabled one behind it. *)
Definition key_le (key : Z -> Z) (a b : ballot) : Prop :=
  b_enabled b = true -> key (cur_vote a) <= key (cur_vote b).

Definition ordered (key : Z -> Z) (l : list ballot) : Prop := StronglySorted (key_le key) l.

Section keys.
Context `{Environment}.
Context (cmp : Z -> Z -> Z) (key : Z -> Z) `{!KeyComparator cmp key}.

Lemma ordered_remove l1 b l2 : ordered key (l1 ++ b :: l2) -> ordered key (l1 ++ l2).
Proof.
  unfold ordered. rewrite !StronglySorted_app, StronglySorted_cons.
  intros (Hc & ? & ? & ?). split_and!; [|done..].
  intros x1 x2 ? ?. apply Hc; [done|]. by constructor.
Qed.

Lemma ordered_inserted b l l' : ordered key l -> inserted cmp b l l' -> ordered key l'.
Proof.
  unfold ordered. intros Ho (l1 & l2 & -> & -> & Hf & Hm).
  rewrite StronglySorted_app in *. destruct Ho as (Hc & H1 & H2).
  assert (Hb2 : Forall (key_le key b) l2).
  { destruct l2 as [|t l2]; [done|]. apply cmp_lt in Hm.
    apply StronglySorted_cons in H2 as [H2 _]. constructor; [intros _; lia|].
    eapply Forall_impl; [exact H2|]. intros x Hx He. specialize (Hx He). lia. }
  split_and!; [|done|by apply StronglySorted_cons].
  intros x1 x2 Hx1 Hx2. apply elem_of_cons in Hx2 as [->|Hx2]; [|by apply Hc].
  intros _. rewrite Forall_forall in Hf. specialize (Hf x1 Hx1).
  destruct (Z.lt_ge_cases (key (cur_vote b)) (key (cur_vote x1))) as [Hlt|]; [|lia].
  apply cmp_lt in Hlt. lia.
Qed.

(** A vote keeps the order, provided a ballot that is disabled in place does not get
    a vote with a greater key than it had. *)
Lemma ordered_step b l l' :
  ordered key l -> cast_step cmp b l l' ->
  (b_enabled b = false -> forall b0, b0 ∈ l -> b_reason b0 = b_reason b ->
     key (cur_vote b) <= key (cur_vote b0)) ->
  ordered key l'.
Proof.
  intros Ho Hs Hd.
  destruct Hs as [l l' ? ? ?|l ? ?|l1 b0 l2 l' ? ? ? ?|l1 b0 l2 Hb Hr ?|l1 b0 l2 Hb ? ?].
  - by eapply ordered_inserted.
  - apply StronglySorted_app_2; [|done|by repeat constructor].
    intros x1 x2 _ ->%list_elem_of_singleton He. congruence.
  - eapply ordered_inserted; [|done]. by eapply ordered_remove.
  - specialize (Hd Hb b0 ltac:(set_solver) Hr).
    unfold ordered in *. rewrite StronglySorted_app, StronglySorted_cons in *.
    destruct Ho as (Hc & ? & Hb0 & ?). split_and!; try done.
    + intros x1 x2 Hx1 [->|Hx2]%elem_of_cons; [intros ?; congruence|].
      apply Hc; [done|]. by constructor.
    + eapply Forall_impl; [exact Hb0|]. intros x Hx He. specialize (Hx He). lia.
  - apply StronglySorted_app_2; [|by eapply ordered_remove|by repeat constructor].
    intros x1 x2 _ ->%list_elem_of_singleton He. congruence.
Qed.

(** The first active vote has the least key. *)
Lemma ordered_active_head l r v a :
  ordered key l -> active l = (r, v) :: a ->
  forall r' v', (r', v') ∈ active l -> key v <= key v'.
Proof.
  revert r v a. induction l as [|b l IH]; intros r v a Ho Ha; [done|].
  apply StronglySorted_cons in Ho as [Hb Ho]. rewrite active_cons in *.
  destruct (b_enabled b); simpl in *.
  - unfold vote_of in *. simplify_eq.
    intros r' v' [Heq|Hin]%elem_of_cons; [by simplify_eq|].
    apply elem_of_active in Hin as (b' & Hin & He & <- & <-).
    rewrite Forall_forall in Hb. by apply Hb.
  - by eapply IH.
Qed.
End keys.

(** ** Tallies *)

(** A reason's last vote, as an [int], and whether it is enabled. *)
Definition entry (b : ballot) : string * (Z * bool) :=
  (b_reason b, (s32 (cur_vote b), b_enabled b)).

Definition tally (l : list ballot) : gmap string (Z * bool) := list_to_map (entry <$> l).

Section tallies.
Context `{Environment}.

Lemma fst_entry l : (entry <$> l).*1 = b_reason <$> l.
Proof. rewrite <- list_fmap_compose. done. Qed.

Lemma tally_lookup l r v e :
  wf_votes l ->
  tally l !! r = Some (v, e) <->
  exists b, b ∈ l /\ b_reason b = r /\ s32 (cur_vote b) = v /\ b_enabled b = e.
Proof.
  intros Hl. unfold tally.
  rewrite <- elem_of_list_to_map by (rewrite fst_entry; apply Hl).
  rewrite list_elem_of_fmap. unfold entry. split.
  - intros (b & ? & ?). simplify_eq. eauto.
  - intros (b & ? & <- & <- & <-). eauto.
Qed.

Lemma tally_permutation l l' : wf_votes l -> l ≡ₚ l' -> tally l = tally l'.
Proof.
  intros Hl Hp. unfold tally. apply list_to_map_proper.
  - rewrite fst_entry. apply Hl.
  - by rewrite Hp.
Qed.

(** A vote replaces the entry of its reason. *)
Lemma cast_step_tally cmp b l l' :
  wf_votes l -> wf_votes l' -> cast_step cmp b l l' ->
  tally l' = <[b_reason b := (s32 (cur_vote b), b_enabled b)]> (tally l).
Proof.
  intros Hl Hl' Hs.
  assert (Hnew : forall rest, l' ≡ₚ b :: rest ->
    (exists b0, l ≡ₚ b0 :: rest /\ b_reason b0 = b_reason b) \/ l = rest ->
    tally l' = <[b_reason b := (s32 (cur_vote b), b_enabled b)]> (tally l)).
  { intros rest Hp Hr. rewrite (tally_permutation l' (b :: rest)) by done.
    destruct Hr as [(b0 & Hp0 & Hb0)| ->]; [|done].
    rewrite (tally_permutation l (b0 :: rest)) by done. unfold tally. simpl.
    by rewrite Hb0, insert_insert_eq. }
  destruct Hs as [l l' ? ? Hi|l ? ?|l1 b0 l2 l' ? ? ? Hi|l1 b0 l2 ? ? ?|l1 b0 l2 ? ? ?].
  - apply (Hnew l); eauto using inserted_permutation.
  - apply (Hnew l); auto. by rewrite Permutation_app_comm.
  - apply (Hnew (l1 ++ l2)); eauto using inserted_permutation.
    left. exists b0. by rewrite <- Permutation_middle.
  - apply (Hnew (l1 ++ l2)); [by rewrite <- Permutation_middle|].
    left. exists b0. by rewrite <- Permutation_middle.
  - apply (Hnew (l1 ++ l2)); [by rewrite (Permutation_app_comm _ [b])|].
    left. exists b0. by rewrite <- Permutation_middle.
Qed.
End tallies.

(** ** Integer elections *)

(** What an integer election promises for a tally: the least (for [sgn] = 1) or the
    greatest (-1) enabled vote and its reason; without one the default; else
    [-EAGAIN]. *)
Definition promises (sgn : Z) (t : gmap string (Z * bool)) (default : option Z)
    (res : Z) (reason : string) : Prop :=
  (t !! reason = Some (res, true) /\
   forall r v, t !! r = Some (v, true) -> sgn * res <= sgn * v) \/
  ((forall r v, t !! r <> Some (v, true)) /\
   match default with
   | Some d => res = d /\ reason = default_reason
   | None => res = - EAGAIN /\ reason = ""%string
   end).

Definition default_of (el : gvotable_election) : option Z :=
  if el_has_default_vote el =? 1 then Some (s32 (el_default_vote el)) else None.

(** One vote of a history: reason, vote, enabled. *)
Definition event : Type := (string * Z * bool)%type.

Definition replay (h : list event) (t : gmap string (Z * bool)) : gmap string (Z * bool) :=
  foldl (fun t ev => <[ev.1.1 := (ev.1.2, ev.2)]> t) t h.

(** An [int] vote for a legal reason; a vote that is disabled is not worse placed than
    the vote it replaces. *)
Definition fair_event (sgn : Z) (t : gmap string (Z * bool)) (ev : event) : Prop :=
  let '(reason, vote, enabled) := ev in
  reason <> ""%string /\ (String.length reason < GVOTABLE_MAX_REASON_LEN)%nat /\
  - 2 ^ 31 <= vote < 2 ^ 31 /\
  (enabled = false -> forall v e, t !! reason = Some (v, e) -> sgn * vote <= sgn * v).

Fixpoint fair (sgn : Z) (t : gmap string (Z * bool)) (h : list event) : Prop :=
  match h with
  | [] => True
  | ev :: h' => fair_event sgn t ev /\ fair sgn (<[ev.1.1 := (ev.1.2, ev.2)]> t) h'
  end.

Section int_elections.
Context `{Environment}.

Fixpoint cast_all (h : list event) (w : world) : outcome world :=
  match h with
  | [] => Ret w
  | (reason, vote, enabled) :: h' =>
    let* rw := gvotable_cast_int_vote true None w (Some reason) vote enabled in
    cast_all h' (snd rw)
  end.

Record int_election (sgn : Z) (el : gvotable_election) : Prop := {
  int_wf : wf_election el;
  int_cmp : KeyComparator (run_cmp (el_cmp el)) (fun v => sgn * s32 v);
  int_sgn : sgn <> 0;
  int_not_bool : el_is_bool_type el = false;
  int_not_forced : el_force_result_is_enabled el = false;
  int_ordered : ordered (fun v => sgn * s32 v) (el_votes el);
}.

(** What reading a settled election gives. *)
Lemma int_election_reads sgn w el :
  w_el w = Some el -> int_election sgn el -> elected el ->
  exists res, gvotable_get_current_int_vote w = Ret (if el_result_is_valid el then res else - EAGAIN) /\
    promises sgn (tally (el_votes el)) (default_of el)
      (if el_result_is_valid el then res else - EAGAIN) (el_reason el).
Proof.
  intros Hw [Hwf Hc Hs Hb Hf Ho] He. exists (s32 (el_result el)).
  assert (Hpub : forall v, publishes el v -> s32 (el_result el) = s32 v).
  { intros v [->|Hcmp]; [done|]. apply cmp_eq in Hcmp. nia. }
  split.
  { unfold gvotable_get_current_int_vote, gvotable_get_current_vote, under_result_lock,
      gvotable_lock_result, gvotable_get_current_result_unlocked.
    rewrite Hw. run. rewrite (wf_re_lock el Hwf), Hf. run.
    destruct (el_result_is_valid el); done. }
  unfold elected in He. rewrite Hb in He. unfold promises, default_of.
  destruct (active (el_votes el)) as [|[r v] a] eqn:Ha.
  - right. split.
    { intros r v Hr. apply tally_lookup in Hr as (b & ? & ? & ? & ?); [|apply Hwf].
      assert ((r, cur_vote b) ∈ active (el_votes el)) as Hin by (apply elem_of_active; eauto).
      rewrite Ha in Hin. by apply elem_of_nil in Hin. }
    destruct (el_has_default_vote el =? 1).
    + destruct He as (-> & -> & Hp). eauto.
    + by destruct He as (-> & ->).
  - destruct He as (-> & -> & Hp). left. rewrite (Hpub v Hp). split.
    + apply tally_lookup; [apply Hwf|].
      assert ((r, v) ∈ active (el_votes el)) as Hin by (rewrite Ha; constructor).
      apply elem_of_active in Hin as (b & ? & ? & <- & <-). eauto.
    + intros r' v' Hr'. apply tally_lookup in Hr' as (b & ? & ? & <- & ?); [|apply Hwf].
      eapply (ordered_active_head (fun v => sgn * s32 v)); [done|done|].
      apply elem_of_active. eauto.
Qed.

Context `{!QuietCallback}.

Lemma s32_u64 v : - 2 ^ 31 <= v < 2 ^ 31 -> s32 (u64 v) = v.
Proof.
  intros Hv. unfold swrap, wrap.
  rewrite <- Zplus_mod_idemp_l, Z.mod_mod_divide by (by exists (2 ^ 32)).
  rewrite Zplus_mod_idemp_l. by apply (swrap_id 32).
Qed.

(** The state after an operation that moves ballots. *)
Lemma int_election_settled sgn w el votes :
  int_election sgn el -> settled w el votes -> ordered (fun v => sgn * s32 v) votes ->
  exists el' res, w_el w = Some el' /\ int_election sgn el' /\ el_votes el' = votes /\
    default_of el' = default_of el /\ gvotable_get_current_int_vote w = Ret res /\
    promises sgn (tally votes) (default_of el) res (el_reason el').
Proof.
  intros Hi (el' & Hw & Hwf & Hv & He & n & m & valid & reason & r & Heq) Ho.
  assert (Hi' : int_election sgn el').
  { destruct Hi. split; try done; subst el'; done. }
  assert (Hd : default_of el' = default_of el) by (by subst el').
  destruct (int_election_reads sgn w el' Hw Hi' (He (int_not_forced _ _ Hi'))) as (res & ? & ?).
  exists el'. rewrite Hv, Hd in *. eauto 10.
Qed.

Lemma int_cast_ok sgn w el reason vote enabled :
  w_el w = Some el -> int_election sgn el ->
  fair_event sgn (tally (el_votes el)) (reason, vote, enabled) ->
  exists rc w' el' res,
    gvotable_cast_int_vote true None w (Some reason) vote enabled = Ret (rc, w') /\
    w_el w' = Some el' /\ int_election sgn el' /\
    tally (el_votes el') = <[reason := (vote, enabled)]> (tally (el_votes el)) /\
    default_of el' = default_of el /\
    gvotable_get_current_int_vote w' = Ret res /\
    promises sgn (tally (el_votes el')) (default_of el) res (el_reason el').
Proof.
  intros Hw Hi (Hne & Hlen & Hv & Hd). pose proof (int_wf _ _ Hi) as Hwf.
  destruct (cast_vote_ok None w el reason (u64 vote) enabled Hw Hwf Hne Hlen)
    as (rc & w' & b & votes & Hc & Hs & Hstep & Hb & Hr & He & Hcv).
  unfold stored_vote in Hcv. rewrite (int_not_bool _ _ Hi) in Hcv.
  assert (Hs32 : s32 (cur_vote b) = vote) by (rewrite Hcv; by apply s32_u64).
  assert (Hwv := wf_el_votes el Hwf).
  assert (Ho : ordered (fun v => sgn * s32 v) votes).
  { eapply (ordered_step (run_cmp (el_cmp el)) _ (KeyComparator0 := int_cmp _ _ Hi)); [apply Hi|done|].
    intros Hbe b0 Hin Hr0. rewrite Hs32. eapply Hd; [congruence|].
    apply tally_lookup; [done|]. exists b0. rewrite Hr0. eauto. }
  destruct (int_election_settled sgn w' el votes Hi Hs Ho) as (el' & res & ? & ? & Hv' & ? & ? & ?).
  exists rc, w', el', res. rewrite Hv'. split_and!; try done.
  rewrite (cast_step_tally _ b (el_votes el)) by eauto using cast_step_wf.
  by rewrite Hr, Hs32, He.
Qed.
End int_elections.
