(* ===== verification/GvResults.v ===== *)
(** What the elections of bms/misc/gvotable.c guarantee: results of integer, recency and
    boolean elections, withdrawal, defaults, and the cases the library gets wrong. *)

From stdpp Require Import gmap sorting.
From S2P Require Import Prelude GvElection GvOrder GvSpec.

(** A concrete environment for the examples: a polynomial hash, a callback that
    accepts, one thread. *)
Module Demo.
Fixpoint hash (s : string) : Z :=
  match s with
  | EmptyString => 0
  | String c s' => u32 (Z.of_nat (Ascii.nat_of_ascii c) + 31 * hash s')
  end.

Definition env : Environment := {|
  full_name_hash := hash;
  callback_fn := fun w _ _ => Ret (0, w);
  get_current := 1;
|}.

Lemma quiet : QuietCallback (H := env).
Proof. intros w reason vote. by exists 0, w. Qed.

(** A new election: what [gvotable_create_election] builds. *)
Definition new_el (cmp : comparator) (callback : bool) : gvotable_election :=
  mk_el 0 4 false "" false false false None 0 "" false 0 callback cmp true 0 (-1) 0 false
    [] 0 0 0 true false false.

Definition world_of (el : gvotable_election) : world := mk_world ∅ (Some el) [].
End Demo.

Section results.
Context `{Environment} `{!QuietCallback}.

Lemma wf_new cmp callback : wf_election (Demo.new_el cmp callback).
Proof.
  split; try done; [split; constructor|]. by apply Nat.ltb_lt.
Qed.

Lemma int_history_ok sgn h w el :
  w_el w = Some el -> int_election sgn el -> fair sgn (tally (el_votes el)) h ->
  exists w' el', cast_all h w = Ret w' /\ w_el w' = Some el' /\ int_election sgn el' /\
    tally (el_votes el') = replay h (tally (el_votes el)) /\ default_of el' = default_of el /\
    (h = [] \/ exists res, gvotable_get_current_int_vote w' = Ret res /\
       promises sgn (tally (el_votes el')) (default_of el) res (el_reason el')).
Proof.
  revert w el. induction h as [|[[reason vote] enabled] h IH]; intros w el Hw Hi Hf.
  { exists w, el. split_and!; auto. }
  destruct Hf as [Hev Hf].
  destruct (int_cast_ok sgn w el reason vote enabled Hw Hi Hev)
    as (rc & w1 & el1 & res & Hc & Hw1 & Hi1 & Ht1 & Hd1 & Hg & Hp).
  simpl in Hf. rewrite <- Ht1 in Hf.
  destruct (IH w1 el1 Hw1 Hi1 Hf) as (w' & el' & Hall & Hw' & Hi' & Ht' & Hd' & Hlast).
  exists w', el'. rewrite Hd1 in *. cbn [cast_all]. rewrite Hc. run.
  split_and!; try done.
  - by rewrite Ht', Ht1.
  - right. destruct Hlast as [->|?]; [|done].
    simpl in Hall, Ht'. simplify_eq. eauto.
Qed.

(** C6. Integer elections implement their contract over every fair history of votes:
    whatever sequence of [gvotable_cast_int_vote] is applied to an integer election
    (minimum or maximum), the calls return, its ballots hold the last vote of every
    reason, and [gvotable_get_current_int_vote] gives the extremal enabled vote,
    with its reason, or the default, or [-EAGAIN]. *)
Theorem int_election_refines_tally sgn h w el :
  w_el w = Some el -> int_election sgn el -> h <> [] -> fair sgn (tally (el_votes el)) h ->
  exists w' el' res,
    cast_all h w = Ret w' /\ w_el w' = Some el' /\ int_election sgn el' /\
    tally (el_votes el') = replay h (tally (el_votes el)) /\
    gvotable_get_current_int_vote w' = Ret res /\
    promises sgn (replay h (tally (el_votes el))) (default_of el) res (el_reason el').
Proof.
  intros Hw Hi Hne Hf.
  destruct (int_history_ok sgn h w el Hw Hi Hf)
    as (w' & el' & Hc & Hw' & Hi' & Ht & _ & [?|(res & Hg & Hp)]); [done|].
  rewrite Ht in Hp. exists w', el', res. by split_and!.
Qed.

(** [gvotable_recast_ballot] on a known reason enables or withdraws its vote and
    nothing else: the tally keeps the vote, the election stays ordered and publishes
    the extremum of what is left, whatever the votes were. *)
Theorem recast_ballot_refines_tally sgn alloc w el reason enabled v e :
  w_el w = Some el -> int_election sgn el ->
  (String.length reason < GVOTABLE_MAX_REASON_LEN)%nat ->
  tally (el_votes el) !! reason = Some (v, e) ->
  exists rc w' el' res,
    gvotable_recast_ballot alloc w reason enabled = Ret (rc, w') /\
    w_el w' = Some el' /\ int_election sgn el' /\
    tally (el_votes el') = <[reason := (v, enabled)]> (tally (el_votes el)) /\
    gvotable_get_current_int_vote w' = Ret res /\
    promises sgn (tally (el_votes el')) (default_of el) res (el_reason el').
Proof.
  intros Hw Hi Hlen Ht. pose proof (int_wf _ _ Hi) as Hwf.
  pose proof (wf_el_votes _ Hwf) as Hv.
  apply tally_lookup in Ht as (b1 & Hin & Hr1 & Hv1 & He1); [|done].
  destruct (gvotable_ballot_find_internal el reason) as [[i b0]|] eqn:Hf.
  2: { apply ballot_find_None in Hf; [|done..]. destruct Hf.
       apply list_elem_of_fmap. eauto. }
  destruct (recast_ballot_ok alloc w el reason enabled i b0 Hw Hwf Hlen Hf)
    as (rc & w' & b & votes & Hc & Hs & Hstep & Hb & Hr & He & Hcv).
  assert (Huniq : forall b2, b2 ∈ el_votes el -> b_reason b2 = reason -> b2 = b0).
  { intros b2 Hb2 Hrb2.
    destruct (ballot_find_Some el reason i b0 Hv Hlen Hf) as (l1 & l2 & Hl & _ & _ & _ & _ & Hni).
    rewrite Hl, elem_of_app, elem_of_cons in Hb2.
    destruct Hb2 as [?|[?|?]]; [|done|]; destruct Hni; apply list_elem_of_fmap; exists b2;
      rewrite elem_of_app; auto. }
  rewrite (Huniq b1 Hin Hr1) in Hv1.
  assert (Ho : ordered (fun v => sgn * s32 v) votes).
  { eapply (ordered_step (run_cmp (el_cmp el)) _ (KeyComparator0 := int_cmp _ _ Hi));
      [apply Hi|done|].
    intros _ b2 Hb2 Hrb2. rewrite (Huniq b2) by congruence. by rewrite Hcv. }
  destruct (int_election_settled sgn w' el votes Hi Hs Ho) as (el' & res & ? & ? & Hv' & ? & ? & ?).
  exists rc, w', el', res. rewrite Hv'. split_and!; try done.
  rewrite (cast_step_tally _ b (el_votes el)) by eauto using cast_step_wf.
  by rewrite Hr, He, Hcv, Hv1.
Qed.
(** What a settled election that never compares equal publishes. *)
Lemma settled_head w el votes r v a :
  settled w el votes -> el_force_result_is_enabled el = false -> el_is_bool_type el = false ->
  (forall x y, run_cmp (el_cmp el) x y <> 0) -> active votes = (r, v) :: a ->
  exists el', w_el w = Some el' /\ el_result_is_valid el' = true /\ el_reason el' = r /\
    el_result el' = v.
Proof.
  intros (el' & Hw & _ & Hv & He & n & m & va & re & x & Heq) Hf Hb Hc Ha.
  assert (Hel : elected el') by (apply He; by subst el').
  unfold elected in Hel. rewrite Hv, Ha in Hel.
  replace (el_is_bool_type el') with false in Hel by (by subst el').
  destruct Hel as (Hval & Hr & [Hp|Hp]); [eauto|].
  subst el'. by destruct (Hc x v).
Qed.

(** Recency elections: the active votes of a [most_recent] election are a stack
    and those of a [least_recent] election a queue of reasons.  A vote leaves its old
    place; enabled it enters at the head or at the tail; the election then publishes
    vote and reason of the first active one. *)
Theorem recency_election_order alloc w el reason vote enabled :
  w_el w = Some el -> wf_election el -> el_is_bool_type el = false ->
  el_force_result_is_enabled el = false ->
  el_cmp el = CmpMostRecent \/ el_cmp el = CmpLeastRecent ->
  reason <> ""%string -> (String.length reason < GVOTABLE_MAX_REASON_LEN)%nat ->
  exists rc w' el',
    gvotable_cast_vote true alloc w (Some reason) vote enabled = Ret (rc, w') /\
    w_el w' = Some el' /\ wf_election el' /\
    let others := without reason (active (el_votes el)) in
    let new := if enabled then [(reason, vote)] else [] in
    active (el_votes el') =
      match el_cmp el with CmpMostRecent => new ++ others | _ => others ++ new end /\
    (forall r v a, active (el_votes el') = (r, v) :: a ->
       el_result_is_valid el' = true /\ el_reason el' = r /\ el_result el' = v).
Proof.
  intros Hw Hwf Hb Hf Hcmp Hne Hlen.
  destruct (cast_vote_ok alloc w el reason vote enabled Hw Hwf Hne Hlen)
    as (rc & w' & b & votes & Hc & Hs & Hstep & Hwb & Hr & He & Hcv).
  unfold stored_vote in Hcv. rewrite Hb in Hcv.
  destruct Hs as (el' & Hw' & Hwf' & Hv' & Hs). exists rc, w', el'. rewrite Hv'. cbv zeta.
  split_and!; [done..| |].
  - destruct enabled.
    + destruct (cast_step_enabled _ b _ _ He Hstep) as (rest & Hins & Hrest).
      rewrite <- Hr, <- Hrest. destruct Hcmp as [Hcm|Hcm]; rewrite Hcm in *.
      * apply inserted_first in Hins as ->; [|done]. rewrite active_cons, He.
        unfold vote_of. by rewrite Hcv.
      * apply inserted_last in Hins as ->; [|done]. rewrite active_app, active_cons, He.
        unfold vote_of. by rewrite Hcv.
    + rewrite (cast_step_disabled _ b _ _ He Hstep), Hr.
      destruct Hcmp as [-> | ->]; by rewrite ?app_nil_r.
  - intros r v a Ha.
    destruct (settled_head w' el votes r v a) as (el'' & Hw'' & ?); try done.
    + exists el'. by destruct Hs; split_and!.
    + intros x y. by destruct Hcmp as [-> | ->].
    + rewrite Hw' in Hw''. by simplify_eq.
Qed.

(** Boolean elections, as [gvotable_create_bool_election] leaves them. *)
Record bool_election (el : gvotable_election) : Prop := {
  bool_wf : wf_election el;
  bool_type : el_is_bool_type el = true;
  bool_cmp : el_cmp el = CmpBool;
  bool_has_default : el_has_default_vote el = 1;
  bool_default : el_default_vote el = GVOTABLE_BOOL_FALSE_VALUE;
  bool_not_forced : el_force_result_is_enabled el = false;
}.

Lemma bool_election_reads w el votes :
  bool_election el -> settled w el votes ->
  exists el', w_el w = Some el' /\ bool_election el' /\ el_votes el' = votes /\
    gvotable_get_current_int_vote w = Ret (Z.b2z (negb (bool_decide (active votes = [])))).
Proof.
  intros Hbe (el' & Hw & Hwf & Hv & He & n & m & va & re & x & Heq). exists el'.
  assert (Hb' : bool_election el') by (destruct Hbe; split; subst el'; done).
  split_and!; try done. specialize (He (bool_not_forced _ Hb')).
  unfold gvotable_get_current_int_vote, gvotable_get_current_vote, under_result_lock,
    gvotable_lock_result, gvotable_get_current_result_unlocked.
  rewrite Hw. run. rewrite (wf_re_lock el' Hwf), (bool_not_forced el' Hb'). run.
  unfold elected, publishes in He. rewrite Hv, (bool_type _ Hb'), (bool_has_default _ Hb'),
    (bool_default _ Hb'), (bool_cmp _ Hb') in He.
  destruct (active votes) as [|[r v] a]; destruct He as (Hval & _ & [Hres|Hres]);
    try discriminate Hres; rewrite Hval; run; by rewrite Hres.
Qed.

(** A boolean election is the disjunction of its votes: after
    [gvotable_cast_bool_vote] its result is TRUE exactly when the vote is on or some
    other reason still holds one, and the election is a boolean election again. *)
Theorem bool_election_is_disjunction alloc w el reason vote :
  w_el w = Some el -> bool_election el -> reason <> ""%string ->
  (String.length reason < GVOTABLE_MAX_REASON_LEN)%nat ->
  exists rc w' el',
    gvotable_cast_bool_vote true alloc w (Some reason) vote = Ret (rc, w') /\
    w_el w' = Some el' /\ bool_election el' /\
    gvotable_get_current_int_vote w' =
      Ret (Z.b2z (vote || negb (bool_decide (without reason (active (el_votes el)) = [])))).
Proof.
  intros Hw Hbe Hne Hlen.
  destruct (cast_vote_ok alloc w el reason 0 vote Hw (bool_wf _ Hbe) Hne Hlen)
    as (rc & w' & b & votes & Hc & Hs & Hstep & Hwb & Hr & He & Hcv).
  destruct (bool_election_reads w' el votes Hbe Hs) as (el' & Hw' & Hbe' & Hv' & Hg).
  exists rc, w', el'. split_and!; try done. rewrite Hg. do 3 f_equal. destruct vote.
  - destruct (cast_step_enabled _ b _ _ He Hstep) as (rest & (l1 & l2 & _ & -> & _) & _).
    rewrite active_app, active_cons, He. by destruct (active l1).
  - by rewrite (cast_step_disabled _ b _ _ He Hstep), Hr.
Qed.

(** *** Defaults *)

(** [gvotable_set_default] on an election that has a default returns with
    [re_lock] held whenever the new default differs and no callback is due: from then
    on every vote and every query of the election blocks for ever. *)
Theorem set_default_leaks_lock w el d :
  w_el w = Some el -> wf_election el -> el_is_bool_type el = false ->
  el_has_default_vote el = 1 -> el_default_vote el <> d -> el_callback el = false ->
  exists w', gvotable_set_default w d = Ret (0, w') /\
    gvotable_get_current_int_vote w' = Deadlock /\
    (forall alloc reason vote enabled, reason <> ""%string ->
       gvotable_cast_vote true alloc w' (Some reason) vote enabled = Deadlock).
Proof.
  intros Hw Hwf Hb Hd Hne Hcb. unfold gvotable_set_default. rewrite Hw, Hb.
  rewrite (lock_election_ok el Hwf). run. set (el1 := set_re_lock true _).
  change (el_has_default_vote el1) with (el_has_default_vote el).
  change (el_default_vote el1) with (el_default_vote el).
  rewrite Hd. apply Z.eqb_neq in Hne as ->. run.
  destruct (run_election_ok (w_heap w) (set_default_vote d el1))
    as (cb & valid & reason & r & Hrun & _); [apply Hwf..|].
  assert (cb = false) as ->.
  { unfold gvotable_internal_run_election in Hrun.
    destruct (el_force_result_is_enabled _); [by simplify_eq|].
    apply obind_Ret in Hrun as ([[c h] e] & Hc & Hrun). injection Hrun as <- _ ->.
    replace (el_callback _) with false by (symmetry; exact Hcb). by rewrite andb_false_r. }
  rewrite Hrun. run. eexists. split; [done|]. split; [done|].
  intros alloc rsn vote enabled Hr. unfold gvotable_cast_vote, gvotable_lock_election.
  apply String.eqb_neq in Hr. cbn [w_el put]. rewrite Hr.
  match goal with |- context [el_use_alloc ?e] =>
    replace (el_use_alloc e) with false by (symmetry; exact (wf_use_alloc el Hwf)) end.
  done.
Qed.

(** The comparators named after the unsigned extrema are exchanged: an election
    with [gvotable_comparator_uint_max] publishes the smallest of its active votes, one
    with [gvotable_comparator_uint_min] the greatest. *)
Theorem uint_max_elects_minimum alloc w el reason vote (key : Z -> Z) :
  w_el w = Some el -> wf_election el -> el_is_bool_type el = false ->
  el_force_result_is_enabled el = false ->
  el_cmp el = CmpUintMax /\ key = u32 \/ el_cmp el = CmpUintMin /\ key = (fun v => - u32 v) ->
  ordered key (el_votes el) ->
  reason <> ""%string -> (String.length reason < GVOTABLE_MAX_REASON_LEN)%nat ->
  exists rc w' el',
    gvotable_cast_vote true alloc w (Some reason) vote true = Ret (rc, w') /\
    w_el w' = Some el' /\ ordered key (el_votes el') /\
    (reason, vote) ∈ active (el_votes el') /\ el_result_is_valid el' = true /\
    (forall r v, (r, v) ∈ active (el_votes el') -> key (el_result el') <= key v).
Proof.
  intros Hw Hwf Hb Hf Hk Ho Hne Hlen.
  assert (KeyComparator (run_cmp (el_cmp el)) key) as Hkc
    by (destruct Hk as [[-> ->]|[-> ->]]; apply _).
  destruct (cast_vote_ok alloc w el reason vote true Hw Hwf Hne Hlen)
    as (rc & w' & b & votes & Hc & Hs & Hstep & Hwb & Hr & He & Hcv).
  unfold stored_vote in Hcv. rewrite Hb in Hcv.
  destruct Hs as (el' & Hw' & Hwf' & Hv' & Hel & n & m & va & re & x & Heq).
  assert (Ho' : ordered key votes) by (eapply ordered_step; [done..|congruence]).
  assert (Hin : (reason, vote) ∈ active votes).
  { destruct (cast_step_enabled _ b _ _ He Hstep) as (rest & (l1 & l2 & _ & -> & _) & _).
    rewrite active_app, active_cons, He. unfold vote_of. rewrite Hr, Hcv.
    apply elem_of_app. right. left. }
  exists rc, w', el'. rewrite Hv'. specialize (Hel ltac:(by subst el')).
  unfold elected in Hel. rewrite Hv' in Hel.
  replace (el_is_bool_type el') with false in Hel by (by subst el').
  replace (el_cmp el') with (el_cmp el) in Hel by (by subst el').
  destruct (active votes) as [|[r v] a] eqn:Ha; [by apply elem_of_nil in Hin|].
  destruct Hel as (Hval & _ & Hp). split_and!; try done.
  intros r' v' Hrv. rewrite <- Ha in Hrv.
  replace (key (el_result el')) with (key v).
  - by eapply ordered_active_head.
  - destruct Hp as [->|Hp]; [done|].
    replace (el_cmp el') with (el_cmp el) in Hp by (by subst el').
    by apply cmp_eq in Hp.
Qed.
End results.

(** ** Witnesses and counterexamples *)

#[local] Existing Instance Demo.env.
#[local] Existing Instance Demo.quiet.

Lemma demo_int_election sgn cmp :
  KeyComparator (run_cmp cmp) (fun v => sgn * s32 v) -> sgn <> 0 ->
  int_election sgn (Demo.new_el cmp true).
Proof. intros. split; try done; [apply wf_new|constructor]. Qed.

Definition demo_history : list event :=
  [("USB", 3000, true); ("THERMAL", 1500, true); ("USB", 2000, true); ("THERMAL", 1500, false)].

Lemma demo_history_fair : fair 1 ∅ demo_history.
Proof.
  unfold demo_history. cbn [fair fair_event fst snd].
  split_and!; try done; try (by apply Nat.ltb_lt); try lia.
  intros _ v e Hl. vm_compute in Hl. simplify_eq. lia.
Qed.

Lemma int_election_refines_tally_witness :
  exists w' el' res,
    cast_all demo_history (Demo.world_of (Demo.new_el CmpIntMin true)) = Ret w' /\
    w_el w' = Some el' /\ int_election 1 el' /\
    tally (el_votes el') = replay demo_history ∅ /\
    gvotable_get_current_int_vote w' = Ret res /\
    promises 1 (replay demo_history ∅) None res (el_reason el').
Proof.
  apply (int_election_refines_tally 1 demo_history (Demo.world_of (Demo.new_el CmpIntMin true))
           (Demo.new_el CmpIntMin true)); [done| |done|exact demo_history_fair].
  apply demo_int_election; [apply _|done].
Defined.

(** An election with one enabled ballot, as a vote leaves it. *)
Definition demo_voted : gvotable_election :=
  set_votes [mk_ballot true (Demo.hash "USB") "USB" 0 [3000] 0 1] (Demo.new_el CmpIntMax true).

Lemma demo_voted_wf : wf_election demo_voted.
Proof.
  split; try done; [|by apply Nat.ltb_lt]. split.
  - by repeat constructor.
  - apply NoDup_singleton.
Qed.

Lemma demo_voted_int : int_election (-1) demo_voted.
Proof.
  split; try done; [apply demo_voted_wf|apply int_max_key|repeat constructor].
Qed.

Lemma recast_ballot_refines_tally_witness :
  exists rc w' el' res,
    gvotable_recast_ballot None (Demo.world_of demo_voted) "USB" false = Ret (rc, w') /\
    w_el w' = Some el' /\ int_election (-1) el' /\
    tally (el_votes el') = <["USB"%string := (3000, false)]> (tally (el_votes demo_voted)) /\
    gvotable_get_current_int_vote w' = Ret res /\
    promises (-1) (tally (el_votes el')) (default_of demo_voted) res (el_reason el').
Proof.
  apply (recast_ballot_refines_tally (-1) None (Demo.world_of demo_voted) demo_voted "USB" false
           3000 true); [done|exact demo_voted_int|by apply Nat.ltb_lt|done].
Defined.

Lemma recency_election_order_witness :
  exists rc w' el',
    gvotable_cast_vote true None (Demo.world_of (Demo.new_el CmpMostRecent true)) (Some "A") 7 true
      = Ret (rc, w') /\
    w_el w' = Some el' /\ wf_election el' /\ active (el_votes el') = [("A"%string, 7)] /\
    (forall r v a, active (el_votes el') = (r, v) :: a ->
       el_result_is_valid el' = true /\ el_reason el' = r /\ el_result el' = v).
Proof.
  apply (recency_election_order None (Demo.world_of (Demo.new_el CmpMostRecent true))
           (Demo.new_el CmpMostRecent true) "A" 7 true);
    [done|apply wf_new|done|done|by left|done|by apply Nat.ltb_lt].
Defined.

(** A boolean election after its creation. *)
Definition demo_bool : gvotable_election :=
  set_is_bool_type true (set_default_vote 0 (set_has_default_vote 1 (Demo.new_el CmpBool true))).

Lemma demo_bool_election : bool_election demo_bool.
Proof.
  split; try done. destruct (wf_new CmpBool true). by split.
Qed.

Lemma bool_election_is_disjunction_witness :
  exists rc w' el',
    gvotable_cast_bool_vote true None (Demo.world_of demo_bool) (Some "A") true = Ret (rc, w') /\
    w_el w' = Some el' /\ bool_election el' /\ gvotable_get_current_int_vote w' = Ret 1.
Proof.
  apply (bool_election_is_disjunction None (Demo.world_of demo_bool) demo_bool "A" true);
    [done|exact demo_bool_election|done|by apply Nat.ltb_lt].
Defined.

Definition demo_default : gvotable_election :=
  set_default_vote 10 (set_has_default_vote 1 (Demo.new_el CmpIntMin false)).

Lemma demo_default_wf : wf_election demo_default.
Proof. destruct (wf_new CmpIntMin false). by split. Qed.

Lemma set_default_leaks_lock_witness :
  exists w', gvotable_set_default (Demo.world_of demo_default) 20 = Ret (0, w') /\
    gvotable_get_current_int_vote w' = Deadlock /\
    (forall alloc reason vote enabled, reason <> ""%string ->
       gvotable_cast_vote true alloc w' (Some reason) vote enabled = Deadlock).
Proof.
  apply (set_default_leaks_lock (Demo.world_of demo_default) demo_default 20);
    [done|exact demo_default_wf|done..].
Defined.

Lemma uint_max_elects_minimum_witness :
  exists rc w' el',
    gvotable_cast_vote true None (Demo.world_of (Demo.new_el CmpUintMax true)) (Some "A") 7 true
      = Ret (rc, w') /\
    w_el w' = Some el' /\ ordered u32 (el_votes el') /\
    ("A"%string, 7) ∈ active (el_votes el') /\ el_result_is_valid el' = true /\
    (forall r v, (r, v) ∈ active (el_votes el') -> u32 (el_result el') <= u32 v).
Proof.
  apply (uint_max_elects_minimum None (Demo.world_of (Demo.new_el CmpUintMax true))
           (Demo.new_el CmpUintMax true) "A" 7 u32);
    [done|apply wf_new|done|done|by left|constructor|done|by apply Nat.ltb_lt].
Defined.

(** Disabling a vote with another value breaks the order of a maximum election: a
    ballot that is disabled keeps its place but takes the new vote (callers withdraw
    with vote 0), so a later vote can be placed before a greater one; here the
    election publishes 2 although an enabled vote of 3 is on record. *)
Theorem withdrawal_with_other_vote_misorders :
  exists w el, cast_all [("A", 5, true); ("B", 3, true); ("A", 0, false); ("C", 2, true)]
      (Demo.world_of (Demo.new_el CmpIntMax true)) = Ret w /\
    w_el w = Some el /\ tally (el_votes el) !! "B"%string = Some (3, true) /\
    gvotable_get_current_int_vote w = Ret 2.
Proof.
  eexists _, _. split; [vm_compute; reflexivity|]. split; [reflexivity|].
  split; vm_compute; reflexivity.
Qed.

(** A reason of 32 characters or more never finds its ballot again, as the stored
    reason is cut to 31 characters: each vote for it adds a ballot, and it cannot be
    withdrawn. *)
Theorem long_reason_never_withdrawn :
  let reason := "a_reason_that_is_longer_than_31_chars"%string in
  exists w el, cast_all [(reason, 5, true); (reason, 0, false)]
      (Demo.world_of (Demo.new_el CmpIntMax true)) = Ret w /\
    w_el w = Some el /\ length (el_votes el) = 2%nat /\
    gvotable_get_current_int_vote w = Ret 5.
Proof.
  eexists _, _. split; [vm_compute; reflexivity|]. split; [reflexivity|].
  split; vm_compute; reflexivity.
Qed.
