(* ===== verification/GvLocks.v ===== *)
(** The lock discipline of an election (bms/misc/gvotable.c).

    An operation takes [cb_lock] and then [re_lock], releases [re_lock] before it calls
    back, and [cb_lock] after.  The requests a client can make are listed in
    [request]; apart from [gvotable_set_default], each finds both locks free and leaves
    them free on every path, so no sequence of requests blocks. *)

From stdpp Require Import gmap.
From S2P Require Import Prelude GvElection GvOrder GvSpec GvResults.

Inductive request :=
| RCast (balloc : bool) (alloc : option Z) (reason : option string) (vote : Z) (enabled : bool)
| RRecast (alloc : option Z) (reason : string) (enabled : bool)
| RRun (force_callback : bool)
| RUseDefault (enabled : bool)
| RGetDefault (result : Z)
| RSetDefault (default_val : Z)
| RForceValue (val : Z)
| RForceActive (val : Z)
| RDebugCast (balloc : bool) (alloc : option Z) (val : Z)
| RDebugEnable (alloc : option Z) (user : option string) (count : Z)
| RDebugDisable (alloc : option Z) (user : option string) (count : Z).

Section locks.
Context `{Environment}.

Definition perform (r : request) (w : world) : outcome (Z * world) :=
  match r with
  | RCast balloc alloc reason vote enabled =>
    gvotable_cast_vote balloc alloc w reason vote enabled
  | RRecast alloc reason enabled => gvotable_recast_ballot alloc w reason enabled
  | RRun force => gvotable_run_election w force
  | RUseDefault enabled => gvotable_use_default w enabled
  | RGetDefault result =>
    let* r := gvotable_get_default w result in Ret (fst (fst r), snd r)
  | RSetDefault d => gvotable_set_default w d
  | RForceValue v => debugfs_force_int_value w v
  | RForceActive v => debugfs_force_int_active w v
  | RDebugCast balloc alloc v => debugfs_cast_int_vote balloc alloc w v
  | RDebugEnable alloc user count => debugfs_enable_vote alloc w user count
  | RDebugDisable alloc user count => debugfs_disable_vote alloc w user count
  end.

(** Both locks of the election are free. *)
Definition unlocked (w : world) : Prop :=
  match w_el w with
  | Some el => el_cb_lock el = false /\ el_re_lock el = false
  | None => True
  end.

(** The operation does not block and, if it returns, both locks are free. *)
Definition releases {A} (m : outcome (A * world)) : Prop :=
  match m with
  | Ret (_, w) => unlocked w
  | Undef => True
  | Deadlock => False
  end.

Definition no_deadlock {A} (m : outcome A) : Prop := m <> Deadlock.

(** What a client's callback owes: it does not block and leaves the locks of the
    election as it finds them. *)
Class LockSafeCallback : Prop :=
  callback_locks w reason vote el :
    w_el w = Some el ->
    match callback_fn w reason vote with
    | Ret (_, w') => exists el', w_el w' = Some el' /\ el_cb_lock el' = el_cb_lock el /\
        el_re_lock el' = el_re_lock el
    | Undef => True
    | Deadlock => False
    end.

Lemma no_deadlock_bind {A B} (m : outcome A) (k : A -> outcome B) :
  no_deadlock m -> (forall a, no_deadlock (k a)) -> no_deadlock (obind m k).
Proof. intros Hm Hk. destruct m; simpl; [apply Hk|done|done]. Qed.

Lemma releases_bind {A B} (m : outcome A) (k : A -> outcome (B * world)) :
  no_deadlock m -> (forall a, m = Ret a -> releases (k a)) -> releases (obind m k).
Proof. intros Hm Hk. destruct m; simpl; [by apply Hk|done|by destruct Hm]. Qed.

Lemma must_no_deadlock {A} (o : option A) : no_deadlock (must o).
Proof. by destruct o. Qed.

Lemma memcpy_buf_no_deadlock h d s n : no_deadlock (memcpy_buf h d s n).
Proof.
  unfold memcpy_buf. repeat (apply no_deadlock_bind; [apply must_no_deadlock|intros ?]).
  by destruct (_ || _).
Qed.

Lemma copy_result_no_deadlock h el a b : no_deadlock (gvotable_internal_copy_result h el a b).
Proof.
  unfold gvotable_internal_copy_result. destruct (el_use_alloc el); [|done].
  apply no_deadlock_bind; [apply memcpy_buf_no_deadlock|done].
Qed.

Lemma elect_no_deadlock h el r v n : no_deadlock (elect h el r v n).
Proof.
  assert (forall el1, no_deadlock (gvotable_internal_update_result h n el1)) as Hu.
  { intros el1. apply no_deadlock_bind; [apply copy_result_no_deadlock|done]. }
  unfold elect. destruct (negb _ || _); destruct (_ || _); try done;
    (apply no_deadlock_bind; [apply Hu|by intros []]).
Qed.

Lemma run_election_no_deadlock h el : no_deadlock (gvotable_internal_run_election h el).
Proof.
  unfold gvotable_internal_run_election. destruct (el_force_result_is_enabled el); [done|].
  apply no_deadlock_bind; [|by intros [[] ?]].
  destruct (List.find _ _); [apply elect_no_deadlock|].
  destruct (_ =? 1); [apply elect_no_deadlock|done].
Qed.

Lemma update_ballot_no_deadlock alloc h b v e : no_deadlock (gvotable_update_ballot alloc h b v e).
Proof.
  unfold gvotable_update_ballot. cbv zeta. destruct (_ =? 0); [done|].
  apply no_deadlock_bind; [apply must_no_deadlock|]. intros p.
  destruct (p =? 0); [destruct alloc; [|done]|];
    (apply no_deadlock_bind; [apply memcpy_buf_no_deadlock|done]).
Qed.

Lemma lock_election_free el :
  el_cb_lock el = false -> el_re_lock el = false ->
  exists el1, gvotable_lock_election el = Ret el1 /\
    el_has_default_vote el1 = el_has_default_vote el /\ el_default_vote el1 = el_default_vote el.
Proof.
  intros Hc Hr. unfold gvotable_lock_election, gvotable_lock_result. rewrite Hc. run.
  destruct el; simpl in *. rewrite Hr. run. eauto.
Qed.

Context `{!LockSafeCallback}.

(** Between the release of [re_lock] and that of [cb_lock]. *)
Definition half_locked (w : world) : Prop :=
  exists el, w_el w = Some el /\ el_re_lock el = false.

Lemma unlock_callback_releases (rc : Z) w :
  half_locked w -> releases (let* w := unlock_callback_w w in Ret (rc, w)).
Proof.
  intros (el & Hw & Hr). unfold unlock_callback_w. rewrite Hw. run. by destruct el.
Qed.

Lemma callback_half w reason vote :
  half_locked w ->
  match run_callback_with w reason vote with
  | Ret (_, w') => half_locked w' | Undef => True | Deadlock => False
  end.
Proof.
  intros (el & Hw & Hr). unfold run_callback_with.
  pose proof (callback_locks (mk_world (w_heap w) (w_el w) (w_calls w ++ [(reason, vote)]))
                reason vote el Hw) as Hc.
  destruct (callback_fn _ _ _) as [[rc w']| |]; [|done|done].
  destruct Hc as (el' & ? & ? & ?). exists el'. by split; [|congruence].
Qed.

(** A step that ends with the release of [cb_lock]. *)
Lemma notify_releases (m : outcome (Z * world)) :
  match m with Ret (_, w') => half_locked w' | Undef => True | Deadlock => False end ->
  releases (let* rw := m in let* w := unlock_callback_w (snd rw) in Ret (fst rw, w)).
Proof.
  destruct m as [[rc w]| |]; [|done|done]. intros Hw. by apply unlock_callback_releases.
Qed.

Lemma run_callback_half w :
  half_locked w ->
  match gvotable_run_callback w with
  | Ret (_, w') => half_locked w' | Undef => True | Deadlock => False
  end.
Proof.
  intros Hw. pose proof Hw as (el & Hel & _). unfold gvotable_run_callback. rewrite Hel. run.
  destruct (el_result_is_valid el); by apply callback_half.
Qed.

Lemma run_and_notify_releases w el ret : releases (run_and_notify w el ret).
Proof.
  unfold run_and_notify. apply releases_bind; [apply run_election_no_deadlock|].
  intros [[cb h] el'] _. apply notify_releases.
  assert (half_locked (put (gvotable_unlock_result el') (put_heap h w))) as Hh by (by eexists).
  destruct cb; [by apply run_callback_half|exact Hh].
Qed.

Lemma put_unlock_election el w : unlocked (put (gvotable_unlock_election el) w).
Proof. by destruct el. Qed.
Lemma cast_vote_releases balloc alloc w reason vote enabled :
  unlocked w -> releases (gvotable_cast_vote balloc alloc w reason vote enabled).
Proof.
  intros Hu. unfold gvotable_cast_vote.
  destruct (w_el w) as [el|] eqn:Hw; [|exact Hu]. destruct reason as [reason|]; [|exact Hu].
  destruct (String.eqb reason ""); [exact Hu|]. destruct (_ && _); [exact Hu|].
  unfold unlocked in Hu. rewrite Hw in Hu. destruct Hu as [Hc Hr].
  destruct (lock_election_free el Hc Hr) as (el1 & -> & _). run.
  destruct (gvotable_ballot_find_internal el1 reason) as [[i b]|].
  - apply releases_bind; [apply update_ballot_no_deadlock|]. intros [[ret h] b'] _.
    destruct (ret <? 0); [apply put_unlock_election|apply run_and_notify_releases].
  - destruct balloc; [|apply put_unlock_election]. cbn [negb].
    apply releases_bind; [apply update_ballot_no_deadlock|]. intros [[ret h] b'] _.
    destruct (ret <? 0); [apply put_unlock_election|apply run_and_notify_releases].
Qed.

Lemma recast_ballot_releases alloc w reason enabled :
  unlocked w -> releases (gvotable_recast_ballot alloc w reason enabled).
Proof.
  intros Hu. unfold gvotable_recast_ballot. unfold unlocked in Hu.
  destruct (w_el w) as [el|]; [|done]. run. destruct Hu as [Hc Hr].
  destruct (lock_election_free el Hc Hr) as (el1 & -> & _). run.
  destruct (gvotable_ballot_find_internal el1 reason) as [[i b]|]; [|apply put_unlock_election].
  apply releases_bind; [apply update_ballot_no_deadlock|]. intros [[ret h] b'] _.
  destruct (ret <? 0); [apply put_unlock_election|apply run_and_notify_releases].
Qed.

Lemma debugfs_recast_releases alloc w user count enabled :
  unlocked w -> releases (debugfs_recast alloc w user count enabled).
Proof.
  intros Hu. unfold debugfs_recast. destruct user as [text|]; [|exact Hu].
  pose proof (recast_ballot_releases alloc w (String.substring 0 (GVOTABLE_MAX_REASON_LEN - 1) text)
                enabled Hu) as Hr.
  by destruct (gvotable_recast_ballot _ _ _ _) as [[rc w']| |].
Qed.

(** Operations that start by taking both locks of a non-NULL election. *)
Lemma locked_start w (k : gvotable_election -> outcome (Z * world)) :
  unlocked w -> (forall el, releases (k el)) ->
  releases (let* el := must (w_el w) in let* el := gvotable_lock_election el in k el).
Proof.
  intros Hu Hk. unfold unlocked in Hu. destruct (w_el w) as [el|]; [|done]. run.
  destruct Hu as [Hc Hr]. destruct (lock_election_free el Hc Hr) as (el1 & -> & _). apply Hk.
Qed.

Lemma use_default_releases w enabled : unlocked w -> releases (gvotable_use_default w enabled).
Proof.
  intros Hu. unfold gvotable_use_default. destruct (w_el w) as [el|] eqn:Hw; [|exact Hu].
  destruct (el_is_bool_type el); [exact Hu|].
  pose proof (locked_start w (fun el => run_and_notify w
    (set_has_default_vote (Z.b2z enabled) el) 0) Hu) as Hl.
  rewrite Hw in Hl. apply Hl. intros. apply run_and_notify_releases.
Qed.

Lemma run_election_releases w force : unlocked w -> releases (gvotable_run_election w force).
Proof.
  intros Hu. apply locked_start; [done|]. intros el.
  apply releases_bind; [apply run_election_no_deadlock|]. intros [[cb h] el'] _.
  apply notify_releases.
  assert (half_locked (put (gvotable_unlock_result el') (put_heap h w))) as Hh by (by eexists).
  destruct (negb _); [exact Hh|]. destruct (el_force_result_is_enabled _); [by apply callback_half|].
  destruct (_ || _); [by apply run_callback_half|exact Hh].
Qed.

Lemma force_releases w val :
  unlocked w ->
  releases (debugfs_force_int_value w val) /\ releases (debugfs_force_int_active w val).
Proof.
  intros Hu. split.
  - unfold debugfs_force_int_value. unfold unlocked in Hu. destruct (w_el w) as [el|]; [|done].
    run. destruct Hu as [Hc Hr]. destruct (lock_election_free el Hc Hr) as (el1 & -> & _). run.
    apply notify_releases.
    assert (half_locked (put (gvotable_unlock_result (set_force_result val el1)) w)) as Hh
      by (by eexists).
    destruct (negb _); [exact Hh|]. destruct (_ && _); [by apply callback_half|exact Hh].
  - apply locked_start; [done|]. intros el1. apply notify_releases.
    match goal with |- context [put ?e w] => assert (half_locked (put e w)) as Hh by (by eexists) end.
    destruct (negb (el_callback _)); [exact Hh|].
    destruct (el_force_result_is_enabled _); [by apply callback_half|by apply run_callback_half].
Qed.

Lemma get_default_releases w result : unlocked w -> releases (perform (RGetDefault result) w).
Proof.
  intros Hu. unfold perform, gvotable_get_default.
  destruct (w_el w) as [el|] eqn:Hw; [|exact Hu]. destruct (_ =? 0); [exact Hu|].
  unfold unlocked in Hu. rewrite Hw in Hu. destruct Hu as [Hc Hr].
  destruct (lock_election_free el Hc Hr) as (el1 & -> & _). run.
  apply releases_bind; [|intros [[rc r] w']].
  - apply no_deadlock_bind; [apply copy_result_no_deadlock|done].
  - intros (hr & _ & Heq)%obind_Ret. simplify_eq. apply put_unlock_election.
Qed.

Lemma is_enabled_no_deadlock w reason : unlocked w -> no_deadlock (gvotable_is_enabled w reason true).
Proof.
  intros Hu. unfold gvotable_is_enabled, under_result_lock, gvotable_lock_result. unfold unlocked in Hu.
  destruct (w_el w) as [el|]; [|done]. destruct reason; [|done]. destruct Hu as [_ ->]. done.
Qed.

(** Requests that are safe in an unlocked election: all, except a change of an
    existing default. *)
Definition default_kept (w : world) (d : Z) : Prop :=
  match w_el w with
  | Some el => el_has_default_vote el = 1 -> el_default_vote el = d
  | None => True
  end.

Definition safe_request (r : request) (w : world) : Prop :=
  match r with RSetDefault d => default_kept w d | _ => True end.

Lemma set_default_releases w d :
  unlocked w -> default_kept w d -> releases (gvotable_set_default w d).
Proof.
  intros Hu Hd. unfold gvotable_set_default, default_kept in *.
  destruct (w_el w) as [el|] eqn:Hw; [|exact Hu]. destruct (el_is_bool_type el); [exact Hu|].
  unfold unlocked in Hu. rewrite Hw in Hu. destruct Hu as [Hc Hr].
  destruct (lock_election_free el Hc Hr) as (el1 & -> & Hh & Hv). run. rewrite Hh, Hv.
  destruct (Z.eqb_spec (el_has_default_vote el) 1) as [He|]; [|done].
  by rewrite (Hd He), Z.eqb_refl.
Qed.

Lemma perform_releases r w : unlocked w -> safe_request r w -> releases (perform r w).
Proof.
  intros Hu Hs. destruct r; simpl.
  - by apply cast_vote_releases.
  - by apply recast_ballot_releases.
  - by apply run_election_releases.
  - by apply use_default_releases.
  - by apply get_default_releases.
  - by apply set_default_releases.
  - by apply force_releases.
  - by apply force_releases.
  - apply releases_bind; [by apply is_enabled_no_deadlock|]. intros. by apply cast_vote_releases.
  - by apply debugfs_recast_releases.
  - by apply debugfs_recast_releases.
Qed.

(** Worlds that sequences of requests reach. *)
Inductive reachable (w : world) : world -> Prop :=
| reach_start : reachable w w
| reach_request r w1 rc w2 :
    reachable w w1 -> safe_request r w1 -> perform r w1 = Ret (rc, w2) -> reachable w w2.

(** C7. Lock discipline: from an election with both locks free, no sequence of
    operations (votes, recasts, forced results, default changes of an election without
    a default, debug writes) ever blocks on a lock of the election, on success and on
    every error path, as long as the callback leaves the locks alone. *)
Theorem requests_never_block w w' r :
  unlocked w -> reachable w w' -> safe_request r w' ->
  unlocked w' /\ perform r w' <> Deadlock.
Proof.
  intros Hu Hr Hs.
  assert (Hu' : unlocked w').
  { clear r Hs. induction Hr as [|r w1 rc w2 _ IH Hs Hp]; [done|].
    pose proof (perform_releases r w1 IH Hs) as Hrel. by rewrite Hp in Hrel. }
  split; [done|]. pose proof (perform_releases r w' Hu' Hs) as Hrel.
  by intros Hp; rewrite Hp in Hrel.
Qed.
End locks.

#[local] Existing Instance Demo.env.

Lemma demo_lock_safe : LockSafeCallback.
Proof. intros w reason vote el Hw. simpl. eauto. Qed.
#[local] Existing Instance demo_lock_safe.

Lemma requests_never_block_witness :
  let w := Demo.world_of (Demo.new_el CmpIntMin true) in
  unlocked w /\ perform (RCast true None (Some "A"%string) 5 true) w <> Deadlock.
Proof.
  apply (requests_never_block (Demo.world_of (Demo.new_el CmpIntMin true))
           (Demo.world_of (Demo.new_el CmpIntMin true))); [done|constructor|done].
Defined.
