(* ===== verification/GvRegistry.v ===== *)
(** The table of elections (bms/misc/gvotable.c): creation, naming, lookup, destruction.

    The static list [gvotables] holds a slot per election.  Elections and vote buffers
    live in stores indexed by address; freeing one removes it, so that a later access
    is undefined.  [gvotable_lock] serialises these operations and is not recursive;
    none of them calls another while it holds it. *)

From stdpp Require Import gmap.
From S2P Require Import Prelude GvElection GvOrder GvSpec GvResults.

Record election_slot := mk_slot {
  slot_el : Z;
  slot_de : option (list string);   (* debugfs directory and its files *)
}.

Record registry := mk_reg {
  gvotables : list election_slot;
  r_els : gmap Z gvotable_election;
  r_heap : heap;
  debugfs_root : bool;
}.

Definition set_slots (l : list election_slot) (g : registry) : registry :=
  mk_reg l (r_els g) (r_heap g) (debugfs_root g).
Definition set_els (e : gmap Z gvotable_election) (g : registry) : registry :=
  mk_reg (gvotables g) e (r_heap g) (debugfs_root g).
Definition set_heap (h : heap) (g : registry) : registry :=
  mk_reg (gvotables g) (r_els g) h (debugfs_root g).
Definition set_root (b : bool) (g : registry) : registry :=
  mk_reg (gvotables g) (r_els g) (r_heap g) b.

(** What the allocator and debugfs answer during one call. *)
Record allocation := {
  a_slot : bool;
  a_el : option Z;
  a_result : option Z;
  a_dir : bool;         (* debugfs_create_dir *)
}.

Section registry.
Context `{Environment}.

(** Each slot's election is read in turn. *)
Fixpoint find_slot (p : gvotable_election -> bool) (els : gmap Z gvotable_election)
    (l : list election_slot) : outcome (option nat) :=
  match l with
  | [] => Ret None
  | slot :: l' =>
    let* el := must (els !! slot_el slot) in
    if p el then Ret (Some 0%nat) else
    let* r := find_slot p els l' in Ret (S <$> r)
  end.

Definition named (hash : Z) (name : string) (el : gvotable_election) : bool :=
  (hash =? el_hash el) && el_has_name el && strncmp_eq MAX_NAME_LEN (el_name el) name.

(** The position of the slot; [name] is [None] for NULL. *)
Definition gvotable_find_internal (g : registry) (name : option string) : outcome (option nat) :=
  match name with
  | None => Ret None
  | Some name => find_slot (named (gvotable_internal_hash name) name) (r_els g) (gvotables g)
  end.

Definition gvotable_find_internal_ptr (g : registry) (el : Z) : option nat :=
  fst <$> list_find (fun slot => slot_el slot = el) (gvotables g).

Definition gvotable_add_internal (slot : election_slot) (g : registry) : registry :=
  set_slots (slot :: gvotables g) g.

Definition gvotable_delete_internal (i : nat) (g : registry) : registry :=
  set_slots (delete i (gvotables g)) g.

(** *** Debug directory *)

Definition gvotable_debugfs_create_el_int (el : gvotable_election) (slot : election_slot)
    : Z * election_slot :=
  match slot_de slot with
  | None => (- ENOENT, slot)
  | Some files =>
    let files := files ++ ["cast_int_vote"%string] in
    let files := if el_disable_force_int_entry el then files
                 else files ++ ["force_int_value"; "force_int_active"]%string in
    (0, mk_slot (slot_el slot) (Some files))
  end.

(** [dir] tells whether [debugfs_create_dir] succeeds; returns also [debugfs_root]. *)
Definition gvotable_debugfs_create_el (dir root : bool) (el : gvotable_election)
    (slot : election_slot) : bool * election_slot :=
  if negb (el_has_name el) then (root, slot) else
  if negb root && negb dir then (false, slot) else
  let root := true in
  if negb dir then (root, mk_slot (slot_el slot) None) else
  (root, mk_slot (slot_el slot) (Some ["status"; "enable_vote"; "disable_vote"]%string)).

Definition gvotable_debugfs_delete_el (slot : election_slot) : election_slot :=
  mk_slot (slot_el slot) None.

(** *** Creation *)

(** [sizeof(void * )] is 8. *)
Definition gvotable_needs_alloc (vote_size : Z) : bool := 8 <? u64 vote_size.

(** A zeroed election with the fields that creation sets. *)
Definition init_election (vote_size : Z) (cmp : comparator) (callback : bool) (data result : Z)
    : gvotable_election :=
  mk_el 0 vote_size (gvotable_needs_alloc vote_size) "" false false false None result "" false
    data callback cmp true 0 (-1) 0 false [] 0 0 0 false false false.

(** Returns the handle, [None] for NULL. *)
Definition gvotable_create_election (a : allocation) (g : registry) (name : option string)
    (vote_size : Z) (cmp_fn : option comparator) (callback : bool) (data : Z)
    : outcome (option Z * registry) :=
  let cmp := match cmp_fn with Some c => c | None => CmpNone end in
  let* found := gvotable_find_internal g name in
  match name, found with
  | Some _, Some _ => Ret (None, g)
  | _, _ =>
    if negb (a_slot a) then Ret (None, g) else
    match a_el a with
    | None => Ret (None, g)
    | Some p =>
      let use_alloc := gvotable_needs_alloc vote_size in
      match (if use_alloc then a_result a else Some 0) with
      | None => Ret (None, g)
      | Some result =>
        let h := if use_alloc then <[result := replicate (Z.to_nat vote_size) 0]> (r_heap g)
                 else r_heap g in
        let el := init_election vote_size cmp callback data result in
        let '(el, root, slot) :=
          match name with
          | Some name =>
            let el := set_name (strlcpy MAX_NAME_LEN name)
                        (set_hash (gvotable_internal_hash name) (set_has_name true el)) in
            let '(root, slot) := gvotable_debugfs_create_el (a_dir a) (debugfs_root g) el
                                   (mk_slot p None) in
            (el, root, slot)
          | None => (el, debugfs_root g, mk_slot p None)
          end in
        Ret (Some p, gvotable_add_internal slot
                       (set_root root (set_heap h (set_els (<[p := el]> (r_els g)) g))))
      end
    end
  end.

Definition gvotable_create_int_election (a : allocation) (g : registry) (name : option string)
    (cmp_fn : option comparator) (callback : bool) (data : Z) : outcome (option Z * registry) :=
  let* eg := gvotable_create_election a g name 4 cmp_fn callback data in
  match eg with
  | (None, g) => Ret (None, g)
  | (Some p, g) =>
    let* el := must (r_els g !! p) in
    let el := set_is_int_type true el in
    let g := set_els (<[p := el]> (r_els g)) g in
    let* found := gvotable_find_internal g name in
    match found with
    | None => Ret (Some p, g)
    | Some i =>
      let* slot := must (gvotables g !! i) in
      let* sel := must (r_els g !! slot_el slot) in
      let slot := snd (gvotable_debugfs_create_el_int sel slot) in
      Ret (Some p, set_slots (<[i := slot]> (gvotables g)) g)
    end
  end.

Definition gvotable_create_bool_election (a : allocation) (g : registry) (name : option string)
    (callback : bool) (data : Z) : outcome (option Z * registry) :=
  let* eg := gvotable_create_election a g name 4 (Some CmpBool) callback data in
  match eg with
  | (None, g) => Ret (None, g)
  | (Some p, g) =>
    let* rw := gvotable_set_default (mk_world (r_heap g) (r_els g !! p) [])
                 GVOTABLE_BOOL_FALSE_VALUE in
    let* el := must (w_el (snd rw)) in
    let* res := gvotable_internal_run_election (w_heap (snd rw)) el in
    let '(_, h, el) := res in
    Ret (Some p, set_heap h (set_els (<[p := set_is_bool_type true el]> (r_els g)) g))
  end.

(** *** Destruction *)

(** [kfree] of the vote buffers of a ballot. *)
Definition free_ballot (h : heap) (b : ballot) : heap :=
  if b_vote_size b =? 0 then h else foldl (fun h p => delete p h) h (b_vote b).

(** The loop that unlinks every slot of the election; each turn shortens the list. *)
Fixpoint remove_slots (fuel : nat) (el : Z) (g : registry) : registry :=
  match fuel with
  | O => g
  | S fuel =>
    match gvotable_find_internal_ptr g el with
    | None => g
    | Some i =>
      let g := set_slots (alter gvotable_debugfs_delete_el i (gvotables g)) g in
      remove_slots fuel el (gvotable_delete_internal i g)
    end
  end.

Definition gvotable_destroy_election (g : registry) (p : option Z) : outcome (Z * registry) :=
  match p with
  | None => Ret (- EINVAL, g)
  | Some p =>
    let* el := must (r_els g !! p) in
    let* _ := gvotable_lock_result el in
    let h := foldl free_ballot (r_heap g) (el_votes el) in
    let g := remove_slots (length (gvotables g)) p (set_heap h g) in
    let g := if el_use_alloc el then set_heap (delete (el_result el) (r_heap g)) g else g in
    Ret (0, set_els (delete p (r_els g)) g)
  end.

(** *** Lookup and naming *)

Definition gvotable_election_get_handle (g : registry) (name : option string)
    : outcome (option Z) :=
  match name with
  | None => Ret None
  | Some _ =>
    let* found := gvotable_find_internal g name in
    match found with
    | None => Ret None
    | Some i => let* slot := must (gvotables g !! i) in Ret (Some (slot_el slot))
    end
  end.

Definition gvotable_disable_force_int_entry (g : registry) (p : option Z)
    : outcome (Z * registry) :=
  match p with
  | None => Ret (- EINVAL, g)
  | Some p =>
    let* el := must (r_els g !! p) in
    if el_has_name el then Ret (- EINVAL, g) else
    Ret (0, set_els (<[p := set_disable_force_int_entry true el]> (r_els g)) g)
  end.

Definition gvotable_election_set_name (a : allocation) (g : registry) (p : option Z)
    (name : option string) : outcome (Z * registry) :=
  match p, name with
  | Some p, Some nm =>
    let* el := must (r_els g !! p) in
    let* found := gvotable_find_internal g name in
    if el_has_name el || bool_decide (is_Some found) then Ret (- EEXIST, g) else
    let el := set_name (strlcpy MAX_NAME_LEN nm)
                (set_hash (gvotable_internal_hash nm) (set_has_name true el)) in
    let g := set_els (<[p := el]> (r_els g)) g in
    let* found := gvotable_find_internal g name in
    match found with
    | None => Ret (0, g)
    | Some i =>
      let* slot := must (gvotables g !! i) in
      let* sel := must (r_els g !! slot_el slot) in
      let '(root, slot) := gvotable_debugfs_create_el (a_dir a) (debugfs_root g) sel slot in
      let slot := if el_is_int_type sel then snd (gvotable_debugfs_create_el_int sel slot)
                  else slot in
      Ret (0, set_root root (set_slots (<[i := slot]> (gvotables g)) g))
    end
  | _, _ => Ret (- EINVAL, g)
  end.

(** *** Unloading *)

(** The slots keep the entries that are removed with the root directory. *)
Definition gvotable_debugfs_cleanup (g : registry) : registry := set_root false g.

(** [list_for_each_entry_safe] reads the next slot before it destroys the current
    one. *)
Fixpoint destroy_all (l : list election_slot) (g : registry) : outcome registry :=
  match l with
  | [] => Ret g
  | slot :: l' =>
    let* rg := gvotable_destroy_election g (Some (slot_el slot)) in
    destroy_all l' (snd rg)
  end.

Definition gvotable_exit (g : registry) : outcome registry :=
  let g := gvotable_debugfs_cleanup g in
  destroy_all (gvotables g) g.

(** ** Invariant *)

Definition wf_named (el : gvotable_election) : Prop :=
  el_has_name el = true ->
  el_hash el = full_name_hash (el_name el) /\ (String.length (el_name el) < MAX_NAME_LEN)%nat.

(** [bound g n p]: the table binds the name [n] to the election at [p]. *)
Definition bound (g : registry) (n : string) (p : Z) : Prop :=
  exists slot el, slot ∈ gvotables g /\ slot_el slot = p /\ r_els g !! p = Some el /\
    el_has_name el = true /\ el_name el = n.

Record wf_registry (g : registry) : Prop := {
  reg_alive : forall slot, slot ∈ gvotables g ->
    exists el, r_els g !! slot_el slot = Some el /\ wf_named el;
  reg_nodup : NoDup (slot_el <$> gvotables g);
  reg_names : forall n p q, bound g n p -> bound g n q -> p = q;
}.

Lemma find_slot_spec p els l :
  (forall slot, slot ∈ l -> is_Some (els !! slot_el slot)) ->
  exists r, find_slot p els l = Ret r /\
    match r with
    | Some i => exists slot el, l !! i = Some slot /\ els !! slot_el slot = Some el /\ p el = true
    | None => forall slot el, slot ∈ l -> els !! slot_el slot = Some el -> p el = false
    end.
Proof.
  induction l as [|s l IH]; intros Hl; simpl.
  { exists None. split; [done|]. intros slot el Hin. by apply elem_of_nil in Hin. }
  destruct (Hl s) as [el Hel]; [by left|]. rewrite Hel. run.
  destruct (p el) eqn:Hp; [exists (Some 0%nat); eauto 10|].
  destruct IH as (r & -> & Hr); [intros slot ?; apply Hl; by right|]. run.
  exists (S <$> r). split; [done|]. destruct r as [i|]; simpl; [done|].
  intros slot el' [->|Hin]%elem_of_cons Hel'; [congruence|eauto].
Qed.

Lemma named_spec n el :
  wf_named el -> (String.length n < MAX_NAME_LEN)%nat ->
  named (gvotable_internal_hash n) n el = true <-> el_has_name el = true /\ el_name el = n.
Proof.
  intros Hwf Hn. unfold named, gvotable_internal_hash. rewrite !andb_true_iff, Z.eqb_eq.
  split.
  - intros [[_ Hh] Hc]. destruct (Hwf Hh). split; [done|]. by apply strncmp_eq_short in Hc.
  - intros [Hh <-]. destruct (Hwf Hh). split_and!; try done. by apply strncmp_eq_short.
Qed.

Lemma find_internal_spec g n :
  wf_registry g -> (String.length n < MAX_NAME_LEN)%nat ->
  exists r, gvotable_find_internal g (Some n) = Ret r /\
    match r with
    | Some i => exists slot, gvotables g !! i = Some slot /\ bound g n (slot_el slot)
    | None => forall p, ~ bound g n p
    end.
Proof.
  intros Hg Hn. unfold gvotable_find_internal.
  destruct (find_slot_spec (named (gvotable_internal_hash n) n) (r_els g) (gvotables g))
    as (i & -> & Hi).
  { intros slot Hs. destruct (reg_alive g Hg slot Hs) as (el & ? & _). eauto. }
  exists i. split; [done|]. destruct i as [i|].
  - destruct Hi as (slot & el & Hl & Hel & Hnm). exists slot. split; [done|].
    apply list_elem_of_lookup_2 in Hl.
    destruct (reg_alive g Hg slot Hl) as (el' & Hel' & Hwf). simplify_eq.
    apply named_spec in Hnm as [? ?]; [|done..]. exists slot, el. by split_and!.
  - intros p (slot & el & Hs & <- & Hel & Hh & Hnm).
    destruct (reg_alive g Hg slot Hs) as (el' & Hel' & Hwf). simplify_eq.
    assert (named (gvotable_internal_hash (el_name el)) (el_name el) el = true) by
      (by apply named_spec).
    specialize (Hi slot el Hs Hel). congruence.
Qed.

(** The handle of a name is the election the table binds it to. *)
Lemma get_handle_spec g n :
  wf_registry g -> (String.length n < MAX_NAME_LEN)%nat ->
  exists r, gvotable_election_get_handle g (Some n) = Ret r /\
    forall p, r = Some p <-> bound g n p.
Proof.
  intros Hg Hn. unfold gvotable_election_get_handle.
  destruct (find_internal_spec g n Hg Hn) as (i & -> & Hi). run. destruct i as [i|].
  - destruct Hi as (slot & -> & Hb). exists (Some (slot_el slot)). split; [done|].
    intros p. split; [by intros [= <-]|]. intros Hp. f_equal. by apply (reg_names g Hg n).
  - exists None. split; [done|]. intros p. split; [done|]. intros Hp. by destruct (Hi p).
Qed.

Lemma get_handle_bound g n p :
  wf_registry g -> (String.length n < MAX_NAME_LEN)%nat ->
  gvotable_election_get_handle g (Some n) = Ret (Some p) <-> bound g n p.
Proof.
  intros Hg Hn. destruct (get_handle_spec g n Hg Hn) as (r & -> & Hr). rewrite <- Hr.
  split; [by intros [= ->]|by intros ->].
Qed.

(** Two tables that bind a name alike give it the same handle. *)
Lemma get_handle_ext g g' n :
  wf_registry g -> wf_registry g' -> (String.length n < MAX_NAME_LEN)%nat ->
  (forall p, bound g n p <-> bound g' n p) ->
  gvotable_election_get_handle g (Some n) = gvotable_election_get_handle g' (Some n).
Proof.
  intros Hg Hg' Hn Hb. destruct (get_handle_spec g n Hg Hn) as (r & -> & Hr).
  destruct (get_handle_spec g' n Hg' Hn) as (r' & -> & Hr'). f_equal.
  apply option_eq. intros p. by rewrite Hr, Hr'.
Qed.

(** ** Creation *)

(** Everything the call asks for is granted; the election is at a new address. *)
Record granted (a : allocation) (g : registry) (vote_size p : Z) : Prop := {
  grant_slot : a_slot a = true;
  grant_el : a_el a = Some p;
  grant_new : r_els g !! p = None;
  grant_result : gvotable_needs_alloc vote_size = true -> is_Some (a_result a);
}.

Definition name_of (name : option string) (el : gvotable_election) : gvotable_election :=
  match name with
  | Some n => set_name (strlcpy MAX_NAME_LEN n)
                (set_hash (gvotable_internal_hash n) (set_has_name true el))
  | None => el
  end.

Lemma create_election_ok a g name vote_size cmp callback data p :
  granted a g vote_size p -> gvotable_find_internal g name = Ret None ->
  exists result h root de,
    gvotable_create_election a g name vote_size (Some cmp) callback data =
    Ret (Some p, mk_reg (mk_slot p de :: gvotables g)
      (<[p := name_of name (init_election vote_size cmp callback data result)]> (r_els g)) h root) /\
    (gvotable_needs_alloc vote_size = false -> result = 0 /\ h = r_heap g).
Proof.
  intros [Hs He Hn Hr] Hf. unfold gvotable_create_election. rewrite Hf, Hs, He. run.
  destruct (gvotable_needs_alloc vote_size).
  - destruct (Hr eq_refl) as [result ->]. exists result.
    destruct name as [n|]; [|by eexists _, _, _].
    unfold gvotable_debugfs_create_el. cbn [name_of set_name set_hash set_has_name el_has_name].
    eexists _. destruct (debugfs_root g), (a_dir a); simpl; by eexists _, _.
  - exists 0, (r_heap g). destruct name as [n|]; [|by eexists _, _].
    unfold gvotable_debugfs_create_el. cbn [name_of set_name set_hash set_has_name el_has_name].
    destruct (debugfs_root g), (a_dir a); simpl; by eexists _, _.
Qed.

(** The effect on the bindings of adding an election at a new address. *)
Lemma bound_added g p de el h root n q :
  wf_registry g -> r_els g !! p = None ->
  bound (mk_reg (mk_slot p de :: gvotables g) (<[p := el]> (r_els g)) h root) n q <->
  (q = p /\ el_has_name el = true /\ el_name el = n) \/ bound g n q.
Proof.
  intros Hg Hp. unfold bound. simpl.
  assert (Hne : forall slot, slot ∈ gvotables g -> slot_el slot <> p).
  { intros slot Hs <-. destruct (reg_alive g Hg slot Hs) as (? & ? & _). congruence. }
  split.
  - intros (slot & e & [->|Hs]%elem_of_cons & Hq & He & ? & ?).
    + simpl in Hq. subst q. rewrite lookup_insert_eq in He. simplify_eq. by left.
    + right. exists slot, e. rewrite lookup_insert_ne in He; [done|].
      rewrite <- Hq. by apply not_eq_sym, Hne.
  - intros [(-> & ? & ?)|(slot & e & Hs & Hq & He & ? & ?)].
    + exists (mk_slot p de), el. rewrite lookup_insert_eq. split_and!; try done. by left.
    + exists slot, e. split; [by right|]. split; [done|].
      rewrite lookup_insert_ne; [done|]. rewrite <- Hq. by apply not_eq_sym, Hne.
Qed.

Lemma wf_added g p de el h root :
  wf_registry g -> r_els g !! p = None -> wf_named el ->
  (el_has_name el = true -> forall q, ~ bound g (el_name el) q) ->
  wf_registry (mk_reg (mk_slot p de :: gvotables g) (<[p := el]> (r_els g)) h root).
Proof.
  intros Hg Hp Hel Hfree. split; simpl.
  - intros slot [->|Hs]%elem_of_cons; simpl.
    + exists el. by rewrite lookup_insert_eq.
    + destruct (reg_alive g Hg slot Hs) as (e & He & ?). exists e.
      rewrite lookup_insert_ne; [done|]. intros ->. congruence.
  - constructor; [|apply Hg]. rewrite list_elem_of_fmap. intros (slot & Hq & Hs).
    destruct (reg_alive g Hg slot Hs) as (e & He & _). simpl in Hq. congruence.
  - intros n q1 q2. rewrite !bound_added by done.
    intros [(-> & Hh & <-)|?] [(-> & Hh' & Hn)|?]; [done| | |by eapply reg_names].
    + by edestruct Hfree.
    + subst n. by edestruct Hfree.
Qed.

Lemma create_binds a g nm vote_size cmp callback data p :
  wf_registry g -> (String.length nm < MAX_NAME_LEN)%nat -> granted a g vote_size p ->
  (forall q, ~ bound g nm q) ->
  exists g', gvotable_create_election a g (Some nm) vote_size (Some cmp) callback data
      = Ret (Some p, g') /\ wf_registry g' /\
    forall n q, bound g' n q <-> (q = p /\ n = nm) \/ bound g n q.
Proof.
  intros Hg Hn Hgr Hfree.
  destruct (find_internal_spec g nm Hg Hn) as (i & Hi & Hb).
  destruct i as [i|]; [destruct Hb as (slot & _ & Hb); by apply Hfree in Hb|].
  destruct (create_election_ok a g (Some nm) vote_size cmp callback data p Hgr Hi)
    as (result & h & root & de & -> & _).
  set (el := name_of _ _).
  assert (Hnm : el_name el = nm) by (by apply strlcpy_short).
  eexists. split; [done|]. split.
  - apply wf_added; [done|apply Hgr| |by rewrite Hnm].
    intros _. rewrite Hnm. done.
  - intros n q. rewrite bound_added by (done || apply Hgr). rewrite Hnm.
    split; (intros [?|?]; [left|by right]); naive_solver.
Qed.

(** The table is a map from names to elections: [gvotable_create_election] refuses
    a name that is taken and changes nothing; otherwise it binds the name to the new
    election, so that [gvotable_election_get_handle] finds it, and leaves the handles of
    all other names as they were. *)
Theorem create_election_binds_name a g nm vote_size cmp callback data p :
  wf_registry g -> (String.length nm < MAX_NAME_LEN)%nat -> granted a g vote_size p ->
  exists r g',
    gvotable_create_election a g (Some nm) vote_size (Some cmp) callback data = Ret (r, g') /\
    wf_registry g' /\
    (forall q, gvotable_election_get_handle g (Some nm) = Ret (Some q) -> r = None /\ g' = g) /\
    (gvotable_election_get_handle g (Some nm) = Ret None ->
       r = Some p /\ gvotable_election_get_handle g' (Some nm) = Ret (Some p) /\
       forall n, (String.length n < MAX_NAME_LEN)%nat -> n <> nm ->
         gvotable_election_get_handle g' (Some n) = gvotable_election_get_handle g (Some n)).
Proof.
  intros Hg Hn Hgr.
  destruct (get_handle_spec g nm Hg Hn) as (r & Hr & Hb). rewrite Hr. destruct r as [q|].
  - destruct (find_internal_spec g nm Hg Hn) as (i & Hi & Hbi).
    assert (bound g nm q) as Hq by (by apply Hb).
    destruct i as [i|]; [|by destruct (Hbi q)].
    exists None, g. unfold gvotable_create_election. rewrite Hi. run. by split_and!.
  - destruct (create_binds a g nm vote_size cmp callback data p Hg Hn Hgr) as (g' & -> & Hg' & Hb').
    { intros q Hq. by apply Hb in Hq. }
    exists (Some p), g'. split_and!; try done. intros _. split_and!; [done| |].
    + apply get_handle_bound; [done..|]. apply Hb'. by left.
    + intros n Hln Hne. apply get_handle_ext; try done. intros q. rewrite Hb'. naive_solver.
Qed.
(** The two steps of [gvotable_create_bool_election] on a new election. *)
Lemma bool_init_default h hash name hn data cb :
  gvotable_set_default (mk_world h (Some (mk_el hash 4 false name hn false false None 0 "" false
    data cb CmpBool true 0 (-1) 0 false [] 0 0 0 false false false)) []) GVOTABLE_BOOL_FALSE_VALUE =
  Ret (0, mk_world h (Some (mk_el hash 4 false name hn false false None 0 "" false
    data cb CmpBool true 0 1 0 false [] 0 0 0 false false false)) []).
Proof. vm_compute. reflexivity. Qed.

Lemma bool_init_run h hash name hn data cb :
  gvotable_internal_run_election h (mk_el hash 4 false name hn false false None 0 "" false
    data cb CmpBool true 0 1 0 false [] 0 0 0 false false false) =
  Ret (cb, h, mk_el hash 4 false name hn false false None 0 default_reason true
    data cb CmpBool true 0 1 0 false [] 0 0 0 false false false).
Proof. vm_compute. reflexivity. Qed.

(** [gvotable_create_bool_election] leaves an election that satisfies the contract
    of boolean elections, is unlocked, has no ballots and publishes FALSE. *)
Theorem create_bool_election_ready a g name callback data p :
  granted a g 4 p -> gvotable_find_internal g name = Ret None ->
  exists g' el,
    gvotable_create_bool_election a g name callback data = Ret (Some p, g') /\
    r_els g' !! p = Some el /\ bool_election el /\ el_votes el = [] /\
    gvotable_get_current_int_vote (mk_world (r_heap g') (Some el) []) = Ret 0.
Proof.
  intros Hgr Hf. unfold gvotable_create_bool_election.
  destruct (create_election_ok a g name 4 CmpBool callback data p Hgr Hf)
    as (result & h & root & de & -> & Hres). destruct (Hres eq_refl) as [-> ->]. run.
  cbn [r_els r_heap]. rewrite lookup_insert_eq.
  set (el0 := name_of _ _).
  assert (exists hash nm hn, el0 = mk_el hash 4 false nm hn false false None 0 "" false
    data callback CmpBool true 0 (-1) 0 false [] 0 0 0 false false false) as (hash & nm & hn & ->).
  { subst el0. destruct name; by eexists _, _, _. }
  rewrite bool_init_default. run. cbn [w_el w_heap]. run. rewrite bool_init_run. run.
  eexists _, _. split; [reflexivity|]. cbn [r_els set_els set_heap].
  rewrite lookup_insert_eq. split; [reflexivity|]. split; [|by split].
  split; try reflexivity. split; try reflexivity; [|by apply Nat.ltb_lt].
  split; [constructor|apply NoDup_nil_2].
Qed.

(** ** Destruction *)

Lemma delete_alter {A} (f : A -> A) (l : list A) i : delete i (alter f i l) = delete i l.
Proof. revert i. induction l as [|x l IH]; intros [|i]; simpl; [done..|]. by f_equal. Qed.

Lemma filter_delete {A} (P : A -> Prop) `{!forall x, Decision (P x)} (l : list A) (i : nat) x :
  l !! i = Some x -> ~ P x -> filter P (delete i l) = filter P l.
Proof.
  revert i. induction l as [|y l IH]; intros [|i] Hi Hx; simplify_eq/=; try done.
  - by rewrite filter_cons_False.
  - rewrite !filter_cons. by rewrite (IH i).
Qed.

Lemma filter_all {A} (P : A -> Prop) `{!forall x, Decision (P x)} (l : list A) :
  Forall P l -> filter P l = l.
Proof. induction 1; [done|]. rewrite filter_cons_True by done. by f_equal. Qed.

(** The loop ends with every slot of the election unlinked. *)
Lemma remove_slots_spec fuel p g :
  (length (gvotables g) <= fuel)%nat ->
  remove_slots fuel p g = set_slots (filter (fun s => slot_el s <> p) (gvotables g)) g.
Proof.
  revert g. induction fuel as [|fuel IH]; intros g Hf; simpl.
  { destruct g as [[|? ?] ? ? ?]; simpl in *; [done|lia]. }
  unfold gvotable_find_internal_ptr.
  destruct (list_find _ (gvotables g)) as [[i slot]|] eqn:E; simpl.
  - apply list_find_Some in E as (Hi & Hp & _).
    rewrite IH; unfold gvotable_delete_internal, set_slots; cbn [gvotables r_els r_heap debugfs_root];
      rewrite delete_alter.
    + by rewrite (filter_delete _ _ i slot) by (done || by intros []).
    + rewrite length_delete by eauto. apply lookup_lt_Some in Hi. lia.
  - apply list_find_None in E. destruct g as [l ? ? ?]. unfold set_slots. simpl in *. f_equal.
    symmetry. by apply filter_all.
Qed.

(** [gvotable_destroy_election] terminates with every slot of the election gone,
    its memory released and its name free again; all other names keep their handles. *)
Theorem destroy_election_unbinds g p el :
  wf_registry g -> r_els g !! p = Some el -> el_re_lock el = false ->
  exists g', gvotable_destroy_election g (Some p) = Ret (0, g') /\
    wf_registry g' /\ r_els g' !! p = None /\ (p ∉ slot_el <$> gvotables g') /\
    forall n q, (String.length n < MAX_NAME_LEN)%nat ->
      (gvotable_election_get_handle g' (Some n) = Ret (Some q) <->
       gvotable_election_get_handle g (Some n) = Ret (Some q) /\ q <> p).
Proof.
  intros Hg Hel Hlock. unfold gvotable_destroy_election, gvotable_lock_result, mutex_lock.
  rewrite Hel. run. rewrite Hlock. run. rewrite remove_slots_spec by done.
  eexists. split; [reflexivity|].
  match goal with |- wf_registry ?g1 /\ _ => set (g' := g1) end.
  assert (Hs : gvotables g' = filter (fun s => slot_el s <> p) (gvotables g))
    by (subst g'; by destruct (el_use_alloc el)).
  assert (He : r_els g' = delete p (r_els g)) by (subst g'; by destruct (el_use_alloc el)).
  clearbody g'.
  assert (Hb : forall n q, bound g' n q <-> bound g n q /\ q <> p).
  { intros n q. unfold bound. rewrite Hs, He. split.
    - intros (slot & e & [? ?]%list_elem_of_filter & <- & [? ?]%lookup_delete_Some & ? & ?).
      eauto 10.
    - intros [(slot & e & ? & <- & ? & ? & ?) ?]. exists slot, e.
      rewrite list_elem_of_filter, lookup_delete_Some. auto 10. }
  assert (Hg' : wf_registry g').
  { split.
    - intros slot. rewrite Hs, He, list_elem_of_filter. intros [Hne Hin].
      destruct (reg_alive g Hg slot Hin) as (e & ? & ?). exists e.
      by rewrite lookup_delete_ne.
    - rewrite Hs. eapply sublist_NoDup; [apply (reg_nodup g Hg)|].
      apply fmap_sublist, sublist_filter.
    - intros n q1 q2 [? _]%Hb [? _]%Hb. by eapply (reg_names g Hg). }
  split_and!; [done| | |].
  - by rewrite He, lookup_delete_eq.
  - rewrite Hs, list_elem_of_fmap. by intros (slot & -> & [? _]%list_elem_of_filter).
  - intros n q Hn. rewrite !get_handle_bound by done. apply Hb.
Qed.
End registry.

(** ** Witnesses and counterexamples *)

#[local] Existing Instance Demo.env.

Definition demo_reg : registry := mk_reg [] ∅ ∅ false.

Lemma demo_reg_wf : wf_registry demo_reg.
Proof.
  split; [|constructor|].
  - intros slot Hs. by apply elem_of_nil in Hs.
  - intros n q1 q2 (slot & el & Hs & _). by apply elem_of_nil in Hs.
Qed.

Definition demo_grant : allocation := {| a_slot := true; a_el := Some 4096; a_result := None; a_dir := true |}.

Lemma demo_granted : granted demo_grant demo_reg 4 4096.
Proof. by split. Qed.

Lemma create_election_binds_name_witness :
  exists r g',
    gvotable_create_election demo_grant demo_reg (Some "MSC_FV"%string) 4 (Some CmpIntMin) true 0
      = Ret (r, g') /\
    wf_registry g' /\
    (forall q, gvotable_election_get_handle demo_reg (Some "MSC_FV"%string) = Ret (Some q) ->
       r = None /\ g' = demo_reg) /\
    (gvotable_election_get_handle demo_reg (Some "MSC_FV"%string) = Ret None ->
       r = Some 4096 /\
       gvotable_election_get_handle g' (Some "MSC_FV"%string) = Ret (Some 4096) /\
       forall n, (String.length n < MAX_NAME_LEN)%nat -> n <> "MSC_FV"%string ->
         gvotable_election_get_handle g' (Some n) = gvotable_election_get_handle demo_reg (Some n)).
Proof.
  apply (create_election_binds_name demo_grant demo_reg "MSC_FV" 4 CmpIntMin true 0 4096);
    [exact demo_reg_wf|by apply Nat.ltb_lt|exact demo_granted].
Defined.

Lemma create_bool_election_ready_witness :
  exists g' el,
    gvotable_create_bool_election demo_grant demo_reg (Some "DISABLE"%string) true 0
      = Ret (Some 4096, g') /\
    r_els g' !! 4096 = Some el /\ bool_election el /\ el_votes el = [] /\
    gvotable_get_current_int_vote (mk_world (r_heap g') (Some el) []) = Ret 0.
Proof.
  apply (create_bool_election_ready demo_grant demo_reg (Some "DISABLE"%string) true 0 4096);
    [exact demo_granted|reflexivity].
Defined.

(** A table with one named election. *)
Definition demo_el : gvotable_election :=
  name_of (Some "MSC_FV"%string) (init_election 4 CmpIntMin true 0 0).
Definition demo_one : registry :=
  mk_reg (mk_slot 4096 None :: gvotables demo_reg) (<[4096 := demo_el]> (r_els demo_reg)) ∅ true.

Lemma demo_one_wf : wf_registry demo_one.
Proof.
  apply wf_added; [exact demo_reg_wf|done| |].
  - intros _. split; [reflexivity|by apply Nat.ltb_lt].
  - intros _ q (slot & el & Hs & _). by apply elem_of_nil in Hs.
Qed.

Lemma destroy_election_unbinds_witness :
  exists g', gvotable_destroy_election demo_one (Some 4096) = Ret (0, g') /\
    wf_registry g' /\ r_els g' !! 4096 = None /\ (4096 ∉ slot_el <$> gvotables g') /\
    forall n q, (String.length n < MAX_NAME_LEN)%nat ->
      (gvotable_election_get_handle g' (Some n) = Ret (Some q) <->
       gvotable_election_get_handle demo_one (Some n) = Ret (Some q) /\ q <> 4096).
Proof.
  apply (destroy_election_unbinds demo_one 4096 demo_el); [exact demo_one_wf|reflexivity..].
Defined.

(** A name of 16 characters or more is cut when it is stored and never found again:
    its handle cannot be looked up, and a second election of the same name is
    created. *)
Theorem long_name_not_unique :
  let name := Some "a_name_of_16_chr"%string in
  exists g1 g2,
    gvotable_create_int_election demo_grant demo_reg name (Some CmpIntMin) true 0
      = Ret (Some 4096, g1) /\
    gvotable_election_get_handle g1 name = Ret None /\
    gvotable_create_int_election
      {| a_slot := true; a_el := Some 8192; a_result := None; a_dir := true |} g1 name
      (Some CmpIntMin) true 0 = Ret (Some 8192, g2) /\
    length (gvotables g2) = 2%nat.
Proof.
  eexists _, _. split; [vm_compute; reflexivity|]. split; [vm_compute; reflexivity|].
  split; [vm_compute; reflexivity|reflexivity].
Qed.
