(* ===== verification/GbmsProfile.v ===== *)
(** Charge profiles (bms/google_bms.c, bms/google_bms.h): the tables that tell the charging
    current and voltage for a battery temperature and voltage, read from the device
    tree, and the lookups the charging algorithm makes.

    The fields of [struct gbms_chg_profile] are grouped as the comments of the struct
    group them.  An array of fixed size is a list of that length; a pointer to an
    allocated table is [Some] list, [None] for NULL; an access out of range is
    undefined.  The device tree and the battery id in the storage are parameters. *)

From S2P Require Import Prelude.

Definition GBMS_CHG_TEMP_NB_LIMITS_MAX : Z := 10.
Definition GBMS_CHG_VOLT_NB_LIMITS_MAX : Z := 10.
Definition GBMS_CHG_TOPOFF_NB_LIMITS_MAX : Z := 10.
Definition GBMS_AACR_DATA_MAX : Z := 10.
Definition GBMS_AAFV_DATA_MAX : Z := 16.
Definition GBMS_AACT_NB_LIMITS_MAX : Z := 5.
Definition GBMS_AACC_TEMP_NB_MAX : Z := 10.
Definition GBMS_AACC_SOC_SIZE : Z := 100.
Definition GBMS_STORAGE_READ_RETRIES : Z := 20.

Definition GBMS_DEFAULT_FV_UV_RESOLUTION : Z := 25000.
Definition GBMS_DEFAULT_FV_UV_MARGIN_DPCT : Z := 1020.
Definition GBMS_DEFAULT_FV_DC_RATIO : Z := 20.
Definition GBMS_DEFAULT_CV_DEBOUNCE_CNT : Z := 3.
Definition GBMS_DEFAULT_CV_UPDATE_INTERVAL : Z := 2000.
Definition GBMS_DEFAULT_CV_TIER_OV_CNT : Z := 10.
Definition GBMS_DEFAULT_CV_TIER_SWITCH_CNT : Z := 3.
Definition GBMS_DEFAULT_CV_OTV_MARGIN : Z := 0.

(** ** Data *)

(** The charge table: [cccm_limits] holds a row of currents per temperature range. *)
Record chg_limits := mk_limits {
  temp_nb_limits : Z;
  temp_limits : list Z;
  volt_nb_limits : Z;
  volt_limits : list Z;
  topoff_nb_limits : Z;
  topoff_limits : list Z;
  cccm_limits : option (list Z);
  capacity_ma : Z;
  last_volt : Z;
}.

Record chg_behavior := mk_behavior {
  fv_uv_margin_dpct : Z;
  fv_dc_ratio : Z;
  cv_range_accuracy : Z;
  cv_debounce_cnt : Z;
  cv_update_interval : Z;
  cv_tier_ov_cnt : Z;
  cv_tier_switch_cnt : Z;
  fv_uv_resolution : Z;
  cv_otv_margin : Z;
  cc_ua_resolution : Z;
  enable_switch_chg_profile : bool;
}.

Record aacr_data := mk_aacr {
  aacr_reference_cycles : list Z;
  aacr_reference_fade10 : list Z;
  aacr_nb_limits : Z;
}.

Record aafv_data := mk_aafv {
  aafv_cycles : list Z;
  aafv_offsets : list Z;
  aafv_nb_limits : Z;
}.

Record aact_data := mk_aact {
  aact_temp_nb_limits : Z;
  aact_temp_limits : list Z;
  aact_volt_nb_limits : Z;
  aact_volt_limits : list Z;
  aact_nb_limits : Z;
  aact_limits : list Z;
  aact_idx : Z;
  aact_init_profile : bool;
  aact_update_profile : bool;
  aact_support_multiple_profiles : bool;
  aact_load_chg_ecc : bool;
  aact_cccm_limits : option (list Z);
}.

Record aacc_weight_profile := mk_aacc {
  aacc_temp_nb_limits : Z;
  aacc_temp_limits : list Z;
  aacc_weight_limits : option (list Z);
}.

Record gbms_chg_profile := mk_profile {
  owner_name : string;
  limits : chg_limits;
  behavior : chg_behavior;
  aacr : aacr_data;
  aafv : aafv_data;
  aact : aact_data;
  aacc_chg : aacc_weight_profile;
  aacc_dsg : aacc_weight_profile;
}.

Definition with_limits (l : chg_limits) (p : gbms_chg_profile) : gbms_chg_profile :=
  mk_profile (owner_name p) l (behavior p) (aacr p) (aafv p) (aact p) (aacc_chg p) (aacc_dsg p).
Definition with_behavior (b : chg_behavior) (p : gbms_chg_profile) : gbms_chg_profile :=
  mk_profile (owner_name p) (limits p) b (aacr p) (aafv p) (aact p) (aacc_chg p) (aacc_dsg p).
Definition with_aacr (a : aacr_data) (p : gbms_chg_profile) : gbms_chg_profile :=
  mk_profile (owner_name p) (limits p) (behavior p) a (aafv p) (aact p) (aacc_chg p) (aacc_dsg p).
Definition with_aafv (a : aafv_data) (p : gbms_chg_profile) : gbms_chg_profile :=
  mk_profile (owner_name p) (limits p) (behavior p) (aacr p) a (aact p) (aacc_chg p) (aacc_dsg p).
Definition with_aact (a : aact_data) (p : gbms_chg_profile) : gbms_chg_profile :=
  mk_profile (owner_name p) (limits p) (behavior p) (aacr p) (aafv p) a (aacc_chg p) (aacc_dsg p).
Definition with_aacc_chg (a : aacc_weight_profile) (p : gbms_chg_profile) : gbms_chg_profile :=
  mk_profile (owner_name p) (limits p) (behavior p) (aacr p) (aafv p) (aact p) a (aacc_dsg p).
Definition with_aacc_dsg (a : aacc_weight_profile) (p : gbms_chg_profile) : gbms_chg_profile :=
  mk_profile (owner_name p) (limits p) (behavior p) (aacr p) (aafv p) (aact p) (aacc_chg p) a.
Definition with_owner (o : string) (p : gbms_chg_profile) : gbms_chg_profile :=
  mk_profile o (limits p) (behavior p) (aacr p) (aafv p) (aact p) (aacc_chg p) (aacc_dsg p).

Definition with_temp (nb : Z) (t : list Z) (l : chg_limits) : chg_limits :=
  mk_limits nb t (volt_nb_limits l) (volt_limits l) (topoff_nb_limits l) (topoff_limits l)
    (cccm_limits l) (capacity_ma l) (last_volt l).
Definition with_volt (nb : Z) (v : list Z) (l : chg_limits) : chg_limits :=
  mk_limits (temp_nb_limits l) (temp_limits l) nb v (topoff_nb_limits l) (topoff_limits l)
    (cccm_limits l) (capacity_ma l) (last_volt l).
Definition with_topoff (nb : Z) (t : list Z) (l : chg_limits) : chg_limits :=
  mk_limits (temp_nb_limits l) (temp_limits l) (volt_nb_limits l) (volt_limits l) nb t
    (cccm_limits l) (capacity_ma l) (last_volt l).
Definition with_cccm (c : option (list Z)) (l : chg_limits) : chg_limits :=
  mk_limits (temp_nb_limits l) (temp_limits l) (volt_nb_limits l) (volt_limits l)
    (topoff_nb_limits l) (topoff_limits l) c (capacity_ma l) (last_volt l).
Definition with_capacity (c : Z) (l : chg_limits) : chg_limits :=
  mk_limits (temp_nb_limits l) (temp_limits l) (volt_nb_limits l) (volt_limits l)
    (topoff_nb_limits l) (topoff_limits l) (cccm_limits l) c (last_volt l).
Definition with_last_volt (v : Z) (l : chg_limits) : chg_limits :=
  mk_limits (temp_nb_limits l) (temp_limits l) (volt_nb_limits l) (volt_limits l)
    (topoff_nb_limits l) (topoff_limits l) (cccm_limits l) (capacity_ma l) v.

(** ** Arrays *)

(** [a[i]]. *)
Definition at_ (a : list Z) (i : Z) : outcome Z :=
  if i <? 0 then Undef else must (a !! Z.to_nat i).

(** [p[i]] through a pointer that may be NULL. *)
Definition deref (p : option (list Z)) (i : Z) : outcome Z :=
  let* a := must p in at_ a i.

(** Overwrites the first cells of an array. *)
Definition fill (dst src : list Z) : outcome (list Z) :=
  if (length dst <? length src)%nat then Undef else Ret (src ++ drop (length src) dst).

(** ** Device tree and storage *)

Class DeviceTree := {
  (* number of cells of a property, or an error *)
  of_property_count_elems : Z -> string -> Z;
  (* the cells asked for, or an error; an error leaves the destination alone *)
  of_property_read_u32_array : Z -> string -> Z -> Z + list Z;
  of_property_read_u32 : Z -> string -> Z + Z;
  of_property_read_bool : Z -> string -> bool;
  of_children : Z -> list Z;
  (* the battery id: what the n-th attempt of a call returns *)
  gbms_storage_read_brid : nat -> Z + Z;
}.

(** What the kernel documents: [of_property_read_u32_array] returns 0 with exactly the
    cells asked for, or a negative error; a cell is a [u32]. *)
Class DeviceTreeLaws `{DeviceTree} : Prop := {
  read_length node name n l :
    of_property_read_u32_array node name n = inr l -> Z.of_nat (length l) = n;
  read_error node name n e : of_property_read_u32_array node name n = inl e -> e < 0;
  read_u32_range node name v : of_property_read_u32 node name = inr v -> 0 <= v < 2 ^ 32;
}.

Section profile.
Context `{DeviceTree}.

(** The retry loop of [gbms_batt_id_node]: attempt [n], [retry] left. *)
Fixpoint read_brid (n : nat) (retry : nat) : Z + Z :=
  match gbms_storage_read_brid n with
  | inl e =>
    if e =? - EPROBE_DEFER then
      match retry with O => inl e | S retry => read_brid (S n) retry end
    else inl e
  | inr id => inr id
  end.

Definition gbms_batt_id_node (config_node : Z) : Z :=
  match read_brid 0 (Z.to_nat GBMS_STORAGE_READ_RETRIES) with
  | inl _ => config_node
  | inr batt_id =>
    match List.find (fun child => match of_property_read_u32 child "google,batt-id" with
                                  | inr id => batt_id =? id | inl _ => false end)
            (of_children config_node) with
    | Some child => child
    | None => config_node
    end
  end.

(** Reads into an array of [s32]: status and array. *)
Definition read_s32 (node : Z) (name : string) (n : Z) (dst : list Z) : outcome (Z * list Z) :=
  match of_property_read_u32_array node name n with
  | inl e => Ret (e, dst)
  | inr l => let* a := fill dst ((fun x => s32 x) <$> l) in Ret (0, a)
  end.

Definition read_u32 (node : Z) (name : string) (n : Z) (dst : list Z) : outcome (Z * list Z) :=
  match of_property_read_u32_array node name n with
  | inl e => Ret (e, dst)
  | inr l => let* a := fill dst l in Ret (0, a)
  end.

(** The same from the node of the battery id, else from the node itself. *)
Definition read_s32_id (node : Z) (name : string) (n : Z) (dst : list Z)
    : outcome (Z * list Z) :=
  let* ra := read_s32 (gbms_batt_id_node node) name n dst in
  if fst ra <? 0 then read_s32 node name n (snd ra) else Ret ra.

Definition read_u32_id (node : Z) (name : string) (n : Z) (dst : list Z)
    : outcome (Z * list Z) :=
  let* ra := read_u32 (gbms_batt_id_node node) name n dst in
  if fst ra <? 0 then read_u32 node name n (snd ra) else Ret ra.

Definition count_id (node : Z) (name : string) : Z :=
  let n := of_property_count_elems (gbms_batt_id_node node) name in
  if n <=? 0 then of_property_count_elems node name else n.

(** ** Reading the tables *)

Definition gbms_read_cccm_limits (p : gbms_chg_profile) (node : Z)
    : outcome (Z * gbms_chg_profile) :=
  let l := limits p in
  let tn := of_property_count_elems node "google,chg-temp-limits" in
  let l := with_temp tn (temp_limits l) l in
  let ret r l := Ret (r, with_limits l p) in
  if tn <=? 0 then ret (- EINVAL) l else
  if GBMS_CHG_TEMP_NB_LIMITS_MAX <? tn then ret (- EINVAL) l else
  let* ra := read_s32 node "google,chg-temp-limits" tn (temp_limits l) in
  let l := with_temp tn (snd ra) l in
  if fst ra <? 0 then ret (fst ra) l else
  let vn := count_id node "google,chg-cv-limits" in
  let l := with_volt vn (volt_limits l) l in
  if vn <=? 0 then ret (- EINVAL) l else
  if GBMS_CHG_VOLT_NB_LIMITS_MAX <? vn then ret (- EINVAL) l else
  let* ra := read_s32_id node "google,chg-cv-limits" vn (volt_limits l) in
  let l := with_volt vn (snd ra) l in
  if fst ra <? 0 then ret (fst ra) l else
  let topoff := replicate (Z.to_nat GBMS_CHG_TOPOFF_NB_LIMITS_MAX) 0 in
  let on := of_property_count_elems node "google,chg-topoff-limits" in
  let l := with_topoff on topoff l in
  if on <=? 0 then ret 0 l else
  if GBMS_CHG_TOPOFF_NB_LIMITS_MAX <? on then ret (- EINVAL) l else
  let* ra := read_s32 node "google,chg-topoff-limits" on topoff in
  let l := with_topoff on (snd ra) l in
  if fst ra <? 0 then ret (fst ra) l else ret 0 l.
(** A NULL node is 0; the profile is never NULL here. *)
Definition gbms_read_aacr_limits (p : gbms_chg_profile) (node : Z)
    : outcome (Z * gbms_chg_profile) :=
  if node =? 0 then Ret (- ENODEV, p) else
  let a := aacr p in
  let ret r a := Ret (r, with_aacr a p) in
  let no_data r := ret r (mk_aacr (aacr_reference_cycles a) (aacr_reference_fade10 a) 0) in
  let cn := of_property_count_elems node "google,aacr-ref-cycles" in
  if cn <? 0 then no_data cn else
  let fn := of_property_count_elems node "google,aacr-ref-fade10" in
  if fn <? 0 then no_data fn else
  if negb (cn =? fn) || (GBMS_AACR_DATA_MAX <? cn) || (cn =? 0) then no_data (- ERANGE) else
  let* rc := read_u32 node "google,aacr-ref-cycles" cn (aacr_reference_cycles a) in
  let a := mk_aacr (snd rc) (aacr_reference_fade10 a) (aacr_nb_limits a) in
  if fst rc <? 0 then ret (fst rc) a else
  let* rf := read_u32 node "google,aacr-ref-fade10" fn (aacr_reference_fade10 a) in
  let a := mk_aacr (aacr_reference_cycles a) (snd rf) (aacr_nb_limits a) in
  if fst rf <? 0 then ret (fst rf) a else
  ret 0 (mk_aacr (aacr_reference_cycles a) (aacr_reference_fade10 a) cn).

Definition gbms_read_aafv_limits (p : gbms_chg_profile) (node : Z)
    : outcome (Z * gbms_chg_profile) :=
  if node =? 0 then Ret (- ENODEV, p) else
  let a := aafv p in
  let ret r a := Ret (r, with_aafv a p) in
  let no_data r := ret r (mk_aafv (aafv_cycles a) (aafv_offsets a) 0) in
  let cn := of_property_count_elems node "google,aafv-ref-cycles" in
  if cn <? 0 then no_data cn else
  let on := of_property_count_elems node "google,aafv-ref-offset" in
  if on <? 0 then no_data on else
  if negb (cn =? on) || (GBMS_AAFV_DATA_MAX <? cn) || (cn =? 0) then no_data (- ERANGE) else
  let* rc := read_u32 node "google,aafv-ref-cycles" cn (aafv_cycles a) in
  let a := mk_aafv (snd rc) (aafv_offsets a) (aafv_nb_limits a) in
  if fst rc <? 0 then ret (fst rc) a else
  let* ro := read_u32 node "google,aafv-ref-offset" on (aafv_offsets a) in
  let a := mk_aafv (aafv_cycles a) (snd ro) (aafv_nb_limits a) in
  if fst ro <? 0 then ret (fst ro) a else
  ret 0 (mk_aafv (aafv_cycles a) (aafv_offsets a) cn).

(** The common body of the two AACC readers (NULL is the node 0); [alloc] tells whether [kzalloc]
    succeeds. *)
Definition read_aacc_weights (temp weights : string) (alloc : bool) (a : aacc_weight_profile)
    (node : Z) : outcome (Z * aacc_weight_profile) :=
  if node =? 0 then Ret (- ENODEV, a) else
  let n := of_property_count_elems node temp in
  let a := mk_aacc n (aacc_temp_limits a) (aacc_weight_limits a) in
  if n <=? 0 then Ret (- EINVAL, a) else
  if GBMS_AACC_TEMP_NB_MAX <? n then Ret (- EINVAL, a) else
  let* rt := read_s32 node temp n (aacc_temp_limits a) in
  let a := mk_aacc n (snd rt) (aacc_weight_limits a) in
  if fst rt <? 0 then Ret (- EINVAL, a) else
  let weight_size := (n - 1) * GBMS_AACC_SOC_SIZE in
  if negb alloc then Ret (- ENOMEM, mk_aacc n (aacc_temp_limits a) None) else
  let table := replicate (Z.to_nat weight_size) 0 in
  let* rw := read_u32 node weights weight_size table in
  if fst rw <? 0 then Ret (- EINVAL, mk_aacc n (aacc_temp_limits a) None) else
  Ret (0, mk_aacc n (aacc_temp_limits a) (Some (snd rw))).

Definition gbms_read_aacc_chg_weights (alloc : bool) (p : gbms_chg_profile) (node : Z)
    : outcome (Z * gbms_chg_profile) :=
  let* ra := read_aacc_weights "google,aacc-chg-temp" "google,aacc-chg-weights" alloc
               (aacc_chg p) node in
  Ret (fst ra, with_aacc_chg (snd ra) p).

Definition gbms_read_aacc_dsg_weights (alloc : bool) (p : gbms_chg_profile) (node : Z)
    : outcome (Z * gbms_chg_profile) :=
  let* ra := read_aacc_weights "google,aacc-dsg-temp" "google,aacc-dsg-weights" alloc
               (aacc_dsg p) node in
  Ret (fst ra, with_aacc_dsg (snd ra) p).

(** [of_property_read_u32] with the value used when the property is missing. *)
Definition u32_or (node : Z) (name : string) (default : Z) : Z :=
  match of_property_read_u32 node name with
  | inr v => v
  | inl _ => default
  end.

(** [v / resolution * resolution] on an [s32], in unsigned arithmetic. *)
Definition round_volt (resolution v : Z) : outcome Z :=
  if resolution =? 0 then Undef else
  Ret (s32 (u32 (u32 v / resolution * resolution))).

(** The loop over the first [n] voltages. *)
Fixpoint round_volts (resolution : Z) (n : nat) (l : list Z) : outcome (list Z) :=
  match n with
  | O => Ret l
  | S n =>
    match l with
    | [] => Undef
    | v :: l =>
      let* v := round_volt resolution v in
      let* l := round_volts resolution n l in
      Ret (v :: l)
    end
  end.

Definition read_behavior (node : Z) : chg_behavior :=
  let res := u32_or node "google,fv-uv-resolution" GBMS_DEFAULT_FV_UV_RESOLUTION in
  mk_behavior
    (u32_or node "google,fv-uv-margin-dpct" GBMS_DEFAULT_FV_UV_MARGIN_DPCT)
    (u32_or node "google,fv-dc-ratio" GBMS_DEFAULT_FV_DC_RATIO)
    (u32_or node "google,cv-range-accuracy" (res / 2))
    (u32_or node "google,cv-debounce-cnt" GBMS_DEFAULT_CV_DEBOUNCE_CNT)
    (u32_or node "google,cv-update-interval" GBMS_DEFAULT_CV_UPDATE_INTERVAL)
    (u32_or node "google,cv-tier-ov-cnt" GBMS_DEFAULT_CV_TIER_OV_CNT)
    (u32_or node "google,cv-tier-switch-cnt" GBMS_DEFAULT_CV_TIER_SWITCH_CNT)
    res
    (u32_or node "google,cv-otv-margin" GBMS_DEFAULT_CV_OTV_MARGIN)
    (u32_or node "google,chg-cc-ua-resolution" res)
    (of_property_read_bool node "google,enable-switch-chg-profile").

Definition reset_aact (a : aact_data) : aact_data :=
  mk_aact (aact_temp_nb_limits a) (aact_temp_limits a) (aact_volt_nb_limits a)
    (aact_volt_limits a) (aact_nb_limits a) (aact_limits a) (aact_idx a) false false
    (aact_support_multiple_profiles a) (aact_load_chg_ecc a) (aact_cccm_limits a).

Definition gbms_init_chg_profile_internal (alloc : bool) (p : gbms_chg_profile) (node : Z)
    (owner : string) : outcome (Z * gbms_chg_profile) :=
  let p := with_owner owner p in
  let* rp := gbms_read_cccm_limits p node in
  let p := snd rp in
  if fst rp <? 0 then Ret rp else
  let l := limits p in
  let size := u32 ((temp_nb_limits l - 1) * volt_nb_limits l) in
  if negb alloc then Ret (- ENOMEM, with_limits (with_cccm None l) p) else
  let* rc := read_u32 node "google,chg-cc-limits" size (replicate (Z.to_nat size) 0) in
  if fst rc <? 0 then Ret (- EINVAL, with_limits (with_cccm None l) p) else
  let l := with_cccm (Some (snd rc)) l in
  let b := read_behavior node in
  let* volts := round_volts (fv_uv_resolution b) (Z.to_nat (volt_nb_limits l)) (volt_limits l) in
  let* last := at_ volts (volt_nb_limits l - 1) in
  let l := with_last_volt (u32 last) (with_volt (volt_nb_limits l) volts l) in
  Ret (0, with_aact (reset_aact (aact p)) (with_behavior b (with_limits l p))).

Definition gbms_free_chg_profile (p : gbms_chg_profile) : gbms_chg_profile :=
  with_limits (with_cccm None (limits p)) p.

(** ** Age-adjusted charge tables *)

Definition aact_all_temp_limits : list string :=
  ["google,aact-temp-limits"; "google,aact-temp-limits-1"; "google,aact-temp-limits-2";
   "google,aact-temp-limits-3"; "google,aact-temp-limits-4"]%string.
Definition aact_all_cv_limits : list string :=
  ["google,aact-cv-limits"; "google,aact-cv-limits-1"; "google,aact-cv-limits-2";
   "google,aact-cv-limits-3"; "google,aact-cv-limits-4"]%string.
Definition aact_all_cc_limits : list string :=
  ["google,aact-cc-limits"; "google,aact-cc-limits-1"; "google,aact-cc-limits-2";
   "google,aact-cc-limits-3"; "google,aact-cc-limits-4"]%string.

Definition GBMS_AACT_IDX (a : aact_data) : Z :=
  if aact_support_multiple_profiles a then aact_idx a else 0.

Definition GBMS_AACT_NB_LIMITS (a : aact_data) : Z :=
  if aact_support_multiple_profiles a then 1 else aact_nb_limits a.

(** The property name of the selected profile. *)
Definition aact_name (names : list string) (a : aact_data) : outcome string :=
  let i := GBMS_AACT_IDX a in
  if i <? 0 then Undef else must (names !! Z.to_nat i).

Definition gbms_read_chg_aact_ecc (p : gbms_chg_profile) (node : Z)
    : outcome (Z * gbms_chg_profile) :=
  let a := aact p in
  let multiple := of_property_read_bool (gbms_batt_id_node node)
                    "google,aact-support-multiple-profiles" ||
                  of_property_read_bool node "google,aact-support-multiple-profiles" in
  let n := count_id node "google,chg-aact-ecc" in
  let upd ls load :=
    with_aact (mk_aact (aact_temp_nb_limits a) (aact_temp_limits a) (aact_volt_nb_limits a)
      (aact_volt_limits a) n ls (aact_idx a) (aact_init_profile a) (aact_update_profile a)
      multiple load (aact_cccm_limits a)) p in
  if n <=? 0 then Ret (- EINVAL, upd (aact_limits a) (aact_load_chg_ecc a)) else
  if GBMS_AACT_NB_LIMITS_MAX <? n then Ret (- EINVAL, upd (aact_limits a) (aact_load_chg_ecc a)) else
  let* ra := read_s32_id node "google,chg-aact-ecc" n (aact_limits a) in
  if fst ra <? 0 then Ret (fst ra, upd (snd ra) (aact_load_chg_ecc a)) else
  Ret (0, upd (snd ra) true).

Definition aact_temp (n : Z) (t : list Z) (a : aact_data) : aact_data :=
  mk_aact n t (aact_volt_nb_limits a) (aact_volt_limits a) (aact_nb_limits a) (aact_limits a)
    (aact_idx a) (aact_init_profile a) (aact_update_profile a)
    (aact_support_multiple_profiles a) (aact_load_chg_ecc a) (aact_cccm_limits a).
Definition aact_volt (n : Z) (v : list Z) (a : aact_data) : aact_data :=
  mk_aact (aact_temp_nb_limits a) (aact_temp_limits a) n v (aact_nb_limits a) (aact_limits a)
    (aact_idx a) (aact_init_profile a) (aact_update_profile a)
    (aact_support_multiple_profiles a) (aact_load_chg_ecc a) (aact_cccm_limits a).
Definition aact_cccm (c : option (list Z)) (a : aact_data) : aact_data :=
  mk_aact (aact_temp_nb_limits a) (aact_temp_limits a) (aact_volt_nb_limits a)
    (aact_volt_limits a) (aact_nb_limits a) (aact_limits a) (aact_idx a)
    (aact_init_profile a) (aact_update_profile a) (aact_support_multiple_profiles a)
    (aact_load_chg_ecc a) c.
Definition aact_inited (a : aact_data) : aact_data :=
  mk_aact (aact_temp_nb_limits a) (aact_temp_limits a) (aact_volt_nb_limits a)
    (aact_volt_limits a) (aact_nb_limits a) (aact_limits a) (aact_idx a)
    true (aact_update_profile a) (aact_support_multiple_profiles a)
    (aact_load_chg_ecc a) (aact_cccm_limits a).

Definition gbms_read_aact_cccm_limits (p : gbms_chg_profile) (node : Z)
    : outcome (Z * gbms_chg_profile) :=
  let* rp := if aact_load_chg_ecc (aact p) then Ret (0, p) else gbms_read_chg_aact_ecc p node in
  let p := snd rp in
  if fst rp <? 0 then Ret rp else
  let a := aact p in
  let* tname := aact_name aact_all_temp_limits a in
  let* vname := aact_name aact_all_cv_limits a in
  let ret r a := Ret (r, with_aact a p) in
  let tn := count_id node tname in
  let a := aact_temp tn (aact_temp_limits a) a in
  if tn <=? 0 then ret (- EINVAL) a else
  if GBMS_CHG_TEMP_NB_LIMITS_MAX <? tn then ret (- EINVAL) a else
  let* rt := read_s32_id node tname tn (aact_temp_limits a) in
  let a := aact_temp tn (snd rt) a in
  if fst rt <? 0 then ret (fst rt) a else
  let vn := count_id node vname in
  let a := aact_volt vn (aact_volt_limits a) a in
  if vn <=? 0 then ret (- EINVAL) a else
  if GBMS_CHG_VOLT_NB_LIMITS_MAX <? vn then ret (- EINVAL) a else
  let* rv := read_s32_id node vname vn (aact_volt_limits a) in
  let a := aact_volt vn (snd rv) a in
  if fst rv <? 0 then ret (fst rv) a else ret 0 a.

(** As written: when the table cannot be read, it is [cccm_limits] that is freed. *)
Definition gbms_init_aact_profile_internal (alloc : bool) (p : gbms_chg_profile) (node : Z)
    (owner : string) : outcome (Z * gbms_chg_profile) :=
  let p := with_owner owner p in
  if aact_update_profile (aact p) then Ret (0, p) else
  let* rp := gbms_read_aact_cccm_limits p node in
  let p := snd rp in
  if fst rp <? 0 then Ret rp else
  let a := aact p in
  let size := u32 ((aact_temp_nb_limits a - 1) * aact_volt_nb_limits a * GBMS_AACT_NB_LIMITS a) in
  if negb alloc then Ret (- ENOMEM, with_aact (aact_cccm None a) p) else
  let* cname := aact_name aact_all_cc_limits a in
  let* rc := read_u32_id node cname size (replicate (Z.to_nat size) 0) in
  let p := with_aact (aact_cccm (Some (snd rc)) a) p in
  if fst rc <? 0 then Ret (- EINVAL, gbms_free_chg_profile p) else Ret (0, p).

(** [memcpy] of [n] cells between arrays. *)
Definition copy_cells (dst src : list Z) (n : Z) : outcome (list Z) :=
  if Z.of_nat (length src) <? n then Undef else fill dst (take (Z.to_nat n) src).

Definition gbms_update_chg_profile_from_aact (alloc : bool) (p : gbms_chg_profile)
    : outcome (Z * gbms_chg_profile) :=
  let a := aact p in
  let l := limits p in
  let size := u32 ((aact_temp_nb_limits a - 1) * aact_volt_nb_limits a * GBMS_AACT_NB_LIMITS a) in
  if negb alloc then Ret (- ENOMEM, with_limits (with_cccm None l) p) else
  let* src := must (aact_cccm_limits a) in
  let* cccm := copy_cells (replicate (Z.to_nat size) 0) src size in
  let* temps := copy_cells (temp_limits l) (aact_temp_limits a) (aact_temp_nb_limits a) in
  let* volts := copy_cells (volt_limits l) (aact_volt_limits a) (aact_volt_nb_limits a) in
  let* last := at_ volts (aact_volt_nb_limits a - 1) in
  let l := with_last_volt (u32 last) (with_volt (aact_volt_nb_limits a) volts
             (with_temp (aact_temp_nb_limits a) temps (with_cccm (Some cccm) l))) in
  Ret (0, with_aact (aact_inited a) (with_limits l p)).

(** ** Charge table *)

(** [DIV_ROUND_CLOSEST(ccm, step) * step] of an unsigned [ccm] and an [int] step,
    after [ccm *= capacity_ma * 10]. *)
Definition cell_current (step capacity_ma ccm : Z) : Z :=
  let ccm := u32 (ccm * u32 (capacity_ma * 10)) in
  if step =? 0 then ccm else
  u32 (u32 (ccm + u32 (cdiv step 2)) / u32 step * u32 step).

(** The inner loop: columns [vi] .. of row [ti]. *)
Fixpoint init_row (f : Z -> Z) (volt_nb ti vi : Z) (n : nat) (c : list Z) : outcome (list Z) :=
  match n with
  | O => Ret c
  | S n =>
    let i := ti * volt_nb + vi in
    let* ccm := at_ c i in
    init_row f volt_nb ti (vi + 1) n (<[Z.to_nat i := f ccm]> c)
  end.

(** The outer loop: rows [ti] .. *)
Fixpoint init_rows (f : Z -> Z) (volt_nb ti : Z) (n : nat) (c : list Z) : outcome (list Z) :=
  match n with
  | O => Ret c
  | S n =>
    let* c := init_row f volt_nb ti 0 (Z.to_nat volt_nb) c in
    init_rows f volt_nb (ti + 1) n c
  end.

Definition gbms_init_chg_table (p : gbms_chg_profile) (node : Z) (cap : Z)
    : outcome gbms_chg_profile :=
  let step := s32 (cc_ua_resolution (behavior p)) in
  let l := with_capacity cap (limits p) in
  let a := aact p in
  let rows := temp_nb_limits l - 1 in
  let aact_rows := (temp_nb_limits l - 1) * GBMS_AACT_NB_LIMITS a in
  let* c := must (cccm_limits l) in
  let* cn :=
    if aact_init_profile a && aact_update_profile a then
      let* src := must (aact_cccm_limits a) in
      let* c := copy_cells c src (u32 (aact_rows * volt_nb_limits l)) in
      Ret (c, aact_rows)
    else if negb (aact_init_profile a) then
      let* rc := read_u32 node "google,chg-cc-limits" (u32 (rows * volt_nb_limits l)) c in
      Ret (snd rc, rows)
    else
      let* name := aact_name aact_all_cc_limits a in
      let* rc := read_u32_id node name (u32 (aact_rows * volt_nb_limits l)) c in
      Ret (snd rc, aact_rows) in
  let* c := init_rows (cell_current step cap) (volt_nb_limits l) 0 (Z.to_nat (snd cn)) (fst cn) in
  Ret (with_limits (with_cccm (Some c) l) p).
End profile.

(** ** Lookups *)

(** [GBMS_AACT_TI] and [GBMS_CCCM_LIMITS]: the current of a row and a column. *)
Definition GBMS_AACT_TI (p : gbms_chg_profile) : Z :=
  if aact_support_multiple_profiles (aact p) then 0
  else aact_idx (aact p) * (temp_nb_limits (limits p) - 1).

Definition GBMS_CCCM_LIMITS (p : gbms_chg_profile) (ti vi : Z) : outcome Z :=
  if (0 <=? ti) && (0 <=? vi) then
    deref (cccm_limits (limits p)) ((ti + GBMS_AACT_TI p) * volt_nb_limits (limits p) + vi)
  else Ret 0.

(** [while (i < last && test(i)) i++]: [fuel] bounds the turns. *)
Fixpoint scan_up (fuel : nat) (last : Z) (test : Z -> outcome bool) (i : Z) : outcome Z :=
  match fuel with
  | O => Ret i
  | S fuel =>
    if i <? last then
      let* b := test i in
      if b then scan_up fuel last test (i + 1) else Ret i
    else Ret i
  end.

Definition gbms_msc_temp_idx (p : gbms_chg_profile) (temp : Z) : outcome Z :=
  let l := limits p in
  scan_up (Z.to_nat (temp_nb_limits l)) (temp_nb_limits l - 2)
    (fun i => let* t := at_ (temp_limits l) (i + 1) in Ret (t <=? temp)) 0.

Definition gbms_aacc_temp_idx (p : gbms_chg_profile) (temp : Z) (is_charge : bool) : outcome Z :=
  let d := if is_charge then aacc_chg p else aacc_dsg p in
  scan_up (Z.to_nat (aacc_temp_nb_limits d)) (aacc_temp_nb_limits d - 2)
    (fun i => let* t := at_ (aacc_temp_limits d) (i + 1) in Ret (t <=? temp)) 0.

(** Compute the step index given the battery voltage, with headroom. *)
Definition gbms_msc_voltage_idx (p : gbms_chg_profile) (vbatt : Z) : outcome Z :=
  let l := limits p in
  let* i := scan_up (Z.to_nat (volt_nb_limits l)) (volt_nb_limits l - 1)
              (fun i => let* v := at_ (volt_limits l) i in Ret (v <? vbatt)) 0 in
  if negb (i =? volt_nb_limits l - 1) then
    let* vt := at_ (volt_limits l) i in
    let headr := s32 (u32 (fv_uv_resolution (behavior p) * 3)) in
    Ret (if s32 (vt - vbatt) <? headr then i + 1 else i)
  else Ret i.

(** Skips tiers that have the same current; [None] is a NULL profile.  [cc_max] is an
    [int], converted back for the unsigned comparison. *)
Definition gbms_msc_voltage_idx_merge_tiers (p : option gbms_chg_profile) (vbatt temp_idx : Z)
    : outcome Z :=
  match p with
  | None => Ret 0
  | Some p =>
    let l := limits p in
    let* i := gbms_msc_voltage_idx p vbatt in
    if (temp_idx <? 0) || (temp_nb_limits l <=? temp_idx) then Ret i else
    let* cc_max := GBMS_CCCM_LIMITS p temp_idx i in
    scan_up (Z.to_nat (volt_nb_limits l)) (volt_nb_limits l - 2)
      (fun i => let* cc := GBMS_CCCM_LIMITS p temp_idx (i + 1) in Ret (cc_max =? cc)) i
  end.

(** [while (i > 0 && !limits[i]) i--]. *)
Fixpoint scan_down (test : Z -> outcome bool) (i : nat) : outcome Z :=
  match i with
  | O => Ret 0
  | S j =>
    let* b := test (Z.of_nat i) in
    if b then scan_down test j else Ret (Z.of_nat i)
  end.

Definition gbms_msc_get_last_voltage_idx (p : gbms_chg_profile) (temp_idx : Z) : outcome Z :=
  scan_down (fun i => let* cc := GBMS_CCCM_LIMITS p temp_idx i in Ret (cc =? 0))
    (Z.to_nat (volt_nb_limits (limits p) - 1)).

Definition gbms_aact_get_index (p : gbms_chg_profile) (cycles : Z) : outcome Z :=
  let a := aact p in
  if negb (aact_load_chg_ecc a) && negb (aact_update_profile a) then Ret 0 else
  let* i := scan_up (S (Z.to_nat (aact_nb_limits a))) (aact_nb_limits a)
              (fun i => let* c := at_ (aact_limits a) i in Ret (c <=? cycles)) 0 in
  Ret (i - 1).

(** ** Interpolated capacity fade and voltage offset *)

(** The loop [for (idx = 0; idx < nb - 1; idx++) if (cycles < table[idx]) break]. *)
Definition cycle_idx (table : list Z) (nb cycles : Z) : outcome Z :=
  scan_up (Z.to_nat nb) (nb - 1) (fun i => let* c := at_ table i in Ret (c <=? cycles)) 0.

(** Signed arithmetic wraps around, as the kernel is compiled; a division by zero is
    undefined. *)
Definition gbms_aacr_fade10 (p : gbms_chg_profile) (cycles : Z) : outcome Z :=
  let a := aacr p in
  if (aacr_nb_limits a =? 0) || (cycles <? 0) then Ret (- EINVAL) else
  let* idx := cycle_idx (aacr_reference_cycles a) (aacr_nb_limits a) cycles in
  let* cycle_f := at_ (aacr_reference_cycles a) idx in
  let* fade_f := at_ (aacr_reference_fade10 a) idx in
  let* s :=
    if 0 <? idx then
      let* cycle_s := at_ (aacr_reference_cycles a) (idx - 1) in
      let* fade_s := at_ (aacr_reference_fade10 a) (idx - 1) in
      Ret (s32 cycle_s, s32 fade_s)
    else Ret (0, 0) in
  let '(cycle_s, fade_s) := s in
  let run := s32 (s32 cycle_f - cycle_s) in
  if run =? 0 then Undef else
  Ret (s32 (cdiv (s32 (s32 (cycles - cycle_s) * s32 (s32 fade_f - fade_s))) run + fade_s)).

Definition gbms_aafv_get_offset (p : gbms_chg_profile) (cycles : Z) : outcome Z :=
  let a := aafv p in
  if (aafv_nb_limits a =? 0) || (cycles <? 0) then Ret 0 else
  let* idx := cycle_idx (aafv_cycles a) (aafv_nb_limits a) cycles in
  let* o := at_ (aafv_offsets a) idx in
  Ret (s32 o).

Definition gbms_aafv_offset_is_valid (p : gbms_chg_profile) (offset len : Z) : outcome bool :=
  let l := limits p in
  let* pen := if 1 <? volt_nb_limits l then at_ (volt_limits l) (volt_nb_limits l - 2) else Ret 0 in
  let delta := u32 (last_volt l - u32 pen) / 1000 in
  Ret ((0 <=? offset) && (offset <? delta) && (0 <? len)).

Definition gbms_aafv_get_last_entry (p : gbms_chg_profile) : outcome Z :=
  let a := aafv p in
  if 1 <? aafv_nb_limits a then
    let* c := at_ (aafv_cycles a) (aafv_nb_limits a - 2) in Ret (s32 c)
  else Ret 0.

(** ** Charging voltage *)

Definition gbms_msc_round_fv_uv (p : gbms_chg_profile) (vtier fv_uv cc_ua : Z)
    (allow_higher_fv : bool) : outcome Z :=
  let b := behavior p in
  let fv_uv_max := u32 (cdiv vtier 1000 * fv_uv_margin_dpct b) in
  let dc_fv_uv_max := u32 (vtier + cdiv cc_ua 1000 * fv_dc_ratio b) in
  let* last := at_ (volt_limits (limits p)) (volt_nb_limits (limits p) - 1) in
  let last_fv := u32 last in
  let fv_max :=
    if cc_ua =? 0 then fv_uv_max
    else if negb allow_higher_fv && (last_fv <=? dc_fv_uv_max)
         then u32 (last_fv - fv_uv_resolution b)
         else dc_fv_uv_max in
  let fv_uv := if negb (fv_max =? 0) && (fv_max <? u32 fv_uv) then s32 fv_max else fv_uv in
  let fv_uv := s32 (u32 (fv_uv + fv_uv_resolution b / 2)) in
  if fv_uv_resolution b =? 0 then Undef else
  Ret (s32 (u32 (fv_uv - u32 fv_uv mod fv_uv_resolution b))).
