(* ===== verification/GbmsLookup.v ===== *)
(** What the charge tables and their lookups guarantee (bms/google_bms.c). *)

From S2P Require Import Prelude GbmsProfile.

(** ** Arrays *)

Lemma at_lookup a i x : at_ a i = Ret x <-> 0 <= i /\ a !! Z.to_nat i = Some x.
Proof.
  unfold at_. case_test.
  - split; [done|lia].
  - destruct (a !! Z.to_nat i); simpl; (split; [intros|intros [_ ?]]; by simplify_eq).
Qed.

Lemma at_Some a i : 0 <= i < Z.of_nat (length a) -> exists x, at_ a i = Ret x.
Proof.
  intros Hi. destruct (lookup_lt_is_Some_2 a (Z.to_nat i)) as [x Hx]; [lia|].
  exists x. apply at_lookup. split; [lia|done].
Qed.

Lemma at_Forall (P : Z -> Prop) a i x : Forall P a -> at_ a i = Ret x -> P x.
Proof. intros Ha [_ Hi]%at_lookup. exact (proj1 (Forall_lookup _ _) Ha _ _ Hi). Qed.

(** ** Scans *)

(** Where a scan stops: everything before passed the test, and it stopped at the end or
    at a cell that fails it. *)
Record stops_at (test : Z -> outcome bool) (last i j : Z) : Prop := {
  stop_range : i <= j <= Z.max i last;
  stop_before k : i <= k < j -> test k = Ret true;
  stop_here : j < last -> test j = Ret false;
}.

Lemma scan_up_spec fuel last test i :
  last - i <= Z.of_nat fuel ->
  (forall k, i <= k < last -> exists b, test k = Ret b) ->
  exists j, scan_up fuel last test i = Ret j /\ stops_at test last i j.
Proof.
  revert i. induction fuel as [|fuel IH]; intros i Hf Ht; simpl.
  { exists i. split; [done|]. split; intros; lia. }
  case_test; [|exists i; split; [done|]; split; intros; lia].
  destruct (Ht i) as [b Hb]; [lia|]. rewrite Hb. run. destruct b.
  - destruct (IH (i + 1)) as (j & Hj & Hs); [lia|intros k Hk; apply Ht; lia|].
    exists j. split; [done|]. destruct Hs as [Hr Hbe Hh]. split; [lia| |done].
    intros k Hk. destruct (Z.eq_dec k i) as [->|]; [done|apply Hbe; lia].
  - exists i. split; [done|]. split; [lia|intros; lia|done].
Qed.

Lemma scan_up_ext fuel last f g i :
  (forall k, f k = g k) -> scan_up fuel last f i = scan_up fuel last g i.
Proof.
  intros Hfg. revert i. induction fuel as [|fuel IH]; intros i; simpl; [done|].
  rewrite Hfg. case_test; [|done]. destruct (g i) as [[]| |]; simpl; auto.
Qed.

(** A scan of the cells [off], [off + 1], ... of a table against a predicate. *)
Lemma scan_table fuel table off last (test : Z -> bool) :
  0 <= off -> last + off <= Z.of_nat (length table) -> last <= Z.of_nat fuel ->
  exists j, scan_up fuel last (fun k => let* t := at_ table (k + off) in Ret (test t)) 0 = Ret j /\
    0 <= j <= Z.max 0 last /\
    (forall k t, 0 <= k < j -> at_ table (k + off) = Ret t -> test t = true) /\
    (forall t, j < last -> at_ table (j + off) = Ret t -> test t = false).
Proof.
  intros Ho Hl Hf.
  destruct (scan_up_spec fuel last (fun k => let* t := at_ table (k + off) in Ret (test t)) 0)
    as (j & Hj & [Hr Hb Hh]); [lia| |].
  { intros k Hk. destruct (at_Some table (k + off)) as [t Ht]; [lia|]. rewrite Ht. run. eauto. }
  exists j. split; [done|]. split; [lia|]. split.
  - intros k t Hk Ht. specialize (Hb k Hk). rewrite Ht in Hb. by injection Hb.
  - intros t Hj' Ht. specialize (Hh Hj'). rewrite Ht in Hh. by injection Hh.
Qed.

(** ** Well-formed tables *)

Record wf_limits (l : chg_limits) : Prop := {
  wf_temp_nb : 1 <= temp_nb_limits l <= GBMS_CHG_TEMP_NB_LIMITS_MAX;
  wf_temp : length (temp_limits l) = Z.to_nat GBMS_CHG_TEMP_NB_LIMITS_MAX;
  wf_volt_nb : 1 <= volt_nb_limits l <= GBMS_CHG_VOLT_NB_LIMITS_MAX;
  wf_volt : length (volt_limits l) = Z.to_nat GBMS_CHG_VOLT_NB_LIMITS_MAX;
  wf_cccm : exists c, cccm_limits l = Some c /\
    Z.of_nat (length c) = (temp_nb_limits l - 1) * volt_nb_limits l;
}.

(** The table of a profile without age adjustment, at least one temperature range. *)
Record plain_profile (p : gbms_chg_profile) : Prop := {
  plain_wf : wf_limits (limits p);
  plain_rows : 2 <= temp_nb_limits (limits p);
  plain_aact : GBMS_AACT_TI p = 0;
}.

Lemma cccm_in_range p ti vi :
  plain_profile p -> 0 <= ti < temp_nb_limits (limits p) - 1 ->
  0 <= vi < volt_nb_limits (limits p) -> exists cc, GBMS_CCCM_LIMITS p ti vi = Ret cc.
Proof.
  intros [[? ? ? ? (c & Hc & Hlen)] Hrows Hti] Ht Hv.
  unfold GBMS_CCCM_LIMITS, deref. rewrite Hc, Hti, Z.add_0_r. run.
  rewrite (proj2 (Z.leb_le 0 ti)), (proj2 (Z.leb_le 0 vi)) by lia. simpl.
  apply at_Some. rewrite Hlen. nia.
Qed.

(** ** Lookups by temperature and voltage *)

Lemma temp_idx_ok p temp :
  wf_limits (limits p) ->
  exists i, gbms_msc_temp_idx p temp = Ret i /\
    0 <= i <= Z.max 0 (temp_nb_limits (limits p) - 2) /\
    (forall k t, 1 <= k <= i -> at_ (temp_limits (limits p)) k = Ret t -> t <= temp) /\
    (forall t, i < temp_nb_limits (limits p) - 2 ->
       at_ (temp_limits (limits p)) (i + 1) = Ret t -> temp < t).
Proof.
  intros Hw. destruct Hw as [Htn Htl _ _ _].
  unfold GBMS_CHG_TEMP_NB_LIMITS_MAX in *. unfold gbms_msc_temp_idx.
  destruct (scan_table (Z.to_nat (temp_nb_limits (limits p))) (temp_limits (limits p)) 1
    (temp_nb_limits (limits p) - 2) (fun t => t <=? temp)) as (i & -> & Hr & Hb & Hh); [lia..|].
  exists i. split; [done|]. split; [lia|]. split.
  - intros k t Hk Ht. apply Z.leb_le. apply (Hb (k - 1)); [lia|].
    by replace (k - 1 + 1) with k by lia.
  - intros t Hi Ht. apply Z.leb_gt. by apply Hh.
Qed.

(** The tier of a voltage, before the headroom is taken into account. *)
Definition volt_tier (p : gbms_chg_profile) (vbatt i : Z) : Prop :=
  0 <= i <= volt_nb_limits (limits p) - 1 /\
  (forall k v, 0 <= k < i -> at_ (volt_limits (limits p)) k = Ret v -> v < vbatt) /\
  (forall v, i < volt_nb_limits (limits p) - 1 ->
     at_ (volt_limits (limits p)) i = Ret v -> vbatt <= v).

Definition headroom (p : gbms_chg_profile) : Z := s32 (u32 (fv_uv_resolution (behavior p) * 3)).

Lemma voltage_idx_ok p vbatt :
  wf_limits (limits p) ->
  exists i j, gbms_msc_voltage_idx p vbatt = Ret j /\ volt_tier p vbatt i /\
    (i = volt_nb_limits (limits p) - 1 /\ j = i \/
     i < volt_nb_limits (limits p) - 1 /\
     exists v, at_ (volt_limits (limits p)) i = Ret v /\
       (s32 (v - vbatt) < headroom p /\ j = i + 1 \/ headroom p <= s32 (v - vbatt) /\ j = i)).
Proof.
  intros Hw. destruct Hw as [_ _ Hvn Hvl _].
  unfold GBMS_CHG_VOLT_NB_LIMITS_MAX in *. unfold gbms_msc_voltage_idx.
  destruct (scan_table (Z.to_nat (volt_nb_limits (limits p))) (volt_limits (limits p)) 0
    (volt_nb_limits (limits p) - 1) (fun v => v <? vbatt)) as (i & Hi & Hr & Hb & Hh); [lia..|].
  assert (Heq : scan_up (Z.to_nat (volt_nb_limits (limits p))) (volt_nb_limits (limits p) - 1)
      (fun i => let* v := at_ (volt_limits (limits p)) i in Ret (v <? vbatt)) 0 = Ret i).
  { rewrite <- Hi. apply scan_up_ext. intros k. by rewrite Z.add_0_r. }
  rewrite Heq. run.
  assert (Htier : volt_tier p vbatt i).
  { split; [lia|]. split.
    - intros k v Hk Hv. apply Z.ltb_lt. apply (Hb k); [done|]. by rewrite Z.add_0_r.
    - intros v Hlt Hv. apply Z.ltb_ge. apply Hh; [done|]. by rewrite Z.add_0_r. }
  destruct (Z.eqb_spec i (volt_nb_limits (limits p) - 1)) as [He|Hne]; simpl.
  { exists i, i. split; [done|]. split; [done|]. by left. }
  destruct (at_Some (volt_limits (limits p)) i) as [v Hv]; [lia|]. rewrite Hv. run.
  exists i. fold (headroom p). eexists. split; [done|]. split; [done|]. right. split; [lia|].
  exists v. split; [done|]. case_test; auto.
Qed.

(** The temperature lookup always names a row of the table: for any temperature the
    index is in range, so every current of the row can be read, and a temperature
    inside the table lies in the range of the row. *)
Theorem msc_temp_idx_selects_row p temp :
  plain_profile p ->
  exists i, gbms_msc_temp_idx p temp = Ret i /\
    0 <= i <= temp_nb_limits (limits p) - 2 /\
    (forall vi, 0 <= vi < volt_nb_limits (limits p) ->
       exists cc, GBMS_CCCM_LIMITS p i vi = Ret cc) /\
    (forall lo hi a b, at_ (temp_limits (limits p)) 0 = Ret lo ->
       at_ (temp_limits (limits p)) (temp_nb_limits (limits p) - 1) = Ret hi ->
       at_ (temp_limits (limits p)) i = Ret a -> at_ (temp_limits (limits p)) (i + 1) = Ret b ->
       lo <= temp < hi -> a <= temp < b).
Proof.
  intros Hp. pose proof (plain_rows p Hp).
  destruct (temp_idx_ok p temp (plain_wf p Hp)) as (i & -> & Hr & Hb & Hh).
  exists i. split; [done|]. split; [lia|]. split.
  { intros vi Hvi. apply cccm_in_range; [done|lia|done]. }
  intros lo hi a b Hlo Hhi Ha Hb' Htemp. split.
  - destruct (Z.eq_dec i 0) as [->|]; [rewrite Hlo in Ha; injection Ha as <-; lia|].
    apply (Hb i); [lia|done].
  - destruct (Z.eq_dec i (temp_nb_limits (limits p) - 2)) as [Hi|]; [|apply Hh; [lia|done]].
    replace (i + 1) with (temp_nb_limits (limits p) - 1) in Hb' by lia.
    rewrite Hhi in Hb'. injection Hb' as <-. lia.
Qed.

(** Tiers at least [h] apart. *)
Definition spaced (p : gbms_chg_profile) (h : Z) : Prop :=
  forall k a b, 0 <= k < volt_nb_limits (limits p) - 1 ->
    at_ (volt_limits (limits p)) k = Ret a -> at_ (volt_limits (limits p)) (k + 1) = Ret b ->
    a + h <= b.

Definition volts_ok (p : gbms_chg_profile) : Prop :=
  Forall (fun v => 0 <= v < 2 ^ 31) (volt_limits (limits p)).

Lemma volts_ok_at p i v : volts_ok p -> at_ (volt_limits (limits p)) i = Ret v -> 0 <= v < 2 ^ 31.
Proof. apply (at_Forall (fun v => 0 <= v < 2 ^ 31)). Qed.

Lemma headroom_val p :
  0 <= fv_uv_resolution (behavior p) * 3 < 2 ^ 31 ->
  headroom p = 3 * fv_uv_resolution (behavior p).
Proof. intros. unfold headroom. wrap_small. lia. Qed.

(** The voltage lookup picks the lowest tier with headroom: with tiers at least three
    resolutions apart, [gbms_msc_voltage_idx] returns the first tier whose voltage is at
    least three resolutions over the battery voltage, or the last tier. *)
Theorem msc_voltage_idx_lowest_with_headroom p vbatt :
  plain_profile p -> volts_ok p -> 0 <= vbatt < 2 ^ 31 ->
  0 <= fv_uv_resolution (behavior p) * 3 < 2 ^ 31 ->
  spaced p (3 * fv_uv_resolution (behavior p)) ->
  exists j, gbms_msc_voltage_idx p vbatt = Ret j /\
    0 <= j <= volt_nb_limits (limits p) - 1 /\
    (forall v, j < volt_nb_limits (limits p) - 1 -> at_ (volt_limits (limits p)) j = Ret v ->
       3 * fv_uv_resolution (behavior p) <= v - vbatt) /\
    (forall k v, 0 <= k < j -> at_ (volt_limits (limits p)) k = Ret v ->
       v - vbatt < 3 * fv_uv_resolution (behavior p)).
Proof.
  intros Hp Hv Hvb Hres Hsp.
  destruct (voltage_idx_ok p vbatt (plain_wf p Hp)) as (i & j & -> & (Hr & Hlo & Hhi) & Hj).
  exists j. split; [done|]. rewrite (headroom_val p Hres) in Hj.
  destruct Hj as [[-> ->]|(Hlt & v & Hvi & Hj)].
  { split; [lia|]. split; [intros; lia|]. intros k w Hk Hw. specialize (Hlo k w Hk Hw). lia. }
  pose proof (volts_ok_at p i v Hv Hvi). pose proof (Hhi v Hlt Hvi).
  rewrite swrap_id in Hj by lia. destruct Hj as [[Hd ->]|[Hd ->]].
  - split; [lia|]. split.
    + intros w Hi Hw. specialize (Hsp i v w). specialize (Hsp ltac:(lia) Hvi Hw). lia.
    + intros k w Hk Hw. destruct (Z.eq_dec k i) as [->|].
      * rewrite Hvi in Hw. injection Hw as <-. lia.
      * specialize (Hlo k w ltac:(lia) Hw). lia.
  - split; [lia|]. split.
    + intros w _ Hw. rewrite Hvi in Hw. injection Hw as <-. lia.
    + intros k w Hk Hw. specialize (Hlo k w Hk Hw). lia.
Qed.

(** Merging tiers never changes the current: from the tier of the battery voltage,
    [gbms_msc_voltage_idx_merge_tiers] moves up only over tiers of equal current, never
    to the last one, and stops at the first tier followed by another current. *)
Theorem merge_tiers_same_current p vbatt ti :
  plain_profile p -> 0 <= ti < temp_nb_limits (limits p) - 1 ->
  exists i j cc, gbms_msc_voltage_idx p vbatt = Ret i /\
    gbms_msc_voltage_idx_merge_tiers (Some p) vbatt ti = Ret j /\
    0 <= i <= j /\ j <= volt_nb_limits (limits p) - 1 /\
    (forall k, i <= k <= j -> GBMS_CCCM_LIMITS p ti k = Ret cc) /\
    (i < j -> j <= volt_nb_limits (limits p) - 2) /\
    (j < volt_nb_limits (limits p) - 2 -> GBMS_CCCM_LIMITS p ti (j + 1) <> Ret cc).
Proof.
  intros Hp Hti. pose proof (plain_wf p Hp) as Hw. pose proof (wf_volt_nb _ Hw) as Hvn.
  destruct (voltage_idx_ok p vbatt Hw) as (i0 & i & Hi & (Hr & _) & Hj).
  assert (Hir : 0 <= i <= volt_nb_limits (limits p) - 1).
  { destruct Hj as [[? ?]|(? & v & _ & [[_ ?]|[_ ?]])]; lia. }
  destruct (cccm_in_range p ti i Hp Hti ltac:(lia)) as [cc Hcc].
  unfold gbms_msc_voltage_idx_merge_tiers. rewrite Hi. run.
  rewrite (proj2 (Z.ltb_ge ti 0)), (proj2 (Z.leb_gt (temp_nb_limits (limits p)) ti)) by lia.
  cbn [orb]. rewrite Hcc. run.
  match goal with |- context [scan_up _ _ ?f _] => set (test := f) end.
  destruct (scan_up_spec (Z.to_nat (volt_nb_limits (limits p))) (volt_nb_limits (limits p) - 2)
    test i) as (j & -> & [Hrange Hb Hh]); [lia| |].
  { intros k Hk. destruct (cccm_in_range p ti (k + 1) Hp Hti ltac:(lia)) as [c Hc].
    subst test. cbn beta. rewrite Hc. run. eauto. }
  assert (Hin : forall k, i < k <= j -> GBMS_CCCM_LIMITS p ti k = Ret cc).
  { intros k Hk. specialize (Hb (k - 1) ltac:(lia)). subst test. cbn beta in Hb.
    replace (k - 1 + 1) with k in Hb by lia.
    destruct (cccm_in_range p ti k Hp Hti ltac:(lia)) as [c Hc]. rewrite Hc in *. run_in Hb.
    injection Hb as Hb. apply Z.eqb_eq in Hb. by subst. }
  exists i, j, cc. split_and!; try done; try lia.
  - intros k Hk. destruct (Z.eq_dec k i) as [->|]; [done|apply Hin; lia].
  - intros Hlast Hc. specialize (Hh Hlast). subst test. cbn beta in Hh. rewrite Hc in Hh.
    run_in Hh. by rewrite Z.eqb_refl in Hh.
Qed.

(** The last tier with a current: everything above it is zero. *)
Lemma scan_down_spec test n :
  (forall k, 0 < k <= Z.of_nat n -> exists b, test k = Ret b) ->
  exists i, scan_down test n = Ret i /\ 0 <= i <= Z.of_nat n /\
    (forall k, i < k <= Z.of_nat n -> test k = Ret true) /\ (0 < i -> test i = Ret false).
Proof.
  induction n as [|n IH]; intros Ht.
  { exists 0. split; [done|]. split; [lia|]. split; intros; lia. }
  cbn [scan_down]. destruct (Ht (Z.of_nat (S n))) as [b Hb]; [lia|]. rewrite Hb. run.
  destruct b.
  - destruct IH as (i & -> & Hr & Hz & Hi); [intros k Hk; apply Ht; lia|].
    exists i. split; [done|]. split; [lia|]. split; [|done].
    intros k Hk. destruct (Z.eq_dec k (Z.of_nat (S n))) as [->|]; [done|apply Hz; lia].
  - exists (Z.of_nat (S n)). split; [done|]. split; [lia|]. split; [intros; lia|done].
Qed.

(** [gbms_msc_get_last_voltage_idx] finds the last tier that charges: the index is in
    range, all tiers above it have no current, and it has one unless it is the first. *)
Theorem last_voltage_idx_charges p ti :
  plain_profile p -> 0 <= ti < temp_nb_limits (limits p) - 1 ->
  exists i, gbms_msc_get_last_voltage_idx p ti = Ret i /\
    0 <= i <= volt_nb_limits (limits p) - 1 /\
    (forall k, i < k <= volt_nb_limits (limits p) - 1 -> GBMS_CCCM_LIMITS p ti k = Ret 0) /\
    (0 < i -> GBMS_CCCM_LIMITS p ti i <> Ret 0).
Proof.
  intros Hp Hti. pose proof (wf_volt_nb _ (plain_wf p Hp)).
  unfold gbms_msc_get_last_voltage_idx.
  match goal with |- context [scan_down ?f _] => set (test := f) end.
  assert (Hall : forall k, 0 <= k < volt_nb_limits (limits p) -> exists c,
    GBMS_CCCM_LIMITS p ti k = Ret c /\ test k = Ret (c =? 0)).
  { intros k Hk. destruct (cccm_in_range p ti k Hp Hti Hk) as [c Hc]. exists c.
    split; [done|]. subst test. cbn beta. by rewrite Hc. }
  destruct (scan_down_spec test (Z.to_nat (volt_nb_limits (limits p) - 1)))
    as (i & -> & Hr & Hz & Hi).
  { intros k Hk. destruct (Hall k ltac:(lia)) as (c & _ & ->). eauto. }
  exists i. split; [done|]. split; [lia|]. split.
  - intros k Hk. destruct (Hall k ltac:(lia)) as (c & Hc & Ht). rewrite Hz in Ht by lia.
    injection Ht as Ht. symmetry in Ht. apply Z.eqb_eq in Ht. by subst.
  - intros Hpos Hc. destruct (Hall i ltac:(lia)) as (c & Hc' & Ht). rewrite Hi in Ht by done.
    rewrite Hc in Hc'. by simplify_eq.
Qed.

(** ** Capacity fade *)

(** Reference points: as many cycles as fades, small enough for the products to fit. *)
Record wf_aacr (a : aacr_data) : Prop := {
  aacr_nb : 1 <= aacr_nb_limits a <= GBMS_AACR_DATA_MAX;
  aacr_len_c : length (aacr_reference_cycles a) = Z.to_nat GBMS_AACR_DATA_MAX;
  aacr_len_f : length (aacr_reference_fade10 a) = Z.to_nat GBMS_AACR_DATA_MAX;
  aacr_c : Forall (fun c => 0 <= c < 2 ^ 15) (aacr_reference_cycles a);
  aacr_f : Forall (fun f => 0 <= f < 2 ^ 15) (aacr_reference_fade10 a);
}.

(** The point before number [i]; the origin before the first. *)
Definition point_before (a : aacr_data) (i c f : Z) : Prop :=
  if i =? 0 then c = 0 /\ f = 0
  else at_ (aacr_reference_cycles a) (i - 1) = Ret c /\
       at_ (aacr_reference_fade10 a) (i - 1) = Ret f.

(** Number of the reference point that follows [cycles]. *)
Lemma cycle_idx_ok table nb cycles :
  1 <= nb <= Z.of_nat (length table) ->
  exists i, cycle_idx table nb cycles = Ret i /\ 0 <= i <= nb - 1 /\
    (forall k c, 0 <= k < i -> at_ table k = Ret c -> c <= cycles) /\
    (forall c, i < nb - 1 -> at_ table i = Ret c -> cycles < c).
Proof.
  intros Hnb. unfold cycle_idx.
  destruct (scan_table (Z.to_nat nb) table 0 (nb - 1) (fun c => c <=? cycles))
    as (i & Hi & Hr & Hb & Hh); [lia..|].
  exists i. split.
  { rewrite <- Hi. apply scan_up_ext. intros k. by rewrite Z.add_0_r. }
  split; [lia|]. split.
  - intros k c Hk Hc. apply Z.leb_le, (Hb k); [done|]. by rewrite Z.add_0_r.
  - intros c Hc Hi'. apply Z.leb_gt, Hh; [done|]. by rewrite Z.add_0_r.
Qed.

(** Rounding towards zero keeps an interpolated value between the end points. *)
Lemma quot_between x n d : 0 <= x <= d -> 0 < d -> 0 <= n -> 0 <= cdiv (x * n) d <= n.
Proof.
  intros. rewrite Z.quot_div_nonneg by nia. split; [apply Z.div_pos; nia|].
  apply Z.div_le_upper_bound; nia.
Qed.

(** Reading the point before number [i], as the code does. *)
Lemma point_before_read a i :
  wf_aacr a -> 0 <= i < aacr_nb_limits a ->
  exists cs fs, point_before a i cs fs /\ 0 <= cs < 2 ^ 15 /\ 0 <= fs < 2 ^ 15 /\
    (if 0 <? i then
      let* cycle_s := at_ (aacr_reference_cycles a) (i - 1) in
      let* fade_s := at_ (aacr_reference_fade10 a) (i - 1) in Ret (s32 cycle_s, s32 fade_s)
     else Ret (0, 0)) = Ret (cs, fs).
Proof.
  intros [Hnb Hlc Hlf Hcb Hfb] Hi. unfold GBMS_AACR_DATA_MAX, point_before in *.
  destruct (Z.eqb_spec i 0) as [->|].
  { exists 0, 0. split_and!; try done; lia. }
  destruct (at_Some (aacr_reference_cycles a) (i - 1)) as [cs Hcs]; [lia|].
  destruct (at_Some (aacr_reference_fade10 a) (i - 1)) as [fs Hfs]; [lia|].
  pose proof (at_Forall _ _ _ _ Hcb Hcs). pose proof (at_Forall _ _ _ _ Hfb Hfs). cbv beta in *.
  exists cs, fs. rewrite (proj2 (Z.ltb_lt 0 i)), Hcs, Hfs by lia. run. wrap_small.
  split_and!; try done; lia.
Qed.

(** [gbms_aacr_fade10] interpolates linearly: with increasing reference cycles, the
    fade at [cycles] is on the segment that ends at the first reference point beyond
    [cycles] (the last segment is prolonged), exact at the reference points, and between
    the fades of the two end points. *)
Theorem aacr_fade10_interpolates p cycles :
  wf_aacr (aacr p) -> 0 <= cycles < 2 ^ 15 ->
  (forall i c c' f, 0 <= i < aacr_nb_limits (aacr p) -> point_before (aacr p) i c f ->
     at_ (aacr_reference_cycles (aacr p)) i = Ret c' -> c < c') ->
  exists i cs fs ce fe,
    0 <= i < aacr_nb_limits (aacr p) /\ point_before (aacr p) i cs fs /\
    at_ (aacr_reference_cycles (aacr p)) i = Ret ce /\
    at_ (aacr_reference_fade10 (aacr p)) i = Ret fe /\
    cs <= cycles /\ (i < aacr_nb_limits (aacr p) - 1 -> cycles < ce) /\
    gbms_aacr_fade10 p cycles = Ret (fs + cdiv ((cycles - cs) * (fe - fs)) (ce - cs)) /\
    (fs <= fe -> cycles <= ce -> exists r, gbms_aacr_fade10 p cycles = Ret r /\ fs <= r <= fe).
Proof.
  intros [Hnb Hlc Hlf Hcb Hfb] Hcy Hinc. unfold GBMS_AACR_DATA_MAX in *.
  set (a := aacr p) in *.
  destruct (cycle_idx_ok (aacr_reference_cycles a) (aacr_nb_limits a) cycles)
    as (i & Hi & Hr & Hbefore & Hafter); [lia|].
  destruct (at_Some (aacr_reference_cycles a) i) as [ce Hce]; [lia|].
  destruct (at_Some (aacr_reference_fade10 a) i) as [fe Hfe]; [lia|].
  destruct (point_before_read a i) as (cs & fs & Hpt & Hcsr & Hfsr & Hpair); [by split|lia|].
  assert (Hle : cs <= cycles).
  { unfold point_before in Hpt. destruct (Z.eqb_spec i 0) as [->|]; [lia|].
    destruct Hpt as [Hcs _]. apply (Hbefore (i - 1)); [lia|done]. }
  pose proof (at_Forall _ _ _ _ Hcb Hce). pose proof (at_Forall _ _ _ _ Hfb Hfe). cbv beta in *.
  assert (Hlt : cs < ce) by (apply (Hinc i cs ce fs); [lia|done|done]).
  assert (Hres : gbms_aacr_fade10 p cycles = Ret (fs + cdiv ((cycles - cs) * (fe - fs)) (ce - cs))).
  { unfold gbms_aacr_fade10. fold a.
    rewrite (proj2 (Z.eqb_neq (aacr_nb_limits a) 0)), (proj2 (Z.ltb_ge cycles 0)) by lia. run.
    rewrite Hi. run. rewrite Hce, Hfe. run. rewrite Hpair. run.
    assert (- 2 ^ 30 < (cycles - cs) * (fe - fs) < 2 ^ 30) by nia.
    rewrite (swrap_id 32 ce), (swrap_id 32 fe) by lia.
    rewrite (swrap_id 32 (ce - cs)), (swrap_id 32 (cycles - cs)), (swrap_id 32 (fe - fs)),
      (swrap_id 32 ((cycles - cs) * (fe - fs))) by lia.
    rewrite (proj2 (Z.eqb_neq (ce - cs) 0)) by lia. f_equal.
    assert (Z.abs (cdiv ((cycles - cs) * (fe - fs)) (ce - cs)) <= Z.abs ((cycles - cs) * (fe - fs))).
    { rewrite <- Z.quot_abs by lia. rewrite Z.quot_div_nonneg by lia.
      apply Z.div_le_upper_bound; nia. }
    rewrite swrap_id by lia. lia. }
  exists i, cs, fs, ce, fe. split_and!; try done; try lia.
  - intros Hi'. by apply Hafter.
  - intros Hf Hc. eexists. split; [exact Hres|].
    pose proof (quot_between (cycles - cs) (fe - fs) (ce - cs)). lia.
Qed.

(** ** Charging voltage *)

(** The cap that [gbms_msc_round_fv_uv] applies, where its unsigned arithmetic does not
    wrap around: the margin of the tier voltage, or for direct charging the tier voltage
    raised by the drop over the cable, below the last tier unless higher is allowed. *)
Definition fv_cap (p : gbms_chg_profile) (last vtier cc_ua : Z) (allow_higher_fv : bool) : Z :=
  let b := behavior p in
  let dc := vtier + cc_ua / 1000 * fv_dc_ratio b in
  if cc_ua =? 0 then vtier / 1000 * fv_uv_margin_dpct b
  else if negb allow_higher_fv && (last <=? dc) then last - fv_uv_resolution b
  else dc.

Lemma round_nearest r x : 0 < r ->
  ((x + r / 2) - (x + r / 2) mod r) mod r = 0 /\
  Z.abs ((x + r / 2) - (x + r / 2) mod r - x) <= r / 2.
Proof.
  intros Hr. pose proof (Z.div_mod (x + r / 2) r ltac:(lia)) as Hd.
  pose proof (Z.mod_pos_bound (x + r / 2) r Hr).
  replace (x + r / 2 - (x + r / 2) mod r) with ((x + r / 2) / r * r) by lia.
  split; [apply Z.mod_mul; lia|]. pose proof (Z.div_mod r 2 ltac:(lia)).
  pose proof (Z.mod_pos_bound r 2 ltac:(lia)). lia.
Qed.

(** [gbms_msc_round_fv_uv] returns the multiple of the voltage resolution nearest to
    the capped voltage: a multiple of the resolution, within half a resolution of the
    smaller of the requested voltage and the cap. *)
Theorem round_fv_uv_nearest p last vtier fv_uv cc_ua allow :
  let r := fv_uv_resolution (behavior p) in
  let cap := fv_cap p last vtier cc_ua allow in
  at_ (volt_limits (limits p)) (volt_nb_limits (limits p) - 1) = Ret last ->
  0 < r < 2 ^ 30 -> 0 <= vtier < 2 ^ 30 -> 0 <= fv_uv < 2 ^ 30 -> 0 <= cc_ua ->
  r <= last < 2 ^ 30 -> 0 <= fv_uv_margin_dpct (behavior p) -> 0 <= fv_dc_ratio (behavior p) ->
  0 < cap < 2 ^ 30 ->
  vtier + cc_ua / 1000 * fv_dc_ratio (behavior p) < 2 ^ 32 ->
  vtier / 1000 * fv_uv_margin_dpct (behavior p) < 2 ^ 32 ->
  exists v, gbms_msc_round_fv_uv p vtier fv_uv cc_ua allow = Ret v /\
    v mod r = 0 /\ Z.abs (v - Z.min fv_uv cap) <= r / 2.
Proof.
  intros r cap Hlast Hr Hvt Hfv Hcc Hl Hm Hdc Hcap Hw1 Hw2.
  unfold gbms_msc_round_fv_uv. rewrite Hlast. run. fold r.
  rewrite !Z.quot_div_nonneg by lia.
  assert (0 <= cc_ua / 1000) by (apply Z.div_pos; lia).
  assert (0 <= vtier / 1000) by (apply Z.div_pos; lia).
  rewrite (wrap_id 32 (vtier / 1000 * _)), (wrap_id 32 (vtier + _)), (wrap_id 32 last),
    (wrap_id 32 (last - r)) by nia.
  change (if cc_ua =? 0 then _ else _) with cap.
  rewrite (wrap_id 32 fv_uv) by lia.
  assert (Hmin : (if negb (cap =? 0) && (cap <? fv_uv) then s32 cap else fv_uv) = Z.min fv_uv cap).
  { rewrite (proj2 (Z.eqb_neq cap 0)) by lia. run. rewrite swrap_id by lia. case_test; lia. }
  rewrite Hmin. set (x := Z.min fv_uv cap).
  assert (0 <= r / 2 <= r) by (split; [apply Z.div_pos|apply Z.div_le_upper_bound]; lia).
  rewrite (wrap_id 32 (x + r / 2)), (swrap_id 32 (x + r / 2)) by lia.
  rewrite (wrap_id 32 (x + r / 2)) by lia.
  pose proof (Z.mod_pos_bound (x + r / 2) r ltac:(lia)).
  pose proof (Z.mod_le (x + r / 2) r ltac:(lia) ltac:(lia)).
  rewrite (proj2 (Z.eqb_neq r 0)) by lia.
  rewrite (wrap_id 32), (swrap_id 32) by lia. eexists. split; [done|].
  apply round_nearest. lia.
Qed.

(** ** Witnesses and counterexamples *)

Module DemoProfile.
Definition pad (n : nat) (l : list Z) : list Z := l ++ replicate (n - length l) 0.

Definition lims : chg_limits :=
  mk_limits 3 (pad 10 [0; 100; 450]) 3 (pad 10 [4200000; 4300000; 4400000]) 0 (pad 10 [])
    (Some [2000000; 2000000; 1000000; 4000000; 3000000; 0]) 4500 4400000.

Definition prof : gbms_chg_profile :=
  mk_profile "demo" lims (mk_behavior 1020 20 12500 3 2000 10 3 25000 0 25000 false)
    (mk_aacr (pad 10 [400; 800; 1200]) (pad 10 [50; 120; 200]) 3)
    (mk_aafv (pad 16 []) (pad 16 []) 0)
    (mk_aact 0 (pad 10 []) 0 (pad 10 []) 0 (pad 5 []) 0 false false false false None)
    (mk_aacc 0 (pad 10 []) None) (mk_aacc 0 (pad 10 []) None).

Lemma prof_plain : plain_profile prof.
Proof.
  split; [|by vm_compute|reflexivity].
  split; [by vm_compute|reflexivity|by vm_compute|reflexivity|]. eexists. split; reflexivity.
Qed.

Lemma prof_spaced : spaced prof 75000.
Proof.
  intros k a b Hk Ha Hb. cbn in Hk. assert (k = 0 \/ k = 1) as [->| ->] by lia;
    injection Ha as <-; injection Hb as <-; lia.
Qed.

Lemma prof_aacr : wf_aacr (aacr prof).
Proof. split; first [by vm_compute|reflexivity|repeat constructor; lia]. Qed.

Lemma prof_cycles i c c' f :
  0 <= i < 3 -> point_before (aacr prof) i c f ->
  at_ (aacr_reference_cycles (aacr prof)) i = Ret c' -> c < c'.
Proof.
  intros Hi Hp Hc. assert (i = 0 \/ i = 1 \/ i = 2) as [->|[->| ->]] by lia; vm_compute in Hp, Hc;
    destruct Hp as [Hp _]; simplify_eq; by vm_compute.
Qed.
End DemoProfile.

Lemma msc_temp_idx_selects_row_witness :
  exists i, gbms_msc_temp_idx DemoProfile.prof 250 = Ret i /\ 0 <= i <= 1 /\
    (forall vi, 0 <= vi < 3 -> exists cc, GBMS_CCCM_LIMITS DemoProfile.prof i vi = Ret cc) /\
    (forall lo hi a b, at_ (temp_limits DemoProfile.lims) 0 = Ret lo ->
       at_ (temp_limits DemoProfile.lims) 2 = Ret hi ->
       at_ (temp_limits DemoProfile.lims) i = Ret a ->
       at_ (temp_limits DemoProfile.lims) (i + 1) = Ret b -> lo <= 250 < hi -> a <= 250 < b).
Proof. apply (msc_temp_idx_selects_row DemoProfile.prof 250). exact DemoProfile.prof_plain. Defined.

Lemma msc_voltage_idx_lowest_with_headroom_witness :
  exists j, gbms_msc_voltage_idx DemoProfile.prof 4150000 = Ret j /\ 0 <= j <= 2 /\
    (forall v, j < 2 -> at_ (volt_limits DemoProfile.lims) j = Ret v -> 75000 <= v - 4150000) /\
    (forall k v, 0 <= k < j -> at_ (volt_limits DemoProfile.lims) k = Ret v ->
       v - 4150000 < 75000).
Proof.
  apply (msc_voltage_idx_lowest_with_headroom DemoProfile.prof 4150000);
    [exact DemoProfile.prof_plain|repeat constructor; lia|lia|cbn; lia|exact DemoProfile.prof_spaced].
Defined.

Lemma merge_tiers_same_current_witness :
  exists i j cc, gbms_msc_voltage_idx DemoProfile.prof 4000000 = Ret i /\
    gbms_msc_voltage_idx_merge_tiers (Some DemoProfile.prof) 4000000 0 = Ret j /\
    0 <= i <= j /\ j <= 2 /\
    (forall k, i <= k <= j -> GBMS_CCCM_LIMITS DemoProfile.prof 0 k = Ret cc) /\
    (i < j -> j <= 1) /\ (j < 1 -> GBMS_CCCM_LIMITS DemoProfile.prof 0 (j + 1) <> Ret cc).
Proof.
  apply (merge_tiers_same_current DemoProfile.prof 4000000 0);
    [exact DemoProfile.prof_plain|cbn; lia].
Defined.

Lemma last_voltage_idx_charges_witness :
  exists i, gbms_msc_get_last_voltage_idx DemoProfile.prof 1 = Ret i /\ 0 <= i <= 2 /\
    (forall k, i < k <= 2 -> GBMS_CCCM_LIMITS DemoProfile.prof 1 k = Ret 0) /\
    (0 < i -> GBMS_CCCM_LIMITS DemoProfile.prof 1 i <> Ret 0).
Proof.
  apply (last_voltage_idx_charges DemoProfile.prof 1); [exact DemoProfile.prof_plain|cbn; lia].
Defined.

Lemma aacr_fade10_interpolates_witness :
  exists i cs fs ce fe,
    0 <= i < 3 /\ point_before (aacr DemoProfile.prof) i cs fs /\
    at_ (aacr_reference_cycles (aacr DemoProfile.prof)) i = Ret ce /\
    at_ (aacr_reference_fade10 (aacr DemoProfile.prof)) i = Ret fe /\
    cs <= 600 /\ (i < 2 -> 600 < ce) /\
    gbms_aacr_fade10 DemoProfile.prof 600 = Ret (fs + cdiv ((600 - cs) * (fe - fs)) (ce - cs)) /\
    (fs <= fe -> 600 <= ce -> exists r, gbms_aacr_fade10 DemoProfile.prof 600 = Ret r /\ fs <= r <= fe).
Proof.
  apply (aacr_fade10_interpolates DemoProfile.prof 600);
    [exact DemoProfile.prof_aacr|lia|exact DemoProfile.prof_cycles].
Defined.

Lemma round_fv_uv_nearest_witness :
  exists v, gbms_msc_round_fv_uv DemoProfile.prof 4300000 4320000 0 false = Ret v /\
    v mod 25000 = 0 /\
    Z.abs (v - Z.min 4320000 (fv_cap DemoProfile.prof 4400000 4300000 0 false)) <= 25000 / 2.
Proof.
  apply (round_fv_uv_nearest DemoProfile.prof 4400000 4300000 4320000 0 false);
    [reflexivity|by vm_compute..].
Defined.

(** The cap on the charging voltage is applied before rounding: with the default
    margin (102 %) and resolution, a request over the cap of a 4.4 V tier is cut to
    4.488 V and then rounded up to 4.5 V. *)
Theorem round_fv_uv_exceeds_cap :
  fv_cap DemoProfile.prof 4400000 4400000 0 false = 4488000 /\
  gbms_msc_round_fv_uv DemoProfile.prof 4400000 4600000 0 false = Ret 4500000.
Proof. split; vm_compute; reflexivity. Qed.
