(* ===== verification/GbmsTables.v ===== *)
(** Reading charge profiles from the device tree and scaling the charge table
    (bms/google_bms.c): profiles that are read are well formed, and the table holds the
    currents that the C rates ask for. *)

From S2P Require Import Prelude GbmsProfile GbmsLookup.

(** ** Scaling a table in place *)

(** The table with [f] applied to the cells [k], ..., [k + n - 1]. *)
Definition map_range (f : Z -> Z) (k n : nat) (c : list Z) : list Z :=
  imap (fun i x => if decide (k <= i < k + n)%nat then f x else x) c.

Lemma lookup_map_range f k n c i :
  map_range f k n c !! i =
  (fun x => if decide (k <= i < k + n)%nat then f x else x) <$> c !! i.
Proof. apply list_lookup_imap. Qed.

Lemma length_map_range f k n c : length (map_range f k n c) = length c.
Proof. apply length_imap. Qed.

Lemma map_range_nil f k c : map_range f k 0 c = c.
Proof.
  apply list_eq. intros i. rewrite lookup_map_range.
  destruct (c !! i); simpl; [|done]. by rewrite decide_False by lia.
Qed.

Lemma map_range_app f k n m c :
  map_range f (k + n) m (map_range f k n c) = map_range f k (n + m) c.
Proof.
  apply list_eq. intros i. rewrite !lookup_map_range. destruct (c !! i); simpl; [|done].
  f_equal. repeat case_decide; try done; lia.
Qed.

Lemma map_range_insert f k c x : c !! k = Some x -> <[k := f x]> c = map_range f k 1 c.
Proof.
  intros Hx. apply list_eq. intros i. rewrite lookup_map_range.
  destruct (decide (i = k)) as [->|Hne].
  - rewrite list_lookup_insert_eq by (by eapply lookup_lt_Some). rewrite Hx. simpl.
    by rewrite decide_True by lia.
  - rewrite list_lookup_insert_ne by done. destruct (c !! i); simpl; [|done].
    by rewrite decide_False by lia.
Qed.

Lemma map_range_all f c : map_range f 0 (length c) c = f <$> c.
Proof.
  apply list_eq. intros i. rewrite lookup_map_range, list_lookup_fmap.
  destruct (c !! i) eqn:E; simpl; [|done].
  rewrite decide_True; [done|]. apply lookup_lt_Some in E. lia.
Qed.

Lemma init_row_spec f vn ti vi n c :
  0 <= ti * vn + vi -> ti * vn + vi + Z.of_nat n <= Z.of_nat (length c) ->
  init_row f vn ti vi n c = Ret (map_range f (Z.to_nat (ti * vn + vi)) n c).
Proof.
  revert vi c. induction n as [|n IH]; intros vi c Hk Hlen; cbn [init_row].
  { by rewrite map_range_nil. }
  destruct (at_Some c (ti * vn + vi)) as [x Hx]; [lia|]. rewrite Hx. run.
  apply at_lookup in Hx as [_ Hx]. rewrite (map_range_insert f _ c x Hx).
  rewrite IH by (rewrite ?length_map_range; lia). f_equal.
  replace (Z.to_nat (ti * vn + (vi + 1))) with (Z.to_nat (ti * vn + vi) + 1)%nat by lia.
  by rewrite map_range_app.
Qed.

Lemma init_rows_spec f vn ti n c :
  0 <= ti -> 0 <= vn -> (ti + Z.of_nat n) * vn <= Z.of_nat (length c) ->
  init_rows f vn ti n c = Ret (map_range f (Z.to_nat (ti * vn)) (n * Z.to_nat vn) c).
Proof.
  revert ti c. induction n as [|n IH]; intros ti c Hti Hvn Hlen; cbn [init_rows].
  { by rewrite map_range_nil. }
  rewrite init_row_spec by nia. run. rewrite IH by (rewrite ?length_map_range; nia). f_equal.
  replace (Z.to_nat (ti * vn + 0)) with (Z.to_nat (ti * vn)) by lia.
  replace (Z.to_nat ((ti + 1) * vn)) with (Z.to_nat (ti * vn) + Z.to_nat vn)%nat by nia.
  rewrite map_range_app. by f_equal.
Qed.

(** A cell that does not overflow is the multiple of the step nearest to the exact
    current. *)
Lemma cell_current_nearest step cap ccm :
  0 < step < 2 ^ 31 -> 0 <= ccm -> 0 <= cap * 10 < 2 ^ 32 ->
  ccm * (cap * 10) + step / 2 < 2 ^ 32 ->
  cell_current step cap ccm mod step = 0 /\
  Z.abs (cell_current step cap ccm - ccm * (cap * 10)) <= step / 2.
Proof.
  intros Hs Hc Hcap Hov. unfold cell_current.
  assert (0 <= step / 2) by (apply Z.div_pos; lia).
  rewrite Z.quot_div_nonneg by lia. rewrite (wrap_id 32 (cap * 10)) by lia.
  assert (0 <= ccm * (cap * 10)) by nia.
  rewrite (wrap_id 32 (ccm * (cap * 10))), (wrap_id 32 (step / 2)), (wrap_id 32 step) by lia.
  rewrite (proj2 (Z.eqb_neq step 0)) by lia. set (x := ccm * (cap * 10)) in *.
  rewrite (wrap_id 32 (x + step / 2)) by lia.
  pose proof (Z.mul_div_le (x + step / 2) step ltac:(lia)).
  rewrite wrap_id by (split; [apply Z.mul_nonneg_nonneg; [apply Z.div_pos|]|]; lia).
  destruct (round_nearest step x ltac:(lia)) as [Hm Ha].
  replace ((x + step / 2) / step * step) with (x + step / 2 - (x + step / 2) mod step);
    [done|]. rewrite Z.mod_eq by lia. lia.
Qed.

(** ** Reading *)

Section reading.
Context `{!DeviceTree} `{!DeviceTreeLaws}.

(** A status is 0 or a negative error. *)
Definition status (r : Z) : Prop := r = 0 \/ r < 0.

Lemma fill_ok dst src :
  (length src <= length dst)%nat ->
  exists a, fill dst src = Ret a /\ length a = length dst.
Proof.
  intros Hl. unfold fill. rewrite (proj2 (Nat.ltb_ge _ _)) by lia.
  eexists. split; [done|]. rewrite length_app, length_drop. lia.
Qed.

Lemma read_s32_ok node name n dst :
  n <= Z.of_nat (length dst) ->
  exists r a, read_s32 node name n dst = Ret (r, a) /\ status r /\ length a = length dst.
Proof.
  intros Hn. unfold read_s32.
  destruct (of_property_read_u32_array node name n) as [e|l] eqn:E.
  - exists e, dst. split; [done|]. split; [right; by eapply read_error|done].
  - apply read_length in E.
    destruct (fill_ok dst ((fun x => s32 x) <$> l)) as (a & -> & Ha).
    { rewrite length_fmap. lia. }
    run. exists 0, a. split; [done|]. by split; [left|].
Qed.

Lemma read_u32_ok node name n dst :
  n <= Z.of_nat (length dst) ->
  exists r a, read_u32 node name n dst = Ret (r, a) /\ status r /\ length a = length dst.
Proof.
  intros Hn. unfold read_u32.
  destruct (of_property_read_u32_array node name n) as [e|l] eqn:E.
  - exists e, dst. split; [done|]. split; [right; by eapply read_error|done].
  - apply read_length in E. destruct (fill_ok dst l) as (a & -> & Ha); [lia|].
    run. exists 0, a. split; [done|]. by split; [left|].
Qed.

Lemma read_s32_id_ok node name n dst :
  n <= Z.of_nat (length dst) ->
  exists r a, read_s32_id node name n dst = Ret (r, a) /\ status r /\ length a = length dst.
Proof.
  intros Hn. unfold read_s32_id.
  destruct (read_s32_ok (gbms_batt_id_node node) name n dst Hn) as (r & a & -> & Hr & Ha). run.
  case_test; [|by exists r, a].
  destruct (read_s32_ok node name n a) as (r' & a' & -> & Hr' & Ha'); [lia|].
  exists r', a'. split_and!; [done|done|congruence].
Qed.

(** The arrays of the profile have the sizes of the struct. *)
Definition sized (l : chg_limits) : Prop :=
  length (temp_limits l) = 10%nat /\ length (volt_limits l) = 10%nat.

(** Both numbers of limits are in range. *)
Definition counted (l : chg_limits) : Prop :=
  1 <= temp_nb_limits l <= 10 /\ 1 <= volt_nb_limits l <= 10.

(** Closes an exit of [gbms_read_cccm_limits]. *)
Ltac leaf :=
  eexists _, _; split; [reflexivity|]; split; [unfold status, EINVAL; lia|];
  split; [split; cbn; congruence|];
  split; [first [intros _; split; cbn; lia|unfold EINVAL; lia]|reflexivity].

Lemma read_cccm_limits_ok p node :
  sized (limits p) ->
  exists r p', gbms_read_cccm_limits p node = Ret (r, p') /\ status r /\
    sized (limits p') /\ (r = 0 -> counted (limits p')) /\ aact p' = aact p.
Proof.
  intros [Ht Hv]. unfold gbms_read_cccm_limits, GBMS_CHG_TEMP_NB_LIMITS_MAX,
    GBMS_CHG_VOLT_NB_LIMITS_MAX, GBMS_CHG_TOPOFF_NB_LIMITS_MAX. cbv zeta.
  set (tn := of_property_count_elems node _).
  destruct (Z.leb_spec tn 0); [leaf|]. destruct (Z.ltb_spec 10 tn); [leaf|].
  cbn [with_temp with_volt temp_limits volt_limits].
  destruct (read_s32_ok node "google,chg-temp-limits" tn (temp_limits (limits p)))
    as (r1 & a1 & -> & Hr1 & Ha1); [lia|]. run.
  destruct (Z.ltb_spec r1 0); [leaf|]. set (vn := count_id node _).
  destruct (Z.leb_spec vn 0); [leaf|]. destruct (Z.ltb_spec 10 vn); [leaf|].
  destruct (read_s32_id_ok node "google,chg-cv-limits" vn (volt_limits (limits p)))
    as (r2 & a2 & -> & Hr2 & Ha2); [lia|]. run.
  destruct (Z.ltb_spec r2 0); [leaf|]. set (on := of_property_count_elems node _).
  destruct (Z.leb_spec on 0); [leaf|]. destruct (Z.ltb_spec 10 on); [leaf|].
  destruct (read_s32_ok node "google,chg-topoff-limits" on (replicate (Z.to_nat 10) 0))
    as (r3 & a3 & -> & Hr3 & Ha3); [rewrite length_replicate; lia|]. run.
  destruct (Z.ltb_spec r3 0); leaf.
Qed.

Lemma u32_s32 x : 0 <= x < 2 ^ 32 -> u32 (s32 x) = x.
Proof.
  intros Hx. unfold swrap, wrap.
  rewrite Zminus_mod_idemp_l. replace (x + 2 ^ (32 - 1) - 2 ^ (32 - 1)) with x by lia.
  by apply Z.mod_small.
Qed.

(** The voltages become multiples of the resolution. *)
Lemma round_volts_ok res n l :
  0 < res < 2 ^ 32 -> (n <= length l)%nat ->
  exists l', round_volts res n l = Ret l' /\ length l' = length l /\
    (forall i v, (i < n)%nat -> l' !! i = Some v -> u32 v mod res = 0).
Proof.
  intros Hr. revert l. induction n as [|n IH]; intros l Hn.
  { exists l. by split_and!; [..|lia]. }
  destruct l as [|v l]; simpl in Hn; [lia|].
  destruct (IH l) as (l' & Hl & Hlen & Hmul); [lia|]. cbn [round_volts]. unfold round_volt.
  rewrite (proj2 (Z.eqb_neq res 0)) by lia. run. rewrite Hl. run.
  eexists. split; [done|]. split; [simpl; lia|]. intros [|i] w Hi Hw; simpl in Hw.
  - simplify_eq. pose proof (wrap_range 32 v ltac:(lia)) as Hwr.
    assert (0 <= u32 v / res * res <= u32 v).
    { pose proof (Z.div_pos (u32 v) res ltac:(lia) ltac:(lia)).
      pose proof (Z.mul_div_le (u32 v) res ltac:(lia)). lia. }
    rewrite (wrap_id 32 (u32 v / res * res)), u32_s32 by lia. apply Z.mod_mul. lia.
  - apply (Hmul i); [lia|done].
Qed.

Lemma u32_or_range node name d : 0 <= d < 2 ^ 32 -> 0 <= u32_or node name d < 2 ^ 32.
Proof.
  intros Hd. unfold u32_or. destruct (of_property_read_u32 node name) eqn:E; [done|].
  by eapply read_u32_range.
Qed.

Lemma round_volts_zero n l : (0 < n <= length l)%nat -> round_volts 0 n l = Undef.
Proof. intros Hn. destruct n as [|n], l as [|v l]; simpl in *; [lia..|done]. Qed.

(** C8. [gbms_init_chg_profile_internal] builds well-formed profiles.  Whatever the device
    tree holds (short, long or missing properties, no memory) the call ends in one of three
    ways, and never accesses memory out of range: it fails with a negative error; or it
    divides by zero, exactly when it reads its tables without an error and the tree has a
    zero [google,fv-uv-resolution], which the code does not check; or it succeeds with a
    resolution that is not zero, and the numbers of limits are within the arrays, the
    charge table has a cell per temperature range and tier, and the tier voltages are
    multiples of the resolution. *)
Theorem init_chg_profile_wf alloc p node owner :
  sized (limits p) ->
  let resolution := u32_or node "google,fv-uv-resolution" GBMS_DEFAULT_FV_UV_RESOLUTION in
  (exists r p', gbms_init_chg_profile_internal alloc p node owner = Ret (r, p') /\ r < 0) \/
  (resolution = 0 /\ gbms_init_chg_profile_internal alloc p node owner = Undef) \/
  (resolution <> 0 /\
   exists p', gbms_init_chg_profile_internal alloc p node owner = Ret (0, p') /\
     wf_limits (limits p') /\ fv_uv_resolution (behavior p') = resolution /\
     (forall i v, 0 <= i < volt_nb_limits (limits p') -> at_ (volt_limits (limits p')) i = Ret v ->
        u32 v mod resolution = 0) /\
     aact_init_profile (aact p') = false).
Proof.
  intros Hs. unfold gbms_init_chg_profile_internal.
  destruct (read_cccm_limits_ok (with_owner owner p) node Hs)
    as (r & p1 & -> & Hr & [Ht1 Hv1] & Hc & _). run.
  destruct (Z.ltb_spec r 0); [left; by eexists _, _|].
  destruct (Hc ltac:(destruct Hr; lia)) as [Htn Hvn].
  destruct alloc; cbn [negb]; [|left; by eexists _, _].
  set (size := u32 _).
  assert (Hsize : size = (temp_nb_limits (limits p1) - 1) * volt_nb_limits (limits p1)).
  { unfold size. apply wrap_id. nia. }
  destruct (read_u32_ok node "google,chg-cc-limits" size (replicate (Z.to_nat size) 0))
    as (r2 & c & -> & Hr2 & Hlc); [rewrite length_replicate; lia|]. run.
  destruct (Z.ltb_spec r2 0); [left; by eexists _, _|]. right.
  pose proof (u32_or_range node "google,fv-uv-resolution" GBMS_DEFAULT_FV_UV_RESOLUTION
                ltac:(by vm_compute)) as Hrange.
  change (fv_uv_resolution (read_behavior node))
    with (u32_or node "google,fv-uv-resolution" GBMS_DEFAULT_FV_UV_RESOLUTION) in *.
  set (res := u32_or node _ _) in *. cbn [with_cccm volt_nb_limits volt_limits]. cbv zeta.
  destruct (Z.eq_dec res 0) as [Hz|Hnz].
  { left. split; [done|]. by rewrite Hz, round_volts_zero by lia. }
  right. split; [done|].
  destruct (round_volts_ok res (Z.to_nat (volt_nb_limits (limits p1))) (volt_limits (limits p1)))
    as (volts & -> & Hlv & Hmul); [lia..|]. run.
  destruct (at_Some volts (volt_nb_limits (limits p1) - 1)) as [last Hlast]; [lia|].
  rewrite Hlast. run. eexists. split; [done|]. split; [|split; [done|split; [|done]]].
  - split; unfold GBMS_CHG_TEMP_NB_LIMITS_MAX, GBMS_CHG_VOLT_NB_LIMITS_MAX; cbn; [lia..|].
    exists c. split; [done|]. rewrite Hlc, length_replicate, Hsize. rewrite Z2Nat.id by nia. done.
  - cbn. intros i v Hi Hv. apply at_lookup in Hv as [? Hv]. apply (Hmul (Z.to_nat i)); [lia|done].
Qed.

(** C9. [gbms_init_chg_table] scales the whole table: with the C rates [cells] in the
    device tree, cell [i] becomes the current of rate [i] for the capacity, rounded to
    the nearest multiple of the current resolution when the product fits 32 bits; nothing
    else of the table changes. *)
Theorem init_chg_table_scales p node cap cells :
  wf_limits (limits p) -> aact_init_profile (aact p) = false ->
  of_property_read_u32_array node "google,chg-cc-limits"
    ((temp_nb_limits (limits p) - 1) * volt_nb_limits (limits p)) = inr cells ->
  exists p', gbms_init_chg_table p node cap = Ret p' /\
    cccm_limits (limits p') =
      Some (cell_current (s32 (cc_ua_resolution (behavior p))) cap <$> cells) /\
    temp_limits (limits p') = temp_limits (limits p) /\
    volt_limits (limits p') = volt_limits (limits p) /\
    wf_limits (limits p') /\
    (forall step ccm, step = cc_ua_resolution (behavior p) -> ccm ∈ cells ->
       0 < step < 2 ^ 31 -> 0 <= ccm -> 0 <= cap * 10 < 2 ^ 32 ->
       ccm * (cap * 10) + step / 2 < 2 ^ 32 ->
       cell_current (s32 step) cap ccm mod step = 0 /\
       Z.abs (cell_current (s32 step) cap ccm - ccm * (cap * 10)) <= step / 2).
Proof.
  intros Hw Ha Hcells. pose proof Hw as [Htn Htl Hvn Hvl (c & Hc & Hlen)].
  unfold GBMS_CHG_TEMP_NB_LIMITS_MAX, GBMS_CHG_VOLT_NB_LIMITS_MAX in *.
  pose proof (read_length _ _ _ _ Hcells) as Hlc.
  unfold gbms_init_chg_table. rewrite Ha.
  cbn [with_capacity cccm_limits temp_nb_limits volt_nb_limits andb negb]. rewrite Hc. run.
  unfold read_u32. rewrite (wrap_id 32) by nia. rewrite Hcells.
  unfold fill. rewrite (proj2 (Nat.ltb_ge _ _)) by lia. run.
  rewrite drop_ge, app_nil_r by lia.
  rewrite init_rows_spec by nia. run. eexists. split; [done|].
  cbn [with_limits limits with_cccm with_capacity cccm_limits temp_limits volt_limits
       temp_nb_limits volt_nb_limits].
  replace (Z.to_nat (0 * volt_nb_limits (limits p))) with 0%nat by lia.
  replace (Z.to_nat (temp_nb_limits (limits p) - 1) * Z.to_nat (volt_nb_limits (limits p)))%nat
    with (length cells) by nia.
  rewrite map_range_all. split_and!; try done.
  - split; cbn; try done. eexists. split; [done|]. rewrite length_fmap. lia.
  - intros step ccm -> _ Hs Hcc Hcap Hov. rewrite (swrap_id 32 (cc_ua_resolution _)) by lia.
    by apply cell_current_nearest.
Qed.

End reading.

(** ** Witnesses and counterexamples *)

(** A device tree with the default tables, and no age-adjusted currents. *)
Module DemoTree.
Definition props (name : string) : option (list Z) :=
  if String.eqb name "google,chg-temp-limits" then Some [0; 100; 450]
  else if String.eqb name "google,chg-cv-limits" then Some [4200000; 4300000; 4400000]
  else if String.eqb name "google,chg-cc-limits" then Some [30; 30; 20; 90; 70; 0]
  else if String.eqb name "google,chg-aact-ecc" then Some [0; 300]
  else if String.eqb name "google,aact-temp-limits" then Some [0; 100; 450]
  else if String.eqb name "google,aact-cv-limits" then Some [4200000; 4300000; 4400000]
  else None.

#[export] Instance tree : DeviceTree := {|
  of_property_count_elems _ name :=
    match props name with Some l => Z.of_nat (length l) | None => - EINVAL end;
  of_property_read_u32_array _ name n :=
    match props name with
    | Some l => if Z.of_nat (length l) =? n then inr l else inl (- EINVAL)
    | None => inl (- EINVAL)
    end;
  of_property_read_u32 _ _ := inl (- EINVAL);
  of_property_read_bool _ _ := false;
  of_children _ := [];
  gbms_storage_read_brid _ := inr 7;
|}.

#[export] Instance tree_laws : DeviceTreeLaws.
Proof.
  split; simpl.
  - intros _ name n l. destruct (props name) as [l'|]; [|done].
    case_test; intros Heq; [|done]. by injection Heq as <-.
  - intros _ name n e. destruct (props name) as [l'|]; [case_test|]; intros Heq;
      injection Heq as <- || discriminate Heq; done.
  - done.
Qed.
End DemoTree.
Import DemoTree.

Lemma init_chg_profile_wf_witness :
  exists p', gbms_init_chg_profile_internal true DemoProfile.prof 1 "google_battery" = Ret (0, p') /\
    wf_limits (limits p') /\ fv_uv_resolution (behavior p') = 25000.
Proof.
  destruct (init_chg_profile_wf true DemoProfile.prof 1 "google_battery")
    as [(r & p' & E & Hr)|[[Hz _]|(_ & p' & E & Hw & Hres & _)]]; [by split|..].
  - vm_compute in E. injection E as <- _. done.
  - discriminate Hz.
  - by exists p'.
Defined.

Lemma init_chg_table_scales_witness :
  exists p', gbms_init_chg_table DemoProfile.prof 1 4500 = Ret p' /\
    cccm_limits (limits p') = Some (cell_current (s32 25000) 4500 <$> [30; 30; 20; 90; 70; 0]) /\
    temp_limits (limits p') = temp_limits DemoProfile.lims /\
    volt_limits (limits p') = volt_limits DemoProfile.lims /\
    wf_limits (limits p') /\
    (forall step ccm, step = 25000 -> ccm ∈ [30; 30; 20; 90; 70; 0] ->
       0 < step < 2 ^ 31 -> 0 <= ccm -> 0 <= 4500 * 10 < 2 ^ 32 ->
       ccm * (4500 * 10) + step / 2 < 2 ^ 32 ->
       cell_current (s32 step) 4500 ccm mod step = 0 /\
       Z.abs (cell_current (s32 step) 4500 ccm - ccm * (4500 * 10)) <= step / 2).
Proof.
  apply (init_chg_table_scales DemoProfile.prof 1 4500 [30; 30; 20; 90; 70; 0]);
    [apply DemoProfile.prof_plain|reflexivity|reflexivity].
Defined.

(** When the age-adjusted table cannot be read, [gbms_init_aact_profile_internal] frees
    the table of the charge profile instead of the one it allocated: after the error the
    profile that was in use has no currents, and every lookup is undefined. *)
Theorem init_aact_failure_drops_table :
  plain_profile DemoProfile.prof /\
  exists p', gbms_init_aact_profile_internal true DemoProfile.prof 1 "google_battery"
      = Ret (- EINVAL, p') /\
    is_Some (aact_cccm_limits (aact p')) /\
    forall ti vi, 0 <= ti -> 0 <= vi -> GBMS_CCCM_LIMITS p' ti vi = Undef.
Proof.
  split; [exact DemoProfile.prof_plain|].
  eexists. split; [vm_compute; reflexivity|]. split; [by eexists|].
  intros ti vi Ht Hv. unfold GBMS_CCCM_LIMITS.
  by rewrite (proj2 (Z.leb_le 0 ti)), (proj2 (Z.leb_le 0 vi)) by lia.
Qed.
