(* ===== verification/GbmsCharge.v ===== *)
(** Charger state, charge statistics and their text forms (bms/google_bms.c,
    bms/google_bms.h, bms/google_psy.h).

    Power supplies are driven through [gbms_desc] handlers that other drivers provide;
    here they act on an abstract device state.  Text is a list of character codes. *)

From S2P Require Import Prelude GbmsProfile.

(** ** Names *)

(** The kernel's charge types; the value of TAPER_EXT is given by its headers. *)
Definition POWER_SUPPLY_STATUS_UNKNOWN : Z := 0.
Definition POWER_SUPPLY_STATUS_DISCHARGING : Z := 2.
Definition POWER_SUPPLY_STATUS_FULL : Z := 4.
Definition POWER_SUPPLY_CHARGE_TYPE_FAST : Z := 3.

Class PowerSupplyTypes := POWER_SUPPLY_CHARGE_TYPE_TAPER_EXT : Z.

Definition psy_chgs_str : list string :=
  ["Unknown"; "Charging"; "Discharging"; "Not Charging"; "Full"]%string.

(** [table[i]] guarded as in the code: an index is refused when it exceeds the size. *)
Definition guarded_name (table : list string) (i : Z) : outcome string :=
  if (i <? 0) || (Z.of_nat (length table) <? i) then Ret "<err>"%string
  else must (table !! Z.to_nat i).

Definition gbms_chg_status_s (chg_status : Z) : outcome string :=
  guarded_name psy_chgs_str chg_status.

Definition chg_ev_adapter_type_str : list string :=
  ["UNKNOWN"; "USB"; "USB_SDP"; "USB_DCP"; "USB_CDP"; "USB_ACA"; "USB_C"; "USB_PD";
   "USB_PD_DRP"; "USB_PD_PPS"; "USB_BRICKID"; "USB_HVDCP"; "USB_HVDCP3"; "FLOAT"; "WLC";
   "WLC_EPP"; "WLC_SPP"; "GPP"; "10W"; "L7"; "DL"; "WPC_EPP"; "WPC_GPP"; "WPC_10W";
   "WPC_BPP"; "WPC_L7"; "EXT"; "EXT1"; "EXT2"; "EXT_UNKNOWN"; "USB_UNKNOWN";
   "WLC_UNKNOWN"]%string.

Definition gbms_chg_ev_adapter_s (adapter : Z) : outcome string :=
  guarded_name chg_ev_adapter_type_str adapter.

Definition codes : list string :=
  ["n"; "s"; "d"; "l"; "v"; "vo"; "p"; "f"; "t"; "dl"; "st"; "tc"; "r"; "w"; "rs"; "n"; "ny";
   "do"; "h"; "hp"; "ha"]%string.

(** Convert [gbms_msc_states_t] to a letter code. *)
Definition gbms_get_code (index : Z) : string :=
  if (0 <=? index) && (index <? Z.of_nat (length codes)) then
    nth (Z.to_nat index) codes ""%string
  else "?"%string.

(** ** Charger state *)

(** [union gbms_charger_state]: the fields, and their image in [v] on a little-endian
    machine. *)
Record charger_state := mk_cs {
  cs_flags : Z;
  cs_pad : Z;
  cs_chg_status : Z;
  cs_chg_type : Z;
  cs_vchrg : Z;
  cs_icl : Z;
}.

Definition cs_v (s : charger_state) : Z :=
  cs_flags s + Z.shiftl (cs_pad s) 8 + Z.shiftl (cs_chg_status s) 16 +
  Z.shiftl (cs_chg_type s) 24 + Z.shiftl (cs_vchrg s) 32 + Z.shiftl (cs_icl s) 48.

Definition cs_of_v (v : Z) : charger_state :=
  mk_cs (u8 v) (u8 (Z.shiftr v 8)) (u8 (Z.shiftr v 16)) (u8 (Z.shiftr v 24))
    (u16 (Z.shiftr v 32)) (u16 (Z.shiftr v 48)).

Definition GBMS_CS_FLAG_BUCK_EN : Z := Z.shiftl 1 0.
Definition GBMS_CS_FLAG_DONE : Z := Z.shiftl 1 1.
Definition GBMS_CS_FLAG_CC : Z := Z.shiftl 1 2.
Definition GBMS_CS_FLAG_CV : Z := Z.shiftl 1 3.
Definition GBMS_CS_FLAG_INPUT_SUSPEND : Z := Z.shiftl 1 7.

Section charger.
Context `{PowerSupplyTypes}.

Definition gbms_gen_chg_flags (chg_status chg_type : Z) : Z :=
  let flags := 0 in
  let flags :=
    if negb (chg_status =? POWER_SUPPLY_STATUS_DISCHARGING) then
      let flags := Z.lor flags GBMS_CS_FLAG_BUCK_EN in
      if chg_status =? POWER_SUPPLY_STATUS_FULL then Z.lor flags GBMS_CS_FLAG_DONE else flags
    else flags in
  let flags :=
    if chg_type =? POWER_SUPPLY_CHARGE_TYPE_FAST then Z.lor flags GBMS_CS_FLAG_CC else flags in
  if chg_type =? POWER_SUPPLY_CHARGE_TYPE_TAPER_EXT then Z.lor flags GBMS_CS_FLAG_CV else flags.

Definition chg_state_is_disconnected (s : charger_state) : bool :=
  ((Z.land (cs_flags s) GBMS_CS_FLAG_BUCK_EN =? 0) &&
   ((cs_chg_status s =? POWER_SUPPLY_STATUS_DISCHARGING) ||
    (cs_chg_status s =? POWER_SUPPLY_STATUS_UNKNOWN))) ||
  negb (Z.land (cs_flags s) GBMS_CS_FLAG_INPUT_SUSPEND =? 0).

(** ** Properties of power supplies *)

Inductive property :=
| POWER_SUPPLY_PROP_VOLTAGE_NOW
| POWER_SUPPLY_PROP_CURRENT_NOW
| POWER_SUPPLY_PROP_CHARGE_TYPE
| POWER_SUPPLY_PROP_STATUS
| GBMS_PROP_CHARGE_CHARGER_STATE
| OTHER_PROP (psp : Z).

(** A power supply over a device state [D]: the handlers of its descriptor, and the
    kernel's own access to it. *)
Record gbms_desc (D : Type) := {
  forward : bool;
  get_property : option (D -> property -> Z * Z);
  set_property : option (D -> property -> Z -> Z * D);
  property_is_writeable : option (D -> property -> bool);
  power_supply_get_property : D -> property -> Z * Z;
  power_supply_set_property : D -> property -> Z -> Z * D;
}.
Arguments forward {D}.
Arguments get_property {D}.
Arguments set_property {D}.
Arguments property_is_writeable {D}.
Arguments power_supply_get_property {D}.
Arguments power_supply_set_property {D}.

(** Status and value; [None] is a NULL power supply. *)
Definition gbms_get_property {D} (psy : option (gbms_desc D)) (d : D) (psp : property) : Z * Z :=
  match psy with
  | None => (- EINVAL, 0)
  | Some dsc =>
    let own := match get_property dsc with Some f => f d psp | None => (- EINVAL, 0) end in
    if fst own =? 0 then own
    else if negb (forward dsc) then (- ENODEV, snd own)
    else power_supply_get_property dsc d psp
  end.

Definition gbms_set_property {D} (psy : option (gbms_desc D)) (d : D) (psp : property) (val : Z)
    : Z * D :=
  match psy with
  | None => (- EINVAL, d)
  | Some dsc =>
    let writable := match property_is_writeable dsc with Some f => f d psp | None => false end in
    let '(done, d) :=
      match set_property dsc with
      | Some f => if writable then let '(ret, d') := f d psp val in (ret =? 0, d') else (false, d)
      | None => (false, d)
      end in
    if (done : bool) then (0, d)
    else if negb (forward dsc) then (- ENODEV, d)
    else power_supply_set_property dsc d psp val
  end.

(** Value and error; the name of a NULL power supply is read for the message. *)
Definition gpsy_get_prop {D} (psy : option (gbms_desc D)) (d : D) (psp : property)
    : outcome (Z * Z) :=
  match psy with
  | None => Undef
  | Some _ =>
    let rv := gbms_get_property psy d psp in
    Ret (if fst rv <? 0 then fst rv else s32 (snd rv), fst rv)
  end.

Definition gpsy_get_int64_prop {D} (psy : option (gbms_desc D)) (d : D) (psp : property)
    : Z * Z :=
  match psy with
  | None => (- EINVAL, - EINVAL)
  | Some _ =>
    let rv := gbms_get_property psy d psp in
    (if fst rv <? 0 then fst rv else s64 (snd rv), fst rv)
  end.

(** *** Reading the charger state *)

Definition gbms_gen_state {D} (s : charger_state) (psy : option (gbms_desc D)) (d : D)
    : outcome (Z * charger_state) :=
  let* vchrg := gpsy_get_prop psy d POWER_SUPPLY_PROP_VOLTAGE_NOW in
  let* chg_type := gpsy_get_prop psy d POWER_SUPPLY_PROP_CHARGE_TYPE in
  let* chg_status := gpsy_get_prop psy d POWER_SUPPLY_PROP_STATUS in
  if (fst vchrg <? 0) || (fst chg_type <? 0) || (snd chg_status <? 0) then Ret (- EINVAL, s)
  else
    let status := u8 (fst chg_status) in
    let type := u8 (fst chg_type) in
    Ret (0, mk_cs (gbms_gen_chg_flags status type) (cs_pad s) status type
              (u16 (cdiv (fst vchrg) 1000)) (cs_icl s)).

Definition gbms_read_charger_state {D} (s : charger_state) (psy : option (gbms_desc D)) (d : D)
    : outcome (Z * charger_state) :=
  let '(val, ret) := gpsy_get_int64_prop psy d GBMS_PROP_CHARGE_CHARGER_STATE in
  if ret =? 0 then Ret (0, cs_of_v (u64 val))
  else if ret =? - EAGAIN then Ret (ret, s)
  else
    let* rs := gbms_gen_state s psy d in
    let '(ret, s) := rs in
    if ret <? 0 then Ret (ret, s) else
    let* ichg := gpsy_get_prop psy d POWER_SUPPLY_PROP_CURRENT_NOW in
    let s := if 0 <? fst ichg then
               mk_cs (cs_flags s) (cs_pad s) (cs_chg_status s) (cs_chg_type s) (cs_vchrg s)
                 (u16 (cdiv (fst ichg) 1000))
             else s in
    Ret (0, s).
End charger.

(** ** Tier statistics *)

Definition MSC_STATES_COUNT : Z := 21.

Record gbms_ce_tier_stats := mk_tier {
  t_temp_idx : Z;
  t_vtier_idx : Z;
  t_soc_in : Z;
  t_cc_in : Z;
  t_cc_total : Z;
  t_time_fast : Z;
  t_time_taper : Z;
  t_time_other : Z;
  t_temp_in : Z;
  t_temp_min : Z;
  t_temp_max : Z;
  t_ibatt_min : Z;
  t_ibatt_max : Z;
  t_icl_min : Z;
  t_icl_max : Z;
  t_icl_sum : Z;
  t_temp_sum : Z;
  t_ibatt_sum : Z;
  t_sample_count : Z;
  t_msc_cnt : list Z;
  t_msc_elap : list Z;
}.

Definition gbms_tier_stats_init (t : gbms_ce_tier_stats) (idx : Z) : gbms_ce_tier_stats :=
  mk_tier (-1) (s8 idx) (-1) (t_cc_in t) (t_cc_total t) (t_time_fast t) (t_time_taper t)
    (t_time_other t) (t_temp_in t) (t_temp_min t) (t_temp_max t) (t_ibatt_min t) (t_ibatt_max t)
    (t_icl_min t) (t_icl_max t) (t_icl_sum t) (t_temp_sum t) (t_ibatt_sum t) (t_sample_count t)
    (t_msc_cnt t) (t_msc_elap t).

(** Books [elap] to a state; a state out of range is ignored. *)
Definition gbms_chg_stats_tier (t : gbms_ce_tier_stats) (msc_state elap : Z)
    : gbms_ce_tier_stats :=
  if (msc_state <? 0) || (MSC_STATES_COUNT <=? msc_state) then t else
  let i := Z.to_nat msc_state in
  mk_tier (t_temp_idx t) (t_vtier_idx t) (t_soc_in t) (t_cc_in t) (t_cc_total t) (t_time_fast t)
    (t_time_taper t) (t_time_other t) (t_temp_in t) (t_temp_min t) (t_temp_max t)
    (t_ibatt_min t) (t_ibatt_max t) (t_icl_min t) (t_icl_max t) (t_icl_sum t) (t_temp_sum t)
    (t_ibatt_sum t) (t_sample_count t)
    (alter (fun c => u16 (c + 1)) i (t_msc_cnt t))
    (alter (fun e => u32 (e + elap)) i (t_msc_elap t)).

Section tier.
Context `{PowerSupplyTypes}.

Definition gbms_stats_update_tier (temp_idx ibatt_ma temp elap cc : Z) (s : charger_state)
    (msc_state soc_in : Z) (t : gbms_ce_tier_stats) : gbms_ce_tier_stats :=
  let icl := cs_icl s in
  let t := gbms_chg_stats_tier t msc_state elap in
  let count := u32 (t_sample_count t + 1) in
  if t_soc_in t =? -1 then
    mk_tier (s8 temp_idx) (t_vtier_idx t) (s16 soc_in) (u16 cc) 0
      (t_time_fast t) (t_time_taper t) (t_time_other t)
      (s16 temp) (s16 temp) (s16 temp) (s16 ibatt_ma) (s16 ibatt_ma) icl icl
      (t_icl_sum t) (t_temp_sum t) (t_ibatt_sum t) count (t_msc_cnt t) (t_msc_elap t)
  else
    let fast := cs_chg_type s =? POWER_SUPPLY_CHARGE_TYPE_FAST in
    let taper := negb fast && (cs_chg_type s =? POWER_SUPPLY_CHARGE_TYPE_TAPER_EXT) in
    mk_tier
      (if negb (temp_idx =? t_temp_idx t) then -1 else t_temp_idx t)
      (t_vtier_idx t) (t_soc_in t) (t_cc_in t) (u16 (cc - t_cc_in t))
      (if fast then u32 (t_time_fast t + elap) else t_time_fast t)
      (if taper then u32 (t_time_taper t + elap) else t_time_taper t)
      (if fast || taper then t_time_other t else u32 (t_time_other t + elap))
      (t_temp_in t)
      (if temp <? t_temp_min t then s16 temp else t_temp_min t)
      (if t_temp_max t <? temp then s16 temp else t_temp_max t)
      (if ibatt_ma <? t_ibatt_min t then s16 ibatt_ma else t_ibatt_min t)
      (if t_ibatt_max t <? ibatt_ma then s16 ibatt_ma else t_ibatt_max t)
      (if icl <? t_icl_min t then icl else t_icl_min t)
      (if t_icl_max t <? icl then icl else t_icl_max t)
      (s64 (t_icl_sum t + icl * elap))
      (s64 (t_temp_sum t + temp * elap))
      (s64 (t_ibatt_sum t + ibatt_ma * elap))
      count (t_msc_cnt t) (t_msc_elap t).
End tier.

(** ** The charger state as one word *)

Record wf_cs (s : charger_state) : Prop := {
  wf_flags : 0 <= cs_flags s < 2 ^ 8;
  wf_pad : 0 <= cs_pad s < 2 ^ 8;
  wf_status : 0 <= cs_chg_status s < 2 ^ 8;
  wf_type : 0 <= cs_chg_type s < 2 ^ 8;
  wf_vchrg : 0 <= cs_vchrg s < 2 ^ 16;
  wf_icl : 0 <= cs_icl s < 2 ^ 16;
}.

(** A field of a sum of fields: what is below is shifted out, what is above is cut. *)
Lemma field_of lo x hi k w :
  0 <= k -> 0 <= w -> 0 <= lo < 2 ^ k -> 0 <= x < 2 ^ w ->
  wrap w (Z.shiftr (lo + 2 ^ k * (x + 2 ^ w * hi)) k) = x.
Proof.
  intros Hk Hw Hlo Hx. rewrite Z.shiftr_div_pow2 by done.
  rewrite (Z.mul_comm (2 ^ k)), Z.div_add by lia. rewrite Z.div_small, Z.add_0_l by done.
  unfold wrap. rewrite (Z.mul_comm (2 ^ w)), Z.mod_add by lia. by apply Z.mod_small.
Qed.

(** The word that carries a charger state between drivers is faithful: taking the state
    apart after [chg_state->v = val] gives back every field that was packed. *)
Theorem charger_state_roundtrip s : wf_cs s -> cs_of_v (cs_v s) = s /\ 0 <= cs_v s < 2 ^ 64.
Proof.
  destruct s as [f pd st ty vc ic]. intros [Hf Hp Hs Ht Hv Hi]. simpl in *.
  unfold cs_of_v, cs_v. simpl. rewrite !Z.shiftl_mul_pow2 by lia.
  split; [|lia]. f_equal.
  - rewrite <- (field_of 0 f (pd + 2 ^ 8 * (st + 2 ^ 8 * (ty + 2 ^ 8 * (vc + 2 ^ 16 * ic)))) 0 8) at 2
      by lia. rewrite Z.shiftr_0_r. f_equal. lia.
  - rewrite <- (field_of f pd (st + 2 ^ 8 * (ty + 2 ^ 8 * (vc + 2 ^ 16 * ic))) 8 8) at 2 by lia.
    do 2 f_equal. lia.
  - rewrite <- (field_of (f + 2 ^ 8 * pd) st (ty + 2 ^ 8 * (vc + 2 ^ 16 * ic)) 16 8) at 2 by lia.
    do 2 f_equal. lia.
  - rewrite <- (field_of (f + 2 ^ 8 * (pd + 2 ^ 8 * st)) ty (vc + 2 ^ 16 * ic) 24 8) at 2 by lia.
    do 2 f_equal. lia.
  - rewrite <- (field_of (f + 2 ^ 8 * (pd + 2 ^ 8 * (st + 2 ^ 8 * ty))) vc ic 32 16) at 2 by lia.
    do 2 f_equal. lia.
  - rewrite <- (field_of (f + 2 ^ 8 * (pd + 2 ^ 8 * (st + 2 ^ 8 * (ty + 2 ^ 8 * vc)))) ic 0 48 16)
      at 2 by lia. do 2 f_equal. lia.
Qed.

Lemma charger_state_roundtrip_witness :
  let s := mk_cs 5 0 1 3 4350 3000 in cs_of_v (cs_v s) = s /\ 0 <= cs_v s < 2 ^ 64.
Proof. apply (charger_state_roundtrip (mk_cs 5 0 1 3 4350 3000)). by split. Defined.

Section facts.
Context `{PowerSupplyTypes}.

(** The flags of a generated state tell whether the charger is disconnected. *)
Lemma gen_flags_connection st ty pad vchrg icl :
  chg_state_is_disconnected (mk_cs (gbms_gen_chg_flags st ty) pad st ty vchrg icl) =
  (st =? POWER_SUPPLY_STATUS_DISCHARGING).
Proof.
  unfold chg_state_is_disconnected, gbms_gen_chg_flags. cbn [cs_flags cs_chg_status].
  destruct (Z.eqb_spec st POWER_SUPPLY_STATUS_DISCHARGING) as [->|Hne].
  - destruct (ty =? POWER_SUPPLY_CHARGE_TYPE_FAST), (ty =? POWER_SUPPLY_CHARGE_TYPE_TAPER_EXT);
      reflexivity.
  - cbn [negb]. destruct (st =? POWER_SUPPLY_STATUS_FULL), (ty =? POWER_SUPPLY_CHARGE_TYPE_FAST),
      (ty =? POWER_SUPPLY_CHARGE_TYPE_TAPER_EXT); reflexivity.
Qed.

(** A charger without a state word reports a connection exactly when it does not
    discharge: the state that [gbms_gen_state] builds from voltage, type and status is
    taken for disconnected if and only if the status is "Discharging". *)
Theorem gen_state_connection {D} s (psy : option (gbms_desc D)) d s' :
  gbms_gen_state s psy d = Ret (0, s') ->
  chg_state_is_disconnected s' = (cs_chg_status s' =? POWER_SUPPLY_STATUS_DISCHARGING).
Proof.
  unfold gbms_gen_state, gpsy_get_prop. destruct psy as [dsc|]; [|done]. run.
  destruct (_ || _ || _); [done|]. intros Heq. injection Heq as <-.
  apply gen_flags_connection.
Qed.

(** ** Tier statistics *)

(** One call of [gbms_stats_update_tier]. *)
Record sample := mk_sample {
  x_temp_idx : Z;
  x_ibatt : Z;
  x_temp : Z;
  x_elap : Z;
  x_cc : Z;
  x_state : charger_state;
  x_msc : Z;
  x_soc : Z;
}.

Definition book (t : gbms_ce_tier_stats) (x : sample) : gbms_ce_tier_stats :=
  gbms_stats_update_tier (x_temp_idx x) (x_ibatt x) (x_temp x) (x_elap x) (x_cc x) (x_state x)
    (x_msc x) (x_soc x) t.

Record sample_ok (x : sample) : Prop := {
  ok_temp : - 2 ^ 15 <= x_temp x < 2 ^ 15;
  ok_ibatt : - 2 ^ 15 <= x_ibatt x < 2 ^ 15;
  ok_icl : 0 <= cs_icl (x_state x) < 2 ^ 16;
  ok_elap : 0 <= x_elap x;
  ok_soc : 0 <= x_soc x < 2 ^ 15;
}.

(** [sum] over a time [T] is a weighted sum of values between [mn] and [mx]. *)
Definition bracket (mn mx sum T : Z) : Prop := mn <= mx /\ mn * T <= sum <= mx * T.

Definition time_of (t : gbms_ce_tier_stats) : Z := t_time_fast t + t_time_taper t + t_time_other t.

(** A tier after its first sample. *)
Record running (t : gbms_ce_tier_stats) : Prop := {
  run_soc : t_soc_in t <> -1;
  run_fast : 0 <= t_time_fast t;
  run_taper : 0 <= t_time_taper t;
  run_other : 0 <= t_time_other t;
  run_temp_min : - 2 ^ 15 <= t_temp_min t;
  run_temp_max : t_temp_max t < 2 ^ 15;
  run_ibatt_min : - 2 ^ 15 <= t_ibatt_min t;
  run_ibatt_max : t_ibatt_max t < 2 ^ 15;
  run_icl_min : 0 <= t_icl_min t;
  run_icl_max : t_icl_max t < 2 ^ 16;
  run_temp : bracket (t_temp_min t) (t_temp_max t) (t_temp_sum t) (time_of t);
  run_ibatt : bracket (t_ibatt_min t) (t_ibatt_max t) (t_ibatt_sum t) (time_of t);
  run_icl : bracket (t_icl_min t) (t_icl_max t) (t_icl_sum t) (time_of t);
}.

Lemma bracket_step mn mx sum T v e lo hi :
  lo <= mn -> mx < hi -> lo <= v < hi -> - 2 ^ 16 <= lo -> hi <= 2 ^ 16 ->
  0 <= T -> 0 <= e -> T + e < 2 ^ 31 -> bracket mn mx sum T ->
  bracket (if v <? mn then v else mn) (if mx <? v then v else mx) (s64 (sum + v * e)) (T + e) /\
  lo <= (if v <? mn then v else mn) /\ (if mx <? v then v else mx) < hi.
Proof.
  intros Hlo Hhi Hv Hl Hh HT He Hte [Hmm [Hs1 Hs2]].
  assert (- 2 ^ 47 <= sum + v * e < 2 ^ 47) by nia.
  rewrite swrap_id by lia. unfold bracket. do 2 case_test; split_and!; try lia; nia.
Qed.

(** Booking keeps the invariant and adds the time, on the branch of a running tier. *)
Lemma book_running t x :
  running t -> sample_ok x -> time_of t + x_elap x < 2 ^ 31 ->
  running (book t x) /\ time_of (book t x) = time_of t + x_elap x /\
  t_temp_min (book t x) = Z.min (t_temp_min t) (x_temp x) /\
  t_temp_max (book t x) = Z.max (t_temp_max t) (x_temp x).
Proof.
  intros Hr Hx HT. destruct Hr as [Hsoc Hf Htp Ho Ht1 Ht2 Hi1 Hi2 Hc1 Hc2 Hbt Hbi Hbc].
  destruct Hx as [Hxt Hxi Hxc Hxe Hxs].
  unfold book, gbms_stats_update_tier, time_of in *.
  set (t1 := gbms_chg_stats_tier t (x_msc x) (x_elap x)).
  assert (Hsame : exists cnt el, t1 = mk_tier (t_temp_idx t) (t_vtier_idx t) (t_soc_in t)
    (t_cc_in t) (t_cc_total t) (t_time_fast t) (t_time_taper t) (t_time_other t) (t_temp_in t)
    (t_temp_min t) (t_temp_max t) (t_ibatt_min t) (t_ibatt_max t) (t_icl_min t) (t_icl_max t)
    (t_icl_sum t) (t_temp_sum t) (t_ibatt_sum t) (t_sample_count t) cnt el).
  { subst t1. unfold gbms_chg_stats_tier. destruct (_ || _); [|by eexists _, _].
    exists (t_msc_cnt t), (t_msc_elap t). by destruct t. }
  destruct Hsame as (cnt & el & ->).
  cbn [t_soc_in t_temp_idx t_vtier_idx t_cc_in t_time_fast t_time_taper t_time_other t_temp_in
       t_temp_min t_temp_max t_ibatt_min t_ibatt_max t_icl_min t_icl_max t_icl_sum t_temp_sum
       t_ibatt_sum t_sample_count t_msc_cnt t_msc_elap].
  rewrite (proj2 (Z.eqb_neq (t_soc_in t) (-1))) by done.
  rewrite !(swrap_id 16) by lia.
  set (fast := _ =? POWER_SUPPLY_CHARGE_TYPE_FAST).
  set (taper := negb fast && _).
  assert (Htime : (if fast then u32 (t_time_fast t + x_elap x) else t_time_fast t) +
    (if taper then u32 (t_time_taper t + x_elap x) else t_time_taper t) +
    (if fast || taper then t_time_other t else u32 (t_time_other t + x_elap x)) =
    t_time_fast t + t_time_taper t + t_time_other t + x_elap x).
  { subst taper. destruct fast; cbn [negb andb orb];
      [|destruct (_ =? POWER_SUPPLY_CHARGE_TYPE_TAPER_EXT)]; rewrite wrap_id; lia. }
  destruct (bracket_step _ _ _ (t_time_fast t + t_time_taper t + t_time_other t) (x_temp x) (x_elap x) (- 2 ^ 15) (2 ^ 15)
    Ht1 Ht2 Hxt ltac:(lia) ltac:(lia) ltac:(lia) Hxe HT Hbt) as (Ha & Ha1 & Ha2).
  destruct (bracket_step _ _ _ (t_time_fast t + t_time_taper t + t_time_other t) (x_ibatt x) (x_elap x) (- 2 ^ 15) (2 ^ 15)
    Hi1 Hi2 Hxi ltac:(lia) ltac:(lia) ltac:(lia) Hxe HT Hbi) as (Hb & Hb1 & Hb2).
  destruct (bracket_step _ _ _ (t_time_fast t + t_time_taper t + t_time_other t) (cs_icl (x_state x)) (x_elap x) 0 (2 ^ 16)
    Hc1 Hc2 Hxc ltac:(lia) ltac:(lia) ltac:(lia) Hxe HT Hbc) as (Hc & Hc3 & Hc4).
  split; [|split; [exact Htime|cbn [t_temp_min t_temp_max]; split; case_test; lia]].
  split; unfold time_of; cbn; rewrite ?Htime; try done.
  - destruct fast; [apply wrap_range|]; lia.
  - destruct taper; [apply wrap_range|]; lia.
  - destruct (fast || taper); [|apply wrap_range]; lia.
Qed.
(** The first sample of an initialised tier starts it. *)
Definition fresh (t : gbms_ce_tier_stats) : Prop :=
  t_soc_in t = -1 /\ t_time_fast t = 0 /\ t_time_taper t = 0 /\ t_time_other t = 0 /\
  t_temp_sum t = 0 /\ t_ibatt_sum t = 0 /\ t_icl_sum t = 0.

Lemma book_fresh t x :
  fresh t -> sample_ok x ->
  running (book t x) /\ time_of (book t x) = 0 /\
  t_temp_min (book t x) = x_temp x /\ t_temp_max (book t x) = x_temp x.
Proof.
  intros (Hs & Hf & Htp & Ho & Hts & His & Hcs) [Hxt Hxi Hxc Hxe Hxs].
  unfold book, gbms_stats_update_tier, gbms_chg_stats_tier, time_of.
  destruct (_ || _); cbn; rewrite Hs; cbn; rewrite !(swrap_id 16) by lia;
    (split; [split; unfold time_of, bracket; cbn; lia|]); cbn; lia.
Qed.

Definition total_time (xs : list sample) : Z := foldr (fun x t => x_elap x + t) 0 xs.

Lemma total_time_nonneg xs : Forall sample_ok xs -> 0 <= total_time xs.
Proof. induction 1 as [|x xs Hx _ IH]; simpl; [lia|]. pose proof (ok_elap x Hx). lia. Qed.

Lemma book_all_running xs t :
  running t -> Forall sample_ok xs -> time_of t + total_time xs < 2 ^ 31 ->
  running (foldl book t xs) /\ time_of (foldl book t xs) = time_of t + total_time xs /\
  t_temp_min (foldl book t xs) = foldr Z.min (t_temp_min t) (x_temp <$> xs) /\
  t_temp_max (foldl book t xs) = foldr Z.max (t_temp_max t) (x_temp <$> xs).
Proof.
  intros Ht Hxs. revert t Ht. induction Hxs as [|x xs Hx Hxs IH]; intros t Ht HT; simpl.
  { split_and!; try done. lia. }
  simpl in HT. pose proof (total_time_nonneg xs Hxs).
  destruct (book_running t x Ht Hx) as (Hr & Htime & Hmn & Hmx); [lia|].
  destruct (IH (book t x) Hr) as (Hr' & Htime' & Hmn' & Hmx'); [lia|].
  split; [done|]. split; [lia|]. rewrite Hmn', Hmx', Hmn, Hmx.
  assert (forall (a b : Z) l, foldr Z.min (Z.min a b) l = Z.min b (foldr Z.min a l)) as Hmin
    by (intros a b l; induction l; simpl; lia).
  assert (forall (a b : Z) l, foldr Z.max (Z.max a b) l = Z.max b (foldr Z.max a l)) as Hmax
    by (intros a b l; induction l; simpl; lia).
  by rewrite Hmin, Hmax.
Qed.

(** Tier statistics: after any sequence of samples of an initialised tier, the minimum
    and maximum temperature are those of the samples, the three times add up to the time
    booked after the first sample, and the averages of temperature, battery current and
    input current that the sums give lie between the recorded minima and maxima. *)
Theorem tier_stats_bracket_averages t idx x xs :
  fresh t -> sample_ok x -> Forall sample_ok xs -> total_time xs < 2 ^ 31 ->
  let r := foldl book (gbms_tier_stats_init t idx) (x :: xs) in
  t_temp_min r = foldr Z.min (x_temp x) (x_temp <$> xs) /\
  t_temp_max r = foldr Z.max (x_temp x) (x_temp <$> xs) /\
  time_of r = total_time xs /\
  (0 < time_of r ->
     t_temp_min r <= t_temp_sum r / time_of r <= t_temp_max r /\
     t_ibatt_min r <= t_ibatt_sum r / time_of r <= t_ibatt_max r /\
     t_icl_min r <= t_icl_sum r / time_of r <= t_icl_max r).
Proof.
  intros Hf Hx Hxs HT r.
  assert (Hf' : fresh (gbms_tier_stats_init t idx)) by (by destruct Hf as (? & ?)).
  destruct (book_fresh _ x Hf' Hx) as (Hr & Htime & Hmn & Hmx).
  destruct (book_all_running xs _ Hr Hxs) as (Hr' & Htime' & Hmn' & Hmx'); [lia|].
  change (foldl book (book (gbms_tier_stats_init t idx) x) xs) with r in *.
  rewrite Hmn in Hmn'. rewrite Hmx in Hmx'. split; [done|]. split; [done|]. split; [lia|].
  intros Hpos.
  assert (Hdiv : forall mn mx sum, bracket mn mx sum (time_of r) -> mn <= sum / time_of r <= mx).
  { intros mn mx sum [_ [H1 H2]]. split; [apply Z.div_le_lower_bound|apply Z.div_le_upper_bound]; lia. }
  split; [apply Hdiv, Hr'|split; apply Hdiv, Hr'].
Qed.
End facts.

#[local] Instance demo_types : PowerSupplyTypes := 9.

(** A charger that answers every query itself. *)
Definition demo_psy : gbms_desc unit := {|
  forward := false;
  get_property := Some (fun _ psp =>
    match psp with
    | POWER_SUPPLY_PROP_VOLTAGE_NOW => (0, 4350000)
    | POWER_SUPPLY_PROP_CHARGE_TYPE => (0, 3)
    | POWER_SUPPLY_PROP_STATUS => (0, 2)
    | _ => (- EINVAL, 0)
    end);
  set_property := None;
  property_is_writeable := None;
  power_supply_get_property := fun _ _ => (- EINVAL, 0);
  power_supply_set_property := fun _ _ _ => (- EINVAL, tt);
|}.

Lemma gen_state_connection_witness :
  chg_state_is_disconnected (mk_cs 4 0 2 3 4350 0) = (2 =? POWER_SUPPLY_STATUS_DISCHARGING).
Proof.
  apply (gen_state_connection (mk_cs 0 0 0 0 0 0) (Some demo_psy) tt (mk_cs 4 0 2 3 4350 0)).
  reflexivity.
Defined.

Definition demo_tier : gbms_ce_tier_stats :=
  mk_tier 0 0 (-1) 0 0 0 0 0 0 0 0 0 0 0 0 0 0 0 0 (replicate 21 0) (replicate 21 0).

Definition demo_sample (temp ibatt elap : Z) : sample :=
  mk_sample 1 ibatt temp elap 100 (mk_cs 5 0 1 3 4350 3000) 7 12800.

Lemma tier_stats_bracket_averages_witness :
  let r := foldl book (gbms_tier_stats_init demo_tier 0)
             [demo_sample 250 (-1500) 10; demo_sample 260 (-1600) 20; demo_sample 240 (-1400) 30] in
  t_temp_min r = 240 /\ t_temp_max r = 260 /\ time_of r = 50 /\
  (0 < time_of r ->
     t_temp_min r <= t_temp_sum r / time_of r <= t_temp_max r /\
     t_ibatt_min r <= t_ibatt_sum r / time_of r <= t_ibatt_max r /\
     t_icl_min r <= t_icl_sum r / time_of r <= t_icl_max r).
Proof.
  apply (tier_stats_bracket_averages demo_tier 0 (demo_sample 250 (-1500) 10)
           [demo_sample 260 (-1600) 20; demo_sample 240 (-1400) 30]);
    [by split_and!|by split|repeat constructor; done|done].
Defined.

(** The guards of the name tables let one index too many through: the index equal to the
    size of the table is not refused, and reads behind its end. *)
Theorem name_table_guard_off_by_one :
  gbms_chg_status_s 5 = Undef /\ gbms_chg_ev_adapter_s 32 = Undef /\
  (forall i, 0 <= i < 5 -> exists s, gbms_chg_status_s i = Ret s) /\
  (forall i, i < 0 \/ 5 < i -> gbms_chg_status_s i = Ret "<err>"%string).
Proof.
  split; [reflexivity|]. split; [reflexivity|]. split.
  - intros i Hi. unfold gbms_chg_status_s, guarded_name.
    rewrite (proj2 (Z.ltb_ge i 0)), (proj2 (Z.ltb_ge _ i)) by (simpl; lia). cbn [orb].
    destruct (lookup_lt_is_Some_2 psy_chgs_str (Z.to_nat i)) as [s ->]; [simpl; lia|]. eauto.
  - intros i Hi. unfold gbms_chg_status_s, guarded_name. simpl length.
    destruct (Z.ltb_spec i 0); [done|]. cbn [orb]. by rewrite (proj2 (Z.ltb_lt _ i)) by lia.
Qed.
