(* ===== verification/GbmsText.v ===== *)
(** Text forms kept by the battery drivers (bms/google_bms.c): cycle counts as decimal text
    and back, and the splitting of a text into log entries.  Text is a list of character
    codes. *)

From S2P Require Import Prelude.

Definition SPACE : Z := 32.
Definition NEWLINE : Z := 10.
Definition MINUS : Z := 45.

(** ** Decimal numbers: [%d] of printf and scanf *)

(** Digits of [n >= 0], most significant first, before [acc]. *)
Fixpoint digits_aux (fuel : nat) (n : Z) (acc : list Z) : list Z :=
  match fuel with
  | O => acc
  | S fuel =>
    let acc := (48 + n mod 10) :: acc in
    if n / 10 =? 0 then acc else digits_aux fuel (n / 10) acc
  end.

(** Ten digits are enough for 32 bits. *)
Definition print_dec (n : Z) : list Z :=
  if n <? 0 then MINUS :: digits_aux 10 (- n) [] else digits_aux 10 n [].

Definition isdigit (c : Z) : bool := (48 <=? c) && (c <=? 57).
Definition isspace (c : Z) : bool := (c =? 32) || ((9 <=? c) && (c <=? 13)).

Fixpoint skip_spaces (s : list Z) : list Z :=
  match s with
  | c :: s' => if isspace c then skip_spaces s' else s
  | [] => []
  end.

(** The number read so far and the text that follows its digits. *)
Fixpoint read_digits (v : Z) (s : list Z) : Z * list Z :=
  match s with
  | c :: s' => if isdigit c then read_digits (v * 10 + (c - 48)) s' else (v, s)
  | [] => (v, [])
  end.

(** One [%d]: blanks, a sign, at least one digit; the result is an [int]. *)
Definition scan_int (s : list Z) : option (Z * list Z) :=
  let s := skip_spaces s in
  let '(neg, s) := match s with c :: s' => if c =? MINUS then (true, s') else (false, s)
                              | [] => (false, s) end in
  match s with
  | c :: _ =>
    if isdigit c then
      let '(v, rest) := read_digits 0 s in Some (s32 (if neg : bool then - v else v), rest)
    else None
  | [] => None
  end.

(** [n] conversions in a row; stops at the first that fails. *)
Fixpoint scan_ints (n : nat) (s : list Z) : list Z :=
  match n with
  | O => []
  | S n =>
    match scan_int s with
    | Some (v, rest) => v :: scan_ints n rest
    | None => []
    end
  end.

(** ** Cycle counts *)

(** What [scnprintf(buf + len, size - len, ...)] appends to a text of length [len]. *)
Definition scnprintf (size : Z) (out text : list Z) : list Z :=
  out ++ take (Z.to_nat (size - Z.of_nat (length out) - 1)) text.

Definition cycle_text (size : Z) (ccount : list Z) : list Z :=
  foldl (fun out c => scnprintf size out (print_dec c ++ [SPACE])) [] ccount.

(** The text and its length, for the first [bcnt] counts. *)
Definition gbms_cycle_count_cstr_bc (size : Z) (ccount : list Z) (bcnt : Z)
    : outcome (list Z * Z) :=
  if Z.of_nat (length ccount) <? bcnt then Undef else
  let out := cycle_text size (take (Z.to_nat bcnt) ccount) in
  let len := Z.of_nat (length out) in
  if len =? 0 then Undef else
  Ret (<[Z.to_nat (len - 1) := NEWLINE]> out, len).

(** Status and counts; values out of range leave the old count. *)
Definition gbms_cycle_count_sscan_bc (ccount : list Z) (bcnt : Z) (buff : list Z)
    : Z * list Z :=
  if negb (bcnt =? 10) then (- ERANGE, ccount) else
  let val := scan_ints 10 buff in
  if negb (Z.of_nat (length val) =? bcnt) then (- EINVAL, ccount) else
  (0, zip_with (fun v c => if (0 <=? v) && (v <? U16_MAX) then v else c) val ccount).

(** ** Log entries *)

Definition LOG_BUFFER_ENTRY_SIZE : Z := 256.

(** The loop of [gbms_log_cstr_handler] at index [i]: [rest] is the text from there on,
    [tmp] the entry being built, [out] what was logged.  A full entry is logged and the
    same character is looked at again, so [fuel] counts turns, not characters. *)
Fixpoint log_loop (fuel : nat) (i : Z) (rest tmp : list Z) (out : list (list Z))
    : option (list (list Z)) :=
  match fuel with
  | O => None
  | S fuel =>
    match rest with
    | [] => Some out
    | c :: rest' =>
      if c =? NEWLINE then
        log_loop fuel (i + 1) rest' [] (if negb (i =? 0) then out ++ [tmp] else out)
      else if LOG_BUFFER_ENTRY_SIZE - 1 <=? Z.of_nat (length tmp) then
        log_loop fuel i rest [] (out ++ [tmp])
      else log_loop fuel (i + 1) rest' (tmp ++ [c]) out
    end
  end.

(** The entries logged for the first [len] characters of a buffer without NUL, whose
    cell [len] is overwritten with a newline. *)
Definition gbms_log_cstr_handler (buf : list Z) (len : Z) : outcome (list (list Z)) :=
  if (len <? 0) || (Z.of_nat (length buf) <=? len) then Undef else
  let text := take (Z.to_nat len) buf ++ [NEWLINE] in
  must (log_loop (2 * length text + 2) 0 text [] []).

(** ** Round trip of the cycle counts *)

Lemma read_digits_app ds v rest :
  Forall (fun c => isdigit c = true) ds ->
  match rest with c :: _ => isdigit c = false | [] => True end ->
  read_digits v (ds ++ rest) = (foldl (fun v c => v * 10 + (c - 48)) v ds, rest).
Proof.
  intros Hd Hr. revert v. induction Hd as [|c ds Hc _ IH]; intros v; simpl.
  - destruct rest as [|c rest]; simpl; [done|]. by rewrite Hr.
  - rewrite Hc. apply IH.
Qed.

Lemma isdigit_digit n : isdigit (48 + n mod 10) = true.
Proof.
  unfold isdigit. pose proof (Z.mod_pos_bound n 10 ltac:(lia)).
  rewrite andb_true_iff, !Z.leb_le. lia.
Qed.

Lemma div10_bound n k : 0 <= n < 10 ^ Z.of_nat (S k) -> 0 <= n / 10 < 10 ^ Z.of_nat k.
Proof.
  intros Hn. rewrite Nat2Z.inj_succ, Z.pow_succ_r in Hn by lia.
  split; [apply Z.div_pos; lia|]. apply Z.div_lt_upper_bound; lia.
Qed.

Lemma div10_single n : 0 <= n < 10 ^ Z.of_nat 1 -> n / 10 = 0.
Proof. intros Hn. apply Z.div_small. change (10 ^ Z.of_nat 1) with 10 in Hn. lia. Qed.

Lemma digits_aux_spec fuel n acc :
  0 <= n < 10 ^ Z.of_nat fuel -> (0 < fuel)%nat ->
  exists ds, digits_aux fuel n acc = ds ++ acc /\ ds <> [] /\
    Forall (fun c => isdigit c = true) ds /\
    forall v, foldl (fun v c => v * 10 + (c - 48)) v ds = v * 10 ^ Z.of_nat (length ds) + n.
Proof.
  revert n acc. induction fuel as [|fuel IH]; intros n acc Hn Hf; [lia|]. cbn [digits_aux].
  pose proof (Z.div_mod n 10 ltac:(lia)) as Hdm.
  destruct (Z.eqb_spec (n / 10) 0) as [Hz|Hnz].
  - exists [48 + n mod 10]. split; [done|]. split; [done|].
    split; [by constructor; [apply isdigit_digit|]|]. intros v. simpl. lia.
  - destruct fuel as [|fuel]; [by rewrite div10_single in Hnz|].
    destruct (IH (n / 10) ((48 + n mod 10) :: acc)) as (ds & Heq & Hne & Hd & Hv);
      [by apply div10_bound|lia|].
    exists (ds ++ [48 + n mod 10]). rewrite <- app_assoc. split; [done|].
    split; [by destruct ds|]. split.
    + apply Forall_app. split; [done|]. by constructor; [apply isdigit_digit|].
    + intros v. rewrite foldl_app, Hv. simpl. rewrite length_app. simpl.
      rewrite Nat2Z.inj_add, Z.pow_add_r by lia. change (10 ^ Z.of_nat 1) with 10. lia.
Qed.

(** Scanning a printed number that a blank follows. *)
Lemma scan_print n c rest :
  0 <= n < 2 ^ 31 -> isdigit c = false ->
  scan_int (print_dec n ++ c :: rest) = Some (n, c :: rest).
Proof.
  intros Hn Hc. unfold print_dec. rewrite (proj2 (Z.ltb_ge n 0)) by lia.
  destruct (digits_aux_spec 10 n []) as (ds & -> & Hne & Hd & Hv); [simpl; lia|lia|].
  rewrite app_nil_r. destruct ds as [|d ds]; [done|].
  assert (Hdd : isdigit d = true) by (by inversion Hd).
  assert (isspace d = false /\ (d =? MINUS) = false) as [Hs Hm].
  { unfold isdigit in Hdd. apply andb_true_iff in Hdd as [H1 H2]. apply Z.leb_le in H1, H2.
    unfold isspace, MINUS. split; [|by apply Z.eqb_neq; lia].
    destruct (Z.eqb_spec d 32), (Z.leb_spec 9 d), (Z.leb_spec d 13); simpl; try done; lia. }
  unfold scan_int. cbn [app skip_spaces]. rewrite Hs. cbv zeta. rewrite Hm, Hdd.
  change (d :: ds ++ c :: rest) with ((d :: ds) ++ c :: rest).
  rewrite (read_digits_app (d :: ds) 0 (c :: rest) Hd Hc), Hv.
  replace (0 * _ + n) with n by lia. by rewrite swrap_id by lia.
Qed.

Lemma length_digits_aux fuel k n acc :
  0 <= n < 10 ^ Z.of_nat k -> (0 < k <= fuel)%nat ->
  (1 + length acc <= length (digits_aux fuel n acc) <= length acc + k)%nat.
Proof.
  revert k n acc. induction fuel as [|fuel IH]; intros k n acc Hn Hk; [lia|]. cbn [digits_aux].
  destruct (Z.eqb_spec (n / 10) 0) as [_|Hnz]; [simpl; lia|].
  destruct k as [|[|k]]; [lia|by rewrite div10_single in Hnz|].
  specialize (IH (S k) (n / 10) ((48 + n mod 10) :: acc) (div10_bound _ _ Hn) ltac:(lia)).
  simpl length in IH. lia.
Qed.

Lemma length_print_dec n : 0 <= n < 10 ^ 5 -> (1 <= length (print_dec n) <= 5)%nat.
Proof.
  intros Hn. unfold print_dec. rewrite (proj2 (Z.ltb_ge n 0)) by lia.
  apply (length_digits_aux 10 5 n []); [done|lia].
Qed.

(** With room for every count nothing is cut. *)
Lemma cycle_text_app size cs out :
  Forall (fun c => 0 <= c < 10 ^ 5) cs ->
  Z.of_nat (length out) + 6 * Z.of_nat (length cs) < size ->
  foldl (fun out c => scnprintf size out (print_dec c ++ [SPACE])) out cs =
  out ++ concat ((fun c => print_dec c ++ [SPACE]) <$> cs).
Proof.
  intros Hcs. revert out. induction Hcs as [|c cs Hc _ IH]; intros out Hsize; simpl.
  { by rewrite app_nil_r. }
  pose proof (length_print_dec c Hc) as Hlen. simpl length in Hsize.
  assert (scnprintf size out (print_dec c ++ [SPACE]) = out ++ print_dec c ++ [SPACE]) as ->.
  { unfold scnprintf. f_equal. apply take_ge. rewrite length_app. simpl. lia. }
  rewrite IH by (rewrite !length_app; simpl; lia). by rewrite <- !app_assoc.
Qed.

(** Scanning the counts back: the last blank may be any other character. *)
Lemma scan_cycle_text cs last :
  Forall (fun c => 0 <= c < 2 ^ 31) cs -> isdigit last = false ->
  forall text, cs <> [] ->
  concat ((fun c => print_dec c ++ [SPACE]) <$> cs) = text ++ [SPACE] ->
  scan_ints (length cs) (text ++ [last]) = cs.
Proof.
  intros Hcs Hl. induction Hcs as [|c cs Hc Hcs IH]; intros text Hne Heq; [done|].
  simpl in Heq. destruct cs as [|c' cs].
  - simpl in Heq. rewrite app_nil_r in Heq. apply app_inj_tail in Heq as [<- _].
    cbn [length scan_ints]. by rewrite scan_print.
  - rewrite <- !app_assoc in Heq.
    assert (exists text', text = print_dec c ++ SPACE :: text' /\
      concat ((fun c => print_dec c ++ [SPACE]) <$> c' :: cs) = text' ++ [SPACE])
      as (text' & -> & Heq').
    { set (tl := concat _) in *.
      assert (exists t', tl = t' ++ [SPACE]) as [t' Ht'].
      { subst tl. clear. induction cs as [|c2 cs IH] in c' |- *.
        - exists (print_dec c'). simpl. by rewrite app_nil_r.
        - destruct (IH c2) as [t' Ht']. exists ((print_dec c' ++ [SPACE]) ++ t').
          rewrite fmap_cons, concat_cons, Ht'. by rewrite <- !app_assoc. }
      exists t'. rewrite Ht' in Heq |- *. rewrite app_assoc, app_assoc in Heq.
      apply app_inj_tail in Heq as [<- _]. by rewrite <- app_assoc. }
    change (length (c :: c' :: cs)) with (S (length (c' :: cs))).
    set (n := length (c' :: cs)) in *. cbn [scan_ints]. rewrite <- app_assoc.
    change ((SPACE :: text') ++ [last]) with (SPACE :: text' ++ [last]).
    rewrite scan_print by done. f_equal.
    assert (Hskip : forall n s, scan_ints n (SPACE :: s) = scan_ints n s) by (by intros []).
    rewrite Hskip. apply IH; [done|exact Heq'].
Qed.

(** Cycle counts survive their text form: ten counts below 65535, printed with
    [gbms_cycle_count_cstr_bc] into a buffer that can hold them, are read back unchanged
    by [gbms_cycle_count_sscan_bc], whatever the counts were before. *)
Theorem cycle_count_roundtrip size cs old :
  length cs = 10%nat -> length old = 10%nat -> Forall (fun c => 0 <= c < U16_MAX) cs ->
  60 < size ->
  exists text len, gbms_cycle_count_cstr_bc size cs 10 = Ret (text, len) /\
    len = Z.of_nat (length text) /\ len < size /\
    gbms_cycle_count_sscan_bc old 10 text = (0, cs).
Proof.
  intros Hl Ho Hcs Hsize. unfold gbms_cycle_count_cstr_bc, cycle_text.
  rewrite (proj2 (Z.ltb_ge _ _)) by lia. rewrite take_ge by lia.
  assert (Hc5 : Forall (fun c => 0 <= c < 10 ^ 5) cs).
  { eapply Forall_impl; [exact Hcs|]. unfold U16_MAX. intros; lia. }
  rewrite (cycle_text_app size cs []); [|exact Hc5|rewrite Hl; simpl length; lia].
  rewrite app_nil_l.
  set (full := concat _).
  assert (Hlen : (1 <= length full <= 60)%nat).
  { assert (forall l, Forall (fun c => 0 <= c < 10 ^ 5) l ->
      (length l <= length (concat ((fun c => print_dec c ++ [SPACE]) <$> l)) <= 6 * length l)%nat)
      as Hb.
    { clear. induction 1 as [|c l Hc _ IH]; [simpl; lia|].
      pose proof (length_print_dec c Hc). rewrite fmap_cons, concat_cons, !length_app.
      cbn [length] in *. lia. }
    specialize (Hb cs Hc5). rewrite Hl in Hb. subst full. lia. }
  assert (exists text, full = text ++ [SPACE]) as [text Htext].
  { destruct (exists_last (l := cs)) as (cs' & c & Hcs'); [by destruct cs|].
    exists (concat ((fun c => print_dec c ++ [SPACE]) <$> cs') ++ print_dec c).
    subst full. rewrite Hcs', fmap_app, concat_app. simpl. by rewrite app_nil_r, app_assoc. }
  rewrite (proj2 (Z.eqb_neq _ _)) by lia. eexists _, _. split; [done|].
  assert (Hins : <[Z.to_nat (Z.of_nat (length full) - 1) := NEWLINE]> full = text ++ [NEWLINE]).
  { rewrite Htext, length_app. simpl.
    replace (Z.to_nat (Z.of_nat (length text + 1) - 1)) with (length text + 0)%nat by lia.
    by rewrite insert_app_r. }
  rewrite Hins. split; [rewrite Htext, !length_app; simpl; lia|]. split; [lia|].
  unfold gbms_cycle_count_sscan_bc. change (negb (10 =? 10)) with false. cbv iota zeta.
  assert (Hscan : scan_ints 10 (text ++ [NEWLINE]) = cs).
  { rewrite <- Hl. apply scan_cycle_text; [|done|by destruct cs|by rewrite <- Htext].
    eapply Forall_impl; [exact Hcs|]. unfold U16_MAX. intros; lia. }
  rewrite Hscan, Hl. change (negb (Z.of_nat 10 =? 10)) with false. cbv iota. f_equal.
  revert Hcs. clear -Hl Ho. assert (Hlen : length cs = length old) by lia. clear Hl Ho.
  revert old Hlen. induction cs as [|c cs IH]; intros [|o old] Hlen Hcs; simplify_eq/=; [done|].
  apply Forall_cons in Hcs as [Hc Hcs]. rewrite IH by done.
  by rewrite (proj2 (Z.leb_le 0 c)), (proj2 (Z.ltb_lt c U16_MAX)) by lia.
Qed.

Lemma cycle_count_roundtrip_witness :
  exists text len, gbms_cycle_count_cstr_bc 100 [1; 20; 300; 4; 5; 6; 7; 8; 9; 65534] 10 = Ret (text, len) /\
    len = Z.of_nat (length text) /\ len < 100 /\
    gbms_cycle_count_sscan_bc (replicate 10 0) 10 text = (0, [1; 20; 300; 4; 5; 6; 7; 8; 9; 65534]).
Proof.
  apply (cycle_count_roundtrip 100 [1; 20; 300; 4; 5; 6; 7; 8; 9; 65534] (replicate 10 0));
    [reflexivity|reflexivity|by repeat constructor|done].
Defined.

(** ** Log entries *)

(** The lines of a text that ends with a newline, and the entries of a line. *)
Fixpoint lines_from (cur : list Z) (s : list Z) : list (list Z) :=
  match s with
  | [] => []
  | c :: s' => if c =? NEWLINE then cur :: lines_from [] s' else lines_from (cur ++ [c]) s'
  end.

Fixpoint chunks (fuel : nat) (l : list Z) : list (list Z) :=
  match fuel with
  | O => []
  | S fuel => if (length l <=? 255)%nat then [l] else take 255 l :: chunks fuel (drop 255 l)
  end.

(** Every line cut into entries of at most 255 characters. *)
Definition entries (l : list Z) : list (list Z) := chunks (S (length l)) l.

(** What an entry under construction and the text to come will give: the rest of the
    current line joins [tmp]. *)
Fixpoint pending (tmp : list Z) (s : list Z) : list (list Z) :=
  match s with
  | [] => []
  | c :: s' =>
    if c =? NEWLINE then tmp :: pending [] s'
    else if (255 <=? length tmp)%nat then tmp :: pending [c] s'
    else pending (tmp ++ [c]) s'
  end.

(** The loop ends, and logs what is pending; at index 0 a newline logs nothing. *)
Lemma log_loop_pending fuel i rest tmp out :
  0 < i -> (2 * length rest + (if (255 <=? length tmp)%nat then 1 else 0) < fuel)%nat ->
  log_loop fuel i rest tmp out = Some (out ++ pending tmp rest).
Proof.
  revert i rest tmp out. induction fuel as [|fuel IH]; intros i rest tmp out Hi Hf; [lia|].
  cbn [log_loop]. destruct rest as [|c rest]; [by rewrite app_nil_r|].
  cbn [pending]. simpl length in Hf. destruct (Z.eqb_spec c NEWLINE).
  - rewrite (proj2 (Z.eqb_neq i 0)) by lia. cbn [negb].
    rewrite IH by (simpl; lia). by rewrite <- app_assoc.
  - unfold LOG_BUFFER_ENTRY_SIZE. destruct (Nat.leb_spec 255 (length tmp)).
    + rewrite (proj2 (Z.leb_le _ _)) by lia. rewrite IH by (simpl; lia).
      cbn [pending]. destruct (Z.eqb_spec c NEWLINE); [done|]. simpl. by rewrite <- app_assoc.
    + rewrite (proj2 (Z.leb_gt _ _)) by lia. apply IH; [lia|].
      destruct (Nat.leb_spec 255 (length (tmp ++ [c]))); lia.
Qed.

Lemma length_app_snoc {A} (l : list A) c : length (l ++ [c]) = S (length l).
Proof. rewrite length_app. simpl. lia. Qed.

(** Enough fuel makes no difference to the entries of a line. *)
Lemma chunks_fuel n m l : (length l < n)%nat -> (length l < m)%nat -> chunks n l = chunks m l.
Proof.
  revert m l. induction n as [|n IH]; intros m l Hn Hm; [lia|]. destruct m as [|m]; [lia|].
  cbn [chunks]. destruct (Nat.leb_spec (length l) 255); [done|].
  f_equal. apply IH; rewrite length_drop; lia.
Qed.

Lemma entries_short l : (length l <= 255)%nat -> entries l = [l].
Proof. intros Hl. unfold entries. cbn [chunks]. by rewrite (proj2 (Nat.leb_le _ _)). Qed.

Lemma entries_long a b : length a = 255%nat -> b <> [] -> entries (a ++ b) = a :: entries b.
Proof.
  intros Ha Hb. unfold entries at 1. cbn [chunks].
  assert (0 < length b)%nat by (destruct b; simpl; [done|lia]).
  rewrite (proj2 (Nat.leb_gt _ _)) by (rewrite length_app; lia).
  rewrite take_app_length', drop_app_length' by done. f_equal.
  apply chunks_fuel; rewrite ?length_app; lia.
Qed.

(** Pending entries are the entries of the lines; [tmp] holds less than one entry of the
    current line, so it is the head of what the line still has to give. *)
Lemma pending_lines s tmp :
  (length tmp <= 255)%nat -> Forall (fun c => c <> NEWLINE) tmp ->
  pending tmp (s ++ [NEWLINE]) = mjoin (entries <$> lines_from tmp (s ++ [NEWLINE])).
Proof.
  revert tmp. induction s as [|c s IH]; intros tmp Hl Ht.
  { simpl. by rewrite entries_short. }
  cbn [app pending lines_from]. destruct (Z.eqb_spec c NEWLINE).
  - rewrite IH; [|simpl; lia|constructor]. rewrite fmap_cons. cbn [mjoin list_join].
    by rewrite (entries_short tmp).
  - destruct (Nat.leb_spec 255 (length tmp)).
    + rewrite IH; [|simpl; lia|by repeat constructor].
      assert (Hsplit : forall a b, length a = 255%nat -> b <> [] ->
        exists rest, lines_from (a ++ b) (s ++ [NEWLINE]) = (a ++ b ++ rest) :: drop 1 (lines_from b (s ++ [NEWLINE])) /\
          lines_from b (s ++ [NEWLINE]) = (b ++ rest) :: drop 1 (lines_from b (s ++ [NEWLINE]))).
      { clear. induction s as [|d s IH]; intros a b Ha Hb; cbn [app lines_from].
        - exists []. by rewrite app_nil_r.
        - destruct (Z.eqb_spec d NEWLINE).
          + exists []. by rewrite app_nil_r.
          + destruct (IH a (b ++ [d]) Ha) as (rest & H1 & H2); [by destruct b|].
            exists (d :: rest). rewrite <- app_assoc.
            replace (b ++ d :: rest) with ((b ++ [d]) ++ rest) by (by rewrite <- app_assoc).
            split; [|exact H2]. rewrite H1. done. }
      destruct (Hsplit tmp [c]) as (rest & H1 & H2); [lia|done|].
      rewrite H1, H2, !fmap_cons. cbn [mjoin list_join].
      by rewrite (entries_long tmp) by (done || lia).
    + apply IH; [rewrite length_app_snoc; lia|]. apply Forall_app. by repeat constructor.
Qed.

(** The same text, without the empty line that a leading newline makes. *)
Definition logged_lines (text : list Z) : list (list Z) :=
  match text with
  | c :: text' => if c =? NEWLINE then lines_from [] (text' ++ [NEWLINE])
                  else lines_from [] (text ++ [NEWLINE])
  | [] => []
  end.

(** [gbms_log_cstr_handler] terminates and logs the text line by line: a leading blank
    line is dropped, every other line is logged, cut into entries of at most 255
    characters, in order and with nothing lost. *)
Theorem log_cstr_handler_logs_lines buf len :
  0 <= len < Z.of_nat (length buf) ->
  gbms_log_cstr_handler buf len =
  Ret (mjoin (entries <$> logged_lines (take (Z.to_nat len) buf))).
Proof.
  intros Hlen. unfold gbms_log_cstr_handler.
  rewrite (proj2 (Z.ltb_ge len 0)), (proj2 (Z.leb_gt (Z.of_nat (length buf)) len)) by lia.
  cbn [orb]. set (text := take _ buf). cbv zeta.
  replace (2 * length (text ++ [NEWLINE]) + 2)%nat with (S (2 * length (text ++ [NEWLINE]) + 1))
    by lia. unfold logged_lines. destruct text as [|c text].
  - reflexivity.
  - cbn [app log_loop]. destruct (Z.eqb_spec c NEWLINE).
    + change (negb (0 =? 0)) with false. cbv iota.
      rewrite log_loop_pending by (simpl; rewrite ?length_app; simpl; lia).
      rewrite app_nil_l, pending_lines; [done|simpl; lia|constructor].
    + change (LOG_BUFFER_ENTRY_SIZE - 1 <=? Z.of_nat (length [])) with false. cbv iota.
      rewrite log_loop_pending by (simpl; rewrite ?length_app; simpl; lia).
      rewrite app_nil_l, pending_lines; [|simpl; lia|by repeat constructor].
      cbn [lines_from]. by destruct (Z.eqb_spec c NEWLINE).
Qed.

Lemma log_cstr_handler_logs_lines_witness :
  gbms_log_cstr_handler [10; 65; 66; 10; 67; 0] 5 = Ret [[65; 66]; [67]].
Proof. apply (log_cstr_handler_logs_lines [10; 65; 66; 10; 67; 0] 5). simpl. lia. Defined.
