(* ===== verification/Ttf.v ===== *)
(** Time to full (bms/google_ttf.c, bms/qmath.h): the estimate of the charging time from
    reference and collected statistics, corrected for the power of the adapter.

    An [int] computation wraps around at 32 bits, one on [ktime_t] at 64; an access out
    of range and a division by zero are undefined.  The lock is taken and released
    inside each function and has no effect on the values. *)

From S2P Require Import Prelude GbmsProfile GbmsCharge.

(** ** Fixed-point numbers (qmath.h): 8 bits before the point, 24 behind *)

Definition QNUM_BITS : Z := 32.
Definition QNUM_IBITS : Z := 8.
Definition QNUM_FBITS : Z := QNUM_BITS - QNUM_IBITS.
Definition QNUM_FMASK : Z := Z.shiftl 1 QNUM_FBITS - 1.

(** [R * (2^24 + 0.5)], truncated: the half is multiplied too. *)
Definition qnum_rconst (R : Z) : Z :=
  s32 (cdiv (R * (2 * Z.shiftl 1 QNUM_FBITS + (if 0 <=? R then 1 else -1))) 2).

Definition qnum_fromint (I : Z) : Z := Z.shiftl I QNUM_FBITS.
Definition qnum_from_q8_8 (Q8_8 : Z) : Z := Z.shiftl Q8_8 (QNUM_FBITS - 8).
Definition qnum_toint (F : Z) : Z := s32 (Z.shiftr F QNUM_FBITS).

Definition qnum_mul (A B : Z) : Z := s32 (Z.shiftr (A * B) QNUM_FBITS).
Definition qnum_div (A B : Z) : outcome Z :=
  if B =? 0 then Undef else Ret (s32 (cdiv (Z.shiftl A QNUM_FBITS) B)).

Definition qnum_fracpart (A : Z) : Z := Z.land A QNUM_FMASK.
Definition QNUM_FRACBITS (A : Z) : Z :=
  Z.land (s32 (Z.shiftl (qnum_fracpart A) QNUM_IBITS)) (Z.shiftl 1 QNUM_BITS - 1).
Definition QNUM_FRACn (A n : Z) : Z := crem (Z.shiftr (QNUM_FRACBITS A * n) QNUM_BITS) n.
Definition qnum_nfracdgt2 (A : Z) : Z := QNUM_FRACn A 100.

(** ** Data *)

Definition GBMS_STATS_TIER_COUNT : Z := 3.
Definition GBMS_SOC_STATS_LEN : Z := 101.
Definition ELAP_LIMIT_S : Z := 60.

Record ttf_soc_stats := mk_soc {
  ss_ti : list Z;
  ss_cc : list Z;
  ss_elap : list Z;
}.

Record ttf_tier_stat := mk_ts {
  ts_soc_in : Z;
  ts_cc_in : Z;
  ts_cc_total : Z;
  ts_avg_time : Z;
}.

Record batt_ttf_stats := mk_ttf {
  ttf_fake : Z;
  soc_ref : ttf_soc_stats;
  ref_temp_idx : Z;
  ref_watts : Z;
  soc_stats : ttf_soc_stats;
  tier_stats : list ttf_tier_stat;
  report_max_ratio : Z;
  fcc_now : Z;
}.

(** The parts of [struct gbms_charging_event] that the estimates read. *)
Record gbms_charging_event := mk_ce {
  ad_voltage : Z;
  ad_amperage : Z;
  chg_profile : gbms_chg_profile;
  ssoc_in : Z;
  ssoc_out : Z;
  ce_tier_stats : list gbms_ce_tier_stats;
  ce_soc_stats : ttf_soc_stats;
  last_soc : Z;
  rest_state : Z;
  rest_soc : Z;
  always_on_soc : Z;
  rest_rate : Z;
  rest_cc_max : Z;
  health_stats : gbms_ce_tier_stats;
}.

Definition CHG_HEALTH_ACTIVE : Z := 2.
Definition CHG_HEALTH_PAUSE : Z := 3.

Definition set_soc_stats (s : ttf_soc_stats) (t : batt_ttf_stats) : batt_ttf_stats :=
  mk_ttf (ttf_fake t) (soc_ref t) (ref_temp_idx t) (ref_watts t) s (tier_stats t)
    (report_max_ratio t) (fcc_now t).
Definition set_tier_stats (l : list ttf_tier_stat) (t : batt_ttf_stats) : batt_ttf_stats :=
  mk_ttf (ttf_fake t) (soc_ref t) (ref_temp_idx t) (ref_watts t) (soc_stats t) l
    (report_max_ratio t) (fcc_now t).
Definition set_soc_ref (s : ttf_soc_stats) (t : batt_ttf_stats) : batt_ttf_stats :=
  mk_ttf (ttf_fake t) s (ref_temp_idx t) (ref_watts t) (soc_stats t) (tier_stats t)
    (report_max_ratio t) (fcc_now t).

(** [a[i]] of an array of structs. *)
Definition tier_at {A} (l : list A) (i : Z) : outcome A :=
  if i <? 0 then Undef else must (l !! Z.to_nat i).

(** ** Power *)

(** [div_s64(a, b)] with a 32-bit divisor. *)
Definition div_s64 (a b : Z) : outcome Z :=
  let b := s32 b in if b =? 0 then Undef else Ret (cdiv a b).

Definition ttf_pwr_icl (ts : gbms_ce_tier_stats) (amperage : Z) : outcome Z :=
  let elap := s32 (u32 (t_time_fast ts + t_time_taper ts)) in
  if elap <=? ELAP_LIMIT_S then Ret (amperage * 100)
  else let* a := div_s64 (t_icl_sum ts) (u32 (elap + t_time_other ts)) in Ret (s32 a).

Definition ttf_pwr_ibatt (ts : gbms_ce_tier_stats) : outcome Z :=
  let elap := s32 (u32 (t_time_fast ts + t_time_taper ts)) in
  if elap <=? ELAP_LIMIT_S then Ret 0 else
  let* avg := div_s64 (t_ibatt_sum ts) (u32 (elap + t_time_other ts)) in
  let avg := s32 avg in
  Ret (s32 (avg * (if avg <? 0 then -1 else 1))).

(** Nominal voltage tier index for this soc. *)
Definition ttf_pwr_vtier_idx (stats : batt_ttf_stats) (soc : Z) : outcome Z :=
  let* i := scan_up (Z.to_nat GBMS_STATS_TIER_COUNT) GBMS_STATS_TIER_COUNT
              (fun i => let* ts := tier_at (tier_stats stats) i in
                        Ret (negb (soc <? Z.shiftr (ts_soc_in ts) 8))) 1 in
  Ret (i - 1).

Definition ttf_cc_check (s : ttf_soc_stats) (soc : Z) : outcome bool :=
  let* a := at_ (ss_cc s) soc in
  if a =? 0 then Ret false else
  let* b := at_ (ss_cc s) (soc + 1) in
  Ret (negb (b =? 0) && (a <? b)).

(** [ttf_cc_check(s, soc) && s->elap[soc]]. *)
Definition has_cc (s : ttf_soc_stats) (soc : Z) : outcome bool :=
  let* c := ttf_cc_check s soc in
  if (c : bool) then let* e := at_ (ss_elap s) soc in Ret (negb (e =? 0)) else Ret false.

(** [div64_u64((delta_cc * 3600), elap)]. *)
Definition soc_current (s : ttf_soc_stats) (soc : Z) : outcome Z :=
  let* b := at_ (ss_cc s) (soc + 1) in
  let* a := at_ (ss_cc s) soc in
  let* e := at_ (ss_elap s) soc in
  if u64 e =? 0 then Undef else
  Ret (s32 (u64 (s32 (s32 (b - a) * 3600)) / u64 e)).

Definition ttf_ref_cc (stats : batt_ttf_stats) (soc : Z) : outcome Z :=
  if GBMS_SOC_STATS_LEN <=? soc + 1 then Ret 0 else
  let* c := has_cc (soc_stats stats) soc in
  if (c : bool) then soc_current (soc_stats stats) soc else
  let* c := has_cc (soc_ref stats) soc in
  if (c : bool) then soc_current (soc_ref stats) soc else Ret 0.

Definition CHG_HEALTH_REST_SOC (ce : gbms_charging_event) : Z :=
  if negb (always_on_soc ce =? -1) then always_on_soc ce else rest_soc ce.

Definition ttf_pwr_health (ce : gbms_charging_event) (soc : Z) : bool :=
  (rest_state ce =? CHG_HEALTH_ACTIVE) && (CHG_HEALTH_REST_SOC ce <=? soc).

Definition ttf_pwr_health_pause (ce : gbms_charging_event) (soc : Z) : bool :=
  (rest_state ce =? CHG_HEALTH_PAUSE) && (CHG_HEALTH_REST_SOC ce <=? soc).

(** Input current at the tier voltage, not more than the battery takes in the tier. *)
Definition ttf_pwr_equiv_icl (ce : gbms_charging_event) (vbatt_idx soc fcc : Z) : outcome Z :=
  let l := limits (chg_profile ce) in
  let* v := at_ (volt_limits l) vbatt_idx in
  let* volt_limit := if v =? 0 then at_ (volt_limits l) (volt_nb_limits l - 1) else Ret v in
  let mv := cdiv volt_limit 1000 in
  if mv =? 0 then Undef else
  let aratio := cdiv (ad_voltage ce * 10000) mv in
  let efficiency := 95 in
  let* ht :=
    if ttf_pwr_health ce soc then Ret (cdiv (rest_cc_max ce) 1000, health_stats ce)
    else if ttf_pwr_health_pause ce soc then
      Ret (s32 (u32 (capacity_ma l * rest_rate ce * 10) / 1000), health_stats ce)
    else let* t := tier_at (ce_tier_stats ce) vbatt_idx in Ret (-1, t) in
  let '(health_ibatt, ts) := ht in
  let* act_icl := ttf_pwr_icl ts (ad_amperage ce) in
  if act_icl <=? 0 then Ret (- EINVAL) else
  let equiv_icl := cdiv (s32 (s32 (act_icl * aratio) * efficiency)) 10000 in
  let* act_ibatt := ttf_pwr_ibatt ts in
  let act_ibatt :=
    if (act_ibatt =? 0) && (0 <? health_ibatt) then health_ibatt
    else if (0 <? fcc) && ((act_ibatt =? 0) || (fcc <? act_ibatt)) then fcc
    else act_ibatt in
  if act_ibatt <? 0 then Ret (- EINVAL) else
  Ret (if (0 <? act_ibatt) && (act_ibatt <? equiv_icl) then act_ibatt else equiv_icl).

(** The row of the profile for the temperature of a tier. *)
Definition tier_temp_idx (p : gbms_chg_profile) (t : gbms_ce_tier_stats) : outcome Z :=
  if t_temp_idx t =? -1 then
    let elap := s32 (u32 (t_time_fast t + t_time_taper t + t_time_other t)) in
    let t_avg := if negb (t_temp_sum t =? 0) || (elap =? 0) then t_temp_in t else 0 in
    let t_avg := if t_avg =? 0 then 250 else t_avg in
    gbms_msc_temp_idx p t_avg
  else Ret (t_temp_idx t).

(** Time scaling factor for available power and SOC demand, in percent. *)
Definition ttf_pwr_ratio (stats : batt_ttf_stats) (ce : gbms_charging_event) (soc : Z)
    : outcome Z :=
  let p := chg_profile ce in
  let* vi := ttf_pwr_vtier_idx stats soc in
  if vi <? 0 then Ret (- EINVAL) else
  let* t := tier_at (ce_tier_stats ce) vi in
  let* ti := tier_temp_idx p t in
  if (t_temp_idx t =? -1) && (ti <? 0) then Ret (- EINVAL) else
  let vi := if volt_nb_limits (limits p) - 1 <? vi then volt_nb_limits (limits p) - 1 else vi in
  let* cc := GBMS_CCCM_LIMITS p ti vi in
  let cc_max := cc / 1000 in
  let* avg_cc := ttf_ref_cc stats soc in
  let avg_cc := if avg_cc <=? 0 then cc_max else avg_cc in
  let* equiv_icl := ttf_pwr_equiv_icl ce vi soc (cdiv (fcc_now stats) 1000) in
  if equiv_icl <=? 0 then Ret (- EINVAL) else
  let equiv_icl := if cc_max <? equiv_icl then cc_max else equiv_icl in
  if equiv_icl =? 0 then Ret (- EINVAL) else
  if equiv_icl <? avg_cc then Ret (cdiv (s32 (avg_cc * 100)) equiv_icl) else Ret 100.

(** ** SOC estimates *)

Definition ttf_ref_elap (stats : batt_ttf_stats) (soc : Z) : outcome Z :=
  if (soc <? 0) || (100 <=? soc) then Ret 0 else
  let* e := at_ (ss_elap (soc_stats stats)) soc in
  let* e := if e =? 0 then at_ (ss_elap (soc_ref stats)) soc else Ret e in
  Ret (s32 e).

(** The ratio, or an error, and the time for one soc in hundredths of seconds. *)
Definition ttf_elap (stats : batt_ttf_stats) (ce : gbms_charging_event) (soc : Z)
    : outcome (Z * option Z) :=
  let* elap := ttf_ref_elap stats soc in
  if elap =? 0 then Ret (- EINVAL, None) else
  let* ratio := ttf_pwr_ratio stats ce soc in
  if ratio <? 0 then Ret (- EINVAL, None) else
  Ret (ratio, Some (s64 (elap * ratio))).

(** The loop of [ttf_soc_estimate] over [n] whole percents from [i]: an error, or the
    estimate and the largest ratio. *)
Fixpoint estimate_loop (stats : batt_ttf_stats) (ce : gbms_charging_event) (n : nat)
    (i estimate max_ratio : Z) : outcome (Z + Z * Z) :=
  match n with
  | O => Ret (inr (estimate, max_ratio))
  | S n =>
    if (ssoc_in ce <=? i) && (i <? last_soc ce) then
      let* e := at_ (ss_elap (ce_soc_stats ce)) i in
      estimate_loop stats ce n (i + 1) (s64 (estimate + s64 (e * 100))) max_ratio
    else
      let* re := ttf_elap stats ce i in
      match re with
      | (ratio, Some elap) =>
        estimate_loop stats ce n (i + 1) (s64 (estimate + elap)) (Z.max ratio max_ratio)
      | (ratio, None) => Ret (inl ratio)
      end
  end.

(** Status or largest ratio, and the estimate in seconds. *)
Definition ttf_soc_estimate (stats : batt_ttf_stats) (ce : gbms_charging_event)
    (soc last : Z) : outcome (Z * option Z) :=
  if (qnum_rconst 100 <? last) || (last <? soc) then Ret (- EINVAL, None) else
  if last =? soc then Ret (0, Some 0) else
  let frac := qnum_nfracdgt2 soc in
  let* first :=
    if frac =? 0 then Ret (0, 0, 0) else
    let* re := ttf_elap stats ce (qnum_toint soc) in
    match re with
    | (ratio, Some elap) => Ret (1, cdiv (s64 (elap * (100 - frac))) 100, Z.max ratio 0)
    | (ratio, None) => Ret (1, 0, Z.max ratio 0)
    end in
  let '(i, estimate, max_ratio) := first in
  let i := i + qnum_toint soc in
  let* res := estimate_loop stats ce (Z.to_nat (qnum_toint last - i)) i estimate max_ratio in
  match res with
  | inl err => Ret (err, None)
  | inr (estimate, max_ratio) =>
    let frac := qnum_nfracdgt2 last in
    let* em :=
      if frac =? 0 then Ret (estimate, max_ratio) else
      let* re := ttf_elap stats ce (qnum_toint last) in
      match re with
      | (ratio, Some elap) =>
        Ret (s64 (estimate + cdiv (s64 (elap * frac)) 100), Z.max ratio max_ratio)
      | (ratio, None) => Ret (estimate, Z.max ratio max_ratio)
      end in
    Ret (snd em, Some (cdiv (fst em) 100))
  end.

(** ** Learning from a charging event *)

Definition TTF_SOC_QUAL_ELAP_RATIO_MAX : Z := 200.
Definition TTF_SOC_QUAL_ELAP_DELTA_CUR_ABS_MAX : Z := 60.
Definition TTF_SOC_QUAL_ELAP_DELTA_REF_PCT_MAX : Z := 20.
Definition TTF_SOC_QUAL_CC_DELTA_CUR_ABS_MAX : Z := 40.
Definition TTF_SOC_QUAL_CC_DELTA_REF_PCT_MAX : Z := 20.

(** [if (x > hi) x = hi; else if (x < lo) x = lo;] *)
Definition clamp_to (lo hi x : Z) : Z :=
  if hi <? x then hi else if x <? lo then lo else x.

Definition ttf_soc_qual_elap (stats : batt_ttf_stats) (ce : gbms_charging_event) (i : Z)
    : outcome Z :=
  let pct := TTF_SOC_QUAL_ELAP_DELTA_REF_PCT_MAX in
  let* ref := at_ (ss_elap (soc_ref stats)) i in
  let max_elap := s32 (cdiv (s64 ((100 + pct) * ref)) 100) in
  let min_elap := s32 (cdiv (s64 ((100 - pct) * ref)) 100) in
  let* src := at_ (ss_elap (ce_soc_stats ce)) i in
  if src =? 0 then Ret 0 else
  let* ratio := ttf_pwr_ratio stats ce i in
  if (ratio <=? 0) || (TTF_SOC_QUAL_ELAP_RATIO_MAX <? ratio) then Ret 0 else
  let elap_new := cdiv (s64 (src * 100)) ratio in
  let* cur := at_ (ss_elap (soc_stats stats)) i in
  let elap_cur := if cur =? 0 then ref else cur in
  let elap := cdiv (s64 (elap_cur + elap_new)) 2 in
  let elap := clamp_to (s64 (elap_cur - TTF_SOC_QUAL_ELAP_DELTA_CUR_ABS_MAX))
                (s64 (elap_cur + TTF_SOC_QUAL_ELAP_DELTA_CUR_ABS_MAX)) elap in
  Ret (clamp_to min_elap max_elap elap).

Definition ttf_soc_qual_cc (stats : batt_ttf_stats) (ce : gbms_charging_event) (i : Z)
    : outcome Z :=
  let pct := TTF_SOC_QUAL_CC_DELTA_REF_PCT_MAX in
  let* ref := at_ (ss_cc (soc_ref stats)) i in
  let max_cc := cdiv (s32 ((100 + pct) * ref)) 100 in
  let min_cc := cdiv (s32 ((100 - pct) * ref)) 100 in
  let* src := at_ (ss_cc (ce_soc_stats ce)) i in
  if src =? 0 then Ret 0 else
  let* cur := at_ (ss_cc (soc_stats stats)) i in
  let cc_cur := if cur <=? 0 then ref else cur in
  let cc := cdiv (s32 (cc_cur + src)) 2 in
  let cc := clamp_to (s32 (cc_cur - TTF_SOC_QUAL_CC_DELTA_CUR_ABS_MAX))
              (s32 (cc_cur + TTF_SOC_QUAL_CC_DELTA_CUR_ABS_MAX)) cc in
  Ret (clamp_to min_cc max_cc cc).

(** [a[i] = v]. *)
Definition put_cell (a : list Z) (i v : Z) : outcome (list Z) :=
  if (i <? 0) || (Z.of_nat (length a) <=? i) then Undef else Ret (<[Z.to_nat i := v]> a).

Definition set_elap (i v : Z) (stats : batt_ttf_stats) : outcome batt_ttf_stats :=
  let s := soc_stats stats in
  let* e := put_cell (ss_elap s) i v in
  Ret (set_soc_stats (mk_soc (ss_ti s) (ss_cc s) e) stats).

Definition set_cc (i v : Z) (stats : batt_ttf_stats) : outcome batt_ttf_stats :=
  let s := soc_stats stats in
  let* c := put_cell (ss_cc s) i v in
  Ret (set_soc_stats (mk_soc (ss_ti s) c (ss_elap s)) stats).

(** The body of the loop of [ttf_soc_update]. *)
Definition soc_update_one (stats : batt_ttf_stats) (ce : gbms_charging_event) (i : Z)
    : outcome batt_ttf_stats :=
  let src := ce_soc_stats ce in
  let* e := at_ (ss_elap src) i in
  let* skip := if e =? 0 then Ret true else let* c := at_ (ss_cc src) i in Ret (c =? 0) in
  if (skip : bool) then Ret stats else
  let* elap := ttf_soc_qual_elap stats ce i in
  let* stats := if elap =? 0 then Ret stats else set_elap i elap stats in
  let* cc := ttf_soc_qual_cc stats ce i in
  if cc =? 0 then Ret stats else set_cc i cc stats.

Fixpoint soc_update_loop (stats : batt_ttf_stats) (ce : gbms_charging_event) (n : nat) (i : Z)
    : outcome batt_ttf_stats :=
  match n with
  | O => Ret stats
  | S n => let* stats := soc_update_one stats ce i in soc_update_loop stats ce n (i + 1)
  end.

Definition ttf_soc_update (stats : batt_ttf_stats) (ce : gbms_charging_event)
    (first_soc last_soc : Z) : outcome batt_ttf_stats :=
  let* stats := soc_update_loop stats ce (Z.to_nat (last_soc + 1 - first_soc)) first_soc in
  if negb (last_soc =? 98) then Ret stats else
  let* c := ttf_cc_check (soc_ref stats) 98 in
  if negb c then Ret stats else
  let* a := at_ (ss_cc (soc_stats stats)) 98 in
  let* r99 := at_ (ss_cc (soc_ref stats)) 99 in
  let* r98 := at_ (ss_cc (soc_ref stats)) 98 in
  set_cc 99 (s32 (a + s32 (r99 - r98))) stats.

Definition ttf_soc_init : ttf_soc_stats :=
  let z := replicate (Z.to_nat GBMS_SOC_STATS_LEN) 0 in mk_soc z z z.

(** ** Tier estimates *)

Definition BATT_TTF_TS_VALID (ts : ttf_tier_stat) : bool :=
  negb (ts_cc_total ts =? 0) && negb (ts_avg_time ts =? 0).

(** The loop of [ttf_tier_accumulate], [n] passes from [vbatt_idx]; [ts] points to entry
    [base] of the array [tiers]. *)
Fixpoint accumulate_loop (tiers : list ttf_tier_stat) (base : Z) (n : nat)
    (vbatt_idx estimate : Z) : outcome Z :=
  match n with
  | O => Ret estimate
  | S n =>
    let* ts := tier_at tiers base in
    if negb (BATT_TTF_TS_VALID ts) then Ret (- ENODATA) else
    let* t := tier_at tiers (base + vbatt_idx) in
    accumulate_loop tiers base n (vbatt_idx + 1) (s64 (estimate + ts_avg_time t))
  end.

Definition ttf_tier_accumulate (tiers : list ttf_tier_stat) (base vbatt_idx : Z) : outcome Z :=
  if GBMS_STATS_TIER_COUNT <=? vbatt_idx then Ret 0
  else accumulate_loop tiers base (Z.to_nat (GBMS_STATS_TIER_COUNT - vbatt_idx)) vbatt_idx 0.

(** Status, and the estimate if it is 0. *)
Definition ttf_tier_estimate (stats : batt_ttf_stats) (temp_idx vbatt_idx : Z)
    : outcome (Z * option Z) :=
  if (vbatt_idx =? -1) && (temp_idx =? -1) then Ret (- EINVAL, None) else
  let* ts := tier_at (tier_stats stats) vbatt_idx in
  if negb (BATT_TTF_TS_VALID ts) then Ret (- ENODATA, None) else
  let* estimate := ttf_tier_accumulate (tier_stats stats) vbatt_idx (vbatt_idx + 1) in
  if estimate <? 0 then Ret (- ENODATA, None) else Ret (0, Some estimate).

(** A running average that starts at its first value. *)
Definition average (old new : Z) : Z := (if old =? 0 then new else old) + new.

Definition ttf_tier_update_stats (t : ttf_tier_stat) (chg : gbms_ce_tier_stats) (force : bool)
    : ttf_tier_stat :=
  if negb force && (t_cc_total chg =? 0) then t else
  let elap := s32 (u32 (t_time_fast chg + t_time_taper chg + t_time_other chg)) in
  mk_ts (s16 (cdiv (average (ts_soc_in t) (t_soc_in chg)) 2))
    (cdiv (s32 (average (ts_cc_in t) (t_cc_in chg))) 2)
    (cdiv (s32 (average (ts_cc_total t) (t_cc_total chg))) 2)
    (cdiv (s64 (average (ts_avg_time t) elap)) 2).

Fixpoint tier_update_loop (ce : gbms_charging_event) (force : bool) (i : Z)
    (tiers : list ttf_tier_stat) (src : list gbms_ce_tier_stats) : list ttf_tier_stat :=
  match tiers, src with
  | t :: tiers, chg :: src =>
    let last_tier := i =? GBMS_STATS_TIER_COUNT - 1 in
    let skip := (t_temp_idx chg =? -1)
      || (u32 (t_time_fast chg + t_time_taper chg) =? 0)
      || (negb force && (i =? 0) && (1 <? Z.shiftr (t_soc_in chg) 8))
      || (negb force && last_tier && negb (ssoc_out ce =? 100)) in
    (if skip then t else ttf_tier_update_stats t chg false)
      :: tier_update_loop ce force (i + 1) tiers src
  | tiers, _ => tiers
  end.

(** Both arrays have [GBMS_STATS_TIER_COUNT] entries. *)
Definition ttf_tier_update (stats : batt_ttf_stats) (ce : gbms_charging_event) (force : bool)
    : batt_ttf_stats :=
  set_tier_stats (tier_update_loop ce force 0 (tier_stats stats) (ce_tier_stats ce)) stats.

(** ** Updating and initialising the statistics *)

Definition TTF_STATS_QUAL_DELTA_MIN : Z := 3.
Definition TTF_STATS_QUAL_DELTA : Z := TTF_STATS_QUAL_DELTA_MIN.
Definition TTF_REPORT_MAX_RATIO : Z := 300.

(** [for ( ; first_soc <= last_soc; first_soc++) if (elap[first_soc] != 0) break;] *)
Definition first_nonzero (a : list Z) (first_soc last_soc : Z) : outcome Z :=
  scan_up (Z.to_nat (last_soc + 1 - first_soc)) (last_soc + 1)
    (fun i => let* e := at_ a i in Ret (e =? 0)) first_soc.

(** The dump of the updated entries to the log is left out. *)
Definition ttf_stats_update (stats : batt_ttf_stats) (ce : gbms_charging_event) (force : bool)
    : outcome batt_ttf_stats :=
  let limit := if force then TTF_STATS_QUAL_DELTA_MIN else TTF_STATS_QUAL_DELTA in
  if last_soc ce - ssoc_in ce <? limit then Ret stats else
  let* first := first_nonzero (ss_elap (ce_soc_stats ce)) (ssoc_in ce) (last_soc ce) in
  let* stats := ttf_soc_update stats ce (first + 1) (last_soc ce - 1) in
  Ret (ttf_tier_update stats ce force).

(** The tables of [ttf_adapter_stats] are one allocation: [elap_table] starts at cell
    [table_count] of [soc_table]. *)
Fixpoint as_default_loop (cells : list Z) (table_count : Z) (fuel : nat) (i table_i : Z)
    : outcome Z :=
  match fuel with
  | O => Undef
  | S fuel =>
    let* s := at_ cells table_i in
    if (s <? i) && (table_i <? table_count)
    then as_default_loop cells table_count fuel i (table_i + 1) else Ret table_i
  end.

(** [table_i] does not pass [table_count], so the fuel is enough. *)
Definition ttf_as_default (cells : list Z) (table_count i table_i : Z) : outcome Z :=
  as_default_loop cells table_count (S (Z.to_nat table_count)) i table_i.

(** [elap] and [cc] for the [n] socs from [i]. *)
Fixpoint soc_ref_loop (cells : list Z) (table_count cc : Z) (n : nat) (i table_i : Z)
    : outcome (list Z * list Z) :=
  match n with
  | O => Ret ([], [])
  | S n =>
    let* table_i := ttf_as_default cells table_count i table_i in
    let* e := at_ cells (table_count + table_i) in
    let* ec := soc_ref_loop cells table_count cc n (i + 1) table_i in
    Ret (e :: fst ec, cdiv (s32 (cc * i)) 100 :: snd ec)
  end.

Section init.
Context `{DeviceTree}.

(** The allocations succeed. *)
Definition ttf_init_soc_parse_dt (stats : batt_ttf_stats) (node capacity_ma : Z)
    : outcome (Z * batt_ttf_stats) :=
  let cc := cdiv (s32 (capacity_ma * 100)) GBMS_SOC_STATS_LEN in
  let table_count := of_property_count_elems node "google,ttf-soc-table" in
  if table_count <=? 0 then Ret (- EINVAL, stats) else
  if negb (crem table_count 2 =? 0) then Ret (- EINVAL, stats) else
  match of_property_read_u32_array node "google,ttf-soc-table" table_count with
  | inl e => Ret (e, stats)
  | inr soc_table =>
    match of_property_read_u32_array node "google,ttf-elap-table" table_count with
    | inl e => Ret (e, stats)
    | inr elap_table =>
      let* ec := soc_ref_loop (soc_table ++ elap_table) table_count cc
                   (Z.to_nat GBMS_SOC_STATS_LEN) 0 0 in
      Ret (0, set_soc_ref (mk_soc (ss_ti (soc_ref stats)) (snd ec) (fst ec)) stats)
    end
  end.

Definition ttf_tier_reset (stats : batt_ttf_stats) : batt_ttf_stats :=
  set_tier_stats ((fun t => mk_ts (ts_soc_in t) 0 0 0) <$> tier_stats stats) stats.

Definition ttf_init_tier_parse_dt (stats : batt_ttf_stats) (node capacity_ma : Z)
    : outcome (Z * batt_ttf_stats) :=
  let count := of_property_count_elems node "google,ttf-tier-table" in
  if negb (count =? GBMS_STATS_TIER_COUNT) then Ret (- EINVAL, stats) else
  match of_property_read_u32_array node "google,ttf-tier-table" count with
  | inl e => Ret (e, stats)
  | inr tier_table =>
    let* a := at_ tier_table 0 in
    let* b := at_ tier_table 1 in
    let* c := at_ tier_table 2 in
    let in0 := s16 (u32 (Z.shiftl a 8)) in
    let in1 := s16 (u32 (Z.shiftl b 8)) in
    let in2 := s16 (u32 (Z.shiftl c 8)) in
    let soc_in_diff := s16 (in2 - in1) in
    let cc1 := cdiv (s32 (capacity_ma * in1)) 100 in
    let cc2 := cdiv (s32 (capacity_ma * in2)) 100 in
    Ret (0, set_tier_stats
              [mk_ts in0 0 0 0;
               mk_ts in1 cc1 (cdiv (s32 (capacity_ma * soc_in_diff)) 100) 0;
               mk_ts in2 cc2 (s32 (capacity_ma - cc2)) 0] stats)
  end.

Definition zero_tiers : list ttf_tier_stat :=
  replicate (Z.to_nat GBMS_STATS_TIER_COUNT) (mk_ts 0 0 0 0).

(** Clone and clear the stats. *)
Definition ttf_stats_dup (src : batt_ttf_stats) : batt_ttf_stats :=
  set_tier_stats zero_tiers (set_soc_stats ttf_soc_init src).

Definition ttf_stats_init (node capacity_ma : Z) : outcome (Z * batt_ttf_stats) :=
  let zero w t m := mk_ttf (-1) ttf_soc_init t w ttf_soc_init zero_tiers m 0 in
  match of_property_read_u32 node "google,ttf-adapter" with
  | inl e => Ret (e, zero 0 0 0)
  | inr watts =>
    match of_property_read_u32 node "google,ttf-temp-idx" with
    | inl e => Ret (e, zero (s32 watts) 0 0)
    | inr idx =>
      let ratio := s32 (u32_or node "google,ttf-report-max-ratio" TTF_REPORT_MAX_RATIO) in
      let* rs := ttf_init_soc_parse_dt (zero (s32 watts) (s32 idx) ratio) node capacity_ma in
      if fst rs <? 0 then Ret rs else ttf_init_tier_parse_dt (snd rs) node capacity_ma
    end
  end.

End init.
