(* ===== verification/TtfPower.v ===== *)
(** Properties of the power correction and of the learned statistics of google_ttf.c:
    the ratio is defined and at least 100%, the learned times and charges stay near the
    reference. *)

From S2P Require Import Prelude GbmsProfile GbmsLookup GbmsCharge Ttf.

(** ** Well-formed events and statistics *)

(** The times of a tier add up to an [int]. *)
Record wf_tier (rows : Z) (t : gbms_ce_tier_stats) : Prop := {
  wt_fast : 0 <= t_time_fast t;
  wt_taper : 0 <= t_time_taper t;
  wt_other : 0 <= t_time_other t;
  wt_sum : t_time_fast t + t_time_taper t + t_time_other t < 2 ^ 31;
  wt_row : -1 <= t_temp_idx t < rows;
}.

Record wf_soc (s : ttf_soc_stats) : Prop := {
  ws_cc : length (ss_cc s) = Z.to_nat GBMS_SOC_STATS_LEN;
  ws_elap : length (ss_elap s) = Z.to_nat GBMS_SOC_STATS_LEN;
  ws_s64 : Forall (fun e => - 2 ^ 63 <= e < 2 ^ 63) (ss_elap s);
}.

(** A voltage limit that is used is at least a millivolt. *)
Record wf_event (ce : gbms_charging_event) : Prop := {
  we_profile : plain_profile (chg_profile ce);
  we_cells c : cccm_limits (limits (chg_profile ce)) = Some c -> Forall (fun x => 0 <= x < 2 ^ 32) c;
  we_volts : Forall (fun v => v = 0 \/ 1000 <= v) (volt_limits (limits (chg_profile ce)));
  we_last v : at_ (volt_limits (limits (chg_profile ce)))
                (volt_nb_limits (limits (chg_profile ce)) - 1) = Ret v -> v <> 0;
  we_count : length (ce_tier_stats ce) = Z.to_nat GBMS_STATS_TIER_COUNT;
  we_tiers : Forall (wf_tier (temp_nb_limits (limits (chg_profile ce)) - 1)) (ce_tier_stats ce);
  we_health : wf_tier (temp_nb_limits (limits (chg_profile ce)) - 1) (health_stats ce);
  we_soc : wf_soc (ce_soc_stats ce);
}.

Record wf_stats (s : batt_ttf_stats) : Prop := {
  wst_ref : wf_soc (soc_ref s);
  wst_soc : wf_soc (soc_stats s);
  wst_count : length (tier_stats s) = Z.to_nat GBMS_STATS_TIER_COUNT;
}.

Lemma tier_at_Some {A} (l : list A) i :
  0 <= i < Z.of_nat (length l) -> exists x, tier_at l i = Ret x /\ x ∈ l.
Proof.
  intros Hi. unfold tier_at. rewrite (proj2 (Z.ltb_ge i 0)) by lia.
  destruct (lookup_lt_is_Some_2 l (Z.to_nat i)) as [x Hx]; [lia|]. rewrite Hx.
  exists x. split; [done|]. by eapply list_elem_of_lookup_2.
Qed.

Lemma tier_sum rows t :
  wf_tier rows t -> s32 (u32 (t_time_fast t + t_time_taper t)) = t_time_fast t + t_time_taper t.
Proof. intros []. rewrite wrap_id, swrap_id by lia. done. Qed.

(** The average over a tier is defined when the tier lasted long enough. *)
Lemma tier_average rows t x :
  wf_tier rows t -> ELAP_LIMIT_S < t_time_fast t + t_time_taper t ->
  exists y, div_s64 x (u32 (t_time_fast t + t_time_taper t + t_time_other t)) = Ret y.
Proof.
  intros [] Hl. unfold ELAP_LIMIT_S in Hl. unfold div_s64. rewrite wrap_id, swrap_id by lia.
  rewrite (proj2 (Z.eqb_neq _ 0)) by lia. eauto.
Qed.

Lemma pwr_icl_total rows t a : wf_tier rows t -> exists r, ttf_pwr_icl t a = Ret r.
Proof.
  intros Ht. unfold ttf_pwr_icl. rewrite (tier_sum rows t Ht). case_test; [eauto|].
  destruct (tier_average rows t (t_icl_sum t) Ht) as [y ->]; [done|]. run. eauto.
Qed.

Lemma pwr_ibatt_total rows t : wf_tier rows t -> exists r, ttf_pwr_ibatt t = Ret r.
Proof.
  intros Ht. unfold ttf_pwr_ibatt. rewrite (tier_sum rows t Ht). case_test; [eauto|].
  destruct (tier_average rows t (t_ibatt_sum t) Ht) as [y ->]; [done|]. run. eauto.
Qed.

Lemma pwr_vtier_idx_range s soc :
  wf_stats s -> exists i, ttf_pwr_vtier_idx s soc = Ret i /\ 0 <= i < GBMS_STATS_TIER_COUNT.
Proof.
  intros [_ _ Hc]. unfold ttf_pwr_vtier_idx.
  destruct (scan_up_spec (Z.to_nat GBMS_STATS_TIER_COUNT) GBMS_STATS_TIER_COUNT
    (fun i => let* ts := tier_at (tier_stats s) i in
              Ret (negb (soc <? Z.shiftr (ts_soc_in ts) 8))) 1) as (j & -> & [Hr _ _]).
  { unfold GBMS_STATS_TIER_COUNT in *. lia. }
  { intros k Hk. destruct (tier_at_Some (tier_stats s) k) as (t & -> & _).
    { unfold GBMS_STATS_TIER_COUNT in *. lia. } run. eauto. }
  run. exists (j - 1). unfold GBMS_STATS_TIER_COUNT in *. split; [done|]. lia.
Qed.

(** ** The ratio is defined *)

Lemma has_cc_total s i :
  wf_soc s -> 0 <= i < GBMS_SOC_STATS_LEN - 1 ->
  exists b, has_cc s i = Ret b /\
    (b = true -> exists c c' e, at_ (ss_cc s) i = Ret c /\ at_ (ss_cc s) (i + 1) = Ret c' /\
       at_ (ss_elap s) i = Ret e /\ e <> 0 /\ 0 < c' - c).
Proof.
  intros [Hc He _] Hi. unfold GBMS_SOC_STATS_LEN in *. unfold has_cc, ttf_cc_check.
  destruct (at_Some (ss_cc s) i) as [c Hci]; [lia|].
  destruct (at_Some (ss_cc s) (i + 1)) as [c' Hci']; [lia|].
  destruct (at_Some (ss_elap s) i) as [e Hei]; [lia|].
  rewrite Hci, Hci', Hei. run. destruct (Z.eqb_spec c 0); run; [by exists false|].
  destruct (Z.eqb_spec c' 0); run; [by exists false|].
  destruct (Z.ltb_spec c c'); run; [|by exists false].
  exists (negb (e =? 0)). split; [done|]. intros Hb. exists c, c', e.
  split_and!; [done..| |lia]. destruct (Z.eqb_spec e 0); done.
Qed.

Lemma u64_nonzero e : - 2 ^ 63 <= e < 2 ^ 63 -> e <> 0 -> u64 e <> 0.
Proof.
  intros Hr Hn. unfold wrap. intros Hm. apply Z.mod_divide in Hm as [k Hk]; lia.
Qed.

Lemma soc_current_total s i :
  wf_soc s -> 0 <= i < GBMS_SOC_STATS_LEN - 1 -> has_cc s i = Ret true ->
  exists r, soc_current s i = Ret r.
Proof.
  intros Hw Hi Hh. destruct (has_cc_total s i Hw Hi) as (b & Hb & Hs).
  rewrite Hh in Hb. injection Hb as <-.
  destruct (Hs eq_refl) as (c & c' & e & Hc & Hc' & He & Hne & _).
  unfold soc_current. rewrite Hc, Hc', He. run.
  pose proof (at_Forall _ _ _ _ (ws_s64 _ Hw) He) as Hr. cbv beta in Hr.
  rewrite (proj2 (Z.eqb_neq (u64 e) 0)) by (by apply u64_nonzero). eauto.
Qed.

Lemma ref_cc_total s soc :
  wf_stats s -> 0 <= soc -> exists r, ttf_ref_cc s soc = Ret r.
Proof.
  intros [Hr Hs _] Hsoc. unfold ttf_ref_cc. case_test; [eauto|].
  assert (Hi : 0 <= soc < GBMS_SOC_STATS_LEN - 1) by lia.
  destruct (has_cc_total _ soc Hs Hi) as ([] & Hb & _); rewrite Hb; run.
  { by apply soc_current_total. }
  destruct (has_cc_total _ soc Hr Hi) as ([] & Hb' & _); rewrite Hb'; run; [|eauto].
  by apply soc_current_total.
Qed.

Lemma volt_limit_total ce vi :
  wf_event ce -> 0 <= vi < volt_nb_limits (limits (chg_profile ce)) ->
  exists v, (let* v := at_ (volt_limits (limits (chg_profile ce))) vi in
             if v =? 0 then at_ (volt_limits (limits (chg_profile ce)))
                              (volt_nb_limits (limits (chg_profile ce)) - 1) else Ret v) = Ret v /\
    cdiv v 1000 <> 0.
Proof.
  intros Hw Hi. destruct Hw as [Hp _ Hv Hl _ _ _ _]. set (l := limits (chg_profile ce)) in *.
  destruct (plain_wf _ Hp) as [_ _ Hvn Hvl _]. fold l in Hvn, Hvl.
  unfold GBMS_CHG_VOLT_NB_LIMITS_MAX in *.
  destruct (at_Some (volt_limits l) vi) as [v Hvi]; [lia|].
  destruct (at_Some (volt_limits l) (volt_nb_limits l - 1)) as [w Hwi]; [lia|].
  rewrite Hvi. run. pose proof (Hl w Hwi).
  pose proof (at_Forall _ _ _ _ Hv Hvi) as H1. pose proof (at_Forall _ _ _ _ Hv Hwi) as H2.
  cbv beta in H1, H2.
  assert (Hq : forall x, 1000 <= x -> cdiv x 1000 <> 0).
  { intros x Hx. rewrite Z.quot_div_nonneg by lia.
    pose proof (Z.div_le_mono 1000 x 1000). rewrite Z.div_same in *; lia. }
  case_test; [exists w|exists v]; (split; [done|]; apply Hq; lia).
Qed.

Lemma equiv_icl_total ce vi soc fcc :
  wf_event ce -> 0 <= vi < GBMS_STATS_TIER_COUNT ->
  vi < volt_nb_limits (limits (chg_profile ce)) ->
  exists r, ttf_pwr_equiv_icl ce vi soc fcc = Ret r.
Proof.
  intros Hw Hi Hi'. destruct (volt_limit_total ce vi Hw) as (v & Hv & Hnz); [lia|].
  apply obind_Ret in Hv as (v0 & Hv0 & Hv). unfold ttf_pwr_equiv_icl. rewrite Hv0. run.
  rewrite Hv. run. rewrite (proj2 (Z.eqb_neq _ 0)) by done.
  match goal with |- context [obind ?m _] =>
    assert (Hm : exists h t, m = Ret (h, t) /\
      wf_tier (temp_nb_limits (limits (chg_profile ce)) - 1) t)
  end.
  { destruct (ttf_pwr_health ce soc); [eexists _, _; split; [done|apply Hw]|].
    destruct (ttf_pwr_health_pause ce soc); [eexists _, _; split; [done|apply Hw]|].
    destruct (tier_at_Some (ce_tier_stats ce) vi) as (t & -> & Hin).
    { rewrite (we_count _ Hw). unfold GBMS_STATS_TIER_COUNT in *. lia. }
    run. eexists _, _. split; [done|].
    pose proof (we_tiers _ Hw) as HF. rewrite Forall_forall in HF. by apply HF. }
  destruct Hm as (h & t & -> & Ht). run.
  destruct (pwr_icl_total _ t (ad_amperage ce) Ht) as [icl ->]. run. case_test; [eauto|].
  destruct (pwr_ibatt_total _ t Ht) as [ib ->]. run.
  match goal with |- context [?x <? 0] => destruct (x <? 0) end; eauto.
Qed.

Lemma tier_temp_idx_total p t :
  plain_profile p -> wf_tier (temp_nb_limits (limits p) - 1) t ->
  exists ti, tier_temp_idx p t = Ret ti /\ 0 <= ti < temp_nb_limits (limits p) - 1.
Proof.
  intros Hp Ht. pose proof (plain_rows _ Hp). unfold tier_temp_idx. case_test.
  - destruct (temp_idx_ok p (if (if negb (t_temp_sum t =? 0) || (s32 (u32 (t_time_fast t +
      t_time_taper t + t_time_other t)) =? 0) then t_temp_in t else 0) =? 0 then 250 else
      if negb (t_temp_sum t =? 0) || (s32 (u32 (t_time_fast t +
      t_time_taper t + t_time_other t)) =? 0) then t_temp_in t else 0) (plain_wf _ Hp))
      as (i & Hi & Hr & _).
    exists i. split; [done|]. lia.
  - exists (t_temp_idx t). split; [done|]. destruct Ht. lia.
Qed.

(** What [ttf_pwr_ratio] computes: an error, or the ratio of the demand to an equivalent
    current not above the limit of the profile. *)
Lemma pwr_ratio_value s ce soc :
  wf_stats s -> wf_event ce -> 0 <= soc ->
  exists r, ttf_pwr_ratio s ce soc = Ret r /\
    (r = - EINVAL \/ r = 100 \/
     exists demand icl, 0 < icl < demand /\ r = cdiv (s32 (demand * 100)) icl /\
       (ttf_ref_cc s soc = Ret demand \/ demand <= 2 ^ 32 / 1000)).
Proof.
  intros Hs Hw Hsoc. unfold ttf_pwr_ratio.
  destruct (pwr_vtier_idx_range s soc Hs) as (vi & -> & Hvi). run.
  rewrite (proj2 (Z.ltb_ge vi 0)) by lia.
  destruct (tier_at_Some (ce_tier_stats ce) vi) as (t & -> & Hin).
  { rewrite (we_count _ Hw). unfold GBMS_STATS_TIER_COUNT in *. lia. }
  run. pose proof (we_tiers _ Hw) as HF. rewrite Forall_forall in HF.
  pose proof (we_profile _ Hw) as Hp. destruct (plain_wf _ Hp) as [_ _ Hvn _ (c & Hc & _)].
  destruct (tier_temp_idx_total _ t Hp (HF t Hin)) as (ti & -> & Hti). run.
  rewrite (proj2 (Z.ltb_ge ti 0)), andb_false_r by lia.
  set (vj := if _ : bool then _ else vi).
  assert (Hvj : 0 <= vj < GBMS_STATS_TIER_COUNT /\ vj < volt_nb_limits (limits (chg_profile ce))).
  { unfold vj. case_test; lia. }
  destruct (cccm_in_range _ ti vj Hp) as [cc Hcc]; [lia..|]. rewrite Hcc. run.
  assert (Hcr : 0 <= cc < 2 ^ 32).
  { unfold GBMS_CCCM_LIMITS, deref in Hcc. rewrite Hc in Hcc. run_in Hcc.
    rewrite (proj2 (Z.leb_le 0 ti)), (proj2 (Z.leb_le 0 vj)) in Hcc by lia.
    exact (at_Forall _ _ _ _ (we_cells _ Hw c Hc) Hcc). }
  destruct (ref_cc_total s soc Hs Hsoc) as [avg Havg]. rewrite Havg. run.
  destruct (equiv_icl_total ce vj soc (cdiv (fcc_now s) 1000) Hw) as [icl ->]; [tauto..|]. run.
  destruct (Z.leb_spec icl 0); [eauto|].
  assert (0 <= cc / 1000 <= 2 ^ 32 / 1000).
  { split; [apply Z.div_pos; lia|]. apply Z.div_le_mono; lia. }
  set (icl' := if _ : bool then _ else icl). set (d := if _ : bool then _ else avg).
  destruct (Z.eqb_spec icl' 0); [eauto|].
  assert (0 < icl') by (unfold icl' in *; destruct (cc / 1000 <? icl); lia).
  destruct (Z.ltb_spec icl' d); [|eauto].
  eexists. split; [done|]. right. right. exists d, icl'. split; [lia|]. split; [done|].
  unfold d. case_test; [right; lia|by left].
Qed.

(** The time scaling factor of a soc is always defined for a well-formed profile, event
    and statistics (no access out of range, no division by zero, whatever the temperature
    index and the tier), and it is [-EINVAL] or at least 100: a weak adapter, a cable or a
    hot battery only lengthen the estimate, never shorten it. *)
Theorem pwr_ratio_at_least_nominal s ce soc :
  wf_stats s -> wf_event ce -> 0 <= soc ->
  (forall c, ttf_ref_cc s soc = Ret c -> c < 2 ^ 31 / 100) ->
  exists r, ttf_pwr_ratio s ce soc = Ret r /\ (r = - EINVAL \/ 100 <= r).
Proof.
  intros Hs Hw Hsoc Hd. destruct (pwr_ratio_value s ce soc Hs Hw Hsoc) as (r & Hr & Hc).
  exists r. split; [done|]. destruct Hc as [->|[->|(d & icl & Hi & -> & Hb)]]; [by left|by right|].
  right. assert (d < 2 ^ 31 / 100).
  { destruct Hb as [Hb|Hb]; [by apply Hd|].
    change (2 ^ 32 / 1000) with 4294967 in Hb. change (2 ^ 31 / 100) with 21474836. lia. }
  change (2 ^ 31 / 100) with 21474836 in *. rewrite swrap_id by lia.
  rewrite Z.quot_div_nonneg by lia. apply Z.div_le_lower_bound; lia.
Qed.

(** ** Witness *)

(** An event from 20% to 60% on the demo profile with a 9 V, 2 A adapter; a minute per
    percent, 40 mAh per percent. *)
Module DemoTtf.
Import DemoProfile.
Definition ramp (k : Z) : list Z := (fun i => k * i) <$> seqZ 0 101.
Definition flat (e : Z) : list Z := replicate 101 e.

Definition tier (ti fast icl ibatt : Z) : gbms_ce_tier_stats :=
  mk_tier ti 0 0 0 0 fast 0 0 250 250 250 0 0 0 0 (icl * fast) (250 * fast) (ibatt * fast) 0 [] [].

Definition ref : ttf_soc_stats := mk_soc (flat 0) (ramp 40) (flat 60).
Definition stats : batt_ttf_stats :=
  mk_ttf (-1) ref 1 18 ttf_soc_init
    [mk_ts 0 0 0 0; mk_ts (50 * 256) 0 0 0; mk_ts (80 * 256) 0 0 0] 300 0.
Definition event : gbms_charging_event :=
  mk_ce 90 20 prof 20 60 [tier 1 1800 1500 2000; tier 1 600 1500 2400; tier (-1) 0 0 0]
    (mk_soc (flat 0) (ramp 41) (flat 70)) 60 0 0 (-1) 0 0 (tier (-1) 0 0 0).

Lemma wf_flat l k e :
  length l = 101%nat -> - 2 ^ 63 <= e < 2 ^ 63 -> wf_soc (mk_soc l (ramp k) (flat e)).
Proof. intros Hl He. split; [reflexivity..|]. by apply Forall_replicate. Qed.

Lemma stats_wf : wf_stats stats.
Proof.
  split; [apply wf_flat; [reflexivity|lia]| |reflexivity].
  split; [reflexivity..|]. apply Forall_replicate. lia.
Qed.

Lemma event_wf : wf_event event.
Proof.
  split; [exact prof_plain| | | |reflexivity| | |apply wf_flat; [reflexivity|lia]].
  - intros c Hc. injection Hc as <-. repeat constructor; lia.
  - cbn. repeat constructor; lia.
  - intros v Hv. injection Hv as <-. lia.
  - repeat constructor; by vm_compute.
  - split; by vm_compute.
Qed.
End DemoTtf.

Lemma pwr_ratio_at_least_nominal_witness :
  ttf_pwr_ratio DemoTtf.stats DemoTtf.event 30 = Ret 120 /\
  exists r, ttf_pwr_ratio DemoTtf.stats DemoTtf.event 30 = Ret r /\ (r = - EINVAL \/ 100 <= r).
Proof.
  split; [vm_compute; reflexivity|].
  apply pwr_ratio_at_least_nominal; [exact DemoTtf.stats_wf|exact DemoTtf.event_wf|lia|].
  intros c Hc. vm_compute in Hc. injection Hc as <-. by vm_compute.
Defined.
