(* ===== verification/TtfLearn.v ===== *)
(** Properties of what google_ttf.c learns from charging events, of the reference it
    starts from and of the estimates per tier. *)

From S2P Require Import Prelude GbmsProfile GbmsLookup GbmsTables GbmsCharge Ttf TtfPower.

(** ** Learned values stay near the reference *)

(** Between 80% and 120% of [r]. *)
Definition near (r x : Z) : Prop := 80 * r / 100 <= x <= 120 * r / 100.

Record wf_ref (s : ttf_soc_stats) : Prop := {
  wr_soc : wf_soc s;
  wr_cc : Forall (fun c => 0 <= c < 2 ^ 24) (ss_cc s);
  wr_elap : Forall (fun e => 0 <= e < 2 ^ 30) (ss_elap s);
}.

(** Every learned entry is empty or near the reference; [cc[99]] is extrapolated. *)
Record learned (ref : ttf_soc_stats) (s : batt_ttf_stats) : Prop := {
  ln_ref : soc_ref s = ref;
  ln_wf : wf_stats s;
  ln_elap i r e : at_ (ss_elap ref) i = Ret r -> at_ (ss_elap (soc_stats s)) i = Ret e ->
    e = 0 \/ near r e;
  ln_cc i r c : i <> 99 -> at_ (ss_cc ref) i = Ret r -> at_ (ss_cc (soc_stats s)) i = Ret c ->
    c = 0 \/ near r c;
}.

Lemma clamp_in lo hi x : lo <= hi -> lo <= clamp_to lo hi x <= hi.
Proof. intros. unfold clamp_to. repeat case_test; lia. Qed.

Lemma near_bounds r : 0 <= r -> 80 * r / 100 <= 120 * r / 100.
Proof. intros. apply Z.div_le_mono; lia. Qed.

Lemma near_top r n : 0 <= r < n -> 0 <= 80 * r / 100 /\ 120 * r / 100 < 2 * n.
Proof.
  intros. split; [apply Z.div_pos; lia|]. apply Z.div_lt_upper_bound; lia.
Qed.

(** What is learned is clamped to the neighbourhood of the reference, whatever the event. *)
Lemma qual_elap_near s ce i r v :
  0 <= r < 2 ^ 30 -> at_ (ss_elap (soc_ref s)) i = Ret r ->
  ttf_soc_qual_elap s ce i = Ret v -> v = 0 \/ near r v.
Proof.
  intros Hrr Hri. unfold ttf_soc_qual_elap, TTF_SOC_QUAL_ELAP_DELTA_REF_PCT_MAX. rewrite Hri. run.
  pose proof (near_top r (2 ^ 30) Hrr). pose proof (near_bounds r).
  change (100 + 20) with 120. change (100 - 20) with 80.
  rewrite !(swrap_id 64 (_ * r)), !Z.quot_div_nonneg, !(swrap_id 32) by lia.
  intros (src & _ & H1)%obind_Ret. destruct (src =? 0); [injection H1 as <-; by left|].
  apply obind_Ret in H1 as (ratio & _ & H1).
  destruct ((ratio <=? 0) || _); [injection H1 as <-; by left|].
  apply obind_Ret in H1 as (cur & _ & [= <-]). right. apply clamp_in. lia.
Qed.

Lemma qual_cc_near s ce i r v :
  0 <= r < 2 ^ 24 -> at_ (ss_cc (soc_ref s)) i = Ret r ->
  ttf_soc_qual_cc s ce i = Ret v -> v = 0 \/ near r v.
Proof.
  intros Hrr Hri. unfold ttf_soc_qual_cc, TTF_SOC_QUAL_CC_DELTA_REF_PCT_MAX. rewrite Hri. run.
  pose proof (near_top r (2 ^ 24) Hrr). pose proof (near_bounds r).
  change (100 + 20) with 120. change (100 - 20) with 80.
  rewrite !(swrap_id 32 (_ * r)), !Z.quot_div_nonneg by lia.
  intros (src & _ & H1)%obind_Ret. destruct (src =? 0); [injection H1 as <-; by left|].
  apply obind_Ret in H1 as (cur & _ & [= <-]). right. apply clamp_in. lia.
Qed.

(** Both are defined for a well-formed event. *)
Lemma qual_elap_defined s ce i :
  wf_stats s -> wf_event ce -> 0 <= i < GBMS_SOC_STATS_LEN ->
  exists v, ttf_soc_qual_elap s ce i = Ret v.
Proof.
  intros Hs Hw Hi. unfold ttf_soc_qual_elap.
  destruct (at_Some (ss_elap (soc_ref s)) i) as [r ->].
  { rewrite (ws_elap _ (wst_ref _ Hs)). lia. }
  destruct (at_Some (ss_elap (ce_soc_stats ce)) i) as [src ->].
  { rewrite (ws_elap _ (we_soc _ Hw)). lia. }
  run. destruct (src =? 0); [eauto|].
  destruct (pwr_ratio_value s ce i Hs Hw) as (ratio & -> & _); [lia|]. run.
  destruct ((ratio <=? 0) || _); [eauto|].
  destruct (at_Some (ss_elap (soc_stats s)) i) as [cur ->].
  { rewrite (ws_elap _ (wst_soc _ Hs)). lia. }
  run. eauto.
Qed.

Lemma qual_cc_defined s ce i :
  wf_stats s -> wf_event ce -> 0 <= i < GBMS_SOC_STATS_LEN ->
  exists v, ttf_soc_qual_cc s ce i = Ret v.
Proof.
  intros Hs Hw Hi. unfold ttf_soc_qual_cc.
  destruct (at_Some (ss_cc (soc_ref s)) i) as [r ->].
  { rewrite (ws_cc _ (wst_ref _ Hs)). lia. }
  destruct (at_Some (ss_cc (ce_soc_stats ce)) i) as [src ->].
  { rewrite (ws_cc _ (we_soc _ Hw)). lia. }
  run. destruct (src =? 0); [eauto|].
  destruct (at_Some (ss_cc (soc_stats s)) i) as [cur ->].
  { rewrite (ws_cc _ (wst_soc _ Hs)). lia. }
  run. eauto.
Qed.

Lemma at_insert a i j v x :
  0 <= i < Z.of_nat (length a) -> at_ (<[Z.to_nat i := v]> a) j = Ret x ->
  i = j /\ x = v \/ i <> j /\ at_ a j = Ret x.
Proof.
  intros Hi Hx. apply at_lookup in Hx as [Hj Hx].
  destruct (Z.eq_dec i j) as [->|Hne].
  - left. rewrite list_lookup_insert_eq in Hx by lia. by injection Hx.
  - right. split; [done|]. rewrite list_lookup_insert_ne in Hx by lia. by apply at_lookup.
Qed.

Lemma put_cell_ok a i v :
  0 <= i < Z.of_nat (length a) -> put_cell a i v = Ret (<[Z.to_nat i := v]> a).
Proof.
  intros Hi. unfold put_cell. rewrite (proj2 (Z.ltb_ge i 0)), (proj2 (Z.leb_gt _ i)) by lia. done.
Qed.

Lemma put_cell_inv a i v a' :
  put_cell a i v = Ret a' -> 0 <= i < Z.of_nat (length a) /\ a' = <[Z.to_nat i := v]> a.
Proof.
  unfold put_cell. destruct (Z.ltb_spec i 0); [done|].
  destruct (Z.leb_spec (Z.of_nat (length a)) i); [done|]. intros [= <-]. done.
Qed.

Section learning.
Context (ref : ttf_soc_stats) (ce : gbms_charging_event) (Href : wf_ref ref).

(** Writing a value near the reference keeps the invariant. *)
Lemma set_elap_learned s i v s' :
  learned ref s -> set_elap i v s = Ret s' ->
  (forall r, at_ (ss_elap ref) i = Ret r -> near r v) -> learned ref s'.
Proof using Href.
  intros [Hr [Hwr [Hc He Hs] Ht] Hle Hlc] (e & He' & [= <-])%obind_Ret Hn.
  apply put_cell_inv in He' as [Hi ->].
  destruct (at_Some (ss_elap ref) i) as [r Hri].
  { rewrite (ws_elap _ (wr_soc _ Href)). lia. }
  pose proof (at_Forall _ _ _ _ (wr_elap _ Href) Hri) as Hrr. cbv beta in Hrr.
  pose proof (near_top r (2 ^ 30) Hrr) as Hnt. pose proof (Hn r Hri) as Hnr. unfold near in Hnr.
  split; cbn; [done| | |done].
  - split; [done| |done]. split; cbn; [done|by rewrite length_insert|apply Forall_insert; [done|lia]].
  - intros j r' e Hj Hje. apply at_insert in Hje as [[<- ->]|[_ Hje]]; [|by eauto|done].
    right. by apply Hn.
Qed.

Lemma set_cc_learned s i v s' :
  learned ref s -> set_cc i v s = Ret s' ->
  (forall r, i <> 99 -> at_ (ss_cc ref) i = Ret r -> near r v) -> learned ref s'.
Proof using Href.
  intros [Hr [Hwr [Hc He Hs] Ht] Hle Hlc] (c & Hc' & [= <-])%obind_Ret Hn.
  apply put_cell_inv in Hc' as [Hi ->]. split; cbn; [done| |done|].
  - split; [done| |done]. split; cbn; [by rewrite length_insert|done|done].
  - intros j r' e H99 Hj Hje. apply at_insert in Hje as [[<- ->]|[_ Hje]]; [|by eauto|done].
    right. by apply Hn.
Qed.

(** *** Learning keeps the invariant, whatever the event *)

Lemma learn_elap s i v s' :
  learned ref s -> ttf_soc_qual_elap s ce i = Ret v ->
  (if v =? 0 then Ret s else set_elap i v s) = Ret s' -> learned ref s'.
Proof using Href.
  intros Hl Hv Hs'. destruct (Z.eqb_spec v 0) as [|Hv0]; [by injection Hs' as <-|].
  apply (set_elap_learned s i v s' Hl Hs'). intros r Hri.
  destruct (qual_elap_near s ce i r v) as [?|?]; [|by rewrite (ln_ref _ _ Hl)|done..].
  apply (at_Forall _ _ _ _ (wr_elap _ Href) Hri).
Qed.

Lemma learn_cc s i v s' :
  learned ref s -> ttf_soc_qual_cc s ce i = Ret v ->
  (if v =? 0 then Ret s else set_cc i v s) = Ret s' -> learned ref s'.
Proof using Href.
  intros Hl Hv Hs'. destruct (Z.eqb_spec v 0) as [|Hv0]; [by injection Hs' as <-|].
  apply (set_cc_learned s i v s' Hl Hs'). intros r _ Hri.
  destruct (qual_cc_near s ce i r v) as [?|?]; [|by rewrite (ln_ref _ _ Hl)|done..].
  apply (at_Forall _ _ _ _ (wr_cc _ Href) Hri).
Qed.

Lemma soc_update_one_learned s i s' :
  learned ref s -> soc_update_one s ce i = Ret s' -> learned ref s'.
Proof using Href.
  intros Hl (e & _ & (skip & _ & H)%obind_Ret)%obind_Ret.
  destruct skip; [by injection H as <-|].
  apply obind_Ret in H as (v & Hv & (s1 & Hs1 & (w & Hw & H)%obind_Ret)%obind_Ret).
  eapply learn_cc; [by eapply learn_elap|done..].
Qed.

Lemma soc_update_loop_learned n : forall i s s',
  learned ref s -> soc_update_loop s ce n i = Ret s' -> learned ref s'.
Proof using Href.
  induction n as [|n IH]; intros i s s' Hl; cbn [soc_update_loop]; [by intros [= <-]|].
  intros (s1 & Hs1 & H)%obind_Ret. eapply IH; [|done]. by eapply soc_update_one_learned.
Qed.

Lemma soc_update_learned s first last s' :
  learned ref s -> ttf_soc_update s ce first last = Ret s' -> learned ref s'.
Proof using Href.
  intros Hl (s1 & Hs1 & H)%obind_Ret. apply soc_update_loop_learned in Hs1; [|done].
  destruct (negb _); [by injection H as <-|]. apply obind_Ret in H as (c & _ & H).
  destruct (negb c); [by injection H as <-|].
  apply obind_Ret in H as (a & _ & (b & _ & (d & _ & H)%obind_Ret)%obind_Ret).
  by eapply set_cc_learned; [done|done|].
Qed.

Lemma length_tier_update force i tiers src :
  length (tier_update_loop ce force i tiers src) = length tiers.
Proof.
  revert i src. induction tiers as [|t tiers IH]; intros i [|c src]; cbn; [done..|].
  by rewrite IH.
Qed.

Lemma stats_update_learned s force s' :
  learned ref s -> ttf_stats_update s ce force = Ret s' -> learned ref s'.
Proof using Href.
  intros Hl. unfold ttf_stats_update. destruct (_ <? _); [by intros [= <-]|].
  intros (j & _ & (s1 & Hs1 & [= <-])%obind_Ret)%obind_Ret.
  apply soc_update_learned in Hs1 as [Hr [Hwr Hws Hc] Hle Hlc]; [|done].
  split; cbn; [done| |done|done]. split; [done|done|]. cbn. by rewrite length_tier_update.
Qed.

(** *** Learning is defined for a well-formed event *)

Lemma first_nonzero_range a first last :
  0 <= first <= last + 1 -> last < Z.of_nat (length a) ->
  exists j, first_nonzero a first last = Ret j /\ first <= j <= last + 1.
Proof.
  intros Hf Hl. unfold first_nonzero.
  destruct (scan_up_spec (Z.to_nat (last + 1 - first)) (last + 1)
    (fun i => let* e := at_ a i in Ret (e =? 0)) first) as (j & -> & [Hr _ _]); [lia| |].
  { intros k Hk. destruct (at_Some a k) as [e ->]; [lia|]. run. eauto. }
  exists j. split; [done|]. lia.
Qed.

Context (Hce : wf_event ce).

Lemma set_elap_defined s i v :
  wf_stats s -> 0 <= i < GBMS_SOC_STATS_LEN -> exists s', set_elap i v s = Ret s'.
Proof.
  intros [_ [_ He _] _] Hi. unfold set_elap. rewrite put_cell_ok by lia. run. eauto.
Qed.

Lemma set_cc_defined s i v :
  wf_stats s -> 0 <= i < GBMS_SOC_STATS_LEN -> exists s', set_cc i v s = Ret s'.
Proof.
  intros [_ [Hc _ _] _] Hi. unfold set_cc. rewrite put_cell_ok by lia. run. eauto.
Qed.

Lemma soc_update_one_defined s i :
  learned ref s -> 0 <= i < GBMS_SOC_STATS_LEN -> exists s', soc_update_one s ce i = Ret s'.
Proof using Href Hce.
  intros Hl Hi. pose proof (we_soc _ Hce) as [Hc He _]. unfold soc_update_one.
  destruct (at_Some (ss_elap (ce_soc_stats ce)) i) as [e ->]; [rewrite He; lia|]. run.
  destruct (at_Some (ss_cc (ce_soc_stats ce)) i) as [c ->]; [rewrite Hc; lia|]. run.
  destruct (e =? 0); run; [by eauto|]. destruct (c =? 0); run; [by eauto|].
  destruct (qual_elap_defined s ce i) as [v Hv]; [apply Hl|done..|]. rewrite Hv. run.
  assert (exists s1, (if v =? 0 then Ret s else set_elap i v s) = Ret s1) as [s1 Hs1].
  { case_test; [eauto|]. apply set_elap_defined; [apply Hl|done]. }
  pose proof (learn_elap s i v s1 Hl Hv Hs1) as Hl1. rewrite Hs1. run.
  destruct (qual_cc_defined s1 ce i) as [w ->]; [apply Hl1|done..|]. run.
  case_test; [eauto|]. apply set_cc_defined; [apply Hl1|done].
Qed.

Lemma soc_update_loop_defined n : forall i s,
  learned ref s -> 0 <= i -> i + Z.of_nat n <= GBMS_SOC_STATS_LEN ->
  exists s', soc_update_loop s ce n i = Ret s'.
Proof using Href Hce.
  induction n as [|n IH]; intros i s Hl Hi Hn; cbn [soc_update_loop]; [by eauto|].
  destruct (soc_update_one_defined s i Hl) as (s1 & Hs1); [lia|]. rewrite Hs1. run.
  apply IH; [by eapply soc_update_one_learned|lia..].
Qed.

Lemma soc_update_defined s first last :
  learned ref s -> 0 <= first -> last < GBMS_SOC_STATS_LEN -> first <= last + 1 \/ 0 <= last ->
  exists s', ttf_soc_update s ce first last = Ret s'.
Proof using Href Hce.
  intros Hl Hf Hlt Ho. unfold ttf_soc_update.
  assert (Hloop : exists s1, soc_update_loop s ce (Z.to_nat (last + 1 - first)) first = Ret s1).
  { destruct (Z.le_gt_cases first (last + 1)).
    - apply soc_update_loop_defined; [done|lia..].
    - replace (Z.to_nat _) with 0%nat by lia. by eauto. }
  destruct Hloop as (s1 & Hs1). rewrite Hs1. run. apply soc_update_loop_learned in Hs1; [|done].
  destruct (last =? 98); run; [|by eauto].
  rewrite (ln_ref _ _ Hs1). destruct (wr_soc _ Href) as [Hrc _ _].
  pose proof (ln_wf _ _ Hs1) as Hw. pose proof Hw as [_ [Hsc _ _] _].
  unfold GBMS_SOC_STATS_LEN in *. unfold ttf_cc_check.
  destruct (at_Some (ss_cc ref) 98) as [a ->]; [lia|].
  destruct (at_Some (ss_cc ref) (98 + 1)) as [b Hb]; [lia|]. rewrite Hb.
  destruct (at_Some (ss_cc (soc_stats s1)) 98) as [c ->]; [lia|].
  change 99 with (98 + 1). rewrite Hb. run.
  destruct (a =? 0); run; [by eauto|]. destruct (_ && _); run; [|by eauto].
  by apply set_cc_defined.
Qed.

Lemma stats_update_defined s force :
  learned ref s -> 0 <= ssoc_in ce -> last_soc ce < GBMS_SOC_STATS_LEN ->
  exists s', ttf_stats_update s ce force = Ret s'.
Proof using Href Hce.
  intros Hl Hin Hout. unfold ttf_stats_update.
  set (limit := if force then _ else _). assert (limit = 3) by (by destruct force).
  destruct (Z.ltb_spec (last_soc ce - ssoc_in ce) limit); [by eauto|].
  pose proof (we_soc _ Hce) as [_ He _]. unfold GBMS_SOC_STATS_LEN in *.
  destruct (first_nonzero_range (ss_elap (ce_soc_stats ce)) (ssoc_in ce) (last_soc ce))
    as (j & -> & Hj); [lia..|]. run.
  destruct (soc_update_defined s (j + 1) (last_soc ce - 1)) as (s1 & ->);
    [done|unfold GBMS_SOC_STATS_LEN; lia..|]. run. eauto.
Qed.

End learning.

(** C11. What is learned from a charging event stays near the reference (101 entries, no
    charge of 2^24 and no time of 2^30 or more, [wf_ref]), whatever the event holds: any
    samples, adapter, charge profile, levels and times. When the learning returns, every
    learned time and every learned charge (the extrapolated entry 99 apart) is empty or
    between 80% and 120% of the reference, the reference is unchanged and there are still
    three tiers. It does return, without an access out of range or a division by zero, for a
    well-formed event, [wf_event]: levels from 0 to 100, a charge profile without AACT and
    with currents, tier voltages that are unused (0) or at least a millivolt with the last one
    used, temperature rows that the profile has, and tier times that add up to an [int]. *)
Theorem stats_update_stays_near_reference ref s ce force :
  wf_ref ref -> learned ref s ->
  (forall s', ttf_stats_update s ce force = Ret s' -> learned ref s') /\
  (wf_event ce -> 0 <= ssoc_in ce -> last_soc ce < GBMS_SOC_STATS_LEN ->
   exists s', ttf_stats_update s ce force = Ret s').
Proof.
  intros Href Hl. split.
  - intros s'. by apply stats_update_learned.
  - intros Hce. by apply (stats_update_defined ref ce Href Hce).
Qed.

(** ** The reference read from the device tree *)

(** [j] is the first entry of the table for soc [i]. *)
Record covers (soc : list Z) (i j : Z) : Prop := {
  cv_entry : exists b, at_ soc j = Ret b /\ i <= b;
  cv_first k b : k < j -> at_ soc k = Ret b -> b < i;
}.

Lemma at_app_l a b i : i < Z.of_nat (length a) -> at_ (a ++ b) i = at_ a i.
Proof.
  intros Hi. unfold at_. case_test; [done|]. by rewrite lookup_app_l by lia.
Qed.

Lemma at_app_r a b i : 0 <= i -> at_ (a ++ b) (Z.of_nat (length a) + i) = at_ b i.
Proof.
  intros Hi. unfold at_. rewrite !(proj2 (Z.ltb_ge _ 0)) by lia.
  rewrite lookup_app_r by lia. do 2 f_equal. lia.
Qed.

Section tables.
Context (soc elap : list Z).

(** The search resumes at an entry below the socs still to come. *)
Lemma as_default_covers fuel i t m b :
  (forall k b, k < t -> at_ soc k = Ret b -> b < i) -> 0 <= t ->
  at_ soc m = Ret b -> i <= b -> Z.of_nat (length soc) - t < Z.of_nat fuel ->
  exists j, as_default_loop (soc ++ elap) (Z.of_nat (length soc)) fuel i t = Ret j /\
    t <= j /\ covers soc i j.
Proof.
  revert t. induction fuel as [|fuel IH]; intros t Ht H0 Hm Hb Hf.
  { exfalso. apply at_lookup in Hm as [Hm0 Hm]. apply lookup_lt_Some in Hm as Hlt.
    assert (b < i); [|lia]. apply (Ht m); [lia|]. by apply at_lookup. }
  cbn [as_default_loop].
  assert (Htm : t <= m).
  { destruct (Z.le_gt_cases t m); [done|]. assert (b < i); [by eapply Ht|lia]. }
  assert (Hml : m < Z.of_nat (length soc)).
  { apply at_lookup in Hm as [_ Hm]. apply lookup_lt_Some in Hm. lia. }
  rewrite at_app_l by lia. destruct (at_Some soc t) as [s Hs]; [lia|]. rewrite Hs. run.
  rewrite (proj2 (Z.ltb_lt t _)), andb_true_r by lia.
  destruct (Z.ltb_spec s i) as [Hlt|Hge].
  - destruct (IH (t + 1)) as (j & -> & Hj & Hc); [|lia|done|done|lia|].
    { intros k b' Hk Hkb. destruct (Z.eq_dec k t) as [->|]; [|apply (Ht k); [lia|done]].
      rewrite Hs in Hkb. by injection Hkb as <-. }
    exists j. split_and!; [done|lia|done].
  - exists t. split_and!; [done|lia|]. split; [by exists s|done].
Qed.

Lemma soc_ref_loop_covers cc n i t m b :
  length elap = length soc ->
  (forall k b, k < t -> at_ soc k = Ret b -> b < i) -> 0 <= t ->
  at_ soc m = Ret b -> i + Z.of_nat n - 1 <= b ->
  exists es cs, soc_ref_loop (soc ++ elap) (Z.of_nat (length soc)) cc n i t = Ret (es, cs) /\
    length es = n /\ length cs = n /\
    forall k, (k < n)%nat ->
      (exists j e, covers soc (i + Z.of_nat k) j /\ at_ elap j = Ret e /\ es !! k = Some e) /\
      cs !! k = Some (cdiv (s32 (cc * (i + Z.of_nat k))) 100).
Proof.
  intros Hlen. revert i t. induction n as [|n IH]; intros i t Ht H0 Hm Hb; cbn [soc_ref_loop].
  { exists [], []. split_and!; [done..|]. intros k Hk. lia. }
  destruct (as_default_covers (S (Z.to_nat (Z.of_nat (length soc)))) i t m b)
    as (j & Hj & Htj & Hc); [done|done|done|lia|lia|].
  unfold ttf_as_default. rewrite Hj. run. rewrite at_app_r by lia.
  destruct Hc as [(s & Hs & Hsi) Hfirst].
  assert (Hjr : 0 <= j < Z.of_nat (length elap)).
  { apply at_lookup in Hs as [? Hs]. apply lookup_lt_Some in Hs. lia. }
  destruct (at_Some elap j) as [e He]; [done|]. rewrite He. run.
  destruct (IH (i + 1) j) as (es & cs & -> & Hes & Hcs & Hall); [|lia|done|lia|].
  { intros k b' Hk Hkb. pose proof (Hfirst k b' Hk Hkb). lia. }
  run. eexists _, _. split; [done|]. cbn. split_and!; [by rewrite Hes|by rewrite Hcs|].
  intros [|k] Hk; cbn.
  - rewrite Z.add_0_r. split; [|done]. exists j, e. split_and!; [|done..].
    split; [by exists s|done].
  - destruct (Hall k) as [(j' & e' & Hc' & He' & Hl') Hl2]; [lia|].
    replace (i + Z.of_nat (S k)) with (i + 1 + Z.of_nat k) by lia. split; [|done].
    by exists j', e'.
Qed.

End tables.

(** The reference of a battery: when the device tree has the two tables and the soc
    table reaches 100%, the initialisation succeeds without reading past the tables, and
    the reference time of every soc is the entry of the first range of the table that
    covers it; the reference charge grows linearly with the soc. *)
Theorem init_soc_reference `{!DeviceTree} `{!DeviceTreeLaws} s node capacity soc elap m b :
  let n := of_property_count_elems node "google,ttf-soc-table" in
  0 < n -> n mod 2 = 0 ->
  of_property_read_u32_array node "google,ttf-soc-table" n = inr soc ->
  of_property_read_u32_array node "google,ttf-elap-table" n = inr elap ->
  at_ soc m = Ret b -> 100 <= b -> 0 <= capacity < 2 ^ 24 ->
  exists s', ttf_init_soc_parse_dt s node capacity = Ret (0, s') /\
    forall i, 0 <= i <= 100 ->
      (exists j e, covers soc i j /\ at_ elap j = Ret e /\ at_ (ss_elap (soc_ref s')) i = Ret e) /\
      at_ (ss_cc (soc_ref s')) i = Ret (capacity * 100 / 101 * i / 100).
Proof.
  intros n Hn H2 Hs He Hm Hb Hcap. unfold ttf_init_soc_parse_dt. fold n.
  rewrite (proj2 (Z.leb_gt n 0)) by lia. rewrite Z.rem_mod_nonneg, H2 by lia. run. cbn [negb Z.eqb].
  rewrite Hs, He. apply read_length in Hs, He.
  set (cc := cdiv _ _). replace n with (Z.of_nat (length soc)) by done.
  destruct (soc_ref_loop_covers soc elap cc (Z.to_nat GBMS_SOC_STATS_LEN) 0 0 m b)
    as (es & cs & -> & Hes & Hcs & Hall); [lia| |lia|done|unfold GBMS_SOC_STATS_LEN; lia|].
  { intros k x Hk Hx. apply at_lookup in Hx. lia. }
  run. eexists. split; [done|]. intros i Hi. cbn [soc_ref set_soc_ref ss_elap ss_cc].
  destruct (Hall (Z.to_nat i)) as [(j & e & Hc & Hej & Hl) Hl2].
  { unfold GBMS_SOC_STATS_LEN. lia. }
  rewrite Z.add_0_l, Z2Nat.id in Hc, Hl2 by lia. split.
  - exists j, e. split_and!; [done..|]. apply at_lookup. split; [lia|done].
  - assert (Hcc : cc = capacity * 100 / 101).
    { unfold cc, GBMS_SOC_STATS_LEN. rewrite swrap_id, Z.quot_div_nonneg by lia. done. }
    assert (0 <= capacity * 100 / 101 < 2 ^ 24).
    { split; [apply Z.div_pos; lia|]. apply Z.div_lt_upper_bound; lia. }
    rewrite Hcc, swrap_id, Z.quot_div_nonneg in Hl2 by nia.
    apply at_lookup. split; [lia|done].
Qed.

(** ** Estimates per tier *)

(** The estimate per tier: in tier 0 it is the time of the other two tiers, whether or
    not they have data (only the first tier is tested); in tier 1 with data it always reads
    past the end of the array of tiers, because the index is applied to a pointer that is
    already there; in tier 2 it is 0. *)
Theorem tier_estimate_per_tier s temp a b c :
  tier_stats s = [a; b; c] ->
  BATT_TTF_TS_VALID a = true -> BATT_TTF_TS_VALID b = true -> BATT_TTF_TS_VALID c = true ->
  0 <= ts_avg_time b < 2 ^ 62 -> 0 <= ts_avg_time c < 2 ^ 62 ->
  ttf_tier_estimate s temp 0 = Ret (0, Some (ts_avg_time b + ts_avg_time c)) /\
  ttf_tier_estimate s temp 1 = Undef /\
  ttf_tier_estimate s temp 2 = Ret (0, Some 0).
Proof.
  intros Ht Ha Hb Hc Hbt Hct. unfold ttf_tier_estimate, ttf_tier_accumulate. rewrite Ht.
  assert (tier_at [a; b; c] 0 = Ret a /\ tier_at [a; b; c] 1 = Ret b /\
          tier_at [a; b; c] 2 = Ret c /\ tier_at [a; b; c] 3 = Undef) as (H0 & H1 & H2 & H3)
    by done.
  split_and!.
  - rewrite H0. run. rewrite Ha. run. change (Z.to_nat (GBMS_STATS_TIER_COUNT - (0 + 1))) with 2%nat.
    cbn [accumulate_loop]. rewrite H0. run. rewrite Ha. run.
    change (0 + (0 + 1)) with 1. change (0 + (0 + 1 + 1)) with 2. rewrite H1, H2.
    change (GBMS_STATS_TIER_COUNT <=? 0 + 1) with false. cbv iota. run.
    rewrite (swrap_id 64 (0 + _)), swrap_id by lia. rewrite (proj2 (Z.ltb_ge _ 0)) by lia. done.
  - rewrite H1. run. rewrite Hb. run. change (Z.to_nat (GBMS_STATS_TIER_COUNT - (1 + 1))) with 1%nat.
    cbn [accumulate_loop]. rewrite H1. run. rewrite Hb. run.
    change (1 + (1 + 1)) with 3. by rewrite H3.
  - rewrite H2. run. by rewrite Hc.
Qed.

(** ** Witnesses *)

Lemma stats_update_stays_near_reference_witness :
  learned DemoTtf.ref DemoTtf.stats /\
  exists s', ttf_stats_update DemoTtf.stats DemoTtf.event false = Ret s' /\
    learned DemoTtf.ref s'.
Proof.
  assert (Hl : learned DemoTtf.ref DemoTtf.stats).
  { split; [reflexivity|exact DemoTtf.stats_wf| |].
    - intros i r e _ He. apply at_lookup in He as [_ He]. apply lookup_replicate in He. tauto.
    - intros i r c _ _ Hc. apply at_lookup in Hc as [_ Hc]. apply lookup_replicate in Hc. tauto. }
  split; [exact Hl|].
  destruct (stats_update_stays_near_reference DemoTtf.ref DemoTtf.stats DemoTtf.event false)
    as [Hkeep Hdef]; [|exact Hl|].
  2:{ destruct Hdef as [s' Hs']; [exact DemoTtf.event_wf|cbn; lia|by vm_compute|].
      exists s'. split; [exact Hs'|exact (Hkeep s' Hs')]. }
  split; [apply DemoTtf.stats_wf| |apply Forall_replicate; lia].
  apply Forall_forall. intros x Hx. apply list_elem_of_fmap in Hx as (i & -> & Hi).
  apply elem_of_seqZ in Hi. lia.
Defined.

Module DemoTtfTree.
Definition props (name : string) : option (list Z) :=
  if String.eqb name "google,ttf-soc-table" then Some [25; 50; 80; 100]
  else if String.eqb name "google,ttf-elap-table" then Some [50; 60; 80; 120]
  else if String.eqb name "google,ttf-tier-table" then Some [0; 50; 80]
  else None.

#[export] Instance tree : DeviceTree := {|
  of_property_count_elems _ name :=
    match props name with Some l => Z.of_nat (length l) | None => - EINVAL end;
  of_property_read_u32_array _ name n :=
    match props name with
    | Some l => if Z.of_nat (length l) =? n then inr l else inl (- EINVAL)
    | None => inl (- EINVAL)
    end;
  of_property_read_u32 _ _ := inr 1;
  of_property_read_bool _ _ := false;
  of_children _ := [];
  gbms_storage_read_brid _ := inr 7;
|}.

#[export] Instance tree_laws : DeviceTreeLaws.
Proof.
  split; simpl.
  - intros _ name n l. destruct (props name) as [l'|]; [|done].
    case_test; intros Heq; [|done]. by injection Heq as <-.
  - intros _ name n e. destruct (props name) as [l'|]; [case_test|]; intros Heq;
      injection Heq as <- || discriminate Heq; done.
  - intros _ _ v Hv. injection Hv as <-. lia.
Qed.
End DemoTtfTree.
Import DemoTtfTree.

Lemma init_soc_reference_witness :
  exists s', ttf_init_soc_parse_dt DemoTtf.stats 0 4500 = Ret (0, s') /\
    forall i, 0 <= i <= 100 ->
      (exists j e, covers [25; 50; 80; 100] i j /\ at_ [50; 60; 80; 120] j = Ret e /\
         at_ (ss_elap (soc_ref s')) i = Ret e) /\
      at_ (ss_cc (soc_ref s')) i = Ret (4500 * 100 / 101 * i / 100).
Proof.
  apply (init_soc_reference DemoTtf.stats 0 4500 [25; 50; 80; 100] [50; 60; 80; 120] 3 100);
    [reflexivity..|lia|lia].
Defined.

(** A soc table that stops below 100% makes the initialisation read past the tables. *)
Theorem short_soc_table_reads_past_end :
  soc_ref_loop ([25; 50; 80; 99] ++ [50; 60; 80; 120]) 4 0 (Z.to_nat GBMS_SOC_STATS_LEN) 0 0 =
  Undef.
Proof. vm_compute. reflexivity. Qed.

Lemma tier_estimate_per_tier_witness :
  let a := mk_ts 0 100 1000 600 in
  let b := mk_ts (50 * 256) 1100 900 700 in
  let c := mk_ts (80 * 256) 2000 500 800 in
  let s := set_tier_stats [a; b; c] DemoTtf.stats in
  ttf_tier_estimate s 1 0 = Ret (0, Some (ts_avg_time b + ts_avg_time c)) /\
  ttf_tier_estimate s 1 1 = Undef /\
  ttf_tier_estimate s 1 2 = Ret (0, Some 0).
Proof.
  intros a b c s. apply (tier_estimate_per_tier s 1 a b c); [reflexivity..|cbn; lia|cbn; lia].
Defined.
