(* ===== verification/TtfEstimate.v ===== *)
(** Properties of [ttf_soc_estimate] of google_ttf.c and of the fixed-point numbers of
    qmath.h: the estimate adds up the times of the percents that are left. *)

From S2P Require Import Prelude GbmsProfile GbmsLookup GbmsCharge Ttf TtfPower.

(** ** Fixed-point numbers *)

(** The whole percents and the first two decimals. *)
Definition whole (q : Z) : Z := q / 2 ^ 24.
Definition hundredths (q : Z) : Z := q mod 2 ^ 24 * 100 / 2 ^ 24.

Lemma toint_whole q : 0 <= q < 2 ^ 31 -> qnum_toint q = whole q.
Proof.
  intros Hq. unfold qnum_toint, whole. change QNUM_FBITS with 24.
  rewrite Z.shiftr_div_pow2 by lia.
  assert (0 <= q / 2 ^ 24 < 2 ^ 7).
  { split; [apply Z.div_pos; lia|]. apply Z.div_lt_upper_bound; lia. }
  by rewrite swrap_id by lia.
Qed.

Lemma s32_low x : 0 <= x < 2 ^ 32 -> Z.land (s32 x) (Z.shiftl 1 32 - 1) = x.
Proof.
  intros Hx. change (Z.shiftl 1 32 - 1) with (Z.ones 32). rewrite Z.land_ones by lia.
  unfold swrap. rewrite Zminus_mod_idemp_l.
  replace (x + 2 ^ (32 - 1) - 2 ^ (32 - 1)) with x by lia. by apply Z.mod_small.
Qed.

Lemma nfracdgt2_hundredths q : qnum_nfracdgt2 q = hundredths q /\ 0 <= hundredths q < 100.
Proof.
  assert (Hf : 0 <= q mod 2 ^ 24 < 2 ^ 24) by (apply Z.mod_pos_bound; lia).
  assert (Hh : 0 <= hundredths q < 100).
  { unfold hundredths. split; [apply Z.div_pos; lia|]. apply Z.div_lt_upper_bound; lia. }
  split; [|done].
  unfold qnum_nfracdgt2, QNUM_FRACn, QNUM_FRACBITS, qnum_fracpart.
  change QNUM_FMASK with (Z.ones 24). rewrite Z.land_ones by lia.
  change QNUM_IBITS with 8. change QNUM_BITS with 32.
  rewrite Z.shiftl_mul_pow2, s32_low, Z.shiftr_div_pow2 by lia.
  replace (q mod 2 ^ 24 * 2 ^ 8 * 100 / 2 ^ 32) with (hundredths q).
  - rewrite Z.rem_mod_nonneg, Z.mod_small by lia. done.
  - unfold hundredths. replace (2 ^ 32) with (2 ^ 24 * 2 ^ 8) by lia.
    replace (q mod 2 ^ 24 * 2 ^ 8 * 100) with (q mod 2 ^ 24 * 100 * 2 ^ 8) by lia.
    by rewrite Z.div_mul_cancel_r by lia.
Qed.

(** ** The estimate *)

(** The cost of a whole percent, in hundredths of a second, and its ratio: measured inside
    the charging event, estimated outside. *)
Inductive priced (s : batt_ttf_stats) (ce : gbms_charging_event) (i : Z) : Z -> Z -> Prop :=
| priced_measured e :
    ssoc_in ce <= i < last_soc ce -> at_ (ss_elap (ce_soc_stats ce)) i = Ret e ->
    priced s ce i (e * 100) 0
| priced_estimated c r :
    i < ssoc_in ce \/ last_soc ce <= i -> ttf_elap s ce i = Ret (r, Some c) ->
    priced s ce i c r.

Definition total (f : Z -> Z) (a n : Z) : Z := foldr Z.add 0 (f <$> seqZ a n).
Definition largest (r : Z -> Z) (a n : Z) : Z := foldr Z.max 0 (r <$> seqZ a n).

Lemma seqZ_S a n : seqZ a (Z.of_nat (S n)) = a :: seqZ (a + 1) (Z.of_nat n).
Proof. rewrite seqZ_cons by lia. f_equal. f_equal; lia. Qed.

Lemma total_S f a n : total f a (Z.of_nat (S n)) = f a + total f (a + 1) (Z.of_nat n).
Proof. unfold total. by rewrite seqZ_S. Qed.

Lemma largest_S r a n :
  largest r a (Z.of_nat (S n)) = Z.max (r a) (largest r (a + 1) (Z.of_nat n)).
Proof. unfold largest. by rewrite seqZ_S. Qed.

Lemma largest_nonneg r a n : 0 <= largest r a n.
Proof. unfold largest. induction (r <$> seqZ a n); cbn; lia. Qed.

Lemma total_range f a n :
  (forall i, a <= i < a + Z.of_nat n -> 0 <= f i < 2 ^ 48) ->
  0 <= total f a (Z.of_nat n) <= Z.of_nat n * 2 ^ 48.
Proof.
  revert a. induction n as [|n IH]; intros a Hf;
    [change (total f a (Z.of_nat 0)) with 0; lia|].
  rewrite total_S. specialize (IH (a + 1)).
  assert (0 <= f a < 2 ^ 48) by (apply Hf; lia).
  assert (Hi : forall i, a + 1 <= i < a + 1 + Z.of_nat n -> 0 <= f i < 2 ^ 48)
    by (intros; apply Hf; lia).
  specialize (IH Hi). lia.
Qed.

Lemma estimate_loop_total s ce f r n i est mr :
  (forall k, i <= k < i + Z.of_nat n -> 0 <= f k < 2 ^ 48 /\ priced s ce k (f k) (r k)) ->
  0 <= est -> est + Z.of_nat n * 2 ^ 48 < 2 ^ 63 ->
  estimate_loop s ce n i est (Z.max mr 0) =
  Ret (inr (est + total f i (Z.of_nat n), Z.max mr (largest r i (Z.of_nat n)))).
Proof.
  revert i est mr. induction n as [|n IH]; intros i est mr Hp H0 Hb; cbn [estimate_loop].
  { change (total f i (Z.of_nat 0)) with 0. by rewrite Z.add_0_r. }
  destruct (Hp i) as [Hf Hi]; [lia|].
  assert (Hn : forall k, i + 1 <= k < i + 1 + Z.of_nat n ->
                 0 <= f k < 2 ^ 48 /\ priced s ce k (f k) (r k)) by (intros; apply Hp; lia).
  rewrite total_S, largest_S.
  inversion Hi as [e Hr He Hfe Hre|c r' Hr He Hfe Hre].
  - rewrite (proj2 (Z.leb_le _ i)), (proj2 (Z.ltb_lt i _)) by lia. run. rewrite He. run.
    rewrite (swrap_id 64 (e * 100)), Hfe, swrap_id by lia. rewrite IH by (done || lia).
    assert (0 <= largest r (i + 1) (Z.of_nat n)) by apply largest_nonneg.
    f_equal. f_equal. f_equal; lia.
  - replace ((ssoc_in ce <=? i) && (i <? last_soc ce)) with false.
    + rewrite He. run. rewrite swrap_id by lia.
      rewrite Z.max_assoc.
      rewrite IH by (done || lia). f_equal. f_equal. f_equal; lia.
    + destruct (Z.leb_spec (ssoc_in ce) i), (Z.ltb_spec i (last_soc ce)); simpl; lia.
Qed.

(** The part of a percent that is paid, in hundredths of a second. *)
Definition part (f h : Z) : Z := f * h / 100.

(** The first whole percent of the estimate. *)
Definition start (soc : Z) : Z := whole soc + (if hundredths soc =? 0 then 0 else 1).

Section estimate.
Context (s : batt_ttf_stats) (ce : gbms_charging_event) (soc last : Z) (f r : Z -> Z).

(** Every percent from [soc] to [last] has a price; the two at the ends, if they are not
    whole, an estimated one. *)
Record prices : Prop := {
  pr_range i : 0 <= f i < 2 ^ 48;
  pr_ratio i : 0 <= r i;
  pr_first : hundredths soc <> 0 -> ttf_elap s ce (whole soc) = Ret (r (whole soc), Some (f (whole soc)));
  pr_whole i : start soc <= i < whole last -> priced s ce i (f i) (r i);
  pr_last : hundredths last <> 0 -> ttf_elap s ce (whole last) = Ret (r (whole last), Some (f (whole last)));
}.

(** Hundredths of seconds, and the largest ratio. *)
Definition estimate_spec : Z :=
  (if hundredths soc =? 0 then 0 else part (f (whole soc)) (100 - hundredths soc)) +
  total f (start soc) (whole last - start soc) +
  (if hundredths last =? 0 then 0 else part (f (whole last)) (hundredths last)).

Definition ratio_spec : Z :=
  Z.max (if hundredths soc =? 0 then 0 else r (whole soc))
    (Z.max (largest r (start soc) (whole last - start soc))
       (if hundredths last =? 0 then 0 else r (whole last))).

End estimate.

Lemma part_range f h : 0 <= f < 2 ^ 48 -> 0 <= h <= 100 -> 0 <= part f h < 2 ^ 48.
Proof.
  intros Hf Hh. unfold part. split; [apply Z.div_pos; nia|]. apply Z.div_lt_upper_bound; nia.
Qed.

(** One end of the range: [elap * h / 100]. *)
Lemma scaled f h : 0 <= f < 2 ^ 48 -> 0 <= h <= 100 -> cdiv (s64 (f * h)) 100 = part f h.
Proof.
  intros Hf Hh. rewrite swrap_id, Z.quot_div_nonneg by nia. done.
Qed.

(** C10. The time to full: from [soc] to [last] (fixed-point percents up to 100%, [last] in
    a later percent), the estimate is the sum of the times of the percents left, the
    measured time for a percent of the charging event and the scaled reference for the
    others, with the two ends paid in proportion to the first two decimals of [soc] and
    [last]; the status is the largest ratio that was used. *)
Theorem soc_estimate_adds_percents s ce soc last f r :
  0 <= soc -> last <= 100 * 2 ^ 24 -> whole soc < whole last -> prices s ce soc last f r ->
  ttf_soc_estimate s ce soc last =
  Ret (ratio_spec soc last r, Some (estimate_spec soc last f / 100)).
Proof.
  intros H0 H100 Hlt [Hf Hr Hfirst Hwhole Hlast].
  assert (Hsl : soc < last).
  { apply Z.nle_gt. intros Hle. apply (Z.div_le_mono _ _ (2 ^ 24)) in Hle; [|lia].
    unfold whole in Hlt. lia. }
  assert (Hw : 0 <= whole soc /\ whole last <= 100).
  { unfold whole. split; [apply Z.div_pos; lia|]. apply Z.div_le_upper_bound; lia. }
  unfold ttf_soc_estimate. change (qnum_rconst 100) with 1677721650.
  rewrite (proj2 (Z.ltb_ge _ last)), (proj2 (Z.ltb_ge last soc)), (proj2 (Z.eqb_neq last soc)) by lia.
  destruct (nfracdgt2_hundredths soc) as [-> Hhs]. destruct (nfracdgt2_hundredths last) as [-> Hhl].
  rewrite !toint_whole by lia. run.
  set (m0 := if hundredths soc =? 0 then 0 else r (whole soc)).
  set (e0 := if hundredths soc =? 0 then 0 else part (f (whole soc)) (100 - hundredths soc)).
  assert (He0 : 0 <= e0 < 2 ^ 48).
  { unfold e0. case_test; [lia|]. apply part_range; [apply Hf|lia]. }
  assert (Hm0 : 0 <= m0) by (unfold m0; case_test; [lia|apply Hr]).
  match goal with |- obind ?m _ = _ =>
    replace m with (Ret (start soc - whole soc, e0, Z.max m0 0)) end.
  2: { unfold e0, m0, start. case_test; [f_equal; f_equal; f_equal; lia|].
       rewrite Hfirst by done. run. rewrite scaled by (apply Hf || lia).
       f_equal. f_equal. f_equal. lia. }
  run. replace (start soc - whole soc + whole soc) with (start soc) by lia.
  assert (Hst : whole soc <= start soc <= whole last) by (unfold start; case_test; lia).
  set (n := Z.to_nat (whole last - start soc)).
  assert (Hn : whole last - start soc = Z.of_nat n) by lia.
  rewrite (estimate_loop_total s ce f r); [|intros k Hk; split; [apply Hf|apply Hwhole; lia]|lia..].
  run. unfold estimate_spec, ratio_spec. fold m0 e0. rewrite Hn.
  pose proof (total_range f (start soc) n (fun i _ => Hf i)) as Ht.
  pose proof (largest_nonneg r (start soc) (Z.of_nat n)) as Hl.
  destruct (Z.eqb_spec (hundredths last) 0) as [Hz|Hz]; run.
  - rewrite Z.quot_div_nonneg by lia. f_equal. f_equal; [lia|]. do 2 f_equal. lia.
  - rewrite (Hlast Hz). run. rewrite scaled by (apply Hf || lia).
    pose proof (part_range (f (whole last)) (hundredths last) (Hf _) ltac:(lia)).
    rewrite swrap_id, Z.quot_div_nonneg by lia. f_equal. f_equal. lia.
Qed.

(** ** Witness *)

(** From 48.5% to 62.25% in the demo event: half of percent 48 estimated at 120%, percents
    49 to 59 measured, 60, 61 and a quarter of 62 estimated. *)
Module DemoEstimate.
Definition q (whole quarters : Z) : Z := whole * 2 ^ 24 + quarters * 2 ^ 22.

Definition price (i : Z) : Z := if i =? 48 then 7200 else if i <? 60 then 7000 else 6000.
Definition ratio (i : Z) : Z := if i =? 48 then 120 else if i <? 60 then 0 else 100.

Lemma demo_prices : prices DemoTtf.stats DemoTtf.event (q 48 2) (q 62 1) price ratio.
Proof.
  split.
  - intros i. unfold price. repeat case_test; lia.
  - intros i. unfold ratio. repeat case_test; lia.
  - intros _. vm_compute. reflexivity.
  - intros i Hi. change (start (q 48 2)) with 49 in Hi. change (whole (q 62 1)) with 62 in Hi.
    unfold price, ratio. rewrite (proj2 (Z.eqb_neq i 48)) by lia. case_test.
    + apply (priced_measured _ _ _ 70); [cbn; lia|]. apply at_lookup. split; [lia|].
      apply lookup_replicate_2. lia.
    + apply priced_estimated; [cbn; lia|].
      assert (i = 60 \/ i = 61) as [->| ->] by lia; vm_compute; reflexivity.
  - intros _. vm_compute. reflexivity.
Qed.
End DemoEstimate.

Lemma soc_estimate_adds_percents_witness :
  ttf_soc_estimate DemoTtf.stats DemoTtf.event (DemoEstimate.q 48 2) (DemoEstimate.q 62 1) =
    Ret (120, Some 941) /\
  ttf_soc_estimate DemoTtf.stats DemoTtf.event (DemoEstimate.q 48 2) (DemoEstimate.q 62 1) =
  Ret (ratio_spec (DemoEstimate.q 48 2) (DemoEstimate.q 62 1) DemoEstimate.ratio,
       Some (estimate_spec (DemoEstimate.q 48 2) (DemoEstimate.q 62 1) DemoEstimate.price / 100)).
Proof.
  split; [vm_compute; reflexivity|].
  apply soc_estimate_adds_percents; [by vm_compute..|exact DemoEstimate.demo_prices].
Defined.

(** Inside one percent the two ends are added, not subtracted: from 62.25% to 62.75% of a
    percent that takes 60 seconds, the estimate is 90 seconds. *)
Theorem same_percent_counted_twice :
  ttf_elap DemoTtf.stats DemoTtf.event 62 = Ret (100, Some 6000) /\
  ttf_soc_estimate DemoTtf.stats DemoTtf.event (DemoEstimate.q 62 1) (DemoEstimate.q 62 3) =
    Ret (100, Some 90).
Proof. split; vm_compute; reflexivity. Qed.
