(* ===== verification/GcipQueue.v ===== *)
(** Circular queues of the accelerator mailboxes (gcip-mailbox.h, the queue side of
    gcip-mailbox.c and of edgetpu-mailbox.c).

    An index is a slot number with a wrap bit above it that flips each time the index
    passes the end of the queue.  An index is specified by an unbounded position in the
    stream of elements: the slot is the position modulo the size, the wrap bit the parity
    of the number of rounds. *)

From S2P Require Import Prelude.

(** ** Index arithmetic, on [u32] *)

Definition CIRC_QUEUE_WRAPPED (idx wrap_bit : Z) : Z := Z.land idx wrap_bit.
Definition CIRC_QUEUE_INDEX_MASK (wrap_bit : Z) : Z := u32 (wrap_bit - 1).
Definition CIRC_QUEUE_VALID_MASK (wrap_bit : Z) : Z :=
  Z.lor (CIRC_QUEUE_INDEX_MASK wrap_bit) wrap_bit.
Definition CIRC_QUEUE_REAL_INDEX (idx wrap_bit : Z) : Z :=
  Z.land idx (CIRC_QUEUE_INDEX_MASK wrap_bit).
Definition CIRC_QUEUE_MAX_SIZE (wrap_bit : Z) : Z := u32 (wrap_bit - 1).

Definition gcip_circ_queue_cnt (head tail queue_size wrap_bit : Z) : Z :=
  let ret :=
    if negb (CIRC_QUEUE_WRAPPED tail wrap_bit =? CIRC_QUEUE_WRAPPED head wrap_bit)
    then u32 (queue_size - CIRC_QUEUE_REAL_INDEX head wrap_bit
              + CIRC_QUEUE_REAL_INDEX tail wrap_bit)
    else u32 (tail - head) in
  if queue_size <? ret then 0 else ret.

Definition gcip_circ_queue_inc (index inc queue_size wrap_bit : Z) : Z :=
  let new_index := u32 (CIRC_QUEUE_REAL_INDEX index wrap_bit + inc) in
  if queue_size <=? new_index then Z.lxor (u32 (index + inc - queue_size)) wrap_bit
  else u32 (index + inc).

Definition gcip_valid_circ_queue_size (size wrap_bit : Z) : bool :=
  negb ((size =? 0) || (CIRC_QUEUE_MAX_SIZE wrap_bit <? size)).

(** ** The queues of an EdgeTPU mailbox (edgetpu-mailbox.c) *)

Definition CIRC_QUEUE_WRAP_BIT : Z := Z.shiftl 1 10.

(** The driver's copy of the indices and sizes, and the registers they are written to. *)
Record edgetpu_mailbox := mk_hw {
  cmd_queue_tail : Z;
  cmd_queue_size : Z;
  resp_queue_head : Z;
  resp_queue_size : Z;
  csr_cmd_head : Z;
  csr_cmd_tail : Z;
  csr_resp_head : Z;
  csr_resp_tail : Z;
}.

Inductive gcip_mailbox_queue_type := GCIP_MAILBOX_CMD_QUEUE | GCIP_MAILBOX_RESP_QUEUE.

Definition edgetpu_mailbox_set_cmd_queue_tail (m : edgetpu_mailbox) (value : Z)
    : edgetpu_mailbox :=
  mk_hw value (cmd_queue_size m) (resp_queue_head m) (resp_queue_size m)
    (csr_cmd_head m) value (csr_resp_head m) (csr_resp_tail m).

Definition edgetpu_mailbox_set_resp_queue_head (m : edgetpu_mailbox) (value : Z)
    : edgetpu_mailbox :=
  mk_hw (cmd_queue_tail m) (cmd_queue_size m) value (resp_queue_size m)
    (csr_cmd_head m) (csr_cmd_tail m) value (csr_resp_tail m).

Definition edgetpu_mailbox_inc_cmd_queue_tail (m : edgetpu_mailbox) (inc : Z)
    : edgetpu_mailbox :=
  edgetpu_mailbox_set_cmd_queue_tail m
    (gcip_circ_queue_inc (cmd_queue_tail m) inc (cmd_queue_size m) CIRC_QUEUE_WRAP_BIT).

Definition edgetpu_mailbox_inc_resp_queue_head (m : edgetpu_mailbox) (inc : Z)
    : edgetpu_mailbox :=
  edgetpu_mailbox_set_resp_queue_head m
    (gcip_circ_queue_inc (resp_queue_head m) inc (resp_queue_size m) CIRC_QUEUE_WRAP_BIT).

(** Sets the size and clears both indices of a queue. *)
Definition edgetpu_mailbox_set_queue (m : edgetpu_mailbox) (type : gcip_mailbox_queue_type)
    (addr size : Z) : Z * edgetpu_mailbox :=
  if negb (gcip_valid_circ_queue_size size CIRC_QUEUE_WRAP_BIT) then (- EINVAL, m) else
  if negb (Z.land (u32 (Z.shiftr addr 32)) 0xfffffff0 =? 0) then (- EINVAL, m) else
  match type with
  | GCIP_MAILBOX_CMD_QUEUE =>
    (0, mk_hw 0 size (resp_queue_head m) (resp_queue_size m) 0 0
          (csr_resp_head m) (csr_resp_tail m))
  | GCIP_MAILBOX_RESP_QUEUE =>
    (0, mk_hw (cmd_queue_tail m) (cmd_queue_size m) 0 size
          (csr_cmd_head m) (csr_cmd_tail m) 0 0)
  end.

Definition edgetpu_mailbox_set_queue_as_unused (m : edgetpu_mailbox)
    (type : gcip_mailbox_queue_type) : edgetpu_mailbox :=
  match type with
  | GCIP_MAILBOX_CMD_QUEUE =>
    mk_hw 0 0 (resp_queue_head m) (resp_queue_size m) 0 0 (csr_resp_head m) (csr_resp_tail m)
  | GCIP_MAILBOX_RESP_QUEUE =>
    mk_hw (cmd_queue_tail m) (cmd_queue_size m) 0 0 (csr_cmd_head m) (csr_cmd_tail m) 0 0
  end.

Definition edgetpu_mailbox_reset (m : edgetpu_mailbox) : edgetpu_mailbox :=
  mk_hw 0 (cmd_queue_size m) 0 (resp_queue_size m) 0 0 0 0.

(** The test of [edgetpu_ikv_wait_for_cmd_queue_not_full]. *)
Definition cmd_queue_full (m : edgetpu_mailbox) : bool :=
  csr_cmd_head m =? Z.lxor (cmd_queue_tail m) CIRC_QUEUE_WRAP_BIT.

(** ** Fetching responses (gcip-mailbox.c)

    Each turn of the loop reads the tail register, allocates and copies; [fw n] is what
    turn [n] meets: the tail register, the contents of the queue (by slot), and whether
    the allocation succeeds. *)

Section fetch.
Context {E : Set}.

Record turn := mk_turn {
  tn_tail : Z;
  tn_queue : list E;
  tn_alloc : bool;
}.

Fixpoint copy_responses (queue : list E) (size j : Z) (count : nat) : outcome (list E) :=
  match count with
  | O => Ret []
  | S count =>
    let* e := must (queue !! Z.to_nat j) in
    let* l := copy_responses queue size (u32 (j + 1) mod size) count in
    Ret (e :: l)
  end.

(** [ret] is [None] for a null pointer, [inl] for an error pointer. *)
Definition fetched := option (Z + list E).

Fixpoint fetch_loop (fw : nat -> turn) (wrap_bit size : Z) (fuel n : nat) (head : Z)
    (got : fetched) : outcome fetched :=
  match fuel with
  | O => Undef
  | S fuel =>
    let t := fw n in
    let tail := tn_tail t in
    if negb (Z.land tail (U32_MAX - CIRC_QUEUE_VALID_MASK wrap_bit) =? 0)
       || (size <=? CIRC_QUEUE_REAL_INDEX tail wrap_bit) then Ret got else
    let count := gcip_circ_queue_cnt head tail size wrap_bit in
    if count =? 0 then Ret got else
    if negb (tn_alloc t) then
      Ret (match got with None => Some (inl (- ENOMEM)) | Some _ => got end)
    else
      let* l := copy_responses (tn_queue t) size (CIRC_QUEUE_REAL_INDEX head wrap_bit)
                  (Z.to_nat count) in
      let prev := match got with Some (inr l) => l | _ => [] end in
      fetch_loop fw wrap_bit size fuel (S n) (gcip_circ_queue_inc head count size wrap_bit)
        (Some (inr (prev ++ l)))
  end.

Definition total_of (got : fetched) : Z :=
  match got with Some (inr l) => Z.of_nat (length l) | _ => 0 end.

(** The lock is taken ([locked]) or another thread is at work; the new head is the one
    that [INC_RX_QUEUE_HEAD(total)] sets. *)
Definition gcip_mailbox_fetch_responses (fw : nat -> turn) (fuel : nat) (block_off locked : bool)
    (m : edgetpu_mailbox) : outcome (fetched * Z * edgetpu_mailbox) :=
  if block_off || negb locked then Ret (None, 0, m) else
  let* got := fetch_loop fw CIRC_QUEUE_WRAP_BIT (resp_queue_size m) fuel 0
                (resp_queue_head m) None in
  Ret (got, total_of got, edgetpu_mailbox_inc_resp_queue_head m (total_of got)).

Definition gcip_mailbox_fetch_one_response (t : turn) (block_off locked : bool)
    (m : edgetpu_mailbox) : outcome (option E * edgetpu_mailbox) :=
  if block_off || negb locked then Ret (None, m) else
  let head := resp_queue_head m in
  if head =? tn_tail t then Ret (None, m) else
  let* e := must (tn_queue t !! Z.to_nat (CIRC_QUEUE_REAL_INDEX head CIRC_QUEUE_WRAP_BIT)) in
  Ret (Some e, edgetpu_mailbox_inc_resp_queue_head m 1).

End fetch.
Arguments turn : clear implicits.
Arguments fetched : clear implicits.
