(* ===== verification/GcipStream.v ===== *)
(** The circular queues of the mailboxes count an unbounded stream, and fetching returns the
    responses of the stream in order. *)

From S2P Require Import Prelude GcipQueue.

(** ** Bits *)

Lemma land_pow2 a k : 0 <= k -> Z.land a (2 ^ k) = if Z.testbit a k then 2 ^ k else 0.
Proof.
  intros Hk. apply Z.bits_inj'. intros i Hi. rewrite Z.land_spec.
  destruct (Z.eq_dec i k) as [->|Hne].
  - rewrite Z.pow2_bits_true, andb_true_r by done. destruct (Z.testbit a k) eqn:E.
    + by rewrite Z.pow2_bits_true.
    + by rewrite Z.bits_0.
  - rewrite Z.pow2_bits_false, andb_false_r by lia.
    destruct (Z.testbit a k); [by rewrite Z.pow2_bits_false by lia|by rewrite Z.bits_0].
Qed.

(** A slot below the wrap bit, with the bit set or clear. *)
Definition with_bit (k r : Z) (b : bool) : Z := r + (if b then 2 ^ k else 0).

Lemma with_bit_test k r b : 0 <= k -> 0 <= r < 2 ^ k -> Z.testbit (with_bit k r b) k = b.
Proof.
  intros Hk Hr. unfold with_bit. rewrite Z.testbit_odd, Z.shiftr_div_pow2 by done. destruct b.
  - replace (r + 2 ^ k) with (r + 1 * 2 ^ k) by lia. rewrite Z.div_add by lia.
    by rewrite Z.div_small.
  - by rewrite Z.add_0_r, Z.div_small.
Qed.

Lemma with_bit_low k r b : 0 <= k -> 0 <= r < 2 ^ k -> Z.land (with_bit k r b) (2 ^ k - 1) = r.
Proof.
  intros Hk Hr.
  replace (2 ^ k - 1) with (Z.ones k) by (rewrite Z.ones_equiv; lia).
  rewrite Z.land_ones by done. unfold with_bit. destruct b.
  - replace (r + 2 ^ k) with (r + 1 * 2 ^ k) by lia. by rewrite Z.mod_add, Z.mod_small by lia.
  - by rewrite Z.add_0_r, Z.mod_small.
Qed.

Lemma with_bit_flip k r b :
  0 <= k -> 0 <= r < 2 ^ k -> Z.lxor (with_bit k r b) (2 ^ k) = with_bit k r (negb b).
Proof.
  intros Hk Hr. unfold with_bit.
  assert (Hd : Z.land r (2 ^ k) = 0).
  { rewrite land_pow2 by done. pose proof (with_bit_test k r false Hk Hr) as Ht.
    unfold with_bit in Ht. rewrite Z.add_0_r in Ht. by rewrite Ht. }
  rewrite (Z.add_nocarry_lxor r) by (destruct b; [done|by rewrite Z.land_0_r]).
  destruct b; cbn [negb].
  - by rewrite Z.lxor_assoc, Z.lxor_nilpotent, Z.lxor_0_r, Z.add_0_r.
  - by rewrite Z.lxor_0_r, <- Z.add_nocarry_lxor.
Qed.

(** ** Positions of the stream *)

Section stream.
Context (k s : Z) (Hk : 0 < k < 31) (Hs : 1 <= s < 2 ^ k).

(** The index of position [n]. *)
Definition index_of (n : Z) : Z := with_bit k (n mod s) (Z.odd (n / s)).

Lemma slot_range n : 0 <= n mod s < 2 ^ k.
Proof. pose proof (Z.mod_pos_bound n s). lia. Qed.

Lemma pow_small : 2 ^ k <= 2 ^ 30.
Proof. apply Z.pow_le_mono_r; lia. Qed.

Lemma index_range n : 0 <= index_of n < 2 ^ 31.
Proof.
  unfold index_of, with_bit. pose proof (slot_range n). pose proof pow_small.
  destruct (Z.odd _); lia.
Qed.

Lemma real_index n : CIRC_QUEUE_REAL_INDEX (index_of n) (2 ^ k) = n mod s.
Proof.
  unfold CIRC_QUEUE_REAL_INDEX, CIRC_QUEUE_INDEX_MASK. pose proof pow_small.
  rewrite wrap_id by lia. apply with_bit_low; [lia|apply slot_range].
Qed.

Lemma wrapped n :
  CIRC_QUEUE_WRAPPED (index_of n) (2 ^ k) = if Z.odd (n / s) then 2 ^ k else 0.
Proof.
  unfold CIRC_QUEUE_WRAPPED. rewrite land_pow2 by lia. unfold index_of.
  by rewrite with_bit_test by (lia || apply slot_range).
Qed.

(** Adding at most one round stays in the round or enters the next. *)
Lemma next_round n i :
  0 <= i <= s ->
  (n mod s + i < s /\ (n + i) mod s = n mod s + i /\ (n + i) / s = n / s) \/
  (s <= n mod s + i /\ (n + i) mod s = n mod s + i - s /\ (n + i) / s = n / s + 1).
Proof.
  intros Hi. pose proof (Z.div_mod n s ltac:(lia)). pose proof (Z.mod_pos_bound n s ltac:(lia)).
  destruct (Z.lt_ge_cases (n mod s + i) s); [left|right]; split; try done.
  - split.
    + symmetry. apply (Z.mod_unique _ _ (n / s)); lia.
    + symmetry. apply (Z.div_unique _ _ _ (n mod s + i)); lia.
  - split.
    + symmetry. apply (Z.mod_unique _ _ (n / s + 1)); lia.
    + symmetry. apply (Z.div_unique _ _ _ (n mod s + i - s)); lia.
Qed.

Lemma inc_index n i :
  0 <= n -> 0 <= i <= s -> gcip_circ_queue_inc (index_of n) i s (2 ^ k) = index_of (n + i).
Proof.
  intros Hn Hi. unfold gcip_circ_queue_inc. rewrite real_index.
  pose proof (slot_range n) as Hr. pose proof pow_small. pose proof (index_range n) as Hx.
  rewrite (wrap_id 32 (n mod s + i)) by lia.
  unfold index_of at 1 2. unfold index_of in Hx. unfold with_bit in *.
  destruct (next_round n i Hi) as [(Hlt & Hm & Hd)|(Hge & Hm & Hd)].
  - rewrite (proj2 (Z.leb_gt _ _)) by lia. rewrite wrap_id by lia.
    unfold index_of, with_bit. rewrite Hm, Hd. lia.
  - rewrite (proj2 (Z.leb_le _ _)) by lia. rewrite wrap_id by (destruct (Z.odd _); lia).
    replace (n mod s + (if Z.odd (n / s) then 2 ^ k else 0) + i - s)
      with (with_bit k (n mod s + i - s) (Z.odd (n / s))) by (unfold with_bit; lia).
    rewrite with_bit_flip by (pose proof (slot_range (n + i)); lia).
    unfold index_of. by rewrite Hm, Hd, Z.odd_add, xorb_true_r.
Qed.

Lemma cnt_index h t :
  0 <= h -> 0 <= t - h <= s -> gcip_circ_queue_cnt (index_of h) (index_of t) s (2 ^ k) = t - h.
Proof.
  intros Hh Ht. unfold gcip_circ_queue_cnt. rewrite !real_index, !wrapped.
  pose proof pow_small. pose proof (slot_range h). pose proof (slot_range t).
  replace t with (h + (t - h)) in * by lia. set (i := t - h) in *. clearbody i.
  unfold index_of, with_bit.
  destruct (next_round h i) as [(Hlt & Hm & Hd)|(Hge & Hm & Hd)]; [lia| |].
  - rewrite Hd, Hm. rewrite Z.eqb_refl. run.
    match goal with |- context [u32 ?x] => replace x with i by lia end.
    rewrite wrap_id, (proj2 (Z.ltb_ge s i)) by lia. lia.
  - rewrite Hd, Hm, Z.odd_add. cbn [Z.odd]. rewrite xorb_true_r.
    assert ((if negb (Z.odd (h / s)) then 2 ^ k else 0) <> (if Z.odd (h / s) then 2 ^ k else 0))
      as Hne by (destruct (Z.odd (h / s)); cbn [negb]; lia).
    rewrite (proj2 (Z.eqb_neq _ _) Hne). run.
    match goal with |- context [u32 ?x] => replace x with i by lia end.
    rewrite wrap_id, (proj2 (Z.ltb_ge s i)) by lia. lia.
Qed.

(** The queue is full exactly when the indices differ in the wrap bit only. *)
Lemma full_index h t :
  0 <= h -> 0 <= t - h <= s -> (index_of h = Z.lxor (index_of t) (2 ^ k) <-> t - h = s).
Proof.
  intros Hh Ht. unfold index_of at 2. rewrite with_bit_flip by (lia || apply slot_range).
  pose proof (slot_range h). pose proof (slot_range t).
  replace t with (h + (t - h)) in * by lia. set (i := t - h) in *. clearbody i.
  unfold index_of, with_bit.
  destruct (next_round h i) as [(Hlt & Hm & Hd)|(Hge & Hm & Hd)]; [lia| |].
  - rewrite Hd, Hm. destruct (Z.odd (h / s)); simpl; lia.
  - rewrite Hd, Hm, Z.odd_add. cbn [Z.odd]. rewrite xorb_true_r, negb_involutive. lia.
Qed.

End stream.

(** The index arithmetic of the mailbox queues is exact on the whole stream: for head and
    tail at positions at most one queue apart, [gcip_circ_queue_cnt] is their distance,
    [gcip_circ_queue_inc] moves an index by any number of elements up to a full queue,
    across the end and through both values of the wrap bit, and the full test of the
    drivers (head equal to the tail with the wrap bit flipped) holds exactly when the
    queue is full. *)
Theorem circ_queue_counts_stream k s h t i :
  0 < k < 31 -> 1 <= s < 2 ^ k -> 0 <= h -> 0 <= t - h <= s -> 0 <= i <= s ->
  gcip_valid_circ_queue_size s (2 ^ k) = true /\
  gcip_circ_queue_cnt (index_of k s h) (index_of k s t) s (2 ^ k) = t - h /\
  gcip_circ_queue_inc (index_of k s h) i s (2 ^ k) = index_of k s (h + i) /\
  (index_of k s h = Z.lxor (index_of k s t) (2 ^ k) <-> t - h = s).
Proof.
  intros Hk Hs Hh Ht Hi. split; [|split; [by apply cnt_index|split; [by apply inc_index|]]].
  - unfold gcip_valid_circ_queue_size, CIRC_QUEUE_MAX_SIZE. pose proof (pow_small k Hk).
    rewrite wrap_id by lia. rewrite (proj2 (Z.eqb_neq s 0)), (proj2 (Z.ltb_ge _ s)) by lia. done.
  - by apply full_index.
Qed.

(** ** Fetching *)

Section fetching.
Context {E : Set} (w : Z -> E) (s h : Z).
Context (Hs : 1 <= s < 2 ^ 10) (Hh : 0 <= h).

#[local] Abbreviation idx := (index_of 10 s).

(** What a correct firmware shows: its tail grows, it does not pass the head the driver
    published by more than the queue, and the slots before the tail hold the stream. *)
Record honest (fw : nat -> turn E) (t : nat -> Z) : Prop := {
  hn_tail n : tn_tail (fw n) = idx (t n);
  hn_range n : h <= t n <= h + s;
  hn_grows n : t n <= t (S n);
  hn_slots n p : h <= p < t n -> tn_queue (fw n) !! Z.to_nat (p mod s) = Some (w p);
}.

Lemma copy_stream q p n :
  0 <= p -> (forall i, p <= i < p + Z.of_nat n -> q !! Z.to_nat (i mod s) = Some (w i)) ->
  copy_responses q s (p mod s) n = Ret (w <$> seqZ p (Z.of_nat n)).
Proof.
  revert p. induction n as [|n IH]; intros p Hp Hq; cbn [copy_responses].
  { by rewrite seqZ_nil by lia. }
  rewrite Hq by lia. run. pose proof (Z.mod_pos_bound p s ltac:(lia)).
  rewrite wrap_id, Zplus_mod_idemp_l by lia. rewrite IH by (lia || intros; apply Hq; lia). run.
  rewrite (seqZ_cons p) by lia. rewrite fmap_cons.
  replace (Z.succ p) with (p + 1) by lia. by replace (Z.pred _) with (Z.of_nat n) by lia.
Qed.

Definition got_upto (p : Z) : fetched E :=
  if p =? h then None else Some (inr (w <$> seqZ h (p - h))).

Lemma valid_tail n :
  Z.land (idx n) (U32_MAX - CIRC_QUEUE_VALID_MASK (2 ^ 10)) = 0.
Proof.
  change (U32_MAX - CIRC_QUEUE_VALID_MASK (2 ^ 10)) with (Z.shiftl (Z.ones 21) 11).
  apply Z.bits_inj'. intros i Hi. rewrite Z.land_spec, Z.bits_0, Z.shiftl_spec by done.
  destruct (Z.lt_ge_cases i 11) as [Hlt|Hge].
  - by rewrite (Z.testbit_neg_r _ (i - 11)), andb_false_r by lia.
  - assert (Hr : 0 <= idx n < 2 ^ 11).
    { unfold index_of, with_bit. pose proof (slot_range 10 s ltac:(lia) Hs n). destruct (Z.odd _); lia. }
    rewrite Z.bits_above_log2; [done|lia|].
    destruct (Z.eq_dec (idx n) 0) as [->|]; [simpl; lia|].
    apply Z.lt_le_trans with 11; [apply Z.log2_lt_pow2; lia|done].
Qed.

Lemma fetch_loop_stream fw t fuel n p :
  honest fw t -> h <= p <= h + s -> (forall j, (n <= j)%nat -> p <= t j) ->
  h + s - p < Z.of_nat fuel ->
  exists q got, fetch_loop fw (2 ^ 10) s fuel n (idx p) (got_upto p) = Ret got /\
    p <= q <= h + s /\ total_of got = q - h /\
    (got = got_upto q \/ got = Some (inl (- ENOMEM)) /\ q = h) /\
    ((forall j, tn_alloc (fw j) = true) -> t n <= q).
Proof.
  intros Hf. revert n p. induction fuel as [|fuel IH]; intros n p Hp Ht Hfu; [lia|].
  cbn [fetch_loop]. rewrite (hn_tail _ _ Hf), valid_tail, (real_index 10 s) by lia.
  pose proof (Z.mod_pos_bound (t n) s ltac:(lia)).
  rewrite (proj2 (Z.leb_gt s _)) by lia. cbn [Z.eqb negb orb].
  pose proof (hn_range _ _ Hf n). pose proof (Ht n ltac:(lia)).
  rewrite (cnt_index 10 s) by lia.
  assert (Htot : forall q, h <= q -> total_of (got_upto q) = q - h).
  { intros q Hq. unfold got_upto. case_test; [simpl; lia|]. cbn.
    rewrite length_fmap, length_seqZ. lia. }
  destruct (Z.eqb_spec (t n - p) 0).
  { exists p, (got_upto p). rewrite Htot by lia. split_and!; try lia; [done|by left]. }
  destruct (tn_alloc (fw n)) eqn:Ea; cbn [negb].
  - rewrite (real_index 10 s) by lia.
    rewrite copy_stream by (lia || intros i Hi; apply (hn_slots _ _ Hf); lia). run.
    rewrite (inc_index 10 s) by lia. replace (p + (t n - p)) with (t n) by lia.
    replace (Some (inr _)) with (got_upto (t n)).
    + destruct (IH (S n) (t n)) as (q & got & Hl & Hq & Hto & Hg & Hall).
      * lia.
      * intros j Hj. induction Hj as [|j Hj IHj]; [apply (hn_grows _ _ Hf)|].
        pose proof (hn_grows _ _ Hf j). lia.
      * lia.
      * exists q, got. split_and!; try done; lia.
    + unfold got_upto. rewrite (proj2 (Z.eqb_neq (t n) h)) by lia. do 2 f_equal.
      destruct (Z.eqb_spec p h) as [->|].
      * cbn [app]. by rewrite Z2Nat.id by lia.
      * rewrite <- fmap_app, Z2Nat.id by lia. f_equal.
        replace (t n - h) with ((p - h) + (t n - p)) by lia. rewrite seqZ_app by lia.
        do 2 f_equal; lia.
  - unfold got_upto. destruct (Z.eqb_spec p h) as [->|].
    + exists h, (Some (inl (- ENOMEM))). split_and!; try lia; [done|cbn; lia|by right|].
      intros Hall. by rewrite Hall in Ea.
    + exists p, (got_upto p). rewrite Htot by lia. unfold got_upto.
      rewrite (proj2 (Z.eqb_neq p h)) by done.
      split_and!; try lia; [done|by left|]. intros Hall. by rewrite Hall in Ea.
Qed.
End fetching.


Lemma circ_queue_counts_stream_witness :
  gcip_circ_queue_cnt (index_of 10 5 4) (index_of 10 5 7) 5 (2 ^ 10) = 3 /\
  index_of 10 5 4 = 4 /\ index_of 10 5 7 = 1026.
Proof.
  split; [|split; reflexivity].
  refine (proj1 (proj2 (circ_queue_counts_stream 10 5 4 7 2 _ _ _ _ _))); lia.
Defined.

(** A queue of three slots, read from position 2 while the firmware has written up to
    position 4: the fetch crosses the end of the queue. *)
Definition crossing : nat -> turn Z := fun _ => mk_turn (index_of 10 3 4) [103; 101; 102] true.

Lemma crossing_honest : honest (fun p => 100 + p) 3 2 crossing (fun _ => 4).
Proof.
  split; simpl; try done; try lia. intros _ p Hp.
  assert (p = 2 \/ p = 3) as [-> | ->] by lia; reflexivity.
Defined.


Example crossing_fetch :
  gcip_mailbox_fetch_responses crossing 4 false true (mk_hw 0 3 2 3 0 0 2 0) =
  Ret (Some (inr [102; 103]), 2, mk_hw 0 3 1025 3 0 0 1025 0).
Proof. reflexivity. Qed.
