(* ===== verification/GcipMailbox.v ===== *)
(** The command protocol of the accelerator mailboxes (gcip-mailbox.c).

    A caller sends a command and waits for its response on its stack, or puts a command and
    is told later: each asynchronous command has an awaiter with a reference count, an
    entry of the wait list, and a delayed work that gives up waiting.  Interrupts, timers
    and callers run these functions at the same time.

    A function is a [prog]: a sequence of atomic steps on the state of the mailbox.  A step
    is what the source does under one hold of a lock, one atomic operation on a reference
    count or a work item, or a call back into the driver.  [exec] runs a function alone;
    GcipAwait.v runs many of them interleaved.

    The driver that uses the mailbox is a parameter: the queue elements with their
    sequence numbers and the optional handlers ([MailboxElems]), and the results of the
    calls into it ([answers]). *)

From stdpp Require Import gmap.
From S2P Require Import Prelude GcipQueue.

Definition ENOMSG : Z := 42.
Definition ETIMEDOUT : Z := 110.

Definition GCIP_MAILBOX_MODE_TX_CMD : Z := Z.shiftl 1 0.
Definition GCIP_MAILBOX_MODE_RX_RSP : Z := Z.shiftl 1 1.
Definition GCIP_MAILBOX_MODE_RX_CMD : Z := Z.shiftl 1 2.
Definition GCIP_MAILBOX_MODE_TX_RSP : Z := Z.shiftl 1 3.
Definition GCIP_MAILBOX_MODE_FORWARD : Z :=
  Z.lor GCIP_MAILBOX_MODE_TX_CMD GCIP_MAILBOX_MODE_RX_RSP.

Definition GCIP_MAILBOX_STATUS_OK : Z := 0.
Definition GCIP_MAILBOX_STATUS_WAITING_RESPONSE : Z := 1.

Definition GCIP_MAILBOX_CMD_FLAGS_SKIP_ASSIGN_SEQ : Z := Z.shiftl 1 0.
Definition GCIP_MAILBOX_CMD_FLAGS_NO_TIMEOUT : Z := Z.shiftl 1 1.

Definition has_bits (x bits : Z) : bool := negb (Z.land x bits =? 0).

Definition should_maintain_seq_num (mode : Z) : bool :=
  has_bits mode GCIP_MAILBOX_MODE_TX_CMD && has_bits mode GCIP_MAILBOX_MODE_RX_RSP.

(** ** The operators of a driver *)

(** Which function pointers of [struct gcip_mailbox_ops] are set. *)
Record gcip_mailbox_ops := mk_ops {
  op_get_tx_queue_tail : bool;
  op_inc_tx_queue_tail : bool;
  op_acquire_tx_queue_lock : bool;
  op_release_tx_queue_lock : bool;
  op_get_cmd_elem_seq : bool;
  op_set_cmd_elem_seq : bool;
  op_wait_for_tx_queue_not_full : bool;
  op_get_rx_queue_size : bool;
  op_get_rx_queue_head : bool;
  op_get_rx_queue_tail : bool;
  op_inc_rx_queue_head : bool;
  op_acquire_rx_queue_lock : bool;
  op_release_rx_queue_lock : bool;
  op_get_resp_elem_seq : bool;
  op_set_resp_elem_seq : bool;
  op_is_rx_elem_reversed : bool;
  op_handle_reversed_command : bool;
}.

Definition gcip_mailbox_ops_verify (ops : option gcip_mailbox_ops) (mode : Z) : Z :=
  match ops with
  | None => - EINVAL
  | Some ops =>
    if (has_bits mode GCIP_MAILBOX_MODE_TX_CMD || has_bits mode GCIP_MAILBOX_MODE_TX_RSP) &&
       (negb (op_get_tx_queue_tail ops) || negb (op_inc_tx_queue_tail ops) ||
        negb (op_acquire_tx_queue_lock ops) || negb (op_release_tx_queue_lock ops) ||
        negb (op_wait_for_tx_queue_not_full ops)) then - EINVAL else
    if (has_bits mode GCIP_MAILBOX_MODE_RX_RSP || has_bits mode GCIP_MAILBOX_MODE_RX_CMD) &&
       (negb (op_get_rx_queue_size ops) || negb (op_get_rx_queue_head ops) ||
        negb (op_get_rx_queue_tail ops) || negb (op_inc_rx_queue_head ops) ||
        negb (op_acquire_rx_queue_lock ops) || negb (op_release_rx_queue_lock ops))
    then - EINVAL else
    if should_maintain_seq_num mode &&
       (negb (op_get_cmd_elem_seq ops) || negb (op_set_cmd_elem_seq ops) ||
        negb (op_get_resp_elem_seq ops) || negb (op_set_resp_elem_seq ops))
    then - EINVAL else
    if has_bits mode GCIP_MAILBOX_MODE_RX_CMD && negb (op_handle_reversed_command ops)
    then - EINVAL else
    if has_bits mode GCIP_MAILBOX_MODE_RX_RSP && has_bits mode GCIP_MAILBOX_MODE_RX_CMD &&
       negb (op_is_rx_elem_reversed ops) then - EINVAL else 0
  end.

(** The elements of the two queues, and the operators on them. *)
Class MailboxElems (C R : Set) := {
  get_cmd_elem_seq : C -> Z;
  set_cmd_elem_seq : C -> Z -> C;
  get_resp_elem_seq : R -> Z;
  set_resp_elem_seq : R -> Z -> R;
  match_op : option (R -> R -> bool);
  is_rx_elem_reversed : option (R -> bool);
  has_arrived : bool;
  has_timedout : bool;
  has_flushed : bool;
}.

(** What the operators and the allocator answer during one call. *)
Record answers := mk_answers {
  x_awaiter : bool;
  x_wait : Z;
  x_elem : bool;
  x_before : Z;
  x_after : Z;
}.

(** ** State *)

(** An [async_resp] is inside an awaiter, or on the stack of a sender. *)
Inductive async_ref := AsyncOf (a : Z) | StackOf (t : Z).

(** The delayed work of an awaiter is on a timer or not. *)
Inductive work := NoWork | Pending.

Inductive event :=
| EvQueued (a : Z)
| EvArrived (a : Z)
| EvTimedout (a : Z)
| EvFlushed (a : Z)
| EvReleased (a : Z)
| EvReversed
| EvError (ret : Z)
| EvCancelled (a : Z) (removed : bool).

Record wait_list_elem := mk_elem {
  e_async : async_ref;
  e_awaiter : option Z;
}.

#[global] Instance async_ref_eq_dec : EqDecision async_ref.
Proof. solve_decision. Defined.
#[global] Instance work_eq_dec : EqDecision work.
Proof. solve_decision. Defined.
#[global] Instance wait_list_elem_eq_dec : EqDecision wait_list_elem.
Proof. solve_decision. Defined.
#[global] Instance event_eq_dec : EqDecision event.
Proof. solve_decision. Defined.

Section mailbox.
Context {C R : Set} `{!MailboxElems C R}.

Record async_resp := mk_async {
  status : Z;
  resp : option R;
}.

Record resp_awaiter := mk_awaiter {
  async : async_resp;
  timeout_work : work;
  refs : Z;
}.

(** [running] are the works being executed; [client] the awaiters whose first reference is
    with the driver that uses the mailbox: no operation of the mailbox reads it. *)
Record gcip_mailbox := mk_mailbox {
  mode : Z;
  cur_seq : Z;
  tx_queue : list C;
  hw : edgetpu_mailbox;
  tx_locked : bool;
  wait_list : list wait_list_elem;
  released : bool;
  awaiters : gmap Z resp_awaiter;
  stack : gmap Z async_resp;
  fresh_addr : Z;
  running : gset Z;
  client : gset Z;
  log : list event;
}.

Definition set_seq m x := mk_mailbox (mode m) x (tx_queue m) (hw m) (tx_locked m) (wait_list m)
  (released m) (awaiters m) (stack m) (fresh_addr m) (running m) (client m) (log m).
Definition set_tx m q h := mk_mailbox (mode m) (cur_seq m) q h (tx_locked m) (wait_list m)
  (released m) (awaiters m) (stack m) (fresh_addr m) (running m) (client m) (log m).
Definition set_locked m x := mk_mailbox (mode m) (cur_seq m) (tx_queue m) (hw m) x (wait_list m)
  (released m) (awaiters m) (stack m) (fresh_addr m) (running m) (client m) (log m).
Definition set_wait m x := mk_mailbox (mode m) (cur_seq m) (tx_queue m) (hw m) (tx_locked m) x
  (released m) (awaiters m) (stack m) (fresh_addr m) (running m) (client m) (log m).
Definition set_released m x := mk_mailbox (mode m) (cur_seq m) (tx_queue m) (hw m) (tx_locked m)
  (wait_list m) x (awaiters m) (stack m) (fresh_addr m) (running m) (client m) (log m).
Definition set_awaiters m x := mk_mailbox (mode m) (cur_seq m) (tx_queue m) (hw m) (tx_locked m)
  (wait_list m) (released m) x (stack m) (fresh_addr m) (running m) (client m) (log m).
Definition set_stack m x := mk_mailbox (mode m) (cur_seq m) (tx_queue m) (hw m) (tx_locked m)
  (wait_list m) (released m) (awaiters m) x (fresh_addr m) (running m) (client m) (log m).
Definition set_fresh m x := mk_mailbox (mode m) (cur_seq m) (tx_queue m) (hw m) (tx_locked m)
  (wait_list m) (released m) (awaiters m) (stack m) x (running m) (client m) (log m).
Definition set_running m x := mk_mailbox (mode m) (cur_seq m) (tx_queue m) (hw m) (tx_locked m)
  (wait_list m) (released m) (awaiters m) (stack m) (fresh_addr m) x (client m) (log m).
Definition set_client m x := mk_mailbox (mode m) (cur_seq m) (tx_queue m) (hw m) (tx_locked m)
  (wait_list m) (released m) (awaiters m) (stack m) (fresh_addr m) (running m) x (log m).
Definition emit m e := mk_mailbox (mode m) (cur_seq m) (tx_queue m) (hw m) (tx_locked m)
  (wait_list m) (released m) (awaiters m) (stack m) (fresh_addr m) (running m) (client m)
  (log m ++ [e]).

Definition put_awaiter m a w := set_awaiters m (<[a := w]> (awaiters m)).

(** ** Programs of atomic steps *)

Definition action (B : Set) : Type := gcip_mailbox -> outcome (B * gcip_mailbox).

Inductive prog (A : Type) : Type :=
| Done (a : A)
| Atomic (B : Set) (f : action B) (k : B -> prog A).
#[global] Arguments Done {A} _.
#[global] Arguments Atomic {A B} _ _.

Fixpoint pbind {A B} (p : prog A) (k : A -> prog B) : prog B :=
  match p with
  | Done a => k a
  | Atomic f k' => Atomic f (fun x => pbind (k' x) k)
  end.

(** The function runs alone from start to end. *)
Fixpoint exec {A} (p : prog A) (m : gcip_mailbox) : outcome (A * gcip_mailbox) :=
  match p with
  | Done a => Ret (a, m)
  | Atomic f k => let* r := f m in exec (k r.1) r.2
  end.

(** ** References and works *)

Definition gcip_mailbox_awaiter_release (a : Z) (m : gcip_mailbox) : gcip_mailbox :=
  emit (set_awaiters m (delete a (awaiters m))) (EvReleased a).

Definition gcip_mailbox_awaiter_dec_refs (a : Z) : action unit := fun m =>
  let* w := must (awaiters m !! a) in
  if refs w - 1 =? 0 then Ret (tt, gcip_mailbox_awaiter_release a m)
  else Ret (tt, put_awaiter m a (mk_awaiter (async w) (timeout_work w) (refs w - 1))).

Definition refcount_inc (a : Z) : action unit := fun m =>
  let* w := must (awaiters m !! a) in
  Ret (tt, put_awaiter m a (mk_awaiter (async w) (timeout_work w) (refs w + 1))).

(** [kfree] of an awaiter. *)
Definition free_awaiter (a : Z) : action unit := fun m =>
  let* _ := must (awaiters m !! a) in Ret (tt, set_awaiters m (delete a (awaiters m))).

(** [cancel_delayed_work]: true if the timer was pending. *)
Definition cancel_delayed_work (a : Z) : action bool := fun m =>
  let* w := must (awaiters m !! a) in
  match timeout_work w with
  | Pending => Ret (true, put_awaiter m a (mk_awaiter (async w) NoWork (refs w)))
  | NoWork => Ret (false, m)
  end.

(** The same, and waits until the work is not running. *)
Definition cancel_delayed_work_sync (a : Z) : action bool := fun m =>
  let* w := must (awaiters m !! a) in
  match timeout_work w with
  | Pending => Ret (true, put_awaiter m a (mk_awaiter (async w) NoWork (refs w)))
  | NoWork => if decide (a ∈ running m) then Deadlock else Ret (false, m)
  end.

(** A call of an optional handler with the awaiter. *)
Definition call_handler (present : bool) (ev : Z -> event) (a : Z) : action unit := fun m =>
  if present then let* _ := must (awaiters m !! a) in Ret (tt, emit m (ev a)) else Ret (tt, m).

(** ** The wait list *)

Definition async_of (m : gcip_mailbox) (r : async_ref) : outcome async_resp :=
  match r with
  | AsyncOf a => let* w := must (awaiters m !! a) in Ret (async w)
  | StackOf t => must (stack m !! t)
  end.

(** The response that an [async_resp] points to; a null pointer is not a response. *)
Definition resp_of (m : gcip_mailbox) (r : async_ref) : outcome R :=
  let* x := async_of m r in must (resp x).

Definition set_async (m : gcip_mailbox) (r : async_ref) (x : async_resp) : gcip_mailbox :=
  match r with
  | AsyncOf a =>
    match awaiters m !! a with
    | Some w => put_awaiter m a (mk_awaiter x (timeout_work w) (refs w))
    | None => m
    end
  | StackOf t => set_stack m (<[t := x]> (stack m))
  end.

(** The first entry that passes the test and the list without it. *)
Fixpoint take_first (m : gcip_mailbox) (test : R -> bool) (l : list wait_list_elem)
    : outcome (option wait_list_elem * list wait_list_elem) :=
  match l with
  | [] => Ret (None, [])
  | cur :: l =>
    let* r := resp_of m (e_async cur) in
    if test r then Ret (Some cur, l)
    else let* o := take_first m test l in Ret (o.1, cur :: o.2)
  end.

(** [GET_RESP_ELEM_SEQ(async_resp->resp)], read without the lock. *)
Definition read_seq (r : async_ref) : action Z := fun m =>
  let* x := resp_of m r in Ret (get_resp_elem_seq x, m).

(** The part of [gcip_mailbox_del_wait_resp] under the lock. *)
Definition del_locked (seq : Z) : action bool := fun m =>
  let* o := take_first m (fun r => get_resp_elem_seq r =? seq) (wait_list m) in
  match o.1 with
  | None => Ret (false, m)
  | Some cur =>
    match e_awaiter cur with
    | Some a =>
      let* m' := gcip_mailbox_awaiter_dec_refs a (set_wait m o.2) in Ret (true, m'.2)
    | None => Ret (true, set_wait m o.2)
    end
  end.

Definition gcip_mailbox_del_wait_resp {A} (r : async_ref) (k : bool -> prog A) : prog A :=
  Atomic (read_seq r) (fun seq => Atomic (del_locked seq) k).

Definition list_add_tail (r : async_ref) (awaiter : option Z) : action unit := fun m =>
  let m := set_wait m (wait_list m ++ [mk_elem r awaiter]) in
  Ret (tt, match awaiter with
           | Some a => emit (set_client m ({[ a ]} ∪ client m)) (EvQueued a)
           | None => m
           end).

(** [k] is given the return value. *)
Definition gcip_mailbox_push_wait_resp {A} (x : answers) (r : async_ref) (awaiter : option Z)
    (k : Z -> prog A) : prog A :=
  if negb (x_elem x) then k (- ENOMEM) else
  if negb (x_before x =? 0) then k (x_before x) else
  let add := Atomic (list_add_tail r awaiter) (fun _ => k 0) in
  match awaiter with
  | Some a => Atomic (refcount_inc a) (fun _ => add)
  | None => add
  end.

(** ** Commands *)

Definition gcip_mailbox_inc_seq_num_locked (n : Z) (m : gcip_mailbox) : Z * gcip_mailbox :=
  (u32 (cur_seq m), set_seq m (u64 (cur_seq m + n))).

Definition acquire_tx_queue_lock : action unit := fun m =>
  if tx_locked m then Deadlock else Ret (tt, set_locked m true).

Definition release_tx_queue_lock : action unit := fun m => Ret (tt, set_locked m false).

(** [SET_CMD_ELEM_SEQ] with the counter of the mailbox, unless the caller has numbered it. *)
Definition number_cmd (cmd : C) (flags : Z) : action C := fun m =>
  Ret (if should_maintain_seq_num (mode m) &&
          negb (has_bits flags GCIP_MAILBOX_CMD_FLAGS_SKIP_ASSIGN_SEQ)
       then set_cmd_elem_seq cmd (cur_seq m) else cmd, m).

(** The number and the status of the response to wait for; true if there is one. *)
Definition prepare_resp (cmd : C) (r : async_ref) : action bool := fun m =>
  let* x := async_of m r in
  match resp x with
  | None => Ret (false, m)
  | Some e =>
    Ret (true, set_async m r (mk_async GCIP_MAILBOX_STATUS_WAITING_RESPONSE
                                (Some (set_resp_elem_seq e (get_cmd_elem_seq cmd)))))
  end.

(** Copies the command into the queue, moves the tail, rings the doorbell and counts. *)
Definition submit_cmd (x : answers) (cmd : C) (flags : Z) : action Z := fun m =>
  let slot := Z.to_nat (CIRC_QUEUE_REAL_INDEX (cmd_queue_tail (hw m)) CIRC_QUEUE_WRAP_BIT) in
  let* _ := must (tx_queue m !! slot) in
  let m := set_tx m (<[slot := cmd]> (tx_queue m)) (edgetpu_mailbox_inc_cmd_queue_tail (hw m) 1) in
  if negb (x_after x =? 0) then Ret (x_after x, m) else
  if should_maintain_seq_num (mode m) &&
     negb (has_bits flags GCIP_MAILBOX_CMD_FLAGS_SKIP_ASSIGN_SEQ)
  then Ret (0, (gcip_mailbox_inc_seq_num_locked 1 m).2) else Ret (0, m).

Definition gcip_mailbox_enqueue_cmd {A} (x : answers) (cmd : C) (r : async_ref)
    (awaiter : option Z) (flags : Z) (k : Z -> prog A) : prog A :=
  let out ret := Atomic release_tx_queue_lock (fun _ => k ret) in
  Atomic acquire_tx_queue_lock (fun _ =>
  Atomic (number_cmd cmd flags) (fun cmd =>
  if negb (x_wait x =? 0) then out (x_wait x) else
  Atomic (prepare_resp cmd r) (fun waits =>
  let submit := Atomic (submit_cmd x cmd flags) out in
  if waits then
    gcip_mailbox_push_wait_resp x r awaiter (fun ret =>
      if negb (ret =? 0) then out ret else submit)
  else submit))).

Definition gcip_mailbox_cancel_awaiter_timeout {A} (a : Z) (k : prog A) : prog A :=
  Atomic (cancel_delayed_work_sync a) (fun cancelled =>
  if (cancelled : bool) then Atomic (gcip_mailbox_awaiter_dec_refs a) (fun _ => k) else k).

(** [kzalloc] of an awaiter with its first reference, the reference of the timer, and the
    start of the timer.  The awaiter is private until the timer starts. *)
Definition new_awaiter (r : option R) (flags : Z) : action Z := fun m =>
  let a := fresh_addr m in
  let w := if has_bits flags GCIP_MAILBOX_CMD_FLAGS_NO_TIMEOUT
           then mk_awaiter (mk_async GCIP_MAILBOX_STATUS_OK r) NoWork 1
           else mk_awaiter (mk_async GCIP_MAILBOX_STATUS_OK r) Pending (1 + 1) in
  Ret (a, set_fresh (put_awaiter m a w) (a + 1)).

Definition gcip_mailbox_put_cmd_flags (x : answers) (cmd : C) (r : option R) (flags : Z)
    : prog (Z + Z) :=
  if negb (x_awaiter x) then Done (inl (- ENOMEM)) else
  Atomic (new_awaiter r flags) (fun a =>
  gcip_mailbox_enqueue_cmd x cmd (AsyncOf a) (Some a) flags (fun ret =>
  if negb (ret =? 0) then
    gcip_mailbox_cancel_awaiter_timeout a (Atomic (free_awaiter a) (fun _ => Done (inl ret)))
  else Done (inr a))).

Definition gcip_mailbox_put_cmd (x : answers) (cmd : C) (r : option R) : prog (Z + Z) :=
  gcip_mailbox_put_cmd_flags x cmd r 0.

(** The frame of [gcip_mailbox_send_cmd]. *)
Definition push_frame (r : option R) : action Z := fun m =>
  let t := fresh_addr m in
  Ret (t, set_fresh (set_stack m (<[t := mk_async GCIP_MAILBOX_STATUS_OK r]> (stack m))) (t + 1)).

Definition pop_frame (t : Z) : action async_resp := fun m =>
  let* x := must (stack m !! t) in Ret (x, set_stack m (delete t (stack m))).

(** [wait_event_timeout]: false when the time is over and nothing has come. *)
Definition wait_event (t : Z) (time_over : bool) : action bool := fun m =>
  let* x := must (stack m !! t) in
  if negb (status x =? GCIP_MAILBOX_STATUS_WAITING_RESPONSE) then Ret (true, m)
  else if time_over then Ret (false, m) else Deadlock.

Definition on_error (ret : Z) : action unit := fun m => Ret (tt, emit m (EvError ret)).

Definition send_error (t ret : Z) : prog (Z * option R) :=
  Atomic (on_error ret) (fun _ => Atomic (pop_frame t) (fun y => Done (ret, resp y))).

(** From the wait for the response on. *)
Definition send_wait (t : Z) (time_over : bool) : prog (Z * option R) :=
  Atomic (wait_event t time_over) (fun in_time =>
  if negb in_time
  then gcip_mailbox_del_wait_resp (StackOf t) (fun _ => send_error t (- ETIMEDOUT)) else
  Atomic (pop_frame t) (fun y =>
  if negb (status y =? GCIP_MAILBOX_STATUS_OK)
  then Atomic (on_error (- ENOMSG)) (fun _ => Done (- ENOMSG, resp y))
  else Done (0, resp y))).

(** Returns the response that the caller finds in its buffer too. *)
Definition gcip_mailbox_send_cmd (x : answers) (cmd : C) (r : option R) (flags : Z)
    (time_over : bool) : prog (Z * option R) :=
  Atomic (push_frame r) (fun t =>
  gcip_mailbox_enqueue_cmd x cmd (StackOf t) None flags (fun ret =>
  if negb (ret =? 0) then send_error t ret else
  match r with
  | None => Atomic (pop_frame t) (fun y => Done (0, resp y))
  | Some _ => send_wait t time_over
  end)).

(** [gcip_mailbox_inc_seq_num] holds the queue lock around the update. *)
Definition gcip_mailbox_inc_seq_num (n : Z) : prog Z :=
  Atomic acquire_tx_queue_lock (fun _ =>
  Atomic (fun m => Ret (gcip_mailbox_inc_seq_num_locked n m)) (fun ret =>
  Atomic release_tx_queue_lock (fun _ => Done ret))).

(** ** Responses *)

Definition does_response_match_waiter (incoming_resp waiting_resp : R) : bool :=
  match match_op with
  | Some f => f incoming_resp waiting_resp
  | None => get_resp_elem_seq incoming_resp =? get_resp_elem_seq waiting_resp
  end.

(** The part of [gcip_mailbox_handle_response] under the lock: the first waiter that
    matches gets the response and leaves the list. *)
Definition match_locked (r : R) : action (option Z) := fun m =>
  let* o := take_first m (does_response_match_waiter r) (wait_list m) in
  match o.1 with
  | None => Ret (None, m)
  | Some cur =>
    Ret (e_awaiter cur,
         set_wait (set_async m (e_async cur) (mk_async GCIP_MAILBOX_STATUS_OK (Some r))) o.2)
  end.

Definition gcip_mailbox_handle_response {A} (r : R) (k : prog A) : prog A :=
  Atomic (match_locked r) (fun awaiter =>
  match awaiter with
  | None => k
  | Some a =>
    Atomic (cancel_delayed_work a) (fun cancelled =>
    let call :=
      Atomic (call_handler has_arrived EvArrived a) (fun _ =>
      Atomic (gcip_mailbox_awaiter_dec_refs a) (fun _ => k)) in
    if (cancelled : bool) then Atomic (gcip_mailbox_awaiter_dec_refs a) (fun _ => call) else call)
  end).

(** [md] is the mode of the mailbox, fixed when it is set up. *)
Definition gcip_mailbox_handle_rx_elem {A} (md : Z) (r : R) (k : prog A) : prog A :=
  let is_reversed_cmd := match is_rx_elem_reversed with
                         | Some f => f r
                         | None => has_bits md GCIP_MAILBOX_MODE_RX_CMD
                         end in
  if is_reversed_cmd then Atomic (fun m => Ret (tt, emit m EvReversed)) (fun _ => k)
  else gcip_mailbox_handle_response r k.

(** The loop over the fetched elements. *)
Fixpoint handle_all (md : Z) (l : list R) : prog unit :=
  match l with
  | [] => Done tt
  | r :: l => gcip_mailbox_handle_rx_elem md r (handle_all md l)
  end.

(** Fetching is one step: it runs under the lock of the response queue. *)
Definition fetch_all (fw : nat -> turn R) (fuel : nat) (block_off locked : bool)
    : action (fetched R) := fun m =>
  let* f := gcip_mailbox_fetch_responses fw fuel block_off locked (hw m) in
  Ret (f.1.1, set_tx m (tx_queue m) f.2).

Definition gcip_mailbox_do_consume_responses (fw : nat -> turn R) (fuel : nat)
    (block_off locked : bool) (md : Z) : prog unit :=
  Atomic (fetch_all fw fuel block_off locked) (fun got =>
  match got with
  | Some (inr l) => handle_all md l
  | _ => Done tt
  end).

Definition fetch_one (t : turn R) (block_off locked : bool) : action (option R) := fun m =>
  let* f := gcip_mailbox_fetch_one_response t block_off locked (hw m) in
  Ret (f.1, set_tx m (tx_queue m) f.2).

Definition gcip_mailbox_consume_one_response (t : turn R) (block_off locked : bool) (md : Z)
    : prog unit :=
  Atomic (fetch_one t block_off locked) (fun got =>
  match got with
  | None => Done tt
  | Some r => gcip_mailbox_handle_rx_elem md r (Done tt)
  end).

(** ** Timeout, cancel, flush and release *)

(** The worker finishes: the work is no longer running. *)
Definition work_done (a : Z) : action unit := fun m => Ret (tt, set_running m (running m ∖ {[ a ]})).

Definition gcip_mailbox_async_cmd_timeout_work (a : Z) : prog unit :=
  gcip_mailbox_del_wait_resp (AsyncOf a) (fun removed =>
  let put := Atomic (gcip_mailbox_awaiter_dec_refs a) (fun _ =>
             Atomic (work_done a) (fun _ => Done tt)) in
  if (removed : bool) then Atomic (call_handler has_timedout EvTimedout a) (fun _ => put) else put).

Definition gcip_mailbox_cancel_awaiter {A} (a : Z) (k : bool -> prog A) : prog A :=
  gcip_mailbox_del_wait_resp (AsyncOf a) (fun removed =>
  gcip_mailbox_cancel_awaiter_timeout a (k removed)).

Definition gcip_mailbox_release_awaiter {A} (a : Z) (k : prog A) : prog A :=
  Atomic (gcip_mailbox_awaiter_dec_refs a) (fun _ => k).

(** Empties the list; the asynchronous entries are kept for the second loop, and give up the
    reference of the list. *)
Fixpoint flush_loop (l : list wait_list_elem) (m : gcip_mailbox)
    : outcome (list Z * gcip_mailbox) :=
  match l with
  | [] => Ret ([], m)
  | cur :: l =>
    match e_awaiter cur with
    | Some a =>
      let* m' := gcip_mailbox_awaiter_dec_refs a (set_wait m l) in
      let* o := flush_loop l m'.2 in Ret (a :: o.1, o.2)
    | None => flush_loop l (set_wait m l)
    end
  end.

Definition flush_locked : action (list Z) := fun m => flush_loop (wait_list m) m.

(** The second loop.  The handler gets the first reference of the awaiter ([client]);
    without a handler the mailbox drops it. *)
Fixpoint flush_each (l : list Z) : prog unit :=
  match l with
  | [] => Done tt
  | a :: l =>
    gcip_mailbox_cancel_awaiter_timeout a
      (if has_flushed then
         Atomic (fun m =>
           let* r := call_handler true EvFlushed a m in
           Ret (tt, set_client r.2 ({[ a ]} ∪ client r.2))) (fun _ => flush_each l)
       else Atomic (gcip_mailbox_awaiter_dec_refs a) (fun _ => flush_each l))
  end.

Definition gcip_mailbox_flush_awaiter : prog unit :=
  Atomic (fun m => Ret (released m, m)) (fun no_ops =>
  if (no_ops : bool) then Done tt else Atomic flush_locked flush_each).

Definition gcip_mailbox_release : prog unit :=
  pbind gcip_mailbox_flush_awaiter (fun _ =>
  Atomic (fun m => Ret (tt, set_released m true)) (fun _ => Done tt)).

Definition gcip_mailbox_init (md : Z) (ops : option gcip_mailbox_ops) (txq : list C)
    (h : edgetpu_mailbox) (m : gcip_mailbox) : Z * gcip_mailbox :=
  if md =? 0 then (- EINVAL, m) else
  let ret := gcip_mailbox_ops_verify ops md in
  if negb (ret =? 0) then (ret, m) else
  (0, mk_mailbox md 0 txq h (tx_locked m) [] false (awaiters m) (stack m) (fresh_addr m)
        (running m) (client m) (log m)).

End mailbox.

(** Projects the fields of an updated mailbox. *)
Ltac proj := cbn [set_seq set_tx set_locked set_wait set_released set_awaiters set_stack set_fresh
  set_running set_client emit put_awaiter set_async gcip_mailbox_awaiter_release
  mode cur_seq tx_queue hw tx_locked wait_list released awaiters stack fresh_addr running client log].
