(* ===== verification/GcipAwait.v ===== *)
(** Mailbox functions running at the same time: nothing that has been freed is used.

    A configuration is a mailbox and a pool of running functions.  Callers, interrupts and
    timers start functions; a running function makes its next atomic step whenever it is
    scheduled.  The invariant counts, for each awaiter, the holders of its references. *)

From stdpp Require Import gmap.
From S2P Require Import Prelude GcipQueue GcipStream GcipMailbox.

Section await.
Context {C R : Set} `{!MailboxElems C R}.

#[local] Abbreviation mailbox := (@gcip_mailbox C R).
#[local] Abbreviation prog := (@prog C R).

(** ** The system *)

Record config := mk_config {
  mbox : mailbox;
  pool : list (prog unit);
}.

Inductive label :=
| LRun (i : nat)
| LPut (x : answers) (cmd : C) (r : R) (flags : Z)
| LResponse (r : R)
| LFire (a : Z)
| LCancel (a : Z)
| LCancelTimeout (a : Z)
| LRelease (a : Z)
| LFlush.

(** The driver has its reference back, with the result of the cancellation. *)
Definition give_back (a : Z) (removed : option bool) : @action C R unit := fun m =>
  let m := set_client m ({[ a ]} ∪ client m) in
  Ret (tt, match removed with Some b => emit m (EvCancelled a b) | None => m end).

Definition step_prog {A} (p : @GcipMailbox.prog C R A) (m : mailbox)
    : outcome (@GcipMailbox.prog C R A * mailbox) :=
  match p with
  | Done _ => Deadlock
  | Atomic f k => let* r := f m in Ret (k r.1, r.2)
  end.

Definition waiting (m : mailbox) (a : Z) : bool :=
  existsb (fun e => bool_decide (e_awaiter e = Some a)) (wait_list m).

Definition waiting_set (m : mailbox) : gset Z := list_to_set (omap e_awaiter (wait_list m)).

(** [guard b k]: the label is possible only if [b]. *)
Definition guard {A} (b : bool) (k : outcome A) : outcome A := if b then k else Deadlock.

(** What can happen next.  [Deadlock]: the label is not possible now.  The conditions are
    those on the driver that uses the mailbox: it calls with an awaiter only while it has
    the reference of that awaiter and no other call with it is under way; it drops the
    reference, or cancels only the timer, once the awaiter is not on the wait list; it
    flushes when it has the references of all that wait.  Ringing the doorbell does not
    fail. *)
Definition perform (l : label) (c : config) : outcome config :=
  let m := mbox c in
  let spawn m p := Ret (mk_config m (pool c ++ [p])) in
  match l with
  | LRun i =>
    match pool c !! i with
    | Some p => let* r := step_prog p m in Ret (mk_config r.2 (<[i := r.1]> (pool c)))
    | None => Deadlock
    end
  | LPut x cmd r flags =>
    guard (x_after x =? 0)
      (spawn m (pbind (gcip_mailbox_put_cmd_flags x cmd (Some r) flags) (fun _ => Done tt)))
  | LResponse r => spawn m (gcip_mailbox_handle_response r (Done tt))
  | LFire a =>
    match awaiters m !! a with
    | Some w =>
      guard (bool_decide (timeout_work w = Pending))
        (spawn (set_running (put_awaiter m a (mk_awaiter (async w) NoWork (refs w)))
                  ({[ a ]} ∪ running m))
               (gcip_mailbox_async_cmd_timeout_work a))
    | None => Deadlock
    end
  | LCancel a =>
    guard (bool_decide (a ∈ client m))
      (spawn (set_client m (client m ∖ {[ a ]}))
             (gcip_mailbox_cancel_awaiter a (fun removed =>
              Atomic (give_back a (Some removed)) Done)))
  | LCancelTimeout a =>
    guard (bool_decide (a ∈ client m) && negb (waiting m a))
      (spawn (set_client m (client m ∖ {[ a ]}))
             (gcip_mailbox_cancel_awaiter_timeout a (Atomic (give_back a None) Done)))
  | LRelease a =>
    guard (bool_decide (a ∈ client m) && negb (waiting m a))
      (spawn (set_client m (client m ∖ {[ a ]})) (gcip_mailbox_release_awaiter a (Done tt)))
  | LFlush =>
    guard (negb (released m) && bool_decide (waiting_set m ⊆ client m))
      (let* r := step_prog gcip_mailbox_flush_awaiter m in
       let* r := step_prog r.1 r.2 in
       spawn (set_client r.2 (client r.2 ∖ waiting_set m)) r.1)
  end.

(** The conditions of [perform] on the driver, as a contract: commands have a response
    buffer (the type of [LPut]), ringing the doorbell succeeds, an awaiter is handed in only
    while the driver has its reference, the reference is dropped, or the timer alone
    stopped, only once the command is not on the wait list, and the list is flushed only
    while the mailbox is set up and the driver has the references of all that wait. *)
Definition driver_ok (l : label) (c : config) : Prop :=
  let m := mbox c in
  match l with
  | LPut x _ _ _ => x_after x = 0
  | LCancel a => a ∈ client m
  | LCancelTimeout a | LRelease a => a ∈ client m /\ waiting m a = false
  | LFlush => released m = false /\ waiting_set m ⊆ client m
  | LRun _ | LResponse _ | LFire _ => True
  end.

(** Starts of a function, as opposed to a step of a running one or to a timer. *)
Definition starts (l : label) : bool :=
  match l with LRun _ | LFire _ => false | _ => true end.

(** Runs under a discipline [G] on the labels. *)
Inductive reach (G : label -> config -> Prop) (c0 : config) : config -> Prop :=
| reach_refl : reach G c0 c0
| reach_step l c c' : reach G c0 c -> G l c -> perform l c = Ret c' -> reach G c0 c'.

Definition any (_ : label) (_ : config) : Prop := True.

(** A mailbox just set up, with a valid command queue. *)
Record initial (m : mailbox) (s : Z) : Prop := {
  in_size : 1 <= s < 2 ^ 10;
  in_hw : cmd_queue_size (hw m) = s /\ cmd_queue_tail (hw m) = 0;
  in_tx : Z.of_nat (length (tx_queue m)) = s;
  in_wait : wait_list m = [];
  in_awaiters : awaiters m = ∅;
  in_running : running m = ∅;
  in_client : client m = ∅;
  in_lock : tx_locked m = false;
}.

(** ** Where a function is *)

Inductive pc :=
| PNew (x : answers) (cmd : C) (r : R) (flags : Z)
| PLock (x : answers) (cmd : C) (a flags : Z)
| PNum (x : answers) (cmd : C) (a flags : Z)
| PPrep (x : answers) (cmd : C) (a flags : Z)
| PRef (x : answers) (cmd : C) (a flags : Z)
| PAdd (x : answers) (cmd : C) (a flags : Z)
| PSub (x : answers) (cmd : C) (a flags : Z)
| PUnl (a : Z)
| PErr (a ret : Z)
| PCan (a ret : Z)
| PDec (a ret : Z)
| PFree (a ret : Z)
| HMatch (r : R)
| HCan (a : Z)
| HDec (a : Z)
| HCall (a : Z)
| HPut (a : Z)
| TRead (a : Z)
| TDel (a seq : Z)
| TCall (a : Z)
| TPut (a : Z)
| TDone (a : Z)
| CRead (a : Z)
| CDel (a seq : Z)
| CSync (a : Z) (o : option bool)
| CDec (a : Z) (o : option bool)
| CBack (a : Z) (o : option bool)
| RPut (a : Z)
| FSync (a : Z) (l : list Z)
| FDec (a : Z) (l : list Z)
| FCall (a : Z) (l : list Z)
| Fin.

(** The rest of the function from there on. *)
Definition drop {A} (_ : A) : prog unit := Done tt.

Definition put_end (a ret : Z) : prog (Z + Z) :=
  if negb (ret =? 0) then
    gcip_mailbox_cancel_awaiter_timeout a (Atomic (free_awaiter a) (fun _ => Done (inl ret)))
  else Done (inr a).

Definition put_out (a ret : Z) : prog (Z + Z) :=
  Atomic release_tx_queue_lock (fun _ => put_end a ret).

Definition put_submit (x : answers) (cmd : C) (a flags : Z) : prog (Z + Z) :=
  Atomic (submit_cmd x cmd flags) (put_out a).

Definition put_add (x : answers) (cmd : C) (a flags : Z) : prog (Z + Z) :=
  Atomic (list_add_tail (AsyncOf a) (Some a)) (fun _ => put_submit x cmd a flags).

Definition put_prep (x : answers) (cmd : C) (a flags : Z) : prog (Z + Z) :=
  Atomic (prepare_resp cmd (AsyncOf a)) (fun waits =>
  if waits then
    gcip_mailbox_push_wait_resp x (AsyncOf a) (Some a) (fun ret =>
      if negb (ret =? 0) then put_out a ret else put_submit x cmd a flags)
  else put_submit x cmd a flags).

Definition put_num (x : answers) (cmd : C) (a flags : Z) : prog (Z + Z) :=
  Atomic (number_cmd cmd flags) (fun cmd =>
  if negb (x_wait x =? 0) then put_out a (x_wait x) else put_prep x cmd a flags).

Definition arrived_call (a : Z) : prog unit :=
  Atomic (call_handler has_arrived EvArrived a) (fun _ =>
  Atomic (gcip_mailbox_awaiter_dec_refs a) (fun _ => Done tt)).

Definition timeout_put (a : Z) : prog unit :=
  Atomic (gcip_mailbox_awaiter_dec_refs a) (fun _ => Atomic (work_done a) (fun _ => Done tt)).

Definition timeout_end (a : Z) (removed : bool) : prog unit :=
  if removed then Atomic (call_handler has_timedout EvTimedout a) (fun _ => timeout_put a)
  else timeout_put a.

Definition back (a : Z) (o : option bool) : prog unit := Atomic (give_back a o) Done.

Definition flush_call (a : Z) (l : list Z) : prog unit :=
  if has_flushed then
    Atomic (fun m =>
      let* r := call_handler true EvFlushed a m in
      Ret (tt, set_client r.2 ({[ a ]} ∪ client r.2))) (fun _ => flush_each l)
  else Atomic (gcip_mailbox_awaiter_dec_refs a) (fun _ => flush_each l).

Definition code (p : pc) : prog unit :=
  match p with
  | PNew x cmd r flags => pbind (gcip_mailbox_put_cmd_flags x cmd (Some r) flags) drop
  | PLock x cmd a flags =>
    pbind (Atomic acquire_tx_queue_lock (fun _ => put_num x cmd a flags)) drop
  | PNum x cmd a flags => pbind (put_num x cmd a flags) drop
  | PPrep x cmd a flags => pbind (put_prep x cmd a flags) drop
  | PRef x cmd a flags =>
    pbind (Atomic (refcount_inc a) (fun _ => put_add x cmd a flags)) drop
  | PAdd x cmd a flags => pbind (put_add x cmd a flags) drop
  | PSub x cmd a flags => pbind (put_submit x cmd a flags) drop
  | PUnl a => pbind (put_out a 0) drop
  | PErr a ret => pbind (put_out a ret) drop
  | PCan a ret => pbind (put_end a ret) drop
  | PDec a ret =>
    Atomic (gcip_mailbox_awaiter_dec_refs a) (fun _ => Atomic (free_awaiter a) (fun _ => Done tt))
  | PFree a ret => Atomic (free_awaiter a) (fun _ => Done tt)
  | HMatch r => gcip_mailbox_handle_response r (Done tt)
  | HCan a =>
    Atomic (cancel_delayed_work a) (fun cancelled =>
    if (cancelled : bool) then Atomic (gcip_mailbox_awaiter_dec_refs a) (fun _ => arrived_call a)
    else arrived_call a)
  | HDec a => Atomic (gcip_mailbox_awaiter_dec_refs a) (fun _ => arrived_call a)
  | HCall a => arrived_call a
  | HPut a => Atomic (gcip_mailbox_awaiter_dec_refs a) (fun _ => Done tt)
  | TRead a => gcip_mailbox_async_cmd_timeout_work a
  | TDel a seq => Atomic (del_locked seq) (timeout_end a)
  | TCall a => timeout_end a true
  | TPut a => timeout_put a
  | TDone a => Atomic (work_done a) (fun _ => Done tt)
  | CRead a => gcip_mailbox_cancel_awaiter a (fun removed => back a (Some removed))
  | CDel a seq =>
    Atomic (del_locked seq) (fun removed =>
    gcip_mailbox_cancel_awaiter_timeout a (back a (Some removed)))
  | CSync a o => gcip_mailbox_cancel_awaiter_timeout a (back a o)
  | CDec a o => Atomic (gcip_mailbox_awaiter_dec_refs a) (fun _ => back a o)
  | CBack a o => back a o
  | RPut a => gcip_mailbox_release_awaiter a (Done tt)
  | FSync a l => flush_each (a :: l)
  | FDec a l => Atomic (gcip_mailbox_awaiter_dec_refs a) (fun _ => flush_call a l)
  | FCall a l => flush_call a l
  | Fin => Done tt
  end.

Definition flush_pc (l : list Z) : pc :=
  match l with [] => Fin | a :: l => FSync a l end.

(** One step of it, with the place it gets to. *)
Definition on {B} (o : outcome (B * mailbox)) (f : B -> pc) : outcome (pc * mailbox) :=
  let* r := o in Ret (f r.1, r.2).

Definition next (p : pc) (m : mailbox) : outcome (pc * mailbox) :=
  match p with
  | PNew x cmd r flags =>
    if negb (x_awaiter x) then Deadlock
    else on (new_awaiter (Some r) flags m) (fun a => PLock x cmd a flags)
  | PLock x cmd a flags => on (acquire_tx_queue_lock m) (fun _ => PNum x cmd a flags)
  | PNum x cmd a flags =>
    on (number_cmd cmd flags m) (fun cmd =>
      if negb (x_wait x =? 0) then PErr a (x_wait x) else PPrep x cmd a flags)
  | PPrep x cmd a flags =>
    on (prepare_resp cmd (AsyncOf a) m) (fun waits : bool =>
      if waits then
        if negb (x_elem x) then PErr a (- ENOMEM)
        else if negb (x_before x =? 0) then PErr a (x_before x) else PRef x cmd a flags
      else PSub x cmd a flags)
  | PRef x cmd a flags => on (refcount_inc a m) (fun _ => PAdd x cmd a flags)
  | PAdd x cmd a flags =>
    on (list_add_tail (AsyncOf a) (Some a) m) (fun _ => PSub x cmd a flags)
  | PSub x cmd a flags =>
    on (submit_cmd x cmd flags m) (fun ret => if negb (ret =? 0) then PErr a ret else PUnl a)
  | PUnl a => on (release_tx_queue_lock m) (fun _ => Fin)
  | PErr a ret => on (release_tx_queue_lock m) (fun _ => PCan a ret)
  | PCan a ret =>
    on (cancel_delayed_work_sync a m) (fun b : bool => if b then PDec a ret else PFree a ret)
  | PDec a ret => on (gcip_mailbox_awaiter_dec_refs a m) (fun _ => PFree a ret)
  | PFree a ret => on (free_awaiter a m) (fun _ => Fin)
  | HMatch r => on (match_locked r m) (fun o => match o with Some a => HCan a | None => Fin end)
  | HCan a => on (cancel_delayed_work a m) (fun b : bool => if b then HDec a else HCall a)
  | HDec a => on (gcip_mailbox_awaiter_dec_refs a m) (fun _ => HCall a)
  | HCall a => on (call_handler has_arrived EvArrived a m) (fun _ => HPut a)
  | HPut a => on (gcip_mailbox_awaiter_dec_refs a m) (fun _ => Fin)
  | TRead a => on (read_seq (AsyncOf a) m) (TDel a)
  | TDel a seq => on (del_locked seq m) (fun b : bool => if b then TCall a else TPut a)
  | TCall a => on (call_handler has_timedout EvTimedout a m) (fun _ => TPut a)
  | TPut a => on (gcip_mailbox_awaiter_dec_refs a m) (fun _ => TDone a)
  | TDone a => on (work_done a m) (fun _ => Fin)
  | CRead a => on (read_seq (AsyncOf a) m) (CDel a)
  | CDel a seq => on (del_locked seq m) (fun b => CSync a (Some b))
  | CSync a o => on (cancel_delayed_work_sync a m) (fun b : bool => if b then CDec a o else CBack a o)
  | CDec a o => on (gcip_mailbox_awaiter_dec_refs a m) (fun _ => CBack a o)
  | CBack a o => on (give_back a o m) (fun _ => Fin)
  | RPut a => on (gcip_mailbox_awaiter_dec_refs a m) (fun _ => Fin)
  | FSync a l => on (cancel_delayed_work_sync a m) (fun b : bool => if b then FDec a l else FCall a l)
  | FDec a l => on (gcip_mailbox_awaiter_dec_refs a m) (fun _ => FCall a l)
  | FCall a l =>
    if has_flushed then
      let* r := call_handler true EvFlushed a m in
      Ret (flush_pc l, set_client r.2 ({[ a ]} ∪ client r.2))
    else on (gcip_mailbox_awaiter_dec_refs a m) (fun _ => flush_pc l)
  | Fin => Deadlock
  end.

(** Results that take a call down its error path. *)
Definition pc_ok (p : pc) : Prop :=
  match p with
  | PNew x _ _ _ | PLock x _ _ _ | PNum x _ _ _ | PPrep x _ _ _ | PRef x _ _ _
  | PAdd x _ _ _ | PSub x _ _ _ => x_after x = 0
  | PErr _ ret | PCan _ ret | PDec _ ret | PFree _ ret => ret <> 0
  | _ => True
  end.

Lemma code_flush_pc l : code (flush_pc l) = flush_each l.
Proof. by destruct l. Qed.

Lemma step_code p m :
  pc_ok p ->
  step_prog (code p) m = let* r := next p m in Ret (code r.1, r.2).
Proof.
  intros Hok. destruct p; cbn [pc_ok] in Hok.
  - cbn [code next]. unfold gcip_mailbox_put_cmd_flags. by destruct (x_awaiter x).
  - cbn. by destruct (acquire_tx_queue_lock m).
  - cbn. by destruct (x_wait x =? 0).
  - cbn. destruct (prepare_resp cmd (AsyncOf a) m) as [[[|] m']| |]; cbn; try done.
    unfold gcip_mailbox_push_wait_resp.
    destruct (x_elem x); cbn; [|done]. by destruct (x_before x =? 0) eqn:Hb; cbn; rewrite ?Hb.
  - cbn. by destruct (refcount_inc a m) as [[] | |].
  - done.
  - cbn. destruct (submit_cmd x cmd flags m) as [[ret m']| |]; cbn; try done.
    destruct (Z.eqb_spec ret 0) as [->|]; done.
  - done.
  - cbn. done.
  - cbn. unfold put_end. rewrite (proj2 (Z.eqb_neq _ _) Hok). cbn.
    by destruct (cancel_delayed_work_sync a m) as [[[|] ?]| |].
  - cbn. by destruct (gcip_mailbox_awaiter_dec_refs a m) as [[] | |].
  - cbn. by destruct (free_awaiter a m) as [[] | |].
  - cbn. by destruct (match_locked r m) as [[[|] ?]| |].
  - cbn. by destruct (cancel_delayed_work a m) as [[[|] ?]| |].
  - cbn. by destruct (gcip_mailbox_awaiter_dec_refs a m) as [[] | |].
  - cbn. by destruct (call_handler has_arrived EvArrived a m) as [[] | |].
  - cbn. by destruct (gcip_mailbox_awaiter_dec_refs a m) as [[] | |].
  - cbn. by destruct (read_seq (AsyncOf a) m) as [[] | |].
  - cbn. by destruct (del_locked seq m) as [[[|] ?]| |].
  - cbn. by destruct (call_handler has_timedout EvTimedout a m) as [[] | |].
  - cbn. by destruct (gcip_mailbox_awaiter_dec_refs a m) as [[] | |].
  - done.
  - cbn. by destruct (read_seq (AsyncOf a) m) as [[] | |].
  - cbn. by destruct (del_locked seq m) as [[[|] ?]| |].
  - cbn. by destruct (cancel_delayed_work_sync a m) as [[[|] ?]| |].
  - cbn. by destruct (gcip_mailbox_awaiter_dec_refs a m) as [[] | |].
  - cbn. by destruct o.
  - cbn. by destruct (gcip_mailbox_awaiter_dec_refs a m) as [[] | |].
  - cbn. by destruct (cancel_delayed_work_sync a m) as [[[|] ?]| |].
  - cbn. by destruct (gcip_mailbox_awaiter_dec_refs a m) as [[] | |].
  - cbn. unfold flush_call. destruct has_flushed; cbn.
    + destruct (must _); cbn; try done. by rewrite code_flush_pc.
    + destruct (gcip_mailbox_awaiter_dec_refs a m) as [[] | |]; cbn; try done.
      by rewrite code_flush_pc.
  - done.
Qed.
End await.
