(* ===== verification/GcipSafe.v ===== *)
(** No use after free in the mailbox: the reference count of an awaiter is the number of its
    holders, whatever the interleaving of the functions of GcipMailbox.v. *)

From stdpp Require Import gmap.
From S2P Require Import Prelude GcipQueue GcipStream GcipMailbox GcipAwait.

Create Rewrite HintDb views.

Section safe.
Context {C R : Set} `{!MailboxElems C R}.

#[local] Abbreviation mailbox := (@gcip_mailbox C R).
#[local] Abbreviation pc := (@pc C R).
#[local] Abbreviation config := (@config C R).

(** ** Counting *)

Definition ind (b : bool) : Z := if b then 1 else 0.

Fixpoint count_in (l : list Z) (b : Z) : Z :=
  match l with [] => 0 | a :: l => ind (a =? b) + count_in l b end.

(** References that a call of [put] holds before the awaiter is on the list. *)
Definition hput (p : pc) (b : Z) : Z :=
  match p with
  | PLock _ _ a _ | PNum _ _ a _ | PPrep _ _ a _ | PRef _ _ a _
  | PErr a _ | PCan a _ | PFree a _ => ind (a =? b)
  | PAdd _ _ a _ | PDec a _ => 2 * ind (a =? b)
  | _ => 0
  end.

Definition nput (p : pc) (b : Z) : Z :=
  match p with
  | PLock _ _ a _ | PNum _ _ a _ | PPrep _ _ a _ | PRef _ _ a _
  | PErr a _ | PCan a _ | PFree a _ | PAdd _ _ a _ | PDec a _ => ind (a =? b)
  | _ => 0
  end.

(** Calls that give up an awaiter whose timer is stopped. *)
Definition nstop (p : pc) (b : Z) : Z :=
  match p with PDec a _ | PFree a _ => ind (a =? b) | _ => 0 end.

(** The timeout work: its reference, and its worker. *)
Definition htmo (p : pc) (b : Z) : Z :=
  match p with TRead a | TDel a _ | TCall a | TPut a => ind (a =? b) | _ => 0 end.

Definition ntmo (p : pc) (b : Z) : Z :=
  match p with TRead a | TDel a _ | TCall a | TPut a | TDone a => ind (a =? b) | _ => 0 end.

(** References of the other functions. *)
Definition hoth (p : pc) (b : Z) : Z :=
  match p with
  | HCan a | HCall a | HPut a | CRead a | CDel a _ | CSync a _ | CBack a _ | RPut a => ind (a =? b)
  | HDec a | CDec a _ => 2 * ind (a =? b)
  | FSync a l | FCall a l => ind (a =? b) + count_in l b
  | FDec a l => 2 * ind (a =? b) + count_in l b
  | _ => 0
  end.

(** Functions that have the first reference of an awaiter. *)
Definition nfirst (p : pc) (b : Z) : Z :=
  match p with
  | CRead a | CDel a _ | CSync a _ | CDec a _ | CBack a _ | RPut a => ind (a =? b)
  | FSync a l | FDec a l | FCall a l => ind (a =? b) + count_in l b
  | _ => nput p b
  end.

(** Functions inside the lock of the command queue. *)
Definition nlock (p : pc) : Z :=
  match p with
  | PNum _ _ _ _ | PPrep _ _ _ _ | PRef _ _ _ _ | PAdd _ _ _ _ | PSub _ _ _ _
  | PUnl _ | PErr _ _ => 1
  | _ => 0
  end.

Fixpoint tot (f : pc -> Z) (ps : list pc) : Z :=
  match ps with [] => 0 | p :: ps => f p + tot f ps end.

(** The same numbers of the mailbox. *)
Definition refs_of (aw : gmap Z (@resp_awaiter R)) (b : Z) : option Z := refs <$> aw !! b.
Definition pend_of (aw : gmap Z (@resp_awaiter R)) (b : Z) : Z :=
  match aw !! b with Some w => ind (bool_decide (timeout_work w = Pending)) | None => 0 end.
Fixpoint wait_of (l : list wait_list_elem) (b : Z) : Z :=
  match l with [] => 0 | e :: l => ind (bool_decide (e_awaiter e = Some b)) + wait_of l b end.
Definition in_of (s : gset Z) (b : Z) : Z := ind (bool_decide (b ∈ s)).

Lemma count_in_nonneg l b : 0 <= count_in l b.
Proof. induction l as [|a l IH]; cbn; [lia|]. destruct (a =? b); cbn; lia. Qed.

Lemma ind_elem a b : ind (bool_decide (Some a = Some b)) = ind (a =? b).
Proof.
  f_equal. destruct (Z.eqb_spec a b) as [->|]; [by rewrite bool_decide_true|].
  rewrite bool_decide_false; [done|congruence].
Qed.

Lemma wait_of_nonneg l b : 0 <= wait_of l b.
Proof. induction l as [|e l IH]; cbn; [lia|]. case_bool_decide; cbn; lia. Qed.

Lemma wait_of_app l1 l2 b : wait_of (l1 ++ l2) b = wait_of l1 b + wait_of l2 b.
Proof. induction l1 as [|e l1 IH]; cbn; lia. Qed.

Lemma wait_of_pos l b : In (mk_elem (AsyncOf b) (Some b)) l -> 1 <= wait_of l b.
Proof.
  induction l as [|e l IH]; cbn; [done|]. intros [->|Hin].
  - cbn. rewrite bool_decide_true by done. pose proof (wait_of_nonneg l b). cbn. lia.
  - specialize (IH Hin). case_bool_decide; cbn; lia.
Qed.

Lemma pend_range aw b : 0 <= pend_of aw b <= 1.
Proof. unfold pend_of. destruct (aw !! b); [|lia]. case_bool_decide; cbn; lia. Qed.

Lemma in_range s b : 0 <= in_of s b <= 1.
Proof. unfold in_of. case_bool_decide; cbn; lia. Qed.

Lemma pc_bounds p b :
  0 <= hput p b <= 2 * nput p b /\ 0 <= nstop p b <= nput p b /\ nput p b <= nfirst p b /\
  0 <= htmo p b <= ntmo p b /\ 0 <= hoth p b /\ nfirst p b <= hput p b + hoth p b.
Proof.
  destruct p; cbn; try pose proof (count_in_nonneg l b); try destruct (a =? b); cbn; lia.
Qed.

Lemma tot_bounds ps b :
  0 <= tot (fun p => hput p b) ps <= 2 * tot (fun p => nput p b) ps /\
  0 <= tot (fun p => nstop p b) ps <= tot (fun p => nput p b) ps /\
  tot (fun p => nput p b) ps <= tot (fun p => nfirst p b) ps /\
  0 <= tot (fun p => htmo p b) ps <= tot (fun p => ntmo p b) ps /\
  0 <= tot (fun p => hoth p b) ps /\
  tot (fun p => nfirst p b) ps <= tot (fun p => hput p b) ps + tot (fun p => hoth p b) ps.
Proof. induction ps as [|p ps IH]; cbn; [lia|]. pose proof (pc_bounds p b). lia. Qed.

Lemma nlock_nonneg ps : 0 <= tot nlock ps.
Proof. induction ps as [|p ps IH]; cbn; [lia|]. assert (0 <= nlock p) by (destruct p; cbn; lia). lia. Qed.

Lemma tot_perm f ps ps' : ps ≡ₚ ps' -> tot f ps = tot f ps'.
Proof. induction 1; cbn; lia. Qed.

(** ** Updates of the maps *)

Lemma refs_insert aw a w b : refs_of (<[a := w]> aw) b = if a =? b then Some (refs w) else refs_of aw b.
Proof.
  unfold refs_of. destruct (Z.eqb_spec a b) as [->|].
  - by rewrite lookup_insert_eq.
  - by rewrite lookup_insert_ne.
Qed.

Lemma refs_delete aw a b : refs_of (delete a aw) b = if a =? b then None else refs_of aw b.
Proof.
  unfold refs_of. destruct (Z.eqb_spec a b) as [->|].
  - by rewrite lookup_delete_eq.
  - by rewrite lookup_delete_ne.
Qed.

Lemma pend_insert aw a w b :
  pend_of (<[a := w]> aw) b =
  if a =? b then ind (bool_decide (timeout_work w = Pending)) else pend_of aw b.
Proof.
  unfold pend_of. destruct (Z.eqb_spec a b) as [->|].
  - by rewrite lookup_insert_eq.
  - by rewrite lookup_insert_ne.
Qed.

Lemma pend_delete aw a b : pend_of (delete a aw) b = if a =? b then 0 else pend_of aw b.
Proof.
  unfold pend_of. destruct (Z.eqb_spec a b) as [->|].
  - by rewrite lookup_delete_eq.
  - by rewrite lookup_delete_ne.
Qed.

Lemma in_union s a b : in_of ({[ a ]} ∪ s) b = if a =? b then 1 else in_of s b.
Proof.
  unfold in_of. destruct (Z.eqb_spec a b) as [->|].
  - by rewrite bool_decide_true by (apply elem_of_union_l, elem_of_singleton; done).
  - f_equal. apply bool_decide_ext. rewrite elem_of_union, elem_of_singleton. naive_solver.
Qed.

Lemma in_difference s a b : in_of (s ∖ {[ a ]}) b = if a =? b then 0 else in_of s b.
Proof.
  unfold in_of. destruct (Z.eqb_spec a b) as [->|].
  - by rewrite bool_decide_false by (rewrite elem_of_difference, elem_of_singleton; tauto).
  - f_equal. apply bool_decide_ext. rewrite elem_of_difference, elem_of_singleton. naive_solver.
Qed.

Hint Rewrite refs_insert refs_delete pend_insert pend_delete in_union in_difference
  wait_of_app : views.

(** ** The invariant *)

(** At address [b]: the count, the first reference, and what excludes what. *)
Record good_at (aw : gmap Z (@resp_awaiter R)) (wl : list wait_list_elem) (cl run : gset Z)
    (ps : list pc) (b : Z) : Prop := {
  ga_refs : match refs_of aw b with Some n => n | None => 0 end =
    in_of cl b + pend_of aw b + wait_of wl b + tot (fun p => hput p b) ps +
    tot (fun p => htmo p b) ps + tot (fun p => hoth p b) ps;
  ga_first : in_of cl b + tot (fun p => nfirst p b) ps <= 1;
  ga_put : 1 <= tot (fun p => nput p b) ps -> wait_of wl b = 0 /\ tot (fun p => hoth p b) ps = 0;
  ga_wait : wait_of wl b <= 1;
  ga_run : in_of run b = tot (fun p => ntmo p b) ps;
  ga_pend : pend_of aw b = 1 -> in_of run b = 0;
  ga_stop : 1 <= tot (fun p => nstop p b) ps -> pend_of aw b + tot (fun p => htmo p b) ps = 0;
  ga_live : match refs_of aw b with Some n => 1 <= n | None => True end;
}.

Definition tx_ok (m : mailbox) : Prop :=
  exists s n, 1 <= s < 2 ^ 10 /\ 0 <= n /\ cmd_queue_size (hw m) = s /\
    cmd_queue_tail (hw m) = index_of 10 s n /\ Z.of_nat (length (tx_queue m)) = s.

Definition elem_ok (e : wait_list_elem) : Prop := exists a, e = mk_elem (AsyncOf a) (Some a).

Record good (m : mailbox) (ps : list pc) : Prop := {
  gd_at b : good_at (awaiters m) (wait_list m) (client m) (running m) ps b;
  gd_ok : Forall pc_ok ps;
  gd_wait : Forall elem_ok (wait_list m);
  gd_resp a w : awaiters m !! a = Some w -> is_Some (resp (async w));
  gd_fresh b : fresh_addr m <= b -> refs_of (awaiters m) b = None /\ in_of (running m) b = 0;
  gd_lock : ind (tx_locked m) = tot nlock ps;
  gd_tx : tx_ok m;
}.

Lemma good_at_perm aw wl cl run ps ps' b :
  ps ≡ₚ ps' -> good_at aw wl cl run ps b -> good_at aw wl cl run ps' b.
Proof.
  intros Hp []. split; rewrite <- ?(tot_perm _ _ _ Hp); assumption.
Qed.

Lemma good_perm m ps ps' : ps ≡ₚ ps' -> good m ps -> good m ps'.
Proof.
  intros Hp []. split; try assumption.
  - intros b. by eapply good_at_perm.
  - by rewrite <- Hp.
  - by rewrite <- (tot_perm _ _ _ Hp).
Qed.

(** ** Steps *)

(** A function that holds a reference finds the awaiter. *)
Lemma holder_alive m ps a :
  good m ps ->
  1 <= in_of (client m) a + wait_of (wait_list m) a + tot (fun p => hput p a) ps +
       tot (fun p => htmo p a) ps + tot (fun p => hoth p a) ps ->
  exists w e, awaiters m !! a = Some w /\ resp (async w) = Some e /\
    refs_of (awaiters m) a = Some (refs w).
Proof.
  intros Hg Hh. destruct (gd_at _ _ Hg a) as [Hr _ _ _ _ _ _ _]. unfold refs_of in *.
  destruct (awaiters m !! a) as [w|] eqn:E.
  - destruct (gd_resp _ _ Hg a w E) as [e He]. by exists w, e.
  - cbn in Hr. unfold pend_of in Hr. rewrite E in Hr. lia.
Qed.

(** What is known at address [b], as linear facts. *)
Ltac facts m rest b :=
  pose proof (tot_bounds rest b); pose proof (wait_of_nonneg (wait_list m) b);
  pose proof (pend_range (awaiters m) b); pose proof (in_range (client m) b);
  pose proof (in_range (running m) b).

Ltac at_address m rest b Hg :=
  let H := fresh "Hat" in
  pose proof (gd_at _ _ Hg b) as H; destruct H as [?Hr ?Hf ?Hp ?Hw ?Hrun ?Hpe ?Hs ?Hl];
  facts m rest b;
  cbn [tot hput nput nstop htmo ntmo hoth nfirst count_in] in *.

(** What the other functions keep when one of them makes a step. *)
Lemma good_intro m m' p p' rest :
  good m (p :: rest) ->
  (forall b, good_at (awaiters m') (wait_list m') (client m') (running m') (p' :: rest) b) ->
  pc_ok p' -> Forall elem_ok (wait_list m') ->
  (forall a w, awaiters m' !! a = Some w -> is_Some (resp (async w))) ->
  (forall b, fresh_addr m' <= b -> refs_of (awaiters m') b = None /\ in_of (running m') b = 0) ->
  ind (tx_locked m') - nlock p' = ind (tx_locked m) - nlock p -> tx_ok m' ->
  good m' (p' :: rest).
Proof.
  intros Hg Hat Hok Hw Hr Hf Hl Ht. split; try assumption.
  - constructor; [done|]. apply (Forall_inv_tail (gd_ok _ _ Hg)).
  - pose proof (gd_lock _ _ Hg) as Hlk. cbn [tot] in *. lia.
Qed.

(** Goal [good_at ... b] from the old one, with the counts as linear facts; [a] is the
    address that the step is about. *)
Ltac at_b m p p' rest Hg a b :=
  let Hr := fresh "Hr" in let Hl := fresh "Hl" in
  destruct (gd_at _ _ Hg b) as [Hr ?Hf ?Hp ?Hw ?Hrun ?Hpe ?Hs Hl];
  facts m rest b; pose proof (pc_bounds p b); pose proof (pc_bounds p' b);
  cbn [tot] in *;
  destruct (Z.eqb_spec a b) as [?Heq|?Hne];
  [subst b; try match goal with H : refs_of (awaiters m) a = Some _ |- _ => rewrite H in Hr, Hl end|];
  cbn [ind] in *;
  (split; autorewrite with views; rewrite ?Z.eqb_refl, ?(proj2 (Z.eqb_neq a _)) by assumption;
   cbn [tot ind]).

Lemma resp_delete (aw : gmap Z (@resp_awaiter R)) a :
  (forall b w, aw !! b = Some w -> is_Some (resp (async w))) ->
  forall b w, delete a aw !! b = Some w -> is_Some (resp (async w)).
Proof. intros H b w Hw. apply lookup_delete_Some in Hw as [_ Hw]. by eapply H. Qed.

Lemma resp_insert (aw : gmap Z (@resp_awaiter R)) a x :
  (forall b w, aw !! b = Some w -> is_Some (resp (async w))) -> is_Some (resp (async x)) ->
  forall b w, <[a := x]> aw !! b = Some w -> is_Some (resp (async w)).
Proof.
  intros H Hx b w Hw. apply lookup_insert_Some in Hw as [[_ <-]|[_ Hw]]; [done|by eapply H].
Qed.

(** Two places that hold the same. *)
Definition holds_same (p p' : pc) : Prop := forall b,
  hput p' b = hput p b /\ htmo p' b = htmo p b /\ hoth p' b = hoth p b /\ nput p' b = nput p b /\
  nstop p' b = nstop p b /\ nfirst p' b = nfirst p b /\ ntmo p' b = ntmo p b.

Lemma good_at_same aw wl cl run p p' rest b :
  holds_same p p' -> good_at aw wl cl run (p :: rest) b -> good_at aw wl cl run (p' :: rest) b.
Proof.
  intros Hs [Hr Hf Hp Hw Hrun Hpe Hst Hl]. pose proof (Hs b) as (E1 & E2 & E3 & E4 & E5 & E6 & E7).
  cbn [tot] in *. split; cbn [tot]; rewrite ?E1, ?E2, ?E3, ?E4, ?E5, ?E6, ?E7; assumption.
Qed.

(** A step that touches neither the awaiters nor the lists. *)
Lemma good_frame m m' p p' rest :
  good m (p :: rest) -> holds_same p p' -> pc_ok p' ->
  awaiters m' = awaiters m -> wait_list m' = wait_list m -> client m' = client m ->
  running m' = running m -> fresh_addr m' = fresh_addr m ->
  ind (tx_locked m') - nlock p' = ind (tx_locked m) - nlock p -> tx_ok m' ->
  good m' (p' :: rest).
Proof.
  intros Hg Hs Hok Ha Hw Hc Hr Hf Hl Ht. pose proof Hg as [].
  apply (good_intro _ _ _ _ _ Hg); rewrite ?Ha, ?Hw, ?Hc, ?Hr, ?Hf; try done.
  intros b. by apply (good_at_same _ _ _ _ p).
Qed.

(** A reference is dropped, possibly together with entries of the list. *)
Lemma dec_good_list p p' m rest a w wl :
  good m (p :: rest) -> awaiters m !! a = Some w -> pc_ok p' ->
  Forall elem_ok wl -> (forall b, wait_of wl b <= wait_of (wait_list m) b) ->
  (forall b, hput p b + htmo p b + hoth p b + wait_of (wait_list m) b =
             hput p' b + htmo p' b + hoth p' b + wait_of wl b + ind (a =? b)) ->
  (forall b, nput p' b <= nput p b /\ nstop p' b <= nstop p b /\ nfirst p' b <= nfirst p b /\
     ntmo p' b = ntmo p b /\ htmo p' b <= htmo p b /\ hoth p' b <= hoth p b) ->
  nlock p' = nlock p ->
  exists m', gcip_mailbox_awaiter_dec_refs a (set_wait m wl) = Ret (tt, m') /\
    good m' (p' :: rest).
Proof.
  intros Hg Hwa Hok Hwl Hle Hh Hn Hlk. unfold gcip_mailbox_awaiter_dec_refs. proj. rewrite Hwa. run.
  assert (Hra : refs_of (awaiters m) a = Some (refs w)) by (unfold refs_of; by rewrite Hwa).
  assert (Hpa : pend_of (awaiters m) a = ind (bool_decide (timeout_work w = Pending)))
    by (unfold pend_of; by rewrite Hwa).
  pose proof Hg as [].
  assert (Hnn : forall b, 0 <= wait_of wl b) by (intros; apply wait_of_nonneg).
  destruct (Z.eqb_spec (refs w - 1) 0) as [E|E]; eexists; (split; [reflexivity|]);
    apply (good_intro _ _ _ _ _ Hg); proj; try done; try lia.
  - intros b. pose proof (Hh b). pose proof (Hn b). pose proof (Hle b). pose proof (Hnn b).
    at_b m p p' rest Hg a b; cbn; try lia; try done.
  - by apply resp_delete.
  - intros b Hb. rewrite refs_delete. destruct (gd_fresh0 b Hb) as [-> ->]. by destruct (a =? b).
  - intros b. pose proof (Hh b). pose proof (Hn b). pose proof (Hle b). pose proof (Hnn b).
    at_b m p p' rest Hg a b; cbn; try lia; try done.
  - apply resp_insert; [done|]. exact (gd_resp0 _ _ Hwa).
  - intros b Hb. rewrite refs_insert. destruct (gd_fresh0 b Hb) as [Hnone ->].
    destruct (Z.eqb_spec a b) as [->|]; [congruence|done].
Qed.

Lemma set_wait_id (m : mailbox) : set_wait m (wait_list m) = m.
Proof. by destruct m. Qed.

Lemma dec_good p p' m rest a w :
  good m (p :: rest) -> awaiters m !! a = Some w -> pc_ok p' ->
  (forall b, hput p b + htmo p b + hoth p b = hput p' b + htmo p' b + hoth p' b + ind (a =? b)) ->
  (forall b, nput p' b <= nput p b /\ nstop p' b <= nstop p b /\ nfirst p' b <= nfirst p b /\
     ntmo p' b = ntmo p b /\ htmo p' b <= htmo p b /\ hoth p' b <= hoth p b) ->
  nlock p' = nlock p ->
  exists m', gcip_mailbox_awaiter_dec_refs a m = Ret (tt, m') /\ good m' (p' :: rest).
Proof.
  intros Hg Hwa Hok Hh Hn Hlk.
  rewrite <- (set_wait_id m). apply (dec_good_list p p' m rest a w); try done.
  - apply (gd_wait _ _ Hg).
  - intros b. pose proof (Hh b). lia.
Qed.

Lemma no_pending : bool_decide (NoWork = Pending) = false.
Proof. by apply bool_decide_eq_false. Qed.

Lemma is_pending : bool_decide (Pending = Pending) = true.
Proof. by apply bool_decide_eq_true. Qed.

Lemma cancel_good p pt pf m rest a w :
  good m (p :: rest) -> awaiters m !! a = Some w -> pc_ok pt -> pc_ok pf ->
  (forall b, hput pt b + hoth pt b = hput p b + hoth p b + ind (a =? b) /\
     htmo pt b = htmo p b /\ ntmo pt b = ntmo p b /\ nput pt b = nput p b /\
     nfirst pt b = nfirst p b /\ (nput p b = 0 -> hput pt b = 0) /\
     (1 <= nput p b -> hoth pt b = hoth p b)) ->
  (forall b, nstop pt b <= nstop p b + ind (a =? b)) ->
  1 <= hput p a + hoth p a ->
  nlock pt = nlock p -> nlock pf = nlock p ->
  (pend_of (awaiters m) a = 0 -> good m (pf :: rest)) ->
  exists b m', cancel_delayed_work a m = Ret (b, m') /\
    good m' ((if b : bool then pt else pf) :: rest) /\
    (b = false -> m' = m /\ pend_of (awaiters m) a = 0).
Proof.
  intros Hg Hwa Hokt Hokf Hh Hs Hge Hlt Hlf Hpf. unfold cancel_delayed_work. rewrite Hwa. run.
  assert (Hra : refs_of (awaiters m) a = Some (refs w)) by (unfold refs_of; by rewrite Hwa).
  assert (Hpa : pend_of (awaiters m) a = ind (bool_decide (timeout_work w = Pending)))
    by (unfold pend_of; by rewrite Hwa).
  pose proof Hg as [].
  destruct (timeout_work w) eqn:Ew.
  - exists false, m. split; [done|]. assert (pend_of (awaiters m) a = 0) by done. auto.
  - exists true. eexists. split; [reflexivity|]. split; [|done].
    assert (pend_of (awaiters m) a = 1) by done.
    apply (good_intro _ _ _ _ _ Hg); proj; try done; try lia.
    + intros b. pose proof (Hh b). pose proof (Hs b).
      pose proof (tot_bounds rest a). pose proof (pc_bounds p a).
      pose proof (ga_run _ _ _ _ _ _ (gd_at0 a)). pose proof (ga_pend _ _ _ _ _ _ (gd_at0 a)).
      cbn [tot] in *.
      at_b m p pt rest Hg a b; cbn; rewrite ?no_pending; cbn; try lia; try done.
    + apply resp_insert; [done|]. exact (gd_resp0 _ _ Hwa).
    + intros b Hb. rewrite refs_insert. destruct (gd_fresh0 b Hb) as [Hnone ->].
      destruct (Z.eqb_spec a b) as [->|]; [congruence|done].
Qed.

(** Every entry of the list has an awaiter with a response, so searching it is defined. *)
Lemma take_first_ret (m : mailbox) test l :
  Forall elem_ok l ->
  (forall a, In (mk_elem (AsyncOf a) (Some a)) l ->
     exists w e, awaiters m !! a = Some w /\ resp (async w) = Some e) ->
  (take_first m test l = Ret (None, l) /\
   forall a w e, In (mk_elem (AsyncOf a) (Some a)) l -> awaiters m !! a = Some w ->
     resp (async w) = Some e -> test e = false) \/
  exists a w e l1 l2, take_first m test l = Ret (Some (mk_elem (AsyncOf a) (Some a)), l1 ++ l2) /\
    l = l1 ++ mk_elem (AsyncOf a) (Some a) :: l2 /\
    awaiters m !! a = Some w /\ resp (async w) = Some e /\ test e = true.
Proof.
  induction l as [|x l IH]; intros Hok Hal.
  { left. split; [done|]. intros ??? []. }
  apply Forall_cons in Hok as [[a ->] Hok].
  destruct (Hal a) as (w & e & Hw & He); [by left|].
  cbn [take_first e_async]. unfold resp_of, async_of. rewrite Hw. run. rewrite He. run.
  destruct (test e) eqn:Et.
  - right. exists a, w, e, [], l. auto.
  - destruct IH as [[Htf Hnone]|(a' & w' & e' & l1 & l2 & Htf & -> & Hrest)]; [done| | |].
    + intros a' Ha'. apply Hal. by right.
    + left. rewrite Htf. run. split; [done|].
      intros a' w' e' [[= ->]|Hin] Hw' He'; [congruence|by eapply Hnone].
    + right. rewrite Htf. run. exists a', w', e', (mk_elem (AsyncOf a) (Some a) :: l1), l2. auto.
Qed.

Lemma waiter_alive m ps a :
  good m ps -> In (mk_elem (AsyncOf a) (Some a)) (wait_list m) ->
  exists w e, awaiters m !! a = Some w /\ resp (async w) = Some e.
Proof.
  intros Hg Hin. destruct (holder_alive m ps a Hg) as (w & e & Hw & He & _); [|by exists w, e].
  pose proof (wait_of_pos _ _ Hin). pose proof (in_range (client m) a).
  pose proof (tot_bounds ps a). lia.
Qed.

Lemma search_list m ps test :
  good m ps ->
  (take_first m test (wait_list m) = Ret (None, wait_list m) /\
   forall a w e, In (mk_elem (AsyncOf a) (Some a)) (wait_list m) -> awaiters m !! a = Some w ->
     resp (async w) = Some e -> test e = false) \/
  exists a w e l1 l2,
    take_first m test (wait_list m) = Ret (Some (mk_elem (AsyncOf a) (Some a)), l1 ++ l2) /\
    wait_list m = l1 ++ mk_elem (AsyncOf a) (Some a) :: l2 /\
    awaiters m !! a = Some w /\ resp (async w) = Some e /\ test e = true.
Proof.
  intros Hg. apply take_first_ret; [by apply gd_wait with ps|].
  intros a. by apply waiter_alive with ps.
Qed.

(** The list without one entry. *)
Lemma remove_entry l1 l2 a :
  (forall b, wait_of (l1 ++ mk_elem (AsyncOf a) (Some a) :: l2) b =
             wait_of (l1 ++ l2) b + ind (a =? b)) /\
  (Forall elem_ok (l1 ++ mk_elem (AsyncOf a) (Some a) :: l2) -> Forall elem_ok (l1 ++ l2)).
Proof.
  split.
  - intros b. rewrite !wait_of_app. cbn. rewrite ind_elem. lia.
  - rewrite !Forall_app, Forall_cons. tauto.
Qed.

Lemma del_good p p' m rest seq :
  good m (p :: rest) -> (forall r : bool, pc_ok (p' r)) ->
  (forall r, holds_same p (p' r)) ->
  (forall r, nlock (p' r) = nlock p) ->
  exists r m', del_locked seq m = Ret (r, m') /\ good m' (p' r :: rest).
Proof.
  intros Hg Hok Hh Hlk. unfold del_locked.
  destruct (search_list m _ (fun r => get_resp_elem_seq r =? seq) Hg)
    as [[-> _]|(a & w & e & l1 & l2 & -> & Hl & Hw & He & _)]; run; cbn [e_awaiter].
  - exists false, m. split; [done|]. pose proof Hg as [].
    apply (good_frame m _ _ _ _ Hg); try done. rewrite Hlk. lia.
  - destruct (remove_entry l1 l2 a) as [Hwt Hwo].
    destruct (dec_good_list p (p' true) m rest a w (l1 ++ l2) Hg Hw (Hok true)) as (m' & -> & Hg').
    + apply Hwo. rewrite <- Hl. apply (gd_wait _ _ Hg).
    + intros b. rewrite Hl, Hwt. destruct (a =? b); cbn; lia.
    + intros b. rewrite Hl, Hwt. pose proof (Hh true b). lia.
    + intros b. pose proof (Hh true b). lia.
    + apply Hlk.
    + run. by exists true, m'.
Qed.

Lemma match_good m rest r :
  good m (HMatch r :: rest) ->
  exists o m', match_locked r m = Ret (o, m') /\
    good m' (match o with Some a => HCan a | None => Fin end :: rest).
Proof.
  intros Hg. pose proof Hg as []. unfold match_locked.
  destruct (search_list m _ (does_response_match_waiter r) Hg)
    as [[-> _]|(a & w & e & l1 & l2 & -> & Hl & Hwa & He & _)]; run; cbn [e_awaiter e_async].
  - exists None, m. split; [done|]. by apply (good_frame m _ _ _ _ Hg).
  - eexists _, _. split; [reflexivity|]. cbn [set_async]. rewrite Hwa.
    destruct (remove_entry l1 l2 a) as [Hwt Hwo].
    assert (Hra : refs_of (awaiters m) a = Some (refs w)) by (unfold refs_of; by rewrite Hwa).
    assert (Hpa : pend_of (awaiters m) a = ind (bool_decide (timeout_work w = Pending)))
      by (unfold pend_of; by rewrite Hwa).
    apply (good_intro _ _ _ _ _ Hg); proj; try done.
    + intros b. pose proof (Hwt b) as Hwb. rewrite <- Hl in Hwb.
      pose proof (wait_of_nonneg (l1 ++ l2) b).
      at_b m (@HMatch C R r) (@HCan C R a) rest Hg a b; cbn in *;
        rewrite <- ?wait_of_app, ?Z.eqb_refl in *; rewrite ?(proj2 (Z.eqb_neq a _)) by assumption;
        cbn in *; try lia; try done.
    + apply Hwo. by rewrite <- Hl.
    + apply resp_insert; [done|]. cbn. by eexists.
    + intros b Hb. rewrite refs_insert. destruct (gd_fresh0 b Hb) as [Hnone ->].
      destruct (Z.eqb_spec a b) as [->|]; [congruence|done].
Qed.

(** ** The other steps *)

(** What a step must do to keep the invariant. *)
Definition step_keeps (o : outcome (pc * mailbox)) (rest : list pc) : Prop :=
  match o with
  | Ret r => good r.2 (r.1 :: rest)
  | Undef => False
  | Deadlock => True
  end.

Ltac same_holds := intros ?b; cbn; repeat split; lia.

Lemma new_good x cmd r flags m rest :
  good m (PNew x cmd r flags :: rest) -> step_keeps (next (PNew x cmd r flags) m) rest.
Proof.
  intros Hg. pose proof Hg as []. cbn [next]. destruct (x_awaiter x); run; [|done].
  unfold new_awaiter, on. run. cbn [step_keeps fst snd]. set (a := fresh_addr m).
  assert (Ha : refs_of (awaiters m) a = None /\ in_of (running m) a = 0)
    by (apply gd_fresh0; unfold a; lia).
  destruct Ha as [Hra Hrun].
  assert (Hpa : pend_of (awaiters m) a = 0).
  { unfold refs_of in Hra. unfold pend_of. by destruct (awaiters m !! a). }
  apply (good_intro _ _ _ _ _ Hg); proj; try done.
  - intros b. set (p' := PLock x cmd a flags).
    destruct (gd_at0 b) as [Hr Hf Hp Hw Hru Hpe Hs Hl]. facts m rest b.
    cbn [tot hput nput nstop htmo ntmo hoth nfirst] in *.
    destruct (Z.eqb_spec a b) as [<-|Hne];
      (split; autorewrite with views; rewrite ?Z.eqb_refl, ?(proj2 (Z.eqb_neq a _)) by assumption;
       cbn [tot hput nput nstop htmo ntmo hoth nfirst p'];
       rewrite ?Z.eqb_refl, ?(proj2 (Z.eqb_neq a _)) by assumption; cbn [ind]);
      rewrite ?Hra in *; try lia; try done;
      destruct (has_bits _ _); cbn; rewrite ?no_pending, ?is_pending; cbn; lia.
  - exact (Forall_inv gd_ok0).
  - apply resp_insert; [done|]. destruct (has_bits _ _); cbn; by eexists.
  - intros b Hb. rewrite refs_insert. rewrite (proj2 (Z.eqb_neq a b)) by (unfold a; lia).
    apply gd_fresh0. lia.
Qed.

(** The awaiter is written without a change of its count or timer. *)
Lemma async_good m p p' rest a w x :
  good m (p :: rest) -> holds_same p p' -> pc_ok p' -> nlock p' = nlock p ->
  awaiters m !! a = Some w -> is_Some (resp x) ->
  good (put_awaiter m a (mk_awaiter x (timeout_work w) (refs w))) (p' :: rest).
Proof.
  intros Hg Hs Hok Hlk Hwa Hx. pose proof Hg as [].
  assert (Hra : refs_of (awaiters m) a = Some (refs w)) by (unfold refs_of; by rewrite Hwa).
  assert (Hpa : pend_of (awaiters m) a = ind (bool_decide (timeout_work w = Pending)))
    by (unfold pend_of; by rewrite Hwa).
  apply (good_intro _ _ _ _ _ Hg); proj; try done; [| | |lia].
  - intros b. destruct (good_at_same _ _ _ _ _ _ _ _ Hs (gd_at0 b)) as [Hr Hf Hp Hw Hru Hpe Hst Hl].
    split; autorewrite with views; destruct (Z.eqb_spec a b) as [<-|]; cbn [refs timeout_work];
      rewrite ?Hra, ?Hpa in *; assumption.
  - by apply resp_insert.
  - intros b Hb. rewrite refs_insert. destruct (gd_fresh0 b Hb) as [Hnone ->].
    destruct (Z.eqb_spec a b) as [->|]; [congruence|done].
Qed.

(** A function that holds a reference finds the awaiter. *)
Lemma mine m p rest a :
  good m (p :: rest) -> 1 <= hput p a + htmo p a + hoth p a ->
  exists w e, awaiters m !! a = Some w /\ resp (async w) = Some e.
Proof.
  intros Hg Hh. destruct (holder_alive m _ a Hg) as (w & e & Hw & He & _); [|by exists w, e].
  pose proof (tot_bounds rest a). pose proof (wait_of_nonneg (wait_list m) a).
  pose proof (in_range (client m) a). pose proof (pc_bounds p a). cbn [tot]. lia.
Qed.

Lemma tx_ok_submit m cmd n :
  tx_ok m ->
  exists c, tx_queue m !! Z.to_nat (CIRC_QUEUE_REAL_INDEX (cmd_queue_tail (hw m)) CIRC_QUEUE_WRAP_BIT)
    = Some c /\
  tx_ok (set_tx m (<[n := cmd]> (tx_queue m)) (edgetpu_mailbox_inc_cmd_queue_tail (hw m) 1)).
Proof.
  intros (s & i & Hs & Hi & Hsz & Htl & Hlen). change CIRC_QUEUE_WRAP_BIT with (2 ^ 10).
  rewrite Htl, (real_index 10 s) by lia. pose proof (Z.mod_pos_bound i s ltac:(lia)).
  destruct (lookup_lt_is_Some_2 (tx_queue m) (Z.to_nat (i mod s))) as [c Hc]; [lia|].
  exists c. split; [done|]. exists s, (i + 1). proj. rewrite length_insert.
  unfold edgetpu_mailbox_inc_cmd_queue_tail. cbn. rewrite Hsz, Htl.
  change CIRC_QUEUE_WRAP_BIT with (2 ^ 10). rewrite (inc_index 10 s) by lia.
  split_and!; lia || done.
Qed.

Lemma put_good p m rest :
  good m (p :: rest) ->
  match p with
  | PLock _ _ _ _ | PNum _ _ _ _ | PPrep _ _ _ _ | PRef _ _ _ _ | PSub _ _ _ _
  | PUnl _ | PErr _ _ => step_keeps (next p m) rest
  | _ => True
  end.
Proof.
  intros Hg. pose proof Hg as []. pose proof (Forall_inv gd_ok0) as Hok. destruct p; try done.
  - cbn. unfold acquire_tx_queue_lock. destruct (tx_locked m) eqn:El; cbn; [done|].
    apply (good_frame m _ _ _ _ Hg); try done. by rewrite El.
  - cbn. destruct (Z.eqb_spec (x_wait x) 0); cbn; by apply (good_frame m _ _ _ _ Hg).
  - destruct (mine m _ rest a Hg) as (w & e & Hw & He); [cbn; rewrite Z.eqb_refl; cbn; lia|].
    cbn. unfold prepare_resp, async_of. rewrite Hw. run. rewrite He. cbn. rewrite Hw.
    destruct (x_elem x); cbn; [destruct (Z.eqb_spec (x_before x) 0); cbn|];
      apply (async_good m _ _ _ _ _ _ Hg); try done; by eexists.
  - destruct (mine m _ rest a Hg) as (w & e & Hwa & He); [cbn; rewrite Z.eqb_refl; cbn; lia|].
    cbn. unfold refcount_inc. rewrite Hwa. cbn.
    assert (Hra : refs_of (awaiters m) a = Some (refs w)) by (unfold refs_of; by rewrite Hwa).
    assert (Hpa : pend_of (awaiters m) a = ind (bool_decide (timeout_work w = Pending)))
      by (unfold pend_of; by rewrite Hwa).
    apply (good_intro _ _ _ _ _ Hg); proj; try done.
    + intros b. at_b m (PRef x cmd a flags : pc) (PAdd x cmd a flags : pc) rest Hg a b; cbn in *;
        rewrite ?Z.eqb_refl in *; rewrite ?(proj2 (Z.eqb_neq a _)) in * by assumption;
        cbn in *; try lia; done.
    + apply resp_insert; [done|]. exact (gd_resp0 _ _ Hwa).
    + intros b Hb. rewrite refs_insert. destruct (gd_fresh0 b Hb) as [Hnone ->].
      destruct (Z.eqb_spec a b) as [->|]; [congruence|done].
  - cbn in Hok |- *. unfold submit_cmd.
    destruct (tx_ok_submit m cmd (Z.to_nat (CIRC_QUEUE_REAL_INDEX (cmd_queue_tail (hw m))
      CIRC_QUEUE_WRAP_BIT)) gd_tx0) as (c & -> & Htx).
    run. rewrite Hok. cbn [Z.eqb negb]. proj.
    destruct (should_maintain_seq_num _ && _); cbn; by apply (good_frame m _ _ _ _ Hg).
  - cbn. apply (good_frame m _ _ _ _ Hg); try done. cbn.
    destruct (tx_locked m); cbn in *; [lia|]. pose proof (nlock_nonneg rest). lia.
  - cbn. apply (good_frame m _ _ _ _ Hg); try done. cbn.
    destruct (tx_locked m); cbn in *; [lia|]. pose proof (nlock_nonneg rest). lia.
Qed.

Lemma add_good x cmd a flags m rest :
  good m (PAdd x cmd a flags :: rest) -> step_keeps (next (PAdd x cmd a flags) m) rest.
Proof.
  intros Hg. pose proof Hg as []. cbn.
  apply (good_intro _ _ _ _ _ Hg); proj; try done.
  - intros b. set (p' := PSub x cmd a flags : pc).
    at_b m (PAdd x cmd a flags : pc) p' rest Hg a b; cbn in *;
      rewrite ?Z.eqb_refl, ?(proj2 (Z.eqb_neq a _)) in * by assumption; cbn in *;
      rewrite ?bool_decide_true, ?(bool_decide_false (Some a = Some b)) by congruence; cbn;
      try lia; try done.
  - exact (Forall_inv gd_ok0).
  - apply Forall_app. split; [done|]. constructor; [by eexists|done].
Qed.

(** Stopping the timer moves its reference to the function that stops it. *)
Definition takes_one (p pt : pc) (a : Z) : Prop :=
  (forall b, hput pt b + hoth pt b = hput p b + hoth p b + ind (a =? b) /\
     htmo pt b = htmo p b /\ ntmo pt b = ntmo p b /\ nput pt b = nput p b /\
     nfirst pt b = nfirst p b /\ (nput p b = 0 -> hput pt b = 0) /\
     (1 <= nput p b -> hoth pt b = hoth p b)) /\
  (forall b, nstop pt b <= nstop p b + ind (a =? b)) /\
  1 <= hput p a + hoth p a /\ nlock pt = nlock p.

Lemma sync_good p pt pf m rest a :
  good m (p :: rest) -> takes_one p pt a -> pc_ok pt -> pc_ok pf -> nlock pf = nlock p ->
  (pend_of (awaiters m) a = 0 -> in_of (running m) a = 0 -> good m (pf :: rest)) ->
  step_keeps (on (cancel_delayed_work_sync a m) (fun b : bool => if b then pt else pf)) rest.
Proof.
  intros Hg (Hh & Hs & Hge & Hlt) Hokt Hokf Hlf Hpf.
  destruct (mine m p rest a Hg) as (w & e & Hw & He).
  { pose proof (pc_bounds p a). lia. }
  destruct (decide (a ∈ running m)) as [Hin|Hin].
  - unfold cancel_delayed_work_sync. rewrite Hw. run.
    destruct (timeout_work w) eqn:Ew; [by rewrite decide_True|].
    pose proof (ga_pend _ _ _ _ _ _ (gd_at _ _ Hg a)) as Hp. unfold pend_of, in_of in Hp.
    rewrite Hw, Ew, is_pending, bool_decide_true in Hp by done. discriminate Hp. done.
  - destruct (cancel_good p pt pf m rest a w) as (b & m' & Hc & Hg' & _); try done.
    { intros Hp. apply Hpf; [done|]. unfold in_of. by rewrite bool_decide_false. }
    replace (cancel_delayed_work_sync a m) with (Ret (b, m') : outcome (bool * mailbox)).
    { cbn. by destruct b. }
    rewrite <- Hc. unfold cancel_delayed_work_sync, cancel_delayed_work. rewrite Hw. run.
    destruct (timeout_work w); [by rewrite decide_False|done].
Qed.

Ltac pointwise := intros ?b; cbn; destruct (_ =? _); cbn; lia.

Ltac takes := split_and!; [intros ?b; cbn; destruct (_ =? _); cbn; lia
  |intros ?b; cbn; destruct (_ =? _); cbn; lia|cbn; rewrite Z.eqb_refl; cbn; try lia|reflexivity].

Lemma give_up_good p m rest :
  good m (p :: rest) ->
  match p with
  | PCan _ _ | PDec _ _ | PFree _ _ => step_keeps (next p m) rest
  | _ => True
  end.
Proof.
  intros Hg. pose proof Hg as []. pose proof (Forall_inv gd_ok0) as Hok. destruct p; try done.
  - apply (sync_good _ (PDec a ret) (PFree a ret) m rest a Hg); try done; [takes|].
    intros Hp0 Hr0. apply (good_intro _ _ _ _ _ Hg); proj; try done.
    intros b. at_b m (PCan a ret : pc) (PFree a ret : pc) rest Hg a b; cbn in *;
      rewrite ?Z.eqb_refl, ?(proj2 (Z.eqb_neq a _)) in * by assumption; cbn in *; try lia; done.
  - destruct (mine m _ rest a Hg) as (w & e & Hwa & He); [cbn; rewrite Z.eqb_refl; cbn; lia|].
    destruct (dec_good _ (PFree a ret) m rest a w Hg Hwa Hok) as (m' & Hd & Hg');
      [pointwise|pointwise|done|]. cbn. by rewrite Hd.
  - destruct (mine m _ rest a Hg) as (w & e & Hwa & He); [cbn; rewrite Z.eqb_refl; cbn; lia|].
    cbn. unfold free_awaiter. rewrite Hwa. cbn.
    assert (Hra : refs_of (awaiters m) a = Some (refs w)) by (unfold refs_of; by rewrite Hwa).
    apply (good_intro _ _ _ _ _ Hg); proj; try done.
    + intros b. at_b m (PFree a ret : pc) (Fin : pc) rest Hg a b; cbn in *;
        rewrite ?Z.eqb_refl, ?(proj2 (Z.eqb_neq a _)) in * by assumption; cbn in *; try lia; done.
    + by apply resp_delete.
    + intros b Hb. rewrite refs_delete. destruct (gd_fresh0 b Hb) as [-> ->]. by destruct (a =? b).
Qed.

(** The step drops the reference of the function. *)
Lemma dec_step p p' m rest a :
  good m (p :: rest) -> 1 <= hput p a + htmo p a + hoth p a -> pc_ok p' -> nlock p' = nlock p ->
  (forall b, hput p b + htmo p b + hoth p b = hput p' b + htmo p' b + hoth p' b + ind (a =? b)) ->
  (forall b, nput p' b <= nput p b /\ nstop p' b <= nstop p b /\ nfirst p' b <= nfirst p b /\
     ntmo p' b = ntmo p b /\ htmo p' b <= htmo p b /\ hoth p' b <= hoth p b) ->
  step_keeps (on (gcip_mailbox_awaiter_dec_refs a m) (fun _ => p')) rest.
Proof.
  intros Hg Hm Hok Hlk Hh Hn. destruct (mine m p rest a Hg Hm) as (w & e & Hwa & He).
  destruct (dec_good p p' m rest a w Hg Hwa Hok Hh Hn Hlk) as (m' & Hd & Hg'). by rewrite Hd.
Qed.

Lemma call_step p p' m rest a present ev :
  good m (p :: rest) -> 1 <= hput p a + htmo p a + hoth p a -> holds_same p p' -> pc_ok p' ->
  nlock p' = nlock p ->
  step_keeps (on (call_handler present ev a m) (fun _ => p')) rest.
Proof.
  intros Hg Hm Hs Hok Hlk. destruct (mine m p rest a Hg Hm) as (w & e & Hwa & He).
  unfold call_handler. pose proof (gd_tx _ _ Hg). destruct present; rewrite ?Hwa; cbn;
    apply (good_frame m _ _ _ _ Hg); try done; proj; lia.
Qed.

Lemma read_step p p' m rest a :
  good m (p :: rest) -> 1 <= hput p a + htmo p a + hoth p a -> (forall seq, holds_same p (p' seq)) ->
  (forall seq, pc_ok (p' seq)) -> (forall seq, nlock (p' seq) = nlock p) ->
  step_keeps (on (read_seq (AsyncOf a) m) p') rest.
Proof.
  intros Hg Hm Hs Hok Hlk. destruct (mine m p rest a Hg Hm) as (w & e & Hwa & He).
  unfold read_seq, resp_of, async_of. rewrite Hwa. run. rewrite He. cbn.
  pose proof (gd_tx _ _ Hg). apply (good_frame m _ _ _ _ Hg); try done. rewrite Hlk. lia.
Qed.

Ltac mine_hyp := cbn; rewrite ?Z.eqb_refl; cbn; try match goal with
  |- context [count_in ?l ?a] => pose proof (count_in_nonneg l a) end; lia.

Lemma arrived_good p m rest :
  good m (p :: rest) ->
  match p with
  | HMatch _ | HCan _ | HDec _ | HCall _ | HPut _ => step_keeps (next p m) rest
  | _ => True
  end.
Proof.
  intros Hg. destruct p; try done.
  - destruct (match_good m rest r Hg) as (o & m' & Hm & Hg'). cbn. by rewrite Hm.
  - destruct (mine m _ rest a Hg) as (w & e & Hwa & He); [mine_hyp|].
    destruct (cancel_good (HCan a) (HDec a) (HCall a) m rest a w) as (b & m' & Hc & Hg' & _); try done;
      [pointwise|pointwise|mine_hyp| |cbn; rewrite Hc; by destruct b].
    intros _. pose proof (gd_tx _ _ Hg). by apply (good_frame m _ _ _ _ Hg).
  - by apply (dec_step (HDec a)); [|mine_hyp| | |pointwise|pointwise].
  - by apply (call_step (HCall a)); [|mine_hyp| | |].
  - by apply (dec_step (HPut a)); [|mine_hyp| | |pointwise|pointwise].
Qed.

Lemma timeout_good p m rest :
  good m (p :: rest) ->
  match p with
  | TRead _ | TDel _ _ | TCall _ | TPut _ | TDone _ => step_keeps (next p m) rest
  | _ => True
  end.
Proof.
  intros Hg. destruct p; try done.
  - by apply (read_step (TRead a)); [|mine_hyp| | |].
  - destruct (del_good (TDel a seq) (fun b : bool => if b then TCall a else TPut a) m rest seq Hg)
      as (b & m' & Hd & Hg'); try (intros []; done).
    cbn. rewrite Hd. by destruct b.
  - by apply (call_step (TCall a)); [|mine_hyp| | |].
  - by apply (dec_step (TPut a)); [|mine_hyp| | |pointwise|pointwise].
  - cbn. pose proof Hg as []. apply (good_intro _ _ _ _ _ Hg); proj; try done.
    + intros b. at_b m (TDone a : pc) (Fin : pc) rest Hg a b; cbn in *;
        rewrite ?Z.eqb_refl, ?(proj2 (Z.eqb_neq a _)) in * by assumption; cbn in *; try lia; done.
    + intros b Hb. rewrite in_difference. destruct (gd_fresh0 b Hb) as [-> ->]. by destruct (a =? b).
Qed.

Lemma cancel_steps_good p m rest :
  good m (p :: rest) ->
  match p with
  | CRead _ | CDel _ _ | CSync _ _ | CDec _ _ | CBack _ _ | RPut _ => step_keeps (next p m) rest
  | _ => True
  end.
Proof.
  intros Hg. destruct p; try done.
  - by apply (read_step (CRead a)); [|mine_hyp| | |].
  - destruct (del_good (CDel a seq) (fun b => CSync a (Some b)) m rest seq Hg)
      as (b & m' & Hd & Hg'); try done. cbn. by rewrite Hd.
  - apply (sync_good (CSync a o)); try done; [takes|].
    intros _ _. pose proof (gd_tx _ _ Hg). by apply (good_frame m _ _ _ _ Hg).
  - by apply (dec_step (CDec a o)); [|mine_hyp| | |pointwise|pointwise].
  - cbn. pose proof Hg as [].
    replace (match o with Some b => _ | None => _ end) with
      (mk_mailbox (mode m) (cur_seq m) (tx_queue m) (hw m) (tx_locked m) (wait_list m)
         (released m) (awaiters m) (stack m) (fresh_addr m) (running m) ({[ a ]} ∪ client m)
         (match o with Some b => log m ++ [EvCancelled a b] | None => log m end))
      by (by destruct o).
    apply (good_intro _ _ _ _ _ Hg); proj; try done.
    intros b. at_b m (CBack a o : pc) (Fin : pc) rest Hg a b; cbn in *;
      rewrite ?Z.eqb_refl, ?(proj2 (Z.eqb_neq a _)) in * by assumption; cbn in *; try lia; done.
  - by apply (dec_step (RPut a)); [|mine_hyp| | |pointwise|pointwise].
Qed.

Lemma flush_pc_holds l b :
  hput (flush_pc l : pc) b = 0 /\ htmo (flush_pc l : pc) b = 0 /\ nput (flush_pc l : pc) b = 0 /\
  nstop (flush_pc l : pc) b = 0 /\ ntmo (flush_pc l : pc) b = 0 /\
  hoth (flush_pc l : pc) b = count_in l b /\ nfirst (flush_pc l : pc) b = count_in l b.
Proof. by destruct l. Qed.

Lemma flush_good p m rest :
  good m (p :: rest) ->
  match p with
  | FSync _ _ | FDec _ _ | FCall _ _ => step_keeps (next p m) rest
  | _ => True
  end.
Proof.
  intros Hg. destruct p; try done.
  - apply (sync_good (FSync a l)); try done.
    + split_and!; [pointwise|pointwise|mine_hyp|done].
    + intros _ _. pose proof (gd_tx _ _ Hg). by apply (good_frame m _ _ _ _ Hg).
  - by apply (dec_step (FDec a l)); [|mine_hyp| | |pointwise|pointwise].
  - cbn [next]. assert (Hok : pc_ok (flush_pc l : pc)) by (by destruct l).
    assert (Hlk : nlock (flush_pc l : pc) = 0) by (by destruct l). destruct has_flushed.
    + destruct (mine m _ rest a Hg) as (w & e & Hwa & He); [mine_hyp|].
      unfold call_handler. rewrite Hwa. cbn. pose proof Hg as [].
      apply (good_intro _ _ _ _ _ Hg); proj; try done; [|rewrite Hlk; done].
      intros b. pose proof (flush_pc_holds l b). pose proof (count_in_nonneg l b).
      at_b m (FCall a l : pc) (flush_pc l : pc) rest Hg a b; cbn in *;
        rewrite ?Z.eqb_refl, ?(proj2 (Z.eqb_neq a _)) in * by assumption; cbn in *; try lia; done.
    + apply (dec_step (FCall a l)); [done|mine_hyp|done|done| |];
        intros b; pose proof (flush_pc_holds l b); pose proof (count_in_nonneg l b);
        cbn; destruct (a =? b); cbn; lia.
Qed.

Lemma next_good p m rest : good m (p :: rest) -> step_keeps (next p m) rest.
Proof.
  intros Hg. pose proof (put_good p m rest Hg). pose proof (give_up_good p m rest Hg).
  pose proof (arrived_good p m rest Hg). pose proof (timeout_good p m rest Hg).
  pose proof (cancel_steps_good p m rest Hg). pose proof (flush_good p m rest Hg).
  destruct p; try assumption; [by apply new_good|by apply add_good].
Qed.

(** ** Runs *)

Definition inv (c : config) : Prop := exists ps, pool c = code <$> ps /\ good (mbox c) ps.

(** A new function appears in the pool. *)
Lemma spawn_inv m ps p c :
  good m (p :: ps) -> pool c = code <$> ps -> inv (mk_config m (pool c ++ [code p])).
Proof.
  intros Hg Hc. exists (ps ++ [p]). cbn. rewrite Hc, fmap_app. split; [done|].
  eapply good_perm; [|exact Hg]. by rewrite <- Permutation_cons_append.
Qed.

(** The awaiters keep their first reference while a call with it is under way. *)
Lemma borrow_good m ps a p :
  good m ps -> a ∈ client m -> pc_ok p -> nlock p = 0 ->
  (forall b, hput p b = 0 /\ htmo p b = 0 /\ ntmo p b = 0 /\ nput p b = 0 /\ nstop p b = 0 /\
     hoth p b = ind (a =? b) /\ nfirst p b = ind (a =? b)) ->
  good (set_client m (client m ∖ {[ a ]})) (p :: ps).
Proof.
  intros [] Hin Hok Hlk Hh. split; proj; try done.
  - intros b. specialize (gd_at0 b) as [Hr Hf Hp Hw Hru Hpe Hs Hl]. facts m ps b.
    assert (a = b -> in_of (client m) b = 1).
    { intros <-. unfold in_of. by rewrite bool_decide_true. }
    split; autorewrite with views; cbn [tot]; pose proof (Hh b);
      destruct (Z.eqb_spec a b) as [<-|]; cbn [ind] in *; try lia; done.
  - by constructor.
  - cbn. lia.
Qed.

Lemma fire_good m ps a w :
  good m ps -> awaiters m !! a = Some w -> timeout_work w = Pending ->
  good (set_running (put_awaiter m a (mk_awaiter (async w) NoWork (refs w))) ({[ a ]} ∪ running m))
    (TRead a :: ps).
Proof.
  intros [] Hwa Hpw.
  assert (Hra : refs_of (awaiters m) a = Some (refs w)) by (unfold refs_of; by rewrite Hwa).
  assert (Hpa : pend_of (awaiters m) a = 1)
    by (unfold pend_of; by rewrite Hwa, Hpw, is_pending).
  split; proj; try done.
  - intros b. specialize (gd_at0 b) as [Hr Hf Hp Hw Hru Hpe Hs Hl]. facts m ps b.
    split; autorewrite with views; cbn [tot hput nput nstop htmo ntmo hoth nfirst];
      destruct (Z.eqb_spec a b) as [<-|]; cbn [ind refs timeout_work] in *; rewrite ?no_pending, ?Hra in *;
      cbn [ind]; try lia; done.
  - by constructor.
  - apply resp_insert; [done|]. exact (gd_resp0 _ _ Hwa).
  - intros b Hb. rewrite refs_insert, in_union. destruct (gd_fresh0 b Hb) as [Hnone ->].
    destruct (Z.eqb_spec a b) as [->|]; [congruence|done].
Qed.

Lemma count_awaiters l b : Forall elem_ok l -> count_in (omap e_awaiter l) b = wait_of l b.
Proof.
  induction 1 as [|e l [a ->] _ IH]; [done|]. cbn. by rewrite IH, ind_elem.
Qed.

(** Emptying the list drops the reference of each entry; none is the last. *)
Lemma flush_loop_ret l (m : mailbox) :
  Forall elem_ok l -> (forall b, wait_of l b <= 1) ->
  (forall b, 1 <= wait_of l b -> exists n, refs_of (awaiters m) b = Some n /\ 2 <= n) ->
  exists aw', flush_loop l m =
      Ret (omap e_awaiter l, set_awaiters (set_wait m (match l with [] => wait_list m | _ => [] end)) aw') /\
    (forall b, refs_of aw' b = option_map (fun n => n - wait_of l b) (refs_of (awaiters m) b)) /\
    (forall b, pend_of aw' b = pend_of (awaiters m) b) /\
    (forall a w', aw' !! a = Some w' -> exists w, awaiters m !! a = Some w /\ async w' = async w).
Proof.
  revert m. induction l as [|x l IH]; intros m Hok Hone Hal.
  { exists (awaiters m). cbn. split; [by destruct m|]. split_and!; [|done|eauto].
    intros b. destruct (refs_of _ _); cbn; [f_equal; lia|done]. }
  apply Forall_cons in Hok as [[a ->] Hok]. cbn [wait_of e_awaiter] in *.
  destruct (Hal a) as (n & Hn & Hn2).
  { rewrite ind_elem, Z.eqb_refl. pose proof (wait_of_nonneg l a). cbn. lia. }
  unfold refs_of in Hn. destruct (awaiters m !! a) as [w|] eqn:Hw; [|done]. injection Hn as <-.
  cbn [flush_loop e_awaiter]. unfold gcip_mailbox_awaiter_dec_refs. proj. rewrite Hw. run.
  rewrite (proj2 (Z.eqb_neq _ _)) by lia. run.
  set (w' := mk_awaiter (async w) (timeout_work w) (refs w - 1)).
  destruct (IH (put_awaiter (set_wait m l) a w')) as (aw' & Hfl & Href & Hpe & Hre'); proj.
  - done.
  - intros b. specialize (Hone b). rewrite ind_elem in Hone. destruct (a =? b); cbn in Hone; lia.
  - intros b Hb. specialize (Hone b). rewrite ind_elem in Hone.
    destruct (Hal b) as (k & Hk & Hk2); [rewrite ind_elem; destruct (a =? b); cbn; lia|].
    exists k. rewrite refs_insert. destruct (a =? b); [cbn in Hone; lia|done].
  - exists aw'. rewrite Hfl. run. split.
    { cbn. do 2 f_equal. by destruct l. }
    split_and!.
    + intros b. rewrite Href. proj. rewrite refs_insert, ind_elem. unfold refs_of.
      destruct (Z.eqb_spec a b) as [<-|]; [rewrite Hw|]; cbn.
      * f_equal. lia.
      * destruct (awaiters m !! b); cbn; [f_equal; lia|done].
    + intros b. rewrite Hpe. proj. rewrite pend_insert. unfold pend_of.
      destruct (Z.eqb_spec a b) as [<-|]; [by rewrite Hw|done].
    + intros c w1 Hw1. destruct (Hre' c w1 Hw1) as (w2 & Hw2 & Has). revert Hw2. proj. intros Hw2.
      apply lookup_insert_Some in Hw2 as [[<- <-]|[_ Hw2]]; [by exists w|by exists w2].
Qed.

Lemma in_of_waiting m b :
  Forall elem_ok (wait_list m) -> in_of (waiting_set (m : mailbox)) b = ind (0 <? wait_of (wait_list m) b).
Proof.
  unfold in_of, waiting_set. generalize (wait_list m) as l. intros l Hok.
  induction Hok as [|e l [a ->] _ IH]; [done|]. cbn [omap list_omap e_awaiter list_to_set wait_of].
  pose proof (wait_of_nonneg l b). destruct (decide (a = b)) as [->|Hne].
  - rewrite !bool_decide_true; [|done|set_solver]. cbn [ind].
    by rewrite (proj2 (Z.ltb_lt _ _)) by lia.
  - rewrite (bool_decide_false (Some a = Some b)) by congruence. cbn [ind]. rewrite Z.add_0_l, <- IH.
    f_equal. apply bool_decide_ext. set_solver.
Qed.

Lemma flush_start m ps :
  good m ps -> waiting_set m ⊆ client m ->
  exists m', flush_locked m = Ret (omap e_awaiter (wait_list m), m') /\
    (exists aw', m' = set_awaiters (set_wait m []) aw' /\
       (forall b, pend_of aw' b = pend_of (awaiters m) b) /\
       (forall a w', aw' !! a = Some w' -> exists w, awaiters m !! a = Some w /\ async w' = async w)) /\
    good (set_client m' (client m' ∖ waiting_set m)) (flush_pc (omap e_awaiter (wait_list m)) :: ps).
Proof.
  intros Hg Hsub. pose proof Hg as [].
  assert (Hcl : forall b, 1 <= wait_of (wait_list m) b -> in_of (client m) b = 1).
  { intros b Hb. pose proof (in_of_waiting m b gd_wait0) as Hi.
    rewrite (proj2 (Z.ltb_lt _ _)) in Hi by lia. unfold in_of in *.
    case_bool_decide as Hin; [|done]. by rewrite bool_decide_true by set_solver. }
  assert (Hwt : forall b, 0 <= wait_of (wait_list m) b <= 1).
  { intros b. pose proof (wait_of_nonneg (wait_list m) b). by destruct (gd_at0 b). }
  destruct (flush_loop_ret (wait_list m) m) as (aw' & Hfl & Href & Hpe & Hre); try done.
  - apply Hwt.
  - intros b Hb. specialize (Hcl b Hb). destruct (gd_at0 b) as [Hr _ _ _ _ _ _ Hl]. facts m ps b.
    destruct (refs_of (awaiters m) b); [exists z; split; [done|lia]|lia].
  - replace (match wait_list m with [] => wait_list m | _ => [] end) with (@nil wait_list_elem) in Hfl
      by (by destruct (wait_list m)).
    unfold flush_locked. rewrite Hfl. eexists. split; [done|]. split; [by exists aw'|].
    split; proj; try done.
    + intros b. pose proof (flush_pc_holds (omap e_awaiter (wait_list m)) b) as (E1 & E2 & E3 & E4 & E5 & E6 & E7).
      rewrite (count_awaiters _ _ gd_wait0) in E6, E7.
      assert (Hdiff : in_of (client m ∖ waiting_set m) b = in_of (client m) b - wait_of (wait_list m) b).
      { pose proof (in_of_waiting m b gd_wait0) as Hi. pose proof (Hwt b). pose proof (Hcl b).
        unfold in_of in *. destruct (Z.eq_dec (wait_of (wait_list m) b) 0) as [E|E].
        - rewrite E in Hi |- *. rewrite Z.sub_0_r. f_equal. apply bool_decide_ext.
          assert (b ∉ waiting_set m) by (intros Hin; by rewrite bool_decide_true in Hi).
          rewrite elem_of_difference. tauto.
        - rewrite (proj2 (Z.ltb_lt 0 _)) in Hi by lia.
          destruct (decide (b ∈ waiting_set m)); [|by rewrite (bool_decide_false (b ∈ waiting_set m)) in Hi].
          rewrite (bool_decide_false (_ ∈ _ ∖ _)) by (rewrite elem_of_difference; tauto).
          cbn [ind]. lia. }
      specialize (gd_at0 b) as [Hr Hf Hp Hw Hru Hpp Hs Hl]. facts m ps b. pose proof (Hcl b).
      split; cbn [tot wait_of]; rewrite ?Hdiff, ?E1, ?E2, ?E3, ?E4, ?E5, ?E6, ?E7, ?Href, ?Hpe;
        try lia; try done; destruct (refs_of (awaiters m) b); cbn; lia.
    + constructor; [|done]. by destruct (omap _ _).
    + intros a w' Hw'. destruct (Hre a w' Hw') as (w & Hw & ->). by apply (gd_resp0 a).
    + intros b Hb. rewrite Href. by destruct (gd_fresh0 b Hb) as [-> ->].
    + cbn. rewrite gd_lock0. by destruct (omap _ _).
Qed.

(** A function whose place holds nothing yet. *)
Lemma fresh_good m ps p :
  good m ps -> pc_ok p -> nlock p = 0 -> holds_same Fin p -> good m (p :: ps).
Proof.
  intros [] Hok Hlk Hs. split; try done.
  - intros b. apply (good_at_same _ _ _ _ Fin); [done|].
    destruct (gd_at0 b) as [Hr Hf Hp Hw Hru Hpe Hst Hl].
    split; cbn [tot hput nput nstop htmo ntmo hoth nfirst]; rewrite ?Z.add_0_l; done.
  - by constructor.
  - cbn. rewrite Hlk. lia.
Qed.

Lemma not_waiting m a : Forall elem_ok (wait_list (m : mailbox)) ->
  waiting m a = false -> wait_of (wait_list m) a = 0.
Proof.
  unfold waiting. generalize (wait_list m) as l. induction l as [|e l IH]; intros Hok; [done|].
  apply Forall_cons in Hok as [_ Hok]. cbn. intros [-> Hf]%orb_false_iff. cbn. by apply IH.
Qed.

Lemma delete_insert_list (ps : list pc) i p : delete i (<[i := p]> ps) = delete i ps.
Proof. revert i. induction ps as [|q ps IH]; intros [|i]; cbn; try done. f_equal. apply IH. Qed.

Lemma run_inv c i : inv c ->
  match perform (LRun i) c with Ret c' => inv c' | Undef => False | Deadlock => True end.
Proof.
  intros (ps & Hpool & Hg). cbn. rewrite Hpool, list_lookup_fmap.
  destruct (ps !! i) as [p|] eqn:Hi; [|done]. cbn.
  assert (Hperm : ps ≡ₚ p :: delete i ps) by (by apply delete_Permutation).
  pose proof (good_perm _ _ _ Hperm Hg) as Hg'.
  rewrite step_code by exact (Forall_inv (gd_ok _ _ Hg')).
  pose proof (next_good p (mbox c) (delete i ps) Hg') as Hk.
  destruct (next p (mbox c)) as [[p' m']| |]; cbn in *; try done.
  exists (<[i := p']> ps). cbn. split; [by rewrite list_fmap_insert|].
  eapply good_perm; [|exact Hk]. symmetry.
  assert (Hlt : (i < length ps)%nat) by (by eapply lookup_lt_Some).
  rewrite (delete_Permutation (<[i := p']> ps) i p') by (by apply list_lookup_insert_eq).
  by rewrite delete_insert_list.
Qed.

Lemma perform_inv l c : inv c ->
  match perform l c with Ret c' => inv c' | Undef => False | Deadlock => True end.
Proof.
  intros Hinv. destruct l as [i|x cmd r flags|r|a|a|a|a|]; [by apply run_inv|..];
    destruct Hinv as (ps & Hpool & Hg); cbn [perform].
  - destruct (Z.eqb_spec (x_after x) 0); [|done].
    apply (spawn_inv _ ps (PNew x cmd r flags)); [|done]. by apply fresh_good.
  - apply (spawn_inv _ ps (HMatch r)); [|done]. by apply fresh_good.
  - destruct (awaiters (mbox c) !! a) as [w|] eqn:Hw; [|done]. case_bool_decide; [|done].
    apply (spawn_inv _ ps (TRead a)); [|done]. by apply fire_good.
  - case_bool_decide; [|done]. apply (spawn_inv _ ps (CRead a)); [|done].
    by apply borrow_good.
  - case_bool_decide; [|done]. destruct (negb _); [|done].
    apply (spawn_inv _ ps (CSync a None)); [|done]. by apply borrow_good.
  - case_bool_decide; [|done]. destruct (negb _); [|done].
    apply (spawn_inv _ ps (RPut a)); [|done]. by apply borrow_good.
  - destruct (released (mbox c)) eqn:Er; [done|]. case_bool_decide as Hsub; [|done].
    cbn [guard negb andb]. cbn [gcip_mailbox_flush_awaiter step_prog obind fst snd]. rewrite Er.
    destruct (flush_start (mbox c) ps Hg Hsub) as (m' & Hfl & _ & Hg').
    cbn [step_prog]. rewrite Hfl. run. rewrite <- code_flush_pc. by apply (spawn_inv _ ps).
Qed.

(** Calls that keep the contract start. *)
Lemma driver_starts l c : inv c -> starts l = true -> driver_ok l c ->
  exists c', perform l c = Ret c'.
Proof.
  intros (ps & Hpool & Hg) Hst Hd. destruct l as [i|x cmd r flags|r|a|a|a|a|]; cbn in *; try done.
  - rewrite Hd. cbn. eauto.
  - eauto.
  - rewrite bool_decide_eq_true_2 by done. cbn. eauto.
  - destruct Hd as [Hin ->]. rewrite bool_decide_eq_true_2 by done. cbn. eauto.
  - destruct Hd as [Hin ->]. rewrite bool_decide_eq_true_2 by done. cbn. eauto.
  - destruct Hd as [Hrel Hsub]. rewrite Hrel, bool_decide_eq_true_2 by done. cbn.
    destruct (flush_start (mbox c) ps Hg Hsub) as (m' & -> & _). cbn. eauto.
Qed.

Lemma initial_inv m s : initial m s -> inv (mk_config m []).
Proof.
  intros [Hs [Hsz Htl] Htx Hw Ha Hr Hc Hlk]. exists []. split; [done|]. cbn. split; try done.
  - intros b. rewrite Hw, Ha, Hr, Hc. split; done.
  - by rewrite Hw.
  - by rewrite Ha.
  - by rewrite Ha, Hr.
  - by rewrite Hlk.
  - exists s, 0. rewrite Htl. split_and!; try done; lia.
Qed.

Lemma reach_inv G m s c : initial m s -> reach G (mk_config m []) c -> inv c.
Proof.
  intros Hi. induction 1 as [|l c c' Hr IH _ Hp]; [by eapply initial_inv|].
  pose proof (perform_inv l c IH) as Hk. by rewrite Hp in Hk.
Qed.
End safe.

(** C12. No use after free of asynchronous commands. In every state that callers, responses,
    timers, cancellations and flushes reach in any interleaving of atomic steps, no step of a
    function of the mailbox touches a freed awaiter, a null response or a slot outside the command
    queue; and it takes every call of a driver that keeps the contract [driver_ok]: commands have
    a response buffer, the doorbell does not fail, an awaiter is handed in only by who has its
    reference, the reference is dropped, or the timer alone stopped, only once the command is off
    the wait list, and a flush comes only before the release, while the driver has the references
    of all that wait. Sequence numbers need not be distinct, and timers may expire before their
    command is queued. Senders that wait on their stack are not part of this system; without the
    first two conditions the code uses a null or freed pointer ([null_response_times_out],
    [doorbell_error_frees_waiting_awaiter]). *)
Theorem mailbox_no_use_after_free {C R : Set} `{!MailboxElems C R} m s c l :
  initial m s -> reach any (mk_config m []) c ->
  perform l c <> Undef /\
  (starts l = true -> driver_ok l c -> exists c', perform l c = Ret c').
Proof.
  intros Hi Hr. pose proof (reach_inv _ _ _ _ Hi Hr) as Hinv. split.
  - intros Hu. pose proof (perform_inv l c Hinv) as Hk. by rewrite Hu in Hk.
  - by apply driver_starts.
Qed.
