(* ===== verification/GcipOnce.v ===== *)
(** Each asynchronous command of a mailbox is resolved exactly once.

    The commands are numbered by the mailbox and their timers expire after they are queued.
    Then an entry of the wait list is removed only on behalf of its own awaiter, by a
    response, its timer, a cancellation or a flush, and nothing waits for ever. *)

From stdpp Require Import gmap.
From S2P Require Import Prelude GcipQueue GcipStream GcipMailbox GcipAwait GcipSafe.

(** What the operators of the driver have to do. *)
Class MailboxLaws (C R : Set) `{!MailboxElems C R} : Prop := {
  get_set_cmd c s : 0 <= s < 2 ^ 64 -> get_cmd_elem_seq (set_cmd_elem_seq c s) = s;
  get_set_resp r s : 0 <= s < 2 ^ 64 -> get_resp_elem_seq (set_resp_elem_seq r s) = s;
  match_same_seq i w :
    does_response_match_waiter i w = true -> get_resp_elem_seq i = get_resp_elem_seq w;
  handlers : has_arrived = true /\ has_timedout = true /\ has_flushed = true;
}.

Section once.
Context {C R : Set} `{!MailboxElems C R, !MailboxLaws C R}.

#[local] Abbreviation mailbox := (@gcip_mailbox C R).
#[local] Abbreviation pc := (@pc C R).
#[local] Abbreviation config := (@config C R).

(** ** The discipline *)

Definition plain (flags : Z) : Prop :=
  has_bits flags GCIP_MAILBOX_CMD_FLAGS_SKIP_ASSIGN_SEQ = false /\
  has_bits flags GCIP_MAILBOX_CMD_FLAGS_NO_TIMEOUT = false.

Definition disciplined (l : @label C R) (c : config) : Prop :=
  cur_seq (mbox c) < 2 ^ 64 - 1 /\
  match l with
  | LPut _ _ _ flags => plain flags
  | LFire a => In (EvQueued a) (log (mbox c))
  | _ => True
  end.

(** The events that tell the driver what became of an awaiter. *)
Definition resolves (a : Z) (e : event) : bool :=
  match e with
  | EvArrived b | EvTimedout b | EvFlushed b | EvCancelled b true => a =? b
  | _ => false
  end.

Definition resolutions (a : Z) (l : list event) : Z :=
  Z.of_nat (length (List.filter (resolves a) l)).

Definition queued (a : Z) (l : list event) : Z :=
  ind (existsb (fun e => bool_decide (e = EvQueued a)) l).

(** ** Counting *)

(** Functions about to tell the driver. *)
Definition ncb (p : pc) (b : Z) : Z :=
  match p with
  | HCan a | HDec a | HCall a | TCall a => ind (a =? b)
  | CSync a (Some true) | CDec a (Some true) | CBack a (Some true) => ind (a =? b)
  | FSync a l | FDec a l | FCall a l => ind (a =? b) + count_in l b
  | _ => 0
  end.

(** Calls of [put] that will queue the awaiter. *)
Definition nqueue (p : pc) (b : Z) : Z :=
  match p with
  | PLock _ _ a _ | PNum _ _ a _ | PPrep _ _ a _ | PRef _ _ a _ | PAdd _ _ a _ => ind (a =? b)
  | _ => 0
  end.

(** Timeout works that have not looked for their entry. *)
Definition ntrd (p : pc) (b : Z) : Z :=
  match p with TRead a | TDel a _ => ind (a =? b) | _ => 0 end.

Definition nsync (p : pc) (b : Z) : Z := match p with CSync a _ => ind (a =? b) | _ => 0 end.

Definition nsub (p : pc) : Z := match p with PSub _ _ _ _ => 1 | _ => 0 end.

(** What the place of a function says about sequence numbers. *)
Definition seq_at (m : mailbox) (a s : Z) : Prop :=
  exists w e, awaiters m !! a = Some w /\ resp (async w) = Some e /\ get_resp_elem_seq e = s.

Definition numbered (m : mailbox) (p : pc) : Prop :=
  match p with
  | PNew _ _ _ flags | PLock _ _ _ flags | PNum _ _ _ flags | PSub _ _ _ flags => plain flags
  | PPrep _ cmd _ flags => get_cmd_elem_seq cmd = cur_seq m /\ plain flags
  | PRef _ _ a flags | PAdd _ _ a flags => seq_at m a (cur_seq m) /\ plain flags
  | TDel a seq | CDel a seq => seq_at m a seq
  | _ => True
  end.

(** At address [b]: once queued, the awaiter waits or has been dealt with. *)
Record once_at (m : mailbox) (ps : list pc) (b : Z) : Prop := {
  oa_once : wait_of (wait_list m) b + tot (fun p => ncb p b) ps + resolutions b (log m) =
            queued b (log m);
  oa_new : queued b (log m) = 0 -> tot (fun p => ntmo p b) ps = 0;
  oa_put : 1 <= tot (fun p => nput p b) ps -> queued b (log m) = 0;
  oa_fresh : fresh_addr m <= b -> queued b (log m) = 0;
  oa_timer : 1 <= tot (fun p => nqueue p b) ps -> pend_of (awaiters m) b = 1;
  oa_wait : 1 <= wait_of (wait_list m) b ->
            1 <= pend_of (awaiters m) b + tot (fun p => ntrd p b) ps;
  oa_held : 1 <= in_of (client m) b + tot (fun p => nfirst p b) ps - tot (fun p => nput p b) ps ->
            queued b (log m) = 1;
  oa_sync : 1 <= tot (fun p => nsync p b) ps -> wait_of (wait_list m) b = 0;
}.

Record once (m : mailbox) (ps : list pc) : Prop := {
  on_at b : once_at m ps b;
  on_num : Forall (numbered m) ps;
  on_below a s : seq_at m a s -> queued a (log m) = 1 -> s < cur_seq m + tot nsub ps;
  on_distinct a b s : seq_at m a s -> seq_at m b s ->
    queued a (log m) = 1 -> queued b (log m) = 1 -> a = b;
  on_mode : should_maintain_seq_num (mode m) = true;
  on_seq : 0 <= cur_seq m;
}.

Lemma resolutions_app a l e : resolutions a (l ++ [e]) = resolutions a l + ind (resolves a e).
Proof.
  unfold resolutions. rewrite List.filter_app, List.length_app. cbn. destruct (resolves a e); cbn; lia.
Qed.

Lemma queued_app a l e :
  queued a (l ++ [e]) = if bool_decide (e = EvQueued a) then 1 else queued a l.
Proof.
  unfold queued. rewrite existsb_app. cbn. rewrite orb_false_r.
  destruct (bool_decide _); [by rewrite orb_true_r|by rewrite orb_false_r].
Qed.

Lemma resolutions_nonneg a l : 0 <= resolutions a l.
Proof. unfold resolutions. lia. Qed.

Lemma queued_range a l : 0 <= queued a l <= 1.
Proof. unfold queued. destruct (existsb _ _); cbn; lia. Qed.

Lemma queued_in a l : In (EvQueued a) l <-> queued a l = 1.
Proof.
  unfold queued. split.
  - intros Hin. rewrite (proj2 (existsb_exists _ _)); [done|].
    exists (EvQueued a). split; [done|]. by apply bool_decide_eq_true.
  - destruct (existsb _ _) eqn:E; [|done]. intros _. apply existsb_exists in E as (e & Hin & He).
    apply bool_decide_eq_true in He as ->. done.
Qed.

Lemma pc_bounds2 p b :
  0 <= ncb p b /\ 0 <= nqueue p b <= nput p b /\ 0 <= ntrd p b <= htmo p b /\ 0 <= nsync p b /\
  nqueue p b <= hput p b /\ nsync p b <= hoth p b.
Proof.
  destruct p; cbn; try pose proof (count_in_nonneg l b); try destruct (a =? b); cbn;
    try (destruct o as [[]|]; cbn); lia.
Qed.

Lemma tot_bounds2 ps b :
  0 <= tot (fun p => ncb p b) ps /\
  0 <= tot (fun p => nqueue p b) ps <= tot (fun p => nput p b) ps /\
  0 <= tot (fun p => ntrd p b) ps <= tot (fun p => htmo p b) ps /\
  0 <= tot (fun p => nsync p b) ps /\
  tot (fun p => nqueue p b) ps <= tot (fun p => hput p b) ps /\
  tot (fun p => nsync p b) ps <= tot (fun p => hoth p b) ps.
Proof. induction ps as [|p ps IH]; cbn; [lia|]. pose proof (pc_bounds2 p b). lia. Qed.

Lemma nsub_bounds ps : 0 <= tot nsub ps <= tot nlock ps.
Proof. induction ps as [|p ps IH]; cbn; [lia|]. assert (0 <= nsub p <= nlock p) by (destruct p; cbn; lia). lia. Qed.

Lemma once_perm m ps ps' : ps ≡ₚ ps' -> once m ps -> once m ps'.
Proof.
  intros Hp []. split; try assumption.
  - intros b. destruct (on_at0 b). split; rewrite <- ?(tot_perm _ _ _ Hp); assumption.
  - by rewrite <- Hp.
  - intros a s. rewrite <- (tot_perm _ _ _ Hp). apply on_below0.
Qed.

(** ** Steps *)

Lemma seq_at_fun m a s s' : seq_at m a s -> seq_at m a s' -> s = s'.
Proof. intros (w & e & Hw & He & <-) (w' & e' & Hw' & He' & <-). congruence. Qed.

(** The awaiters of [m'] had their numbers in [m] already, but for the touched ones. *)
Definition keeps (touched : Z -> Prop) (m m' : mailbox) : Prop :=
  forall a s, seq_at m' a s -> touched a \/ seq_at m a s.

Lemma tot_elem f (ps : list pc) q : (forall p, 0 <= f p) -> In q ps -> f q <= tot f ps.
Proof.
  intros Hf. induction ps as [|p ps IH]; [done|]. intros [->|Hin]; cbn.
  - assert (0 <= tot f ps) by (clear IH; induction ps as [|x ps IH]; cbn; [lia|]; pose proof (Hf x); lia). lia.
  - specialize (IH Hin). pose proof (Hf p). lia.
Qed.

Lemma alive_in m ps q a :
  good m ps -> In q ps -> 1 <= hput q a + htmo q a + hoth q a -> exists s, seq_at m a s.
Proof.
  intros Hg Hin Hh. destruct (holder_alive m ps a Hg) as (w & e & Hw & He & _).
  - pose proof (tot_elem (fun p => hput p a) ps q). pose proof (tot_elem (fun p => htmo p a) ps q).
    pose proof (tot_elem (fun p => hoth p a) ps q). pose proof (wait_of_nonneg (wait_list m) a).
    pose proof (in_range (client m) a).
    assert (forall p : pc, 0 <= hput p a /\ 0 <= htmo p a /\ 0 <= hoth p a) as Hnn.
    { intros p. pose proof (pc_bounds p a). lia. }
    assert (hput q a <= tot (fun p => hput p a) ps) by (apply H; [apply Hnn|done]).
    assert (htmo q a <= tot (fun p => htmo p a) ps) by (apply H0; [apply Hnn|done]).
    assert (hoth q a <= tot (fun p => hoth p a) ps) by (apply H1; [apply Hnn|done]).
    lia.
  - exists (get_resp_elem_seq e), w, e. done.
Qed.

(** The numbers that the other functions rely on stay. *)
Lemma rest_numbered touched m m' p p' rest :
  good m (p :: rest) -> good m' (p' :: rest) -> once m (p :: rest) -> keeps touched m m' ->
  (forall a, touched a -> tot (fun q => hput q a) rest + tot (fun q => htmo q a) rest +
     tot (fun q => hoth q a) rest = 0) ->
  cur_seq m' = cur_seq m \/ nlock p = 1 ->
  Forall (numbered m') rest.
Proof.
  intros Hg Hg' Ho Hk Ht Hseq. apply Forall_forall. intros q Hq%list_elem_of_In.
  pose proof (proj1 (Forall_forall _ _) (on_num _ _ Ho) q) as Hn.
  specialize (Hn ltac:(apply list_elem_of_In; by right)).
  assert (Hlock : nlock q = 1 -> cur_seq m' = cur_seq m).
  { intros Hq1. destruct Hseq as [|Hp1]; [done|]. exfalso. pose proof (gd_lock _ _ Hg) as Hl.
    pose proof (tot_elem nlock rest q) as He. cbn in Hl.
    assert (nlock q <= tot nlock rest) by (apply He; [intros []; cbn; lia|done]).
    destruct (tx_locked m); cbn in Hl; lia. }
  assert (Hst : forall a s, 1 <= hput q a + htmo q a + hoth q a -> seq_at m a s -> seq_at m' a s).
  { intros a s Hh Hs. destruct (alive_in m' (p' :: rest) q a Hg') as (s' & Hs'); [by right|done|].
    destruct (Hk a s' Hs') as [Hta|Hs2]; [|by rewrite (seq_at_fun m a s s' Hs Hs2)].
    specialize (Ht a Hta). exfalso.
    pose proof (tot_elem (fun p => hput p a) rest q) as H1.
    pose proof (tot_elem (fun p => htmo p a) rest q) as H2.
    pose proof (tot_elem (fun p => hoth p a) rest q) as H3. cbn in *.
    assert (forall p : pc, 0 <= hput p a /\ 0 <= htmo p a /\ 0 <= hoth p a) as Hnn.
    { intros x. pose proof (pc_bounds x a). lia. }
    specialize (H1 (fun x => proj1 (Hnn x)) Hq). specialize (H2 (fun x => proj1 (proj2 (Hnn x))) Hq).
    specialize (H3 (fun x => proj2 (proj2 (Hnn x))) Hq). lia. }
  destruct q; cbn [numbered] in *; try done.
  - by rewrite (Hlock eq_refl).
  - rewrite (Hlock eq_refl). destruct Hn as [Hs Hf]. split; [|done]. apply Hst; [|done].
    cbn. rewrite Z.eqb_refl. cbn. lia.
  - rewrite (Hlock eq_refl). destruct Hn as [Hs Hf]. split; [|done]. apply Hst; [|done].
    cbn. rewrite Z.eqb_refl. cbn. lia.
  - apply Hst; [|done]. cbn. rewrite Z.eqb_refl. cbn. lia.
  - apply Hst; [|done]. cbn. rewrite Z.eqb_refl. cbn. lia.
Qed.

(** A step that queues nothing. *)
Lemma once_step touched m m' p p' rest :
  good m (p :: rest) -> good m' (p' :: rest) -> once m (p :: rest) -> keeps touched m m' ->
  (forall a, touched a -> tot (fun q => hput q a) rest + tot (fun q => htmo q a) rest +
     tot (fun q => hoth q a) rest = 0 /\ queued a (log m) = 0) ->
  numbered m' p' -> mode m' = mode m ->
  cur_seq m' + nsub p' = cur_seq m + nsub p -> (cur_seq m' = cur_seq m \/ nlock p = 1) ->
  cur_seq m <= cur_seq m' -> fresh_addr m <= fresh_addr m' ->
  (forall b, queued b (log m') = queued b (log m)) ->
  (forall b, wait_of (wait_list m') b + ncb p' b + resolutions b (log m') =
             wait_of (wait_list m) b + ncb p b + resolutions b (log m)) ->
  (forall b, ntmo p' b <= ntmo p b \/ queued b (log m) = 1) ->
  (forall b, nput p' b <= nput p b \/ queued b (log m) = 0) ->
  (forall b, 1 <= nqueue p' b + tot (fun q => nqueue q b) rest -> pend_of (awaiters m') b = 1) ->
  (forall b, 1 <= wait_of (wait_list m') b ->
     1 <= pend_of (awaiters m') b + ntrd p' b + tot (fun q => ntrd q b) rest) ->
  (forall b, in_of (client m') b + nfirst p' b - nput p' b <=
             in_of (client m) b + nfirst p b - nput p b) ->
  (forall b, 1 <= nsync p' b + tot (fun q => nsync q b) rest -> wait_of (wait_list m') b = 0) ->
  once m' (p' :: rest).
Proof.
  intros Hg Hg' Ho Hk Ht Hn Hmode Hs1 Hs2 Hs3 Hfr Hq Hsum Htm Hpu Hti Hwp Hcl Hsy.
  pose proof Ho as []. split; try done.
  - intros b. destruct (on_at0 b) as [O1 O2 O3 O4 O5 O6 O7 O8].
    pose proof (pc_bounds p' b). pose proof (pc_bounds p b).
    pose proof (tot_bounds rest b). pose proof (Hsum b). pose proof (Htm b). pose proof (Hpu b).
    cbn [tot] in *. split; cbn [tot]; rewrite ?Hq; try lia.
    + intros Hb. by apply Hti.
    + intros Hb. specialize (Hwp b Hb). lia.
    + pose proof (Hcl b). lia.
    + apply Hsy.
  - constructor; [done|]. eapply (rest_numbered touched m m' p p'); try done.
    intros a Ha. by destruct (Ht a Ha).
  - intros a s Hs Hqa. rewrite Hq in Hqa. destruct (Hk a s Hs) as [Hta|Hsa].
    + destruct (Ht a Hta). lia.
    + specialize (on_below0 a s Hsa Hqa). cbn [tot] in *. lia.
  - intros a b s Ha Hb Hqa Hqb. rewrite Hq in Hqa, Hqb.
    destruct (Hk a s Ha) as [Hta|Hsa]; [destruct (Ht a Hta); lia|].
    destruct (Hk b s Hb) as [Htb|Hsb]; [destruct (Ht b Htb); lia|]. by eapply on_distinct0.
  - by rewrite Hmode.
  - lia.
Qed.

Definition none (_ : Z) : Prop := False.

(** A step that leaves the list alone. *)
Lemma once_calm m m' p p' rest :
  good m (p :: rest) -> good m' (p' :: rest) -> once m (p :: rest) -> keeps none m m' ->
  wait_list m' = wait_list m -> cur_seq m' = cur_seq m -> mode m' = mode m ->
  fresh_addr m' = fresh_addr m -> (forall b, queued b (log m') = queued b (log m)) ->
  (forall b, ncb p' b + resolutions b (log m') = ncb p b + resolutions b (log m)) ->
  (forall b, ntmo p' b <= ntmo p b /\ nput p' b <= nput p b /\ nqueue p' b <= nqueue p b /\
     ntrd p b <= ntrd p' b /\ nsync p' b <= nsync p b) ->
  nsub p' = nsub p ->
  (forall b, pend_of (awaiters m') b = pend_of (awaiters m) b \/ refs_of (awaiters m') b = None \/
     wait_of (wait_list m) b = 0 /\ tot (fun q => nqueue q b) (p :: rest) = 0) ->
  (forall b, in_of (client m') b + nfirst p' b - nput p' b <=
             in_of (client m) b + nfirst p b - nput p b) ->
  numbered m' p' -> once m' (p' :: rest).
Proof.
  intros Hg Hg' Ho Hk Hw Hs Hm Hf Hq Hr Hn Hsub Hp Hcl Hnum.
  assert (Hnone : forall b, refs_of (awaiters m') b = None ->
    wait_of (wait_list m) b = 0 /\ tot (fun q => nqueue q b) (p' :: rest) = 0).
  { intros b Hb. destruct (gd_at _ _ Hg' b) as [Hre _ _ _ _ _ _ _]. rewrite Hb, Hw in Hre.
    pose proof (tot_bounds (p' :: rest) b). pose proof (tot_bounds2 (p' :: rest) b).
    pose proof (wait_of_nonneg (wait_list m) b). pose proof (in_range (client m') b).
    pose proof (pend_range (awaiters m') b). lia. }
  apply (once_step none m m' p p'); try done; try lia.
  - intros b. rewrite Hw. pose proof (Hr b). lia.
  - intros b. pose proof (Hn b). lia.
  - intros b. pose proof (Hn b). lia.
  - intros b Hb. pose proof (oa_timer _ _ _ (on_at _ _ Ho b)). pose proof (Hn b). pose proof (Hnone b).
    cbn [tot] in *. destruct (Hp b) as [|[]]; lia || (exfalso; intuition lia).
  - intros b. rewrite Hw. intros Hb. pose proof (oa_wait _ _ _ (on_at _ _ Ho b) Hb).
    pose proof (Hn b). pose proof (Hnone b). cbn [tot] in *. destruct (Hp b) as [|[]]; lia || (exfalso; intuition lia).
  - intros b. rewrite Hw. intros Hb. apply (oa_sync _ _ _ (on_at _ _ Ho b)).
    pose proof (Hn b). cbn [tot]. lia.
Qed.

(** What dropping a reference leaves as it was. *)
Lemma dec_effect a (m m' : mailbox) :
  gcip_mailbox_awaiter_dec_refs a m = Ret (tt, m') ->
  wait_list m' = wait_list m /\ cur_seq m' = cur_seq m /\ mode m' = mode m /\
  fresh_addr m' = fresh_addr m /\ (forall b, queued b (log m') = queued b (log m)) /\
  (forall b, resolutions b (log m') = resolutions b (log m)) /\ keeps none m m' /\
  client m' = client m /\
  (forall b, pend_of (awaiters m') b = pend_of (awaiters m) b \/ refs_of (awaiters m') b = None).
Proof.
  unfold gcip_mailbox_awaiter_dec_refs. destruct (awaiters m !! a) as [w|] eqn:Hw; [|done]. run.
  destruct (refs w - 1 =? 0); intros [= <-]; proj; split_and!; try done.
  - intros b. rewrite queued_app. by rewrite bool_decide_false.
  - intros b. rewrite resolutions_app. cbn. lia.
  - intros b s (w' & e' & Hw' & He' & Hs). right. revert Hw'. proj. intros Hw'.
    apply lookup_delete_Some in Hw' as [_ Hw']. by exists w', e'.
  - intros b. rewrite pend_delete, refs_delete. destruct (a =? b); auto.
  - intros b s (w' & e' & Hw' & He' & Hs). right. revert Hw'. proj. intros Hw'.
    apply lookup_insert_Some in Hw' as [[<- <-]|[_ Hw']]; [by exists w, e'|by exists w', e'].
  - intros b. rewrite pend_insert. left. destruct (Z.eqb_spec a b) as [<-|]; [|done].
    unfold pend_of. by rewrite Hw.
Qed.

Lemma dec_once p p' m m' rest a :
  good m (p :: rest) -> good m' (p' :: rest) -> once m (p :: rest) ->
  gcip_mailbox_awaiter_dec_refs a m = Ret (tt, m') ->
  (forall b, ncb p' b = ncb p b /\ ntmo p' b <= ntmo p b /\ nput p' b <= nput p b /\
     nqueue p' b <= nqueue p b /\ ntrd p b <= ntrd p' b /\ nsync p' b <= nsync p b /\
     nfirst p' b - nput p' b <= nfirst p b - nput p b) ->
  nsub p' = nsub p -> numbered m' p' -> once m' (p' :: rest).
Proof.
  intros Hg Hg' Ho Hd Hn Hsub Hnum.
  destruct (dec_effect a m m' Hd) as (E1 & E2 & E3 & E4 & E5 & E6 & E7 & E9 & E8).
  apply (once_calm m m' p p'); try done.
  - intros b. rewrite E6. destruct (Hn b). lia.
  - intros b. destruct (Hn b). tauto.
  - intros b. destruct (E8 b); tauto.
  - intros b. rewrite E9. pose proof (Hn b). lia.
Qed.

(** The same when only the fields of the queue, the lock or the log change. *)
Lemma frame_once p p' m m' rest :
  good m (p :: rest) -> good m' (p' :: rest) -> once m (p :: rest) ->
  awaiters m' = awaiters m -> wait_list m' = wait_list m -> cur_seq m' = cur_seq m ->
  mode m' = mode m -> fresh_addr m' = fresh_addr m ->
  (forall b, queued b (log m') = queued b (log m)) ->
  (forall b, ncb p' b + resolutions b (log m') = ncb p b + resolutions b (log m)) ->
  (forall b, ntmo p' b <= ntmo p b /\ nput p' b <= nput p b /\ nqueue p' b <= nqueue p b /\
     ntrd p b <= ntrd p' b /\ nsync p' b <= nsync p b) ->
  (forall b, in_of (client m') b + nfirst p' b - nput p' b <=
             in_of (client m) b + nfirst p b - nput p b) ->
  nsub p' = nsub p -> numbered m' p' -> once m' (p' :: rest).
Proof.
  intros Hg Hg' Ho Ha. intros. apply (once_calm m m' p p'); try done.
  - intros a s. unfold seq_at. rewrite Ha. by right.
  - intros b. rewrite Ha. by left.
Qed.

Lemma cancel_effect a (m m' : mailbox) b :
  cancel_delayed_work a m = Ret (b, m') \/ cancel_delayed_work_sync a m = Ret (b, m') ->
  wait_list m' = wait_list m /\ cur_seq m' = cur_seq m /\ mode m' = mode m /\
  fresh_addr m' = fresh_addr m /\ log m' = log m /\ client m' = client m /\ keeps none m m' /\
  (forall c, pend_of (awaiters m') c = pend_of (awaiters m) c \/ c = a).
Proof.
  intros Hc. assert (Hc' : m' = m \/ exists w, awaiters m !! a = Some w /\
    m' = put_awaiter m a (mk_awaiter (async w) NoWork (refs w))).
  { unfold cancel_delayed_work, cancel_delayed_work_sync in Hc.
    destruct (awaiters m !! a) as [w|]; [|by destruct Hc]. cbn in Hc.
    destruct (timeout_work w).
    - left. destruct Hc as [Hc|Hc]; [by injection Hc as _ <-|]. case_decide; [done|by injection Hc as _ <-].
    - right. exists w. destruct Hc as [Hc|Hc]; by injection Hc as _ <-. }
  destruct Hc' as [->|(w & Hw & ->)]; proj; split_and!; try done.
  - intros c s Hs. by right.
  - intros c. by left.
  - intros c s (w' & e' & Hw' & He' & Hs). right. revert Hw'. proj. intros Hw'.
    apply lookup_insert_Some in Hw' as [[<- <-]|[_ Hw']]; [by exists w, e'|by exists w', e'].
  - intros c. rewrite pend_insert. destruct (Z.eqb_spec a c) as [<-|]; auto.
Qed.

Lemma cancel_once p p' m m' rest a b :
  good m (p :: rest) -> good m' (p' :: rest) -> once m (p :: rest) ->
  cancel_delayed_work a m = Ret (b, m') \/ cancel_delayed_work_sync a m = Ret (b, m') ->
  wait_of (wait_list m) a = 0 /\ tot (fun q => nqueue q a) (p :: rest) = 0 ->
  (forall b, ncb p' b = ncb p b /\ ntmo p' b <= ntmo p b /\ nput p' b <= nput p b /\
     nqueue p' b <= nqueue p b /\ ntrd p b <= ntrd p' b /\ nsync p' b <= nsync p b /\
     nfirst p' b - nput p' b <= nfirst p b - nput p b) ->
  nsub p' = nsub p -> numbered m' p' -> once m' (p' :: rest).
Proof.
  intros Hg Hg' Ho Hc Hq Hn Hsub Hnum.
  destruct (cancel_effect a m m' b Hc) as (E1 & E2 & E3 & E4 & E5 & E6 & E7 & E8).
  apply (once_calm m m' p p'); try done.
  - by rewrite E5.
  - intros c. rewrite E5. pose proof (Hn c). lia.
  - intros c. pose proof (Hn c). tauto.
  - intros c. destruct (E8 c) as [ | -> ]; tauto.
  - intros c. rewrite E6. pose proof (Hn c). lia.
Qed.

(** What is known of an awaiter that waits. *)
Lemma wait_of_in l a : Forall elem_ok l -> 1 <= wait_of l a -> In (mk_elem (AsyncOf a) (Some a)) l.
Proof.
  induction 1 as [|e l [b ->] _ IH]; cbn; [lia|]. case_bool_decide as Hb; cbn.
  - injection Hb as ->. by left.
  - intros Hw. right. apply IH. lia.
Qed.

Lemma waits_queued m ps a : once m ps -> 1 <= wait_of (wait_list m) a -> queued a (log m) = 1.
Proof.
  intros Ho Hw. pose proof (oa_once _ _ _ (on_at _ _ Ho a)). pose proof (tot_bounds2 ps a).
  pose proof (resolutions_nonneg a (log m)). pose proof (queued_range a (log m)). lia.
Qed.

(** A function that looks for its number finds its own entry or none. *)
Lemma search_own m ps a seq :
  good m ps -> once m ps -> seq_at m a seq -> queued a (log m) = 1 ->
  (take_first m (fun r => get_resp_elem_seq r =? seq) (wait_list m) = Ret (None, wait_list m) /\
   wait_of (wait_list m) a = 0) \/
  exists w l1 l2,
    take_first m (fun r => get_resp_elem_seq r =? seq) (wait_list m) =
      Ret (Some (mk_elem (AsyncOf a) (Some a)), l1 ++ l2) /\
    wait_list m = l1 ++ mk_elem (AsyncOf a) (Some a) :: l2 /\ awaiters m !! a = Some w.
Proof.
  intros Hg Ho Hs Hq.
  destruct (search_list m ps (fun r => get_resp_elem_seq r =? seq) Hg)
    as [[Htf Hno]|(c & w & e & l1 & l2 & Htf & Hl & Hw & He & Ht)].
  - left. split; [done|]. pose proof (wait_of_nonneg (wait_list m) a).
    destruct (Z.eq_dec (wait_of (wait_list m) a) 0) as [|Hne]; [done|]. exfalso.
    destruct Hs as (w & e & Hw & He & Hs).
    specialize (Hno a w e (wait_of_in _ a (gd_wait _ _ Hg) ltac:(lia)) Hw He).
    cbn in Hno. apply Z.eqb_neq in Hno. done.
  - right. apply Z.eqb_eq in Ht.
    assert (c = a) as ->; [|by exists w, l1, l2].
    apply (on_distinct _ _ Ho c a seq); try done; [by exists w, e|].
    apply (waits_queued m ps); [done|]. apply wait_of_pos. rewrite Hl. apply in_or_app. right. by left.
Qed.

(** In a good state an awaiter that is gone is not waited for. *)
Lemma gone m ps b :
  good m ps -> refs_of (awaiters m) b = None ->
  wait_of (wait_list m) b = 0 /\ tot (fun q => nqueue q b) ps = 0.
Proof.
  intros Hg Hb. destruct (gd_at _ _ Hg b) as [Hre _ _ _ _ _ _ _]. rewrite Hb in Hre.
  pose proof (tot_bounds ps b). pose proof (tot_bounds2 ps b).
  pose proof (wait_of_nonneg (wait_list m) b). pose proof (in_range (client m) b).
  pose proof (pend_range (awaiters m) b). lia.
Qed.

Lemma del_once p p' m m' rest a seq (r : bool) :
  good m (p :: rest) -> good m' (p' :: rest) -> once m (p :: rest) ->
  seq_at m a seq -> queued a (log m) = 1 -> del_locked seq m = Ret (r, m') ->
  (forall b, ncb p' b = ncb p b + ind (r && (a =? b)) /\ ntmo p' b <= ntmo p b /\
     nput p' b <= nput p b /\ nqueue p' b <= nqueue p b /\ ntrd p b <= ntrd p' b + ind (a =? b) /\
     nsync p' b <= nsync p b + ind (a =? b) /\ nfirst p' b - nput p' b <= nfirst p b - nput p b) ->
  nsub p' = nsub p -> numbered m' p' -> once m' (p' :: rest).
Proof.
  intros Hg Hg' Ho Hs Hq Hd Hn Hsub Hnum. unfold del_locked in Hd.
  destruct (search_own m _ a seq Hg Ho Hs Hq) as [[Htf Hw0]|(w & l1 & l2 & Htf & Hl & Hw)];
    rewrite Htf in Hd; run_in Hd.
  - injection Hd as <- <-. apply (once_step none m m p p'); try done; try lia.
    + intros b t Ht. by right.
    + intros b. pose proof (Hn b) as H. cbn in H. lia.
    + intros b. pose proof (Hn b). lia.
    + intros b. pose proof (Hn b). lia.
    + intros b Hb. apply (oa_timer _ _ _ (on_at _ _ Ho b)). pose proof (Hn b). cbn [tot]. lia.
    + intros b Hb. pose proof (oa_wait _ _ _ (on_at _ _ Ho b) Hb). pose proof (Hn b). cbn [tot] in *.
      destruct (Z.eqb_spec a b) as [<-|]; cbn in *; lia.
    + intros b. pose proof (Hn b). lia.
    + intros b Hb. pose proof (oa_sync _ _ _ (on_at _ _ Ho b)). pose proof (Hn b). cbn [tot] in *.
      destruct (Z.eqb_spec a b) as [<-|]; cbn in *; [done|lia].
  - cbn [e_awaiter] in Hd. apply obind_Ret in Hd as ([[] m1] & Hd & [= <- <-]). cbn [snd] in *.
    destruct (dec_effect a _ m1 Hd) as (E1 & E2 & E3 & E4 & E5 & E6 & E7 & E9 & E8).
    revert E1 E2 E3 E4 E5 E6 E8 E9. proj. intros E1 E2 E3 E4 E5 E6 E8 E9.
    destruct (remove_entry l1 l2 a) as [Hwt _]. rewrite <- Hl, <- E1 in Hwt.
    assert (Hwa : wait_of (wait_list m) a <= 1) by (apply (gd_at _ _ Hg a)).
    apply (once_step none m m1 p p'); try done; try lia.
    + intros b. rewrite E6, (Hwt b). pose proof (Hn b) as H. cbn in H. lia.
    + intros b. pose proof (Hn b). lia.
    + intros b. pose proof (Hn b). lia.
    + intros b Hb. pose proof (oa_timer _ _ _ (on_at _ _ Ho b)). pose proof (Hn b).
      pose proof (gone m1 _ b Hg'). cbn [tot] in *. destruct (E8 b); lia || (exfalso; intuition lia).
    + intros b Hb. pose proof (oa_wait _ _ _ (on_at _ _ Ho b)). pose proof (Hn b). pose proof (Hwt b).
      pose proof (gone m1 _ b Hg'). cbn [tot] in *.
      destruct (Z.eqb_spec a b) as [<-|]; cbn in *; [lia|].
      destruct (E8 b); lia || (exfalso; intuition lia).
    + intros b. rewrite E9. pose proof (Hn b). lia.
    + intros b Hb. pose proof (oa_sync _ _ _ (on_at _ _ Ho b)). pose proof (Hn b). pose proof (Hwt b).
      pose proof (wait_of_nonneg (wait_list m1) b). cbn [tot] in *.
      destruct (Z.eqb_spec a b) as [<-|]; cbn in *; lia.
Qed.

Lemma match_once m m' rest r o :
  good m (HMatch r :: rest) ->
  good m' (match o with Some a => HCan a | None => Fin end :: rest) ->
  once m (HMatch r :: rest) -> match_locked r m = Ret (o, m') ->
  once m' (match o with Some a => HCan a | None => Fin end :: rest).
Proof.
  intros Hg Hg' Ho Hm. unfold match_locked in Hm.
  destruct (search_list m _ (does_response_match_waiter r) Hg)
    as [[Htf _]|(a & w & e & l1 & l2 & Htf & Hl & Hw & He & Ht)]; rewrite Htf in Hm; run_in Hm.
  - injection Hm as <- <-. apply (frame_once (HMatch r) Fin m m); try done; intros b; cbn; lia.
  - cbn [e_awaiter e_async set_async] in Hm. rewrite Hw in Hm. injection Hm as <- <-.
    destruct (remove_entry l1 l2 a) as [Hwt _]. rewrite <- Hl in Hwt.
    assert (Hwa : wait_of (wait_list m) a <= 1) by (apply (gd_at _ _ Hg a)).
    assert (Hpe : forall b, pend_of (<[a := mk_awaiter (mk_async GCIP_MAILBOX_STATUS_OK (Some r))
      (timeout_work w) (refs w)]> (awaiters m)) b = pend_of (awaiters m) b).
    { intros b. rewrite pend_insert. destruct (Z.eqb_spec a b) as [<-|]; [|done].
      unfold pend_of. by rewrite Hw. }
    eapply (once_step none m _ (HMatch r) (HCan a)); try done; proj; try done; try lia.
    + intros b s (w' & e' & Hw' & He' & Hs). right. revert Hw'. proj. intros Hw'.
      apply lookup_insert_Some in Hw' as [[<- <-]|[_ Hw']]; [|by exists w', e'].
      injection He' as <-. exists w, e. split_and!; try done. rewrite <- Hs. symmetry. by apply match_same_seq.
    + intros b. rewrite (Hwt b). cbn. lia.
    + intros b. cbn. lia.
    + intros b. cbn. lia.
    + intros b. rewrite Hpe. apply (oa_timer _ _ _ (on_at _ _ Ho b)).
    + intros b Hb. rewrite Hpe. pose proof (oa_wait _ _ _ (on_at _ _ Ho b)). pose proof (Hwt b).
      cbn [tot] in *. destruct (a =? b); cbn in *; lia.
    + intros b Hb. pose proof (oa_sync _ _ _ (on_at _ _ Ho b)). pose proof (Hwt b).
      pose proof (wait_of_nonneg (l1 ++ l2) b). cbn [tot] in *. destruct (a =? b); cbn in *; lia.
Qed.

(** A call of [put] on an awaiter excludes everything else about it. *)
Lemma put_alone m p rest a :
  good m (p :: rest) -> once m (p :: rest) -> 1 <= nput p a ->
  tot (fun q => hput q a) rest + tot (fun q => htmo q a) rest + tot (fun q => hoth q a) rest = 0 /\
  queued a (log m) = 0 /\ wait_of (wait_list m) a = 0 /\
  tot (fun q => nqueue q a) rest = 0 /\ tot (fun q => nput q a) rest = 0.
Proof.
  intros Hg Ho Hp. destruct (gd_at _ _ Hg a) as [_ Hf Hpu _ _ _ _ _].
  pose proof (oa_put _ _ _ (on_at _ _ Ho a)). pose proof (oa_new _ _ _ (on_at _ _ Ho a)).
  pose proof (tot_bounds rest a). pose proof (tot_bounds2 rest a). pose proof (pc_bounds p a).
  pose proof (in_range (client m) a). cbn [tot] in *. lia.
Qed.

Lemma new_once x cmd r flags m rest :
  good m (PNew x cmd r flags :: rest) -> once m (PNew x cmd r flags :: rest) ->
  step_keeps (next (PNew x cmd r flags) m) rest -> x_awaiter x = true ->
  match next (PNew x cmd r flags) m with Ret r => once r.2 (r.1 :: rest) | _ => True end.
Proof.
  intros Hg Ho Hk Hx. cbn in Hk |- *. rewrite Hx in *. cbn in Hk |- *. set (a := fresh_addr m) in *.
  pose proof (Forall_inv (on_num _ _ Ho)) as Hpl. cbn in Hpl.
  destruct Hpl as [Hs Ht]. rewrite Ht in *.
  destruct (gd_fresh _ _ Hg a ltac:(unfold a; lia)) as [Hra _].
  destruct (gd_at _ _ Hg a) as [Hr _ _ _ _ _ _ _]. rewrite Hra in Hr.
  pose proof (tot_bounds rest a). pose proof (wait_of_nonneg (wait_list m) a).
  pose proof (in_range (client m) a). pose proof (pend_range (awaiters m) a). cbn [tot] in Hr.
  cbn [hput htmo hoth] in Hr.
  assert (Hpe : forall b, pend_of (<[a := mk_awaiter (mk_async GCIP_MAILBOX_STATUS_OK (Some r)) Pending 2]>
    (awaiters m)) b = if a =? b then 1 else pend_of (awaiters m) b).
  { intros b. rewrite pend_insert. cbn. by rewrite is_pending. }
  assert (Hq0 : queued a (log m) = 0) by (apply (oa_fresh _ _ _ (on_at _ _ Ho a)); unfold a; lia).
  eapply (once_step (eq a) m _ _ _ rest Hg Hk Ho); proj; try done; try lia.
  - intros b s (w' & e' & Hw' & He' & Hse). revert Hw'. proj. intros Hw'.
    apply lookup_insert_Some in Hw' as [[Hab _]|[_ Hw']]; [by left|right; by exists w', e'].
  - intros b <-. lia.
  - intros b. cbn. lia.
  - intros b. cbn. destruct (Z.eqb_spec a b) as [<-|]; cbn; [by right|lia].
  - intros b Hb. change (pend_of (<[a:=mk_awaiter (mk_async GCIP_MAILBOX_STATUS_OK (Some r)) Pending 2]>
      (awaiters m)) b = 1). rewrite Hpe. pose proof (oa_timer _ _ _ (on_at _ _ Ho b)). cbn [tot nqueue] in *.
    destruct (a =? b); cbn in *; [done|lia].
  - intros b Hb. change (1 <= pend_of (<[a:=mk_awaiter (mk_async GCIP_MAILBOX_STATUS_OK (Some r)) Pending 2]>
      (awaiters m)) b + 0 + tot (fun q => ntrd q b) rest). rewrite Hpe.
    pose proof (oa_wait _ _ _ (on_at _ _ Ho b) Hb). pose proof (tot_bounds2 rest b). cbn [tot ntrd] in *.
    destruct (a =? b); lia.
  - intros b. cbn. lia.
  - intros b. apply (oa_sync _ _ _ (on_at _ _ Ho b)).
Qed.

Lemma prep_once x cmd a flags m m' p' rest :
  good m (PPrep x cmd a flags :: rest) -> once m (PPrep x cmd a flags :: rest) ->
  cur_seq m < 2 ^ 64 -> good m' (p' :: rest) ->
  next (PPrep x cmd a flags) m = Ret (p', m') -> once m' (p' :: rest).
Proof.
  intros Hg Ho Hlt Hg' Hn. cbn in Hn. unfold prepare_resp, async_of in Hn.
  destruct (mine m _ rest a Hg) as (w & e & Hw & He); [cbn; rewrite Z.eqb_refl; cbn; lia|].
  rewrite Hw in Hn. run_in Hn. rewrite He in Hn. cbn in Hn. rewrite Hw in Hn.
  destruct (Forall_inv (on_num _ _ Ho)) as [Hseq Hpl]. pose proof (on_seq _ _ Ho).
  destruct (put_alone m _ rest a Hg Ho) as (Hh & Hq0 & Hw0 & _ & _); [cbn; rewrite Z.eqb_refl; cbn; lia|].
  set (x' := mk_async GCIP_MAILBOX_STATUS_WAITING_RESPONSE
               (Some (set_resp_elem_seq e (get_cmd_elem_seq cmd)))) in *.
  set (m1 := put_awaiter m a (mk_awaiter x' (timeout_work w) (refs w))) in *.
  assert (Hpe : forall b, pend_of (awaiters m1) b = pend_of (awaiters m) b).
  { intros b. unfold m1. proj. rewrite pend_insert. destruct (Z.eqb_spec a b) as [<-|]; [|done].
    unfold pend_of. by rewrite Hw. }
  assert (Hm' : m' = m1) by (destruct (x_elem x); [destruct (x_before x =? 0)|]; by injection Hn).
  assert (Hp' : (exists ret, p' = PErr a ret) \/ p' = PRef x cmd a flags).
  { destruct (x_elem x); [destruct (x_before x =? 0)|]; cbn in Hn; injection Hn as <- _; eauto. }
  subst m'. assert (Hs1 : seq_at m1 a (cur_seq m1)).
  { eexists _, _. unfold m1. proj. rewrite lookup_insert_eq. split_and!; [done|done|].
    rewrite get_set_resp; lia. }
  assert (Hb : forall b, nput p' b = ind (a =? b) /\ ncb p' b = 0 /\ ntmo p' b = 0 /\
    nqueue p' b <= ind (a =? b) /\ ntrd p' b = 0 /\ nsync p' b = 0 /\ nfirst p' b = ind (a =? b)).
  { intros b. destruct Hp' as [[ret ->]| ->]; cbn; destruct (a =? b); cbn; lia. }
  apply (once_step (eq a) m m1 _ _ rest Hg Hg' Ho); try done; try lia; try exact (Z.le_refl _).
  - intros b s (w' & e' & Hw' & He' & Hse). revert Hw'. unfold m1. proj. intros Hw'.
    apply lookup_insert_Some in Hw' as [[Hab _]|[_ Hw']]; [by left|right; by exists w', e'].
  - intros b <-. lia.
  - destruct Hp' as [[ret ->]| ->]; [done|]. cbn. done.
  - destruct Hp' as [[ret ->]| ->]; cbn; done.
  - by left.
  - intros b. pose proof (Hb b). cbn [wait_list log m1 ncb]. unfold m1. proj. lia.
  - intros b. pose proof (Hb b). cbn. lia.
  - intros b. pose proof (Hb b). cbn. lia.
  - intros b. rewrite Hpe. pose proof (oa_timer _ _ _ (on_at _ _ Ho b)). pose proof (Hb b).
    cbn [tot nqueue] in *. lia.
  - intros b Hw1. rewrite Hpe. pose proof (oa_wait _ _ _ (on_at _ _ Ho b) Hw1). pose proof (Hb b).
    cbn [tot ntrd] in *. lia.
  - intros b. pose proof (Hb b). cbn. lia.
  - intros b. pose proof (oa_sync _ _ _ (on_at _ _ Ho b)). pose proof (Hb b). cbn [tot nsync] in *.
    unfold m1. proj. intros. lia.
Qed.

(** The function in the lock is alone in it. *)
Lemma alone_in_lock m p rest :
  good m (p :: rest) -> nlock p = 1 -> tot nsub rest = 0.
Proof.
  intros Hg Hp. pose proof (gd_lock _ _ Hg) as Hl. cbn [tot] in Hl.
  pose proof (nsub_bounds rest). destruct (tx_locked m); cbn in Hl; lia.
Qed.

Lemma add_once x cmd a flags m m' p' rest :
  good m (PAdd x cmd a flags :: rest) -> once m (PAdd x cmd a flags :: rest) ->
  good m' (p' :: rest) -> next (PAdd x cmd a flags) m = Ret (p', m') -> once m' (p' :: rest).
Proof.
  intros Hg Ho Hg' Hn. cbn in Hn. injection Hn as <- <-. pose proof Ho as [].
  destruct (Forall_inv on_num0) as [Hsa Hpl].
  destruct (put_alone m _ rest a Hg Ho) as (Hh & Hq0 & Hw0 & Hnq & Hnp);
    [cbn; rewrite Z.eqb_refl; cbn; lia|].
  pose proof (alone_in_lock m _ rest Hg eq_refl) as Hsub.
  assert (Hfr : a < fresh_addr m).
  { destruct (Z.lt_ge_cases a (fresh_addr m)) as [|Hge]; [done|].
    destruct (gd_fresh _ _ Hg a Hge) as [Hnone _]. destruct Hsa as (w & e & Hw & _).
    unfold refs_of in Hnone. by rewrite Hw in Hnone. }
  assert (Hpa : pend_of (awaiters m) a = 1).
  { apply (oa_timer _ _ _ (on_at0 a)). cbn [tot nqueue]. rewrite Z.eqb_refl, Hnq. done. }
  assert (Hq : forall b, queued b (log m ++ [EvQueued a]) = if a =? b then 1 else queued b (log m)).
  { intros b. rewrite queued_app. destruct (Z.eqb_spec a b) as [->|];
      [by rewrite bool_decide_true|rewrite bool_decide_false; [done|congruence]]. }
  split; proj; try done.
  - intros b. destruct (on_at0 b) as [O1 O2 O3 O4 O5 O6 O7 O8].
    pose proof (tot_bounds rest b). pose proof (tot_bounds2 rest b).
    pose proof (resolutions_nonneg b (log m)).
    assert (Hwt : wait_of (wait_list m ++ [mk_elem (AsyncOf a) (Some a)]) b =
      wait_of (wait_list m) b + ind (a =? b)).
    { rewrite wait_of_app. cbn. rewrite ind_elem. lia. }
    pose proof (in_union (client m) a b).
    split; proj; rewrite ?Hwt, ?Hq, ?resolutions_app; cbn [tot ncb ntmo nput nqueue ntrd nfirst nsync resolves] in *;
      destruct (Z.eqb_spec a b) as [<-|]; cbn [ind] in *; try lia.
  - constructor; [done|]. eapply (rest_numbered none m _ (PAdd x cmd a flags)); try done; [|by left].
    intros b s Hs. by right.
  - intros b s Hs. rewrite Hq. intros Hqb. cbn [tot nsub]. destruct (Z.eqb_spec a b) as [<-|].
    + rewrite (seq_at_fun m a s (cur_seq m) Hs Hsa). lia.
    + pose proof (on_below0 b s Hs Hqb). cbn [tot nsub] in *. lia.
  - intros b c s Hb Hc. rewrite !Hq.
    assert (Hno : forall d, d <> a -> seq_at m d s -> queued d (log m) = 1 -> seq_at m a s -> False).
    { intros d Hd Hsd Hqd Hsa'. pose proof (on_below0 d s Hsd Hqd) as Hlt.
      rewrite (seq_at_fun m a s (cur_seq m) Hsa' Hsa) in Hlt. cbn [tot nsub] in Hlt. lia. }
    destruct (Z.eqb_spec a b) as [<-|]; destruct (Z.eqb_spec a c) as [<-|]; intros Hqb Hqc; try done.
    + exfalso. by apply (Hno c).
    + exfalso. by apply (Hno b).
    + by apply (on_distinct0 b c s).
Qed.

Lemma submit_once x cmd a flags m m' p' rest :
  good m (PSub x cmd a flags :: rest) -> once m (PSub x cmd a flags :: rest) ->
  cur_seq m < 2 ^ 64 - 1 -> good m' (p' :: rest) ->
  next (PSub x cmd a flags) m = Ret (p', m') -> once m' (p' :: rest).
Proof.
  intros Hg Ho Hlt Hg' Hn. cbn in Hn. unfold submit_cmd in Hn.
  pose proof (Forall_inv (on_num _ _ Ho)) as [Hpl _]. pose proof (Forall_inv (gd_ok _ _ Hg)) as Hx.
  cbn in Hpl, Hx. destruct (tx_queue m !! _); [|done]. run_in Hn. rewrite Hx in Hn. cbn in Hn.
  rewrite (on_mode _ _ Ho), Hpl in Hn. cbn in Hn. injection Hn as <- <-.
  pose proof (on_seq _ _ Ho).
  eapply (once_step none m _ (PSub x cmd a flags) (PUnl a)); try done; proj; try done; try lia.
  - intros b s Hs. by right.
  - rewrite wrap_id by lia. cbn. lia.
  - by right.
  - rewrite wrap_id by lia. lia.
  - intros b. cbn. lia.
  - intros b. cbn. lia.
  - intros b. pose proof (oa_timer _ _ _ (on_at _ _ Ho b)) as Ht. exact Ht.
  - intros b. pose proof (oa_wait _ _ _ (on_at _ _ Ho b)) as Ht. cbn [tot ntrd] in *. lia.
  - intros b. apply (oa_sync _ _ _ (on_at _ _ Ho b)).
Qed.

Lemma on_inv {B} (o : outcome (B * mailbox)) (f : B -> pc) p' m' :
  on o f = Ret (p', m') -> exists b, o = Ret (b, m') /\ p' = f b.
Proof. destruct o as [[b m1]| |]; cbn; [|done..]. intros [= <- <-]. by exists b. Qed.

Ltac pw := intros ?b; cbn; repeat match goal with |- context [?x =? ?y] => destruct (x =? y) end;
  cbn; lia.

(** Where the timer may be stopped nothing waits for it. *)
Lemma told_not_waiting m p rest a :
  good m (p :: rest) -> once m (p :: rest) -> 1 <= ncb p a ->
  wait_of (wait_list m) a = 0 /\ tot (fun q => nqueue q a) (p :: rest) = 0.
Proof.
  intros Hg Ho Hn. destruct (on_at _ _ Ho a) as [O1 O2 O3 O4 O5 O6 O7 O8].
  pose proof (tot_bounds (p :: rest) a). pose proof (tot_bounds2 (p :: rest) a).
  pose proof (tot_bounds2 rest a).
  pose proof (resolutions_nonneg a (log m)). pose proof (queued_range a (log m)).
  pose proof (wait_of_nonneg (wait_list m) a). cbn [tot] in *. lia.
Qed.

Lemma put_next_once p m m' p' rest :
  good m (p :: rest) -> once m (p :: rest) -> cur_seq m < 2 ^ 64 - 1 -> good m' (p' :: rest) ->
  next p m = Ret (p', m') ->
  match p with
  | PNew _ _ _ _ | PLock _ _ _ _ | PNum _ _ _ _ | PPrep _ _ _ _ | PRef _ _ _ _ | PAdd _ _ _ _
  | PSub _ _ _ _ | PUnl _ | PErr _ _ | PCan _ _ | PDec _ _ | PFree _ _ => once m' (p' :: rest)
  | _ => True
  end.
Proof.
  intros Hg Ho Hlt Hg' Hn. pose proof (Forall_inv (on_num _ _ Ho)) as Hnum. destruct p; try done.
  - pose proof (next_good _ _ _ Hg) as Hk. destruct (x_awaiter x) eqn:Ex.
    + pose proof (new_once x cmd r flags m rest Hg Ho Hk Ex) as H. by rewrite Hn in H.
    + cbn in Hn. by rewrite Ex in Hn.
  - apply on_inv in Hn as (b & Hl & ->). unfold acquire_tx_queue_lock in Hl.
    destruct (tx_locked m); [done|]. injection Hl as _ <-.
    eapply (frame_once (PLock x cmd a flags)); try done; pw.
  - cbn in Hn. destruct Hnum as [Hsk Hto]. rewrite (on_mode _ _ Ho), Hsk in Hn.
    pose proof (on_seq _ _ Ho). cbn in Hn. destruct (x_wait x =? 0); injection Hn as <- <-.
    + eapply (frame_once (PNum x cmd a flags)); try done; try pw.
      cbn. split; [|done]. apply get_set_cmd. lia.
    + eapply (frame_once (PNum x cmd a flags)); try done; pw.
  - eapply prep_once; try done. lia.
  - apply on_inv in Hn as (b & Hl & ->). unfold refcount_inc in Hl.
    destruct (awaiters m !! a) as [w|] eqn:Hw; [|done]. cbn in Hl. injection Hl as _ <-.
    assert (Hkeep : forall c s, seq_at m c s <-> seq_at (put_awaiter m a
      (mk_awaiter (async w) (timeout_work w) (refs w + 1))) c s).
    { intros c s. unfold seq_at. proj. destruct (Z.eq_dec a c) as [<-|].
      - rewrite Hw, lookup_insert_eq. split; intros (w' & e' & [= <-] & He' & Hs); by eexists _, e'.
      - by rewrite lookup_insert_ne. }
    eapply (once_calm m _ (PRef x cmd a flags)); try done; try pw.
    + intros c s Hs. right. by apply Hkeep.
    + intros c. left. proj. rewrite pend_insert. destruct (Z.eqb_spec a c) as [<-|]; [|done].
      unfold pend_of. by rewrite Hw.
    + destruct Hnum as [Hs Hp]. split; [|done]. by apply Hkeep.
  - by eapply add_once.
  - by eapply submit_once.
  - cbn in Hn. injection Hn as <- <-. eapply (frame_once (PUnl a)); try done; pw.
  - cbn in Hn. injection Hn as <- <-. eapply (frame_once (PErr a ret)); try done; pw.
  - apply on_inv in Hn as (b & Hl & ->).
    destruct (put_alone m _ rest a Hg Ho) as (Hh & Hq0 & Hw0 & Hnq & Hnp);
      [cbn; rewrite Z.eqb_refl; cbn; lia|].
    eapply (cancel_once (PCan a ret) _ m m' rest a b); try done; try (by right); destruct b; try done; pw.
  - apply on_inv in Hn as (b & Hl & ->). destruct b. eapply (dec_once (PDec a ret)); try done; pw.
  - apply on_inv in Hn as (b & Hl & ->). unfold free_awaiter in Hl.
    destruct (awaiters m !! a) as [w|] eqn:Hw; [|done]. cbn in Hl. injection Hl as _ <-.
    eapply (once_calm m _ (PFree a ret)); try done; try pw.
    + intros c s (w' & e' & Hw' & He' & Hs). right. revert Hw'. proj. intros Hw'.
      apply lookup_delete_Some in Hw' as [_ Hw']. by exists w', e'.
    + intros c. proj. rewrite pend_delete, refs_delete. destruct (a =? c); auto.
Qed.

(** The driver is told. *)
Lemma told_once p p' m m' rest a ev :
  good m (p :: rest) -> good m' (p' :: rest) -> once m (p :: rest) ->
  awaiters m' = awaiters m -> wait_list m' = wait_list m -> cur_seq m' = cur_seq m ->
  mode m' = mode m -> fresh_addr m' = fresh_addr m -> log m' = log m ++ [ev] ->
  (forall b, ev <> EvQueued b) -> (forall b, resolves b ev = (b =? a)) ->
  (forall b, ncb p b = ncb p' b + ind (a =? b) /\ ntmo p' b <= ntmo p b /\ nput p' b <= nput p b /\
     nqueue p' b <= nqueue p b /\ ntrd p b <= ntrd p' b /\ nsync p' b <= nsync p b) ->
  (forall b, in_of (client m') b + nfirst p' b - nput p' b <=
             in_of (client m) b + nfirst p b - nput p b) ->
  nsub p' = nsub p -> numbered m' p' -> once m' (p' :: rest).
Proof.
  intros Hg Hg' Ho Ha Hw Hs Hm Hf Hl Hq Hr Hn Hc Hsub Hnum.
  eapply (frame_once p p' m m'); try done.
  - intros b. rewrite Hl, queued_app, bool_decide_false; [done|apply Hq].
  - intros b. rewrite Hl, resolutions_app, Hr, (Z.eqb_sym b a). pose proof (Hn b). lia.
  - intros b. pose proof (Hn b). tauto.
Qed.

Lemma other_next_once p m m' p' rest :
  good m (p :: rest) -> once m (p :: rest) -> good m' (p' :: rest) -> next p m = Ret (p', m') ->
  match p with
  | HMatch _ | HCan _ | HDec _ | HCall _ | HPut _ | TRead _ | TDel _ _ | TCall _ | TPut _ | TDone _ =>
    once m' (p' :: rest)
  | _ => True
  end.
Proof.
  intros Hg Ho Hg' Hn. pose proof (Forall_inv (on_num _ _ Ho)) as Hnum.
  destruct handlers as (Ha & Ht & Hf). destruct p; try done.
  - apply on_inv in Hn as (o & Hm & ->). by apply (match_once m m' rest r).
  - apply on_inv in Hn as (b & Hc & ->).
    eapply (cancel_once (HCan a) _ m m' rest a b); try done; try (by left); try (destruct b; done || pw).
    apply told_not_waiting; try done. cbn. rewrite Z.eqb_refl. cbn. lia.
  - apply on_inv in Hn as (b & Hd & ->). destruct b. eapply (dec_once (HDec a)); try done; pw.
  - apply on_inv in Hn as (b & Hc & ->). unfold call_handler in Hc. rewrite Ha in Hc.
    destruct (must _); cbn in Hc; [|done..]. injection Hc as _ <-.
    eapply (told_once (HCall a)); try done; pw.
  - apply on_inv in Hn as (b & Hd & ->). destruct b. eapply (dec_once (HPut a)); try done; pw.
  - apply on_inv in Hn as (b & Hc & ->). unfold read_seq, resp_of, async_of in Hc.
    destruct (awaiters m !! a) as [w|] eqn:Hw; [|done]. run_in Hc.
    destruct (resp (async w)) as [e|] eqn:He; [|done]. cbn in Hc. injection Hc as <- <-.
    eapply (frame_once (TRead a)); try done; try pw. by exists w, e.
  - apply on_inv in Hn as (b & Hd & ->). cbn in Hnum.
    assert (Hq : queued a (log m) = 1).
    { pose proof (oa_new _ _ _ (on_at _ _ Ho a)) as H0. pose proof (queued_range a (log m)).
      pose proof (tot_bounds rest a). cbn [tot ntmo] in H0. rewrite Z.eqb_refl in H0. cbn in H0. lia. }
    eapply (del_once (TDel a seq) _ m m' rest a seq b); try done; destruct b; try done; pw.
  - apply on_inv in Hn as (b & Hc & ->). unfold call_handler in Hc. rewrite Ht in Hc.
    destruct (must _); cbn in Hc; [|done..]. injection Hc as _ <-.
    eapply (told_once (TCall a)); try done; pw.
  - apply on_inv in Hn as (b & Hd & ->). destruct b. eapply (dec_once (TPut a)); try done; pw.
  - cbn in Hn. injection Hn as <- <-. eapply (frame_once (TDone a)); try done; pw.
Qed.

Lemma flush_pc_counts l b :
  ncb (flush_pc l : pc) b = count_in l b /\ ntrd (flush_pc l : pc) b = 0 /\
  nqueue (flush_pc l : pc) b = 0 /\ nsync (flush_pc l : pc) b = 0 /\ nsub (flush_pc l : pc) = 0.
Proof. by destruct l. Qed.

Lemma driver_next_once p m m' p' rest :
  good m (p :: rest) -> once m (p :: rest) -> good m' (p' :: rest) -> next p m = Ret (p', m') ->
  match p with
  | CRead _ | CDel _ _ | CSync _ _ | CDec _ _ | CBack _ _ | RPut _ | FSync _ _ | FDec _ _
  | FCall _ _ => once m' (p' :: rest)
  | _ => True
  end.
Proof.
  intros Hg Ho Hg' Hn. pose proof (Forall_inv (on_num _ _ Ho)) as Hnum.
  destruct handlers as (Ha & Ht & Hf). destruct p; try done.
  - apply on_inv in Hn as (b & Hc & ->). unfold read_seq, resp_of, async_of in Hc.
    destruct (awaiters m !! a) as [w|] eqn:Hw; [|done]. run_in Hc.
    destruct (resp (async w)) as [e|] eqn:He; [|done]. cbn in Hc. injection Hc as <- <-.
    eapply (frame_once (CRead a)); try done; try pw. by exists w, e.
  - apply on_inv in Hn as (b & Hd & ->). cbn in Hnum.
    assert (Hq : queued a (log m) = 1).
    { apply (oa_held _ _ _ (on_at _ _ Ho a)). pose proof (tot_bounds rest a).
      pose proof (in_range (client m) a). cbn [tot nfirst nput]. rewrite Z.eqb_refl. cbn. lia. }
    eapply (del_once (CDel a seq) _ m m' rest a seq b); try done; destruct b; try done; pw.
  - apply on_inv in Hn as (b & Hc & ->).
    eapply (cancel_once (CSync a o) _ m m' rest a b); try done; try (by right);
      try (destruct b; done || (intros c; cbn; destruct o as [[]|]; destruct (a =? c); cbn; lia)).
    split.
    + apply (oa_sync _ _ _ (on_at _ _ Ho a)). pose proof (tot_bounds2 rest a). cbn [tot nsync].
      rewrite Z.eqb_refl. cbn. lia.
    + pose proof (ga_put _ _ _ _ _ _ (gd_at _ _ Hg a)) as Hp. pose proof (tot_bounds rest a).
      pose proof (tot_bounds2 rest a). cbn [tot nput hoth nqueue] in *. rewrite Z.eqb_refl in Hp.
      cbn in Hp. lia.
  - apply on_inv in Hn as (b & Hd & ->). destruct b.
    by eapply (dec_once (CDec a o)).
  - cbn in Hn. injection Hn as <- <-.
    assert (Hin : forall b, in_of ({[ a ]} ∪ client m) b + 0 - 0 <= in_of (client m) b + ind (a =? b) - 0).
    { intros b. rewrite in_union. pose proof (in_range (client m) b). destruct (a =? b); cbn; lia. }
    destruct o as [[]|].
    + eapply (told_once (CBack a (Some true)) Fin m _ rest a (EvCancelled a true)); try done; try pw.
    + eapply (frame_once (CBack a (Some false))); try done; try pw.
      * intros b. proj. rewrite queued_app, bool_decide_false; done.
      * intros b. proj. rewrite resolutions_app. cbn. lia.
    + eapply (frame_once (CBack a None)); try done; pw.
  - apply on_inv in Hn as (b & Hd & ->). destruct b. eapply (dec_once (RPut a)); try done; pw.
  - apply on_inv in Hn as (b & Hc & ->).
    eapply (cancel_once (FSync a l) _ m m' rest a b); try done; try (by right); try (destruct b; done || pw).
    apply told_not_waiting; try done. cbn. rewrite Z.eqb_refl. pose proof (count_in_nonneg l a). cbn. lia.
  - apply on_inv in Hn as (b & Hd & ->). destruct b. eapply (dec_once (FDec a l)); try done; pw.
  - cbn in Hn. rewrite Hf in Hn. destruct (must _); cbn in Hn; [|done..]. injection Hn as <- <-.
    pose proof (flush_pc_counts l) as Hfl. pose proof (@flush_pc_holds C R l) as Hfh.
    eapply (told_once (FCall a l) (flush_pc l) m _ rest a (EvFlushed a)); try done.
    + intros b. pose proof (Hfl b). pose proof (Hfh b). cbn. destruct (a =? b); cbn; lia.
    + intros b. pose proof (Hfl b). pose proof (Hfh b). proj. rewrite in_union.
      pose proof (in_range (client m) b). cbn. destruct (a =? b); cbn; lia.
    + by destruct l.
    + by destruct l.
Qed.

Lemma next_once p m m' p' rest :
  good m (p :: rest) -> once m (p :: rest) -> cur_seq m < 2 ^ 64 - 1 ->
  next p m = Ret (p', m') -> once m' (p' :: rest).
Proof.
  intros Hg Ho Hlt Hn. pose proof (next_good p m rest Hg) as Hg'. rewrite Hn in Hg'. cbn in Hg'.
  pose proof (put_next_once p m m' p' rest Hg Ho Hlt Hg' Hn).
  pose proof (other_next_once p m m' p' rest Hg Ho Hg' Hn).
  pose proof (driver_next_once p m m' p' rest Hg Ho Hg' Hn).
  destruct p; try assumption. done.
Qed.
End once.
