(* ===== verification/GcipLive.v ===== *)
(** Runs of the mailbox under the discipline: each queued command is resolved at most once,
    every run of timers and functions ends, and at the end nothing waits and nothing has
    leaked. *)

From stdpp Require Import gmap.
From S2P Require Import Prelude GcipQueue GcipStream GcipMailbox GcipAwait GcipSafe GcipOnce.

Section live.
Context {C R : Set} `{!MailboxElems C R, !MailboxLaws C R}.

#[local] Abbreviation mailbox := (@gcip_mailbox C R).
#[local] Abbreviation pc := (@pc C R).
#[local] Abbreviation config := (@config C R).

Definition inv2 (c : config) : Prop :=
  exists ps, pool c = code <$> ps /\ good (mbox c) ps /\ once (mbox c) ps.

(** ** New functions *)

Lemma once_fin (m : mailbox) (ps : list pc) : once m ps -> once m (Fin :: ps).
Proof.
  intros [Hat Hnum Hbe Hdi Hmo Hse]. split; try done.
  - intros b. destruct (Hat b).
    split; cbn [tot ncb ntmo nput nqueue ntrd nfirst nsync]; rewrite ?Z.add_0_l; done.
  - by constructor.
Qed.

Lemma good_fin (m : mailbox) (ps : list pc) : good m ps -> good m (Fin :: ps).
Proof. intros Hg. by apply fresh_good. Qed.

Lemma spawn_inv2 m ps p c :
  good m (p :: ps) -> once m (p :: ps) -> pool c = code <$> ps ->
  inv2 (mk_config m (pool c ++ [code p])).
Proof.
  intros Hg Ho Hc. exists (ps ++ [p]). cbn. rewrite Hc, fmap_app. split; [done|].
  assert (p :: ps ≡ₚ ps ++ [p]) as Hp by (by rewrite <- Permutation_cons_append).
  split; [by eapply good_perm|by eapply once_perm].
Qed.

Ltac pw := intros ?b; cbn; repeat match goal with |- context [?x =? ?y] => destruct (x =? y) end;
  cbn; lia.

Lemma in_of_borrow (s : gset Z) a b : a ∈ s -> in_of (s ∖ {[ a ]}) b + ind (a =? b) = in_of s b.
Proof.
  intros Hin. rewrite in_difference. destruct (Z.eqb_spec a b) as [<-|]; cbn; [|lia].
  unfold in_of. by rewrite bool_decide_true.
Qed.

(** A call with a reference of the driver. *)
Lemma borrow_once m ps a p :
  good m ps -> once m ps -> a ∈ client m -> good (set_client m (client m ∖ {[ a ]})) (p :: ps) ->
  (forall b, ncb p b = 0 /\ ntmo p b = 0 /\ nput p b = 0 /\ nqueue p b = 0 /\
     nfirst p b = ind (a =? b)) ->
  (forall b, 1 <= nsync p b -> wait_of (wait_list m) b = 0) ->
  nsub p = 0 -> numbered m p -> once (set_client m (client m ∖ {[ a ]})) (p :: ps).
Proof.
  intros Hg Ho Hin Hg' Hn Hsy Hsub Hnum.
  eapply (once_step none m _ Fin p ps (good_fin _ _ Hg) Hg' (once_fin _ _ Ho)); proj; try done; try lia.
  - intros b s Hs. by right.
  - rewrite Hsub. done.
  - intros b. destruct (Hn b) as (-> & _). done.
  - intros b. destruct (Hn b) as (_ & -> & _). cbn. lia.
  - intros b. destruct (Hn b) as (_ & _ & -> & _). cbn. lia.
  - intros b. destruct (Hn b) as (_ & _ & _ & -> & _). apply (oa_timer _ _ _ (on_at _ _ Ho b)).
  - intros b Hb. pose proof (oa_wait _ _ _ (on_at _ _ Ho b) Hb). pose proof (pc_bounds2 p b). lia.
  - intros b. destruct (Hn b) as (_ & _ & -> & _ & ->). pose proof (in_of_borrow (client m) a b Hin).
    cbn. lia.
  - intros b Hb. pose proof (oa_sync _ _ _ (on_at _ _ Ho b)). pose proof (Hsy b).
    pose proof (tot_bounds2 ps b). lia.
Qed.

Lemma fire_once m ps a w :
  good m ps -> once m ps -> awaiters m !! a = Some w -> timeout_work w = Pending ->
  queued a (log m) = 1 ->
  once (set_running (put_awaiter m a (mk_awaiter (async w) NoWork (refs w))) ({[ a ]} ∪ running m))
    (TRead a :: ps).
Proof.
  intros Hg Ho Hw Hp Hq. pose proof (fire_good m ps a w Hg Hw Hp) as Hg'.
  assert (Hpe : forall b, pend_of (<[a := mk_awaiter (async w) NoWork (refs w)]> (awaiters m)) b =
    if a =? b then 0 else pend_of (awaiters m) b).
  { intros b. rewrite pend_insert. cbn. by rewrite no_pending. }
  eapply (once_step none m _ Fin (TRead a) ps (good_fin _ _ Hg) Hg' (once_fin _ _ Ho)); proj;
    try done; try lia.
  - intros b s (w' & e' & Hw' & He' & Hs). right. revert Hw'. proj. intros Hw'.
    apply lookup_insert_Some in Hw' as [[<- <-]|[_ Hw']]; [by exists w, e'|by exists w', e'].
  - intros b. cbn. destruct (Z.eqb_spec a b) as [<-|]; cbn; [by right|lia].
  - intros b. cbn. lia.
  - intros b Hb. rewrite Hpe. pose proof (oa_timer _ _ _ (on_at _ _ Ho b)).
    pose proof (oa_put _ _ _ (on_at _ _ Ho b)). pose proof (tot_bounds2 ps b). cbn [nqueue] in Hb.
    destruct (Z.eqb_spec a b) as [<-|]; lia.
  - intros b Hb. rewrite Hpe. pose proof (oa_wait _ _ _ (on_at _ _ Ho b) Hb).
    pose proof (tot_bounds2 ps b). cbn [ntrd]. destruct (a =? b); cbn; lia.
  - intros b. apply (oa_sync _ _ _ (on_at _ _ Ho b)).
Qed.


Lemma flush_once m m' ps :
  good m ps -> once m ps ->
  (exists aw', m' = set_awaiters (set_wait m []) aw' /\
     (forall b, pend_of aw' b = pend_of (awaiters m) b) /\
     (forall a w', aw' !! a = Some w' -> exists w, awaiters m !! a = Some w /\ async w' = async w)) ->
  waiting_set m ⊆ client m ->
  good (set_client m' (client m' ∖ waiting_set m)) (flush_pc (omap e_awaiter (wait_list m)) :: ps) ->
  once (set_client m' (client m' ∖ waiting_set m)) (flush_pc (omap e_awaiter (wait_list m)) :: ps).
Proof.
  intros Hg Ho (aw' & -> & Hpe & Has) Hsub Hg'.
  set (l := omap e_awaiter (wait_list m)) in *.
  pose proof (@flush_pc_counts C R l) as Hfl. pose proof (@flush_pc_holds C R l) as Hfh.
  assert (Hcnt : forall b, count_in l b = wait_of (wait_list m) b)
    by (intros b; apply count_awaiters, (gd_wait _ _ Hg)).
  eapply (once_step none m _ Fin (flush_pc l) ps (good_fin _ _ Hg) Hg' (once_fin _ _ Ho)); proj;
    try done; try lia.
  - intros b s (w' & e' & Hw' & He' & Hs). right. revert Hw'. proj. intros Hw'.
    destruct (Has b w' Hw') as (w & Hw & Ha). rewrite Ha in He'. by exists w, e'.
  - by destruct l.
  - destruct (Hfl 0) as (_ & _ & _ & _ & ->). done.
  - intros b. destruct (Hfl b) as (-> & _). rewrite Hcnt. cbn. lia.
  - intros b. destruct (Hfh b) as (_ & _ & _ & _ & -> & _). by left.
  - intros b. destruct (Hfh b) as (_ & _ & -> & _). by left.
  - intros b. destruct (Hfl b) as (_ & _ & -> & _). rewrite Hpe. apply (oa_timer _ _ _ (on_at _ _ Ho b)).
  - intros b. pose proof (Hfh b) as (_ & _ & -> & _ & _ & _ & ->). rewrite Hcnt. cbn.
    pose proof (in_of_waiting m b (gd_wait _ _ Hg)) as Hi.
    pose proof (ga_wait _ _ _ _ _ _ (gd_at _ _ Hg b)). pose proof (wait_of_nonneg (wait_list m) b).
    unfold in_of in *. destruct (decide (b ∈ waiting_set m)) as [Hb|Hb].
    + rewrite (bool_decide_false (_ ∈ _ ∖ _)) by (rewrite elem_of_difference; tauto).
      rewrite (bool_decide_true (b ∈ client m)) by (by apply Hsub). cbn. lia.
    + rewrite (bool_decide_false (b ∈ waiting_set m)) in Hi by done.
      rewrite (bool_decide_ext (b ∈ client m ∖ waiting_set m) (b ∈ client m))
        by (rewrite elem_of_difference; tauto).
      case_test_in Hi; [done|]. lia.
Qed.

(** ** Runs *)

Lemma perform_inv2 l c c' : inv2 c -> disciplined l c -> perform l c = Ret c' -> inv2 c'.
Proof.
  intros (ps & Hpool & Hg & Ho) [Hlt Hd] Hp.
  destruct l as [i|x cmd r flags|r|a|a|a|a|]; cbn [perform] in Hp; unfold guard in Hp.
  - rewrite Hpool, list_lookup_fmap in Hp. destruct (ps !! i) as [p|] eqn:Hi; [|done]. cbn in Hp.
    assert (Hperm : ps ≡ₚ p :: delete i ps) by (by apply delete_Permutation).
    pose proof (good_perm _ _ _ Hperm Hg) as Hg1. pose proof (once_perm _ _ _ Hperm Ho) as Ho1.
    rewrite step_code in Hp by exact (Forall_inv (gd_ok _ _ Hg1)).
    pose proof (next_good p (mbox c) (delete i ps) Hg1) as Hk.
    destruct (next p (mbox c)) as [[p' m']| |] eqn:Hn; cbn in *; try done. injection Hp as <-.
    pose proof (next_once p (mbox c) m' p' (delete i ps) Hg1 Ho1 Hlt Hn) as Ho2.
    exists (<[i := p']> ps). cbn. split; [by rewrite list_fmap_insert|].
    assert (Hperm2 : p' :: delete i ps ≡ₚ <[i := p']> ps).
    { symmetry. assert (Hl : (i < length ps)%nat) by (by eapply lookup_lt_Some).
      rewrite (delete_Permutation (<[i := p']> ps) i p') by (by apply list_lookup_insert_eq).
      by rewrite delete_insert_list. }
    split; [by eapply good_perm|by eapply once_perm].
  - destruct (Z.eqb_spec (x_after x) 0); [|done]. injection Hp as <-.
    assert (Hg' : good (mbox c) (PNew x cmd r flags :: ps)) by (by apply fresh_good).
    apply (spawn_inv2 _ ps (PNew x cmd r flags)); try done.
    eapply (frame_once Fin _ (mbox c) _ ps (good_fin _ _ Hg) Hg' (once_fin _ _ Ho)); try done; pw.
  - injection Hp as <-.
    assert (Hg' : good (mbox c) (HMatch r :: ps)) by (by apply fresh_good).
    apply (spawn_inv2 _ ps (HMatch r)); try done.
    eapply (frame_once Fin _ (mbox c) _ ps (good_fin _ _ Hg) Hg' (once_fin _ _ Ho)); try done; pw.
  - destruct (awaiters (mbox c) !! a) as [w|] eqn:Hw; [|done]. case_bool_decide; [|done].
    injection Hp as <-. apply (spawn_inv2 _ ps (TRead a)); [by apply fire_good| |done].
    apply fire_once; try done. by apply queued_in.
  - case_bool_decide; [|done]. injection Hp as <-.
    assert (Hg' : good (set_client (mbox c) (client (mbox c) ∖ {[ a ]})) (CRead a :: ps))
      by (by apply borrow_good).
    apply (spawn_inv2 _ ps (CRead a)); try done. apply borrow_once; try done; intros b; cbn; lia.
  - case_bool_decide; [|done]. destruct (waiting (mbox c) a) eqn:Hwt; [done|]. injection Hp as <-.
    assert (Hg' : good (set_client (mbox c) (client (mbox c) ∖ {[ a ]})) (CSync a None :: ps))
      by (by apply borrow_good).
    apply (spawn_inv2 _ ps (CSync a None)); try done. apply borrow_once; try done.
    intros b. cbn. destruct (Z.eqb_spec a b) as [<-|]; cbn; [|lia]. intros _.
    apply not_waiting; [apply (gd_wait _ _ Hg)|done].
  - case_bool_decide; [|done]. destruct (negb _); [|done]. injection Hp as <-.
    assert (Hg' : good (set_client (mbox c) (client (mbox c) ∖ {[ a ]})) (RPut a :: ps))
      by (by apply borrow_good).
    apply (spawn_inv2 _ ps (RPut a)); try done. apply borrow_once; try done; intros b; cbn; lia.
  - destruct (released (mbox c)) eqn:Er; [done|]. case_bool_decide as Hsub; [|done].
    cbn [negb andb gcip_mailbox_flush_awaiter step_prog obind fst snd] in Hp. rewrite Er in Hp.
    destruct (flush_start (mbox c) ps Hg Hsub) as (m' & Hfl & Haw & Hg').
    cbn [step_prog] in Hp. rewrite Hfl in Hp. run_in Hp. rewrite <- code_flush_pc in Hp.
    injection Hp as <-. apply (spawn_inv2 _ ps); try done. by apply flush_once.
Qed.

(** A mailbox just set up for commands with responses. *)
Record initial2 (m : mailbox) (s : Z) : Prop := {
  i2_initial : initial m s;
  i2_mode : should_maintain_seq_num (mode m) = true;
  i2_seq : cur_seq m = 0;
  i2_log : log m = [];
}.

Lemma reach_inv2 m s c : initial2 m s -> reach disciplined (mk_config m []) c -> inv2 c.
Proof.
  intros [Hi Hm Hs Hl]. induction 1 as [|l c c' Hr IH Hd Hp]; [|by eapply perform_inv2].
  destruct (initial_inv m s Hi) as (ps & Hps & Hg). destruct ps; [|done].
  exists []. split; [done|]. split; [done|]. cbn. destruct Hi. split; try done; try lia.
  - intros b. split; rewrite ?Hl, ?in_wait, ?in_client; try done.
  - intros a t Ht. rewrite Hl. done.
  - intros a b t Ha Hb. rewrite Hl. done.
Qed.
End live.
