(* ===== verification/GcipEnd.v ===== *)
(** Mailbox calls end: the functions and timers that are under way finish whatever the
    schedule, and then every command has been resolved and nothing has leaked. *)

From stdpp Require Import gmap.
From S2P Require Import Prelude GcipQueue GcipStream GcipMailbox GcipAwait GcipSafe GcipOnce GcipLive.

Section ends.
Context {C R : Set} `{!MailboxElems C R}.

#[local] Abbreviation mailbox := (@gcip_mailbox C R).
#[local] Abbreviation pc := (@pc C R).
#[local] Abbreviation config := (@config C R).

(** ** A measure *)

Definition rank (p : pc) : Z :=
  match p with
  | PNew _ _ _ _ => 17
  | PLock _ _ _ _ => 10
  | PNum _ _ _ _ => 9
  | PPrep _ _ _ _ => 8
  | PRef _ _ _ _ => 7
  | PAdd _ _ _ _ => 6
  | PSub _ _ _ _ => 5
  | PErr _ _ => 4
  | PCan _ _ => 3
  | PDec _ _ => 2
  | PUnl _ | PFree _ _ => 1
  | HMatch _ => 5 | HCan _ => 4 | HDec _ => 3 | HCall _ => 2 | HPut _ => 1
  | TRead _ => 5 | TDel _ _ => 4 | TCall _ => 3 | TPut _ => 2 | TDone _ => 1
  | CRead _ => 5 | CDel _ _ => 4 | CSync _ _ => 3 | CDec _ _ => 2 | CBack _ _ => 1
  | RPut _ => 1
  | FSync _ l => 3 + 3 * Z.of_nat (length l)
  | FDec _ l => 2 + 3 * Z.of_nat (length l)
  | FCall _ l => 1 + 3 * Z.of_nat (length l)
  | Fin => 0
  end.

(** The number of timers that can still expire. *)
Definition npend (aw : gmap Z (@resp_awaiter R)) : Z :=
  Z.of_nat (size (filter (fun kv : Z * resp_awaiter => timeout_work kv.2 = Pending) aw)).

Lemma npend_delete aw a : npend (delete a aw) = npend aw - pend_of aw a.
Proof.
  unfold npend, pend_of. rewrite map_filter_delete, map_size_delete.
  destruct (aw !! a) as [w|] eqn:Hw.
  - case_bool_decide as Hp.
    + rewrite (proj2 (map_lookup_filter_Some _ _ _ _)) by done. cbn.
      assert (size (filter (fun kv : Z * resp_awaiter => timeout_work kv.2 = Pending) aw) <> 0%nat).
      { apply map_size_non_empty_iff. intros He.
        assert (filter (fun kv : Z * resp_awaiter => timeout_work kv.2 = Pending) aw !! a = Some w)
          by (by apply map_lookup_filter_Some). rewrite He in *. done. }
      lia.
    + rewrite (proj2 (map_lookup_filter_None _ _ _)); [cbn; lia|]. right. intros x Hx Hc. cbn in Hc. congruence.
  - rewrite (proj2 (map_lookup_filter_None _ _ _)); [cbn; lia|by left].
Qed.

Lemma npend_insert aw a w :
  npend (<[a := w]> aw) = npend aw - pend_of aw a + ind (bool_decide (timeout_work w = Pending)).
Proof.
  rewrite <- insert_delete_eq, <- npend_delete. unfold npend.
  assert (Hno : filter (fun kv : Z * resp_awaiter => timeout_work kv.2 = Pending) (delete a aw) !! a = None).
  { apply map_lookup_filter_None. left. apply lookup_delete_eq. }
  case_bool_decide as Hp.
  - rewrite map_filter_insert_True by done. rewrite map_size_insert_None by done. cbn. lia.
  - rewrite map_filter_insert_not' by (done || (intros y; by rewrite lookup_delete_eq)). cbn. lia.
Qed.

Definition measure (m : mailbox) (ps : list pc) : Z := tot rank ps + 6 * npend (awaiters m).

Lemma rank_nonneg p : 0 <= rank p.
Proof. destruct p; cbn; lia. Qed.

Lemma measure_nonneg m ps : 0 <= measure m ps.
Proof.
  unfold measure, npend. assert (0 <= tot rank ps); [|lia].
  induction ps as [|p ps IH]; cbn; [lia|]. pose proof (rank_nonneg p). lia.
Qed.

(** No step starts a timer but the one that makes an awaiter. *)
Lemma dec_npend a (m m' : mailbox) x :
  gcip_mailbox_awaiter_dec_refs a m = Ret (x, m') -> npend (awaiters m') <= npend (awaiters m).
Proof.
  unfold gcip_mailbox_awaiter_dec_refs. destruct (awaiters m !! a) as [w|] eqn:Hw; [|done]. run.
  pose proof (pend_range (awaiters m) a).
  destruct (refs w - 1 =? 0); intros [= _ <-]; proj; rewrite ?npend_delete, ?npend_insert; [lia|].
  unfold pend_of. rewrite Hw. cbn. lia.
Qed.

Lemma cancel_npend a (m m' : mailbox) b :
  cancel_delayed_work a m = Ret (b, m') \/ cancel_delayed_work_sync a m = Ret (b, m') ->
  npend (awaiters m') <= npend (awaiters m).
Proof.
  intros Hc. unfold cancel_delayed_work, cancel_delayed_work_sync in Hc.
  destruct (awaiters m !! a) as [w|] eqn:Hw; [|by destruct Hc]. cbn in Hc.
  pose proof (pend_range (awaiters m) a).
  destruct (timeout_work w).
  - assert (m' = m) as ->; [|lia]. destruct Hc as [Hc|Hc]; [by injection Hc as _ <-|].
    case_decide; [done|by injection Hc as _ <-].
  - assert (m' = put_awaiter m a (mk_awaiter (async w) NoWork (refs w))) as ->
      by (destruct Hc as [Hc|Hc]; by injection Hc as _ <-).
    proj. rewrite npend_insert. cbn. rewrite no_pending. cbn. lia.
Qed.

(** An awaiter is replaced by one with the same timer. *)
Lemma same_npend aw a w w' :
  aw !! a = Some w -> timeout_work w' = timeout_work w -> npend (<[a := w']> aw) = npend aw.
Proof. intros Hw Ht. rewrite npend_insert, Ht. unfold pend_of. rewrite Hw. lia. Qed.

Lemma del_npend seq (m m' : mailbox) b :
  del_locked seq m = Ret (b, m') -> npend (awaiters m') <= npend (awaiters m).
Proof.
  intros Hd. unfold del_locked in Hd. apply obind_Ret in Hd as ([o l] & _ & Hd). cbn [fst snd] in Hd.
  destruct o as [cur|]; [|injection Hd as _ <-; lia].
  destruct (e_awaiter cur) as [a|]; [|injection Hd as _ <-; proj; lia].
  apply obind_Ret in Hd as ([u m1] & Hd & [= _ <-]). apply dec_npend in Hd. by revert Hd; proj.
Qed.

Lemma async_npend (m : mailbox) r x : npend (awaiters (set_async m r x)) = npend (awaiters m).
Proof.
  destruct r as [a|t]; cbn; [|done]. destruct (awaiters m !! a) as [w|] eqn:Hw; [|done].
  proj. by apply (same_npend _ _ w).
Qed.

Lemma rank_flush_pc l : rank (flush_pc l : pc) = 3 * Z.of_nat (length l).
Proof. destruct l; cbn; lia. Qed.

Lemma next_decreases p m p' m' :
  refs_of (awaiters m) (fresh_addr m) = None -> next p m = Ret (p', m') ->
  rank p' + 6 * npend (awaiters m') < rank p + 6 * npend (awaiters m).
Proof.
  intros Hfr Hn. destruct p; try (apply on_inv in Hn as (u & Hu & ->)); cbn [rank].
  - cbn in Hn. destruct (x_awaiter x); [|done]. cbn in Hn. injection Hn as <- <-. proj.
    rewrite npend_insert. assert (pend_of (awaiters m) (fresh_addr m) = 0) as ->.
    { unfold refs_of in Hfr. unfold pend_of. by destruct (awaiters m !! fresh_addr m). }
    destruct (has_bits _ _); cbn; rewrite ?no_pending, ?is_pending; cbn; lia.
  - unfold acquire_tx_queue_lock in Hu. destruct (tx_locked m); [done|]. injection Hu as _ <-. proj. lia.
  - injection Hu as _ <-. destruct (negb _); cbn; lia.
  - unfold prepare_resp in Hu. apply obind_Ret in Hu as (y & _ & Hu).
    destruct (resp y) as [r|]; injection Hu as <- <-; [|cbn; lia].
    pose proof (async_npend m (AsyncOf a) (mk_async GCIP_MAILBOX_STATUS_WAITING_RESPONSE
      (Some (set_resp_elem_seq r (get_cmd_elem_seq cmd))))) as Hnp. cbn in Hnp |- *.
    destruct (x_elem x); [destruct (x_before x =? 0)|]; cbn; lia.
  - unfold refcount_inc in Hu. destruct (awaiters m !! a) as [w|] eqn:Hw; [|done]. cbn in Hu.
    injection Hu as _ <-. proj. rewrite (same_npend _ _ w) by done. lia.
  - injection Hu as _ <-. proj. lia.
  - unfold submit_cmd in Hu. apply obind_Ret in Hu as (y & _ & Hu).
    destruct (x_after x =? 0); cbn in Hu; [destruct (should_maintain_seq_num _ && _)|];
      injection Hu as <- <-; proj; try (cbn; lia); destruct (_ =? _); cbn; lia.
  - injection Hu as _ <-. proj. lia.
  - injection Hu as _ <-. proj. lia.
  - pose proof (cancel_npend a m m' u (or_intror Hu)). destruct u; cbn; lia.
  - pose proof (dec_npend a m m' u Hu). lia.
  - unfold free_awaiter in Hu. destruct (awaiters m !! a); [|done]. cbn in Hu. injection Hu as _ <-.
    proj. rewrite npend_delete. pose proof (pend_range (awaiters m) a). lia.
  - unfold match_locked in Hu. apply obind_Ret in Hu as ([o l] & _ & Hu). cbn [fst snd] in Hu.
    destruct o as [cur|]; injection Hu as <- <-; proj; rewrite ?async_npend; [|cbn; lia].
    destruct (e_awaiter cur); cbn; lia.
  - pose proof (cancel_npend a m m' u (or_introl Hu)). destruct u; cbn; lia.
  - pose proof (dec_npend a m m' u Hu). lia.
  - unfold call_handler in Hu. destruct has_arrived; [apply obind_Ret in Hu as (y & _ & Hu)|];
      injection Hu as _ <-; proj; lia.
  - pose proof (dec_npend a m m' u Hu). lia.
  - unfold read_seq in Hu. apply obind_Ret in Hu as (y & _ & Hu). injection Hu as _ <-. lia.
  - pose proof (del_npend seq m m' u Hu). destruct u; cbn; lia.
  - unfold call_handler in Hu. destruct has_timedout; [apply obind_Ret in Hu as (y & _ & Hu)|];
      injection Hu as _ <-; proj; lia.
  - pose proof (dec_npend a m m' u Hu). lia.
  - injection Hu as _ <-. proj. lia.
  - unfold read_seq in Hu. apply obind_Ret in Hu as (y & _ & Hu). injection Hu as _ <-. lia.
  - pose proof (del_npend seq m m' u Hu). lia.
  - pose proof (cancel_npend a m m' u (or_intror Hu)). destruct u; cbn; lia.
  - pose proof (dec_npend a m m' u Hu). lia.
  - injection Hu as _ <-. destruct o; proj; lia.
  - pose proof (dec_npend a m m' u Hu). lia.
  - pose proof (cancel_npend a m m' u (or_intror Hu)). destruct u; cbn; lia.
  - pose proof (dec_npend a m m' u Hu). lia.
  - cbn in Hn. destruct has_flushed.
    + apply obind_Ret in Hn as (y & Hy & Hn). injection Hn as <- <-. rewrite rank_flush_pc.
      apply obind_Ret in Hy as (z & _ & Hy). injection Hy as <-. proj. cbn. lia.
    + apply on_inv in Hn as (u & Hu & ->). rewrite rank_flush_pc. pose proof (dec_npend a m m' u Hu). lia.
  - done.
Qed.

(** ** Runs of what is under way *)

Definition internal (l : @label C R) : bool :=
  match l with LRun _ | LFire _ => true | _ => false end.

Fixpoint run_labels (ls : list label) (c : config) : outcome config :=
  match ls with
  | [] => Ret c
  | l :: ls => let* c' := perform l c in run_labels ls c'
  end.

Lemma tot_rank_insert (ps : list pc) i p p' :
  ps !! i = Some p -> tot rank (<[i := p']> ps) = tot rank ps - rank p + rank p'.
Proof.
  intros Hi. rewrite <- (take_drop_middle ps i p Hi) at 2.
  rewrite insert_take_drop by (by eapply lookup_lt_Some).
  assert (Happ : forall l1 l2 : list pc, tot rank (l1 ++ l2) = tot rank l1 + tot rank l2).
  { intros l1 l2. induction l1 as [|q l1 IH]; cbn; lia. }
  rewrite !Happ. cbn [tot]. lia.
Qed.

Lemma tot_rank_app (ps : list pc) p : tot rank (ps ++ [p]) = tot rank ps + rank p.
Proof. induction ps as [|q ps IH]; cbn; lia. Qed.

Lemma internal_decreases l c c' ps :
  pool c = code <$> ps -> good (mbox c) ps -> internal l = true -> perform l c = Ret c' ->
  exists ps', pool c' = code <$> ps' /\ good (mbox c') ps' /\
    measure (mbox c') ps' < measure (mbox c) ps.
Proof.
  intros Hpool Hg Hl Hp. destruct l as [i| | |a| | | |]; try done.
  - cbn in Hp. rewrite Hpool, list_lookup_fmap in Hp. destruct (ps !! i) as [p|] eqn:Hi; [|done].
    cbn in Hp. assert (Hperm : ps ≡ₚ p :: delete i ps) by (by apply delete_Permutation).
    pose proof (good_perm _ _ _ Hperm Hg) as Hg1.
    rewrite step_code in Hp by exact (Forall_inv (gd_ok _ _ Hg1)).
    pose proof (next_good p (mbox c) (delete i ps) Hg1) as Hk.
    destruct (next p (mbox c)) as [[p' m']| |] eqn:Hn; cbn in *; try done. injection Hp as <-.
    exists (<[i := p']> ps). cbn [mbox pool]. split; [by rewrite list_fmap_insert|]. split.
    + eapply good_perm; [|exact Hk]. symmetry.
      assert (Hlt : (i < length ps)%nat) by (by eapply lookup_lt_Some).
      rewrite (delete_Permutation (<[i := p']> ps) i p') by (by apply list_lookup_insert_eq).
      by rewrite delete_insert_list.
    + unfold measure. rewrite (tot_rank_insert _ _ p) by done.
      assert (refs_of (awaiters (mbox c)) (fresh_addr (mbox c)) = None) as Hfr
        by (apply (gd_fresh _ _ Hg); lia).
      pose proof (next_decreases p (mbox c) p' m' Hfr Hn). lia.
  - cbn in Hp. destruct (awaiters (mbox c) !! a) as [w|] eqn:Hw; [|done]. unfold guard in Hp.
    case_bool_decide as Hpend; [|done]. injection Hp as <-. cbn.
    exists (ps ++ [TRead a]). rewrite Hpool, fmap_app. split; [done|]. split.
    + eapply good_perm; [|by apply fire_good]. by rewrite <- Permutation_cons_append.
    + unfold measure. rewrite tot_rank_app. proj. rewrite npend_insert. unfold pend_of.
      rewrite Hw, Hpend, is_pending. cbn. rewrite no_pending. cbn. lia.
Qed.

Lemma internal_run_bound ls c c' ps :
  pool c = code <$> ps -> good (mbox c) ps -> Forall (fun l => internal l = true) ls ->
  run_labels ls c = Ret c' -> Z.of_nat (length ls) <= measure (mbox c) ps.
Proof.
  revert c ps. induction ls as [|l ls IH]; intros c ps Hpool Hg Hi Hr.
  { pose proof (measure_nonneg (mbox c) ps). cbn. lia. }
  apply Forall_cons in Hi as [Hl Hi]. cbn in Hr. apply obind_Ret in Hr as (c1 & Hp & Hr).
  destruct (internal_decreases l c c1 ps Hpool Hg Hl Hp) as (ps1 & Hpool1 & Hg1 & Hlt).
  specialize (IH c1 ps1 Hpool1 Hg1 Hi Hr). cbn [length]. lia.
Qed.

(** ** Where it ends *)

(** The places at which nothing is left to do. *)
Definition ended (p : pc) : Prop := code p = Done tt.

Lemma take_first_moves (m : mailbox) test l : take_first m test l <> Deadlock.
Proof.
  induction l as [|e l IH]; cbn; [done|]. unfold resp_of, async_of.
  destruct (e_async e) as [a|t].
  - destruct (awaiters m !! a) as [w|]; [|done]. cbn. destruct (resp (async w)); [|done]. cbn.
    destruct (test r); [done|]. by destruct (take_first m test l).
  - destruct (stack m !! t) as [w|]; [|done]. cbn. destruct (resp w); [|done]. cbn.
    destruct (test r); [done|]. by destruct (take_first m test l).
Qed.

Lemma dec_moves a (m : mailbox) : gcip_mailbox_awaiter_dec_refs a m <> Deadlock.
Proof.
  unfold gcip_mailbox_awaiter_dec_refs. destruct (awaiters m !! a); [|done]. cbn.
  by destruct (_ =? _).
Qed.

Lemma del_moves seq (m : mailbox) : del_locked seq m <> Deadlock.
Proof.
  unfold del_locked. pose proof (take_first_moves m (fun r => get_resp_elem_seq r =? seq) (wait_list m)).
  destruct (take_first _ _ _) as [[[cur|] l]| |]; cbn; try done.
  destruct (e_awaiter cur) as [a|]; cbn; [|done]. pose proof (dec_moves a (set_wait m l)).
  by destruct (gcip_mailbox_awaiter_dec_refs a (set_wait m l)).
Qed.

Lemma on_moves {B} (o : outcome (B * mailbox)) (f : B -> pc) : o <> Deadlock -> on o f <> Deadlock.
Proof. by destruct o. Qed.

Definition waits_lock (p : pc) : bool := match p with PLock _ _ _ _ => true | _ => false end.
Definition waits_work (p : pc) : bool :=
  match p with PCan _ _ | CSync _ _ | FSync _ _ => true | _ => false end.

(** A function waits only for the lock of the queue or for a running work. *)
Lemma blocked_reason p m :
  next p m = Deadlock ->
  ended p \/ waits_lock p = true /\ tx_locked m = true \/
  waits_work p = true /\ exists a, a ∈ running m.
Proof.
  assert (Hsync : forall a (f : bool -> pc), on (cancel_delayed_work_sync a m) f = Deadlock ->
    exists a, a ∈ running m).
  { intros a f. unfold cancel_delayed_work_sync. destruct (awaiters m !! a); [|done]. cbn.
    destruct (timeout_work _); [|done]. case_decide; [by exists a|done]. }
  assert (Hcall : forall b ev a (f : unit -> pc), on (call_handler b ev a m) f <> Deadlock).
  { intros b ev a f. unfold call_handler. destruct b; [|done]. by destruct (awaiters m !! a). }
  destruct p; intros Hn; try (exfalso; revert Hn; apply on_moves; done || apply dec_moves || apply del_moves);
    try (right; right; split; [done|by eapply Hsync]); try (by left);
    try (exfalso; revert Hn; apply Hcall).
  - cbn in Hn. destruct (x_awaiter x) eqn:Ex; [done|]. left. unfold ended. cbn.
    unfold gcip_mailbox_put_cmd_flags. by rewrite Ex.
  - cbn in Hn. unfold acquire_tx_queue_lock in Hn. destruct (tx_locked m); [by auto|done].
  - exfalso. cbn in Hn. unfold prepare_resp, async_of in Hn. destruct (awaiters m !! a); [|done]. cbn in Hn.
    by destruct (resp _).
  - exfalso. cbn in Hn. unfold refcount_inc in Hn. by destruct (awaiters m !! a).
  - exfalso. cbn in Hn. unfold submit_cmd in Hn. destruct (tx_queue m !! _); [|done]. cbn in Hn.
    destruct (x_after x =? 0); cbn in Hn; [|done]. by destruct (should_maintain_seq_num _ && _).
  - exfalso. cbn in Hn. unfold free_awaiter in Hn. by destruct (awaiters m !! a).
  - exfalso. cbn in Hn. unfold match_locked in Hn.
    pose proof (take_first_moves m (does_response_match_waiter r) (wait_list m)).
    by destruct (take_first _ _ _) as [[[cur|] l]| |].
  - exfalso. cbn in Hn. unfold cancel_delayed_work in Hn. destruct (awaiters m !! a); [|done].
    cbn in Hn. by destruct (timeout_work _).
  - exfalso. cbn in Hn. unfold read_seq, resp_of, async_of in Hn. destruct (awaiters m !! a); [|done].
    cbn in Hn. by destruct (resp _).
  - exfalso. cbn in Hn. unfold read_seq, resp_of, async_of in Hn. destruct (awaiters m !! a); [|done].
    cbn in Hn. by destruct (resp _).
  - exfalso. cbn in Hn. destruct has_flushed; [by destruct (awaiters m !! a)|].
    revert Hn. apply on_moves, dec_moves.
Qed.

(** The lock and the works are held by functions that can move. *)
Lemma holder_moves q m :
  nlock q = 1 \/ (exists a, 1 <= ntmo q a) -> next q m <> Deadlock.
Proof.
  intros Hq Hn. destruct (blocked_reason q m Hn) as [He|[[Hw _]|[Hw _]]];
    destruct q; try done; try (unfold ended in He; cbn in He; done);
    destruct Hq as [Hq|[a' Ha]]; cbn in *; try done; try lia.
Qed.

Lemma tot_pos (f : pc -> Z) ps : 1 <= tot f ps -> exists q, In q ps /\ 1 <= f q.
Proof.
  induction ps as [|p ps IH]; cbn; [lia|]. intros Hs.
  destruct (Z.lt_ge_cases (f p) 1) as [Hlt|Hge]; [|exists p; auto].
  destruct IH as (q & Hin & Hq); [lia|]. exists q. auto.
Qed.

(** When nothing can move, every function has returned. *)
Lemma stuck_ended c ps :
  pool c = code <$> ps -> good (mbox c) ps -> (forall i, perform (LRun i) c = Deadlock) ->
  Forall ended ps.
Proof.
  intros Hpool Hg Hst.
  assert (Hnext : forall q, In q ps -> next q (mbox c) = Deadlock).
  { intros q Hq. apply list_elem_of_In, list_elem_of_lookup in Hq as [i Hi].
    specialize (Hst i). cbn in Hst. rewrite Hpool, list_lookup_fmap, Hi in Hst. cbn in Hst.
    rewrite step_code in Hst.
    - by destruct (next q (mbox c)).
    - apply (proj1 (Forall_forall _ _) (gd_ok _ _ Hg)). by eapply list_elem_of_lookup_2. }
  assert (Hmove : forall f : pc -> Z, (forall q, 1 <= f q -> nlock q = 1 \/ exists a, 1 <= ntmo q a) ->
    tot f ps <= 0).
  { intros f Hf. destruct (Z.lt_ge_cases 0 (tot f ps)) as [Hlt|]; [|done]. exfalso.
    destruct (tot_pos f ps) as (q & Hin & Hq); [lia|].
    exact (holder_moves q (mbox c) (Hf q Hq) (Hnext q Hin)). }
  apply Forall_forall. intros p Hp%list_elem_of_In.
  destruct (blocked_reason p (mbox c) (Hnext p Hp)) as [He|[[_ Hl]|[_ [a Ha]]]]; [done| |].
  - pose proof (gd_lock _ _ Hg) as Hk. rewrite Hl in Hk. cbn in Hk.
    pose proof (Hmove nlock) as Hm. rewrite <- Hk in Hm. exfalso.
    assert (1 <= 0); [|lia]. apply Hm. intros q Hq. left. destruct q; cbn in *; lia.
  - pose proof (ga_run _ _ _ _ _ _ (gd_at _ _ Hg a)) as Hr. unfold in_of in Hr.
    rewrite bool_decide_true in Hr by done. cbn in Hr. exfalso.
    assert (1 <= 0); [|lia]. rewrite Hr at 1. apply Hmove. intros q Hq. right. by exists a.
Qed.

Lemma ended_counts p b :
  ended p -> pc_ok p ->
  hput p b = 0 /\ htmo p b = 0 /\ hoth p b = 0 /\ ncb p b = 0 /\ ntrd p b = 0.
Proof.
  intros He Hok. destruct p; try done; unfold ended in He; cbn in He, Hok; try done.
  - unfold put_end in He. by rewrite (proj2 (Z.eqb_neq _ _) Hok) in He.
  - unfold flush_call in He. by destruct has_flushed.
Qed.

Lemma ended_tot ps b :
  Forall ended ps -> Forall pc_ok ps ->
  tot (fun p => hput p b) ps = 0 /\ tot (fun p => htmo p b) ps = 0 /\
  tot (fun p => hoth p b) ps = 0 /\ tot (fun p => ncb p b) ps = 0 /\ tot (fun p => ntrd p b) ps = 0.
Proof.
  induction 1 as [|p ps He _ IH]; [done|]. intros [Hok Hoks]%Forall_cons. specialize (IH Hoks).
  cbn. pose proof (ended_counts p b He Hok). lia.
Qed.

Lemma no_timer_left c a : perform (LFire a) c = Deadlock -> pend_of (awaiters (mbox c)) a = 0.
Proof.
  cbn. unfold pend_of. destruct (awaiters (mbox c) !! a) as [w|]; [|done]. unfold guard.
  by case_bool_decide.
Qed.
End ends.

(** C14. Every call returns: from any reachable state, the functions and timers under way make
    at most a bounded number of further steps, whatever the schedule, and they never block
    each other for ever: if none of them can move, all have returned. *)
Theorem mailbox_calls_return {C R : Set} `{!MailboxElems C R} m s c :
  initial m s -> reach any (mk_config m []) c ->
  (exists n, forall ls c', Forall (fun l => internal l = true) ls -> run_labels ls c = Ret c' ->
     Z.of_nat (length ls) <= n) /\
  ((forall i, perform (LRun i) c = Deadlock) -> Forall (fun p => p = Done tt) (pool c)).
Proof.
  intros Hi Hr. destruct (reach_inv _ _ _ _ Hi Hr) as (ps & Hpool & Hg). split.
  - exists (measure (mbox c) ps). intros ls c'. by apply internal_run_bound.
  - intros Hst. rewrite Hpool. apply Forall_fmap. by eapply stuck_ended.
Qed.

(** C13. At most once: with commands numbered by the mailbox and timers that expire after their
    command is queued, in every reachable state each queued command has been told to the
    driver at most once, as arrived, timed out, flushed or cancelled with success, and not
    at all while it is on the wait list.  In particular after a cancellation that reports
    success no handler is ever called for that command. *)
Theorem mailbox_resolves_at_most_once {C R : Set} `{!MailboxElems C R, !MailboxLaws C R} m s c a :
  initial2 m s -> reach disciplined (mk_config m []) c ->
  resolutions a (log (mbox c)) <= 1 /\
  (waiting (mbox c) a = true -> resolutions a (log (mbox c)) = 0) /\
  (resolutions a (log (mbox c)) = 1 -> In (EvQueued a) (log (mbox c))).
Proof.
  intros Hi Hr. destruct (reach_inv2 m s c Hi Hr) as (ps & Hpool & Hg & Ho).
  pose proof (oa_once _ _ _ (on_at _ _ Ho a)). pose proof (tot_bounds2 ps a).
  pose proof (wait_of_nonneg (wait_list (mbox c)) a). pose proof (queued_range a (log (mbox c))).
  pose proof (resolutions_nonneg a (log (mbox c))). split; [lia|]. split.
  - intros Hw. assert (1 <= wait_of (wait_list (mbox c)) a); [|lia].
    apply existsb_exists in Hw as (e & Hin & He). apply bool_decide_eq_true in He.
    pose proof (proj1 (Forall_forall _ _) (gd_wait _ _ Hg) e) as Hok.
    destruct (Hok (proj2 (list_elem_of_In _ _) Hin)) as [b ->]. injection He as ->. by apply wait_of_pos.
  - intros Hone. apply queued_in. lia.
Qed.

(** Nothing waits for ever and nothing leaks: under the same discipline, when the functions
    and timers under way have run to their end (which [mailbox_calls_return] bounds), the
    wait list is empty, every command ever queued has been told to the driver exactly
    once, and the awaiters in memory are exactly those whose reference the driver still
    has. *)
Theorem mailbox_quiescent_resolved {C R : Set} `{!MailboxElems C R, !MailboxLaws C R} m s c :
  initial2 m s -> reach disciplined (mk_config m []) c ->
  (forall l, internal l = true -> perform l c = Deadlock) ->
  wait_list (mbox c) = [] /\
  (forall a, In (EvQueued a) (log (mbox c)) -> resolutions a (log (mbox c)) = 1) /\
  (forall a, is_Some (awaiters (mbox c) !! a) <-> a ∈ client (mbox c)).
Proof.
  intros Hi Hr Hq. destruct (reach_inv2 m s c Hi Hr) as (ps & Hpool & Hg & Ho).
  pose proof (stuck_ended c ps Hpool Hg (fun i => Hq (LRun i) eq_refl)) as He.
  assert (Hp : forall a, pend_of (awaiters (mbox c)) a = 0)
    by (intros a; apply no_timer_left, Hq; done).
  assert (Hw : forall a, wait_of (wait_list (mbox c)) a = 0).
  { intros a. destruct (ended_tot ps a He (gd_ok _ _ Hg)) as (_ & _ & _ & _ & Ht).
    pose proof (oa_wait _ _ _ (on_at _ _ Ho a)). pose proof (wait_of_nonneg (wait_list (mbox c)) a).
    rewrite Hp, Ht in *. lia. }
  split_and!.
  - destruct (wait_list (mbox c)) as [|e l] eqn:El; [done|].
    pose proof (gd_wait _ _ Hg) as Hok. rewrite El in Hok. apply Forall_cons in Hok as [[a ->] _].
    specialize (Hw a). cbn in Hw. rewrite bool_decide_true in Hw by done.
    pose proof (wait_of_nonneg l a). cbn in Hw. lia.
  - intros a Ha%queued_in. destruct (ended_tot ps a He (gd_ok _ _ Hg)) as (_ & _ & _ & Hc & _).
    pose proof (oa_once _ _ _ (on_at _ _ Ho a)). specialize (Hw a). lia.
  - intros a. destruct (ended_tot ps a He (gd_ok _ _ Hg)) as (H1 & H2 & H3 & _ & _).
    destruct (gd_at _ _ Hg a) as [Hre _ _ _ _ _ _ Hl]. rewrite H1, H2, H3, Hw, Hp in Hre.
    unfold refs_of, in_of in *. destruct (awaiters (mbox c) !! a) as [w|] eqn:Ew; cbn in *.
    + case_bool_decide; cbn in Hre; [|lia]. split; [done|by eexists].
    + case_bool_decide; cbn in Hre; [lia|]. split; [by intros []|done].
Qed.
