(* ===== verification/GcipIkv.v ===== *)
(** The in-kernel VII mailbox of the EdgeTPU: its packets and operators
    (edgetpu-vii-packet.c, edgetpu-ikv-mailbox-ops.c), the responses of a client group
    (edgetpu-ikv.c, edgetpu-device-group.c), and runs of GcipAwait.v with these operators.

    A group has a number of credits; a command takes one, and it comes back when the
    response is handed to the group.  The handlers of the mailbox may be called for the
    same response by races; the [processed] flag decides which one acts. *)

From stdpp Require Import gmap.
From S2P Require Import Prelude GcipQueue GcipStream GcipMailbox GcipAwait GcipSafe.
From S2P Require Import GcipOnce GcipLive GcipEnd.

(** ** Packets *)

Record edgetpu_vii_command : Set := mk_vii_command {
  vc_seq : Z;
  vc_code : Z;
  vc_client_id : Z;
}.

Record edgetpu_vii_response : Set := mk_vii_response {
  vr_seq : Z;
  vr_code : Z;
  vr_client_id : Z;
  vr_retval : Z;
}.

Definition edgetpu_vii_command_get_seq_number (c : edgetpu_vii_command) : Z := vc_seq c.
Definition edgetpu_vii_command_set_seq_number (c : edgetpu_vii_command) (seq : Z) :=
  mk_vii_command seq (vc_code c) (vc_client_id c).
Definition edgetpu_vii_command_get_client_id (c : edgetpu_vii_command) : Z := vc_client_id c.
Definition edgetpu_vii_command_set_client_id (c : edgetpu_vii_command) (id : Z) :=
  mk_vii_command (vc_seq c) (vc_code c) id.
Definition edgetpu_vii_response_get_seq_number (r : edgetpu_vii_response) : Z := vr_seq r.
Definition edgetpu_vii_response_set_seq_number (r : edgetpu_vii_response) (seq : Z) :=
  mk_vii_response seq (vr_code r) (vr_client_id r) (vr_retval r).
Definition edgetpu_vii_response_get_code (r : edgetpu_vii_response) : Z := vr_code r.
Definition edgetpu_vii_response_set_code (r : edgetpu_vii_response) (code : Z) :=
  mk_vii_response (vr_seq r) code (vr_client_id r) (vr_retval r).
Definition edgetpu_vii_response_get_client_id (r : edgetpu_vii_response) : Z := vr_client_id r.
Definition edgetpu_vii_response_set_client_id (r : edgetpu_vii_response) (id : Z) :=
  mk_vii_response (vr_seq r) (vr_code r) id (vr_retval r).
Definition edgetpu_vii_response_get_retval (r : edgetpu_vii_response) : Z := vr_retval r.
Definition edgetpu_vii_response_set_retval (r : edgetpu_vii_response) (retval : Z) :=
  mk_vii_response (vr_seq r) (vr_code r) (vr_client_id r) retval.

(** ** Operators of the mailbox *)

Definition edgetpu_ikv_does_response_match_waiter (incoming_resp waiter_resp : edgetpu_vii_response)
    : bool :=
  let incoming_client_id := Z.land (edgetpu_vii_response_get_client_id incoming_resp) 0xFFFF in
  let waiter_client_id := Z.land (edgetpu_vii_response_get_client_id waiter_resp) 0xFFFF in
  (edgetpu_vii_response_get_seq_number incoming_resp =?
   edgetpu_vii_response_get_seq_number waiter_resp) &&
  (incoming_client_id =? waiter_client_id).

#[global] Instance ikv_mailbox_ops : MailboxElems edgetpu_vii_command edgetpu_vii_response := {
  get_cmd_elem_seq := edgetpu_vii_command_get_seq_number;
  set_cmd_elem_seq := edgetpu_vii_command_set_seq_number;
  get_resp_elem_seq := edgetpu_vii_response_get_seq_number;
  set_resp_elem_seq := edgetpu_vii_response_set_seq_number;
  match_op := Some edgetpu_ikv_does_response_match_waiter;
  is_rx_elem_reversed := None;
  has_arrived := true;
  has_timedout := true;
  has_flushed := true;
}.

#[global] Instance ikv_mailbox_laws : MailboxLaws edgetpu_vii_command edgetpu_vii_response.
Proof.
  split; try done. intros i w Hm. cbn in Hm. unfold edgetpu_ikv_does_response_match_waiter in Hm.
  apply andb_prop in Hm as [Hm _]. by apply Z.eqb_eq in Hm.
Qed.

(** ** Responses of a group *)

Definition ECANCELED : Z := 125.

Definition VII_RESPONSE_CODE_KERNEL_BASE : Z := Z.shiftl 1 15.
Definition VII_RESPONSE_CODE_KERNEL_CMD_TIMEOUT : Z := VII_RESPONSE_CODE_KERNEL_BASE + 0.
Definition VII_RESPONSE_CODE_KERNEL_CANCELED : Z := VII_RESPONSE_CODE_KERNEL_BASE + 4.
Definition EDGETPU_NUM_VII_CREDITS_PER_CLIENT : Z := 8.

Record edgetpu_ikv_response := mk_ikv_resp {
  ir_resp : edgetpu_vii_response;
  processed : bool;
  client_seq : Z;
}.

(** [resps] are the responses in memory; [signals] what the out-fences were told, in order;
    [notified] the number of response events of the group. *)
Record edgetpu_device_group := mk_group {
  resps : gmap Z edgetpu_ikv_response;
  pending_ikv_resps : list Z;
  ready_ikv_resps : list Z;
  available_vii_credits : Z;
  signals : list (Z * Z);
  notified : Z;
  next_resp : Z;
}.

Definition put_resp (g : edgetpu_device_group) (r : Z) (x : edgetpu_ikv_response) :=
  mk_group (<[r := x]> (resps g)) (pending_ikv_resps g) (ready_ikv_resps g)
    (available_vii_credits g) (signals g) (notified g) (next_resp g).
Definition free_resp (g : edgetpu_device_group) (r : Z) :=
  mk_group (delete r (resps g)) (pending_ikv_resps g) (ready_ikv_resps g)
    (available_vii_credits g) (signals g) (notified g) (next_resp g).
Definition set_queues (g : edgetpu_device_group) (pending ready : list Z) :=
  mk_group (resps g) pending ready (available_vii_credits g) (signals g) (notified g) (next_resp g).
Definition set_credits (g : edgetpu_device_group) (n : Z) :=
  mk_group (resps g) (pending_ikv_resps g) (ready_ikv_resps g) n (signals g) (notified g) (next_resp g).

Definition signal_response_waiters (r error : Z) (notify_group : bool) (g : edgetpu_device_group) :=
  mk_group (resps g) (pending_ikv_resps g) (ready_ikv_resps g) (available_vii_credits g + 1)
    (signals g ++ [(r, error)]) (notified g + if notify_group then 1 else 0) (next_resp g).

(** [list_del] and [list_add_tail] of the entry. *)
Definition edgetpu_ikv_process_response (r : Z) (resp_code resp_retval : option Z) (fence_error : Z)
    (force : bool) (g : edgetpu_device_group) : outcome edgetpu_device_group :=
  let* x := must (resps g !! r) in
  if processed x && negb force then Ret g else
  let p := ir_resp x in
  let p := match resp_code with Some c => edgetpu_vii_response_set_code p c | None => p end in
  let p := match resp_retval with Some v => edgetpu_vii_response_set_retval p v | None => p end in
  let p := edgetpu_vii_response_set_seq_number p (client_seq x) in
  let g := put_resp g r (mk_ikv_resp p true (client_seq x)) in
  let g := set_queues g (List.filter (fun q => negb (q =? r)) (pending_ikv_resps g))
             (ready_ikv_resps g ++ [r]) in
  Ret (signal_response_waiters r fence_error true g).

(** The response has been copied into the packet by the mailbox. *)
Definition edgetpu_ikv_handle_awaiter_arrived (r : Z) (p : edgetpu_vii_response)
    (g : edgetpu_device_group) : outcome edgetpu_device_group :=
  let* x := must (resps g !! r) in
  let g := put_resp g r (mk_ikv_resp p (processed x) (client_seq x)) in
  let fence_error := if edgetpu_vii_response_get_code p =? 0 then 0 else - EIO in
  edgetpu_ikv_process_response r None None fence_error false g.

Definition edgetpu_ikv_handle_awaiter_timedout (command_timeout_ms r : Z)
    (g : edgetpu_device_group) : outcome edgetpu_device_group :=
  edgetpu_ikv_process_response r (Some VII_RESPONSE_CODE_KERNEL_CMD_TIMEOUT)
    (Some command_timeout_ms) (- ETIMEDOUT) false g.

(** Releasing the awaiter frees the response. *)
Definition edgetpu_ikv_handle_awaiter_flushed (r : Z) (g : edgetpu_device_group)
    : outcome edgetpu_device_group :=
  let* x := must (resps g !! r) in
  if processed x then Ret g else
  let g := put_resp g r (mk_ikv_resp (ir_resp x) true (client_seq x)) in
  Ret (free_resp (signal_response_waiters r (- ECANCELED) false g) r).

(** A command of the group, sent without fences to wait for: the credit, the response, and
    the pending queue; [put] is what the mailbox returned. *)
Definition edgetpu_device_group_send_vii_command (cmd : edgetpu_vii_command) (pasid put : Z)
    (g : edgetpu_device_group) : Z * edgetpu_device_group :=
  if available_vii_credits g =? 0 then (- EBUSY, g) else
  let g := set_credits g (available_vii_credits g - 1) in
  let cmd := edgetpu_vii_command_set_client_id cmd pasid in
  if negb (put =? 0) then (put, set_credits g (available_vii_credits g + 1)) else
  let r := next_resp g in
  let p := edgetpu_vii_response_set_client_id (mk_vii_response 0 0 0 0)
             (edgetpu_vii_command_get_client_id cmd) in
  let p := edgetpu_vii_response_set_seq_number p (edgetpu_vii_command_get_seq_number cmd) in
  (0, mk_group (<[r := mk_ikv_resp p false (edgetpu_vii_command_get_seq_number cmd)]> (resps g))
        (pending_ikv_resps g ++ [r]) (ready_ikv_resps g) (available_vii_credits g) (signals g)
        (notified g) (r + 1)).

Definition edgetpu_device_group_get_vii_response (g : edgetpu_device_group)
    : outcome (Z * option edgetpu_vii_response * edgetpu_device_group) :=
  match ready_ikv_resps g with
  | [] => Ret (- ENOENT, None, g)
  | r :: l =>
    let* x := must (resps g !! r) in
    Ret (0, Some (ir_resp x), free_resp (set_queues g (pending_ikv_resps g) l) r)
  end.

(** The loops of [edgetpu_ikv_cancel]: mark all, then hand over all. *)
Fixpoint mark_processed (l : list Z) (g : edgetpu_device_group) : outcome edgetpu_device_group :=
  match l with
  | [] => Ret g
  | r :: l =>
    let* x := must (resps g !! r) in
    mark_processed l (put_resp g r (mk_ikv_resp (ir_resp x) true (client_seq x)))
  end.

Fixpoint process_all (reason : Z) (l : list Z) (g : edgetpu_device_group)
    : outcome edgetpu_device_group :=
  match l with
  | [] => Ret g
  | r :: l =>
    let* g := edgetpu_ikv_process_response r (Some VII_RESPONSE_CODE_KERNEL_CANCELED)
                (Some (u64 reason)) (- ECANCELED) true g in
    process_all reason l g
  end.

Definition edgetpu_ikv_cancel (reason : Z) (g : edgetpu_device_group) : outcome edgetpu_device_group :=
  let l := pending_ikv_resps g in
  let* g := mark_processed l g in
  process_all reason l (set_queues g [] (ready_ikv_resps g)).

(** *** The invariant of a group *)

Inductive group_op :=
| GSend (cmd : edgetpu_vii_command) (pasid put : Z)
| GArrived (r : Z) (p : edgetpu_vii_response)
| GTimedout (ms r : Z)
| GCancel (reason : Z)
| GGet.

Definition group_step (op : group_op) (g : edgetpu_device_group) : outcome edgetpu_device_group :=
  match op with
  | GSend cmd pasid put => Ret (edgetpu_device_group_send_vii_command cmd pasid put g).2
  | GArrived r p => edgetpu_ikv_handle_awaiter_arrived r p g
  | GTimedout ms r => edgetpu_ikv_handle_awaiter_timedout ms r g
  | GCancel reason => edgetpu_ikv_cancel reason g
  | GGet => let* o := edgetpu_device_group_get_vii_response g in Ret o.2
  end.

(** The mailbox calls a handler only with a response in memory. *)
Definition op_live (op : group_op) (g : edgetpu_device_group) : Prop :=
  match op with
  | GArrived r _ | GTimedout _ r => is_Some (resps g !! r)
  | _ => True
  end.

Definition is_processed (g : edgetpu_device_group) (r : Z) : option bool := processed <$> resps g !! r.

(** [todo] are the responses that a cancellation has marked and not yet handed over. *)
Record group_ok (n : Z) (todo : list Z) (g : edgetpu_device_group) : Prop := {
  go_pending r : r ∈ pending_ikv_resps g <-> is_processed g r = Some false;
  go_ready r : r ∈ ready_ikv_resps g ++ todo <-> is_processed g r = Some true;
  go_nodup : NoDup (pending_ikv_resps g);
  go_nodup_ready : NoDup (ready_ikv_resps g ++ todo);
  go_credits : available_vii_credits g + Z.of_nat (length (pending_ikv_resps g)) +
               Z.of_nat (length todo) = n;
  go_nonneg : 0 <= available_vii_credits g;
  go_fresh r : next_resp g <= r -> resps g !! r = None;
  go_signal : NoDup (fst <$> signals g);
  go_signalled r : r ∈ fst <$> signals g ->
    r < next_resp g /\ is_processed g r <> Some false /\ r ∉ todo;
}.

Lemma is_processed_put g r x s :
  is_processed (put_resp g r x) s = if decide (r = s) then Some (processed x) else is_processed g s.
Proof.
  unfold is_processed. cbn. case_decide as Hd; [subst; by rewrite lookup_insert_eq|by rewrite lookup_insert_ne].
Qed.

Lemma is_processed_free g r s :
  is_processed (free_resp g r) s = if decide (r = s) then None else is_processed g s.
Proof.
  unfold is_processed. cbn. case_decide as Hd; [subst; by rewrite lookup_delete_eq|by rewrite lookup_delete_ne].
Qed.

Lemma filter_out l r : NoDup l -> r ∈ l ->
  S (length (List.filter (fun q => negb (q =? r)) l)) = length l /\
  NoDup (List.filter (fun q => negb (q =? r)) l).
Proof.
  induction 1 as [|x l Hx Hnd IH]; [by intros ?%elem_of_nil|]. intros Hin. cbn.
  destruct (Z.eqb_spec x r) as [->|Hne]; cbn.
  - assert (Hall : List.filter (fun q => negb (q =? r)) l = l).
    { clear -Hx. induction l as [|y l IH]; [done|]. cbn.
      apply not_elem_of_cons in Hx as [Hy Hl]. rewrite (proj2 (Z.eqb_neq y r)) by done. cbn.
      by rewrite IH. }
    by rewrite Hall.
  - apply elem_of_cons in Hin as [->|Hin]; [done|]. destruct (IH Hin) as [Hl Hn]. split; [by rewrite <- Hl|].
    constructor; [|done]. rewrite list_elem_of_In, filter_In, <- list_elem_of_In. tauto.
Qed.

Lemma elem_filter_out l r s : s ∈ List.filter (fun q => negb (q =? r)) l <-> s ∈ l /\ s <> r.
Proof.
  rewrite !list_elem_of_In, filter_In. destruct (Z.eqb_spec s r); cbn; intuition congruence.
Qed.

Lemma live_below n todo g r : group_ok n todo g -> is_Some (resps g !! r) -> r < next_resp g.
Proof.
  intros Hg [x Hx]. destruct (Z.lt_ge_cases r (next_resp g)) as [|Hge]; [done|].
  rewrite (go_fresh _ _ _ Hg r Hge) in Hx. done.
Qed.

Lemma processed_iff g r b : is_processed g r = Some b <-> exists x, resps g !! r = Some x /\ processed x = b.
Proof.
  unfold is_processed. destruct (resps g !! r) as [x|]; cbn; [|naive_solver]. split.
  - intros [= <-]. by exists x.
  - by intros (y & [= ->] & <-).
Qed.

(** A pending response is handed to the group. *)
Lemma process_ok n g r c v e :
  group_ok n [] g -> is_Some (resps g !! r) ->
  exists g', edgetpu_ikv_process_response r c v e false g = Ret g' /\ group_ok n [] g'.
Proof.
  intros Hg [x Hx]. unfold edgetpu_ikv_process_response. rewrite Hx. run.
  destruct (processed x) eqn:Ep; cbn [andb negb]; [by exists g|]. eexists. split; [done|].
  pose proof Hg as []. assert (Hr : r ∈ pending_ikv_resps g) by (apply go_pending0, processed_iff; by exists x).
  destruct (filter_out _ _ go_nodup0 Hr) as [Hlen Hnd].
  pose proof (live_below _ _ _ r Hg (mk_is_Some _ _ Hx)) as Hlt.
  assert (Hrd : r ∉ ready_ikv_resps g).
  { intros Hin. assert (is_processed g r = Some true) as Hp by (apply go_ready0; rewrite app_nil_r; done).
    apply go_pending0 in Hr. congruence. }
  split; cbn [pending_ikv_resps ready_ikv_resps available_vii_credits signals next_resp
              signal_response_waiters set_queues put_resp resps length].
  - intros s. rewrite elem_filter_out, go_pending0. unfold is_processed. cbn.
    destruct (decide (r = s)) as [->|]; [rewrite lookup_insert_eq|rewrite lookup_insert_ne by done]; cbn;
      intuition congruence.
  - intros s. rewrite app_nil_r, elem_of_app, list_elem_of_singleton.
    specialize (go_ready0 s). rewrite app_nil_r in go_ready0. rewrite go_ready0. unfold is_processed. cbn.
    destruct (decide (r = s)) as [->|]; [rewrite lookup_insert_eq|rewrite lookup_insert_ne by done]; cbn;
      intuition congruence.
  - done.
  - rewrite app_nil_r. apply NoDup_app. rewrite app_nil_r in go_nodup_ready0. split_and!; [done| |].
    + intros s Hs ->%list_elem_of_singleton. done.
    + apply NoDup_singleton.
  - cbn in *. lia.
  - lia.
  - intros s Hs. rewrite lookup_insert_ne by lia. by apply go_fresh0.
  - rewrite fmap_app. cbn. apply NoDup_app. split_and!; [done| |apply NoDup_singleton].
    intros s Hs ->%list_elem_of_singleton. apply go_signalled0 in Hs as (_ & Hs & _).
    apply go_pending0 in Hr. done.
  - intros s. rewrite fmap_app, elem_of_app. cbn. rewrite list_elem_of_singleton. intros [Hs| ->].
    + apply go_signalled0 in Hs as (H1 & H2 & H3). split_and!; [done| |done].
      unfold is_processed in *. cbn. destruct (decide (r = s)) as [->|];
        [by rewrite lookup_insert_eq|by rewrite lookup_insert_ne].
    + split_and!; [done| |by apply not_elem_of_nil]. unfold is_processed. cbn. by rewrite lookup_insert_eq.
Qed.

(** A marked response is handed to the group. *)
Lemma process_marked_ok n g r todo c v e :
  group_ok n (r :: todo) g -> pending_ikv_resps g = [] ->
  exists g', edgetpu_ikv_process_response r c v e true g = Ret g' /\ group_ok n todo g' /\
    pending_ikv_resps g' = [].
Proof.
  intros Hg Hpe. pose proof Hg as [].
  assert (Hr : is_processed g r = Some true) by (apply go_ready0; set_solver).
  apply processed_iff in Hr as Hx. destruct Hx as (x & Hx & Ep).
  unfold edgetpu_ikv_process_response. rewrite Hx. run. rewrite Ep. cbn [andb negb].
  eexists. split; [done|]. cbn [pending_ikv_resps signal_response_waiters set_queues put_resp].
  rewrite Hpe. split; [|done].
  set (p := edgetpu_vii_response_set_seq_number _ _).
  assert (Hsame : forall s, is_processed (put_resp g r (mk_ikv_resp p true (client_seq x))) s =
    is_processed g s).
  { intros s. rewrite is_processed_put. case_decide; [by subst|done]. }
  pose proof (live_below _ _ _ r Hg (mk_is_Some _ _ Hx)) as Hlt. rewrite Hpe in *.
  split; cbn [pending_ikv_resps ready_ikv_resps available_vii_credits signals next_resp
              signal_response_waiters set_queues put_resp resps length].
  - intros s. specialize (go_pending0 s). rewrite <- Hsame in go_pending0. exact go_pending0.
  - intros s. rewrite <- app_assoc. specialize (go_ready0 s). rewrite <- Hsame in go_ready0. exact go_ready0.
  - constructor.
  - by rewrite <- app_assoc.
  - cbn in *. lia.
  - lia.
  - intros s Hs. rewrite lookup_insert_ne by lia. by apply go_fresh0.
  - rewrite fmap_app. apply NoDup_app. split_and!; [done| |apply NoDup_singleton].
    intros s Hs ->%list_elem_of_singleton. apply go_signalled0 in Hs as (_ & _ & Hs). set_solver.
  - intros s. rewrite fmap_app, elem_of_app. cbn. rewrite list_elem_of_singleton. intros [Hs| ->].
    + apply go_signalled0 in Hs as (H1 & H2 & H3). split_and!; [done| |set_solver].
      rewrite <- Hsame in H2. exact H2.
    + split_and!; [done| |].
      * rewrite <- Hsame in Hr. intros Hf. unfold is_processed in Hr, Hf. cbn in Hr, Hf. congruence.
      * apply NoDup_app in go_nodup_ready0 as (_ & _ & Hnd). by apply NoDup_cons in Hnd as [? _].
Qed.

Lemma process_all_ok n reason todo g :
  group_ok n todo g -> pending_ikv_resps g = [] ->
  exists g', process_all reason todo g = Ret g' /\ group_ok n [] g'.
Proof.
  revert g. induction todo as [|r todo IH]; intros g Hg Hpe; [by exists g|]. cbn.
  destruct (process_marked_ok n g r todo (Some VII_RESPONSE_CODE_KERNEL_CANCELED) (Some (u64 reason))
    (- ECANCELED) Hg Hpe) as (g' & -> & Hg' & Hpe'). run. by apply IH.
Qed.

Lemma mark_ret l g :
  (forall r, r ∈ l -> is_Some (resps g !! r)) ->
  exists m, mark_processed l g =
      Ret (mk_group m (pending_ikv_resps g) (ready_ikv_resps g) (available_vii_credits g) (signals g)
             (notified g) (next_resp g)) /\
    (forall r, processed <$> m !! r = if decide (r ∈ l) then Some true else is_processed g r).
Proof.
  revert g. induction l as [|r l IH]; intros g Hal.
  { exists (resps g). split; [by destruct g|]. intros r. by rewrite decide_False by apply not_elem_of_nil. }
  destruct (Hal r) as [x Hx]; [by left|]. cbn. rewrite Hx. run.
  destruct (IH (put_resp g r (mk_ikv_resp (ir_resp x) true (client_seq x)))) as (m & Hm & Hp).
  - intros s Hs. cbn. destruct (decide (r = s)) as [->|];
      [rewrite lookup_insert_eq; by eexists|rewrite lookup_insert_ne by done; apply Hal; by right].
  - exists m. split; [exact Hm|]. intros s. rewrite Hp, is_processed_put.
    destruct (decide (s ∈ l)) as [Hs|Hs]; [by rewrite decide_True by (by right)|].
    destruct (decide (r = s)) as [<-|Hne]; [by rewrite decide_True by (by left)|].
    rewrite decide_False; [done|]. intros [->|?]%elem_of_cons; done.
Qed.

Lemma cancel_ok n reason g :
  group_ok n [] g -> exists g', edgetpu_ikv_cancel reason g = Ret g' /\ group_ok n [] g'.
Proof.
  intros Hg. pose proof Hg as []. unfold edgetpu_ikv_cancel.
  destruct (mark_ret (pending_ikv_resps g) g) as (m & -> & Hp).
  { intros r Hr. apply go_pending0, processed_iff in Hr as (x & Hx & _). by eexists. }
  run. apply (process_all_ok n); [|done]. split; cbn.
  - intros r. unfold is_processed at 1. cbn. rewrite Hp. split; [by intros ?%elem_of_nil|].
    case_decide; [done|]. by rewrite <- go_pending0.
  - intros r. unfold is_processed. cbn. rewrite Hp, elem_of_app. specialize (go_ready0 r).
    rewrite app_nil_r in go_ready0. rewrite go_ready0. case_decide; [tauto|]. tauto.
  - constructor.
  - rewrite app_nil_r in go_nodup_ready0. apply NoDup_app. split_and!; [done| |done].
    intros r Hr Hr'. apply go_pending0 in Hr'. rewrite <- (app_nil_r (ready_ikv_resps g)) in Hr.
    apply go_ready0 in Hr. congruence.
  - cbn in *. lia.
  - done.
  - intros r Hr. pose proof (go_fresh0 r Hr) as Hn.
    assert (processed <$> m !! r = is_processed g r) as He.
    { rewrite Hp, decide_False; [done|]. intros Hin. apply go_pending0 in Hin. unfold is_processed in Hin.
      by rewrite Hn in Hin. }
    unfold is_processed in He. rewrite Hn in He. by destruct (m !! r).
  - done.
  - intros r Hr. apply go_signalled0 in Hr as (H1 & H2 & _). split_and!; [done| |].
    + unfold is_processed. cbn. rewrite Hp. by case_decide.
    + by rewrite go_pending0.
Qed.

Lemma send_ok n cmd pasid put g :
  group_ok n [] g -> group_ok n [] (edgetpu_device_group_send_vii_command cmd pasid put g).2.
Proof.
  intros Hg. unfold edgetpu_device_group_send_vii_command.
  destruct (Z.eqb_spec (available_vii_credits g) 0) as [|Hne]; [done|]. pose proof Hg as [].
  destruct (put =? 0); cbn [negb snd].
  - set (r := next_resp g). assert (Hnone : is_processed g r = None).
    { unfold is_processed. by rewrite (go_fresh0 r) by (unfold r; lia). }
    split; cbn; fold r.
    + intros s. rewrite elem_of_app, list_elem_of_singleton, go_pending0. unfold is_processed in *. cbn.
      destruct (decide (r = s)) as [Hs|]; [rewrite <- Hs, lookup_insert_eq|rewrite lookup_insert_ne by done];
        cbn; intuition congruence.
    + intros s. rewrite go_ready0. unfold is_processed in *. cbn.
      destruct (decide (r = s)) as [Hs|]; [rewrite <- Hs, lookup_insert_eq, Hnone|by rewrite lookup_insert_ne].
      done.
    + apply NoDup_app. split_and!; [done| |apply NoDup_singleton].
      intros s Hs Hrs%list_elem_of_singleton. apply go_pending0 in Hs. congruence.
    + done.
    + rewrite length_app. cbn in *. lia.
    + lia.
    + intros s Hs. rewrite lookup_insert_ne by lia. apply go_fresh0. unfold r in Hs. lia.
    + done.
    + intros s Hs. apply go_signalled0 in Hs as (H1 & H2 & H3). split_and!; [unfold r; lia| |done].
      unfold is_processed in *. cbn. by rewrite lookup_insert_ne by (unfold r; lia).
  - destruct g. cbn in *. replace (available_vii_credits0 - 1 + 1) with available_vii_credits0 by lia. done.
Qed.

(** The packet of a response is overwritten. *)
Lemma packet_ok n g r x p :
  group_ok n [] g -> resps g !! r = Some x ->
  group_ok n [] (put_resp g r (mk_ikv_resp p (processed x) (client_seq x))).
Proof.
  intros Hg Hx. pose proof (live_below _ _ _ r Hg (mk_is_Some _ _ Hx)) as Hlt.
  assert (Hsame : forall s, is_processed (put_resp g r (mk_ikv_resp p (processed x) (client_seq x))) s =
    is_processed g s).
  { intros s. rewrite is_processed_put. case_decide; [|done]. subst. unfold is_processed. by rewrite Hx. }
  destruct Hg. split; try done; try (intros s; rewrite Hsame; done).
  - intros s Hs. cbn. rewrite lookup_insert_ne by (cbn in Hs; lia). by apply go_fresh0.
  - intros s Hs. rewrite Hsame. by apply go_signalled0.
Qed.

Lemma get_ok n g :
  group_ok n [] g ->
  exists o, edgetpu_device_group_get_vii_response g = Ret o /\ group_ok n [] o.2.
Proof.
  intros Hg. unfold edgetpu_device_group_get_vii_response. pose proof Hg as [].
  destruct (ready_ikv_resps g) as [|r l] eqn:Er; [by eexists|].
  rewrite app_nil_r in go_nodup_ready0. apply NoDup_cons in go_nodup_ready0 as [Hrl Hnd].
  assert (Hr : is_processed g r = Some true) by (apply go_ready0; by left).
  apply processed_iff in Hr as Hx. destruct Hx as (x & Hx & _). rewrite Hx. run.
  eexists. split; [done|]. cbn [snd].
  assert (Hfree : forall s, is_processed (free_resp (set_queues g (pending_ikv_resps g) l) r) s =
    if decide (r = s) then None else is_processed g s) 
    by (intros s; exact (is_processed_free (set_queues g (pending_ikv_resps g) l) r s)).
  split; try done.
  - intros s. rewrite Hfree. cbn. rewrite go_pending0. case_decide; [|done]. subst. intuition congruence.
  - intros s. rewrite Hfree. cbn. rewrite app_nil_r.
    specialize (go_ready0 s). rewrite app_nil_r, elem_of_cons in go_ready0.
    case_decide; [subst; intuition congruence|]. rewrite <- go_ready0. intuition congruence.
  - cbn. by rewrite app_nil_r.
  - intros s Hs. cbn. destruct (decide (r = s)) as [<-|]; [by rewrite lookup_delete_eq|].
    rewrite lookup_delete_ne by done. by apply go_fresh0.
  - intros s Hs. rewrite Hfree. apply go_signalled0 in Hs as (H1 & H2 & H3).
    split_and!; [done| |done]. by case_decide.
Qed.

(** C18. The credits of a group are conserved: in any sequence of sends, responses, timeouts,
    cancellations and reads, where the handlers may be called again and again for the same
    response by races, no operation touches a freed response, the credits available and
    the commands outstanding always add up to the credits of the group, a response is on
    exactly one of the two queues, and its fences are signalled at most once.  The handlers run
    while the response still exists ([op_live]): the kernel code that calls them holds it. *)
Theorem group_credits_conserved n op g :
  group_ok n [] g -> op_live op g ->
  exists g', group_step op g = Ret g' /\ group_ok n [] g' /\ 0 <= available_vii_credits g' <= n.
Proof.
  intros Hg Hop. assert (Hk : exists g', group_step op g = Ret g' /\ group_ok n [] g').
  { destruct op as [cmd pasid put|r p|ms r|reason|]; cbn [group_step op_live] in *.
    - eexists. split; [done|]. by apply send_ok.
    - destruct Hop as [x Hx]. unfold edgetpu_ikv_handle_awaiter_arrived. rewrite Hx. run.
      apply process_ok; [by apply packet_ok|]. cbn. rewrite lookup_insert_eq. by eexists.
    - by apply process_ok.
    - by apply cancel_ok.
    - destruct (get_ok n g Hg) as (o & -> & Ho). by exists o.2. }
  destruct Hk as (g' & Hs & Hg'). exists g'. split; [done|]. split; [done|].
  destruct Hg'. cbn in *. lia.
Qed.

Definition group0 : edgetpu_device_group := mk_group ∅ [] [] 8 [] 0 0.

Lemma group0_ok : group_ok EDGETPU_NUM_VII_CREDITS_PER_CLIENT [] group0.
Proof.
  assert (Hno : forall r b, is_processed group0 r <> Some b).
  { intros r b. unfold is_processed. cbn. by rewrite lookup_empty. }
  split; cbn; try done; try constructor.
  - by intros ?%elem_of_nil.
  - by intros ?%Hno.
  - by intros ?%elem_of_nil.
  - by intros ?%Hno.
  - by apply elem_of_nil in H.
  - by apply elem_of_nil in H.
Defined.

Lemma group_credits_conserved_witness : exists g',
  group_step (GSend (mk_vii_command 3 0 0) 1 0) group0 = Ret g' /\ available_vii_credits g' <= 8.
Proof.
  destruct (group_credits_conserved EDGETPU_NUM_VII_CREDITS_PER_CLIENT
              (GSend (mk_vii_command 3 0 0) 1 0) group0) as (g' & Hs & _ & Hc).
  - apply group0_ok.
  - exact I.
  - exists g'. split; [exact Hs|]. exact (proj2 Hc).
Defined.

(** A flushed response is freed while it is on the pending queue: cancelling the group
    afterwards reads it. *)
Theorem flushed_response_stays_pending cmd pasid :
  let g := (edgetpu_device_group_send_vii_command cmd pasid 0 group0).2 in
  exists g', edgetpu_ikv_handle_awaiter_flushed 0 g = Ret g' /\
    resps g' !! 0 = None /\ pending_ikv_resps g' = [0] /\ edgetpu_ikv_cancel 0 g' = Undef.
Proof. eexists. split; [reflexivity|]. split; [reflexivity|]. split; reflexivity. Qed.

(** ** Runs of the mailbox *)

#[local] Abbreviation vii_label := (@label edgetpu_vii_command edgetpu_vii_response).
#[local] Abbreviation vii_config := (@config edgetpu_vii_command edgetpu_vii_response).

Definition mailbox0 : @gcip_mailbox edgetpu_vii_command edgetpu_vii_response :=
  mk_mailbox GCIP_MAILBOX_MODE_FORWARD 0 (replicate 4 (mk_vii_command 0 0 0))
    (mk_hw 0 4 0 4 0 0 0 0) false [] false ∅ ∅ 0 ∅ ∅ [].

Definition all_ok : answers := mk_answers true 0 true 0 0.

Lemma mailbox0_initial : initial mailbox0 4.
Proof. split; try done; lia. Defined.

Lemma mailbox0_initial2 : initial2 mailbox0 4.
Proof. split; [apply mailbox0_initial|reflexivity..]. Defined.

(** The function with number [i] makes [n] steps. *)
Definition steps (i n : nat) : list vii_label :=
  replicate n (LRun i).

(** The log and the awaiters on the wait list after a run. *)
Definition outcome_of (ls : list vii_label) (m : gcip_mailbox) : outcome (list event * list (option Z)) :=
  let* c := run_labels ls (mk_config m []) in
  Ret (log (mbox c), e_awaiter <$> wait_list (mbox c)).

(** A command is sent and answered. *)
Definition send_and_answer : list vii_label :=
  [LPut all_ok (mk_vii_command 0 7 1) (mk_vii_response 0 0 1 0) 0] ++ steps 0 8 ++
  [LResponse (mk_vii_response 0 0 1 99)] ++ steps 1 5 ++ [LRelease 0] ++ steps 2 1.

Example send_and_answer_runs :
  outcome_of send_and_answer mailbox0 = Ret ([EvQueued 0; EvArrived 0; EvReleased 0], []).
Proof. vm_compute. reflexivity. Qed.

(** *** Runs under the discipline *)

Definition disciplined_b (l : vii_label) (c : vii_config) : bool :=
  (cur_seq (mbox c) <? 2 ^ 64 - 1) &&
  match l with
  | LPut _ _ _ flags =>
    negb (has_bits flags GCIP_MAILBOX_CMD_FLAGS_SKIP_ASSIGN_SEQ) &&
    negb (has_bits flags GCIP_MAILBOX_CMD_FLAGS_NO_TIMEOUT)
  | LFire a => existsb (fun e => bool_decide (e = EvQueued a)) (log (mbox c))
  | _ => true
  end.

Lemma disciplined_b_ok l c : disciplined_b l c = true -> disciplined l c.
Proof.
  unfold disciplined_b, disciplined. intros [Hs Hl]%andb_prop. apply Z.ltb_lt in Hs. split; [done|].
  destruct l; try done.
  - unfold plain. by apply andb_prop in Hl as [?%negb_true_iff ?%negb_true_iff].
  - apply queued_in. unfold queued. by rewrite Hl.
Qed.

Fixpoint all_disciplined (ls : list vii_label) (c : vii_config) : bool :=
  match ls with
  | [] => true
  | l :: ls => disciplined_b l c &&
      match perform l c with Ret c' => all_disciplined ls c' | _ => false end
  end.

Lemma run_reach G (ls : list vii_label) c0 c c' :
  (forall l c, G l c) \/ (G = disciplined /\ all_disciplined ls c = true) ->
  reach G c0 c -> run_labels ls c = Ret c' -> reach G c0 c'.
Proof.
  revert c. induction ls as [|l ls IH]; intros c HG Hr Hrun; cbn in Hrun; [by injection Hrun as <-|].
  apply obind_Ret in Hrun as (c1 & Hp & Hrun). apply (IH c1); [|..|done].
  - destruct HG as [HG|[-> Hd]]; [by left|right]. split; [done|]. cbn in Hd.
    apply andb_prop in Hd as [_ Hd]. by rewrite Hp in Hd.
  - apply (reach_step G c0 l c c1); [done| |done]. destruct HG as [HG|[-> Hd]]; [apply HG|].
    cbn in Hd. apply andb_prop in Hd as [Hd _]. by apply disciplined_b_ok.
Qed.

Definition end_of (ls : list vii_label) : vii_config :=
  match run_labels ls (mk_config mailbox0 []) with Ret c => c | _ => mk_config mailbox0 [] end.

(** A command that is answered while its timer expires, cancelled at the same time. *)
Definition race : list vii_label :=
  [LPut all_ok (mk_vii_command 0 7 1) (mk_vii_response 0 0 1 0) 0] ++ steps 0 8 ++
  [LFire 0; LResponse (mk_vii_response 0 0 1 99); LCancel 0] ++
  [LRun 1; LRun 3; LRun 2; LRun 3; LRun 1; LRun 1; LRun 1; LRun 2; LRun 2; LRun 2; LRun 3; LRun 3].

Lemma race_runs : run_labels race (mk_config mailbox0 []) = Ret (end_of race).
Proof. vm_compute. reflexivity. Defined.

Lemma mailbox_no_use_after_free_witness :
  perform (LRelease 0) (end_of race) <> Undef /\
  exists c, perform (LRelease 0) (end_of race) = Ret c.
Proof.
  destruct (mailbox_no_use_after_free mailbox0 4 (end_of race) (LRelease 0)) as [Hu Hs].
  3:{ split; [exact Hu|]. apply Hs; [reflexivity|]. split; vm_compute; reflexivity. }
  - apply mailbox0_initial.
  - apply (run_reach _ race _ (mk_config mailbox0 [])); [left; intros; exact I|apply reach_refl|].
    apply race_runs.
Defined.

Lemma mailbox_calls_return_witness :
  Forall (fun p => p = Done tt) (pool (end_of race)).
Proof.
  refine (proj2 (mailbox_calls_return mailbox0 4 (end_of race) _ _) _).
  - apply mailbox0_initial.
  - apply (run_reach _ race _ (mk_config mailbox0 [])); [left; intros; exact I|apply reach_refl|].
    apply race_runs.
  - intros [|[|[|[|i]]]]; vm_compute; reflexivity.
Defined.

Lemma race_reach : reach disciplined (mk_config mailbox0 []) (end_of race).
Proof.
  apply (run_reach _ race _ (mk_config mailbox0 [])); [|apply reach_refl|apply race_runs].
  right. split; [reflexivity|vm_compute; reflexivity].
Defined.

Lemma mailbox_resolves_at_most_once_witness :
  resolutions 0 (log (mbox (end_of race))) <= 1.
Proof.
  refine (proj1 (mailbox_resolves_at_most_once mailbox0 4 (end_of race) 0 _ _)).
  - apply mailbox0_initial2.
  - apply race_reach.
Defined.

Lemma mailbox_quiescent_resolved_witness : wait_list (mbox (end_of race)) = [].
Proof.
  refine (proj1 (mailbox_quiescent_resolved mailbox0 4 (end_of race) _ _ _)).
  - apply mailbox0_initial2.
  - apply race_reach.
  - intros [[|[|[|[|i]]]]| | |a| | | |] Hi; try discriminate Hi; try (vm_compute; reflexivity).
    cbn [perform]. destruct (decide (a = 0)) as [->|Hne]; [vm_compute; reflexivity|].
    assert (Haw : awaiters (mbox (end_of race)) !! a = None); [|by rewrite Haw].
    assert (Hm : awaiters (mbox (end_of race)) =
      {[ 0 := mk_awaiter (mk_async 0 (Some (mk_vii_response 0 0 1 99))) NoWork 1 ]})
      by (vm_compute; reflexivity).
    rewrite Hm. by apply lookup_singleton_ne.
Defined.

(** *** What happens without the discipline *)

(** Two clients number their commands alike, as the numbers come from the clients here:
    cancelling the command of the second removes the entry of the first.  The handler of
    the second is called after the cancellation has reported success, and the response of
    the first is dropped. *)
Definition same_numbers : list vii_label :=
  [LPut all_ok (mk_vii_command 3 7 1) (mk_vii_response 0 0 1 0) 3] ++ steps 0 8 ++
  [LPut all_ok (mk_vii_command 3 7 2) (mk_vii_response 0 0 2 0) 3] ++ steps 1 8 ++
  [LCancel 1] ++ steps 2 4 ++
  [LResponse (mk_vii_response 3 0 2 99)] ++ steps 3 4 ++
  [LResponse (mk_vii_response 3 0 1 99)] ++ steps 4 1.

Theorem same_number_cancels_other_client :
  outcome_of same_numbers mailbox0 =
  Ret ([EvQueued 0; EvQueued 1; EvCancelled 1 true; EvArrived 1], []).
Proof. vm_compute. reflexivity. Qed.

(** A timer that expires before its command is queued takes the entry of another command,
    whose response is then dropped, and its own command waits without a timer. *)
Definition early_timer : list vii_label :=
  [LPut all_ok (mk_vii_command 0 7 1) (mk_vii_response 0 0 1 0) 0] ++ steps 0 8 ++
  [LPut all_ok (mk_vii_command 0 7 1) (mk_vii_response 0 0 1 0) 0; LRun 1; LFire 1] ++
  steps 2 5 ++ steps 1 7 ++ [LResponse (mk_vii_response 0 0 1 99)] ++ steps 3 1 ++
  [LFire 0] ++ steps 4 4.

Theorem early_timer_takes_other_entry :
  outcome_of early_timer mailbox0 = Ret ([EvQueued 0; EvTimedout 1; EvQueued 1], [Some 1]) /\
  forall a, perform (LFire a) (end_of early_timer) = Deadlock.
Proof.
  split; [vm_compute; reflexivity|]. intros a. cbn [perform].
  destruct (awaiters (mbox (end_of early_timer)) !! a) as [w|] eqn:Hw; [|done].
  assert (Hall : map_Forall (fun _ w => timeout_work w = NoWork) (awaiters (mbox (end_of early_timer)))).
  { apply map_Forall_to_list. vm_compute. repeat constructor. }
  unfold guard. rewrite bool_decide_false; [done|]. by rewrite (Hall a w Hw).
Qed.

(** A cancellation that comes after the response was matched returns before the handler of
    the response is called. *)
Definition late_arrival : list vii_label :=
  [LPut all_ok (mk_vii_command 0 7 1) (mk_vii_response 0 0 1 0) 0] ++ steps 0 8 ++
  [LResponse (mk_vii_response 0 0 1 99); LRun 1; LCancel 0] ++ steps 2 5 ++ steps 1 2.

Theorem arrived_after_cancel_returned :
  outcome_of late_arrival mailbox0 = Ret ([EvQueued 0; EvCancelled 0 false; EvArrived 0], []).
Proof. vm_compute. reflexivity. Qed.

(** When ringing the doorbell fails, the awaiter is freed while its entry stays on the list:
    the next response reads it. *)
Theorem doorbell_error_frees_waiting_awaiter :
  let x := mk_answers true 0 true 0 (- EINVAL) in
  exists m, exec (gcip_mailbox_put_cmd x (mk_vii_command 0 7 1) (Some (mk_vii_response 0 0 1 0))) mailbox0 =
      Ret (inl (- EINVAL), m) /\
    exec (gcip_mailbox_handle_response (mk_vii_response 0 0 1 99) (Done tt)) m = Undef.
Proof. eexists. split; [vm_compute; reflexivity|]. vm_compute. reflexivity. Qed.

(** A command without a response buffer, which the interface allows, dereferences the null
    pointer when its timer expires. *)
Theorem null_response_times_out :
  exists m, exec (gcip_mailbox_put_cmd all_ok (mk_vii_command 0 7 1) None) mailbox0 = Ret (inr 0, m) /\
    exec (gcip_mailbox_async_cmd_timeout_work 0) m = Undef.
Proof. eexists. split; [vm_compute; reflexivity|]. vm_compute. reflexivity. Qed.
