(* ===== verification/GcipSend.v ===== *)
(** Synchronous commands: the entry on the wait list points to the stack of the sender, and
    it is gone when the sender returns. *)

From stdpp Require Import gmap.
From S2P Require Import Prelude GcipQueue GcipStream GcipMailbox GcipAwait GcipSafe GcipOnce.

Section send.
Context {C R : Set} `{!MailboxElems C R, !MailboxLaws C R}.

#[local] Abbreviation mailbox := (@gcip_mailbox C R).

(** A mailbox that can take a command: the queue has room, the lock is free, and what waits
    has other numbers than the next one. *)
Record can_send (m : mailbox) : Prop := {
  cs_tx : tx_ok m;
  cs_lock : tx_locked m = false;
  cs_mode : should_maintain_seq_num (mode m) = true;
  cs_seq : 0 <= cur_seq m < 2 ^ 64;
  cs_waiters : Forall (fun e => e_async e <> StackOf (fresh_addr m) /\
    exists r, resp_of m (e_async e) = Ret r /\ get_resp_elem_seq r <> cur_seq m) (wait_list m);
  cs_frame : stack m !! fresh_addr m = None;
}.

Definition accepted (x : answers) : Prop :=
  x_wait x = 0 /\ x_elem x = true /\ x_before x = 0 /\ x_after x = 0.

(** The state in which the sender waits. *)
Definition sent (m : mailbox) (cmd : C) (r : R) : mailbox :=
  let t := fresh_addr m in
  let slot := Z.to_nat (CIRC_QUEUE_REAL_INDEX (cmd_queue_tail (hw m)) CIRC_QUEUE_WRAP_BIT) in
  mk_mailbox (mode m) (u64 (cur_seq m + 1)) (<[slot := set_cmd_elem_seq cmd (cur_seq m)]> (tx_queue m))
    (edgetpu_mailbox_inc_cmd_queue_tail (hw m) 1) false
    (wait_list m ++ [mk_elem (StackOf t) None]) (released m) (awaiters m)
    (<[t := mk_async GCIP_MAILBOX_STATUS_WAITING_RESPONSE (Some (set_resp_elem_seq r (cur_seq m)))]>
       (stack m)) (t + 1) (running m) (client m) (log m).

Lemma send_until_wait x cmd r m time_over :
  can_send m -> accepted x ->
  exec (gcip_mailbox_send_cmd x cmd (Some r) 0 time_over) m =
  exec (send_wait (fresh_addr m) time_over) (sent m cmd r).
Proof.
  intros [Htx Hl Hm Hs Hw Hf] (Hx1 & Hx2 & Hx3 & Hx4).
  destruct (tx_ok_submit m (set_cmd_elem_seq cmd (cur_seq m))
    (Z.to_nat (CIRC_QUEUE_REAL_INDEX (cmd_queue_tail (hw m)) CIRC_QUEUE_WRAP_BIT)) Htx) as (c & Hc & _).
  unfold gcip_mailbox_send_cmd, gcip_mailbox_enqueue_cmd, gcip_mailbox_push_wait_resp.
  cbn [exec]. unfold push_frame at 1. run. unfold acquire_tx_queue_lock. proj. rewrite Hl. run.
  unfold number_cmd. proj. rewrite Hm. change (has_bits 0 _) with false. run.
  rewrite Hx1. cbn [Z.eqb negb exec]. unfold prepare_resp at 1, async_of. proj. rewrite lookup_insert_eq. run.
  cbn [resp]. rewrite get_set_cmd by lia. rewrite Hx2, Hx3. cbn [Z.eqb negb exec].
  unfold list_add_tail at 1. run. cbn [exec]. unfold submit_cmd. proj. cbn [set_async]. run. proj. rewrite Hc. run.
  rewrite Hx4. cbn [Z.eqb negb]. proj. rewrite Hm. change (has_bits 0 _) with false. run. cbn [exec].
  unfold release_tx_queue_lock. run. cbn [Z.eqb negb]. unfold sent. proj. cbn. by rewrite insert_insert_eq.
Qed.

(** A new frame does not disturb what waits. *)
Lemma take_first_app (m : mailbox) test l e r :
  Forall (fun e => exists r, resp_of m (e_async e) = Ret r /\ test r = false) l ->
  resp_of m (e_async e) = Ret r -> test r = true ->
  take_first m test (l ++ [e]) = Ret (Some e, l).
Proof.
  intros Hl He Ht. induction Hl as [|e' l (r' & Hr' & Ht') _ IH]; cbn.
  - rewrite He. run. by rewrite Ht.
  - rewrite Hr'. run. rewrite Ht', IH. done.
Qed.

Lemma sent_waiters m cmd r :
  can_send m ->
  Forall (fun e => exists r', resp_of (sent m cmd r) (e_async e) = Ret r' /\
    get_resp_elem_seq r' <> cur_seq m) (wait_list m).
Proof.
  intros Hc. eapply Forall_impl; [apply (cs_waiters _ Hc)|]. intros e [Hne (r' & Hr' & Hs)].
  exists r'. split; [|done]. rewrite <- Hr'. unfold resp_of, async_of, sent. proj. cbn.
  destruct (e_async e) as [a|t]; [done|]. by rewrite lookup_insert_ne by congruence.
Qed.
End send.

(** C17. A synchronous command that is not answered: [gcip_mailbox_send_cmd] returns
    [-ETIMEDOUT] and the wait list, the awaiters and the stack frames are as before the
    call, so no entry points to the frame that is gone; the error handler is told once. *)
Theorem send_cmd_timeout_cleans_up {C R : Set} `{!MailboxElems C R, !MailboxLaws C R} x cmd r m :
  can_send m -> accepted x ->
  exists r' m', exec (gcip_mailbox_send_cmd x cmd (Some r) 0 true) m = Ret ((- ETIMEDOUT, r'), m') /\
    wait_list m' = wait_list m /\ awaiters m' = awaiters m /\ stack m' = stack m /\
    cur_seq m' = u64 (cur_seq m + 1) /\ tx_locked m' = false /\
    log m' = log m ++ [EvError (- ETIMEDOUT)].
Proof.
  intros Hc Hx. rewrite send_until_wait by done. pose proof (cs_seq _ Hc).
  unfold send_wait, gcip_mailbox_del_wait_resp, send_error. cbn [exec]. unfold wait_event.
  assert (Hst : stack (sent m cmd r) !! fresh_addr m =
    Some (mk_async GCIP_MAILBOX_STATUS_WAITING_RESPONSE (Some (set_resp_elem_seq r (cur_seq m)))))
    by (unfold sent; proj; apply lookup_insert_eq).
  assert (Hre : resp_of (sent m cmd r) (StackOf (fresh_addr m)) = Ret (set_resp_elem_seq r (cur_seq m)))
    by (unfold resp_of, async_of; by rewrite Hst).
  rewrite Hst. run. cbn [status]. rewrite Z.eqb_refl. run. cbn [exec]. unfold read_seq. rewrite Hre. run.
  rewrite get_set_resp by lia. cbn [exec]. unfold del_locked.
  replace (wait_list (sent m cmd r)) with (wait_list m ++ [mk_elem (StackOf (fresh_addr m)) None]) by done.
  rewrite (take_first_app _ _ _ _ (set_resp_elem_seq r (cur_seq m))); [|..|exact Hre|].
  - run. cbn [e_awaiter]. run. cbn [exec]. unfold on_error. run. cbn [exec]. unfold pop_frame. proj.
    rewrite Hst. run. cbn [exec]. eexists _, _. split; [done|]. unfold sent. proj. split_and!; try done.
    apply delete_insert_id. apply (cs_frame _ Hc).
  - eapply Forall_impl; [by apply sent_waiters|]. intros e (r' & Hr' & Hs). exists r'. split; [done|].
    by apply Z.eqb_neq.
  - rewrite get_set_resp by lia. apply Z.eqb_refl.
Qed.

(** C16. A synchronous command that is answered: the response with its number, handled while
    the sender waits, is what the sender finds in its buffer; it returns 0 and the wait
    list and the stack frames are as before. *)
Theorem send_cmd_gets_response {C R : Set} `{!MailboxElems C R, !MailboxLaws C R} x cmd r m answer over :
  can_send m -> accepted x -> get_resp_elem_seq answer = cur_seq m ->
  does_response_match_waiter answer (set_resp_elem_seq r (cur_seq m)) = true ->
  exec (gcip_mailbox_send_cmd x cmd (Some r) 0 over) m =
    exec (send_wait (fresh_addr m) over) (sent m cmd r) /\
  exists m1 m2, exec (gcip_mailbox_handle_response answer (Done tt)) (sent m cmd r) = Ret (tt, m1) /\
    exec (send_wait (fresh_addr m) over) m1 = Ret ((0, Some answer), m2) /\
    wait_list m2 = wait_list m /\ awaiters m2 = awaiters m /\ stack m2 = stack m /\ log m2 = log m.
Proof.
  intros Hc Hx Ha Hm. split; [by apply send_until_wait|]. pose proof (cs_seq _ Hc).
  assert (Hst : stack (sent m cmd r) !! fresh_addr m =
    Some (mk_async GCIP_MAILBOX_STATUS_WAITING_RESPONSE (Some (set_resp_elem_seq r (cur_seq m)))))
    by (unfold sent; proj; apply lookup_insert_eq).
  unfold gcip_mailbox_handle_response. cbn [exec]. unfold match_locked.
  replace (wait_list (sent m cmd r)) with (wait_list m ++ [mk_elem (StackOf (fresh_addr m)) None]) by done.
  rewrite (take_first_app _ _ _ _ (set_resp_elem_seq r (cur_seq m))); [|..|done].
  - run. cbn [e_awaiter e_async set_async exec]. eexists _, _. split; [done|].
    unfold send_wait. cbn [exec]. unfold wait_event. proj. rewrite lookup_insert_eq. run. cbn [status].
    change (GCIP_MAILBOX_STATUS_OK =? GCIP_MAILBOX_STATUS_WAITING_RESPONSE) with false. run. cbn [exec].
    unfold pop_frame. proj. rewrite lookup_insert_eq. run. cbn [status resp].
    change (GCIP_MAILBOX_STATUS_OK =? GCIP_MAILBOX_STATUS_OK) with true. run. cbn [exec].
    split; [done|]. unfold sent. proj. split_and!; try done.
    rewrite insert_insert_eq. apply delete_insert_id. apply (cs_frame _ Hc).
  - eapply Forall_impl; [by apply sent_waiters|]. intros e (r' & Hr' & Hs). exists r'. split; [done|].
    destruct (does_response_match_waiter answer r') eqn:E; [|done]. apply match_same_seq in E. congruence.
  - cbn [e_async]. unfold resp_of, async_of. by rewrite Hst.
Qed.

(** ** An instance *)

#[local] Instance number_elems : MailboxElems Z (Z * Z) := {
  get_cmd_elem_seq := fun c => c;
  set_cmd_elem_seq := fun _ s => s;
  get_resp_elem_seq := fst;
  set_resp_elem_seq := fun r s => (s, r.2);
  match_op := None;
  is_rx_elem_reversed := None;
  has_arrived := true;
  has_timedout := true;
  has_flushed := true;
}.

#[local] Instance number_laws : MailboxLaws Z (Z * Z).
Proof. split; try done. intros i w Hm. by apply Z.eqb_eq in Hm. Defined.

Definition idle_mailbox : @gcip_mailbox Z (Z * Z) :=
  mk_mailbox GCIP_MAILBOX_MODE_FORWARD 5 [0; 0; 0] (mk_hw 0 3 0 3 0 0 0 0) false [] false ∅ ∅ 0 ∅ ∅ [].

Lemma idle_can_send : can_send idle_mailbox.
Proof.
  split; try done. exists 3, 0. split_and!; try done; lia.
Defined.

Lemma send_cmd_timeout_cleans_up_witness : exists r' m',
  exec (gcip_mailbox_send_cmd (mk_answers true 0 true 0 0) 7 (Some (0, 0)) 0 true) idle_mailbox =
    Ret ((- ETIMEDOUT, r'), m') /\ wait_list m' = [].
Proof.
  destruct (send_cmd_timeout_cleans_up (mk_answers true 0 true 0 0) 7 (0, 0) idle_mailbox)
    as (r' & m' & He & Hw & _).
  - apply idle_can_send.
  - repeat split.
  - exists r', m'. split; [exact He|exact Hw].
Defined.

Lemma send_cmd_gets_response_witness : exists m1 m2,
  exec (gcip_mailbox_handle_response (5, 42) (Done tt)) (sent idle_mailbox 7 (0, 0)) = Ret (tt, m1) /\
  exec (send_wait 0 false) m1 = Ret ((0, Some (5, 42)), m2).
Proof.
  destruct (send_cmd_gets_response (mk_answers true 0 true 0 0) 7 (0, 0) idle_mailbox (5, 42) false)
    as (_ & m1 & m2 & H1 & H2 & _).
  - apply idle_can_send.
  - repeat split.
  - reflexivity.
  - reflexivity.
  - exists m1, m2. split; [exact H1|exact H2].
Defined.
