(* ===== verification/GbmsStorage.v ===== *)
(** * Battery storage: providers, tags and the cache (src/bms/gbms_storage.c)

    Drivers keep small records (serial number, cycle counts, history) in whatever device the
    board has.  A record has a four-letter tag.  A provider registers a descriptor of
    callbacks under a name; [gbms_storage_read] and [gbms_storage_write] ask the providers
    in turn until one knows the tag, and remember it in a cache.  The state of the devices
    behind the providers is the type [D]; a callback gets the [ptr] of its slot. *)

From Stdlib Require Import String.
From S2P Require Import Prelude.

Definition GBMS_PROVIDER_NAME_MAX : nat := 32.
Definition GBMS_PROVIDERS_MAX : nat := 6.
Definition GBMS_HASHTABLE_SIZE : nat := 5.
Definition GBMS_STORAGE_ADDR_INVALID : Z := -1.
Definition GBMS_STORAGE_INDEX_INVALID : Z := -1.

(** ** Tags as text *)

(** The four bytes before the final zero (the processor is little endian). *)
Definition tag2cstr (tag : Z) : list Z :=
  [ Z.land (Z.shiftr tag 24) 0xff; Z.land (Z.shiftr tag 16) 0xff;
    Z.land (Z.shiftr tag 8) 0xff; Z.land tag 0xff ].

Definition cstr2tag (buff : list Z) : outcome Z :=
  let* b0 := must (buff !! 0%nat) in
  let* b1 := must (buff !! 1%nat) in
  let* b2 := must (buff !! 2%nat) in
  let* b3 := must (buff !! 3%nat) in
  let tag := u8 b0 in
  let tag := u32 (u32 (Z.shiftl tag 8) + u8 b1) in
  let tag := u32 (u32 (Z.shiftl tag 8) + u8 b2) in
  Ret (u32 (u32 (Z.shiftl tag 8) + u8 b3)).

Section storage.
Context {D : Type}.

(** ** Data

    A callback that reads returns its status and the bytes it put at the start of the
    buffer; [data] says whether the buffer is there.  A callback that writes gets the
    memory at [data], if any, and the number of bytes to take. *)
Record gbms_storage_desc := mk_desc {
  d_iter : option (forall (index ptr : Z), D -> outcome (Z * Z));
  d_info : option (forall (tag ptr : Z), D -> outcome (Z * (Z * Z)));
  d_read : option (forall (tag : Z) (data : bool) (count ptr : Z), D -> outcome (Z * list Z));
  d_write : option (forall (tag : Z) (data : option (list Z)) (count ptr : Z), D -> outcome (Z * D));
  d_fetch : option (forall (data : bool) (addr count ptr : Z), D -> outcome (Z * list Z));
  d_store : option (forall (data : option (list Z)) (addr count ptr : Z), D -> outcome (Z * D));
  d_flush : option (forall (force : bool) (ptr : Z), D -> outcome (Z * D));
  d_read_data : option (forall (tag : Z) (data : bool) (count idx ptr : Z),
                          D -> outcome (Z * list Z));
  d_write_data : option (forall (tag : Z) (data : option (list Z)) (count idx ptr : Z),
                           D -> outcome (Z * D));
}.

(** Used when the device of a provider never shows up. *)
Definition gbms_dummy_dsc : gbms_storage_desc :=
  mk_desc None None None None None None None None None.

Record gbms_storage_provider := mk_provider {
  p_name : option string;
  p_dsc : option gbms_storage_desc;
  p_offline : bool;
  p_ptr : Z;
}.

(** [ce_provider] is the index of the slot. *)
Record gbms_cache_entry := mk_entry {
  ce_provider : nat;
  ce_tag : Z;
  ce_count : Z;
  ce_addr : Z;
}.

(** The variables of the module: the table is an array of [GBMS_PROVIDERS_MAX] slots; the pool
    is there or not, with a number of free entries; the cache has the newest entry first. *)
Record gbms_storage := mk_storage {
  gbms_storage_init_done : bool;
  gbms_providers_count : nat;
  gbms_providers : list gbms_storage_provider;
  gbms_cache_pool : option nat;
  gbms_cache : list gbms_cache_entry;
  devices : D;
}.

Definition empty_slot : gbms_storage_provider := mk_provider None None false 0.

Definition set_providers (s : gbms_storage) (n : nat) (l : list gbms_storage_provider) :=
  mk_storage (gbms_storage_init_done s) n l (gbms_cache_pool s) (gbms_cache s) (devices s).
Definition set_cache (s : gbms_storage) (pool : option nat) (l : list gbms_cache_entry) :=
  mk_storage (gbms_storage_init_done s) (gbms_providers_count s) (gbms_providers s) pool l (devices s).
Definition set_devices (s : gbms_storage) (d : D) :=
  mk_storage (gbms_storage_init_done s) (gbms_providers_count s) (gbms_providers s)
    (gbms_cache_pool s) (gbms_cache s) d.

(** The slots in use. *)
Definition slots (s : gbms_storage) : list gbms_storage_provider :=
  take (gbms_providers_count s) (gbms_providers s).

(** ** The table of providers *)

(** [strncmp(a, name, strlen(a)) == 0]. *)
Definition names (a name : string) : bool := String.prefix a name.

(** [Some (inl i)]: the loop stopped at slot [i]; [inr]: it returned; [None]: it ended. *)
Fixpoint find_name (l : list gbms_storage_provider) (name : string) (index : nat)
    : outcome (option (nat + Z)) :=
  match l with
  | [] => Ret None
  | slot :: l =>
    let* n := must (p_name slot) in
    if names n name then
      match p_dsc slot with
      | None => Ret (Some (inl index))
      | Some _ => Ret (Some (inr (- EBUSY)))
      end
    else find_name l name (S index)
  end.

(** [inr] is an error, [inl] the index. *)
Definition gbms_storage_find_slot (name : string) (s : gbms_storage) : outcome (nat + Z) :=
  let* o := find_name (slots s) name 0 in
  match o with
  | Some (inr e) => Ret (inr e)
  | Some (inl i) => Ret (if decide (i = GBMS_PROVIDERS_MAX) then inr (- ENOMEM) else inl i)
  | None =>
    let i := gbms_providers_count s in
    Ret (if decide (i = GBMS_PROVIDERS_MAX) then inr (- ENOMEM) else inl i)
  end.

Definition gbms_storage_register_internal (desc : option gbms_storage_desc)
    (name : option string) (ptr : Z) (s : gbms_storage) : outcome (Z * gbms_storage) :=
  match name with
  | None => Ret (- EINVAL, s)
  | Some nm =>
    if decide (GBMS_PROVIDER_NAME_MAX <= String.length nm)%nat then Ret (- EINVAL, s) else
    let* index := gbms_storage_find_slot nm s in
    match index with
    | inr e => Ret (e, s)
    | inl i =>
      let* slot := must (gbms_providers s !! i) in
      let slot := mk_provider (Some nm) desc (p_offline slot) ptr in
      let n := if decide (i = gbms_providers_count s) then S i else gbms_providers_count s in
      Ret (0, set_providers s n (<[i := slot]> (gbms_providers s)))
    end
  end.

Definition gbms_storage_register (desc : option gbms_storage_desc) (name : option string)
    (ptr : Z) (s : gbms_storage) : outcome (Z * gbms_storage) :=
  match desc with
  | None => Ret (- EINVAL, s)
  | Some _ =>
    if negb (gbms_storage_init_done s) then Ret (- EPROBE_DEFER, s) else
    gbms_storage_register_internal desc name ptr s
  end.

(** ** The cache *)

(** The entry, and the address, which stays what the caller set it to. *)
Definition gbms_cache_lookup (tag addr : Z) (s : gbms_storage) : option gbms_cache_entry * Z :=
  (List.find (fun ce => ce_tag ce =? tag) (gbms_cache s), addr).

Definition gbms_cache_add (tag : Z) (slot : option nat) (s : gbms_storage)
    : outcome (option gbms_cache_entry * gbms_storage) :=
  match gbms_cache_pool s, slot with
  | Some (S free), Some i =>
    let* p := must (gbms_providers s !! i) in
    let* dsc := must (p_dsc p) in
    let* loc :=
      match d_fetch dsc, d_store dsc, d_info dsc with
      | Some _, Some _, Some info =>
        let* r := info tag (p_ptr p) (devices s) in
        Ret (if r.1 =? 0 then (r.2.2, r.2.1) else (0, GBMS_STORAGE_ADDR_INVALID))
      | _, _, _ => Ret (0, GBMS_STORAGE_ADDR_INVALID)
      end in
    let entry := mk_entry i tag loc.1 loc.2 in
    Ret (Some entry, set_cache s (Some free) (entry :: gbms_cache s))
  | _, _ => Ret (None, s)
  end.

(** ** Reading and writing

    The loops over the providers: [call] is the callback that is asked for, [skip] whether
    the loop passes over providers that are offline.  The result is the status, the bytes,
    the devices, whether a provider is still to come, and the slot that answered. *)
Fixpoint scan (skip : bool)
    (call : gbms_storage_desc -> option (Z -> D -> outcome (Z * list Z * D)))
    (l : list gbms_storage_provider) (i : nat) (late_inits : bool) (d : D)
    : outcome (Z * list Z * D * bool * option nat) :=
  match l with
  | [] => Ret (- ENOENT, [], d, late_inits, None)
  | p :: l =>
    if skip && p_offline p then scan skip call l (S i) late_inits d else
    match p_dsc p with
    | None => scan skip call l (S i) true d
    | Some dsc =>
      match call dsc with
      | None => scan skip call l (S i) late_inits d
      | Some f =>
        let* r := f (p_ptr p) d in
        let '(ret, bytes, d) := r in
        if ret =? - ENOENT then scan skip call l (S i) late_inits d
        else Ret (ret, bytes, d, late_inits, if 0 <=? ret then Some i else None)
      end
    end
  end.

(** [if (late_inits && ret == -ENOENT) ret = -EPROBE_DEFER]. *)
Definition or_late (late_inits : bool) (ret : Z) : Z :=
  if late_inits && (ret =? - ENOENT) then - EPROBE_DEFER else ret.

Definition call_read (tag : Z) (data : bool) (count : Z) (dsc : gbms_storage_desc)
    : option (Z -> D -> outcome (Z * list Z * D)) :=
  (fun f ptr d => let* r := f tag data count ptr d in Ret (r.1, r.2, d)) <$> d_read dsc.

Definition call_read_data (tag : Z) (data : bool) (count idx : Z) (dsc : gbms_storage_desc)
    : option (Z -> D -> outcome (Z * list Z * D)) :=
  (fun f ptr d => let* r := f tag data count idx ptr d in Ret (r.1, r.2, d)) <$> d_read_data dsc.

Definition call_write (tag : Z) (data : option (list Z)) (count : Z) (dsc : gbms_storage_desc)
    : option (Z -> D -> outcome (Z * list Z * D)) :=
  (fun f ptr d => let* r := f tag data count ptr d in Ret (r.1, [], r.2)) <$> d_write dsc.

Definition call_write_data (tag : Z) (data : option (list Z)) (count idx : Z)
    (dsc : gbms_storage_desc) : option (Z -> D -> outcome (Z * list Z * D)) :=
  (fun f ptr d => let* r := f tag data count idx ptr d in Ret (r.1, [], r.2)) <$> d_write_data dsc.

Definition gbms_cache_read (tag : Z) (data : bool) (count : Z) (s : gbms_storage)
    : outcome (Z * list Z) :=
  let '(ce, addr) := gbms_cache_lookup tag GBMS_STORAGE_ADDR_INVALID s in
  match ce with
  | None => Ret (- ENOENT, [])
  | Some ce =>
    let* slot := must (gbms_providers s !! ce_provider ce) in
    if p_offline slot then Ret (- ENODEV, []) else
    let* dsc := must (p_dsc slot) in
    match d_fetch dsc, negb (addr =? GBMS_STORAGE_ADDR_INVALID) with
    | Some fetch, true => fetch data addr count (p_ptr slot) (devices s)
    | _, _ =>
      match d_read dsc with
      | None => Ret (- EACCES, [])
      | Some read => read tag data count (p_ptr slot) (devices s)
      end
    end
  end.

Definition gbms_storage_read (tag : Z) (data : bool) (count : Z) (s : gbms_storage)
    : outcome (Z * list Z * gbms_storage) :=
  if negb (gbms_storage_init_done s) then Ret (- EPROBE_DEFER, [], s) else
  if negb data && negb (count =? 0) then Ret (- EINVAL, [], s) else
  let* r := gbms_cache_read tag data count s in
  if r.1 =? - ENOENT then
    let* r := scan false (call_read tag data count) (slots s) 0 false (devices s) in
    let '(ret, bytes, d, late_inits, hit) := r in
    let* s := match hit with
              | Some i => let* c := gbms_cache_add tag (Some i) s in Ret c.2
              | None => Ret s
              end in
    Ret (or_late late_inits ret, bytes, s)
  else Ret (r.1, r.2, s).

Definition gbms_storage_read_data (tag : Z) (data : bool) (count idx : Z) (s : gbms_storage)
    : outcome (Z * list Z) :=
  if negb (gbms_storage_init_done s) then Ret (- EPROBE_DEFER, []) else
  if negb data && negb (count =? 0) then Ret (- EINVAL, []) else
  let* r := scan true (call_read_data tag data count idx) (slots s) 0 false (devices s) in
  let '(ret, bytes, d, late_inits, hit) := r in
  Ret (or_late late_inits ret, bytes).

Definition gbms_cache_write (tag : Z) (data : option (list Z)) (count : Z) (s : gbms_storage)
    : outcome (Z * D) :=
  let '(ce, addr) := gbms_cache_lookup tag GBMS_STORAGE_ADDR_INVALID s in
  match ce with
  | None => Ret (- ENOENT, devices s)
  | Some ce =>
    let* slot := must (gbms_providers s !! ce_provider ce) in
    if p_offline slot then Ret (- ENODEV, devices s) else
    let* dsc := must (p_dsc slot) in
    match d_store dsc, negb (addr =? GBMS_STORAGE_ADDR_INVALID) with
    | Some store, true => store data addr count (p_ptr slot) (devices s)
    | _, _ =>
      match d_write dsc with
      | None => Ret (- EACCES, devices s)
      | Some write => write tag data count (p_ptr slot) (devices s)
      end
    end
  end.

Definition gbms_storage_write (tag : Z) (data : option (list Z)) (count : Z) (s : gbms_storage)
    : outcome (Z * gbms_storage) :=
  if negb (gbms_storage_init_done s) then Ret (- EPROBE_DEFER, s) else
  if bool_decide (data = None) && negb (count =? 0) then Ret (- EINVAL, s) else
  let* r := gbms_cache_write tag data count s in
  let s := set_devices s r.2 in
  if r.1 =? - ENOENT then
    let* r := scan true (call_write tag data count) (slots s) 0 false (devices s) in
    let '(ret, _, d, late_inits, hit) := r in
    let s := set_devices s d in
    let* s := match hit with
              | Some i => let* c := gbms_cache_add tag (Some i) s in Ret c.2
              | None => Ret s
              end in
    Ret (or_late late_inits ret, s)
  else Ret (r.1, s).

Definition gbms_storage_write_data (tag : Z) (data : option (list Z)) (count idx : Z)
    (s : gbms_storage) : outcome (Z * gbms_storage) :=
  if negb (gbms_storage_init_done s) then Ret (- EPROBE_DEFER, s) else
  if bool_decide (data = None) && negb (count =? 0) then Ret (- EINVAL, s) else
  let* r := scan true (call_write_data tag data count idx) (slots s) 0 false (devices s) in
  let '(ret, _, d, late_inits, hit) := r in
  Ret (or_late late_inits ret, set_devices s d).

(** ** Flushing and going offline *)

Definition gbms_storage_flush_provider (slot : gbms_storage_provider) (force : bool) (d : D)
    : outcome (Z * D) :=
  if p_offline slot then Ret (0, d) else
  match p_dsc slot with
  | None => Ret (0, d)
  | Some dsc =>
    match d_flush dsc with
    | None => Ret (0, d)
    | Some flush => flush force (p_ptr slot) d
    end
  end.

Fixpoint flush_providers (l : list gbms_storage_provider) (force success : bool) (d : D)
    : outcome (bool * D) :=
  match l with
  | [] => Ret (success, d)
  | slot :: l =>
    let* r := gbms_storage_flush_provider slot force d in
    flush_providers l force (success && negb (r.1 <? 0)) r.2
  end.

Definition gbms_storage_flush_all_internal (force : bool) (s : gbms_storage)
    : outcome (Z * gbms_storage) :=
  let* r := flush_providers (slots s) force true (devices s) in
  Ret (if r.1 then 0 else - EIO, set_devices s r.2).

Definition gbms_storage_flush_all (s : gbms_storage) : outcome (Z * gbms_storage) :=
  if negb (gbms_storage_init_done s) then Ret (- EPROBE_DEFER, s) else
  gbms_storage_flush_all_internal false s.

Definition gbms_storage_offline (name : string) (flush : bool) (s : gbms_storage)
    : outcome (Z * gbms_storage) :=
  if negb (gbms_storage_init_done s) then Ret (- EPROBE_DEFER, s) else
  let* index := gbms_storage_find_slot name s in
  match index with
  | inr e => Ret (e, s)
  | inl i =>
    let* slot := must (gbms_providers s !! i) in
    let* r := if flush then gbms_storage_flush_provider slot false (devices s)
              else Ret (0, devices s) in
    let s := set_devices s r.2 in
    if r.1 =? 0 then
      Ret (0, set_providers s (gbms_providers_count s)
                (<[i := mk_provider (p_name slot) (p_dsc slot) true (p_ptr slot)]>
                   (gbms_providers s)))
    else Ret (r.1, s)
  end.

(** ** Exporting a tag (debugfs) *)

(** The provider ends the enumeration; [fuel] bounds the number of tags it lists. *)
Fixpoint gbms_find (iter : forall (index ptr : Z), D -> outcome (Z * Z)) (ptr tag : Z) (d : D)
    (fuel : nat) (i : Z) : outcome Z :=
  match fuel with
  | O => Undef
  | S fuel =>
    let* r := iter i ptr d in
    if r.1 <? 0 then Ret 0 else
    if tag =? r.2 then Ret 1 else
    if r.1 =? 0 then gbms_find iter ptr tag d fuel (i + 1) else Ret 0
  end.

Fixpoint find_provider (fuel : nat) (tag : Z) (d : D) (l : list gbms_storage_provider) (i : nat)
    : outcome (option nat) :=
  match l with
  | [] => Ret None
  | p :: l =>
    match p_dsc p ≫= d_iter with
    | None => find_provider fuel tag d l (S i)
    | Some iter =>
      let* ret := gbms_find iter (p_ptr p) tag d fuel 0 in
      if ret =? 1 then Ret (Some i) else find_provider fuel tag d l (S i)
    end
  end.

Definition gbms_cache_preload_tag (fuel : nat) (tag : Z) (s : gbms_storage)
    : outcome (option gbms_cache_entry * gbms_storage) :=
  let* slot := find_provider fuel tag (devices s) (slots s) 0 in
  gbms_cache_add tag slot s.

(** [temp]: the text written to the file, at most 32 bytes; the rest of the buffer is zero.
    The files that are created for the tag are not modelled. *)
Definition debug_export_tag (fuel : nat) (rootdir : bool) (temp : list Z) (s : gbms_storage)
    : outcome (Z * gbms_storage) :=
  if negb rootdir then Ret (- ENODEV, s) else
  let count := Z.of_nat (length temp) in
  if count =? 0 then Ret (- EFAULT, s) else
  let temp := temp ++ replicate 5 0 in
  let* c := must (temp !! 0%nat) in
  if c =? 45 then Ret (- EINVAL, s) else
  let* tag := cstr2tag (drop (if c =? 43 then 1 else 0) temp) in
  match (gbms_cache_lookup tag GBMS_STORAGE_ADDR_INVALID s).1 with
  | Some _ => Ret (count, s)
  | None =>
    let* r := gbms_cache_preload_tag fuel tag s in
    match r.1 with
    | None => Ret (- ENOMEM, r.2)
    | Some _ => Ret (count, r.2)
    end
  end.

End storage.

Arguments gbms_storage_desc : clear implicits.
Arguments gbms_storage_provider : clear implicits.
Arguments gbms_storage : clear implicits.
