(* ===== verification/StorageTable.v ===== *)
(** * The table of providers and the cache stay consistent (src/bms/gbms_storage.c)

    Whatever providers register, read, write, flush or go offline, in any order: every slot in
    use has a name, no name hides a later one, and an entry of the cache names a slot that has
    a descriptor.  So the code never follows a null pointer. *)

From Stdlib Require Import String Ascii.
From S2P Require Import Prelude GbmsStorage.

Section table.
Context {D : Type}.
#[local] Abbreviation desc := (gbms_storage_desc D).
#[local] Abbreviation provider := (gbms_storage_provider D).
#[local] Abbreviation storage := (gbms_storage D).

(** [K] holds of the descriptors that drivers register. *)
Variable K : desc -> Prop.

Record slot_used (p : provider) (nm : string) : Prop := {
  su_name : p_name p = Some nm;
  su_dsc : forall dsc, p_dsc p = Some dsc -> K dsc;
}.

Definition entry_ok (s : storage) (ce : gbms_cache_entry) : Prop :=
  exists p dsc, slots s !! ce_provider ce = Some p /\ p_dsc p = Some dsc.

Record storage_ok (s : storage) : Prop := {
  so_size : length (gbms_providers s) = GBMS_PROVIDERS_MAX;
  so_count : (gbms_providers_count s <= GBMS_PROVIDERS_MAX)%nat;
  so_slots : forall i p, slots s !! i = Some p ->
    exists nm, slot_used p nm /\ (String.length nm < GBMS_PROVIDER_NAME_MAX)%nat;
  so_free : forall i p, (gbms_providers_count s <= i)%nat -> gbms_providers s !! i = Some p ->
    p_dsc p = None;
  so_names : forall i j p q a b, (i < j)%nat -> slots s !! i = Some p -> slots s !! j = Some q ->
    p_name p = Some a -> p_name q = Some b -> names a b = false;
  so_cache : Forall (entry_ok s) (gbms_cache s);
  so_pool : match gbms_cache_pool s with
            | Some free => (free + length (gbms_cache s) = 2 ^ GBMS_HASHTABLE_SIZE)%nat
            | None => gbms_cache s = []
            end;
}.

(** ** Names *)

Lemma names_trans a b c : names a b = true -> names b c = true -> names a c = true.
Proof.
  revert b c. induction a as [|x a IH]; intros [|y b] [|z c]; cbn; try done.
  unfold names in *. simpl. destruct (ascii_dec x y) as [->|]; [|done].
  destruct (ascii_dec y z); [|done]. intros. by eapply IH.
Qed.

Lemma lookup_slots (s : storage) i p :
  slots s !! i = Some p <-> gbms_providers s !! i = Some p /\ (i < gbms_providers_count s)%nat.
Proof. apply lookup_take_Some. Qed.

Lemma find_name_ret (l : list provider) name k :
  (forall i p, l !! i = Some p -> exists a, p_name p = Some a) ->
  exists o, find_name l name k = Ret o /\
    match o with
    | None => forall i p a, l !! i = Some p -> p_name p = Some a -> names a name = false
    | Some (inl i) => exists j p a, i = (k + j)%nat /\ l !! j = Some p /\ p_dsc p = None /\
        p_name p = Some a /\ names a name = true /\
        forall j' p' a', (j' < j)%nat -> l !! j' = Some p' -> p_name p' = Some a' ->
          names a' name = false
    | Some (inr e) => e = - EBUSY /\
        exists j p a, l !! j = Some p /\ p_name p = Some a /\ names a name = true
    end.
Proof.
  revert k. induction l as [|q l IH]; intros k Hn; cbn [find_name].
  { eexists; split; [done|]. intros i p a Hi. done. }
  destruct (Hn 0%nat q eq_refl) as [a Ha]. rewrite Ha. run.
  destruct (names a name) eqn:E.
  - destruct (p_dsc q) eqn:Eq; eexists; (split; [done|]); cbn.
    + split; [done|]. by exists 0%nat, q, a.
    + exists 0%nat, q, a. repeat split; try done; try lia; intros; lia.
  - destruct (IH (S k)) as (o & -> & Ho); [by intros i; apply (Hn (S i))|].
    eexists; split; [done|]. destruct o as [[i|e]|].
    + destruct Ho as (j & p & b & -> & Hj & Hd & Hb & Hm & Hbefore).
      exists (S j), p, b. repeat split; try done; try lia.
      intros [|j'] p' a' Hlt Hl Hp'; cbn in Hl; [by simplify_eq|].
      apply (Hbefore j' p' a'); [lia|done..].
    + destruct Ho as (-> & j & p & b & Hj & Hb & Hm). split; [done|]. by exists (S j), p, b.
    + intros [|i] p b Hl Hp; cbn in Hl; [by simplify_eq|]. by apply (Ho i p b).
Qed.

Lemma used_name s i p : storage_ok s -> slots s !! i = Some p -> exists a, p_name p = Some a.
Proof. intros Hs Hi. destruct (so_slots s Hs i p Hi) as (nm & Hu & _). exists nm. apply Hu. Qed.

(** What a search gives: an error, a reserved slot of that name, or the first free slot. *)
Lemma find_slot_ret s name :
  storage_ok s ->
  exists r, gbms_storage_find_slot name s = Ret r /\
    match r with
    | inr e => e = - EBUSY \/ e = - ENOMEM
    | inl i => (i < GBMS_PROVIDERS_MAX)%nat /\ (i <= gbms_providers_count s)%nat /\
        (forall p, gbms_providers s !! i = Some p -> p_dsc p = None) /\
        (forall j p a, (j < i)%nat -> slots s !! j = Some p -> p_name p = Some a ->
          names a name = false) /\
        (forall p a, slots s !! i = Some p -> p_name p = Some a -> names a name = true)
    end.
Proof.
  intros Hs. unfold gbms_storage_find_slot.
  destruct (find_name_ret (slots s) name 0) as (o & -> & Ho).
  { intros i p. by apply used_name. }
  run. pose proof (so_count s Hs). destruct o as [[i|e]|].
  - destruct Ho as (j & p & a & -> & Hj & Hd & Ha & Hm & Hb). cbn [Nat.add].
    pose proof Hj as Hj'. apply lookup_slots in Hj' as [Hp Hlt].
    eexists; split; [done|]. rewrite decide_False by lia. repeat split; try lia.
    + intros q Hq. by simplify_eq.
    + done.
    + intros q b Hq Hb'. by simplify_eq.
  - destruct Ho as (-> & _). eexists; split; [done|]. by left.
  - case_decide; eexists; (split; [done|]); cbn; [by right|]. repeat split; try lia.
    + intros p Hp. by apply (so_free s Hs (gbms_providers_count s)).
    + intros j p a _. apply Ho.
    + intros p a Hp. apply lookup_slots in Hp. lia.
Qed.

(** ** Registering *)

Lemma slots_insert (s : storage) i p :
  (i <= gbms_providers_count s)%nat -> (i < length (gbms_providers s))%nat ->
  let n := if decide (i = gbms_providers_count s) then S i else gbms_providers_count s in
  slots (set_providers s n (<[i := p]> (gbms_providers s))) =
    <[i := p]> (take n (gbms_providers s)).
Proof. intros Hi Hlen n. unfold slots. cbn [gbms_providers_count gbms_providers set_providers].
  apply take_insert_lt. subst n. case_decide; lia. Qed.

Lemma lookup_after (s : storage) i p j q :
  (i <= gbms_providers_count s)%nat -> (i < length (gbms_providers s))%nat ->
  let n := if decide (i = gbms_providers_count s) then S i else gbms_providers_count s in
  slots (set_providers s n (<[i := p]> (gbms_providers s))) !! j = Some q ->
  j = i /\ q = p \/ j <> i /\ slots s !! j = Some q.
Proof.
  intros Hi Hlen n Hj. apply lookup_slots in Hj as [Hj Hlt].
  cbn [gbms_providers gbms_providers_count set_providers] in Hj, Hlt.
  destruct (decide (j = i)) as [->|Hne].
  - rewrite list_lookup_insert_eq in Hj by lia. left. by simplify_eq.
  - rewrite list_lookup_insert_ne in Hj by done. right. split; [done|].
    apply lookup_slots. split; [done|]. subst n. case_decide; lia.
Qed.

Lemma entry_ok_mono s s' ce :
  (forall i p dsc, slots s !! i = Some p -> p_dsc p = Some dsc ->
     exists p' dsc', slots s' !! i = Some p' /\ p_dsc p' = Some dsc') ->
  entry_ok s ce -> entry_ok s' ce.
Proof. intros H (p & dsc & Hp & Hd). by apply (H _ p dsc). Qed.

Lemma register_internal_ok s desc name ptr :
  storage_ok s -> (forall dsc, desc = Some dsc -> K dsc) ->
  exists r s', gbms_storage_register_internal desc name ptr s = Ret (r, s') /\ storage_ok s'.
Proof.
  intros Hs HK. unfold gbms_storage_register_internal.
  destruct name as [nm|]; [|by eauto]. case_decide as Hlen; [by eauto|].
  destruct (find_slot_ret s nm Hs) as (r & -> & Hr). run. destruct r as [i|e]; [|by eauto].
  destruct Hr as (Hi & Hcnt & Hnone & Hbefore & Hat).
  pose proof (so_size s Hs) as Hsz.
  destruct (lookup_lt_is_Some_2 (gbms_providers s) i) as [q Hq]; [lia|]. rewrite Hq. run.
  eexists _, _; split; [done|].
  pose proof (lookup_after s i (mk_provider (Some nm) desc (p_offline q) ptr)) as Hl.
  cbn zeta in Hl. set (n := if decide _ then _ else _) in *.
  assert (n <= GBMS_PROVIDERS_MAX)%nat by (subst n; pose proof (so_count s Hs); case_decide; lia).
  set (q' := mk_provider (Some nm) desc (p_offline q) ptr) in *.
  split; cbn [gbms_providers gbms_providers_count gbms_cache gbms_cache_pool set_providers].
  - by rewrite length_insert.
  - done.
  - intros j p Hj. apply Hl in Hj as [[-> ->]|[Hne Hj]]; [|by apply (so_slots s Hs j)|lia..].
    exists nm. split; [|lia]. by split.
  - intros j p Hj Hp. rewrite list_lookup_insert_ne in Hp by (subst n; case_decide; lia).
    apply (so_free s Hs j); [|done]. subst n; case_decide; lia.
  - intros j k p1 p2 a b Hjk Hj Hk Ha Hb.
    apply Hl in Hj as [[-> ->]|[Hne Hj]]; [..|lia|lia];
      apply Hl in Hk as [[-> ->]|[Hne' Hk]]; try lia.
    + cbn in Ha. simplify_eq.
      assert (Hin : slots s !! i = Some q).
      { apply lookup_slots in Hk. apply lookup_slots. split; [done|lia]. }
      destruct (used_name s i q Hs Hin) as [c Hc]. destruct (names a b) eqn:E; [|done].
      pose proof (so_names s Hs i k q p2 c b Hjk Hin Hk Hc Hb) as Hf.
      by rewrite (names_trans c a b (Hat q c Hin Hc) E) in Hf.
    + cbn in Hb. simplify_eq. by apply (Hbefore j p1).
    + by apply (so_names s Hs j k p1 p2).
  - eapply Forall_impl; [apply (so_cache s Hs)|]. intros ce. apply entry_ok_mono.
    intros j p dsc Hj Hd. apply lookup_slots in Hj as [Hp Hlt].
    assert (j <> i) by (intros ->; specialize (Hnone p Hp); congruence).
    exists p, dsc. split; [|done]. apply lookup_slots.
    cbn [gbms_providers gbms_providers_count set_providers].
    rewrite list_lookup_insert_ne by done. split; [done|]. subst n; case_decide; lia.
  - apply (so_pool s Hs).
Qed.

(** ** Asking the providers *)

(** The callback that is asked for returns, for every descriptor of a driver. *)
Definition returns {A} (call : desc -> option (Z -> D -> outcome A)) : Prop :=
  forall dsc f ptr d, K dsc -> call dsc = Some f -> exists r, f ptr d = Ret r.

Lemma scan_ret skip call (l : list provider) k late d :
  returns call -> (forall i p dsc, l !! i = Some p -> p_dsc p = Some dsc -> K dsc) ->
  exists ret bytes d' late' hit, scan skip call l k late d = Ret (ret, bytes, d', late', hit) /\
    forall i, hit = Some i -> exists j p dsc, i = (k + j)%nat /\ l !! j = Some p /\ p_dsc p = Some dsc.
Proof.
  intros Hc. revert k late d. induction l as [|p l IH]; intros k late d Hl; cbn [scan].
  { do 5 eexists; split; [done|]. done. }
  assert (Hnext : forall late d, exists ret bytes d' late' hit,
    scan skip call l (S k) late d = Ret (ret, bytes, d', late', hit) /\
    forall i, hit = Some i -> exists j q dsc, i = (k + j)%nat /\ (p :: l) !! j = Some q /\ p_dsc q = Some dsc).
  { intros late0 d0. destruct (IH (S k) late0 d0) as (r & b & d' & l' & h & -> & Hh).
    { intros i q dsc Hi. by apply (Hl (S i)). }
    do 5 eexists; split; [done|]. intros i ->. destruct (Hh i eq_refl) as (j & q & dsc & -> & Hj & Hq).
    exists (S j), q, dsc. split; [lia|done]. }
  destruct (skip && p_offline p); [apply Hnext|].
  destruct (p_dsc p) as [dsc|] eqn:Ed; [|apply Hnext].
  destruct (call dsc) as [f|] eqn:Ef; [|apply Hnext].
  destruct (Hc dsc f (p_ptr p) d (Hl 0%nat p dsc eq_refl Ed) Ef) as [[[r b] d'] ->]. run.
  destruct (Z.eqb_spec r (- ENOENT)); [apply Hnext|]. do 5 eexists; split; [done|]. intros i Hi.
  case_test_in Hi; [|done]. exists 0%nat, p, dsc. split; [simplify_eq; lia|done].
Qed.

Lemma slots_K s i p dsc : storage_ok s -> slots s !! i = Some p -> p_dsc p = Some dsc -> K dsc.
Proof. intros Hs Hi. destruct (so_slots s Hs i p Hi) as (nm & Hu & _). apply Hu. Qed.

(** The devices are not part of the invariant. *)
Lemma set_devices_ok s d : storage_ok s -> storage_ok (set_devices s d).
Proof. intros Hs. destruct s. split; apply Hs. Qed.

(** Adding to the cache: nothing happens, or the pool gives an entry for the slot. *)
Lemma cache_add_ret (s : storage) tag i p dsc :
  gbms_providers s !! i = Some p -> p_dsc p = Some dsc ->
  (forall f, d_info dsc = Some f -> exists r, f tag (p_ptr p) (devices s) = Ret r) ->
  exists o s', gbms_cache_add tag (Some i) s = Ret (o, s') /\
    (s' = s \/ exists ce free, ce_provider ce = i /\ ce_tag ce = tag /\
       gbms_cache_pool s = Some (S free) /\ s' = set_cache s (Some free) (ce :: gbms_cache s)).
Proof.
  intros Hi Hd Hinfo. unfold gbms_cache_add.
  destruct (gbms_cache_pool s) as [[|free]|]; [by eauto 8| |by eauto 8].
  rewrite Hi. run. rewrite Hd. run.
  assert (Hloc : exists loc, match d_fetch dsc, d_store dsc, d_info dsc with
      | Some _, Some _, Some info =>
        let* r := info tag (p_ptr p) (devices s) in
        Ret (if r.1 =? 0 then (r.2.2, r.2.1) else (0, GBMS_STORAGE_ADDR_INVALID))
      | _, _, _ => Ret (0, GBMS_STORAGE_ADDR_INVALID)
      end = Ret loc).
  { destruct (d_fetch dsc), (d_store dsc), (d_info dsc) as [info|] eqn:Ei; eauto.
    destruct (Hinfo info eq_refl) as [r ->]. run. eauto. }
  destruct Hloc as [loc ->]. run. do 2 eexists; split; [done|]. right. eexists (mk_entry i tag loc.1 loc.2), free. done.
Qed.

Lemma cache_add_ok s tag slot :
  storage_ok s -> returns (fun dsc => (fun f => f tag) <$> d_info dsc) ->
  (forall i, slot = Some i -> exists p dsc, slots s !! i = Some p /\ p_dsc p = Some dsc) ->
  exists o s', gbms_cache_add tag slot s = Ret (o, s') /\ storage_ok s'.
Proof.
  intros Hs Hinfo Hslot. destruct slot as [i|].
  2: { unfold gbms_cache_add. destruct (gbms_cache_pool s) as [[|]|]; eauto. }
  destruct (Hslot i eq_refl) as (p & dsc & Hi & Hd). pose proof Hi as Hi'.
  apply lookup_slots in Hi' as [Hi' _].
  destruct (cache_add_ret s tag i p dsc Hi' Hd) as (o & s' & -> & Hs').
  { intros f Hf. apply (Hinfo dsc (f tag)); [by apply (slots_K s i p)|]. cbn beta. by rewrite Hf. }
  eexists _, _; split; [done|]. destruct Hs' as [->|(ce & free & Hp & Ht & Hpool & ->)]; [done|].
  pose proof (so_pool s Hs) as Hpl. rewrite Hpool in Hpl. split; try apply Hs.
  - cbn. constructor; [|apply (so_cache s Hs)]. exists p, dsc. by rewrite Hp.
  - cbn in *. lia.
Qed.

(** The entry of a tag in the cache, if any, leads to a descriptor. *)
Lemma lookup_entry s tag addr ce :
  storage_ok s -> (gbms_cache_lookup tag addr s).1 = Some ce ->
  ce_tag ce = tag /\ exists p dsc, slots s !! ce_provider ce = Some p /\
    gbms_providers s !! ce_provider ce = Some p /\ p_dsc p = Some dsc.
Proof.
  intros Hs Hf. cbn in Hf. apply find_some in Hf as [Hin Ht]. apply Z.eqb_eq in Ht.
  split; [done|]. pose proof (so_cache s Hs) as Hc. rewrite Forall_forall in Hc.
  apply list_elem_of_In in Hin. destruct (Hc ce Hin) as (p & dsc & Hp & Hd).
  exists p, dsc. repeat split; try done. by apply lookup_slots in Hp as [? _].
Qed.

(** The address is never set, so that the cached accesses go through [read] and [write]. *)
Lemma cache_read_hit (s : storage) tag data count ce p dsc :
  List.find (fun ce => ce_tag ce =? tag) (gbms_cache s) = Some ce ->
  gbms_providers s !! ce_provider ce = Some p -> p_dsc p = Some dsc ->
  gbms_cache_read tag data count s =
    if p_offline p then Ret (- ENODEV, []) else
    match d_read dsc with
    | None => Ret (- EACCES, [])
    | Some read => read tag data count (p_ptr p) (devices s)
    end.
Proof.
  intros Hf Hp Hd. unfold gbms_cache_read, gbms_cache_lookup. rewrite Hf, Hp. run.
  rewrite Hd. run. by destruct (d_fetch dsc).
Qed.

Lemma cache_write_hit (s : storage) tag data count ce p dsc :
  List.find (fun ce => ce_tag ce =? tag) (gbms_cache s) = Some ce ->
  gbms_providers s !! ce_provider ce = Some p -> p_dsc p = Some dsc ->
  gbms_cache_write tag data count s =
    if p_offline p then Ret (- ENODEV, devices s) else
    match d_write dsc with
    | None => Ret (- EACCES, devices s)
    | Some write => write tag data count (p_ptr p) (devices s)
    end.
Proof.
  intros Hf Hp Hd. unfold gbms_cache_write, gbms_cache_lookup. rewrite Hf, Hp. run.
  rewrite Hd. run. by destruct (d_store dsc).
Qed.

Lemma cache_read_ret s tag data count :
  storage_ok s -> returns (call_read tag data count) ->
  exists r, gbms_cache_read tag data count s = Ret r.
Proof.
  intros Hs Hc. destruct (List.find (fun ce => ce_tag ce =? tag) (gbms_cache s)) as [ce|] eqn:Ef.
  2: { unfold gbms_cache_read, gbms_cache_lookup. rewrite Ef. eauto. }
  destruct (lookup_entry s tag 0 ce Hs) as (_ & p & dsc & Hp & Hp' & Hd); [done|].
  rewrite (cache_read_hit s tag data count ce p dsc) by done.
  destruct (p_offline p); [by eauto|]. destruct (d_read dsc) as [f|] eqn:Er; [|by eauto].
  edestruct (Hc dsc) as [r Hr]; [by apply (slots_K s (ce_provider ce) p)|by unfold call_read; rewrite Er|].
  apply obind_Ret in Hr as (r' & Hr & _). eauto.
Qed.

Lemma cache_write_ret s tag data count :
  storage_ok s -> returns (call_write tag data count) ->
  exists r, gbms_cache_write tag data count s = Ret r.
Proof.
  intros Hs Hc. destruct (List.find (fun ce => ce_tag ce =? tag) (gbms_cache s)) as [ce|] eqn:Ef.
  2: { unfold gbms_cache_write, gbms_cache_lookup. rewrite Ef. eauto. }
  destruct (lookup_entry s tag 0 ce Hs) as (_ & p & dsc & Hp & Hp' & Hd); [done|].
  rewrite (cache_write_hit s tag data count ce p dsc) by done.
  destruct (p_offline p); [by eauto|]. destruct (d_write dsc) as [f|] eqn:Er; [|by eauto].
  edestruct (Hc dsc) as [r Hr]; [by apply (slots_K s (ce_provider ce) p)|by unfold call_write; rewrite Er|].
  apply obind_Ret in Hr as (r' & Hr & _). eauto.
Qed.

(** After a scan the provider that answered, if any, goes into the cache. *)
Lemma add_hit_ok s tag hit :
  storage_ok s -> returns (fun dsc => (fun f => f tag) <$> d_info dsc) ->
  (forall i, hit = Some i -> exists j p dsc, i = (0 + j)%nat /\ slots s !! j = Some p /\ p_dsc p = Some dsc) ->
  exists s', match hit with
    | Some i => let* c := gbms_cache_add tag (Some i) s in Ret c.2
    | None => Ret s
    end = Ret s' /\ storage_ok s'.
Proof.
  intros Hs Hi Hh. destruct hit as [i|]; [|by eauto].
  destruct (cache_add_ok s tag (Some i) Hs Hi) as (o & s' & -> & Hs').
  { intros j Hj. simplify_eq. destruct (Hh j eq_refl) as (j' & p & dsc & -> & ?). eauto. }
  run. eauto.
Qed.

Lemma read_ok s tag data count :
  storage_ok s -> returns (call_read tag data count) ->
  returns (fun dsc => (fun f => f tag) <$> d_info dsc) ->
  exists r s', gbms_storage_read tag data count s = Ret (r, s') /\ storage_ok s'.
Proof.
  intros Hs Hc Hi. unfold gbms_storage_read.
  destruct (negb _); [by eauto|]. destruct (_ && _); [by eauto|].
  destruct (cache_read_ret s tag data count Hs Hc) as [r ->]. run.
  case_test; [|by eauto].
  destruct (scan_ret false (call_read tag data count) (slots s) 0 false (devices s) Hc)
    as (ret & b & d' & l' & hit & -> & Hh); [by intros ???; apply slots_K|]. run.
  destruct (add_hit_ok s tag hit Hs Hi Hh) as (s' & -> & Hs'). run. eauto.
Qed.

Lemma write_ok s tag data count :
  storage_ok s -> returns (call_write tag data count) ->
  returns (fun dsc => (fun f => f tag) <$> d_info dsc) ->
  exists r s', gbms_storage_write tag data count s = Ret (r, s') /\ storage_ok s'.
Proof.
  intros Hs Hc Hi. unfold gbms_storage_write.
  destruct (negb _); [by eauto|]. destruct (_ && _); [by eauto|].
  destruct (cache_write_ret s tag data count Hs Hc) as [r ->]. run.
  apply (set_devices_ok s r.2) in Hs. case_test; [|by eauto].
  destruct (scan_ret true (call_write tag data count) (slots (set_devices s r.2)) 0 false
    (devices (set_devices s r.2)) Hc) as (ret & b & d' & l' & hit & -> & Hh); [by intros ???; apply slots_K|].
  run. apply (set_devices_ok _ d') in Hs.
  destruct (add_hit_ok _ tag hit Hs Hi Hh) as (s' & -> & Hs'). run. eauto.
Qed.

Lemma read_data_ret s tag data count idx :
  storage_ok s -> returns (call_read_data tag data count idx) ->
  exists r, gbms_storage_read_data tag data count idx s = Ret r.
Proof.
  intros Hs Hc. unfold gbms_storage_read_data.
  destruct (negb _); [by eauto|]. destruct (_ && _); [by eauto|].
  destruct (scan_ret true _ (slots s) 0 false (devices s) Hc)
    as (ret & b & d' & l' & hit & -> & _); [by intros ???; apply slots_K|]. run. eauto.
Qed.

Lemma write_data_ok s tag data count idx :
  storage_ok s -> returns (call_write_data tag data count idx) ->
  exists r s', gbms_storage_write_data tag data count idx s = Ret (r, s') /\ storage_ok s'.
Proof.
  intros Hs Hc. unfold gbms_storage_write_data.
  destruct (negb _); [by eauto|]. destruct (_ && _); [by eauto|].
  destruct (scan_ret true _ (slots s) 0 false (devices s) Hc)
    as (ret & b & d' & l' & hit & -> & _); [by intros ???; apply slots_K|]. run.
  eauto using set_devices_ok.
Qed.

(** ** Flushing and going offline *)

Definition call_flush (force : bool) (dsc : desc) : option (Z -> D -> outcome (Z * D)) :=
  (fun f => f force) <$> d_flush dsc.

Lemma flush_provider_ret (p : provider) force d :
  returns (call_flush force) -> (forall dsc, p_dsc p = Some dsc -> K dsc) ->
  exists r, gbms_storage_flush_provider p force d = Ret r.
Proof.
  intros Hc Hk. unfold gbms_storage_flush_provider. destruct (p_offline p); [by eauto|].
  destruct (p_dsc p) as [dsc|] eqn:Ed; [|by eauto]. destruct (d_flush dsc) as [f|] eqn:Ef; [|by eauto].
  apply (Hc dsc (f force)); [by apply Hk|]. unfold call_flush. by rewrite Ef.
Qed.

Lemma flush_all_ok s force :
  storage_ok s -> returns (call_flush force) ->
  exists r s', gbms_storage_flush_all_internal force s = Ret (r, s') /\ storage_ok s'.
Proof.
  intros Hs Hc. unfold gbms_storage_flush_all_internal.
  assert (H : forall l success d, (forall i (p : provider) dsc, l !! i = Some p -> p_dsc p = Some dsc -> K dsc) ->
    exists r, flush_providers l force success d = Ret r).
  { induction l as [|p l IH]; intros success d Hl; cbn [flush_providers]; [by eauto|].
    destruct (flush_provider_ret p force d Hc) as [r ->]; [intros dsc; by apply (Hl 0%nat p)|]. run.
    apply IH. intros i. apply (Hl (S i)). }
  destruct (H (slots s) true (devices s)) as [r ->]; [by intros ???; apply slots_K|]. run.
  eauto using set_devices_ok.
Qed.

(** A slot without a descriptor may go offline. *)
Lemma mark_offline_ok s i q :
  storage_ok s -> gbms_providers s !! i = Some q -> p_dsc q = None ->
  storage_ok (set_providers s (gbms_providers_count s)
    (<[i := mk_provider (p_name q) (p_dsc q) true (p_ptr q)]> (gbms_providers s))).
Proof.
  intros Hs Hq Hd. set (q' := mk_provider _ _ _ _).
  assert (Hl : forall j p, slots (set_providers s (gbms_providers_count s)
      (<[i := q']> (gbms_providers s))) !! j = Some p ->
    exists p0, slots s !! j = Some p0 /\ p_name p0 = p_name p /\ p_dsc p0 = p_dsc p).
  { intros j p Hj. apply lookup_slots in Hj as [Hj Hlt].
    cbn [gbms_providers gbms_providers_count set_providers] in Hj, Hlt.
    apply list_lookup_insert_Some in Hj as [(-> & <- & _)|[Hne Hj]].
    - exists q. by rewrite lookup_slots.
    - exists p. by rewrite lookup_slots. }
  split; cbn [gbms_providers gbms_providers_count gbms_cache gbms_cache_pool set_providers].
  - rewrite length_insert. apply Hs.
  - apply Hs.
  - intros j p Hj. destruct (Hl j p Hj) as (p0 & Hj0 & Hn & Hd0).
    destruct (so_slots s Hs j p0 Hj0) as (nm & Hu & Hlen). exists nm. split; [|done].
    split; [by rewrite <- Hn; apply Hu|]. intros dsc. rewrite <- Hd0. apply Hu.
  - intros j p Hj Hp. apply list_lookup_insert_Some in Hp as [(-> & <- & _)|[Hne Hp]]; [done|].
    by apply (so_free s Hs j).
  - intros j k p1 p2 a b Hjk Hj Hk Ha Hb.
    destruct (Hl j p1 Hj) as (q1 & Hj1 & Hn1 & _). destruct (Hl k p2 Hk) as (q2 & Hk2 & Hn2 & _).
    apply (so_names s Hs j k q1 q2); congruence.
  - eapply Forall_impl; [apply (so_cache s Hs)|]. intros ce. apply entry_ok_mono.
    intros j p dsc Hj Hdj. apply lookup_slots in Hj as [Hj Hlt].
    assert (j <> i) by (intros ->; congruence).
    exists p, dsc. split; [|done]. apply lookup_slots.
    cbn [gbms_providers gbms_providers_count set_providers]. by rewrite list_lookup_insert_ne.
  - apply (so_pool s Hs).
Qed.

Lemma offline_ok s name flush :
  storage_ok s -> exists r s', gbms_storage_offline name flush s = Ret (r, s') /\ storage_ok s'.
Proof.
  intros Hs. unfold gbms_storage_offline. destruct (negb _); [by eauto|].
  destruct (find_slot_ret s name Hs) as (r & -> & Hr). run. destruct r as [i|e]; [|by eauto].
  destruct Hr as (Hi & _ & Hnone & _).
  destruct (lookup_lt_is_Some_2 (gbms_providers s) i) as [q Hq]; [rewrite (so_size s Hs); lia|].
  rewrite Hq. run. pose proof (Hnone q Hq) as Hd.
  assert (Hf : (if flush then gbms_storage_flush_provider q false (devices s) else Ret (0, devices s))
    = Ret (0, devices s)).
  { destruct flush; [|done]. unfold gbms_storage_flush_provider. rewrite Hd. by destruct (p_offline q). }
  rewrite Hf. run. change (0 =? 0) with true. cbv iota.
  eexists _, _; split; [done|]. apply (mark_offline_ok (set_devices s (devices s))); try done.
  by apply set_devices_ok.
Qed.

(** ** Exporting a tag *)

(** The enumeration of tags ends before the fuel does. *)
Definition enumerates (fuel : nat) : Prop :=
  forall dsc iter ptr d, K dsc -> d_iter dsc = Some iter ->
    (forall i, exists r, iter i ptr d = Ret r) /\
    exists n r, (n < fuel)%nat /\ iter (Z.of_nat n) ptr d = Ret r /\ r.1 < 0.

Lemma gbms_find_ret (iter : forall (index ptr : Z), D -> outcome (Z * Z)) ptr tag d fuel i n r :
  (forall i, exists r, iter i ptr d = Ret r) ->
  iter (i + Z.of_nat n) ptr d = Ret r -> r.1 < 0 -> (n < fuel)%nat ->
  exists ret, gbms_find iter ptr tag d fuel i = Ret ret.
Proof.
  intros Hi. revert i n. induction fuel as [|fuel IH]; intros i n Hn Hr Hf; [lia|].
  cbn [gbms_find]. destruct (Hi i) as [r0 Hr0]. rewrite Hr0. run.
  destruct (r0.1 <? 0) eqn:E; [by eauto|]. destruct (tag =? r0.2); [by eauto|].
  destruct (r0.1 =? 0); [|by eauto]. destruct n as [|n].
  - rewrite Z.add_0_r in Hn. rewrite Hr0 in Hn. simplify_eq. apply Z.ltb_ge in E. lia.
  - apply (IH (i + 1) n); [|done|lia]. by replace (i + 1 + Z.of_nat n) with (i + Z.of_nat (S n)) by lia.
Qed.

Lemma find_provider_ret fuel tag d (l : list provider) k :
  enumerates fuel -> (forall i p dsc, l !! i = Some p -> p_dsc p = Some dsc -> K dsc) ->
  exists o, find_provider fuel tag d l k = Ret o /\
    forall i, o = Some i -> exists j p dsc, i = (k + j)%nat /\ l !! j = Some p /\ p_dsc p = Some dsc.
Proof.
  intros He. revert k. induction l as [|p l IH]; intros k Hl; cbn [find_provider]; [by eexists; split; [done|]; intros|].
  assert (Hnext : exists o, find_provider fuel tag d l (S k) = Ret o /\
    forall i, o = Some i -> exists j q dsc, i = (k + j)%nat /\ (p :: l) !! j = Some q /\ p_dsc q = Some dsc).
  { destruct (IH (S k)) as (o & -> & Ho); [by intros i; apply (Hl (S i))|].
    eexists; split; [done|]. intros i ->. destruct (Ho i eq_refl) as (j & q & dsc & -> & ?).
    exists (S j), q, dsc. split; [lia|done]. }
  destruct (p_dsc p) as [dsc|] eqn:Ed; cbn [mbind option_bind]; [|done].
  destruct (d_iter dsc) as [iter|] eqn:Ei; [|done].
  destruct (He dsc iter (p_ptr p) d (Hl 0%nat p dsc eq_refl Ed) Ei) as (Hr & n & r & Hn & Hit & Hneg).
  destruct (gbms_find_ret iter (p_ptr p) tag d fuel 0 n r) as [ret ->]; try done. run.
  case_test; [|done]. eexists; split; [done|]. intros i Hi. simplify_eq.
  exists 0%nat, p, dsc. split; [lia|done].
Qed.

Lemma cstr2tag_ret l : (4 <= length l)%nat -> exists t, cstr2tag l = Ret t.
Proof. destruct l as [|? [|? [|? [|? l]]]]; cbn; intros; try lia. eauto. Qed.

Lemma export_ok s fuel rootdir temp :
  storage_ok s -> enumerates fuel ->
  (forall tag, returns (fun dsc => (fun f => f tag) <$> d_info dsc)) ->
  exists r s', debug_export_tag fuel rootdir temp s = Ret (r, s') /\ storage_ok s'.
Proof.
  intros Hs He Hi. unfold debug_export_tag. destruct (negb _); [by eauto|].
  destruct temp as [|c temp]; [by cbn; eauto|]. cbn [length].
  destruct (Z.eqb_spec (Z.of_nat (S (length temp))) 0); [lia|]. cbn [lookup list_lookup app]. run.
  destruct (c =? 45); [by eauto|].
  edestruct (cstr2tag_ret (drop (if c =? 43 then 1 else 0) (c :: temp ++ replicate 5 0))) as [tag ->].
  { rewrite length_drop. cbn [length]. rewrite length_app. cbn. destruct (c =? 43); lia. }
  run. destruct (gbms_cache_lookup _ _ _).1; [by eauto|]. unfold gbms_cache_preload_tag.
  destruct (find_provider_ret fuel tag (devices s) (slots s) 0 He) as (o & -> & Ho);
    [by intros ???; apply slots_K|]. run.
  destruct (cache_add_ok s tag o Hs (Hi tag)) as (e & s' & -> & Hs').
  { intros i Hi'. destruct (Ho i Hi') as (j & p & dsc & -> & ?). eauto. }
  run. destruct e; eauto.
Qed.

(** ** Any sequence of requests *)

Inductive storage_op :=
| OpRegister (dsc : option desc) (name : option string) (ptr : Z)
| OpReference (name : option string)
| OpRead (tag : Z) (data : bool) (count : Z)
| OpWrite (tag : Z) (data : option (list Z)) (count : Z)
| OpReadData (tag : Z) (data : bool) (count idx : Z)
| OpWriteData (tag : Z) (data : option (list Z)) (count idx : Z)
| OpFlush (force : bool)
| OpOffline (name : string) (flush : bool)
| OpExport (fuel : nat) (rootdir : bool) (temp : list Z).

Definition storage_step (op : storage_op) (s : storage) : outcome storage :=
  match op with
  | OpRegister dsc name ptr => let* r := gbms_storage_register dsc name ptr s in Ret r.2
  | OpReference name => let* r := gbms_storage_register_internal None name 0 s in Ret r.2
  | OpRead tag data count => let* r := gbms_storage_read tag data count s in Ret r.2
  | OpWrite tag data count => let* r := gbms_storage_write tag data count s in Ret r.2
  | OpReadData tag data count idx => let* r := gbms_storage_read_data tag data count idx s in Ret s
  | OpWriteData tag data count idx =>
    let* r := gbms_storage_write_data tag data count idx s in Ret r.2
  | OpFlush force => let* r := gbms_storage_flush_all_internal force s in Ret r.2
  | OpOffline name flush => let* r := gbms_storage_offline name flush s in Ret r.2
  | OpExport fuel rootdir temp => let* r := debug_export_tag fuel rootdir temp s in Ret r.2
  end.

Fixpoint storage_run (ops : list storage_op) (s : storage) : outcome storage :=
  match ops with
  | [] => Ret s
  | op :: ops => let* s := storage_step op s in storage_run ops s
  end.

(** What a request asks of the drivers: the descriptors are theirs, and the callbacks that it
    leads to return. *)
Definition op_returns (op : storage_op) : Prop :=
  match op with
  | OpRegister dsc _ _ => forall x, dsc = Some x -> K x
  | OpReference _ | OpOffline _ _ => True
  | OpRead tag data count =>
    returns (call_read tag data count) /\ returns (fun dsc => (fun f => f tag) <$> d_info dsc)
  | OpWrite tag data count =>
    returns (call_write tag data count) /\ returns (fun dsc => (fun f => f tag) <$> d_info dsc)
  | OpReadData tag data count idx => returns (call_read_data tag data count idx)
  | OpWriteData tag data count idx => returns (call_write_data tag data count idx)
  | OpFlush force => returns (call_flush force)
  | OpExport fuel _ _ =>
    enumerates fuel /\ forall tag, returns (fun dsc => (fun f => f tag) <$> d_info dsc)
  end.

Lemma step_ok op s :
  storage_ok s -> op_returns op -> exists s', storage_step op s = Ret s' /\ storage_ok s'.
Proof.
  intros Hs. destruct op; cbn [op_returns storage_step]; intros Ho.
  - unfold gbms_storage_register. destruct dsc as [x|]; [|by run; eauto].
    destruct (negb _); [by run; eauto|].
    destruct (register_internal_ok s (Some x) name ptr Hs) as (r & s' & -> & ?); [done|]. run. eauto.
  - destruct (register_internal_ok s None name 0 Hs) as (r & s' & -> & ?); [done|]. run. eauto.
  - destruct (read_ok s tag data count Hs) as (r & s' & -> & ?); [apply Ho..|]. run. eauto.
  - destruct (write_ok s tag data count Hs) as (r & s' & -> & ?); [apply Ho..|]. run. eauto.
  - destruct (read_data_ret s tag data count idx Hs Ho) as (r & ->). run. eauto.
  - destruct (write_data_ok s tag data count idx Hs Ho) as (r & s' & -> & ?). run. eauto.
  - destruct (flush_all_ok s force Hs Ho) as (r & s' & -> & ?). run. eauto.
  - destruct (offline_ok s name flush Hs) as (r & s' & -> & ?). run. eauto.
  - destruct (export_ok s fuel rootdir temp Hs) as (r & s' & -> & ?); [apply Ho..|]. run. eauto.
Qed.

(** The table and the cache stay consistent: from a consistent state every sequence of
    registrations, references, reads, writes, flushes, offline requests and tag exports runs
    to its end without following a null pointer or leaving an array, as long as the
    callbacks of the drivers return; the table keeps at most six slots, each with a name
    shorter than 32 characters that no earlier name hides, and the cache at most 32 entries,
    each of which leads to a descriptor. *)
Theorem storage_requests_keep_table ops s :
  storage_ok s -> Forall op_returns ops ->
  exists s', storage_run ops s = Ret s' /\ storage_ok s' /\
    (length (slots s') <= GBMS_PROVIDERS_MAX)%nat /\
    (length (gbms_cache s') <= 2 ^ GBMS_HASHTABLE_SIZE)%nat.
Proof.
  intros Hs Hops. revert s Hs. induction Hops as [|op ops Hop Hops IH]; intros s Hs; cbn [storage_run].
  - exists s. split; [done|]. split; [done|]. split.
    + pose proof (so_count s Hs). unfold slots. rewrite length_take. lia.
    + pose proof (so_pool s Hs) as Hp. destruct (gbms_cache_pool s); [lia|]. rewrite Hp. cbn. lia.
  - destruct (step_ok op s Hs Hop) as (s1 & -> & Hs1). run. by apply IH.
Qed.

End table.
