(* ===== verification/StorageContract.v ===== *)
(** * What a provider promises, and what the storage makes of it (src/bms/gbms_storage.h, .c)

    [StorageContract] states the documented obligations of a descriptor.  With providers that
    keep them, have no tag in common and are online, the cache changes nothing but the time
    a read takes, and the storage is a map from tags to records. *)

From Stdlib Require Import String.
From S2P Require Import Prelude GbmsStorage StorageTable.

(** [knows]: the tags of the provider; [sees d t]: the record of [t] in the devices; [holds]:
    what the provider relies on about the devices. *)
Class StorageContract {D : Type} (knows : Z -> bool) (sees : D -> Z -> list Z)
    (holds : D -> Prop) (dsc : gbms_storage_desc D) (ptr : Z) : Prop := {
  sc_read f t data n d : d_read dsc = Some f -> holds d ->
    exists r, f t data n ptr d = Ret r /\
      (knows t = false -> r = (- ENOENT, [])) /\
      (knows t = true -> 0 <= r.1 -> r.2 = sees d t);
  sc_write f t l n d : d_write dsc = Some f -> holds d -> 0 <= n <= Z.of_nat (length l) ->
    exists r, f t (Some l) n ptr d = Ret r /\ holds r.2 /\
      (knows t = false -> r = (- ENOENT, d)) /\
      (knows t = true -> 0 <= r.1 ->
         sees r.2 t = take (Z.to_nat n) l ++ drop (Z.to_nat n) (sees d t)) /\
      drop (Z.to_nat n) (sees r.2 t) = drop (Z.to_nat n) (sees d t) /\
      (forall t', t' <> t -> sees r.2 t' = sees d t');
  sc_readable : d_read dsc = None -> d_write dsc = None;
  sc_info f t d : d_info dsc = Some f -> exists r, f t ptr d = Ret r;
}.

Section contract.
Context {D : Type}.
#[local] Abbreviation desc := (gbms_storage_desc D).
#[local] Abbreviation provider := (gbms_storage_provider D).
#[local] Abbreviation storage := (gbms_storage D).

Context (knows : nat -> Z -> bool) (sees : D -> Z -> list Z) (holds : D -> Prop).

(** ** The loop over providers of which at most one knows the tag *)

Definition refuses (call : desc -> option (Z -> D -> outcome (Z * list Z * D))) (p : provider)
    : Prop :=
  forall dsc f d, holds d -> p_dsc p = Some dsc -> call dsc = Some f ->
    exists b, f (p_ptr p) d = Ret (- ENOENT, b, d).

Lemma scan_none skip call (l : list provider) k late d :
  Forall (refuses call) l -> holds d ->
  exists late', scan skip call l k late d = Ret (- ENOENT, [], d, late', None).
Proof.
  intros Hl Hd. revert k late d Hd.
  induction Hl as [|p l Hp Hl IH]; intros k late d Hd; cbn [scan]; [by eauto|].
  destruct (skip && p_offline p); [by apply IH|]. destruct (p_dsc p) as [dsc|] eqn:Ed; [|by apply IH].
  destruct (call dsc) as [f|] eqn:Ef; [|by apply IH]. destruct (Hp dsc f d Hd Ed Ef) as [b ->]. run.
  rewrite Z.eqb_refl. by apply IH.
Qed.

(** The answer is that of the provider that knows the tag. *)
Lemma scan_knower skip call (l : list provider) k late d j p dsc f ret b d' :
  (forall i q, l !! i = Some q -> i <> j -> refuses call q) ->
  l !! j = Some p -> p_offline p = false -> p_dsc p = Some dsc -> call dsc = Some f ->
  f (p_ptr p) d = Ret (ret, b, d') -> holds d -> holds d' ->
  exists late', scan skip call l k late d =
    Ret (ret, if ret =? - ENOENT then [] else b, d', late',
         if 0 <=? ret then Some (k + j)%nat else None).
Proof.
  revert k late j. induction l as [|q l IH]; intros k late j Hr Hj Hon Hd Hc Hf Hh Hh'; [done|].
  cbn [scan]. destruct j as [|j].
  - cbn in Hj. simplify_eq. rewrite Hon, Bool.andb_false_r, Hd, Hc, Hf. run.
    destruct (Z.eqb_spec ret (- ENOENT)) as [->|]; [|rewrite Nat.add_0_r; eauto].
    destruct (scan_none skip call l (S k) late d') as [late' ->]; [|done|by eauto].
    apply Forall_lookup. intros i q Hi. by apply (Hr (S i)).
  - assert (Hnext : forall late, exists late', scan skip call l (S k) late d =
      Ret (ret, if ret =? - ENOENT then [] else b, d', late',
           if 0 <=? ret then Some (k + S j)%nat else None)).
    { intros late0. destruct (IH (S k) late0 j) as [late' ->]; try done.
      - intros i q' Hi Hne. apply (Hr (S i) q' Hi). lia.
      - exists late'. by replace (S k + j)%nat with (k + S j)%nat by lia. }
    assert (Hq : refuses call q) by (apply (Hr 0%nat); done).
    destruct (skip && p_offline q); [apply Hnext|].
    destruct (p_dsc q) as [dsc'|] eqn:Ed; [|apply Hnext].
    destruct (call dsc') as [g|] eqn:Eg; [|apply Hnext].
    destruct (Hq dsc' g d Hh Ed Eg) as [b' ->]. run. rewrite Z.eqb_refl. apply Hnext.
Qed.

(** ** A table of providers that keep the contract *)

Record cached (s : storage) (ce : gbms_cache_entry) (p : provider) (dsc : desc) : Prop := {
  ca_slot : slots s !! ce_provider ce = Some p;
  ca_dsc : p_dsc p = Some dsc;
  ca_read : d_read dsc <> None;
  ca_knows : knows (ce_provider ce) (ce_tag ce) = true;
}.

Record lawful (s : storage) : Prop := {
  lw_slots i p dsc : slots s !! i = Some p -> p_dsc p = Some dsc ->
    StorageContract (knows i) sees holds dsc (p_ptr p);
  lw_online i p : slots s !! i = Some p -> p_offline p = false;
  lw_unique i j t : knows i t = true -> knows j t = true -> i = j;
  lw_cache ce : ce ∈ gbms_cache s -> exists p dsc, cached s ce p dsc;
  lw_holds : holds (devices s);
}.

Lemma lawful_devices s d : lawful s -> holds d -> lawful (set_devices s d).
Proof.
  intros Hs Hd. split; try apply Hs; [|done]. intros ce Hce.
  destruct (lw_cache s Hs ce Hce) as (p & dsc & [? ? ? ?]). by exists p, dsc.
Qed.

(** Adding the provider that knows the tag to the cache. *)
Lemma lawful_add s tag i p dsc :
  lawful s -> slots s !! i = Some p -> p_dsc p = Some dsc -> d_read dsc <> None ->
  knows i tag = true ->
  exists o s', gbms_cache_add tag (Some i) s = Ret (o, s') /\ lawful s' /\ devices s' = devices s.
Proof.
  intros Hs Hi Hd Hr Hk. pose proof Hi as Hi'. apply lookup_slots in Hi' as [Hi' _].
  destruct (cache_add_ret s tag i p dsc Hi' Hd) as (o & s' & -> & Hs').
  { intros f. apply (lw_slots s Hs i p dsc Hi Hd). }
  eexists _, _; split; [done|]. destruct Hs' as [->|(e & free & Hp & Ht & _ & ->)]; [done|].
  split; [|done]. split; try apply Hs. intros ce. cbn [gbms_cache set_cache].
  rewrite elem_of_cons. intros [->|Hce].
  - exists p, dsc. split; try done; by rewrite ?Hp, ?Ht.
  - destruct (lw_cache s Hs ce Hce) as (q & dsc' & [? ? ? ?]). by exists q, dsc'.
Qed.

(** A provider of the table refuses the tags that it does not know. *)
Lemma refuses_read s tag data count i p :
  lawful s -> slots s !! i = Some p -> knows i tag = false ->
  refuses (call_read tag data count) p.
Proof.
  intros Hs Hi Hk dsc f d Hh Hd Hf. unfold call_read in Hf.
  destruct (d_read dsc) as [g|] eqn:Eg; [|done]. cbn in Hf. simplify_eq.
  destruct (sc_read (StorageContract := lw_slots s Hs i p dsc Hi Hd) g tag data count d Eg Hh)
    as (r & -> & Hr & _). rewrite (Hr Hk). run. eauto.
Qed.

Lemma refuses_write s tag l n i p :
  lawful s -> slots s !! i = Some p -> knows i tag = false -> 0 <= n <= Z.of_nat (length l) ->
  refuses (call_write tag (Some l) n) p.
Proof.
  intros Hs Hi Hk Hn dsc f d Hh Hd Hf. unfold call_write in Hf.
  destruct (d_write dsc) as [g|] eqn:Eg; [|done]. cbn in Hf. simplify_eq.
  destruct (sc_write (StorageContract := lw_slots s Hs i p dsc Hi Hd) g tag l n d Eg Hh Hn)
    as (r & -> & _ & Hr & _). rewrite (Hr Hk). run. eauto.
Qed.

(** Either a provider with the callback knows the tag and all others refuse it, or all
    refuse it. *)
Lemma knower_or_none s tag (call : desc -> option (Z -> D -> outcome (Z * list Z * D))) :
  lawful s ->
  (forall i p, slots s !! i = Some p -> knows i tag = false -> refuses call p) ->
  Forall (refuses call) (slots s) \/
  exists j p dsc f, slots s !! j = Some p /\ p_dsc p = Some dsc /\ call dsc = Some f /\
    knows j tag = true /\ forall i q, slots s !! i = Some q -> i <> j -> refuses call q.
Proof.
  intros Hs Hc.
  destruct (existsb (fun j => knows j tag) (seq 0 (length (slots s)))) eqn:Ex.
  - apply existsb_exists in Ex as (j & Hlt & Hk). apply in_seq in Hlt as [_ Hlt]. destruct (lookup_lt_is_Some_2 _ _ Hlt) as [p Hp].
    assert (Hothers : forall i q, slots s !! i = Some q -> i <> j -> refuses call q).
    { intros i q Hi Hne. apply (Hc i q Hi). destruct (knows i tag) eqn:E; [|done].
      by destruct Hne; apply (lw_unique s Hs i j tag). }
    destruct (p_dsc p) as [dsc|] eqn:Ed; [destruct (call dsc) as [f|] eqn:Ef|].
    + right. by exists j, p, dsc, f.
    + left. apply Forall_lookup. intros i q Hi. destruct (decide (i = j)) as [->|]; [|by apply (Hothers i)].
      intros dsc' f d _ Hd Hf. by simplify_eq.
    + left. apply Forall_lookup. intros i q Hi. destruct (decide (i = j)) as [->|]; [|by apply (Hothers i)].
      intros dsc' f d _ Hd Hf. by simplify_eq.
  - left. apply Forall_lookup. intros i q Hi. apply (Hc i q Hi).
    destruct (knows i tag) eqn:E; [|done]. rewrite <- Ex. symmetry. apply existsb_exists.
    exists i. split; [|done]. apply in_seq. apply lookup_lt_Some in Hi. lia.
Qed.

(** The entry that the cache has for a tag. *)
Lemma cached_tag s tag ce :
  lawful s -> List.find (fun ce => ce_tag ce =? tag) (gbms_cache s) = Some ce ->
  ce_tag ce = tag /\ exists p dsc, cached s ce p dsc.
Proof.
  intros Hs Hf. apply find_some in Hf as [Hin Ht]. apply Z.eqb_eq in Ht.
  split; [done|]. apply (lw_cache s Hs). by apply list_elem_of_In.
Qed.

Lemma others_refuse s call j tag :
  lawful s -> knows j tag = true ->
  (forall i p, slots s !! i = Some p -> knows i tag = false -> refuses call p) ->
  forall i p, slots s !! i = Some p -> i <> j -> refuses call p.
Proof.
  intros Hs Hj Hc i p Hi Hne. apply (Hc i p Hi). destruct (knows i tag) eqn:E; [|done].
  by destruct Hne; apply (lw_unique s Hs i j tag).
Qed.

(** ** Reading *)

Definition without_cache (s : storage) : storage := set_cache s None [].

Lemma read_without_cache s tag data count :
  gbms_storage_init_done s = true -> negb data && negb (count =? 0) = false ->
  gbms_storage_read tag data count (without_cache s) =
    let* r := scan false (call_read tag data count) (slots s) 0 false (devices s) in
    let '(ret, bytes, _, late_inits, _) := r in
    Ret (or_late late_inits ret, bytes, without_cache s).
Proof.
  intros Hi Hg. unfold gbms_storage_read. cbn [gbms_storage_init_done without_cache set_cache].
  rewrite Hi, Hg. run. change (gbms_cache_read tag data count (without_cache s))
    with (Ret (A := Z * list Z) (- ENOENT, [])). run. rewrite Z.eqb_refl.
  change (slots (without_cache s)) with (slots s). cbn [devices without_cache set_cache].
  destruct (scan _ _ _ _ _ _) as [[[[[ret b] d] late] hit]| |]; [|done..]. run. by destruct hit.
Qed.

Lemma or_late_other late ret : ret <> - ENOENT -> or_late late ret = ret.
Proof. intros H. unfold or_late. apply Z.eqb_neq in H. rewrite H. by destruct late. Qed.

Lemma or_late_neg late ret : ret < 0 -> or_late late ret < 0.
Proof. intros H. unfold or_late. destruct (_ && _); [|done]. unfold EPROBE_DEFER. lia. Qed.

(** What the read callback of the provider of a tag gives. *)
Lemma provider_read s tag data count j p dsc f :
  lawful s -> slots s !! j = Some p -> p_dsc p = Some dsc ->
  call_read tag data count dsc = Some f -> knows j tag = true ->
  exists ret b, f (p_ptr p) (devices s) = Ret (ret, b, devices s) /\
    (0 <= ret -> b = sees (devices s) tag) /\
    forall g, d_read dsc = Some g -> g tag data count (p_ptr p) (devices s) = Ret (ret, b).
Proof.
  intros Hs Hj Hd Hf Hk. unfold call_read in Hf.
  destruct (d_read dsc) as [g|] eqn:Eg; [|done]. cbn in Hf. simplify_eq.
  destruct (sc_read (StorageContract := lw_slots s Hs j p dsc Hj Hd) g tag data count (devices s) Eg (lw_holds s Hs))
    as ([ret b] & Hr & _ & Hsee). rewrite Hr. run.
  exists ret, b. repeat split; [auto|]. intros g' Hg. by simplify_eq.
Qed.

(** Asking the providers in turn: the table, the answer and what is remembered. *)
Lemma read_scan s tag data count :
  lawful s ->
  exists ret b late hit s',
    scan false (call_read tag data count) (slots s) 0 false (devices s) =
      Ret (ret, b, devices s, late, hit) /\
    match hit with
    | Some i => let* c := gbms_cache_add tag (Some i) s in Ret c.2
    | None => Ret s
    end = Ret s' /\
    (0 <= or_late late ret -> b = sees (devices s) tag) /\ lawful s' /\ devices s' = devices s.
Proof.
  intros Hs. pose proof (fun i p Hp => refuses_read s tag data count i p Hs Hp) as Href.
  destruct (knower_or_none s tag _ Hs Href) as [Hno|(j & p & dsc & f & Hp & Hd & Ec & Hk & Hoth)].
  - destruct (scan_none false _ (slots s) 0 false (devices s) Hno (lw_holds s Hs)) as [late ->].
    do 5 eexists; split_and!; [done..| |done|done]. intros H.
    pose proof (or_late_neg late (- ENOENT) ltac:(unfold ENOENT; lia)). lia.
  - destruct (provider_read s tag data count j p dsc f Hs Hp Hd Ec Hk) as (ret & b & Hf & Hsee & _).
    destruct (scan_knower false _ (slots s) 0 false (devices s) j p dsc f ret b (devices s)
      Hoth Hp (lw_online s Hs _ p Hp) Hd Ec Hf (lw_holds s Hs) (lw_holds s Hs)) as [late ->]. cbn [Nat.add].
    destruct (Z.leb_spec 0 ret) as [Hpos|Hneg].
    + destruct (Z.eqb_spec ret (- ENOENT)); [unfold ENOENT in *; lia|].
      destruct (lawful_add s tag j p dsc) as (o & s' & Hadd & Hs' & Hdev); try done.
      { intros Hn. unfold call_read in Ec. by rewrite Hn in Ec. }
      exists ret, b, late, (Some j), s'. split_and!; [done|by rewrite Hadd|by rewrite or_late_other|done|done].
    + do 5 eexists; split_and!; [done..| |done|done]. intros H. pose proof (or_late_neg late ret Hneg). lia.
Qed.

(** What reading does, with and without the cache. *)
Lemma storage_read_lawful s tag data count :
  lawful s -> gbms_storage_init_done s = true -> negb data && negb (count =? 0) = false ->
  exists ret b s', gbms_storage_read tag data count s = Ret (ret, b, s') /\
    gbms_storage_read tag data count (without_cache s) = Ret (ret, b, without_cache s) /\
    (0 <= ret -> b = sees (devices s) tag) /\ lawful s' /\ devices s' = devices s.
Proof.
  intros Hs Hi Hg. rewrite read_without_cache by done. unfold gbms_storage_read.
  rewrite Hi, Hg. run.
  destruct (read_scan s tag data count Hs) as (ret & b & late & hit & s' & Hscan & Hadd & Hsee & Hs' & Hdev).
  destruct (List.find (fun ce => ce_tag ce =? tag) (gbms_cache s)) as [ce|] eqn:Ef.
  2: { unfold gbms_cache_read, gbms_cache_lookup. rewrite Ef. run. rewrite Hscan. run. rewrite Z.eqb_refl, Hadd.
       run. eauto 10. }
  destruct (cached_tag s tag ce Hs Ef) as (<- & p & dsc & [Hp Hd Hr Hk]).
  pose proof Hp as Hp'. apply lookup_slots in Hp' as [Hp' _].
  rewrite (cache_read_hit s _ data count ce p dsc) by done. rewrite (lw_online s Hs _ p Hp).
  destruct (d_read dsc) as [g|] eqn:Eg; [|done].
  destruct (call_read (ce_tag ce) data count dsc) as [f|] eqn:Ec; [|unfold call_read in Ec; by rewrite Eg in Ec].
  destruct (provider_read s _ data count _ p dsc f Hs Hp Hd Ec Hk) as (ret' & b' & Hf & Hsee' & Hg').
  pose proof (fun i p Hp => refuses_read s (ce_tag ce) data count i p Hs Hp) as Href.
  destruct (scan_knower false _ (slots s) 0 false (devices s) (ce_provider ce) p dsc f ret' b' (devices s)
    (others_refuse s _ _ _ Hs Hk Href) Hp (lw_online s Hs _ p Hp) Hd Ec Hf (lw_holds s Hs) (lw_holds s Hs)) as [late' Hscan'].
  rewrite Hscan in Hscan'. simplify_eq. rewrite (Hg' g Eg), Hscan. run.
  destruct (Z.eqb_spec ret' (- ENOENT)) as [->|Hne].
  - rewrite Hadd. run. eauto 10.
  - rewrite or_late_other by done. eauto 10.
Qed.

(** C19. The cache is transparent: with providers that keep the contract, are online and have
    no tag in common, [gbms_storage_read] gives the status and the bytes that it gives when
    the cache could not be created and every read asks the providers in turn; what is read
    is the record of the tag, and the table stays as it should be. *)
Theorem storage_read_ignores_cache s tag data count :
  lawful s -> gbms_storage_init_done s = true -> negb data && negb (count =? 0) = false ->
  exists ret b s', gbms_storage_read tag data count s = Ret (ret, b, s') /\
    gbms_storage_read tag data count (without_cache s) = Ret (ret, b, without_cache s) /\
    (0 <= ret -> b = sees (devices s) tag) /\ lawful s' /\ devices s' = devices s.
Proof. apply storage_read_lawful. Qed.

(** ** Writing *)

(** The first [n] bytes of [l] over the record [old]. *)
Definition overlay (l : list Z) (n : Z) (old : list Z) : list Z :=
  take (Z.to_nat n) l ++ drop (Z.to_nat n) old.

(** What the write of [n] bytes of [l] to [tag] may do to the records. *)
Record written (tag : Z) (l : list Z) (n ret : Z) (d d' : D) : Prop := {
  wr_new : 0 <= ret -> sees d' tag = overlay l n (sees d tag);
  wr_rest : drop (Z.to_nat n) (sees d' tag) = drop (Z.to_nat n) (sees d tag);
  wr_others t' : t' <> tag -> sees d' t' = sees d t';
}.

Lemma written_none tag l n ret d : ret < 0 -> written tag l n ret d d.
Proof. intros. by split; [lia| |]. Qed.

(** A write that failed and was then repeated. *)
Lemma written_again tag l n r ret d d1 d2 :
  written tag l n r d d1 -> written tag l n ret d1 d2 -> written tag l n ret d d2.
Proof.
  intros [_ Hr1 Ho1] [Hn Hr2 Ho2]. split.
  - intros H. rewrite (Hn H). unfold overlay. by rewrite Hr1.
  - congruence.
  - intros t' Ht. by rewrite (Ho2 t' Ht), (Ho1 t' Ht).
Qed.

Lemma written_status tag l n r ret d d' :
  (0 <= ret -> 0 <= r) -> written tag l n r d d' -> written tag l n ret d d'.
Proof. intros Hi [Hn Hr Ho]. split; auto. Qed.

Lemma provider_write s tag l n j p dsc f :
  lawful s -> 0 <= n <= Z.of_nat (length l) -> slots s !! j = Some p -> p_dsc p = Some dsc ->
  call_write tag (Some l) n dsc = Some f -> knows j tag = true ->
  exists ret d', f (p_ptr p) (devices s) = Ret (ret, [], d') /\ holds d' /\ written tag l n ret (devices s) d' /\
    forall g, d_write dsc = Some g -> g tag (Some l) n (p_ptr p) (devices s) = Ret (ret, d').
Proof.
  intros Hs Hn Hj Hd Hf Hk. unfold call_write in Hf.
  destruct (d_write dsc) as [g|] eqn:Eg; [|done]. cbn in Hf. simplify_eq.
  destruct (sc_write (StorageContract := lw_slots s Hs j p dsc Hj Hd) g tag l n (devices s) Eg (lw_holds s Hs) Hn)
    as ([ret d'] & Hr & Hh & _ & Hnew & Hrest & Hoth). rewrite Hr. run.
  exists ret, d'. split_and!; [done|done| |intros g' Hg; by simplify_eq]. split; auto.
Qed.

Lemma write_scan s tag l n :
  lawful s -> 0 <= n <= Z.of_nat (length l) ->
  exists ret b d' late hit s',
    scan true (call_write tag (Some l) n) (slots s) 0 false (devices s) =
      Ret (ret, b, d', late, hit) /\
    match hit with
    | Some i => let* c := gbms_cache_add tag (Some i) (set_devices s d') in Ret c.2
    | None => Ret (set_devices s d')
    end = Ret s' /\
    written tag l n (or_late late ret) (devices s) d' /\ lawful s' /\ devices s' = d'.
Proof.
  intros Hs Hn. pose proof (fun i p Hp Hk => refuses_write s tag l n i p Hs Hp Hk Hn) as Href.
  destruct (knower_or_none s tag _ Hs Href) as [Hno|(j & p & dsc & f & Hp & Hd & Ec & Hk & Hoth)].
  - destruct (scan_none true _ (slots s) 0 false (devices s) Hno (lw_holds s Hs)) as [late ->].
    do 6 eexists; split_and!; [done..| | |done]; [|by apply lawful_devices, Hs].
    apply written_none, or_late_neg. unfold ENOENT. lia.
  - destruct (provider_write s tag l n j p dsc f Hs Hn Hp Hd Ec Hk) as (ret & d' & Hf & Hh & Hw & _).
    destruct (scan_knower true _ (slots s) 0 false (devices s) j p dsc f ret [] d'
      Hoth Hp (lw_online s Hs _ p Hp) Hd Ec Hf (lw_holds s Hs) Hh) as [late ->]. cbn [Nat.add].
    assert (Hw' : written tag l n (or_late late ret) (devices s) d').
    { apply (written_status tag l n ret); [|done]. intros H. destruct (Z.leb_spec 0 ret); [done|].
      pose proof (or_late_neg late ret). lia. }
    destruct (Z.leb_spec 0 ret) as [Hpos|Hneg].
    + destruct (lawful_add (set_devices s d') tag j p dsc) as (o & s' & Hadd & Hs' & Hdev); try done.
      { by apply lawful_devices. }
      { intros Hno. unfold call_write in Ec.
        by rewrite (sc_readable (StorageContract := lw_slots s Hs j p dsc Hp Hd) Hno) in Ec. }
      eexists ret, _, d', late, (Some j), s'. split_and!; [done|by rewrite Hadd|done..].
    + do 6 eexists; split_and!; [done..|by apply lawful_devices|done].
Qed.

(** What writing does to the records. *)
Lemma storage_write_lawful s tag l n :
  lawful s -> gbms_storage_init_done s = true -> 0 <= n <= Z.of_nat (length l) ->
  exists ret s', gbms_storage_write tag (Some l) n s = Ret (ret, s') /\ lawful s' /\
    (0 <= ret -> sees (devices s') tag = overlay l n (sees (devices s) tag)) /\
    (forall t', t' <> tag -> sees (devices s') t' = sees (devices s) t').
Proof.
  intros Hs Hi Hn.
  assert (H : exists ret s', gbms_storage_write tag (Some l) n s = Ret (ret, s') /\ lawful s' /\
    written tag l n ret (devices s) (devices s')).
  2: { destruct H as (ret & s' & Hw & Hs' & [? ? ?]). eauto 8. }
  unfold gbms_storage_write. rewrite Hi. cbn [negb]. rewrite bool_decide_eq_false_2 by done. run.
  assert (Hc : exists r d1, gbms_cache_write tag (Some l) n s = Ret (r, d1) /\
    holds d1 /\ written tag l n r (devices s) d1).
  { destruct (List.find (fun ce => ce_tag ce =? tag) (gbms_cache s)) as [ce|] eqn:Ef.
    2: { unfold gbms_cache_write, gbms_cache_lookup. rewrite Ef. do 2 eexists; split_and!; [done|apply Hs|]. by apply written_none. }
    destruct (cached_tag s tag ce Hs Ef) as (<- & p & dsc & [Hp Hd Hr Hk]).
    pose proof Hp as Hp'. apply lookup_slots in Hp' as [Hp' _].
    rewrite (cache_write_hit s _ (Some l) n ce p dsc) by done. rewrite (lw_online s Hs _ p Hp).
    destruct (d_write dsc) as [g|] eqn:Eg; [|by do 2 eexists; split_and!; [done|apply Hs|]; apply written_none].
    destruct (call_write (ce_tag ce) (Some l) n dsc) as [f|] eqn:Ec;
      [|unfold call_write in Ec; by rewrite Eg in Ec].
    destruct (provider_write s _ l n _ p dsc f Hs Hn Hp Hd Ec Hk) as (ret & d' & _ & Hh & Hw & Hg').
    rewrite (Hg' g Eg). eauto. }
  destruct Hc as (r & d1 & -> & Hh1 & Hw1). run. apply (lawful_devices s d1) in Hs; [|done].
  destruct (r =? - ENOENT); [|by eauto].
  destruct (write_scan _ tag l n Hs Hn) as (ret & b & d' & late & hit & s' & -> & Hadd & Hw & Hs' & <-).
  run. rewrite Hadd. run. do 2 eexists; split_and!; [done..|]. by apply (written_again _ _ _ r _ _ d1).
Qed.

(** C20. The storage is a map from tags to records: with providers that keep the contract, are
    online and have no tag in common, [gbms_storage_write] returns; when it reports success
    the record of the tag starts with the bytes that were given and keeps the rest of its
    old contents; the record of every other tag stays as it was, also when the write fails
    half way; and the table still keeps the contract, cached or not. *)
Theorem storage_write_updates_record s tag l n :
  lawful s -> gbms_storage_init_done s = true -> 0 <= n <= Z.of_nat (length l) ->
  exists ret s', gbms_storage_write tag (Some l) n s = Ret (ret, s') /\ lawful s' /\
    (0 <= ret -> sees (devices s') tag = overlay l n (sees (devices s) tag)) /\
    (forall t', t' <> tag -> sees (devices s') t' = sees (devices s) t').
Proof. apply storage_write_lawful. Qed.

End contract.
