(* ===== verification/Eeprom.v ===== *)
(** * The battery EEPROM (src/bms/google_eeprom.c, google_eeprom_01.c, google_eeprom_02.c)

    A provider of the storage that keeps each tag at a fixed place of an NVMEM device, in one
    of three layouts, and an array of history entries.  The device is a parameter
    ([Nvmem]) with its documented behaviour ([NvmemLaws]). *)

From Stdlib Require Import String.
From S2P Require Import Prelude GbmsStorage.

(** ** The NVMEM device

    A call returns the number of bytes that were transferred, or an error. *)
Class Nvmem (N : Type) := {
  nvmem_device_read : N -> forall offset bytes : Z, Z * list Z;
  nvmem_device_write : N -> forall offset : Z, list Z -> Z * N;
}.

Class NvmemLaws (N : Type) `{!Nvmem N} := {
  contents : N -> memory;
  nv_read n offset len : 0 <= len ->
    (nvmem_device_read n offset len).1 < 0 \/
    nvmem_device_read n offset len = (len, load (contents n) offset len);
  nv_write n offset bs :
    (nvmem_device_write n offset bs).1 = Z.of_nat (length bs) /\
      (forall a, contents (nvmem_device_write n offset bs).2 a = store (contents n) offset bs a) \/
    (nvmem_device_write n offset bs).1 < 0 /\
      (forall a, a < offset \/ offset + Z.of_nat (length bs) <= a ->
         contents (nvmem_device_write n offset bs).2 a = contents n a);
}.

(** ** Tags *)

Definition GBMS_TAG_AAWC : Z := 0x41415743.
Definition GBMS_TAG_ACIM : Z := 0x4143494d.
Definition GBMS_TAG_AYMD : Z := 0x41594d44.
Definition GBMS_TAG_BCNT : Z := 0x42434e54.
Definition GBMS_TAG_BGPN : Z := 0x4247504e.
Definition GBMS_TAG_BPST : Z := 0x42505354.
Definition GBMS_TAG_BRID : Z := 0x42524944.
Definition GBMS_TAG_CELC : Z := 0x43454C43.
Definition GBMS_TAG_CNHS : Z := 0x434E4853.
Definition GBMS_TAG_DINF : Z := 0x44494e46.
Definition GBMS_TAG_FCRU : Z := 0x46435255.
Definition GBMS_TAG_FGST : Z := 0x46475354.
Definition GBMS_TAG_GCFE : Z := 0x47434645.
Definition GBMS_TAG_GMSR : Z := 0x474d5352.
Definition GBMS_TAG_HIST : Z := 0x48495354.
Definition GBMS_TAG_LOTR : Z := 0x4C4F5452.
Definition GBMS_TAG_MINF : Z := 0x4d494e46.
Definition GBMS_TAG_MYMD : Z := 0x4d594d44.
Definition GBMS_TAG_RAVG : Z := 0x52415647.
Definition GBMS_TAG_RFCN : Z := 0x5246434e.
Definition GBMS_TAG_SELC : Z := 0x53454C43.
Definition GBMS_TAG_SNUM : Z := 0x534e554d.
Definition GBMS_TAG_STRD : Z := 0x53545244.
Definition GBMS_TAG_THAS : Z := 0x54484153.

Definition GBMS_LOTR_DEFAULT : Z := 0xff.
Definition GBMS_LOTR_V1 : Z := 1.
Definition GBMS_LOTR_V2 : Z := 2.

Definition BATT_ONE_HIST_LEN : Z := 12.
Definition BATT_MAX_HIST_CNT : Z := 75.
Definition BATT_TOTAL_HIST_LEN : Z := BATT_ONE_HIST_LEN * BATT_MAX_HIST_CNT.
Definition BATT_EEPROM_TAG_BRID_OFFSET : Z := 0x17.
Definition BATT_EEPROM_TAG_LOTR_OFFSET : Z := 0x59.
Definition BATT_EEPROM_TAG_LOTR_LEN : Z := 1.
Definition BATT_EEPROM_TAG_FCRU_OFFSET : Z := 0x3E2.

(** ** Where the tags are

    The cases of a switch on a tag, each with the address and the count that it sets. *)
Definition switch_tag (cases : list (Z * (Z * Z))) (tag : Z) : option (Z * Z) :=
  snd <$> List.find (fun c => c.1 =? tag) cases.

Definition gbee_storage_cases : list (Z * (Z * Z)) :=
  [ (GBMS_TAG_MINF, (0x00, 30)); (GBMS_TAG_DINF, (0x3EE, 16));
    (GBMS_TAG_HIST, (0x5E, BATT_ONE_HIST_LEN));
    (GBMS_TAG_SNUM, (0x03, 10)); (GBMS_TAG_BGPN, (0x03, 10));
    (GBMS_TAG_GMSR, (0x42, 23)); (GBMS_TAG_BCNT, (0x2E, 10 * 2));
    (GBMS_TAG_CNHS, (0x5A, 2)); (GBMS_TAG_LOTR, (0x59, 1)); (GBMS_TAG_SELC, (0x5C, 1));
    (GBMS_TAG_CELC, (0x5D, 1)); (GBMS_TAG_STRD, (0x1E, 12)); (GBMS_TAG_ACIM, (0x2C, 2));
    (GBMS_TAG_GCFE, (0x3E8, 2)); (GBMS_TAG_RAVG, (0x3EA, 2)); (GBMS_TAG_RFCN, (0x3EC, 2));
    (GBMS_TAG_THAS, (0x3FE, 2)); (GBMS_TAG_AYMD, (0x3E5, 3)); (GBMS_TAG_MYMD, (0x0F, 3));
    (GBMS_TAG_FCRU, (0x3E2, 2)); (GBMS_TAG_FGST, (0x3E4, 1)) ].

(** The status, the address and the count. *)
Definition gbee_storage_info (tag : Z) : Z * (Z * Z) :=
  match switch_tag gbee_storage_cases tag with
  | Some loc => (0, loc)
  | None => (- ENOENT, (0, 0))
  end.

Definition gbee_storage01_cases : list (Z * (Z * Z)) :=
  [ (GBMS_TAG_BPST, (0x5E, 1)); (GBMS_TAG_HIST, (0x64, BATT_ONE_HIST_LEN)) ].

Definition gbee_storage01_info (tag : Z) : Z * (Z * Z) :=
  match switch_tag gbee_storage01_cases tag with
  | Some loc => (0, loc)
  | None => gbee_storage_info tag
  end.

Definition gbee_storage02_cases : list (Z * (Z * Z)) :=
  [ (GBMS_TAG_DINF, (0x1FEE, 16)); (GBMS_TAG_HIST, (0x5E, BATT_ONE_HIST_LEN));
    (GBMS_TAG_GCFE, (0x1FE8, 2)); (GBMS_TAG_RAVG, (0x1FEA, 2)); (GBMS_TAG_RFCN, (0x1FEC, 2));
    (GBMS_TAG_THAS, (0x1FFE, 2)); (GBMS_TAG_AYMD, (0x1FE5, 3)); (GBMS_TAG_FGST, (0x1FE4, 1));
    (GBMS_TAG_FCRU, (0x1FE2, 2)); (GBMS_TAG_AAWC, (0x1FDE, 4)) ].

Definition gbee_storage02_info (tag : Z) : Z * (Z * Z) :=
  match switch_tag gbee_storage02_cases tag with
  | Some loc => (0, loc)
  | None => gbee_storage_info tag
  end.

(** The keys of an enumeration: the status and the tag. *)
Definition key_at (keys : list Z) (index : Z) : Z * Z :=
  if (index <? 0) || (Z.of_nat (length keys) <=? index) then (- ENOENT, 0) else
  match keys !! Z.to_nat index with
  | Some tag => (0, tag)
  | None => (- ENOENT, 0)
  end.

Definition gbee_storage_iter (index : Z) : Z * Z :=
  key_at [ GBMS_TAG_BGPN; GBMS_TAG_MINF; GBMS_TAG_DINF; GBMS_TAG_HIST; GBMS_TAG_BRID;
           GBMS_TAG_SNUM; GBMS_TAG_GMSR; GBMS_TAG_BCNT; GBMS_TAG_CNHS; GBMS_TAG_SELC;
           GBMS_TAG_CELC; GBMS_TAG_LOTR; GBMS_TAG_STRD; GBMS_TAG_ACIM; GBMS_TAG_GCFE;
           GBMS_TAG_RAVG; GBMS_TAG_RFCN; GBMS_TAG_THAS; GBMS_TAG_AYMD; GBMS_TAG_MYMD;
           GBMS_TAG_FGST; GBMS_TAG_FCRU; GBMS_TAG_AAWC ] index.

Definition gbee_storage01_iter (index : Z) : Z * Z :=
  key_at [ GBMS_TAG_BGPN; GBMS_TAG_MINF; GBMS_TAG_DINF; GBMS_TAG_HIST; GBMS_TAG_BRID;
           GBMS_TAG_SNUM; GBMS_TAG_GMSR; GBMS_TAG_BCNT; GBMS_TAG_CNHS; GBMS_TAG_SELC;
           GBMS_TAG_CELC; GBMS_TAG_LOTR; GBMS_TAG_BPST; GBMS_TAG_STRD ] index.

Definition gbee_storage_is_writable (tag : Z) : bool :=
  existsb (Z.eqb tag)
    [ GBMS_TAG_DINF; GBMS_TAG_GMSR; GBMS_TAG_BCNT; GBMS_TAG_CNHS; GBMS_TAG_SELC;
      GBMS_TAG_CELC; GBMS_TAG_BPST; GBMS_TAG_STRD; GBMS_TAG_ACIM; GBMS_TAG_GCFE;
      GBMS_TAG_RAVG; GBMS_TAG_RFCN; GBMS_TAG_THAS; GBMS_TAG_AYMD; GBMS_TAG_FGST;
      GBMS_TAG_FCRU; GBMS_TAG_AAWC ].

(** The three descriptors, which [gbee_desc] points to. *)
Inductive gbee_dsc := GBEE_STORAGE_DSC | GBEE_STORAGE01_DSC | GBEE_STORAGE02_DSC.

#[global] Instance gbee_dsc_eq_dec : EqDecision gbee_dsc.
Proof. solve_decision. Defined.

Definition info_of (v : gbee_dsc) : Z -> Z * (Z * Z) :=
  match v with
  | GBEE_STORAGE_DSC => gbee_storage_info
  | GBEE_STORAGE01_DSC => gbee_storage01_info
  | GBEE_STORAGE02_DSC => gbee_storage02_info
  end.

Section eeprom.
Context {N : Type} `{!Nvmem N}.

Record gbee := mk_gbee {
  gbee_desc : option gbee_dsc;
  nvram : N;
}.

Definition GBEE_STORAGE_INFO (tag : Z) (d : gbee) : Z * (Z * Z) :=
  match gbee_desc d with
  | Some v => info_of v tag
  | None => gbee_storage_info tag
  end.

(** ** Reading and writing a tag *)

Definition gbee_storage_read (tag : Z) (buff : bool) (size ptr : Z) (d : gbee)
    : outcome (Z * list Z) :=
  if tag =? GBMS_TAG_BRID then
    if negb (size =? 4) then Ret (- ENOMEM, []) else
    let r := nvmem_device_read (nvram d) BATT_EEPROM_TAG_BRID_OFFSET 1 in
    if r.1 <? 0 then Ret (r.1, []) else
    let* temp := must (r.2 !! 0%nat) in
    Ret (0, [temp; 0; 0; 0])
  else
    let '(ret, (offset, len)) := GBEE_STORAGE_INFO tag d in
    if ret <? 0 then Ret (ret, []) else
    if len =? 0 then Ret (- ENOENT, []) else
    if size <? len then Ret (- ENOMEM, []) else
    let r := nvmem_device_read (nvram d) offset len in
    Ret (if r.1 =? 0 then len else r.1, if r.1 <? 0 then [] else r.2).

(** Writes [count] bytes one by one from byte [w] of the buffer on. *)
Fixpoint write_bytes (data : list Z) (offset : Z) (count w : nat) (nv : N) : outcome (Z * N) :=
  match count with
  | O => Ret (0, nv)
  | S count =>
    let* b := must (data !! w) in
    let r := nvmem_device_write nv (Z.of_nat w + offset) [b] in
    if r.1 <? 0 then Ret r else write_bytes data offset count (S w) r.2
  end.

Definition gbee_storage_write (tag : Z) (buff : option (list Z)) (size ptr : Z) (d : gbee)
    : outcome (Z * gbee) :=
  if negb (gbee_storage_is_writable tag) then Ret (- ENOENT, d) else
  let '(ret, (offset, len)) := GBEE_STORAGE_INFO tag d in
  if ret <? 0 then Ret (ret, d) else
  if len <? size then Ret (- ENOMEM, d) else
  let* r := write_bytes (default [] buff) offset (Z.to_nat size) 0 (nvram d) in
  Ret (if r.1 <? 0 then r.1 else size, mk_gbee (gbee_desc d) r.2).

(** ** The history *)

(** The common end of the reads: [max] entries. *)
Definition read_entry (max : Z) (loc : Z * (Z * Z)) (data : bool) (count idx : Z) (d : gbee)
    : outcome (Z * list Z) :=
  let '(ret, (offset, len)) := loc in
  if ret <? 0 then Ret (ret, []) else
  if negb data || (count =? 0) then
    Ret (if idx =? GBMS_STORAGE_INDEX_INVALID then 0 else max, [])
  else
  if idx <? 0 then Ret (- EINVAL, []) else
  if max <=? idx then Ret (- ENODATA, []) else
  if count <? len then Ret (- EINVAL, []) else
  let r := nvmem_device_read (nvram d) (offset + len * idx) len in
  Ret (if r.1 =? 0 then len else r.1, if r.1 <? 0 then [] else r.2).

Definition gbee_storage_read_data (tag : Z) (data : bool) (count idx ptr : Z) (d : gbee)
    : outcome (Z * list Z) :=
  read_entry BATT_MAX_HIST_CNT
    (if tag =? GBMS_TAG_HIST then GBEE_STORAGE_INFO tag d else (- ENOENT, (0, 0)))
    data count idx d.

(** The second layout has room for more entries. *)
Definition gbee_storage_read_data_02 (tag : Z) (data : bool) (count idx ptr : Z) (d : gbee)
    : outcome (Z * list Z) :=
  read_entry 200
    (if tag =? GBMS_TAG_HIST then gbee_storage02_info tag else (- ENOENT, (0, 0)))
    data count idx d.

Definition gbee_storage_write_data (tag : Z) (data : option (list Z)) (count idx ptr : Z) (d : gbee)
    : outcome (Z * gbee) :=
  let '(ret, (offset, len)) :=
    if tag =? GBMS_TAG_HIST then GBEE_STORAGE_INFO tag d else (- ENOENT, (0, 0)) in
  if ret <? 0 then Ret (ret, d) else
  if (idx <? 0) || bool_decide (data = None) || (count =? 0) then Ret (- EINVAL, d) else
  if BATT_MAX_HIST_CNT <=? idx then Ret (- ENODATA, d) else
  if len <? count then Ret (- EINVAL, d) else
  let* r := write_bytes (default [] data) (offset + len * idx) (Z.to_nat len) 0 (nvram d) in
  Ret (if r.1 <? 0 then r.1 else len, mk_gbee (gbee_desc d) r.2).

(** ** Descriptors *)

Definition gbee_storage_dsc : gbms_storage_desc gbee :=
  mk_desc (Some (fun index _ _ => Ret (gbee_storage_iter index)))
    (Some (fun tag _ _ => Ret (gbee_storage_info tag)))
    (Some gbee_storage_read) (Some gbee_storage_write) None None None
    (Some gbee_storage_read_data) (Some gbee_storage_write_data).

Definition gbee_storage01_dsc : gbms_storage_desc gbee :=
  mk_desc (Some (fun index _ _ => Ret (gbee_storage01_iter index)))
    (Some (fun tag _ _ => Ret (gbee_storage01_info tag)))
    (Some gbee_storage_read) (Some gbee_storage_write) None None None
    (Some gbee_storage_read_data) (Some gbee_storage_write_data).

Definition gbee_storage02_dsc : gbms_storage_desc gbee :=
  mk_desc (Some (fun index _ _ => Ret (gbee_storage_iter index)))
    (Some (fun tag _ _ => Ret (gbee_storage02_info tag)))
    (Some gbee_storage_read) (Some gbee_storage_write) None None None
    (Some gbee_storage_read_data_02) (Some gbee_storage_write_data).

Definition desc_of (v : gbee_dsc) : gbms_storage_desc gbee :=
  match v with
  | GBEE_STORAGE_DSC => gbee_storage_dsc
  | GBEE_STORAGE01_DSC => gbee_storage01_dsc
  | GBEE_STORAGE02_DSC => gbee_storage02_dsc
  end.

(** ** Changing the layout *)

(** The entries in use, up to [fuel]; [inl] is an error of the device. *)
Fixpoint hist_entries (nv : N) (from : Z) (fuel : nat) : outcome (Z + list Z) :=
  match fuel with
  | O => Ret (inr [])
  | S fuel =>
    let r := nvmem_device_read nv from BATT_ONE_HIST_LEN in
    if r.1 <? 0 then Ret (inl r.1) else
    let* b := must (r.2 !! 0%nat) in
    if b =? 0xff then Ret (inr []) else
    let* rest := hist_entries nv (from + BATT_ONE_HIST_LEN) fuel in
    Ret (match rest with inl e => inl e | inr l => inr (r.2 ++ l) end)
  end.

(** [alloc]: whether the buffer can be allocated.  With no entry in use the status is that of
    the first read. *)
Definition gbms_hist_move (alloc : bool) (nv : N) (from to : Z) : outcome (Z * N) :=
  if negb alloc then Ret (- ENOMEM, nv) else
  let* o := hist_entries nv from (Z.to_nat BATT_MAX_HIST_CNT) in
  match o with
  | inl e => Ret (e, nv)
  | inr [] => Ret ((nvmem_device_read nv from BATT_ONE_HIST_LEN).1, nv)
  | inr buff => Ret (nvmem_device_write nv to buff)
  end.

Definition gbms_lotr_update_to_v1 (alloc : bool) (nv : N) : outcome (Z * N) :=
  let* r := gbms_hist_move alloc nv 0x5E 0x64 in
  if r.1 <? 0 then Ret r else
  let w := nvmem_device_write r.2 0x5E [0; 0; 0; 0; 0] in
  if negb (w.1 =? 5) then Ret (if w.1 <? 0 then w.1 else - EINVAL, w.2) else Ret w.

Fixpoint clear_bytes (offset : Z) (size : nat) (ret : Z) (nv : N) : Z * N :=
  match size with
  | O => (ret, nv)
  | S size =>
    let w := nvmem_device_write nv offset [0xff] in
    if w.1 <? 0 then w else clear_bytes (offset + 1) size w.1 w.2
  end.

Definition gbms_lotr_update_to_v2 (nv : N) : Z * N :=
  clear_bytes BATT_EEPROM_TAG_FCRU_OFFSET (Z.to_nat (0x3FF - BATT_EEPROM_TAG_FCRU_OFFSET)) 0 nv.

Definition gbms_lotr_update (alloc : bool) (nv : N) (lotr_to : Z) : outcome (Z * N) :=
  let r := nvmem_device_read nv BATT_EEPROM_TAG_LOTR_OFFSET BATT_EEPROM_TAG_LOTR_LEN in
  if r.1 <? 0 then Ret (r.1, nv) else
  let* lotr_from := must (r.2 !! 0%nat) in
  if lotr_from =? lotr_to then Ret (r.1, nv) else
  let finish (r : Z * N) :=
    if r.1 <? 0 then (0, r.2) else
    nvmem_device_write r.2 BATT_EEPROM_TAG_LOTR_OFFSET [Z.land lotr_to 0xff] in
  if (lotr_to =? GBMS_LOTR_V1) && (lotr_from =? GBMS_LOTR_DEFAULT) then
    let* r := gbms_lotr_update_to_v1 alloc nv in Ret (finish r)
  else if (lotr_to =? GBMS_LOTR_V2) && negb (lotr_from =? GBMS_LOTR_V2) then
    Ret (finish (gbms_lotr_update_to_v2 nv))
  else Ret (0, nv).

Definition gbms_lotr_2_dsc (lotr_ver : Z) : gbee_dsc :=
  if lotr_ver =? GBMS_LOTR_V1 then GBEE_STORAGE01_DSC
  else if lotr_ver =? GBMS_LOTR_V2 then GBEE_STORAGE02_DSC
  else GBEE_STORAGE_DSC.

(** ** Registering the device *)

Definition gbee_register_device (alloc : bool) (name : option string) (lotr ptr : Z)
    (s : gbms_storage gbee) : outcome (Z * gbms_storage gbee) :=
  let desc := gbms_lotr_2_dsc lotr in
  let* u := gbms_lotr_update alloc (nvram (devices s)) lotr in
  let s := set_devices s (mk_gbee (Some desc) u.2) in
  let fail ret (s : gbms_storage gbee) :=
    Ret (ret, set_devices s (mk_gbee None (nvram (devices s)))) in
  if u.1 <? 0 then fail u.1 s else
  let* r := gbms_storage_register (Some (desc_of desc)) name ptr s in
  if r.1 =? 0 then Ret (0, r.2) else fail r.1 r.2.

End eeprom.

Arguments gbee : clear implicits.
