(* ===== verification/EepromStore.v ===== *)
(** * The battery EEPROM keeps its records apart (src/bms/google_eeprom.c)

    The layouts, the byte-wise writes, and the proof that the EEPROM is a provider as the
    storage expects it ([StorageContract]). *)

From Stdlib Require Import String.
From S2P Require Import Prelude GbmsStorage StorageTable StorageContract Eeprom.

(** ** Layouts *)

Definition eeprom_size (v : gbee_dsc) : Z :=
  match v with GBEE_STORAGE02_DSC => 0x2000 | _ => 0x400 end.

(** The array of history entries: its start and the number of entries that can be read. *)
Definition hist_start (v : gbee_dsc) : Z := match v with GBEE_STORAGE01_DSC => 0x64 | _ => 0x5E end.
Definition hist_count (v : gbee_dsc) : Z := match v with GBEE_STORAGE02_DSC => 200 | _ => 75 end.

Definition apart (a c a' c' : Z) : Prop := a + c <= a' \/ a' + c' <= a.

#[local] Instance apart_dec a c a' c' : Decision (apart a c a' c').
Proof. unfold apart. apply _. Defined.

Definition all_tags : list Z :=
  (gbee_storage_cases ++ gbee_storage01_cases ++ gbee_storage02_cases).*1.

Lemma switch_tag_in cases tag loc : switch_tag cases tag = Some loc -> tag ∈ cases.*1.
Proof.
  unfold switch_tag. destruct (List.find _ cases) as [c|] eqn:E; [|done]. intros _.
  apply find_some in E as [Hin Ht]. apply Z.eqb_eq in Ht. subst tag.
  apply list_elem_of_fmap. exists c. split; [done|]. by apply list_elem_of_In.
Qed.

Lemma located_tag v tag loc : info_of v tag = (0, loc) -> tag ∈ all_tags.
Proof.
  assert (H0 : gbee_storage_info tag = (0, loc) -> tag ∈ all_tags).
  { unfold gbee_storage_info. destruct (switch_tag _ _) eqn:E; [|done]. intros _.
    unfold all_tags. rewrite !fmap_app, !elem_of_app. left. by apply switch_tag_in in E. }
  unfold all_tags in *. rewrite !fmap_app, !elem_of_app in *.
  destruct v; cbn [info_of]; [done|..]; unfold gbee_storage01_info, gbee_storage02_info;
    destruct (switch_tag _ _) eqn:E; auto; apply switch_tag_in in E; auto.
Qed.

(** Checks a statement about all tags and their places by running it. *)
Lemma all_located (P : Z -> Z -> Z -> Prop) `{!forall t a c, Decision (P t a c)} v :
  forallb (fun t => let '(ret, (a, c)) := info_of v t in
                    negb (ret =? 0) || bool_decide (P t a c)) all_tags = true ->
  forall t a c, info_of v t = (0, (a, c)) -> P t a c.
Proof.
  intros Hall t a c Ht. rewrite forallb_forall in Hall.
  specialize (Hall t (proj1 (list_elem_of_In _ _) (located_tag v t (a, c) Ht))).
  rewrite Ht in Hall. change (0 =? 0) with true in Hall. cbn [negb orb] in Hall.
  by apply bool_decide_eq_true in Hall.
Qed.

Lemma layout_inside v t a c :
  info_of v t = (0, (a, c)) -> 0 <= a /\ 0 < c /\ a + c <= eeprom_size v.
Proof.
  revert t a c. apply (all_located (fun _ a c => 0 <= a /\ 0 < c /\ a + c <= eeprom_size v)).
  by destruct v; vm_compute.
Qed.

(** A tag that can be written shares no byte with another tag or with the identifier. *)
Lemma layout_apart v t a c :
  gbee_storage_is_writable t = true -> info_of v t = (0, (a, c)) ->
  apart a c BATT_EEPROM_TAG_BRID_OFFSET 1 /\
  forall t' a' c', t' <> t -> info_of v t' = (0, (a', c')) -> apart a c a' c'.
Proof.
  intros Hw Ht.
  assert (H : forallb (fun t1 => let '(r1, (a1, c1)) := info_of v t1 in
    negb (r1 =? 0) || negb (gbee_storage_is_writable t1) ||
    (bool_decide (apart a1 c1 BATT_EEPROM_TAG_BRID_OFFSET 1) &&
     forallb (fun t2 => let '(r2, (a2, c2)) := info_of v t2 in
       negb (r2 =? 0) || (t2 =? t1) || bool_decide (apart a1 c1 a2 c2)) all_tags)) all_tags = true)
    by (destruct v; vm_compute; reflexivity).
  rewrite forallb_forall in H.
  specialize (H t (proj1 (list_elem_of_In _ _) (located_tag v t (a, c) Ht))).
  rewrite Ht, Hw in H. change (0 =? 0) with true in H. cbn [negb orb] in H.
  apply andb_true_iff in H as [Hb H]. apply bool_decide_eq_true in Hb. split; [done|].
  intros t' a' c' Hne Ht'. rewrite forallb_forall in H.
  specialize (H t' (proj1 (list_elem_of_In _ _) (located_tag v t' (a', c') Ht'))).
  rewrite Ht' in H. change (0 =? 0) with true in H. apply Z.eqb_neq in Hne.
  rewrite Hne in H. cbn [negb orb] in H. by apply bool_decide_eq_true in H.
Qed.

(** The tags that the history of the first layout runs into. *)
Definition hist_overrun (v : gbee_dsc) (t : Z) : Prop :=
  v = GBEE_STORAGE01_DSC /\ t ∈ [GBMS_TAG_FCRU; GBMS_TAG_FGST; GBMS_TAG_AYMD].

Lemma layout_history v t a c :
  info_of v t = (0, (a, c)) -> t <> GBMS_TAG_HIST -> ~ hist_overrun v t ->
  apart a c (hist_start v) (BATT_ONE_HIST_LEN * hist_count v).
Proof.
  revert t a c. unfold hist_overrun.
  apply (all_located (fun t a c => t <> GBMS_TAG_HIST ->
    ~ (v = GBEE_STORAGE01_DSC /\ t ∈ [GBMS_TAG_FCRU; GBMS_TAG_FGST; GBMS_TAG_AYMD]) ->
    apart a c (hist_start v) (BATT_ONE_HIST_LEN * hist_count v))).
  by destruct v; vm_compute.
Qed.

(** C22. The three layouts are well formed: every tag lies inside the device; a tag that can be
    written shares no byte with any other tag, nor with the battery identifier; and the
    history array shares no byte with another tag, except that in the first layout its last
    entry covers the tags FCRU, FGST and AYMD. *)
Theorem eeprom_layout_wf v t a c :
  info_of v t = (0, (a, c)) ->
  (0 <= a /\ 0 < c /\ a + c <= eeprom_size v) /\
  (gbee_storage_is_writable t = true ->
    apart a c BATT_EEPROM_TAG_BRID_OFFSET 1 /\
    forall t' a' c', t' <> t -> info_of v t' = (0, (a', c')) -> apart a c a' c') /\
  (t <> GBMS_TAG_HIST -> ~ hist_overrun v t ->
    apart a c (hist_start v) (BATT_ONE_HIST_LEN * hist_count v)) /\
  info_of v GBMS_TAG_HIST = (0, (hist_start v, BATT_ONE_HIST_LEN)).
Proof.
  intros Ht. split; [by eapply layout_inside|]. split_and!.
  - intros Hw. by apply (layout_apart v t).
  - intros Hh Ho. by apply (layout_history v t).
  - by destruct v.
Qed.

Lemma eeprom_layout_wf_witness :
  info_of GBEE_STORAGE02_DSC GBMS_TAG_AAWC = (0, (0x1FDE, 4)) /\ apart 0x1FDE 4 0x1FE2 2.
Proof.
  split; [reflexivity|].
  destruct (eeprom_layout_wf GBEE_STORAGE02_DSC GBMS_TAG_AAWC 0x1FDE 4 eq_refl) as (_ & H & _).
  apply (proj2 (H eq_refl) GBMS_TAG_FCRU); [done|reflexivity].
Defined.

Section store.
Context {N : Type} `{!Nvmem N, !NvmemLaws N}.

(** ** Byte-wise writes *)

Lemma load_drop m a c n : 0 <= n -> drop (Z.to_nat n) (load m a c) = load m (a + n) (c - n).
Proof.
  intros Hn. apply list_eq. intros i. rewrite lookup_drop, !lookup_load.
  do 2 case_decide; try lia; [|done]. do 2 f_equal. lia.
Qed.

(** A record of [c] bytes at [a], of which the first [n] are written. *)
Lemma load_overlay m m' a c n l :
  0 <= n <= c -> n <= Z.of_nat (length l) ->
  (forall x, m' x = store m a (take (Z.to_nat n) l) x) ->
  load m' a c = overlay l n (load m a c).
Proof.
  intros Hn Hl Hm. rewrite (load_ext m' (store m a (take (Z.to_nat n) l)) a c) by auto.
  replace c with (n + (c - n)) by lia. unfold overlay. rewrite !load_app by lia. f_equal.
  - pose proof (load_store_same m a (take (Z.to_nat n) l)) as H.
    rewrite length_take in H. by replace (Z.of_nat (_ `min` _)) with n in H by lia.
  - rewrite drop_app_ge by (rewrite length_load; lia). rewrite length_load, Nat.sub_diag, drop_0.
    apply load_store_disjoint. rewrite length_take. lia.
Qed.

Lemma write_bytes_ret (data : list Z) offset count w (nv : N) :
  (w + count <= length data)%nat ->
  exists r nv', write_bytes data offset count w nv = Ret (r, nv') /\
    (0 <= r -> forall a, contents nv' a =
       store (contents nv) (Z.of_nat w + offset) (take count (drop w data)) a) /\
    (forall a, a < Z.of_nat w + offset \/ Z.of_nat w + offset + Z.of_nat count <= a ->
       contents nv' a = contents nv a).
Proof.
  revert w nv. induction count as [|count IH]; intros w nv Hw; cbn [write_bytes].
  { do 2 eexists; split_and!; [done| |done]. intros _ a. by rewrite take_0, store_out by (cbn; lia). }
  destruct (lookup_lt_is_Some_2 data w) as [b Hb]; [lia|]. rewrite Hb. run.
  destruct (nv_write nv (Z.of_nat w + offset) [b]) as [[Hr Hc]|[Hr Hc]]; cbn [length] in Hr, Hc.
  - rewrite Hr. cbn. destruct (IH (S w) (nvmem_device_write nv (Z.of_nat w + offset) [b]).2)
      as (r & nv' & -> & Hok & Hout); [lia|].
    do 2 eexists; split_and!; [done|..].
    + intros Hpos a. rewrite (Hok Hpos). rewrite (drop_S data b w Hb). cbn [take].
      destruct (decide (Z.of_nat w + offset < a < Z.of_nat w + offset + Z.of_nat (S count))) as [Hin|Hnot].
      * destruct (lookup_lt_is_Some_2 (take count (drop (S w) data)) (Z.to_nat (a - (Z.of_nat (S w) + offset))))
          as [x Hx]; [rewrite length_take, length_drop; lia|].
        rewrite (store_in _ _ _ a x) by (done || lia). symmetry. apply store_in; [lia|].
        by replace (Z.to_nat (a - (Z.of_nat w + offset))) with
          (S (Z.to_nat (a - (Z.of_nat (S w) + offset)))) by lia.
      * rewrite store_out by (rewrite length_take, length_drop; lia). rewrite Hc.
        destruct (decide (a = Z.of_nat w + offset)) as [->|].
        -- by rewrite (store_in _ _ [b] _ b), (store_in _ _ (b :: _) _ b); rewrite ?Z.sub_diag; try lia.
        -- rewrite !store_out by (cbn [length]; rewrite ?length_take, ?length_drop; lia). done.
    + intros a Ha. rewrite Hout by lia. rewrite Hc. apply store_out. cbn [length]. lia.
  - destruct (nvmem_device_write nv (Z.of_nat w + offset) [b]) as [r nv'] eqn:E. cbn [fst snd] in *.
    destruct (Z.ltb_spec r 0); [|lia]. do 2 eexists; split_and!; [done|lia|].
    intros a Ha. apply Hc. lia.
Qed.

(** ** The contract of the storage *)

(** The tags of a layout, and their records. *)
Definition gbee_knows (v : gbee_dsc) (t : Z) : bool :=
  (t =? GBMS_TAG_BRID) || ((info_of v t).1 =? 0).

Definition record_at (m : memory) (v : gbee_dsc) (t : Z) : list Z :=
  if t =? GBMS_TAG_BRID then [m BATT_EEPROM_TAG_BRID_OFFSET; 0; 0; 0] else
  let '(ret, (a, c)) := info_of v t in if ret =? 0 then load m a c else [].

Definition gbee_sees (d : gbee N) (t : Z) : list Z :=
  match gbee_desc d with Some v => record_at (contents (nvram d)) v t | None => [] end.

Definition gbee_holds (v : gbee_dsc) (d : gbee N) : Prop := gbee_desc d = Some v.

(** A tag has a place or is refused. *)
Lemma info_cases v t : (exists a c, info_of v t = (0, (a, c))) \/ (info_of v t).1 = - ENOENT.
Proof.
  assert (H0 : (exists a c, gbee_storage_info t = (0, (a, c))) \/ (gbee_storage_info t).1 = - ENOENT).
  { unfold gbee_storage_info. destruct (switch_tag _ _) as [[a c]|]; eauto. }
  destruct v; cbn [info_of]; [done|..]; unfold gbee_storage01_info, gbee_storage02_info;
    destruct (switch_tag _ _) as [[a c]|]; eauto.
Qed.

Lemma record_ext m m' v t :
  m' BATT_EEPROM_TAG_BRID_OFFSET = m BATT_EEPROM_TAG_BRID_OFFSET ->
  (forall a c, info_of v t = (0, (a, c)) -> forall x, a <= x < a + c -> m' x = m x) ->
  record_at m' v t = record_at m v t.
Proof.
  intros Hb Hx. unfold record_at. destruct (t =? GBMS_TAG_BRID); [by rewrite Hb|].
  destruct (info_of v t) as [ret [a c]] eqn:E. destruct (Z.eqb_spec ret 0) as [->|]; [|done].
  apply load_ext. by apply Hx.
Qed.

Lemma gbee_read_contract v t data n ptr (d : gbee N) :
  gbee_holds v d ->
  exists r, gbee_storage_read t data n ptr d = Ret r /\
    (gbee_knows v t = false -> r = (- ENOENT, [])) /\
    (gbee_knows v t = true -> 0 <= r.1 -> r.2 = gbee_sees d t).
Proof.
  intros Hv. unfold gbee_storage_read, gbee_knows, gbee_sees, record_at, GBEE_STORAGE_INFO.
  rewrite Hv. destruct (t =? GBMS_TAG_BRID); cbn [orb].
  - destruct (negb _); [eexists; split_and!; [done|done|cbn; unfold ENOMEM; lia]|].
    destruct (nv_read (nvram d) BATT_EEPROM_TAG_BRID_OFFSET 1) as [Hr|Hr]; [lia|..].
    + apply Z.ltb_lt in Hr as Hb. rewrite Hb. eexists; split_and!; [done|done|cbn; lia].
    + rewrite Hr. cbn. eexists; split_and!; [done|done|]. cbn. by rewrite Z.add_0_r.
  - destruct (info_cases v t) as [(a & c & Hi)|Hno].
    + destruct (layout_inside v t a c Hi) as (_ & Hc & _). rewrite Hi. cbn.
      destruct (Z.eqb_spec c 0); [lia|]. destruct (Z.ltb_spec n c).
      { eexists; split_and!; [done|done|cbn; unfold ENOMEM; lia]. }
      eexists; split_and!; [done|done|]. cbn.
      destruct (nv_read (nvram d) a c) as [Hr| ->]; [lia|..]; cbn.
      * destruct (Z.eqb_spec (nvmem_device_read (nvram d) a c).1 0); lia.
      * intros _ _. destruct (Z.ltb_spec c 0); [lia|done].
    + destruct (info_of v t) as [ret [a c]]. cbn in Hno. subst ret. cbn.
      eexists; split_and!; [done|done|done].
Qed.

(** The identifier is not writable. *)
Lemma writable_not_brid t : gbee_storage_is_writable t = true -> (t =? GBMS_TAG_BRID) = false.
Proof. intros Hw. destruct (Z.eqb_spec t GBMS_TAG_BRID) as [->|]; [by vm_compute in Hw|done]. Qed.

Lemma gbee_write_contract v t l n ptr (d : gbee N) :
  gbee_holds v d -> 0 <= n <= Z.of_nat (length l) ->
  exists r, gbee_storage_write t (Some l) n ptr d = Ret r /\ gbee_holds v r.2 /\
    (gbee_knows v t = false -> r = (- ENOENT, d)) /\
    (gbee_knows v t = true -> 0 <= r.1 ->
       gbee_sees r.2 t = take (Z.to_nat n) l ++ drop (Z.to_nat n) (gbee_sees d t)) /\
    drop (Z.to_nat n) (gbee_sees r.2 t) = drop (Z.to_nat n) (gbee_sees d t) /\
    (forall t', t' <> t -> gbee_sees r.2 t' = gbee_sees d t').
Proof.
  intros Hv Hn. unfold gbee_storage_write, gbee_knows, GBEE_STORAGE_INFO.
  destruct (gbee_storage_is_writable t) eqn:Ew; cbn [negb].
  2: { eexists; split_and!; [done|done|done|cbn; unfold ENOENT; lia|done|done]. }
  rewrite Hv, (writable_not_brid t Ew). cbn [orb].
  destruct (info_cases v t) as [(a & c & Hi)|Hno].
  2: { destruct (info_of v t) as [ret [a c]]. cbn in Hno. subst ret. cbn.
       eexists; split_and!; done. }
  rewrite Hi. cbn. destruct (Z.ltb_spec c n).
  { eexists; split_and!; [done|done|done|cbn; unfold ENOMEM; lia|done|done]. }
  destruct (write_bytes_ret l a (Z.to_nat n) 0 (nvram d)) as (r & nv' & -> & Hok & Hout); [lia|].
  cbn [Z.of_nat Z.add] in Hok, Hout. rewrite drop_0 in Hok. run.
  destruct (layout_apart v t a c Ew Hi) as [Hbrid Hothers].
  eexists; split_and!; [done|done|done|..]; cbn [fst snd nvram gbee_desc];
    unfold gbee_sees; cbn [gbee_desc nvram]; rewrite Hv.
  - intros _ Hr. unfold record_at. rewrite (writable_not_brid t Ew), Hi. cbn.
    apply load_overlay; [lia|lia|]. apply Hok. destruct (Z.ltb_spec r 0); lia.
  - unfold record_at. rewrite (writable_not_brid t Ew), Hi. cbn. rewrite !load_drop by lia.
    apply load_ext. intros x Hx. apply Hout. lia.
  - intros t' Hne. apply record_ext.
    + apply Hout. unfold apart in Hbrid. lia.
    + intros a' c' Hi' x Hx. apply Hout. specialize (Hothers t' a' c' Hne Hi'). unfold apart in *. lia.
Qed.

(** The EEPROM is a provider as the storage expects it, in each of its layouts. *)
#[export] Instance gbee_contract v ptr :
  StorageContract (gbee_knows v) gbee_sees (gbee_holds v) (desc_of v) ptr.
Proof.
  split.
  - intros f t data n d Hf Hh. assert (f = gbee_storage_read) as -> by (destruct v; cbn in Hf; congruence).
    by apply gbee_read_contract.
  - intros f t l n d Hf Hh Hn.
    assert (f = gbee_storage_write) as -> by (destruct v; cbn in Hf; congruence).
    by apply gbee_write_contract.
  - by destruct v.
  - intros f t d Hf. destruct v; cbn in Hf; simplify_eq; eauto.
Qed.

End store.
