(* ===== verification/EepromHistory.v ===== *)
(** * History, layout changes and the whole path (src/bms/google_eeprom.c, gbms_storage.c)

    The history entries, the change from the default to the first layout, and a record on its
    way from [gbms_storage_write] through the cache and the EEPROM back to
    [gbms_storage_read]. *)

From Stdlib Require Import String.
From S2P Require Import Prelude GbmsStorage StorageTable StorageContract Eeprom EepromStore.

Section history.
Context {N : Type} `{!Nvmem N, !NvmemLaws N}.

(** Entry [j] of the history. *)
Definition entry_at (m : memory) (v : gbee_dsc) (j : Z) : list Z :=
  load m (hist_start v + BATT_ONE_HIST_LEN * j) BATT_ONE_HIST_LEN.

Lemma hist_info v (d : gbee N) :
  gbee_holds v d -> GBEE_STORAGE_INFO GBMS_TAG_HIST d = (0, (hist_start v, BATT_ONE_HIST_LEN)).
Proof. intros Hv. unfold GBEE_STORAGE_INFO. rewrite Hv. by destruct v. Qed.

(** Reading an entry asks the device for its bytes. *)
Lemma read_data_device v count idx ptr (d : gbee N) f :
  gbee_holds v d -> d_read_data (desc_of v) = Some f ->
  0 <= idx < hist_count v -> BATT_ONE_HIST_LEN <= count ->
  f GBMS_TAG_HIST true count idx ptr d =
    let r := nvmem_device_read (nvram d) (hist_start v + BATT_ONE_HIST_LEN * idx) BATT_ONE_HIST_LEN in
    Ret (if r.1 =? 0 then BATT_ONE_HIST_LEN else r.1, if r.1 <? 0 then [] else r.2).
Proof.
  intros Hv Hf Hi Hc.
  assert (f GBMS_TAG_HIST true count idx ptr d =
    read_entry (hist_count v) (0, (hist_start v, BATT_ONE_HIST_LEN)) true count idx d) as ->.
  { destruct v; cbn in Hf; simplify_eq; try done;
      unfold gbee_storage_read_data; by rewrite Z.eqb_refl, (hist_info _ d Hv). }
  unfold read_entry, BATT_ONE_HIST_LEN in *. cbn [negb orb]. change (0 <? 0) with false. cbv iota.
  destruct (Z.eqb_spec count 0); [lia|]. destruct (Z.ltb_spec idx 0); [lia|].
  destruct (Z.leb_spec (hist_count v) idx); [lia|]. by destruct (Z.ltb_spec count 12); [lia|].
Qed.

(** Reading an entry gives it, unless the device fails. *)
Lemma read_data_entry v count idx ptr (d : gbee N) f :
  gbee_holds v d -> d_read_data (desc_of v) = Some f ->
  0 <= idx < hist_count v -> BATT_ONE_HIST_LEN <= count ->
  exists r, f GBMS_TAG_HIST true count idx ptr d = Ret r /\
    (r.1 < 0 \/ r = (BATT_ONE_HIST_LEN, entry_at (contents (nvram d)) v idx)).
Proof.
  intros Hv Hf Hi Hc. rewrite (read_data_device v count idx ptr d f) by done.
  eexists; split; [done|]. unfold BATT_ONE_HIST_LEN.
  destruct (nv_read (nvram d) (hist_start v + 12 * idx) 12) as [Hr| ->]; [lia|left|by right].
  cbn. destruct (Z.eqb_spec (nvmem_device_read (nvram d) (hist_start v + 12 * idx) 12).1 0); lia.
Qed.

(** A history entry survives: in every layout, writing entry [idx] either reports an error
    or makes every later read of that entry that the device answers give the bytes that
    were written; the other entries keep their contents in both cases, and so does every
    tag, except those that the first layout puts under its last entries. *)
Theorem history_write_read v l idx ptr (d : gbee N) :
  gbee_holds v d -> 0 <= idx < BATT_MAX_HIST_CNT -> BATT_ONE_HIST_LEN <= Z.of_nat (length l) ->
  exists r d', gbee_storage_write_data GBMS_TAG_HIST (Some l) BATT_ONE_HIST_LEN idx ptr d =
      Ret (r, d') /\ gbee_holds v d' /\
    (0 <= r -> r = BATT_ONE_HIST_LEN /\
       forall f count, d_read_data (desc_of v) = Some f -> BATT_ONE_HIST_LEN <= count ->
         exists r', f GBMS_TAG_HIST true count idx ptr d' = Ret r' /\
           (r'.1 < 0 \/ r' = (BATT_ONE_HIST_LEN, take 12 l))) /\
    (forall j, 0 <= j -> j <> idx ->
       entry_at (contents (nvram d')) v j = entry_at (contents (nvram d)) v j) /\
    (forall t, t <> GBMS_TAG_HIST -> ~ hist_overrun v t -> gbee_sees d' t = gbee_sees d t).
Proof.
  intros Hv Hi Hl. unfold gbee_storage_write_data. rewrite Z.eqb_refl, (hist_info v d Hv).
  unfold BATT_MAX_HIST_CNT, BATT_ONE_HIST_LEN in *. change (0 <? 0) with false. cbv iota.
  rewrite bool_decide_eq_false_2 by done. destruct (Z.ltb_spec idx 0); [lia|].
  change (12 =? 0) with false. run. destruct (Z.leb_spec 75 idx); [lia|].
  change (12 <? 12) with false. cbv iota. change (default [] (Some l)) with l.
  set (off := hist_start v + 12 * idx).
  destruct (write_bytes_ret l off (Z.to_nat 12) 0 (nvram d)) as (r & nv' & -> & Hok & Hout); [lia|].
  cbn [Z.of_nat Z.add] in Hok, Hout. rewrite drop_0 in Hok. run.
  exists (if r <? 0 then r else 12), (mk_gbee (gbee_desc d) nv'). cbn [nvram].
  split_and!; [done|done|..].
  - intros Hr. assert (0 <= r) as Hpos by (destruct (Z.ltb_spec r 0); lia).
    destruct (Z.ltb_spec r 0); [lia|]. split; [done|]. intros f count Hf Hc.
    destruct (read_data_entry v count idx ptr (mk_gbee (gbee_desc d) nv') f) as (r' & Hr' & Hval);
      [done|done|destruct v; cbn; lia|done|].
    exists r'. split; [done|]. destruct Hval as [?|Hval]; [by left|right]. rewrite Hval. f_equal.
    unfold entry_at, BATT_ONE_HIST_LEN. cbn [nvram]. fold off.
    rewrite (load_overlay (contents (nvram d)) (contents nv') off 12 12 l) by (lia || auto).
    unfold overlay. rewrite drop_ge by (rewrite length_load; lia). by rewrite app_nil_r.
  - intros j Hj Hne. unfold entry_at, BATT_ONE_HIST_LEN. apply load_ext. intros x Hx.
    apply Hout. subst off. lia.
  - intros t Ht Ho. unfold gbee_sees. cbn [gbee_desc nvram]. rewrite Hv.
    assert (0x5E <= hist_start v) by (destruct v; cbn; lia).
    apply record_ext; [apply Hout; unfold BATT_EEPROM_TAG_BRID_OFFSET; lia|].
    intros a c Ht' x Hx. apply Hout. pose proof (layout_history v t a c Ht' Ht Ho) as Ha.
    unfold apart, BATT_ONE_HIST_LEN in Ha. assert (75 <= hist_count v) by (by destruct v). lia.
Qed.

End history.

(** ** A device that does not fail *)

Class NvmemSteady (N : Type) `{!Nvmem N} : Prop := {
  st_read (n : N) offset len : 0 <= len -> 0 <= (nvmem_device_read n offset len).1;
  st_write (n : N) offset bs : 0 <= (nvmem_device_write n offset bs).1;
}.

Section steady.
Context {N : Type} `{!Nvmem N, !NvmemLaws N, !NvmemSteady N}.

Lemma steady_read (nv : N) offset len :
  0 <= len -> nvmem_device_read nv offset len = (len, load (contents nv) offset len).
Proof.
  intros Hl. destruct (nv_read nv offset len Hl) as [H|H]; [|done].
  pose proof (st_read nv offset len Hl). lia.
Qed.

Lemma steady_write (nv : N) offset bs :
  exists nv', nvmem_device_write nv offset bs = (Z.of_nat (length bs), nv') /\
    forall a, contents nv' a = store (contents nv) offset bs a.
Proof.
  destruct (nv_write nv offset bs) as [[Hr Hc]|[Hr _]].
  - destruct (nvmem_device_write nv offset bs) as [r nv']. cbn in *. subst r. eauto.
  - pose proof (st_write nv offset bs). lia.
Qed.

Lemma write_bytes_steady (data : list Z) offset count w (nv : N) :
  (w + count <= length data)%nat -> exists nv', write_bytes data offset count w nv = Ret (0, nv').
Proof.
  revert w nv. induction count as [|count IH]; intros w nv Hw; cbn [write_bytes]; [by eauto|].
  destruct (lookup_lt_is_Some_2 data w) as [b Hb]; [lia|]. rewrite Hb. run.
  destruct (steady_write nv (Z.of_nat w + offset) [b]) as (nv' & -> & _). cbn. apply IH. lia.
Qed.

(** ** Changing to the first layout *)

(** The entries in use: [k] of them, then the end of the array or an erased entry. *)
Record in_use (m : memory) (from : Z) (k max : nat) : Prop := {
  iu_max : (k <= max)%nat;
  iu_used j : 0 <= j < Z.of_nat k -> m (from + BATT_ONE_HIST_LEN * j) <> 0xff;
  iu_end : k = max \/ m (from + BATT_ONE_HIST_LEN * Z.of_nat k) = 0xff;
}.

Lemma hist_entries_used (nv : N) from k max :
  in_use (contents nv) from k max ->
  hist_entries nv from max = Ret (inr (load (contents nv) from (BATT_ONE_HIST_LEN * Z.of_nat k))).
Proof.
  revert from k. induction max as [|max IH]; intros from k [Hm Hu He]; cbn [hist_entries].
  { replace k with 0%nat by lia. by rewrite Z.mul_0_r. }
  unfold BATT_ONE_HIST_LEN in *. rewrite steady_read by lia. cbn [fst snd].
  change (12 <? 0) with false. cbv iota. change (load (contents nv) from 12 !! 0%nat) with
    (Some (contents nv (from + 0))). run. destruct k as [|k].
  - destruct He as [?|He]; [lia|]. rewrite Z.mul_0_r in He. by rewrite He.
  - specialize (Hu 0) as Hu0. rewrite Z.mul_0_r in Hu0. apply Z.eqb_neq in Hu0 as ->; [|lia].
    rewrite (IH (from + 12) k).
    + run. rewrite <- load_app by lia. do 2 f_equal. f_equal. lia.
    + split; [lia|..]; unfold BATT_ONE_HIST_LEN.
      * intros j Hj. replace (from + 12 + 12 * j) with (from + 12 * (j + 1)) by lia. apply Hu. lia.
      * destruct He as [?|He]; [left; lia|right].
        by replace (from + 12 + 12 * Z.of_nat k) with (from + 12 * Z.of_nat (S k)) by lia.
Qed.

Lemma hist_move_used (nv : N) from to k :
  in_use (contents nv) from k (Z.to_nat BATT_MAX_HIST_CNT) ->
  exists r nv', gbms_hist_move true nv from to = Ret (r, nv') /\ 0 <= r /\
    forall a, contents nv' a =
      store (contents nv) to (load (contents nv) from (BATT_ONE_HIST_LEN * Z.of_nat k)) a.
Proof.
  intros Hu. unfold gbms_hist_move. cbn [negb]. rewrite (hist_entries_used nv from k) by done. run.
  destruct (load (contents nv) from (BATT_ONE_HIST_LEN * Z.of_nat k)) as [|b l] eqn:E.
  - rewrite steady_read by (unfold BATT_ONE_HIST_LEN; lia).
    do 2 eexists; split_and!; [done|done|]. intros a. by rewrite store_out by (cbn; lia).
  - destruct (steady_write nv to (b :: l)) as (nv' & -> & Hc).
    do 2 eexists; split_and!; [done|cbn; lia|done].
Qed.

(** Every device has some number of entries in use. *)
Lemma in_use_some (m : memory) from max : exists k, in_use m from k max.
Proof.
  revert from. induction max as [|max IH]; intros from.
  { exists 0%nat. split; [lia|lia|by left]. }
  destruct (decide (m from = 0xff)) as [He|He].
  - exists 0%nat. split; [lia|lia|right]. by rewrite Z.mul_0_r, Z.add_0_r.
  - destruct (IH (from + BATT_ONE_HIST_LEN)) as [k [Hm Hu Hend]]. exists (S k). split; [lia|..].
    + intros j Hj. destruct (decide (j = 0)) as [->|]; [by rewrite Z.mul_0_r, Z.add_0_r|].
      replace (from + BATT_ONE_HIST_LEN * j) with
        (from + BATT_ONE_HIST_LEN + BATT_ONE_HIST_LEN * (j - 1)) by lia. apply Hu. lia.
    + destruct Hend as [?|Hend]; [left; lia|right].
      by replace (from + BATT_ONE_HIST_LEN * Z.of_nat (S k)) with
        (from + BATT_ONE_HIST_LEN + BATT_ONE_HIST_LEN * Z.of_nat k) by lia.
Qed.

Lemma update_to_v1_used (nv : N) k :
  in_use (contents nv) 0x5E k (Z.to_nat BATT_MAX_HIST_CNT) ->
  exists nv', gbms_lotr_update_to_v1 true nv = Ret (5, nv') /\
    forall a, contents nv' a = store (store (contents nv) 0x64
      (load (contents nv) 0x5E (BATT_ONE_HIST_LEN * Z.of_nat k))) 0x5E [0; 0; 0; 0; 0] a.
Proof.
  intros Hu. unfold gbms_lotr_update_to_v1.
  destruct (hist_move_used nv 0x5E 0x64 k Hu) as (r & nv1 & -> & Hr & Hc). run.
  destruct (Z.ltb_spec r 0); [lia|].
  destruct (steady_write nv1 0x5E [0; 0; 0; 0; 0]) as (nv2 & -> & Hc2). cbn.
  eexists; split; [done|]. intros a. rewrite Hc2. unfold store. by rewrite Hc.
Qed.

(** The places of the first layout that the change must not touch. *)
Lemma layout_v1_old t a c :
  info_of GBEE_STORAGE01_DSC t = (0, (a, c)) -> t <> GBMS_TAG_HIST -> t <> GBMS_TAG_BPST ->
  apart a c 0x5E 5 /\ (t <> GBMS_TAG_LOTR -> apart a c BATT_EEPROM_TAG_LOTR_OFFSET 1) /\
  info_of GBEE_STORAGE_DSC t = (0, (a, c)).
Proof.
  revert t a c. apply (all_located (fun t a c => t <> GBMS_TAG_HIST -> t <> GBMS_TAG_BPST ->
    apart a c 0x5E 5 /\ (t <> GBMS_TAG_LOTR -> apart a c BATT_EEPROM_TAG_LOTR_OFFSET 1) /\
    info_of GBEE_STORAGE_DSC t = (0, (a, c)))). by vm_compute.
Qed.

Lemma record_located m v t a c :
  info_of v t = (0, (a, c)) -> record_at m v t = load m a c.
Proof.
  intros Hi. unfold record_at. destruct (Z.eqb_spec t GBMS_TAG_BRID) as [->|].
  - by destruct v; vm_compute in Hi.
  - by rewrite Hi.
Qed.

(** Changing the layout keeps the data: on a device that works, whose layout byte is still
    erased and whose history has [k] entries in use, [gbms_lotr_update] to the first layout
    succeeds, marks the layout, clears the health byte, and afterwards the [k] entries are
    found at their new places; every other tag that the new layout does not put under its
    last history entries keeps its record. *)
Theorem lotr_v1_keeps_history (nv : N) k :
  contents nv BATT_EEPROM_TAG_LOTR_OFFSET = GBMS_LOTR_DEFAULT ->
  in_use (contents nv) 0x5E k (Z.to_nat BATT_MAX_HIST_CNT) ->
  exists nv', gbms_lotr_update true nv GBMS_LOTR_V1 = Ret (1, nv') /\
    contents nv' BATT_EEPROM_TAG_LOTR_OFFSET = GBMS_LOTR_V1 /\
    record_at (contents nv') GBEE_STORAGE01_DSC GBMS_TAG_BPST = [0] /\
    (forall j, 0 <= j < Z.of_nat k -> entry_at (contents nv') GBEE_STORAGE01_DSC j =
       entry_at (contents nv) GBEE_STORAGE_DSC j) /\
    (forall t a c, info_of GBEE_STORAGE01_DSC t = (0, (a, c)) ->
       t ∉ [GBMS_TAG_HIST; GBMS_TAG_BPST; GBMS_TAG_LOTR] -> ~ hist_overrun GBEE_STORAGE01_DSC t ->
       record_at (contents nv') GBEE_STORAGE01_DSC t = record_at (contents nv) GBEE_STORAGE_DSC t).
Proof.
  intros Hl Hu. unfold gbms_lotr_update. unfold BATT_EEPROM_TAG_LOTR_LEN.
  rewrite steady_read by lia. cbn [fst snd]. change (1 <? 0) with false. cbv iota.
  change (load (contents nv) BATT_EEPROM_TAG_LOTR_OFFSET 1 !! 0%nat) with
    (Some (contents nv (BATT_EEPROM_TAG_LOTR_OFFSET + 0))). run.
  rewrite Z.add_0_r, Hl. change (GBMS_LOTR_DEFAULT =? GBMS_LOTR_V1) with false. cbv iota.
  rewrite !Z.eqb_refl. cbn [andb]. destruct (update_to_v1_used nv k Hu) as (nv1 & -> & Hc1). run.
  change (5 <? 0) with false. cbv iota.
  destruct (steady_write nv1 BATT_EEPROM_TAG_LOTR_OFFSET [Z.land GBMS_LOTR_V1 0xff]) as (nv2 & -> & Hc2).
  destruct Hu as [Hmax _ _]. unfold BATT_MAX_HIST_CNT in Hmax.
  set (moved := load (contents nv) 0x5E (BATT_ONE_HIST_LEN * Z.of_nat k)) in *.
  assert (Hlen : length moved = Z.to_nat (12 * Z.of_nat k)) by apply length_load.
  assert (Hout : forall x, x <> BATT_EEPROM_TAG_LOTR_OFFSET -> x < 0x5E \/ 0x5E + 5 <= x ->
    contents nv2 x = store (contents nv) 0x64 moved x).
  { intros x Hx Hr. unfold BATT_EEPROM_TAG_LOTR_OFFSET in *.
    rewrite Hc2, store_out by (cbn [length]; lia). rewrite Hc1. apply store_out. cbn [length]. lia. }
  exists nv2. split_and!; [done|..].
  - rewrite Hc2. by apply store_in.
  - rewrite (record_located _ _ _ 0x5E 1) by done. change ([contents nv2 (0x5E + 0)] = [0]). f_equal.
    rewrite Hc2, store_out by (unfold BATT_EEPROM_TAG_LOTR_OFFSET; cbn [length]; lia).
    rewrite Hc1. by apply store_in.
  - intros j Hj. unfold entry_at, BATT_ONE_HIST_LEN. cbn [hist_start].
    apply list_eq. intros i. rewrite !lookup_load. case_decide; [|done]. f_equal.
    rewrite Hout by (unfold BATT_EEPROM_TAG_LOTR_OFFSET; lia). apply store_in; [lia|].
    unfold moved, BATT_ONE_HIST_LEN. rewrite lookup_load, decide_True by lia. do 2 f_equal. lia.
  - intros t a c Ht Hne Ho. rewrite !not_elem_of_cons in Hne. destruct Hne as (Hn1 & Hn2 & Hn3 & _).
    destruct (layout_v1_old t a c Ht Hn1 Hn2) as (Ha1 & Ha2 & Ht0). specialize (Ha2 Hn3).
    pose proof (layout_history _ t a c Ht Hn1 Ho) as Hah.
    rewrite (record_located _ _ t a c Ht), (record_located _ _ t a c Ht0).
    unfold apart, BATT_EEPROM_TAG_LOTR_OFFSET, BATT_ONE_HIST_LEN in *. cbn [hist_start hist_count] in *.
    apply load_ext. intros x Hx. rewrite Hout by (unfold BATT_EEPROM_TAG_LOTR_OFFSET; lia).
    apply store_out. lia.
Qed.

(** ** From the storage to the device and back *)

Lemma clear_bytes_steady size offset ret (nv : N) :
  0 <= ret -> 0 <= (clear_bytes offset size ret nv).1.
Proof.
  revert offset ret nv. induction size as [|size IH]; intros offset ret nv Hr; cbn [clear_bytes]; [done|].
  destruct (steady_write nv offset [0xff]) as (nv' & -> & _). cbn. apply IH. lia.
Qed.

Lemma lotr_update_steady (nv : N) lotr :
  exists r nv', gbms_lotr_update true nv lotr = Ret (r, nv') /\ 0 <= r.
Proof.
  unfold gbms_lotr_update, BATT_EEPROM_TAG_LOTR_LEN. rewrite steady_read by lia. cbn [fst snd].
  change (1 <? 0) with false. cbv iota.
  change (load (contents nv) BATT_EEPROM_TAG_LOTR_OFFSET 1 !! 0%nat) with
    (Some (contents nv (BATT_EEPROM_TAG_LOTR_OFFSET + 0))). run.
  destruct (_ =? lotr); [do 2 eexists; split; [done|lia]|].
  assert (Hfin : forall r : Z * N, exists r' nv', (if r.1 <? 0 then (0, r.2) else
    nvmem_device_write r.2 BATT_EEPROM_TAG_LOTR_OFFSET [Z.land lotr 0xff]) = (r', nv') /\ 0 <= r').
  { intros r. destruct (r.1 <? 0); [do 2 eexists; split; [done|lia]|].
    destruct (steady_write r.2 BATT_EEPROM_TAG_LOTR_OFFSET [Z.land lotr 0xff]) as (nv' & -> & _).
    do 2 eexists; split; [done|]. cbn. lia. }
  destruct (_ && _).
  - destruct (in_use_some (contents nv) 0x5E (Z.to_nat BATT_MAX_HIST_CNT)) as [k Hu].
    destruct (update_to_v1_used nv k Hu) as (nv1 & -> & _). run.
    destruct (Hfin (5, nv1)) as (r' & nv' & Heq & Hr). exists r', nv'. split; [by rewrite <- Heq|done].
  - destruct (_ && _); [|do 2 eexists; split; [done|lia]].
    destruct (Hfin (gbms_lotr_update_to_v2 nv)) as (r' & nv' & Heq & Hr). exists r', nv'.
    split; [by rewrite <- Heq|done].
Qed.

Lemma gbee_write_steady v t a c l ptr (d : gbee N) :
  gbee_holds v d -> gbee_storage_is_writable t = true -> info_of v t = (0, (a, c)) ->
  Z.of_nat (length l) = c ->
  exists d', gbee_storage_write t (Some l) c ptr d = Ret (c, d') /\ gbee_holds v d' /\ gbee_sees d' t = l.
Proof.
  intros Hv Hw Hi Hl. destruct (layout_inside v t a c Hi) as (_ & Hc & _).
  destruct (gbee_write_contract v t l c ptr d Hv) as ([rc d'] & Hr & Hh & _ & Hnew & _); [lia|].
  cbn [fst snd] in Hh, Hnew. assert (gbee_storage_write t (Some l) c ptr d = Ret (c, d')) as Heq.
  { revert Hr. unfold gbee_storage_write, GBEE_STORAGE_INFO. rewrite Hw, Hv, Hi. cbn [negb].
    change (0 <? 0) with false. cbv iota. rewrite Z.ltb_irrefl. change (default [] (Some l)) with l.
    destruct (write_bytes_steady l a (Z.to_nat c) 0 (nvram d)) as (nv' & ->); [lia|]. run.
    change (0 <? 0) with false. cbv iota. intros Hr. by simplify_eq. }
  exists d'. split_and!; [done|done|]. assert (rc = c) as -> by congruence.
  rewrite Hnew; [|unfold gbee_knows; rewrite Hi; by destruct (t =? GBMS_TAG_BRID)|lia].
  rewrite take_ge by lia. unfold gbee_sees. rewrite Hv.
  rewrite (record_located _ _ _ _ _ Hi), drop_ge by (rewrite length_load; lia). apply app_nil_r.
Qed.

Lemma gbee_read_steady v t a c ptr (d : gbee N) :
  gbee_holds v d -> info_of v t = (0, (a, c)) ->
  gbee_storage_read t true c ptr d = Ret (c, gbee_sees d t).
Proof.
  intros Hv Hi. destruct (layout_inside v t a c Hi) as (_ & Hc & _).
  unfold gbee_storage_read, gbee_sees, GBEE_STORAGE_INFO. rewrite Hv.
  destruct (Z.eqb_spec t GBMS_TAG_BRID) as [->|]; [by destruct v; vm_compute in Hi|].
  rewrite (record_located _ _ _ _ _ Hi), Hi. change (0 <? 0) with false. cbv iota.
  destruct (Z.eqb_spec c 0); [lia|]. rewrite Z.ltb_irrefl, steady_read by lia. cbn [fst snd].
  destruct (Z.eqb_spec c 0), (Z.ltb_spec c 0); try lia. done.
Qed.

(** The storage after [gbms_storage_init], without a device tree node. *)
Definition fresh_storage (nv : N) : gbms_storage (gbee N) :=
  mk_storage true 0 (replicate GBMS_PROVIDERS_MAX empty_slot) (Some (2 ^ GBMS_HASHTABLE_SIZE)%nat) []
    (mk_gbee None nv).

(** The storage with the EEPROM in its first slot. *)
Definition eeprom_storage (v : gbee_dsc) (name : string) (ptr : Z) (pool : nat)
    (cache : list gbms_cache_entry) (d : gbee N) : gbms_storage (gbee N) :=
  mk_storage true 1 (mk_provider (Some name) (Some (desc_of v)) false ptr ::
    replicate 5 empty_slot) (Some pool) cache d.

Lemma register_fresh name lotr ptr (nv : N) :
  (String.length name < GBMS_PROVIDER_NAME_MAX)%nat ->
  exists d, gbee_register_device true (Some name) lotr ptr (fresh_storage nv) =
    Ret (0, eeprom_storage (gbms_lotr_2_dsc lotr) name ptr 32 [] d) /\
    gbee_holds (gbms_lotr_2_dsc lotr) d.
Proof.
  intros Hn. unfold gbee_register_device. cbn [devices fresh_storage nvram].
  destruct (lotr_update_steady nv lotr) as (r & nv' & -> & Hr). run.
  destruct (Z.ltb_spec r 0); [lia|]. unfold gbms_storage_register, gbms_storage_register_internal.
  cbn [gbms_storage_init_done set_devices fresh_storage negb].
  rewrite decide_False by lia. eexists; split; [reflexivity|done].
Qed.

(** C21. What is stored is read back: on a device that works, after the EEPROM was registered
    in an empty storage, in any layout, [gbms_storage_write] of a whole record to a tag that
    can be written succeeds, and the [gbms_storage_read] that follows returns the number of
    bytes and exactly the bytes that were written; the write finds the provider by asking,
    the read through the cache. *)
Theorem eeprom_storage_roundtrip name lotr ptr (nv : N) t a c l :
  (String.length name < GBMS_PROVIDER_NAME_MAX)%nat ->
  gbee_storage_is_writable t = true ->
  info_of (gbms_lotr_2_dsc lotr) t = (0, (a, c)) -> Z.of_nat (length l) = c ->
  exists s1 s2 s3,
    gbee_register_device true (Some name) lotr ptr (fresh_storage nv) = Ret (0, s1) /\
    gbms_storage_write t (Some l) c s1 = Ret (c, s2) /\
    gbms_storage_read t true c s2 = Ret (c, l, s3) /\
    (List.length (gbms_cache s2) = 1)%nat.
Proof.
  intros Hn Hw Hi Hl. destruct (register_fresh name lotr ptr nv Hn) as (d & -> & Hd).
  set (v := gbms_lotr_2_dsc lotr) in *. destruct (layout_inside v t a c Hi) as (_ & Hc & _).
  destruct (gbee_write_steady v t a c l ptr d Hd Hw Hi Hl) as (d' & Hwr & Hd' & Hsee).
  pose proof (gbee_read_steady v t a c ptr d' Hd' Hi) as Hrd. rewrite Hsee in Hrd.
  assert (Hc0 : c <> - ENOENT) by (unfold ENOENT; lia). apply Z.eqb_neq in Hc0.
  exists (eeprom_storage v name ptr 32 [] d).
  exists (eeprom_storage v name ptr 31 [mk_entry 0 t 0 GBMS_STORAGE_ADDR_INVALID] d').
  eexists. split_and!; [done|..].
  - unfold gbms_storage_write. cbn. assert (Hdw : d_write (desc_of v) = Some gbee_storage_write) by by destruct v.
    unfold call_write. rewrite Hdw. cbn. rewrite Hwr. cbn. rewrite Hc0.
    destruct (Z.leb_spec 0 c); [|lia]. by destruct v.
  - unfold gbms_storage_read. cbn [gbms_storage_init_done eeprom_storage negb andb].
    rewrite (cache_read_hit _ t true c (mk_entry 0 t 0 GBMS_STORAGE_ADDR_INVALID)
      (mk_provider (Some name) (Some (desc_of v)) false ptr) (desc_of v)); [|cbn; by rewrite Z.eqb_refl|done|done].
    assert (Hdr : d_read (desc_of v) = Some gbee_storage_read) by by destruct v.
    rewrite Hdr. cbn. rewrite Hrd. cbn. by rewrite Hc0.
  - done.
Qed.

End steady.
