(* ===== verification/StorageBee.v ===== *)
(** * Start-up of the battery storage and the wait for the EEPROM (src/bms/gbms_storage.c)

    [gbms_storage_init] creates the cache, reserves slots for the providers that the device
    tree announces, and polls for the EEPROM until it shows up or the retries are used up. *)

From Stdlib Require Import String.
From S2P Require Import Prelude GbmsStorage StorageTable Eeprom EepromStore EepromHistory.

Inductive gbee_status := GBEE_STATUS_NOENT | GBEE_STATUS_PROBE | GBEE_STATUS_OK.

#[global] Instance gbee_status_eq_dec : EqDecision gbee_status.
Proof. solve_decision. Defined.

Definition GBEE_POLL_RETRIES : nat := 100.

(** [bee_nvram]: the device is held. *)
Record gbee_data := mk_bee {
  bee_name : option string;
  bee_status : gbee_status;
  bee_nvram : bool;
  lotr_version : Z;
}.

Section bee.
Context {N : Type} `{!Nvmem N}.
#[local] Abbreviation storage := (gbms_storage (gbee N)).

(** ** Polling *)

(** One run of the work, with [found] the answer of the look-up and [retries] the static
    counter.  The result says whether the work is scheduled again. *)
Definition gbee_probe_work (alloc found : bool) (retries : nat) (beed : gbee_data) (s : storage)
    : outcome (bool * nat * gbee_data * storage) :=
  if negb (bool_decide (bee_status beed = GBEE_STATUS_PROBE)) then Ret (false, retries, beed, s) else
  if negb found then
    match retries with
    | O =>
      let* r := gbms_storage_register_internal (Some gbms_dummy_dsc) (bee_name beed) 0 s in
      Ret (false, O, beed, r.2)
    | S retries => Ret (true, retries, beed, s)
    end
  else
    let* r := gbee_register_device alloc (bee_name beed) (lotr_version beed) 1 s in
    if r.1 <? 0 then
      Ret (false, retries, mk_bee (bee_name beed) GBEE_STATUS_NOENT (bee_nvram beed) (lotr_version beed), r.2)
    else
      Ret (false, retries, mk_bee (bee_name beed) GBEE_STATUS_OK true (lotr_version beed), r.2).

(** The work until it is not scheduled any more; [found n] answers run [n]. *)
Fixpoint poll (alloc : bool) (found : nat -> bool) (fuel n retries : nat) (beed : gbee_data)
    (s : storage) : outcome (nat * gbee_data * storage) :=
  match fuel with
  | O => Undef
  | S fuel =>
    let* r := gbee_probe_work alloc (found n) retries beed s in
    let '(again, retries, beed, s) := r in
    if again : bool then poll alloc found fuel (S n) retries beed s else Ret (n, beed, s)
  end.

Definition gbee_destroy (beed : gbee_data) (s : storage) : outcome storage :=
  match bee_name beed with
  | Some name => let* r := gbms_storage_offline name true s in Ret r.2
  | None => Undef
  end.

(** ** Start-up *)

(** The node of the device tree: the name of the EEPROM, whether it can be copied, the names
    of the providers ([None] for an entry that cannot be read), and the version. *)
Record bms_node := mk_node {
  node_bee_name : option string;
  node_strdup : bool;
  node_providers : list (option string);
  node_lotr : option Z;
}.

Fixpoint gbms_storage_parse_provider_refs (names : list (option string)) (s : storage)
    : outcome storage :=
  match names with
  | [] => Ret s
  | None :: names => gbms_storage_parse_provider_refs names s
  | Some name :: names =>
    let* r := gbms_storage_register_internal None (Some name) 0 s in
    gbms_storage_parse_provider_refs names r.2
  end.

Definition set_init_done (s : storage) : storage :=
  mk_storage true (gbms_providers_count s) (gbms_providers s) (gbms_cache_pool s) (gbms_cache s)
    (devices s).

(** [pool], [mem]: the two allocations of the cache succeed.  The result: the status, the
    EEPROM, whether its work is scheduled, and the storage. *)
Definition gbms_storage_init (pool mem : bool) (node : option bms_node) (d : gbee N)
    : outcome (Z * gbee_data * bool * storage) :=
  let free := if pool && mem then Some (2 ^ GBMS_HASHTABLE_SIZE)%nat else None in
  let s := mk_storage false 0 (replicate GBMS_PROVIDERS_MAX empty_slot) free [] d in
  let none := mk_bee None GBEE_STATUS_NOENT false 0 in
  match node with
  | None => Ret (0, none, false, set_init_done s)
  | Some node =>
    match node_bee_name node with
    | Some name =>
      if negb (node_strdup node) then Ret (- ENOMEM, none, false, s) else
      let* r := gbms_storage_register_internal None (Some name) 0 s in
      let* s := gbms_storage_parse_provider_refs (node_providers node) r.2 in
      Ret (0, mk_bee (Some name) GBEE_STATUS_PROBE false (default 0xff (node_lotr node)), true,
           set_init_done s)
    | None =>
      let* s := gbms_storage_parse_provider_refs (node_providers node) s in
      Ret (0, mk_bee None GBEE_STATUS_NOENT false (default 0xff (node_lotr node)), false,
           set_init_done s)
    end
  end.

Definition gbms_storage_exit (beed : gbee_data) (s : storage) : outcome storage :=
  let* r := gbms_storage_flush_all_internal true s in
  let s := r.2 in
  let* s := if bool_decide (bee_status beed = GBEE_STATUS_OK) then gbee_destroy beed s else Ret s in
  Ret (mk_storage (gbms_storage_init_done s) 0 (gbms_providers s) None (gbms_cache s) (devices s)).

End bee.

Section settle.
Context {N : Type} `{!Nvmem N, !NvmemLaws N}.
#[local] Abbreviation storage := (gbms_storage (gbee N)).

(** The descriptors that this module registers. *)
Definition bms_dsc (dsc : gbms_storage_desc (gbee N)) : Prop :=
  dsc = gbms_dummy_dsc \/ exists v, dsc = desc_of v.

Lemma hist_entries_ret fuel (nv : N) from : exists o, hist_entries nv from fuel = Ret o.
Proof.
  revert from. induction fuel as [|fuel IH]; intros from; cbn [hist_entries]; [by eauto|].
  destruct (nv_read nv from BATT_ONE_HIST_LEN) as [Hr|Hr]; [unfold BATT_ONE_HIST_LEN; lia|..].
  - apply Z.ltb_lt in Hr as ->. eauto.
  - rewrite Hr. cbn [fst snd]. destruct (_ <? 0); [by eauto|].
    change (load (contents nv) from BATT_ONE_HIST_LEN !! 0%nat) with (Some (contents nv (from + 0))).
    run. destruct (_ =? 0xff); [by eauto|]. destruct (IH (from + BATT_ONE_HIST_LEN)) as [o ->]. run. eauto.
Qed.

Lemma lotr_update_ret alloc (nv : N) lotr : exists r, gbms_lotr_update alloc nv lotr = Ret r.
Proof.
  unfold gbms_lotr_update.
  destruct (nv_read nv BATT_EEPROM_TAG_LOTR_OFFSET BATT_EEPROM_TAG_LOTR_LEN) as [Hr|Hr];
    [unfold BATT_EEPROM_TAG_LOTR_LEN; lia|..].
  { apply Z.ltb_lt in Hr as ->. eauto. }
  rewrite Hr. cbn [fst snd]. destruct (_ <? 0); [by eauto|].
  change (load (contents nv) BATT_EEPROM_TAG_LOTR_OFFSET BATT_EEPROM_TAG_LOTR_LEN !! 0%nat) with
    (Some (contents nv (BATT_EEPROM_TAG_LOTR_OFFSET + 0))). run.
  destruct (_ =? lotr); [by eauto|]. destruct (_ && _); [|destruct (_ && _); by eauto].
  assert (H : exists r, gbms_lotr_update_to_v1 alloc nv = Ret r).
  { unfold gbms_lotr_update_to_v1, gbms_hist_move. destruct alloc; cbn [negb]; [|run; by eauto].
    destruct (hist_entries_ret (Z.to_nat BATT_MAX_HIST_CNT) nv 0x5E) as [[e|[|b l]] ->]; run;
      (destruct (_ <? 0); [by eauto|]); destruct (negb _); eauto. }
  destruct H as [r ->]. run. eauto.
Qed.

Lemma register_device_ok alloc name lotr ptr (s : storage) :
  storage_ok bms_dsc s ->
  exists r s', gbee_register_device alloc name lotr ptr s = Ret (r, s') /\ storage_ok bms_dsc s'.
Proof.
  intros Hs. unfold gbee_register_device.
  destruct (lotr_update_ret alloc (nvram (devices s)) lotr) as [u ->]. run.
  set (s0 := set_devices s _).
  assert (Hs0 : storage_ok bms_dsc s0) by by apply set_devices_ok.
  destruct (u.1 <? 0); [eauto using set_devices_ok|]. unfold gbms_storage_register.
  destruct (negb _); run.
  - destruct (_ =? 0); eauto using set_devices_ok.
  - destruct (register_internal_ok bms_dsc s0 (Some (desc_of (gbms_lotr_2_dsc lotr))) name ptr Hs0)
      as (r & s' & -> & Hs'); [intros x Hx; right; exists (gbms_lotr_2_dsc lotr); congruence|]. run.
    destruct (r =? 0); eauto using set_devices_ok.
Qed.

Lemma poll_settles alloc found retries fuel n beed (s : storage) :
  storage_ok bms_dsc s -> (retries < fuel)%nat ->
  exists m beed' s', poll alloc found fuel n retries beed s = Ret (m, beed', s') /\
    (n <= m <= n + retries)%nat /\ storage_ok bms_dsc s' /\
    (bee_status beed' = GBEE_STATUS_PROBE <->
       bee_status beed = GBEE_STATUS_PROBE /\ forall i, (i <= retries)%nat -> found (n + i)%nat = false).
Proof.
  intros Hs. revert fuel n. induction retries as [|retries IH]; intros [|fuel] n Hf; try lia;
    cbn [poll]; unfold gbee_probe_work; (case_bool_decide as Hp; cbn [negb]);
    try (run; do 3 eexists; split_and!; [done|lia|lia|done|]; by split; [intros ?|intros []]).
  - destruct (found n) eqn:Ef; cbn [negb].
    + destruct (register_device_ok alloc (bee_name beed) (lotr_version beed) 1 s Hs) as (r & s' & -> & Hs').
      run. destruct (r <? 0); run; do 3 eexists; (split_and!; [done|lia|lia|done|]);
        (split; [done|]); intros [_ H]; specialize (H 0%nat); rewrite Nat.add_0_r in H;
        rewrite H in Ef by lia; done.
    + destruct (register_internal_ok bms_dsc s (Some gbms_dummy_dsc) (bee_name beed) 0 Hs)
        as (r & s' & -> & Hs'); [intros x Hx; left; congruence|].
      run. do 3 eexists; split_and!; [done|lia|lia|done|]. split; [|done]. intros _. split; [done|].
      intros i Hi. by replace (n + i)%nat with n by lia.
  - destruct (found n) eqn:Ef; cbn [negb].
    + destruct (register_device_ok alloc (bee_name beed) (lotr_version beed) 1 s Hs) as (r & s' & -> & Hs').
      run. destruct (r <? 0); run; do 3 eexists; (split_and!; [done|lia|lia|done|]);
        (split; [done|]); intros [_ H]; specialize (H 0%nat); rewrite Nat.add_0_r in H;
        rewrite H in Ef by lia; done.
    + run. destruct (IH fuel (S n)) as (m & beed' & s' & -> & Hm & Hs' & Hst); [lia|].
      do 3 eexists; split_and!; [done|lia|lia|done|]. rewrite Hst. split; intros [_ H]; (split; [done|]).
      * intros [|i] Hi; [by rewrite Nat.add_0_r|]. replace (n + S i)%nat with (S n + i)%nat by lia.
        apply H. lia.
      * intros i Hi. replace (S n + i)%nat with (n + S i)%nat by lia. apply H. lia.
Qed.

(** The wait for the EEPROM ends: whatever the look-ups answer and the device does, after
    at most 101 runs the work is not scheduled again; the EEPROM is then either settled (in
    use or given up), or it was never found in any of the 101 look-ups; and the table of
    providers is still consistent. *)
Theorem eeprom_polling_settles alloc found beed (s : storage) :
  storage_ok bms_dsc s -> bee_status beed = GBEE_STATUS_PROBE ->
  exists n beed' s', poll alloc found (GBEE_POLL_RETRIES + 1) 0 GBEE_POLL_RETRIES beed s = Ret (n, beed', s') /\
    (n <= GBEE_POLL_RETRIES)%nat /\ storage_ok bms_dsc s' /\
    (bee_status beed' = GBEE_STATUS_PROBE <-> forall i, (i <= GBEE_POLL_RETRIES)%nat -> found i = false).
Proof.
  intros Hs Hp. destruct (poll_settles alloc found GBEE_POLL_RETRIES (GBEE_POLL_RETRIES + 1) 0 beed s Hs)
    as (m & beed' & s' & Hr & Hm & Hs' & Hst); [lia|].
  exists m, beed', s'. split_and!; [done|lia|done|]. rewrite Hst. split; [by intros []|]. by split.
Qed.

(** ** Start-up gives a consistent table *)

Lemma blank_ok (b : bool) free (d : gbee N) :
  match free with Some n => n = (2 ^ GBMS_HASHTABLE_SIZE)%nat | None => True end ->
  storage_ok bms_dsc (mk_storage b 0 (replicate GBMS_PROVIDERS_MAX empty_slot) free [] d).
Proof.
  intros Hf. split; try done; try (cbn; lia).
  - intros i p _ Hi. cbn in Hi. apply (list_elem_of_lookup_2 (replicate 6 empty_slot)) in Hi.
    by apply elem_of_replicate in Hi as [-> _].
  - destruct free; cbn in *; [lia|done].
Qed.

Lemma parse_refs_ok names (s : storage) :
  storage_ok bms_dsc s ->
  exists s', gbms_storage_parse_provider_refs names s = Ret s' /\ storage_ok bms_dsc s'.
Proof.
  revert s. induction names as [|[name|] names IH]; intros s Hs; cbn [gbms_storage_parse_provider_refs].
  - eauto.
  - destruct (register_internal_ok bms_dsc s None (Some name) 0 Hs) as (r & s' & -> & Hs'); [done|].
    run. by apply IH.
  - by apply IH.
Qed.

Lemma set_init_done_ok (s : storage) : storage_ok bms_dsc s -> storage_ok bms_dsc (set_init_done s).
Proof. intros Hs. split; apply Hs. Qed.

Lemma storage_init_ok pool mem node (d : gbee N) :
  exists r beed again s, gbms_storage_init pool mem node d = Ret (r, beed, again, s) /\
    storage_ok bms_dsc s /\ (again = true <-> bee_status beed = GBEE_STATUS_PROBE).
Proof.
  unfold gbms_storage_init. set (free := if _ && _ then _ else _).
  pose proof (blank_ok false free d) as Hb. set (s0 := mk_storage _ _ _ _ _ _) in *.
  assert (Hs : storage_ok bms_dsc s0) by (apply Hb; subst free; by destruct (pool && mem)).
  destruct node as [node|]; [destruct (node_bee_name node) as [name|]|].
  - destruct (negb _); [by do 4 eexists; split_and!; [done|done|split]|].
    destruct (register_internal_ok bms_dsc s0 None (Some name) 0 Hs) as (r & s1 & -> & Hs1); [done|]. run.
    destruct (parse_refs_ok (node_providers node) s1 Hs1) as (s2 & -> & Hs2). run.
    do 4 eexists; split_and!; [done|by apply set_init_done_ok|by split].
  - destruct (parse_refs_ok (node_providers node) s0 Hs) as (s2 & -> & Hs2). run.
    do 4 eexists; split_and!; [done|by apply set_init_done_ok|by split].
  - do 4 eexists; split_and!; [done|by apply set_init_done_ok|by split].
Qed.

End settle.
