(* ===== verification/StorageDevice.v ===== *)
(** * The character device of an enumeration (src/bms/gbms_storage.c)

    [gbms_storage_create_device] looks for the provider of a tag; reading the device file
    walks over the entries of the enumeration with the four functions of a seq_file. *)

From Stdlib Require Import String.
From S2P Require Import Prelude GbmsStorage StorageTable StorageContract Eeprom EepromStore EepromHistory.

Section device.
Context {D : Type}.
#[local] Abbreviation storage := (gbms_storage D).

(** The entry of the tag, and the two counters that the walk keeps in the device. *)
Record gbms_storage_device := mk_gdev {
  gd_entry : option gbms_cache_entry;
  gd_index : Z;
  gd_count : Z;
}.

(** The first provider that has a place for the tag: its slot, address and count. *)
Fixpoint find_info (tag : Z) (l : list (gbms_storage_provider D)) (i : nat) (d : D)
    : outcome (option gbms_cache_entry) :=
  match l with
  | [] => Ret None
  | p :: l =>
    match p_dsc p ≫= d_info with
    | None => find_info tag l (S i) d
    | Some info =>
      let* r := info tag (p_ptr p) d in
      if r.1 =? 0 then Ret (Some (mk_entry i tag r.2.2 r.2.1)) else
      if r.1 =? - ENOENT then find_info tag l (S i) d else Ret None
    end
  end.

(** [alloc], [chrdev]: the allocation and the set-up of the character device succeed. *)
Definition gbms_storage_create_device (alloc chrdev : bool) (tag : Z) (s : storage)
    : outcome (option gbms_storage_device) :=
  if negb alloc || negb chrdev then Ret None else
  let* e := find_info tag (slots s) 0 (devices s) in
  Ret (match e with Some e => Some (mk_gdev (Some e) 0 0) | None => None end).

(** ** The walk *)

Definition gd_tag (gdev : gbms_storage_device) : outcome gbms_cache_entry := must (gd_entry gdev).

(** The position, or [None] for a null pointer. *)
Definition ct_seq_start (pos : Z) (gdev : gbms_storage_device) (s : storage)
    : outcome (option Z * gbms_storage_device) :=
  let* e := gd_tag gdev in
  let* r := gbms_storage_read_data (ce_tag e) false 0 0 s in
  if r.1 <? 0 then Ret (None, gdev) else
  if r.1 <=? pos then Ret (None, gdev) else
  Ret (Some pos, mk_gdev (gd_entry gdev) pos r.1).

(** The pointer leads to the index in the device. *)
Definition ct_seq_next (gdev : gbms_storage_device) : option Z * gbms_storage_device :=
  let i := gd_index gdev + 1 in
  (if gd_count gdev <=? i then None else Some i, mk_gdev (gd_entry gdev) i (gd_count gdev)).

(** [u16] values in hexadecimal. *)
Fixpoint ct_words (data : list Z) : list Z :=
  match data with
  | lo :: hi :: data => lo + 256 * hi :: ct_words data
  | _ => []
  end.

Definition ct_dev_show (data : list Z) (count : Z) : list Z :=
  ct_words (take (Z.to_nat count) data).

(** The status, and the line that is printed. *)
Definition ct_seq_show (pos : Z) (gdev : gbms_storage_device) (s : storage)
    : outcome (Z * list Z) :=
  let* e := gd_tag gdev in
  let* r := gbms_storage_read_data (ce_tag e) true (ce_count e) pos s in
  if r.1 <? 0 then Ret (r.1, []) else Ret (0, ct_dev_show r.2 r.1).

Definition ct_seq_stop (gdev : gbms_storage_device) (s : storage) : outcome unit :=
  let* e := gd_tag gdev in
  let* _ := gbms_storage_read_data (ce_tag e) false 0 GBMS_STORAGE_INDEX_INVALID s in Ret tt.

(** Reading the whole file: the documented order of the calls of a seq_file.  The result is
    the lines up to the first error. *)
Fixpoint ct_lines (fuel : nat) (v : option Z) (gdev : gbms_storage_device) (s : storage)
    : outcome (list (list Z)) :=
  match fuel, v with
  | O, _ => Undef
  | S _, None => Ret []
  | S fuel, Some pos =>
    let* r := ct_seq_show pos gdev s in
    if negb (r.1 =? 0) then Ret [] else
    let n := ct_seq_next gdev in
    let* l := ct_lines fuel n.1 n.2 s in
    Ret (r.2 :: l)
  end.

Definition ct_read_all (fuel : nat) (gdev : gbms_storage_device) (s : storage)
    : outcome (list (list Z)) :=
  let* v := ct_seq_start 0 gdev s in
  let* l := ct_lines fuel v.1 v.2 s in
  let* _ := ct_seq_stop v.2 s in
  Ret l.

(** With a provider that answers for [n] entries the walk shows them all, in order. *)
Lemma ct_lines_all (bytes : Z -> list Z) e n s k fuel :
  (forall i, 0 <= i < n -> gbms_storage_read_data (ce_tag e) true (ce_count e) i s =
     Ret (Z.of_nat (length (bytes i)), bytes i)) ->
  0 <= k < n -> n - k < Z.of_nat fuel ->
  ct_lines fuel (Some k) (mk_gdev (Some e) k n) s = Ret ((fun i => ct_words (bytes i)) <$> seqZ k (n - k)).
Proof.
  intros Hr. revert k. induction fuel as [|fuel IH]; intros k Hk Hf; [lia|]. cbn [ct_lines].
  unfold ct_seq_show, gd_tag. cbn [gd_entry]. run. rewrite Hr by lia. run.
  destruct (Z.ltb_spec (Z.of_nat (length (bytes k))) 0); [lia|]. run. change (negb (0 =? 0)) with false.
  cbv iota. unfold ct_seq_next. cbn [gd_index gd_count gd_entry fst snd].
  rewrite (seqZ_cons k) by lia. unfold ct_dev_show. rewrite Nat2Z.id, firstn_all.
  destruct (Z.leb_spec n (k + 1)).
  - destruct fuel as [|fuel]; [lia|]. cbn [ct_lines]. run. by rewrite seqZ_nil by lia.
  - rewrite IH by lia. run. rewrite fmap_cons. by replace (Z.pred (n - k)) with (n - (k + 1)) by lia.
Qed.

End device.

(** ** The history file *)

Section history_file.
Context {N : Type} `{!Nvmem N, !NvmemLaws N, !NvmemSteady N}.

(** Reading data from a storage whose only provider is the EEPROM. *)
Lemma storage_read_data_eeprom v name ptr pool cache (d : gbee N) data count idx f r :
  d_read_data (desc_of v) = Some f -> negb data && negb (count =? 0) = false ->
  f GBMS_TAG_HIST data count idx ptr d = Ret r -> r.1 <> - ENOENT ->
  gbms_storage_read_data GBMS_TAG_HIST data count idx (eeprom_storage v name ptr pool cache d) = Ret r.
Proof.
  intros Hf Hg Hr Hne. unfold gbms_storage_read_data. cbn [gbms_storage_init_done eeprom_storage negb].
  rewrite Hg. cbn [slots gbms_providers gbms_providers_count take devices eeprom_storage scan p_offline p_dsc
    p_ptr andb negb]. unfold call_read_data. rewrite Hf. cbn [fmap option_fmap option_map]. rewrite Hr. run.
  apply Z.eqb_neq in Hne as Hb. rewrite Hb. run. rewrite or_late_other by done. by destruct r.
Qed.

(** The history file shows the history: on a device that works, in every layout, creating
    the device for the history tag finds the EEPROM, and reading the file gives one line per
    entry, all of them and in order, each with the 16-bit words of that entry. *)
Theorem history_file_lists_entries v name ptr pool cache (d : gbee N) :
  gbee_holds v d ->
  exists gdev, gbms_storage_create_device true true GBMS_TAG_HIST
      (eeprom_storage v name ptr pool cache d) = Ret (Some gdev) /\
    ct_read_all (Z.to_nat (hist_count v) + 1) gdev (eeprom_storage v name ptr pool cache d) =
      Ret ((fun i => ct_words (entry_at (contents (nvram d)) v i)) <$> seqZ 0 (hist_count v)).
Proof.
  intros Hv. set (e := mk_entry 0 GBMS_TAG_HIST BATT_ONE_HIST_LEN (hist_start v)).
  exists (mk_gdev (Some e) 0 0). split; [by destruct v|].
  assert (Hf : exists f, d_read_data (desc_of v) = Some f) by (destruct v; eauto). destruct Hf as [f Hf].
  assert (Hn : forall idx, f GBMS_TAG_HIST false 0 idx ptr d =
    Ret (if idx =? GBMS_STORAGE_INDEX_INVALID then 0 else hist_count v, [])).
  { intros idx. destruct v; cbn in Hf; simplify_eq; try done;
      unfold gbee_storage_read_data; by rewrite Z.eqb_refl, (hist_info _ d Hv). }
  unfold ct_read_all, ct_seq_start, ct_seq_stop, gd_tag. cbn [gd_entry]. run. cbn [ce_tag e].
  rewrite (storage_read_data_eeprom v name ptr pool cache d false 0 0 f _ Hf eq_refl (Hn 0)) by (by destruct v).
  run. change (0 =? GBMS_STORAGE_INDEX_INVALID) with false. cbv iota.
  assert (Hpos : 0 < hist_count v) by by destruct v.
  destruct (Z.ltb_spec (hist_count v) 0), (Z.leb_spec (hist_count v) 0); try lia. run. cbn [gd_entry].
  rewrite (ct_lines_all (entry_at (contents (nvram d)) v)).
  - run. cbn [gd_entry e ce_tag]. run.
    rewrite (storage_read_data_eeprom v name ptr pool cache d false 0 _ f _ Hf eq_refl (Hn _)) by done.
    run. by rewrite Z.sub_0_r.
  - intros i Hi. cbn [ce_tag ce_count e].
    pose proof (read_data_device v BATT_ONE_HIST_LEN i ptr d f Hv Hf Hi (Z.le_refl _)) as Hr.
    rewrite steady_read in Hr by (unfold BATT_ONE_HIST_LEN; lia).
    rewrite (storage_read_data_eeprom v name ptr pool cache d true _ i f _ Hf eq_refl Hr) by done.
    reflexivity.
  - lia.
  - lia.
Qed.

End history_file.
