(* ===== verification/StorageDemo.v ===== *)
(** * Instances and defects of the battery storage (src/bms/gbms_storage.c, google_eeprom.c)

    A device in plain memory, on which the theorems on the storage apply, and runs that show
    where the code does not do what it means to. *)

From Stdlib Require Import String.
From S2P Require Import Prelude GbmsStorage StorageTable StorageContract Eeprom EepromStore EepromHistory.
From S2P Require Import StorageBee StorageDevice.

(** ** A device in memory *)

Definition flash : Type := memory.

#[local] Instance flash_nvmem : Nvmem flash := {
  nvmem_device_read m offset len := (len, load m offset len);
  nvmem_device_write m offset bs := (Z.of_nat (length bs), store m offset bs);
}.

#[local] Instance flash_laws : NvmemLaws flash.
Proof.
  apply (Build_NvmemLaws flash flash_nvmem (fun m => m)).
  - intros m offset len _. by right.
  - intros m offset bs. by left.
Defined.

#[local] Instance flash_steady : NvmemSteady flash.
Proof. split; cbn; intros; lia. Qed.

(** An erased device that holds the bytes [bs] at [a]. *)
Definition erased_with (a : Z) (bs : list Z) : flash := store (fun _ => 0xff) a bs.

Definition erased : flash := erased_with 0 [].

#[local] Abbreviation storage := (gbms_storage (gbee flash)).

(** ** The table *)

Definition eeprom_dsc (dsc : gbms_storage_desc (gbee flash)) : Prop := exists v, dsc = desc_of v.

Lemma fresh_storage_ok : storage_ok eeprom_dsc (fresh_storage erased).
Proof.
  split; try done; try (cbn; lia).
  intros i p _ Hi. cbn in Hi. apply (list_elem_of_lookup_2 (replicate 6 empty_slot)) in Hi.
  apply elem_of_replicate in Hi as [-> _]. done.
Qed.

(** The callbacks of the EEPROM on given arguments return. *)
Ltac callback :=
  intros dsc f ptr [o m] [v ->] Hf; destruct v; cbn in Hf; simplify_eq;
  destruct o as [[]|]; cbn; eauto.

Definition demo_requests : list storage_op :=
  [ OpReference (Some "battery"%string);
    OpRegister (Some (desc_of GBEE_STORAGE_DSC)) (Some "battery"%string) 1;
    OpRead GBMS_TAG_DINF true 16; OpWrite GBMS_TAG_GCFE (Some [1; 2]) 2;
    OpReadData GBMS_TAG_HIST true 12 3; OpOffline "battery"%string true; OpFlush false;
    OpExport 30 true [43; 67; 78; 72; 83] ].

Lemma storage_requests_keep_table_witness :
  exists s', storage_run demo_requests (fresh_storage erased) = Ret s' /\ storage_ok eeprom_dsc s' /\
    (length (slots s') <= GBMS_PROVIDERS_MAX)%nat /\
    (length (gbms_cache s') <= 2 ^ GBMS_HASHTABLE_SIZE)%nat.
Proof.
  apply (storage_requests_keep_table eeprom_dsc demo_requests (fresh_storage erased) fresh_storage_ok).
  unfold demo_requests. rewrite !Forall_cons. split_and!; cbn [op_returns].
  - done.
  - intros x Hx. exists GBEE_STORAGE_DSC. congruence.
  - split; callback.
  - split; callback.
  - callback.
  - done.
  - callback.
  - split; [|intros tag; callback].
    intros dsc iter ptr d [v ->] Hi. destruct v; cbn in Hi; simplify_eq; (split; [by eauto|]);
      exists 25%nat; (eexists; split_and!; [lia|reflexivity|done]).
  - by apply Forall_nil.
Defined.

(** ** Records through the storage *)

Definition only_eeprom (v : gbee_dsc) (i : nat) (t : Z) : bool :=
  match i with O => gbee_knows v t | S _ => false end.

Definition demo_device (v : gbee_dsc) : gbee flash := mk_gbee (Some v) erased.

(** The EEPROM in the first slot, with one of its tags in the cache. *)
Definition demo_storage (v : gbee_dsc) : storage :=
  eeprom_storage v "battery"%string 1 31 [mk_entry 0 GBMS_TAG_DINF 0 GBMS_STORAGE_ADDR_INVALID]
    (demo_device v).

Lemma demo_lawful v : lawful (only_eeprom v) gbee_sees (gbee_holds v) (demo_storage v).
Proof.
  split; [..|done].
  - intros [|i] p dsc Hi Hd; cbn in Hi; [|by destruct i].
    simplify_eq. cbn in Hd. simplify_eq. apply (gbee_contract v 1).
  - intros [|i] p Hi; cbn in Hi; [|by destruct i]. by simplify_eq.
  - intros [|i] [|j] t; cbn; by intros.
  - intros ce. cbn. rewrite elem_of_cons. intros [->|Hin]; [|by apply not_elem_of_nil in Hin].
    eexists _, (desc_of v). split; [done|done|by destruct v|by destruct v].
Qed.

Lemma storage_read_ignores_cache_witness :
  exists ret b s', gbms_storage_read GBMS_TAG_DINF true 16 (demo_storage GBEE_STORAGE02_DSC) =
      Ret (ret, b, s') /\
    gbms_storage_read GBMS_TAG_DINF true 16 (without_cache (demo_storage GBEE_STORAGE02_DSC)) =
      Ret (ret, b, without_cache (demo_storage GBEE_STORAGE02_DSC)) /\
    (0 <= ret -> b = gbee_sees (demo_device GBEE_STORAGE02_DSC) GBMS_TAG_DINF) /\
    lawful (only_eeprom GBEE_STORAGE02_DSC) gbee_sees (gbee_holds GBEE_STORAGE02_DSC) s' /\
    devices s' = demo_device GBEE_STORAGE02_DSC.
Proof.
  apply (storage_read_ignores_cache (only_eeprom GBEE_STORAGE02_DSC) gbee_sees
    (gbee_holds GBEE_STORAGE02_DSC) (demo_storage GBEE_STORAGE02_DSC) GBMS_TAG_DINF true 16).
  - apply demo_lawful.
  - reflexivity.
  - reflexivity.
Defined.

Lemma storage_write_updates_record_witness :
  exists ret s', gbms_storage_write GBMS_TAG_DINF (Some [7; 8]) 2 (demo_storage GBEE_STORAGE01_DSC) =
      Ret (ret, s') /\
    lawful (only_eeprom GBEE_STORAGE01_DSC) gbee_sees (gbee_holds GBEE_STORAGE01_DSC) s' /\
    (0 <= ret -> gbee_sees (devices s') GBMS_TAG_DINF =
       overlay [7; 8] 2 (gbee_sees (demo_device GBEE_STORAGE01_DSC) GBMS_TAG_DINF)) /\
    (forall t', t' <> GBMS_TAG_DINF ->
       gbee_sees (devices s') t' = gbee_sees (demo_device GBEE_STORAGE01_DSC) t').
Proof.
  apply (storage_write_updates_record (only_eeprom GBEE_STORAGE01_DSC) gbee_sees
    (gbee_holds GBEE_STORAGE01_DSC) (demo_storage GBEE_STORAGE01_DSC) GBMS_TAG_DINF [7; 8] 2).
  - apply demo_lawful.
  - reflexivity.
  - cbn. lia.
Defined.

Lemma eeprom_storage_roundtrip_witness :
  exists s1 s2 s3 : storage,
    gbee_register_device true (Some "battery"%string) 2 1 (fresh_storage erased) = Ret (0, s1) /\
    gbms_storage_write GBMS_TAG_AAWC (Some [1; 2; 3; 4]) 4 s1 = Ret (4, s2) /\
    gbms_storage_read GBMS_TAG_AAWC true 4 s2 = Ret (4, [1; 2; 3; 4], s3) /\
    (List.length (gbms_cache s2) = 1)%nat.
Proof.
  apply (eeprom_storage_roundtrip "battery"%string 2 1 erased GBMS_TAG_AAWC 0x1FDE 4 [1; 2; 3; 4]).
  - vm_compute. lia.
  - reflexivity.
  - reflexivity.
  - reflexivity.
Defined.

(** ** History *)

Definition demo_entry (x : Z) : list Z := [x; 1; 2; 3; 4; 5; 6; 7; 8; 9; 10; 11].

Lemma history_write_read_witness :
  exists r d', gbee_storage_write_data GBMS_TAG_HIST (Some (demo_entry 40)) 12 5 1
      (demo_device GBEE_STORAGE_DSC) = Ret (r, d') /\ gbee_holds GBEE_STORAGE_DSC d'.
Proof.
  destruct (history_write_read GBEE_STORAGE_DSC (demo_entry 40) 5 1 (demo_device GBEE_STORAGE_DSC))
    as (r & d' & Hw & Hd & _); [reflexivity|unfold BATT_MAX_HIST_CNT; lia|by vm_compute|].
  exists r, d'. by split.
Defined.

(** Two entries in the default layout. *)
Definition demo_history : flash := erased_with 0x5E (demo_entry 40 ++ demo_entry 41).

Lemma lotr_v1_keeps_history_witness :
  exists nv' : flash, gbms_lotr_update true demo_history 1 = Ret (1, nv') /\
    contents nv' 0x59 = 1 /\ entry_at (contents nv') GBEE_STORAGE01_DSC 1 = demo_entry 41.
Proof.
  destruct (lotr_v1_keeps_history demo_history 2) as (nv' & Hu & Hl & _ & He & _).
  - reflexivity.
  - split; [vm_compute; lia| |by right].
    intros j Hj. assert (j = 0 \/ j = 1) as [-> | ->] by lia; vm_compute; lia.
  - exists nv'. split; [exact Hu|]. split; [exact Hl|].
    etransitivity; [apply He; lia|reflexivity].
Defined.

Lemma history_file_lists_entries_witness :
  exists gdev, gbms_storage_create_device true true GBMS_TAG_HIST (demo_storage GBEE_STORAGE_DSC) =
      Ret (Some gdev) /\
    ct_read_all (Z.to_nat (hist_count GBEE_STORAGE_DSC) + 1) gdev (demo_storage GBEE_STORAGE_DSC) =
      Ret ((fun i => ct_words (entry_at (contents (nvram (demo_device GBEE_STORAGE_DSC)))
              GBEE_STORAGE_DSC i)) <$> seqZ 0 (hist_count GBEE_STORAGE_DSC)).
Proof.
  apply (history_file_lists_entries GBEE_STORAGE_DSC "battery"%string 1 31
    [mk_entry 0 GBMS_TAG_DINF 0 GBMS_STORAGE_ADDR_INVALID] (demo_device GBEE_STORAGE_DSC)).
  reflexivity.
Defined.

(** ** Start-up *)

Definition demo_bee : gbee_data := mk_bee (Some "battery"%string) GBEE_STATUS_PROBE false 1.

Lemma eeprom_polling_settles_witness :
  exists n beed' s', poll true (Nat.eqb 3) (GBEE_POLL_RETRIES + 1) 0 GBEE_POLL_RETRIES demo_bee
      (fresh_storage erased) = Ret (n, beed', s') /\
    (n <= GBEE_POLL_RETRIES)%nat /\ storage_ok bms_dsc s' /\
    (bee_status beed' = GBEE_STATUS_PROBE <->
       forall i, (i <= GBEE_POLL_RETRIES)%nat -> Nat.eqb 3 i = false).
Proof.
  apply (eeprom_polling_settles true (Nat.eqb 3) demo_bee (fresh_storage erased)).
  - apply (blank_ok true (Some 32%nat) (mk_gbee None erased)). reflexivity.
  - reflexivity.
Defined.

(** ** Defects *)

(** The status of a read, a write and so on. *)
Definition read_status (r : outcome (Z * list Z * storage)) : option Z :=
  match r with Ret (ret, _, _) => Some ret | _ => None end.
Definition write_status {A} (r : outcome (Z * A)) : option Z :=
  match r with Ret r => Some r.1 | _ => None end.

(** A registered provider never goes offline: the search for its name reports that it is
    there ([gbms_storage_offline] uses the search for a free slot). *)
Theorem registered_provider_stays_online v flush :
  gbms_storage_offline "battery" flush (demo_storage v) = Ret (- EBUSY, demo_storage v).
Proof. by destruct v, flush. Qed.

(** Taking an unknown name offline marks the next free slot: the provider that registers
    there can be read once, is then refused by the cache, and is never written. *)
Theorem offline_unknown_name_hits_next_provider :
  exists s1 s2 s3 : storage,
    gbms_storage_offline "batery" true (fresh_storage erased) = Ret (0, s1) /\
    gbee_register_device true (Some "battery"%string) 0xff 1 s1 = Ret (0, s2) /\
    write_status (gbms_storage_write GBMS_TAG_GCFE (Some [1; 2]) 2 s2) = Some (- ENOENT) /\
    gbms_storage_read GBMS_TAG_GCFE true 2 s2 = Ret (2, [0xff; 0xff], s3) /\
    read_status (gbms_storage_read GBMS_TAG_GCFE true 2 s3) = Some (- ENODEV).
Proof. do 3 eexists. split_and!; reflexivity. Qed.

(** A name that extends the name of a registered provider cannot be registered. *)
Theorem prefix_name_refused v ptr :
  gbms_storage_register (Some gbms_dummy_dsc) (Some "battery2"%string) ptr (demo_storage v) =
    Ret (- EBUSY, demo_storage v).
Proof. by destruct v. Qed.

(** Registering the EEPROM a second time fails, and makes the first registration forget its
    layout: the tags of the second layout are gone. *)
Theorem second_registration_drops_layout :
  exists s : storage,
    gbee_register_device true (Some "battery"%string) 2 1 (demo_storage GBEE_STORAGE02_DSC) =
      Ret (- EBUSY, s) /\ gbee_desc (devices s) = None /\
    read_status (gbms_storage_read GBMS_TAG_AAWC true 4 (demo_storage GBEE_STORAGE02_DSC)) = Some 4 /\
    read_status (gbms_storage_read GBMS_TAG_AAWC true 4 s) = Some (- ENOENT).
Proof. eexists. split_and!; reflexivity. Qed.

(** In the first layout the last history entry covers the tag FCRU. *)
Theorem v1_last_entry_overwrites_fcru :
  exists d : gbee flash,
    gbee_storage_write_data GBMS_TAG_HIST (Some (demo_entry 40)) 12 74 1
      (demo_device GBEE_STORAGE01_DSC) = Ret (12, d) /\
    gbee_sees (demo_device GBEE_STORAGE01_DSC) GBMS_TAG_FCRU = [0xff; 0xff] /\
    gbee_sees d GBMS_TAG_FCRU = [6; 7].
Proof. eexists. split_and!; reflexivity. Qed.

(** In the second layout 200 entries can be read and 75 written. *)
Theorem v2_entry_75_read_only :
  write_status (gbee_storage_read_data_02 GBMS_TAG_HIST true 12 75 1 (demo_device GBEE_STORAGE02_DSC)) =
    Some 12 /\
  write_status (gbee_storage_write_data GBMS_TAG_HIST (Some (demo_entry 40)) 12 75 1
    (demo_device GBEE_STORAGE02_DSC)) = Some (- ENODATA).
Proof. split; reflexivity. Qed.

(** Writing less than an entry reads past the end of the caller's buffer. *)
Theorem short_entry_reads_past_buffer :
  gbee_storage_write_data GBMS_TAG_HIST (Some [1; 2]) 2 0 1 (demo_device GBEE_STORAGE_DSC) = Undef.
Proof. reflexivity. Qed.

(** The battery identifier is read, and zero bytes are reported. *)
Theorem identifier_reads_zero_bytes :
  gbee_storage_read GBMS_TAG_BRID true 4 1 (mk_gbee (Some GBEE_STORAGE_DSC) (erased_with 0x17 [9])) =
    Ret (0, [9; 0; 0; 0]).
Proof. reflexivity. Qed.

(** The change to the second layout does not clear the last byte of the old tags. *)
Theorem v2_update_leaves_last_byte :
  gbee_sees (mk_gbee (Some GBEE_STORAGE_DSC)
    (gbms_lotr_update_to_v2 (erased_with 0x3FE [1; 2])).2) GBMS_TAG_THAS = [0xff; 2].
Proof. reflexivity. Qed.

(** The placeholder for a missing device does not refuse a tag, it ignores it. *)
Theorem dummy_provider_ignores_tags (d : gbee flash) :
  read_status (gbms_storage_read GBMS_TAG_DINF true 16
    (mk_storage true 1 (mk_provider (Some "battery"%string) (Some gbms_dummy_dsc) false 0 ::
       replicate 5 empty_slot) (Some 32%nat) [] d)) = Some (- ENOENT).
Proof. reflexivity. Qed.

(** ** Tags as text *)

Lemma tag_text_roundtrip tag : 0 <= tag < 2 ^ 32 -> cstr2tag (tag2cstr tag) = Ret tag.
Proof.
  intros Ht. unfold tag2cstr, cstr2tag. cbn. f_equal.
  change 255 with (Z.ones 8). rewrite !Z.land_ones, !Z.shiftl_mul_pow2, !Z.shiftr_div_pow2 by lia.
  unfold wrap. Z.div_mod_to_equations. lia.
Qed.
