(* ===== verification/Ssoc.v ===== *)
(** * The state of charge that the user sees (src/bms/google_battery.c)

    The gauge reports a raw state of charge.  The battery driver maps it through a curve of
    three points, so that a full battery stays at 100% for a while and a change of the charger
    does not make the number jump, limits how fast the number may change, and keeps the
    state of the recharge logic.  Numbers are fixed-point ([qnum_t], see [Ttf]). *)

From Stdlib Require Import String.
From S2P Require Import Prelude GbmsProfile Ttf GbmsStorage.

(** ** Data *)

Definition UICURVE_MAX : nat := 3.
Definition RL_DELTA_SOC_MAX : nat := 8.
Definition SSOC_TRUE : Z := 15.
Definition SSOC_SPOOF : Z := 95.
Definition SSOC_FULL : Z := 100.

Definition SSOC_UIC_TYPE_DSG : Z := -1.
Definition SSOC_UIC_TYPE_NONE : Z := 0.
Definition SSOC_UIC_TYPE_CHG : Z := 1.

Definition ssoc_point_true : Z := qnum_rconst SSOC_TRUE.
Definition ssoc_point_spoof : Z := qnum_rconst SSOC_SPOOF.
Definition ssoc_point_full : Z := qnum_rconst SSOC_FULL.

Record ssoc_uicurve := mk_point { c_real : Z; c_ui : Z }.

Definition chg_curve : list ssoc_uicurve :=
  [ mk_point ssoc_point_true ssoc_point_true;
    mk_point ssoc_point_spoof ssoc_point_spoof;
    mk_point ssoc_point_full ssoc_point_full ].

Definition dsg_curve : list ssoc_uicurve :=
  [ mk_point ssoc_point_true ssoc_point_true;
    mk_point ssoc_point_spoof ssoc_point_full;
    mk_point ssoc_point_full ssoc_point_full ].

(** The rate limiter. *)
Record batt_ssoc_rl_state := mk_rls {
  rl_ssoc_target : Z;
  rl_ssoc_last_update : Z;
  rl_no_zero : bool;
  rl_fast_track : bool;
  rl_track_target : bool;
  rl_delta_max_time : Z;
  rl_delta_max_soc : Z;
  rl_delta_soc_ratio : list Z;
  rl_delta_soc_limit : list Z;
  rl_delta_soc_cnt : Z;
  rl_ft_low_limit : Z;
  rl_ft_delta_limit : Z;
}.

Inductive batt_rl_status :=
  BATT_RL_STATUS_NONE | BATT_RL_STATUS_DISCHARGE | BATT_RL_STATUS_RECHARGE.

Inductive batt_sr_state :=
  BATT_SMART_RECHG_DISABLE | BATT_SMART_RECHG_ENABLE | BATT_SMART_RECHG_TRIGGER.

#[global] Instance batt_rl_status_eq_dec : EqDecision batt_rl_status.
Proof. solve_decision. Defined.
#[global] Instance batt_sr_state_eq_dec : EqDecision batt_sr_state.
Proof. solve_decision. Defined.

Definition BD_TRICKLE_VER_SOC : Z := 1.

(** The trickle defender. *)
Record bd_trickle := mk_trickle {
  bd_enable : bool;
  bd_recharge_soc : Z;
  bd_cnt : Z;
  bd_dry_run : bool;
  bd_full : bool;
  bd_eoc : bool;
  bd_reset_sec : Z;
  bd_cnt_thr : Z;
  bd_version : Z;
}.

Record batt_ssoc_state := mk_ssoc {
  ssoc_gdf : Z;
  ssoc_curve_type : Z;
  ssoc_curve : list ssoc_uicurve;
  ssoc_uic : Z;
  ssoc_rl : Z;
  ssoc_rl_state : batt_ssoc_rl_state;
  disconnect_time : Z;
  buck_enabled : Z;
  rl_soc_threshold : Z;
  rl_status : batt_rl_status;
  trickle : bd_trickle;
  save_soc_available : bool;
  save_soc : Z;
  point_full_ui_soc : Z;
  sr_state : batt_sr_state;
}.

Definition set_levels (s : batt_ssoc_state) (gdf uic rl : Z) (rls : batt_ssoc_rl_state) :=
  mk_ssoc gdf (ssoc_curve_type s) (ssoc_curve s) uic rl rls (disconnect_time s) (buck_enabled s)
    (rl_soc_threshold s) (rl_status s) (trickle s) (save_soc_available s) (save_soc s)
    (point_full_ui_soc s) (sr_state s).
Definition set_curve (s : batt_ssoc_state) (type : Z) (curve : list ssoc_uicurve) :=
  mk_ssoc (ssoc_gdf s) type curve (ssoc_uic s) (ssoc_rl s) (ssoc_rl_state s) (disconnect_time s)
    (buck_enabled s) (rl_soc_threshold s) (rl_status s) (trickle s) (save_soc_available s)
    (save_soc s) (point_full_ui_soc s) (sr_state s).
Definition set_status (s : batt_ssoc_state) (x : batt_rl_status) :=
  mk_ssoc (ssoc_gdf s) (ssoc_curve_type s) (ssoc_curve s) (ssoc_uic s) (ssoc_rl s)
    (ssoc_rl_state s) (disconnect_time s) (buck_enabled s) (rl_soc_threshold s) x (trickle s)
    (save_soc_available s) (save_soc s) (point_full_ui_soc s) (sr_state s).
Definition set_sr (s : batt_ssoc_state) (x : batt_sr_state) :=
  mk_ssoc (ssoc_gdf s) (ssoc_curve_type s) (ssoc_curve s) (ssoc_uic s) (ssoc_rl s)
    (ssoc_rl_state s) (disconnect_time s) (buck_enabled s) (rl_soc_threshold s) (rl_status s)
    (trickle s) (save_soc_available s) (save_soc s) (point_full_ui_soc s) x.
Definition set_connection (s : batt_ssoc_state) (time ben : Z) (t : bd_trickle) :=
  mk_ssoc (ssoc_gdf s) (ssoc_curve_type s) (ssoc_curve s) (ssoc_uic s) (ssoc_rl s)
    (ssoc_rl_state s) time ben (rl_soc_threshold s) (rl_status s) t
    (save_soc_available s) (save_soc s) (point_full_ui_soc s) (sr_state s).
Definition set_saved (s : batt_ssoc_state) (available : bool) (x : Z) :=
  mk_ssoc (ssoc_gdf s) (ssoc_curve_type s) (ssoc_curve s) (ssoc_uic s) (ssoc_rl s)
    (ssoc_rl_state s) (disconnect_time s) (buck_enabled s) (rl_soc_threshold s) (rl_status s)
    (trickle s) available x (point_full_ui_soc s) (sr_state s).
Definition set_point_full (s : batt_ssoc_state) (x : Z) :=
  mk_ssoc (ssoc_gdf s) (ssoc_curve_type s) (ssoc_curve s) (ssoc_uic s) (ssoc_rl s)
    (ssoc_rl_state s) (disconnect_time s) (buck_enabled s) (rl_soc_threshold s) (rl_status s)
    (trickle s) (save_soc_available s) (save_soc s) x (sr_state s).

(** ** The curve *)

(** The turns of the loop from index [i] on, [n] of them left. *)
Fixpoint find_from (real : Z) (curve : list ssoc_uicurve) (n i : nat) : outcome nat :=
  match n with
  | O => Ret (i - 1)%nat
  | S n =>
    let* c := must (curve !! i) in
    if real =? c_real c then Ret i else
    if c_real c <? real then find_from real curve n (S i) else Ret (i - 1)%nat
  end.

Definition ssoc_uicurve_find (real : Z) (curve : list ssoc_uicurve) : outcome nat :=
  find_from real curve (UICURVE_MAX - 1) 1.

Definition ssoc_uicurve_map (real : Z) (curve : list ssoc_uicurve) : outcome Z :=
  let* c0 := must (curve !! 0%nat) in
  if real <? c_real c0 then Ret real else
  let* cn := must (curve !! (UICURVE_MAX - 1)%nat) in
  if c_ui cn <=? real then Ret (c_ui cn) else
  let* i := ssoc_uicurve_find real curve in
  let* c := must (curve !! i) in
  if c_real c =? real then Ret (c_ui c) else
  let* d := must (curve !! (i + 1)%nat) in
  let delta_ui := s32 (c_ui d - c_ui c) in
  let delta_re := s32 (c_real d - c_real c) in
  let* slope := if delta_re =? 0 then Ret 0 else qnum_div delta_ui delta_re in
  Ret (s32 (c_ui c + qnum_mul slope (s32 (real - c_real c)))).

Definition ssoc_uicurve_splice (curve : list ssoc_uicurve) (real ui : Z)
    : outcome (list ssoc_uicurve) :=
  let* c0 := must (curve !! 0%nat) in
  let* c2 := must (curve !! 2%nat) in
  if (real <? c_real c0) || (c_real c2 <? real) then Ret curve else
  let curve := <[1%nat := mk_point real ui]> curve in
  if c_real c2 <? real
  then Ret (<[(UICURVE_MAX - 1)%nat := mk_point ssoc_point_full (c_ui c2)]> curve)
  else Ret curve.

Definition ssoc_uicurve_splice_full (curve : list ssoc_uicurve) (real ui : Z)
    : outcome (list ssoc_uicurve) :=
  let* c1 := must (curve !! 1%nat) in
  if real <? c_real c1 then Ret curve
  else Ret (<[(UICURVE_MAX - 1)%nat := mk_point real ui]> curve).

(** ** The rate limiter *)

Fixpoint soc_ratio (rls : batt_ssoc_rl_state) (max_delta : Z) (n i : nat) : outcome Z :=
  match n with
  | O => Ret max_delta
  | S n =>
    let* limit := must (rl_delta_soc_limit rls !! i) in
    if limit =? 0 then Ret max_delta else
    if rl_ssoc_target rls <? limit then
      let* ratio := must (rl_delta_soc_ratio rls !! i) in
      if ratio =? 0 then Undef else Ret (s32 (cdiv (s64 (max_delta * 10)) ratio))
    else soc_ratio rls max_delta n (S i)
  end.

Definition ssoc_rl_max_delta (rls : batt_ssoc_rl_state) (delta_time : Z) : outcome Z :=
  let* long :=
    if rl_delta_max_time rls <? delta_time then
      if rl_delta_max_time rls =? 0 then Undef else
      Ret (100 <? cdiv (s64 (qnum_toint (rl_delta_max_soc rls) * delta_time)) (rl_delta_max_time rls))
    else Ret false in
  if (long : bool) then Ret (s32 (qnum_fromint 100)) else
  let max_delta := s32 (cdiv (s64 (rl_delta_max_soc rls * delta_time))
                     (if rl_delta_max_time rls =? 0 then 1 else rl_delta_max_time rls)) in
  if rl_fast_track rls then Ret max_delta else
  soc_ratio rls max_delta (Z.to_nat (rl_delta_soc_cnt rls)) 0.

Definition set_target (r : batt_ssoc_rl_state) (x : Z) :=
  mk_rls x (rl_ssoc_last_update r) (rl_no_zero r) (rl_fast_track r) (rl_track_target r)
    (rl_delta_max_time r) (rl_delta_max_soc r) (rl_delta_soc_ratio r) (rl_delta_soc_limit r)
    (rl_delta_soc_cnt r) (rl_ft_low_limit r) (rl_ft_delta_limit r).
Definition set_last_update (r : batt_ssoc_rl_state) (x : Z) :=
  mk_rls (rl_ssoc_target r) x (rl_no_zero r) (rl_fast_track r) (rl_track_target r)
    (rl_delta_max_time r) (rl_delta_max_soc r) (rl_delta_soc_ratio r) (rl_delta_soc_limit r)
    (rl_delta_soc_cnt r) (rl_ft_low_limit r) (rl_ft_delta_limit r).
Definition set_no_zero (r : batt_ssoc_rl_state) (x : bool) :=
  mk_rls (rl_ssoc_target r) (rl_ssoc_last_update r) x (rl_fast_track r) (rl_track_target r)
    (rl_delta_max_time r) (rl_delta_max_soc r) (rl_delta_soc_ratio r) (rl_delta_soc_limit r)
    (rl_delta_soc_cnt r) (rl_ft_low_limit r) (rl_ft_delta_limit r).
Definition set_fast_track (r : batt_ssoc_rl_state) (x : bool) :=
  mk_rls (rl_ssoc_target r) (rl_ssoc_last_update r) (rl_no_zero r) x (rl_track_target r)
    (rl_delta_max_time r) (rl_delta_max_soc r) (rl_delta_soc_ratio r) (rl_delta_soc_limit r)
    (rl_delta_soc_cnt r) (rl_ft_low_limit r) (rl_ft_delta_limit r).

(** The new level and the state of the limiter; [now] is the time since boot. *)
Definition ssoc_apply_rl (now : Z) (s : batt_ssoc_state) : outcome (Z * batt_ssoc_rl_state) :=
  let rls := ssoc_rl_state s in
  let on := negb (buck_enabled s =? 0) in
  let rls := if on || (negb on && (ssoc_uic s <? rl_ssoc_target rls))
             then set_target rls (ssoc_uic s) else rls in
  let rls := if qnum_fromint 100 <? rl_ssoc_target rls then set_target rls (s32 (qnum_fromint 100))
             else rls in
  let rls := if rl_ssoc_target rls <? qnum_fromint 0 then set_target rls (s32 (qnum_fromint 0))
             else rls in
  let* rl_val :=
    if rl_track_target rls then Ret (rl_ssoc_target rls) else
    let* max_delta := ssoc_rl_max_delta rls (s64 (now - rl_ssoc_last_update rls)) in
    let step := s32 (rl_ssoc_target rls - ssoc_rl s) in
    let step := if step <? s32 (- max_delta) then s32 (- max_delta)
                else if max_delta <? step then max_delta else step in
    Ret (s32 (ssoc_rl s + step)) in
  let rl_val := if negb on && (ssoc_rl s <? rl_val) then ssoc_rl s else rl_val in
  let rl_val := if rl_no_zero rls && (rl_val <=? qnum_fromint 1) then s32 (qnum_fromint 1) else rl_val in
  Ret (rl_val, set_last_update rls now).

Definition ssoc_get_real_raw (s : batt_ssoc_state) : Z := ssoc_gdf s.
Definition ssoc_get_capacity_raw (s : batt_ssoc_state) : Z := ssoc_rl s.
Definition ssoc_get_real (s : batt_ssoc_state) : Z := qnum_toint (ssoc_get_real_raw s).

(** [qnum_rconst(0.5)]. *)
Definition SOC_ROUND_BASE : Z := Z.shiftl 1 (QNUM_FBITS - 1).

Definition ssoc_get_capacity (s : batt_ssoc_state) : Z :=
  qnum_toint (s32 (ssoc_get_capacity_raw s + SOC_ROUND_BASE)).

(** ** Updates *)

Definition ssoc_update (now : Z) (s : batt_ssoc_state) (soc : Z) : outcome batt_ssoc_state :=
  let* uic := ssoc_uicurve_map soc (ssoc_curve s) in
  let rls := ssoc_rl_state s in
  let first := rl_ssoc_target rls =? -1 in
  let rls := if first then set_target rls uic else rls in
  let rl := if first then uic else ssoc_rl s in
  let rls := set_fast_track rls
    (rl_fast_track rls || (rl_ssoc_target rls <? rl_ft_low_limit rls)) in
  let delta := s32 (rl_ssoc_target rls - rl) in
  let rls :=
    if negb (rl_ft_delta_limit rls =? 0) && negb (buck_enabled s =? 0) && (0 <? delta) then
      set_fast_track rls (rl_fast_track rls || (rl_ft_delta_limit rls <? delta))
    else if negb (rl_ft_delta_limit rls =? 0) && (buck_enabled s =? 0) && (delta <? 0) then
      set_fast_track rls (rl_fast_track rls || (rl_ft_delta_limit rls <? s32 (- delta)))
    else rls in
  let rls := if rl_no_zero rls then set_no_zero rls (qnum_from_q8_8 128 <? rl_ssoc_target rls) else rls in
  let s := set_levels s soc uic rl rls in
  let* r := ssoc_apply_rl now s in
  Ret (set_levels s soc uic r.1 r.2).

(** [soc_q8_8]: what the fuel gauge reports. *)
Definition ssoc_work (now soc_q8_8 : Z) (s : batt_ssoc_state) : outcome (Z * batt_ssoc_state) :=
  if soc_q8_8 <? 0 then Ret (- EINVAL, s) else
  let* s := ssoc_update now s (s32 (qnum_from_q8_8 soc_q8_8)) in Ret (0, s).

Definition ssoc_change_curve_at_gdf (s : batt_ssoc_state) (gdf capacity type : Z)
    : outcome batt_ssoc_state :=
  let new_curve := if type =? SSOC_UIC_TYPE_DSG then dsg_curve else chg_curve in
  let* curve := ssoc_uicurve_splice new_curve gdf capacity in
  Ret (set_curve s type curve).

Definition ssoc_change_curve (s : batt_ssoc_state) (delta type : Z) : outcome batt_ssoc_state :=
  let full := SSOC_FULL <=? ssoc_get_capacity s in
  let rlt := s32 (qnum_fromint (rl_soc_threshold s)) in
  let gdf := ssoc_gdf s in
  let gdf := if full then s32 ((if rlt <? gdf then gdf else rlt) - delta) else gdf in
  let type := if full then SSOC_UIC_TYPE_DSG else type in
  let gdf := if ssoc_point_full <? gdf then ssoc_point_full else gdf in
  ssoc_change_curve_at_gdf s gdf (ssoc_get_capacity_raw s) type.

(** ** Recharge logic *)

Definition batt_is_trickle (s : batt_ssoc_state) : bool :=
  (bd_cnt_thr (trickle s) <? bd_cnt (trickle s)) && bd_enable (trickle s) && negb (bd_dry_run (trickle s)).

Definition batt_rl_enter (now : Z) (s : batt_ssoc_state) (status : batt_rl_status)
    : outcome (bool * batt_ssoc_state) :=
  if bool_decide (rl_status s = status) || bool_decide (rl_status s = BATT_RL_STATUS_DISCHARGE)
  then Ret (false, s) else
  let* s :=
    if bool_decide (status = BATT_RL_STATUS_DISCHARGE) then
      if batt_is_trickle s && (bd_version (trickle s) =? BD_TRICKLE_VER_SOC)
      then ssoc_change_curve s 0 SSOC_UIC_TYPE_DSG
      else Ret (set_curve s SSOC_UIC_TYPE_DSG dsg_curve)
    else Ret s in
  let* s := ssoc_update now s (ssoc_gdf s) in
  Ret (true, set_status s status).

Definition batt_rl_reset (s : batt_ssoc_state) : batt_ssoc_state := set_status s BATT_RL_STATUS_NONE.

Definition count_trickle (t : bd_trickle) : bd_trickle :=
  if bd_full t && bd_eoc t then
    mk_trickle (bd_enable t) (bd_recharge_soc t) (s32 (bd_cnt t + 1)) (bd_dry_run t) false false
      (bd_reset_sec t) (bd_cnt_thr t) (bd_version t)
  else t.

(** The notification of the power supply is the flag of the result. *)
Definition batt_rl_update_status (s : batt_ssoc_state) : bool * batt_ssoc_state :=
  if negb (bool_decide (rl_status s = BATT_RL_STATUS_DISCHARGE)) then (false, s) else
  if rl_soc_threshold s =? 0 then (false, s) else
  let threshold := if batt_is_trickle s && (bd_version (trickle s) =? BD_TRICKLE_VER_SOC)
                   then bd_recharge_soc (trickle s) else rl_soc_threshold s in
  if threshold <? ssoc_get_real s then (false, s) else
  let s := set_status s BATT_RL_STATUS_RECHARGE in
  let s := if bool_decide (sr_state s = BATT_SMART_RECHG_TRIGGER)
           then set_sr s BATT_SMART_RECHG_ENABLE else s in
  (true, set_connection s (disconnect_time s) (buck_enabled s) (count_trickle (trickle s))).

Definition batt_sr_update_state (s : batt_ssoc_state) : batt_ssoc_state :=
  if bool_decide (sr_state s = BATT_SMART_RECHG_DISABLE) then s else
  if (ssoc_get_capacity s =? SSOC_FULL) && (rl_soc_threshold s <? ssoc_get_real s)
  then set_sr s BATT_SMART_RECHG_TRIGGER else set_sr s BATT_SMART_RECHG_ENABLE.

Definition set_cnt (t : bd_trickle) (n : Z) : bd_trickle :=
  mk_trickle (bd_enable t) (bd_recharge_soc t) n (bd_dry_run t) (bd_full t) (bd_eoc t)
    (bd_reset_sec t) (bd_cnt_thr t) (bd_version t).

Definition ssoc_change_state (now : Z) (ben : bool) (s : batt_ssoc_state) : batt_ssoc_state :=
  let en := if ben then 1 else 0 in
  if negb ben then set_connection s now en (trickle s) else
  if disconnect_time s =? 0 then set_connection s (disconnect_time s) en (trickle s) else
  let elap := s64 (now - disconnect_time s) in
  let t := trickle s in
  let t := if negb (bd_reset_sec t =? 0) && (bd_reset_sec t <? elap) then set_cnt t 0 else t in
  set_connection s 0 en t.

(** A vote on the level that counts as full. *)
Definition DISABLE_POINT_FULL_UI_SOC : Z := -1.

Definition point_full_ui_soc_cb (soc : Z) (s : batt_ssoc_state) : outcome batt_ssoc_state :=
  if point_full_ui_soc s =? soc then Ret s else
  let ssoc := ssoc_get_capacity s in
  let s := set_point_full s soc in
  if negb (soc =? DISABLE_POINT_FULL_UI_SOC) && (ssoc <? SSOC_FULL) && (buck_enabled s =? 1) then
    let* curve := ssoc_uicurve_splice_full (ssoc_curve s) (s32 (qnum_fromint soc)) ssoc_point_full in
    Ret (set_point_full (set_curve s (ssoc_curve_type s) curve) DISABLE_POINT_FULL_UI_SOC)
  else Ret s.

(** ** Keeping the level over a reboot *)

Definition GBMS_TAG_RSOC : Z := 0x52534F43.
Definition RESTORE_SOC_LOWER_THRESHOLD : Z := 2.
Definition RESTORE_SOC_UPPER_THRESHOLD : Z := 5.

(** A [u16] in memory, and the same after bytes were stored at its start. *)
Definition u16_bytes (x : Z) : list Z := [Z.land x 0xff; Z.land (Z.shiftr x 8) 0xff].
Definition u16_stored (bytes : list Z) (old : Z) : Z :=
  match bytes ++ drop (length bytes) (u16_bytes old) with
  | lo :: hi :: _ => lo + 256 * hi
  | _ => old
  end.

Definition gbatt_reset_curve (now soc_q8_8 ssoc_cap : Z) (s : batt_ssoc_state)
    : outcome batt_ssoc_state :=
  let cap := s32 (qnum_fromint ssoc_cap) in
  let gdf := ssoc_gdf s in
  let type := if gdf <? cap then SSOC_UIC_TYPE_DSG else SSOC_UIC_TYPE_CHG in
  let* s := ssoc_change_curve_at_gdf s gdf cap type in
  let* r := ssoc_work now soc_q8_8 s in
  Ret r.2.

Section saved.
Context {D : Type}.

Definition gbatt_save_capacity (s : batt_ssoc_state) (st : gbms_storage D)
    : outcome (Z * batt_ssoc_state * gbms_storage D) :=
  let ui_soc := ssoc_get_capacity s in
  if negb (save_soc_available s) then Ret (0, s, st) else
  if save_soc s =? u16 ui_soc then Ret (0, s, st) else
  let s := set_saved s (save_soc_available s) (u16 ui_soc) in
  let* r := gbms_storage_write GBMS_TAG_RSOC (Some (u16_bytes (save_soc s))) 2 st in
  Ret (r.1, s, r.2).

Definition gbatt_restore_capacity (now soc_q8_8 : Z) (s : batt_ssoc_state) (st : gbms_storage D)
    : outcome (Z * batt_ssoc_state * gbms_storage D) :=
  let* r := gbms_storage_read GBMS_TAG_RSOC true 2 st in
  let '(ret, bytes, st) := r in
  if ret <? 0 then Ret (ret, s, st) else
  let s := set_saved s (save_soc_available s) (u16_stored bytes (save_soc s)) in
  let delta := s32 (save_soc s - qnum_toint (ssoc_gdf s)) in
  if (RESTORE_SOC_LOWER_THRESHOLD <=? delta) && (delta <=? RESTORE_SOC_UPPER_THRESHOLD) then
    let* s := gbatt_reset_curve now soc_q8_8 (save_soc s) s in Ret (ret, s, st)
  else Ret (ret, s, st).

(** ** Start-up *)

Context `{DeviceTree}.

Definition set_limits (r : batt_ssoc_rl_state) (limits ratios : list Z) (cnt : Z) :=
  mk_rls (rl_ssoc_target r) (rl_ssoc_last_update r) (rl_no_zero r) (rl_fast_track r)
    (rl_track_target r) (rl_delta_max_time r) (rl_delta_max_soc r) ratios limits cnt
    (rl_ft_low_limit r) (rl_ft_delta_limit r).

Definition read_or (node : Z) (name : string) (f : Z -> Z) (old : Z) : Z :=
  match of_property_read_u32 node name with inr v => f v | inl _ => old end.

(** The first [n] cells of an array of eight. *)
Definition put_cells (dst src : list Z) (n : Z) : outcome (list Z) :=
  if 0 <=? n then fill dst (take (Z.to_nat n) src) else Ret dst.

Definition ssoc_rl_read_dt (node : Z) (r : batt_ssoc_rl_state) : outcome (Z * batt_ssoc_rl_state) :=
  let soc := read_or node "google,rl_delta-max-soc" (fun v => s32 (qnum_fromint v)) (rl_delta_max_soc r) in
  let time := read_or node "google,rl_delta-max-time" (fun v => s32 v) (rl_delta_max_time r) in
  let r := mk_rls (rl_ssoc_target r) (rl_ssoc_last_update r) (rl_no_zero r) (rl_fast_track r)
    (rl_track_target r) time soc (rl_delta_soc_ratio r) (rl_delta_soc_limit r) (rl_delta_soc_cnt r)
    (rl_ft_low_limit r) (rl_ft_delta_limit r) in
  if (soc =? 0) || (time =? 0) then Ret (- EINVAL, r) else
  let r := mk_rls (rl_ssoc_target r) (rl_ssoc_last_update r)
    (of_property_read_bool node "google,rl_no-zero") (rl_fast_track r)
    (of_property_read_bool node "google,rl_track-target") time soc
    (rl_delta_soc_ratio r) (rl_delta_soc_limit r) (rl_delta_soc_cnt r)
    (read_or node "google,rl_ft-low-limit" (fun v => s32 (qnum_fromint v)) (rl_ft_low_limit r))
    (read_or node "google,rl_ft-delta-limit" (fun v => s32 (qnum_fromint v)) (rl_ft_delta_limit r)) in
  let cnt := of_property_count_elems node "google,rl_soc-limits" in
  let tmp := u32 (of_property_count_elems node "google,rl_soc-rates") in
  if negb (u32 cnt =? tmp) || (tmp =? 0)
  then Ret (0, set_limits r (rl_delta_soc_limit r) (rl_delta_soc_ratio r) 0) else
  let r := set_limits r (rl_delta_soc_limit r) (rl_delta_soc_ratio r) cnt in
  if Z.of_nat RL_DELTA_SOC_MAX <? cnt then Ret (- EINVAL, r) else
  match of_property_read_u32_array node "google,rl_soc-limits" (u64 cnt) with
  | inl e => Ret (e, r)
  | inr l =>
    let* limits := put_cells (rl_delta_soc_limit r) ((fun v => s32 (qnum_fromint v)) <$> l) cnt in
    let r := set_limits r limits (rl_delta_soc_ratio r) cnt in
    match of_property_read_u32_array node "google,rl_soc-rates" (u64 cnt) with
    | inl e => Ret (e, r)
    | inr l =>
      let* ratios := put_cells (rl_delta_soc_ratio r) ((fun v => s32 v) <$> l) cnt in
      Ret (0, set_limits r (rl_delta_soc_limit r) ratios cnt)
    end
  end.

Definition set_track (r : batt_ssoc_rl_state) :=
  mk_rls (rl_ssoc_target r) (rl_ssoc_last_update r) (rl_no_zero r) (rl_fast_track r) true
    (rl_delta_max_time r) (rl_delta_max_soc r) (rl_delta_soc_ratio r) (rl_delta_soc_limit r)
    (rl_delta_soc_cnt r) (rl_ft_low_limit r) (rl_ft_delta_limit r).

Definition ssoc_init (node now soc_q8_8 : Z) (s : batt_ssoc_state) (st : gbms_storage D)
    : outcome (Z * batt_ssoc_state * gbms_storage D) :=
  let* r := ssoc_rl_read_dt node (ssoc_rl_state s) in
  let rls := if r.1 <? 0 then set_track r.2 else r.2 in
  let s := set_levels s (ssoc_gdf s) (ssoc_uic s) (ssoc_rl s) (set_target rls (-1)) in
  let s := set_curve s SSOC_UIC_TYPE_NONE chg_curve in
  let* w := ssoc_work now soc_q8_8 s in
  let s := w.2 in
  if w.1 <? 0 then Ret (- EIO, s, st) else
  let capacity := ssoc_get_capacity s in
  let* curve :=
    if SSOC_FULL <=? capacity then Ret dsg_curve else
    if capacity <? SSOC_TRUE then Ret (ssoc_curve s) else
    if capacity <? SSOC_SPOOF then ssoc_uicurve_splice (ssoc_curve s) (ssoc_gdf s) (ssoc_rl s)
    else Ret (ssoc_curve s) in
  let s := set_curve s (ssoc_curve_type s) curve in
  let* g := gbatt_restore_capacity now soc_q8_8 s st in
  let '(ret, s, st) := g in
  let s := if ret <? 0 then s else set_saved s true (save_soc s) in
  Ret (0, set_sr s BATT_SMART_RECHG_ENABLE, st).

End saved.
