(* ===== verification/SsocCurve.v ===== *)
(** * The curve of the displayed state of charge (src/bms/google_battery.c, the ssoc_uicurve functions)

    The curves the driver builds have three points: the identity ends at the first, [u] is
    shown at the level [r] of the second, and the third is the full battery.  On such a curve
    [ssoc_uicurve_map] returns, grows with the level and goes through the second point. *)

From S2P Require Import Prelude Ttf Ssoc.

(** ** The curves that occur *)

(** [a]: where the curve leaves the identity; [f]: full.  The slopes fit a [qnum_t]. *)
Record curve_ok (a r u f : Z) : Prop := {
  ck_true : 0 <= a;
  ck_real : a <= r <= f;
  ck_ui : a <= u <= f;
  ck_full : f < 2 ^ 31;
  ck_low : a < r -> u - a < 128 * (r - a);
  ck_high : r < f -> f - u < 128 * (f - r);
}.

Definition three_points (a r u f : Z) : list ssoc_uicurve :=
  [mk_point a a; mk_point r u; mk_point f f].

Lemma chg_curve_points :
  chg_curve = three_points ssoc_point_true ssoc_point_spoof ssoc_point_spoof ssoc_point_full.
Proof. done. Qed.

Lemma dsg_curve_points :
  dsg_curve = three_points ssoc_point_true ssoc_point_spoof ssoc_point_full ssoc_point_full.
Proof. done. Qed.

(** ** One segment *)

(** What [ssoc_uicurve_map] computes between the points [(x0, y0)] and [(x1, y1)]. *)
Definition slope (x0 y0 x1 y1 : Z) : Z := (y1 - y0) * 2 ^ 24 / (x1 - x0).
Definition on_segment (x0 y0 x1 y1 x : Z) : Z := y0 + slope x0 y0 x1 y1 * (x - x0) / 2 ^ 24.

Section segment.
Context (x0 y0 x1 y1 : Z) (Hx : x0 < x1) (Hy : 0 <= y0 <= y1) (Htop : y1 < 2 ^ 31)
  (Hslope : y1 - y0 < 128 * (x1 - x0)).

Lemma slope_range : 0 <= slope x0 y0 x1 y1 < 2 ^ 31.
Proof. unfold slope. split; [apply Z.div_pos; lia|apply Z.div_lt_upper_bound; lia]. Qed.

Lemma slope_rise x : x0 <= x <= x1 -> slope x0 y0 x1 y1 * (x - x0) <= (y1 - y0) * 2 ^ 24.
Proof.
  intros Hin. pose proof slope_range. unfold slope in *.
  pose proof (Z.mul_div_le ((y1 - y0) * 2 ^ 24) (x1 - x0)). nia.
Qed.

Lemma segment_between x : x0 <= x <= x1 -> y0 <= on_segment x0 y0 x1 y1 x <= y1.
Proof.
  intros Hin. unfold on_segment. pose proof (slope_rise x Hin). pose proof slope_range.
  split; [pose proof (Z.div_pos (slope x0 y0 x1 y1 * (x - x0)) (2 ^ 24)); nia|].
  enough (slope x0 y0 x1 y1 * (x - x0) / 2 ^ 24 <= y1 - y0) by lia.
  apply Z.div_le_upper_bound; lia.
Qed.

Lemma segment_mono x x' : x0 <= x <= x' -> on_segment x0 y0 x1 y1 x <= on_segment x0 y0 x1 y1 x'.
Proof.
  intros Hin. unfold on_segment. pose proof slope_range.
  apply Z.add_le_mono_l, Z.div_le_mono; [lia|]. apply Z.mul_le_mono_nonneg_l; lia.
Qed.

(** Rounding down twice loses less than two units for each unit of [x1 - x0]. *)
Lemma segment_near x : x0 <= x <= x1 ->
  let line := (y1 - y0) * (x - x0) in
  let v := (on_segment x0 y0 x1 y1 x - y0) * (x1 - x0) in
  v <= line /\ line * 2 ^ 24 < v * 2 ^ 24 + (x1 - x0) * (x - x0 + 2 ^ 24).
Proof.
  intros Hin line v.
  set (m := slope x0 y0 x1 y1). set (q := m * (x - x0) / 2 ^ 24).
  assert (Hv : v = q * (x1 - x0)) by (unfold v, on_segment; fold m; fold q; lia).
  assert (Hm : (x1 - x0) * m <= (y1 - y0) * 2 ^ 24 < (x1 - x0) * m + (x1 - x0)).
  { unfold m, slope. pose proof (Z.div_mod ((y1 - y0) * 2 ^ 24) (x1 - x0)).
    pose proof (Z.mod_pos_bound ((y1 - y0) * 2 ^ 24) (x1 - x0)). lia. }
  assert (Hq : 2 ^ 24 * q <= m * (x - x0) < 2 ^ 24 * q + 2 ^ 24).
  { unfold q. pose proof (Z.div_mod (m * (x - x0)) (2 ^ 24)).
    pose proof (Z.mod_pos_bound (m * (x - x0)) (2 ^ 24)). lia. }
  rewrite Hv. unfold line. clearbody m q. set (w := x1 - x0) in *. set (t := x - x0) in *.
  set (h := y1 - y0) in *. assert (0 <= t <= w) by (subst t w; lia). assert (0 < w) by (subst w; lia).
  clearbody w t h. split.
  - enough (2 ^ 24 * (q * w) <= 2 ^ 24 * (h * t)) by lia. nia.
  - nia.
Qed.

Lemma map_segment x : 0 <= x0 -> x1 < 2 ^ 31 -> x0 <= x < x1 ->
  (let* k := (if s32 (x1 - x0) =? 0 then Ret 0 else qnum_div (s32 (y1 - y0)) (s32 (x1 - x0))) in
   Ret (s32 (y0 + qnum_mul k (s32 (x - x0))))) = Ret (on_segment x0 y0 x1 y1 x).
Proof.
  intros H0 H1 Hin. wrap_small. rewrite (proj2 (Z.eqb_neq _ 0)) by lia.
  unfold qnum_div. rewrite (proj2 (Z.eqb_neq _ 0)) by lia. run.
  change QNUM_FBITS with 24. rewrite Z.shiftl_mul_pow2, Z.quot_div_nonneg by lia.
  fold (slope x0 y0 x1 y1). pose proof slope_range. rewrite (swrap_id 32 (slope _ _ _ _)) by lia.
  unfold qnum_mul. change QNUM_FBITS with 24. rewrite Z.shiftr_div_pow2 by lia.
  pose proof (segment_between x). unfold on_segment in *.
  rewrite (swrap_id 32 (_ / _)) by lia. rewrite swrap_id by lia. done.
Qed.

End segment.

(** ** The map *)

(** What is shown at the level [x]. *)
Definition shown (a r u f x : Z) : Z :=
  if x <? a then x else if f <=? x then f else if x =? r then u else
  if x <? r then on_segment a a r u x else on_segment r u f f x.

Lemma map_shown a r u f x :
  curve_ok a r u f -> ssoc_uicurve_map x (three_points a r u f) = Ret (shown a r u f x).
Proof.
  intros [Ha Hr Hu Hf Hl Hh]. unfold ssoc_uicurve_map, shown. cbn -[Z.ltb Z.leb qnum_mul].
  destruct (Z.ltb_spec x a); [done|]. destruct (Z.leb_spec f x); [done|].
  unfold ssoc_uicurve_find, find_from. cbn -[Z.ltb Z.leb Z.eqb qnum_mul qnum_div].
  destruct (Z.eqb_spec x r) as [->|Hne]; run.
  { cbn -[Z.ltb Z.leb Z.eqb qnum_mul qnum_div]. by rewrite Z.eqb_refl. }
  destruct (Z.ltb_spec r x).
  - rewrite (proj2 (Z.eqb_neq x f)), (proj2 (Z.ltb_ge f x)), (proj2 (Z.ltb_ge x r)) by lia. run.
    cbn -[Z.ltb Z.leb Z.eqb qnum_mul qnum_div]. rewrite (proj2 (Z.eqb_neq r x)) by lia.
    apply map_segment; lia.
  - rewrite (proj2 (Z.ltb_lt x r)) by lia. run.
    cbn -[Z.ltb Z.leb Z.eqb qnum_mul qnum_div]. destruct (Z.eqb_spec a x) as [->|].
    + f_equal. unfold on_segment. rewrite Z.sub_diag, Z.mul_0_r, Z.div_0_l; lia.
    + apply map_segment; lia.
Qed.

Section shown.
Context (a r u f : Z) (Hok : curve_ok a r u f).

Lemma shown_low x : a <= x < r ->
  shown a r u f x = on_segment a a r u x /\ a <= shown a r u f x <= u.
Proof.
  destruct Hok as [Ha Hr Hu Hf Hl Hh]. intros Hx.
  assert (E : shown a r u f x = on_segment a a r u x).
  { unfold shown. rewrite (proj2 (Z.ltb_ge x a)), (proj2 (Z.leb_gt f x)) by lia.
    by rewrite (proj2 (Z.eqb_neq x r)), (proj2 (Z.ltb_lt x r)) by lia. }
  split; [done|]. rewrite E. apply segment_between; lia.
Qed.

Lemma shown_high x : r < x < f ->
  shown a r u f x = on_segment r u f f x /\ u <= shown a r u f x <= f.
Proof.
  destruct Hok as [Ha Hr Hu Hf Hl Hh]. intros Hx.
  assert (E : shown a r u f x = on_segment r u f f x).
  { unfold shown. rewrite (proj2 (Z.ltb_ge x a)), (proj2 (Z.leb_gt f x)) by lia.
    by rewrite (proj2 (Z.eqb_neq x r)), (proj2 (Z.ltb_ge x r)) by lia. }
  split; [done|]. rewrite E. apply segment_between; lia.
Qed.

Lemma shown_above x : f <= x -> shown a r u f x = f.
Proof.
  destruct Hok as [Ha Hr Hu Hf Hl Hh]. intros Hx. unfold shown.
  by rewrite (proj2 (Z.ltb_ge x a)), (proj2 (Z.leb_le f x)) by lia.
Qed.

Lemma shown_below x : x < a -> shown a r u f x = x.
Proof. intros Hx. unfold shown. by rewrite (proj2 (Z.ltb_lt x a)) by lia. Qed.

Lemma shown_splice : r < f -> shown a r u f r = u.
Proof.
  destruct Hok as [Ha Hr Hu Hf Hl Hh]. intros Hx. unfold shown.
  by rewrite (proj2 (Z.ltb_ge r a)), (proj2 (Z.leb_gt f r)), Z.eqb_refl by lia.
Qed.

(** The five places a level can be at. *)
Lemma level_places x : x < a \/ a <= x < r \/ (x = r /\ r < f) \/ r < x < f \/ f <= x.
Proof. destruct Hok. lia. Qed.

Lemma shown_range x : a <= x -> a <= shown a r u f x <= f.
Proof.
  destruct Hok as [Ha Hr Hu Hf Hl Hh]. intros Hx.
  destruct (level_places x) as [?|[?|[[-> ?]|[?|?]]]]; [lia| | | |].
  - pose proof (shown_low x). lia.
  - rewrite shown_splice; lia.
  - pose proof (shown_high x). lia.
  - rewrite shown_above; lia.
Qed.

Lemma shown_mono x y : x <= y -> shown a r u f x <= shown a r u f y.
Proof.
  destruct Hok as [Ha Hr Hu Hf Hl Hh]. intros Hxy.
  destruct (level_places x) as [?|[?|[[-> ?]|[?|?]]]].
  - rewrite (shown_below x) by lia. destruct (Z.lt_ge_cases y a).
    + rewrite shown_below; lia.
    + pose proof (shown_range y). lia.
  - destruct (shown_low x) as [Ex Bx]; [lia|].
    destruct (level_places y) as [?|[?|[[-> ?]|[?|?]]]]; [lia| | | |].
    + destruct (shown_low y) as [-> _]; [lia|]. rewrite Ex. apply segment_mono; lia.
    + rewrite shown_splice; lia.
    + pose proof (shown_high y). lia.
    + rewrite (shown_above y); lia.
  - rewrite shown_splice by lia.
    destruct (level_places y) as [?|[?|[[-> ?]|[?|?]]]]; [lia|lia| | |].
    + rewrite shown_splice; lia.
    + pose proof (shown_high y). lia.
    + rewrite (shown_above y); lia.
  - destruct (shown_high x) as [Ex Bx]; [lia|].
    destruct (level_places y) as [?|[?|[[-> ?]|[?|?]]]]; [lia|lia|lia| |].
    + destruct (shown_high y) as [-> _]; [lia|]. rewrite Ex. apply segment_mono; lia.
    + rewrite (shown_above y); lia.
  - rewrite !shown_above; lia.
Qed.

End shown.

(** ** The property *)

(** On a curve of the driver the displayed level is a function of the gauge that the
    user can trust: [ssoc_uicurve_map] returns for every level, never decreases when the gauge
    increases, shows the gauge below the first point, exactly the second point where the curve
    was spliced and full from the third point on, and in between stays between the points and
    below the straight lines that join them, by less than 129 units of the last place. *)
Theorem ssoc_uicurve_map_interpolates a r u f :
  curve_ok a r u f ->
  exists v, (forall x, ssoc_uicurve_map x (three_points a r u f) = Ret (v x)) /\
    (forall x y, x <= y -> v x <= v y) /\
    (forall x, x < a -> v x = x) /\ (forall x, f <= x -> v x = f) /\ (r < f -> v r = u) /\
    (forall x, a <= x < r -> a <= v x <= u /\
       0 <= (u - a) * (x - a) - (v x - a) * (r - a) < 129 * (r - a)) /\
    (forall x, r < x < f -> u <= v x <= f /\
       0 <= (f - u) * (x - r) - (v x - u) * (f - r) < 129 * (f - r)).
Proof.
  intros Hok. exists (shown a r u f). split_and!.
  - intros x. by apply map_shown.
  - intros x y. by apply shown_mono.
  - by apply shown_below.
  - by apply shown_above.
  - by apply shown_splice.
  - intros x Hx. destruct (shown_low a r u f Hok x Hx) as [E ?]. split; [done|]. rewrite E.
    destruct Hok. edestruct (segment_near a a r u) with (x := x) as [? ?]; [lia..|]. nia.
  - intros x Hx. destruct (shown_high a r u f Hok x Hx) as [E ?]. split; [done|]. rewrite E.
    destruct Hok. edestruct (segment_near r u f f) with (x := x) as [? ?]; [lia..|]. nia.
Qed.

(** ** Splicing *)

Lemma map_through f0 r u p x :
  c_real f0 <= r -> r < c_ui p -> x = r ->
  ssoc_uicurve_map x [f0; mk_point r u; p] = Ret u.
Proof.
  intros H0 H1 ->. unfold ssoc_uicurve_map. cbn -[Z.ltb Z.leb Z.eqb qnum_mul qnum_div].
  rewrite (proj2 (Z.ltb_ge r _)), (proj2 (Z.leb_gt _ r)) by lia.
  unfold ssoc_uicurve_find, find_from. cbn -[Z.ltb Z.leb Z.eqb qnum_mul qnum_div].
  rewrite Z.eqb_refl. run. cbn -[Z.ltb Z.leb Z.eqb qnum_mul qnum_div]. by rewrite Z.eqb_refl.
Qed.

(** The curve that is spliced at a level inside its range. *)
Lemma change_curve_at_gdf_points s gdf capacity type :
  ssoc_point_true <= gdf <= ssoc_point_full ->
  ssoc_change_curve_at_gdf s gdf capacity type =
    Ret (set_curve s type (three_points ssoc_point_true gdf capacity ssoc_point_full)).
Proof.
  intros Hg. unfold ssoc_change_curve_at_gdf, ssoc_uicurve_splice.
  assert (E : forall c, c = chg_curve \/ c = dsg_curve ->
    exists q, c = [mk_point ssoc_point_true ssoc_point_true; q;
                   mk_point ssoc_point_full ssoc_point_full]).
  { intros c [-> | ->]; by eexists. }
  destruct (E (if type =? SSOC_UIC_TYPE_DSG then dsg_curve else chg_curve)) as [q ->];
    [destruct (_ =? _); auto|].
  cbn -[Z.ltb ssoc_point_true ssoc_point_full].
  by rewrite (proj2 (Z.ltb_ge gdf _)), (proj2 (Z.ltb_ge ssoc_point_full gdf)) by lia.
Qed.

Lemma capacity_full s : - 2 ^ 31 <= ssoc_rl s <= ssoc_point_full ->
  (SSOC_FULL <=? ssoc_get_capacity s) = (qnum_fromint SSOC_FULL - SOC_ROUND_BASE <=? ssoc_rl s).
Proof.
  intros Hr. unfold ssoc_get_capacity, ssoc_get_capacity_raw, qnum_toint.
  change ssoc_point_full with 1677721650 in *. change SOC_ROUND_BASE with (2 ^ 23).
  change (qnum_fromint SSOC_FULL) with (100 * 2 ^ 24). change QNUM_FBITS with 24.
  change SSOC_FULL with 100.
  rewrite (swrap_id 32 (_ + _)), Z.shiftr_div_pow2 by lia.
  assert (- 128 <= (ssoc_rl s + 2 ^ 23) / 2 ^ 24 <= 100).
  { split; [apply Z.div_le_lower_bound|apply Z.lt_succ_r, Z.div_lt_upper_bound]; lia. }
  rewrite swrap_id by lia.
  pose proof (Z.div_mod (ssoc_rl s + 2 ^ 23) (2 ^ 24)).
  pose proof (Z.mod_pos_bound (ssoc_rl s + 2 ^ 23) (2 ^ 24)).
  apply Bool.eq_iff_eq_true. rewrite !Z.leb_le. lia.
Qed.

Definition percent (n : Z) : Z := n * 2 ^ 24.

(** Connecting and disconnecting do not make the number jump.  Under 100% the curve that
    [ssoc_change_curve] installs, for either type, shows at the present gauge level the level
    the user sees.  At 100% it is the discharge curve, and the level stays what it is until
    the gauge falls [delta] below the higher of its level and the recharge threshold, provided
    [delta] is between 1% and what leaves the splice a percent above the first point. *)
Theorem ssoc_change_curve_keeps_level s delta type :
  ssoc_point_true <= ssoc_gdf s < ssoc_point_full -> 0 <= ssoc_rl s <= ssoc_point_full ->
  0 <= rl_soc_threshold s <= 100 ->
  (ssoc_get_capacity s < SSOC_FULL ->
   exists s', ssoc_change_curve s delta type = Ret s' /\ ssoc_curve_type s' = type /\
     ssoc_uicurve_map (ssoc_gdf s') (ssoc_curve s') = Ret (ssoc_rl s)) /\
  (let top := Z.max (ssoc_gdf s) (qnum_fromint (rl_soc_threshold s)) in
   SSOC_FULL <= ssoc_get_capacity s -> percent 1 <= delta <= top - ssoc_point_true - percent 1 ->
   exists s', ssoc_change_curve s delta type = Ret s' /\ ssoc_curve_type s' = SSOC_UIC_TYPE_DSG /\
     ssoc_uicurve_map (top - delta) (ssoc_curve s') = Ret (ssoc_rl s) /\
     forall x, top - delta <= x ->
       exists v, ssoc_uicurve_map x (ssoc_curve s') = Ret v /\ ssoc_rl s <= v).
Proof.
  intros Hg Hl Ht. unfold ssoc_change_curve. pose proof (capacity_full s ltac:(lia)) as Hc.
  change (qnum_fromint SSOC_FULL - SOC_ROUND_BASE) with (percent 100 - 2 ^ 23) in Hc.
  assert (Et : ssoc_point_true = percent 15 + 7) by done.
  assert (Ef : ssoc_point_full = percent 100 + 50) by done.
  unfold percent in *. split.
  - intros Hlow. rewrite (proj2 (Z.leb_gt _ _) Hlow), (proj2 (Z.ltb_ge ssoc_point_full _)) by lia.
    rewrite change_curve_at_gdf_points by lia. eexists; split_and!; [done|done|].
    apply map_through; cbn; lia.
  - intros Hfull Hd. apply Z.leb_le in Hfull as Hb. rewrite Hb. rewrite Hb in Hc.
    clear Hb. symmetry in Hc. apply Z.leb_le in Hc.
    assert (Hthr : qnum_fromint (rl_soc_threshold s) = rl_soc_threshold s * 2 ^ 24)
      by (unfold qnum_fromint; rewrite Z.shiftl_mul_pow2; done).
    rewrite Hthr in *. rewrite (swrap_id 32 (rl_soc_threshold s * 2 ^ 24)) by lia.
    set (top := Z.max (ssoc_gdf s) (rl_soc_threshold s * 2 ^ 24)) in *.
    replace (if _ <? ssoc_gdf s then _ else _) with top by (unfold top; case_test; lia).
    assert (0 <= top <= ssoc_point_full) by lia. rewrite swrap_id by lia.
    rewrite (proj2 (Z.ltb_ge ssoc_point_full _)) by lia.
    rewrite change_curve_at_gdf_points by lia. eexists; split_and!; [done|done| |].
    + apply map_through; cbn -[ssoc_point_true ssoc_point_full]; lia.
    + assert (Hok : curve_ok ssoc_point_true (top - delta) (ssoc_rl s) ssoc_point_full) by (split; lia).
      intros x Hx. cbn -[three_points ssoc_point_true ssoc_point_full].
      rewrite map_shown by done. eexists; split; [done|].
      rewrite <- (shown_splice ssoc_point_true (top - delta) (ssoc_rl s) ssoc_point_full) by (done || lia).
      by apply shown_mono.
Qed.
