(* ===== verification/SsocLimit.v ===== *)
(** * The rate limiter of the state of charge (src/bms/google_battery.c, ssoc_apply_rl)

    What one update does to the displayed level, in closed form; from it that the level stays
    a percentage, does not rise while the charger is away, and reaches the level of the curve
    after a bounded number of updates. *)

From S2P Require Import Prelude Ttf Ssoc SsocCurve.

(** ** Configurations *)

Definition full_level : Z := qnum_fromint 100.

Definition ratio_ok (top : Z) (x : Z) : Prop := 8 <= x <= top.

(** [m] percent in [rl_delta_max_time] seconds, at most [8/10] of the time and [top/10] of it
    where a rate is configured. *)
Record rls_ok (m top : Z) (r : batt_ssoc_rl_state) : Prop := {
  ro_time : 1 <= rl_delta_max_time r < 2 ^ 31;
  ro_m : 1 <= m <= 100;
  ro_soc : rl_delta_max_soc r = qnum_fromint m;
  ro_top : 10 <= top < 2 ^ 31;
  ro_limit : (Z.to_nat (rl_delta_soc_cnt r) <= length (rl_delta_soc_limit r))%nat;
  ro_ratios : (Z.to_nat (rl_delta_soc_cnt r) <= length (rl_delta_soc_ratio r))%nat;
  ro_ratio : Forall (ratio_ok top) (take (Z.to_nat (rl_delta_soc_cnt r)) (rl_delta_soc_ratio r));
}.

(** What every second allows for at least. *)
Definition min_step (m top : Z) (r : batt_ssoc_rl_state) : Z :=
  m * 2 ^ 24 / rl_delta_max_time r * 10 / top.

(** ** The largest change *)

Lemma soc_ratio_range m top r d n i :
  rls_ok m top r -> 0 <= d < 102 * 2 ^ 24 -> (i + n <= Z.to_nat (rl_delta_soc_cnt r))%nat ->
  exists x, soc_ratio r d n i = Ret x /\ 0 <= x < 2 ^ 31 /\ 8 * x <= 10 * d /\ d * 10 / top <= x.
Proof.
  intros Hr Hd. pose proof (ro_top _ _ _ Hr) as Ht.
  assert (Hbase : d * 10 / top <= d) by (apply Z.div_le_upper_bound; nia).
  revert i. induction n as [|n IH]; intros i Hi; cbn [soc_ratio]; [exists d; split_and!; (done || lia)|].
  destruct (lookup_lt_is_Some_2 (rl_delta_soc_limit r) i) as [limit El].
  { pose proof (ro_limit _ _ _ Hr). lia. }
  rewrite El. run. destruct (Z.eqb_spec limit 0); [exists d; split_and!; (done || lia)|].
  case_test; [|apply IH; lia].
  destruct (lookup_lt_is_Some_2 (rl_delta_soc_ratio r) i) as [x Ex].
  { pose proof (ro_ratios _ _ _ Hr). lia. }
  rewrite Ex. run.
  assert (Hx : ratio_ok top x).
  { eapply Forall_forall; [apply (ro_ratio _ _ _ Hr)|]. apply list_elem_of_lookup. exists i.
    rewrite lookup_take_lt by lia. done. }
  unfold ratio_ok in Hx. rewrite (proj2 (Z.eqb_neq x 0)) by lia.
  rewrite (swrap_id 64) by lia. rewrite Z.quot_div_nonneg by lia.
  assert (0 <= d * 10 / x < 2 ^ 31).
  { split; [apply Z.div_pos; lia|]. apply Z.div_lt_upper_bound; lia. }
  rewrite swrap_id by lia. pose proof (Z.mul_div_le (d * 10) x).
  eexists; split_and!; [done|lia|lia|nia|]. apply Z.div_le_compat_l; lia.
Qed.

Lemma max_delta_range m top r dt :
  rls_ok m top r -> 0 <= dt < 2 ^ 32 ->
  exists d, ssoc_rl_max_delta r dt = Ret d /\ 0 <= d < 2 ^ 31 /\
    (1 <= dt -> min_step m top r <= d) /\ 8 * rl_delta_max_time r * d <= 10 * m * 2 ^ 24 * dt.
Proof.
  intros Hr Hdt. pose proof Hr as [Htime Hm Hsoc Htop _ _ _]. unfold ssoc_rl_max_delta.
  assert (Esoc : qnum_fromint m = m * 2 ^ 24) by (unfold qnum_fromint; by rewrite Z.shiftl_mul_pow2).
  assert (Em : qnum_toint (rl_delta_max_soc r) = m).
  { rewrite Hsoc, Esoc. unfold qnum_toint. change QNUM_FBITS with 24.
    rewrite Z.shiftr_div_pow2, Z.div_mul by lia. apply swrap_id; lia. }
  set (time := rl_delta_max_time r) in *.
  assert (Hmin : min_step m top r <= m * 2 ^ 24).
  { unfold min_step. fold time. apply Z.div_le_upper_bound; [lia|].
    pose proof (Z.mul_div_le (m * 2 ^ 24) time). nia. }
  assert (Hlong : forall b : bool, (b = false -> dt <= time \/ m * dt / time <= 100) ->
    (b = true -> 100 < m * dt / time) ->
    exists d, (let* long := Ret b in if (long : bool) then Ret (s32 (qnum_fromint 100)) else
      let max_delta := s32 (cdiv (s64 (rl_delta_max_soc r * dt)) time) in
      if rl_fast_track r then Ret max_delta
      else soc_ratio r max_delta (Z.to_nat (rl_delta_soc_cnt r)) 0) = Ret d /\
      0 <= d < 2 ^ 31 /\ (1 <= dt -> min_step m top r <= d) /\ 8 * time * d <= 10 * m * 2 ^ 24 * dt).
  { intros [|] Hb Hb'; run.
    - change (qnum_fromint 100) with (100 * 2 ^ 24). rewrite swrap_id by lia.
      specialize (Hb' eq_refl). pose proof (Z.mul_div_le (m * dt) time).
      eexists; split_and!; [done|lia|lia|lia|nia].
    - rewrite Hsoc, Esoc.
      assert (0 <= m * dt <= 100 * 2 ^ 32) by nia.
      rewrite (swrap_id 64) by lia.
      rewrite Z.quot_div_nonneg by lia.
      assert (Hd : 0 <= m * 2 ^ 24 * dt / time < 102 * 2 ^ 24).
      { split; [apply Z.div_pos; lia|]. apply Z.div_lt_upper_bound; [lia|].
        destruct Hb as [Hb|Hb]; [done|nia|].
        pose proof (Z.div_mod (m * dt) time). pose proof (Z.mod_pos_bound (m * dt) time). nia. }
      rewrite (swrap_id 32) by lia.
      assert (Hrate : time * (m * 2 ^ 24 * dt / time) <= m * 2 ^ 24 * dt) by (apply Z.mul_div_le; lia).
      assert (Hstep : 1 <= dt -> min_step m top r <= m * 2 ^ 24 * dt / time * 10 / top).
      { intros. unfold min_step. fold time. apply Z.div_le_mono; [lia|]. apply Z.mul_le_mono_nonneg_r; [lia|].
        apply Z.div_le_mono; nia. }
      destruct (rl_fast_track r).
      + eexists; split_and!; [done|lia|lia| |nia]. intros H1. specialize (Hstep H1).
        set (d := m * 2 ^ 24 * dt / time) in *. clearbody d.
        assert (d * 10 / top <= d) by (apply Z.div_le_upper_bound; nia). lia.
      + destruct (soc_ratio_range m top r (m * 2 ^ 24 * dt / time)
          (Z.to_nat (rl_delta_soc_cnt r)) 0 Hr Hd) as (x & -> & Hx & Hle & Hge); [lia|].
        eexists; split_and!; [done|lia|lia|lia|nia]. }
  assert (Ez : (time =? 0) = false) by (apply Z.eqb_neq; lia). rewrite Ez.
  destruct (Z.ltb_spec time dt); [|apply (Hlong false); [auto|done]].
  rewrite Em. assert (0 <= m * dt <= 100 * 2 ^ 32) by nia.
  rewrite (swrap_id 64), Z.quot_div_nonneg by lia.
  apply Hlong; intros E; [apply Z.ltb_ge in E; auto|by apply Z.ltb_lt in E].
Qed.

(** ** One application of the limiter *)

Definition connected (s : batt_ssoc_state) : bool := negb (buck_enabled s =? 0).

Definition next_target (s : batt_ssoc_state) : Z :=
  let target := rl_ssoc_target (ssoc_rl_state s) in
  Z.max 0 (Z.min full_level (if connected s then ssoc_uic s else Z.min (ssoc_uic s) target)).

(** [d]: the largest change. *)
Definition next_level (s : batt_ssoc_state) (d : Z) : Z :=
  let v := if rl_track_target (ssoc_rl_state s) then next_target s
           else Z.max (ssoc_rl s - d) (Z.min (ssoc_rl s + d) (next_target s)) in
  let v := if connected s then v else Z.min v (ssoc_rl s) in
  if rl_no_zero (ssoc_rl_state s) then Z.max v (percent 1) else v.

Create HintDb ssoc.

Lemma rls_ok_set_target m top r x : rls_ok m top r -> rls_ok m top (set_target r x).
Proof. by intros []. Qed.
Lemma rls_ok_set_last m top r x : rls_ok m top r -> rls_ok m top (set_last_update r x).
Proof. by intros []. Qed.
Lemma rls_ok_set_no_zero m top r x : rls_ok m top r -> rls_ok m top (set_no_zero r x).
Proof. by intros []. Qed.
Lemma rls_ok_set_fast m top r x : rls_ok m top r -> rls_ok m top (set_fast_track r x).
Proof. by intros []. Qed.
#[export] Hint Resolve rls_ok_set_target rls_ok_set_last rls_ok_set_no_zero rls_ok_set_fast : ssoc.

Lemma set_target_same r : set_target r (rl_ssoc_target r) = r.
Proof. by destruct r. Qed.
Lemma set_target_twice r x y : set_target (set_target r x) y = set_target r y.
Proof. done. Qed.

Lemma set_target_if (b : bool) r x y :
  (if b then set_target (set_target r x) y else set_target r x) = set_target r (if b then y else x).
Proof. by destruct b. Qed.

(** The three adjustments of the target in a row. *)
Lemma target_adjusted s :
  let rls := ssoc_rl_state s in
  let on := connected s in
  let r1 := if on || (negb on && (ssoc_uic s <? rl_ssoc_target rls)) then set_target rls (ssoc_uic s)
            else rls in
  let r2 := if qnum_fromint 100 <? rl_ssoc_target r1 then set_target r1 (s32 (qnum_fromint 100)) else r1 in
  (if rl_ssoc_target r2 <? qnum_fromint 0 then set_target r2 (s32 (qnum_fromint 0)) else r2)
  = set_target rls (next_target s).
Proof.
  intros rls on r1.
  assert (E1 : r1 = set_target rls (if on then ssoc_uic s else Z.min (ssoc_uic s) (rl_ssoc_target rls))).
  { unfold r1. destruct on; cbn [orb negb andb]; [done|]. case_test.
    - by rewrite Z.min_l by lia.
    - by rewrite Z.min_r, set_target_same by lia. }
  rewrite E1. clear r1 E1.
  set (t := if on then _ else _). intros r2.
  assert (E2 : r2 = set_target rls (Z.min full_level t)).
  { unfold r2. cbn [rl_ssoc_target set_target]. rewrite set_target_if. f_equal.
    change (s32 (qnum_fromint 100)) with full_level. change (qnum_fromint 100) with full_level.
    case_test; lia. }
  rewrite E2. cbn [rl_ssoc_target set_target]. rewrite set_target_if. f_equal.
  change (s32 (qnum_fromint 0)) with 0. change (qnum_fromint 0) with 0.
  unfold next_target. fold rls on t. case_test; lia.
Qed.

Lemma next_target_range s : 0 <= next_target s <= full_level.
Proof. unfold next_target. assert (0 <= full_level) by done. lia. Qed.

(** The two tests behind the limiter. *)
Lemma gates (on no_zero : bool) v rl x :
  (let v := if negb on && (rl <? v) then rl else v in if no_zero && (v <=? x) then x else v)
  = (let v := if on then v else Z.min v rl in if no_zero then Z.max v x else v).
Proof.
  cbv zeta. assert (E : (if negb on && (rl <? v) then rl else v) = if on then v else Z.min v rl).
  { destruct on; run; [done|]. apply if_ltb_min. }
  rewrite E. destruct no_zero; run; [|done]. case_test; lia.
Qed.

Lemma apply_rl_level m top now s :
  let rls := ssoc_rl_state s in
  rls_ok m top rls -> 0 <= ssoc_rl s <= ssoc_point_full ->
  0 <= now - rl_ssoc_last_update rls < 2 ^ 32 ->
  exists d, 0 <= d < 2 ^ 31 /\ (1 <= now - rl_ssoc_last_update rls -> min_step m top rls <= d) /\
    8 * rl_delta_max_time rls * d <= 10 * m * 2 ^ 24 * (now - rl_ssoc_last_update rls) /\
    ssoc_apply_rl now s =
      Ret (next_level s d, set_last_update (set_target rls (next_target s)) now).
Proof.
  intros rls Hr Hl Hdt. unfold ssoc_apply_rl. fold (connected s). fold rls.
  pose proof (target_adjusted s) as Ht. cbv zeta in Ht. fold rls in Ht. rewrite Ht. clear Ht.
  cbn [rl_track_target rl_no_zero rl_ssoc_target rl_ssoc_last_update set_target].
  rewrite (swrap_id 64) by lia.
  destruct (max_delta_range m top (set_target rls (next_target s)) (now - rl_ssoc_last_update rls)
    ltac:(auto with ssoc) Hdt) as (d & Hd & Hrange & Hmin & Hrate).
  exists d. split_and!; [lia..|exact Hmin|exact Hrate|]. unfold next_level. fold rls.
  pose proof (next_target_range s). change full_level with (percent 100) in *.
  change ssoc_point_full with (percent 100 + 50) in *. unfold percent in *.
  destruct (rl_track_target rls); run.
  - f_equal. apply (f_equal2 pair); [|done]. change (qnum_fromint 1) with (percent 1).
    change (s32 (percent 1)) with (percent 1).
    by apply gates.
  - rewrite Hd. run. rewrite (swrap_id 32 (- d)) by lia. rewrite (swrap_id 32 (next_target s - _)) by lia.
    set (step := if next_target s - ssoc_rl s <? - d then _ else _).
    assert (Es : ssoc_rl s + step = Z.max (ssoc_rl s - d) (Z.min (ssoc_rl s + d) (next_target s)))
      by (unfold step; repeat case_test; lia).
    rewrite Es, swrap_id by lia. f_equal. apply (f_equal2 pair); [|done]. change (qnum_fromint 1) with (percent 1).
    change (s32 (percent 1)) with (percent 1).
    by apply gates.
Qed.

(** ** One update *)

(** The state on which [ssoc_update] applies the limiter. *)
Definition prepared (s : batt_ssoc_state) (soc u : Z) : batt_ssoc_state :=
  let rls := ssoc_rl_state s in
  let first := rl_ssoc_target rls =? -1 in
  let rls := if first then set_target rls u else rls in
  let rl := if first then u else ssoc_rl s in
  let rls := set_fast_track rls
    (rl_fast_track rls || (rl_ssoc_target rls <? rl_ft_low_limit rls)) in
  let delta := s32 (rl_ssoc_target rls - rl) in
  let rls :=
    if negb (rl_ft_delta_limit rls =? 0) && negb (buck_enabled s =? 0) && (0 <? delta) then
      set_fast_track rls (rl_fast_track rls || (rl_ft_delta_limit rls <? delta))
    else if negb (rl_ft_delta_limit rls =? 0) && (buck_enabled s =? 0) && (delta <? 0) then
      set_fast_track rls (rl_fast_track rls || (rl_ft_delta_limit rls <? s32 (- delta)))
    else rls in
  let rls := if rl_no_zero rls then set_no_zero rls (qnum_from_q8_8 128 <? rl_ssoc_target rls) else rls in
  set_levels s soc u rl rls.

Lemma update_prepared now s soc u :
  ssoc_uicurve_map soc (ssoc_curve s) = Ret u ->
  ssoc_update now s soc =
    let* r := ssoc_apply_rl now (prepared s soc u) in Ret (set_levels s soc u r.1 r.2).
Proof. intros Hu. unfold ssoc_update. by rewrite Hu. Qed.

Lemma fast_tracks (b1 b2 : bool) r f1 f2 :
  exists fast, (if b1 then set_fast_track r f1 else if b2 then set_fast_track r f2 else r)
    = set_fast_track r fast.
Proof. destruct b1, b2; [by eexists..|exists (rl_fast_track r)]. by destruct r. Qed.

(** The shape of the limiter's state: everything but target, [no_zero] and fast track is kept. *)
Lemma prepared_rls s soc u :
  let first := rl_ssoc_target (ssoc_rl_state s) =? -1 in
  exists fast nz, (nz = true -> rl_no_zero (ssoc_rl_state s) = true) /\
    ssoc_rl_state (prepared s soc u) =
      set_no_zero (set_fast_track (set_target (ssoc_rl_state s)
        (if first then u else rl_ssoc_target (ssoc_rl_state s))) fast) nz.
Proof.
  intros first. unfold prepared. fold first. cbn [ssoc_rl_state set_levels].
  set (rls := ssoc_rl_state s). set (r0 := if first then _ else _).
  assert (E0 : r0 = set_target rls (if first then u else rl_ssoc_target rls)).
  { unfold r0. destruct first; [done|]. by rewrite set_target_same. }
  rewrite E0. clearbody first rls. clear r0 E0. cbv zeta. set (r1 := set_fast_track _ _).
  match goal with |- context [if ?b1 then set_fast_track r1 ?f1 else if ?b2 then set_fast_track r1 ?f2 else r1] =>
    destruct (fast_tracks b1 b2 r1 f1 f2) as [fast ->] end.
  exists fast. cbn [rl_no_zero set_fast_track]. unfold r1. cbn [rl_no_zero set_fast_track set_target].
  set (t := if first then _ else _). clearbody t.
  exists (rl_no_zero rls && (qnum_from_q8_8 128 <? t)).
  split; [by destruct (rl_no_zero rls)|]. destruct rls as [? ? [] ? ? ? ? ? ? ? ? ?]; reflexivity.
Qed.

(** [m]% in [rl_delta_max_time]; a level is a percentage once the target is set. *)
Record ssoc_ok (m top : Z) (s : batt_ssoc_state) : Prop := {
  so_rls : rls_ok m top (ssoc_rl_state s);
  so_curve : exists a r u, curve_ok a r u ssoc_point_full /\
    ssoc_curve s = three_points a r u ssoc_point_full;
  so_level : rl_ssoc_target (ssoc_rl_state s) = -1 \/
    (0 <= ssoc_rl s <= ssoc_point_full /\ 0 <= rl_ssoc_target (ssoc_rl_state s) <= ssoc_point_full);
}.

Record updated (m top : Z) (s : batt_ssoc_state) (now soc u d : Z) (s' : batt_ssoc_state) : Prop := {
  up_map : ssoc_uicurve_map soc (ssoc_curve s) = Ret u;
  up_u : 0 <= u <= ssoc_point_full;
  up_d : 0 <= d < 2 ^ 31;
  up_min : 1 <= now - rl_ssoc_last_update (ssoc_rl_state s) -> min_step m top (ssoc_rl_state s) <= d;
  up_rate : 8 * rl_delta_max_time (ssoc_rl_state s) * d <=
    10 * m * 2 ^ 24 * (now - rl_ssoc_last_update (ssoc_rl_state s));
  up_level : ssoc_rl s' = next_level (prepared s soc u) d;
  up_target : rl_ssoc_target (ssoc_rl_state s') = next_target (prepared s soc u);
  up_gdf : ssoc_gdf s' = soc;
  up_last : rl_ssoc_last_update (ssoc_rl_state s') = now;
  up_curve : ssoc_curve s' = ssoc_curve s;
  up_buck : buck_enabled s' = buck_enabled s;
  up_track : rl_track_target (ssoc_rl_state s') = rl_track_target (ssoc_rl_state s);
  up_time : rl_delta_max_time (ssoc_rl_state s') = rl_delta_max_time (ssoc_rl_state s);
  up_no_zero : rl_no_zero (ssoc_rl_state s') = true -> rl_no_zero (ssoc_rl_state s) = true;
}.

Lemma min_step_time m top r r' :
  rl_delta_max_time r = rl_delta_max_time r' -> min_step m top r = min_step m top r'.
Proof. unfold min_step. by intros ->. Qed.

Lemma next_level_range s d :
  0 <= d -> 0 <= ssoc_rl s <= ssoc_point_full -> 0 <= next_level s d <= ssoc_point_full.
Proof.
  intros Hd Hl. unfold next_level. pose proof (next_target_range s).
  change full_level with (percent 100) in *. change ssoc_point_full with (percent 100 + 50) in *.
  unfold percent in *. destruct (rl_track_target _), (connected s), (rl_no_zero _); lia.
Qed.

Lemma update_ok m top s now soc :
  ssoc_ok m top s -> 0 <= soc ->
  0 <= now - rl_ssoc_last_update (ssoc_rl_state s) < 2 ^ 32 ->
  exists u d s', ssoc_update now s soc = Ret s' /\ ssoc_ok m top s' /\ updated m top s now soc u d s'.
Proof.
  intros [Hr (a & r & x & Hc & Ec) Hl] Hsoc Hdt.
  destruct (prepared_rls s soc (shown a r x ssoc_point_full soc)) as (fast & nz & Hnz & Ep).
  set (u := shown a r x ssoc_point_full soc) in *.
  assert (Hmap : ssoc_uicurve_map soc (ssoc_curve s) = Ret u) by (rewrite Ec; by apply map_shown).
  assert (Hu : 0 <= u <= ssoc_point_full).
  { destruct (Z.lt_ge_cases soc a).
    - unfold u. rewrite shown_below by done. destruct Hc. lia.
    - pose proof (shown_range a r x ssoc_point_full Hc soc). destruct Hc. lia. }
  set (s0 := prepared s soc u) in *.
  assert (Hl0 : 0 <= ssoc_rl s0 <= ssoc_point_full).
  { unfold s0, prepared. cbn [ssoc_rl set_levels]. case_test; [done|]. lia. }
  destruct (apply_rl_level m top now s0) as (d & Hd & Hmin & Hrate & Happ);
    [rewrite Ep; auto 10 with ssoc|done|by rewrite Ep|].
  exists u, d. eexists. split_and!; [by rewrite (update_prepared now s soc u Hmap); fold s0; rewrite Happ| |].
  - split; [|by exists a, r, x|].
    + cbn [ssoc_rl_state set_levels fst snd]. rewrite Ep. auto 10 with ssoc.
    + right. cbn -[ssoc_point_full next_level next_target].
      pose proof (next_level_range s0 d). pose proof (next_target_range s0).
      change full_level with (percent 100) in *. change ssoc_point_full with (percent 100 + 50) in *. lia.
  - split; try done;
      cbn [ssoc_rl_state rl_track_target rl_delta_max_time rl_no_zero set_levels set_last_update
           set_target fst snd]; try (by rewrite Ep).
    2: { rewrite Ep in Hrate. exact Hrate. }
    intros H1. rewrite Ep in Hmin. specialize (Hmin H1).
    by rewrite (min_step_time m top _ (ssoc_rl_state s)) in Hmin.
Qed.
