(* ===== verification/SsocTrace.v ===== *)
(** * The displayed state of charge over time (src/bms/google_battery.c, ssoc_update)

    Sequences of updates: the number stays a percentage, moves no faster than configured, does
    not rise while the charger is away, and reaches the level of the curve. *)

From S2P Require Import Prelude Ttf Ssoc SsocCurve SsocLimit.

(** ** Readings of the gauge: the time and the level *)

Fixpoint ssoc_updates (l : list (Z * Z)) (s : batt_ssoc_state) : outcome batt_ssoc_state :=
  match l with
  | [] => Ret s
  | (now, soc) :: l => let* s := ssoc_update now s soc in ssoc_updates l s
  end.

(** Time does not go back, and an update comes at least every hundred years. *)
Fixpoint readings (last : Z) (l : list (Z * Z)) : Prop :=
  match l with
  | [] => True
  | (now, soc) :: l => 0 <= now - last < 2 ^ 32 /\ 0 <= soc /\ readings now l
  end.

Abbreviation last_update s := (rl_ssoc_last_update (ssoc_rl_state s)).
Abbreviation target s := (rl_ssoc_target (ssoc_rl_state s)).
Abbreviation no_zero s := (rl_no_zero (ssoc_rl_state s)).

(** Whether the limiter has seen a reading. *)
Definition started (s : batt_ssoc_state) : Prop := target s <> -1.

Fixpoint end_time (last : Z) (l : list (Z * Z)) : Z :=
  match l with
  | [] => last
  | (now, _) :: l => end_time now l
  end.

(** ** One update *)

Section update.
Context (m top : Z) (s : batt_ssoc_state) (now soc u d : Z) (s' : batt_ssoc_state)
  (Hup : updated m top s now soc u d s').

Lemma updated_started : started s'.
Proof.
  unfold started. rewrite (up_target _ _ _ _ _ _ _ _ Hup).
  pose proof (next_target_range (prepared s soc u)). lia.
Qed.

Lemma updated_connected : connected s' = connected s.
Proof. unfold connected. by rewrite (up_buck _ _ _ _ _ _ _ _ Hup). Qed.

Lemma updated_no_zero : no_zero s = false -> no_zero s' = false.
Proof. intros H. destruct (no_zero s') eqn:E; [|done]. apply (up_no_zero _ _ _ _ _ _ _ _ Hup) in E. congruence. Qed.

Lemma prepared_level : started s -> ssoc_rl (prepared s soc u) = ssoc_rl s.
Proof. intros H. cbn. by rewrite (proj2 (Z.eqb_neq (target s) (-1))) by done. Qed.

Lemma prepared_no_zero : no_zero (prepared s soc u) = true -> no_zero s = true.
Proof. destruct (prepared_rls s soc u) as (fast & nz & Hnz & ->). exact Hnz. Qed.

Lemma prepared_connected : connected (prepared s soc u) = connected s.
Proof. done. Qed.

Lemma prepared_track : rl_track_target (ssoc_rl_state (prepared s soc u)) = rl_track_target (ssoc_rl_state s).
Proof. by destruct (prepared_rls s soc u) as (fast & nz & Hnz & ->). Qed.

(** The charger is away: the level does not rise, but for the floor of [rl_no_zero]. *)
Lemma updated_falls : started s -> connected s = false ->
  ssoc_rl s' <= if no_zero s then Z.max (ssoc_rl s) (percent 1) else ssoc_rl s.
Proof.
  intros Hs Hc. rewrite (up_level _ _ _ _ _ _ _ _ Hup). unfold next_level.
  rewrite prepared_connected, Hc, prepared_level by done.
  destruct (no_zero (prepared s soc u)) eqn:E.
  - rewrite (prepared_no_zero E). lia.
  - destruct (no_zero s); lia.
Qed.

(** The limiter bounds the change. *)
Lemma updated_slow : started s -> no_zero s = false -> rl_track_target (ssoc_rl_state s) = false ->
  Z.abs (ssoc_rl s' - ssoc_rl s) <= d.
Proof.
  intros Hs Hz Ht. rewrite (up_level _ _ _ _ _ _ _ _ Hup). unfold next_level.
  rewrite prepared_track, Ht, prepared_level by done.
  destruct (no_zero (prepared s soc u)) eqn:E; [apply prepared_no_zero in E; congruence|].
  pose proof (up_d _ _ _ _ _ _ _ _ Hup).
  destruct (connected _); lia.
Qed.

(** Connected, the level comes nearer to what the curve shows. *)
Lemma updated_nearer : connected s = true ->
  no_zero s = false \/ percent 1 <= Z.min full_level u ->
  1 <= now - last_update s ->
  Z.abs (ssoc_rl s' - Z.min full_level u) <=
    Z.max 0 (Z.abs (ssoc_rl (prepared s soc u) - Z.min full_level u) - min_step m top (ssoc_rl_state s)).
Proof.
  intros Hc Hz Hdt. rewrite (up_level _ _ _ _ _ _ _ _ Hup). unfold next_level.
  pose proof (up_min _ _ _ _ _ _ _ _ Hup Hdt). pose proof (up_u _ _ _ _ _ _ _ _ Hup).
  rewrite prepared_connected, Hc.
  assert (Ht : next_target (prepared s soc u) = Z.min full_level u).
  { unfold next_target. rewrite prepared_connected, Hc. cbn [ssoc_uic prepared set_levels].
    assert (0 <= full_level) by done. lia. }
  rewrite Ht. destruct (no_zero (prepared s soc u)) eqn:E.
  - destruct Hz as [Hz|Hz]; [apply prepared_no_zero in E; congruence|].
    destruct (rl_track_target _); lia.
  - destruct (rl_track_target _); lia.
Qed.

End update.

(** ** Sequences *)

Section trace.
Context (m top : Z).

(** Induction over a sequence of updates: [P] relates a state, the readings and the end. *)
Lemma updates_ind (P : batt_ssoc_state -> list (Z * Z) -> batt_ssoc_state -> Prop) :
  (forall s, ssoc_ok m top s -> P s [] s) ->
  (forall s now soc l u d s1 s', ssoc_ok m top s -> ssoc_ok m top s1 ->
     0 <= now - last_update s < 2 ^ 32 -> readings now l ->
     ssoc_update now s soc = Ret s1 -> updated m top s now soc u d s1 ->
     ssoc_updates l s1 = Ret s' -> P s1 l s' -> P s ((now, soc) :: l) s') ->
  forall l s, ssoc_ok m top s -> readings (last_update s) l ->
    exists s', ssoc_updates l s = Ret s' /\ ssoc_ok m top s' /\ P s l s'.
Proof.
  intros Hnil Hcons l. induction l as [|[now soc] l IH]; intros s Hok Hl; cbn [ssoc_updates]; [eauto|].
  destruct Hl as (Hdt & Hsoc & Hl).
  destruct (update_ok m top s now soc Hok Hsoc Hdt) as (u & d & s1 & E & Hok1 & Hup).
  rewrite E. run.
  destruct (IH s1 Hok1) as (s' & Hrun & Hok' & HP); [by rewrite (up_last _ _ _ _ _ _ _ _ Hup)|].
  eauto 10.
Qed.

Lemma capacity_range s : 0 <= ssoc_rl s <= ssoc_point_full -> 0 <= ssoc_get_capacity s <= 100.
Proof.
  intros Hl. unfold ssoc_get_capacity, ssoc_get_capacity_raw, qnum_toint.
  change ssoc_point_full with 1677721650 in *. change SOC_ROUND_BASE with (2 ^ 23).
  change QNUM_FBITS with 24. rewrite (swrap_id 32 (_ + _)), Z.shiftr_div_pow2 by lia.
  assert (0 <= (ssoc_rl s + 2 ^ 23) / 2 ^ 24 <= 100).
  { split; [apply Z.div_pos; lia|]. apply Z.lt_succ_r, Z.div_lt_upper_bound; lia. }
  rewrite swrap_id; lia.
Qed.

(** Whatever the gauge reports and whenever it does, updates return (the curve is not read
    past its end, nothing is divided by zero), the configuration, the curve and the levels keep
    their invariant, and from the first update on the user sees a number from 0 to 100. *)
Theorem ssoc_updates_keep_percentage s l :
  ssoc_ok m top s -> readings (last_update s) l ->
  exists s', ssoc_updates l s = Ret s' /\ ssoc_ok m top s' /\
    (started s \/ l <> [] -> 0 <= ssoc_get_capacity s' <= 100).
Proof.
  intros Hok Hl.
  destruct (updates_ind (fun s l s' => started s \/ l <> [] -> started s')) with (l := l) (s := s)
    as (s' & Hrun & Hok' & Hst); [by intros ? ? [?|?]| |done|done|].
  { intros. match goal with H : _ -> started _ |- _ => apply H end. left. by eapply updated_started. }
  exists s'. split_and!; [done|done|]. intros H. apply capacity_range.
  specialize (Hst H). destruct (so_level _ _ _ Hok'); [done|tauto].
Qed.

(** C24. The number does not jump.  With a limiter of [m]% in [rl_delta_max_time] seconds in which
    every configured rate is at least 8 tenths of the time, a started level, no floor of 1%
    pending, and the target not tracked, the level moves over any sequence of updates by at
    most ten eighths of [m]% for every [rl_delta_max_time] seconds that passed.  A rate below
    8 is outside: 7 already overflows the largest change ([fast_rate_overflows]). *)
Theorem ssoc_updates_rate_limited s l :
  ssoc_ok m top s -> readings (last_update s) l -> started s ->
  no_zero s = false -> rl_track_target (ssoc_rl_state s) = false ->
  exists s', ssoc_updates l s = Ret s' /\
    8 * rl_delta_max_time (ssoc_rl_state s) * Z.abs (ssoc_rl s' - ssoc_rl s) <=
      10 * percent m * (end_time (last_update s) l - last_update s).
Proof.
  intros Hok Hl Hs Hz Ht.
  destruct (updates_ind (fun s l s' => started s -> no_zero s = false ->
    rl_track_target (ssoc_rl_state s) = false ->
    8 * rl_delta_max_time (ssoc_rl_state s) * Z.abs (ssoc_rl s' - ssoc_rl s) <=
      10 * percent m * (end_time (last_update s) l - last_update s))) with (l := l) (s := s)
    as (s' & Hrun & _ & Hrate); [| |done|done|exists s'; auto].
  - intros. cbn. rewrite !Z.sub_diag. lia.
  - clear. intros s now soc l u d s1 s' Hok _ Hdt _ _ Hup _ IH Hs Hz Ht.
    pose proof (updated_slow _ _ _ _ _ _ _ _ Hup Hs Hz Ht).
    specialize (IH (updated_started _ _ _ _ _ _ _ _ Hup) (updated_no_zero _ _ _ _ _ _ _ _ Hup Hz)).
    rewrite (up_track _ _ _ _ _ _ _ _ Hup), (up_time _ _ _ _ _ _ _ _ Hup), (up_last _ _ _ _ _ _ _ _ Hup) in IH.
    specialize (IH Ht). cbn [end_time]. pose proof (up_rate _ _ _ _ _ _ _ _ Hup).
    pose proof (ro_time _ _ _ (so_rls _ _ _ Hok)). unfold percent in *.
    set (time := rl_delta_max_time (ssoc_rl_state s)) in *.
    assert (8 * time * Z.abs (ssoc_rl s' - ssoc_rl s) <=
      8 * time * (Z.abs (ssoc_rl s' - ssoc_rl s1) + Z.abs (ssoc_rl s1 - ssoc_rl s))) by nia.
    assert (8 * time * Z.abs (ssoc_rl s1 - ssoc_rl s) <= 8 * time * d) by nia. lia.
Qed.

(** While the charger is away the number does not rise, whatever the gauge reports; only
    where the configuration forbids 0% may it go up, and then not above 1%. *)
Theorem ssoc_updates_disconnected_fall s l :
  ssoc_ok m top s -> readings (last_update s) l -> started s -> connected s = false ->
  exists s', ssoc_updates l s = Ret s' /\
    ssoc_rl s' <= if no_zero s then Z.max (ssoc_rl s) (percent 1) else ssoc_rl s.
Proof.
  intros Hok Hl Hs Hc.
  destruct (updates_ind (fun s l s' => started s -> connected s = false ->
    ssoc_rl s' <= if no_zero s then Z.max (ssoc_rl s) (percent 1) else ssoc_rl s)) with (l := l) (s := s)
    as (s' & Hrun & _ & Hfall); [| |done|done|exists s'; auto].
  - intros. destruct (no_zero _); lia.
  - clear. intros s now soc l u d s1 s' Hok _ Hdt _ _ Hup _ IH Hs Hc.
    pose proof (updated_falls _ _ _ _ _ _ _ _ Hup Hs Hc).
    specialize (IH (updated_started _ _ _ _ _ _ _ _ Hup)).
    rewrite (updated_connected _ _ _ _ _ _ _ _ Hup) in IH. specialize (IH Hc).
    destruct (no_zero s) eqn:Ez; [destruct (no_zero s1); lia|].
    rewrite (updated_no_zero _ _ _ _ _ _ _ _ Hup Ez) in IH. lia.
Qed.

(** Readings at a level that stays the same, at least a second apart. *)
Definition steady (soc : Z) (last : Z) (l : list (Z * Z)) : Prop :=
  Forall (fun r => r.2 = soc) l /\ forall k now x, l !! k = Some (now, x) -> end_time last (take k l) < now.

Lemma steady_cons soc last now x l :
  steady soc last ((now, x) :: l) <-> x = soc /\ last < now /\ steady soc now l.
Proof.
  unfold steady. split.
  - intros [Hx Hgap]. apply Forall_cons in Hx as [? Hx]. split_and!; [done|by apply (Hgap 0%nat now x)|done|].
    intros k. apply (Hgap (S k)).
  - intros (-> & ? & Hx & Hgap). split; [by constructor|]. intros [|k] now' x'; cbn; [naive_solver|apply Hgap].
Qed.

Lemma min_step_nonneg s : ssoc_ok m top s -> 0 <= min_step m top (ssoc_rl_state s).
Proof.
  intros Hok. unfold min_step. destruct (so_rls _ _ _ Hok). apply Z.div_pos; [|lia].
  apply Z.mul_nonneg_nonneg; [|lia]. apply Z.div_pos; lia.
Qed.

(** A level at the distance of [n] steps arrives in [n] updates. *)
Lemma updates_arrive soc u l s :
  ssoc_ok m top s -> readings (last_update s) l -> steady soc (last_update s) l ->
  ssoc_uicurve_map soc (ssoc_curve s) = Ret u ->
  started s -> connected s = true -> no_zero s = false \/ percent 1 <= Z.min full_level u ->
  Z.abs (ssoc_rl s - Z.min full_level u) <= Z.of_nat (length l) * min_step m top (ssoc_rl_state s) ->
  exists s', ssoc_updates l s = Ret s' /\ ssoc_rl s' = Z.min full_level u.
Proof.
  intros Hok Hl Hst Hmap Hs Hc Hz Hdist.
  destruct (updates_ind (fun s l s' => steady soc (last_update s) l ->
    ssoc_uicurve_map soc (ssoc_curve s) = Ret u -> started s -> connected s = true ->
    no_zero s = false \/ percent 1 <= Z.min full_level u ->
    Z.abs (ssoc_rl s - Z.min full_level u) <= Z.of_nat (length l) * min_step m top (ssoc_rl_state s) ->
    ssoc_rl s' = Z.min full_level u)) with (l := l) (s := s)
    as (s' & Hrun & _ & Harr); [| |done|done|exists s'; auto].
  - intros. cbn in *. lia.
  - clear. intros s now x l v d s1 s' Hok _ Hdt _ _ Hup _ IH Hst Hmap Hs Hc Hz Hdist.
    apply steady_cons in Hst as (-> & Hgap & Hst).
    assert (v = u) as -> by (pose proof (up_map _ _ _ _ _ _ _ _ Hup); congruence).
    pose proof (updated_nearer _ _ _ _ _ _ _ _ Hup Hc Hz ltac:(lia)) as Hnear.
    rewrite prepared_level in Hnear by done.
    apply IH; rewrite ?(up_last _ _ _ _ _ _ _ _ Hup), ?(up_curve _ _ _ _ _ _ _ _ Hup); try done.
    + exact (updated_started _ _ _ _ _ _ _ _ Hup).
    + by rewrite (updated_connected _ _ _ _ _ _ _ _ Hup).
    + destruct Hz as [Hz|]; [left; by apply (updated_no_zero _ _ _ _ _ _ _ _ Hup)|by right].
    + rewrite (min_step_time _ _ _ (ssoc_rl_state s)) by (by apply (up_time _ _ _ _ _ _ _ _ Hup)).
      pose proof (min_step_nonneg s Hok).
      cbn [length] in Hdist. nia.
Qed.

(** The number arrives: connected to the charger, when the gauge keeps reporting the same
    level, the displayed level is that of the curve after as many updates as the smallest step
    fits into a full battery, whatever it was before, and stays there; the only exception is a
    level under 1% where the configuration forbids 0%. *)
Theorem ssoc_level_converges s soc l :
  ssoc_ok m top s -> 0 <= soc -> readings (last_update s) l -> steady soc (last_update s) l ->
  connected s = true ->
  exists u, ssoc_uicurve_map soc (ssoc_curve s) = Ret u /\
    (no_zero s = false \/ percent 1 <= Z.min full_level u ->
     ssoc_point_full < Z.of_nat (length l) * min_step m top (ssoc_rl_state s) ->
     exists s', ssoc_updates l s = Ret s' /\ ssoc_rl s' = Z.min full_level u).
Proof.
  intros Hok Hsoc Hl Hst Hc. destruct l as [|[now x] l].
  { destruct (update_ok m top s (last_update s) soc Hok Hsoc ltac:(lia)) as (u & d & s' & _ & _ & Hup).
    exists u. split; [apply Hup|]. cbn. intros _ H. by apply Z.lt_gt in H. }
  destruct Hl as (Hdt & Hx & Hl). apply steady_cons in Hst as (-> & Hgap & Hst). clear Hx.
  destruct (update_ok m top s now soc Hok Hsoc Hdt) as (u & d & s1 & E & Hok1 & Hup).
  exists u. split; [apply Hup|]. intros Hz Hlen. cbn [ssoc_updates]. rewrite E. run.
  apply (updates_arrive soc u); rewrite ?(up_last _ _ _ _ _ _ _ _ Hup), ?(up_curve _ _ _ _ _ _ _ _ Hup);
    try done.
  - apply Hup.
  - exact (updated_started _ _ _ _ _ _ _ _ Hup).
  - by rewrite (updated_connected _ _ _ _ _ _ _ _ Hup).
  - destruct Hz as [Hz|]; [left; by apply (updated_no_zero _ _ _ _ _ _ _ _ Hup)|by right].
  - rewrite (min_step_time _ _ _ (ssoc_rl_state s)) by (by apply (up_time _ _ _ _ _ _ _ _ Hup)).
    pose proof (updated_nearer _ _ _ _ _ _ _ _ Hup Hc Hz ltac:(lia)) as Hnear.
    assert (Hp : 0 <= ssoc_rl (prepared s soc u) <= ssoc_point_full).
    { pose proof (up_u _ _ _ _ _ _ _ _ Hup). cbn -[ssoc_point_full]. case_test; [done|].
      destruct (so_level _ _ _ Hok); [done|tauto]. }
    pose proof (up_u _ _ _ _ _ _ _ _ Hup).
    change full_level with (percent 100) in *. change ssoc_point_full with (percent 100 + 50) in *.
    pose proof (min_step_nonneg s Hok).
    cbn [length] in Hlen. unfold percent in *. nia.
Qed.

End trace.
