(* ===== verification/SsocRecharge.v ===== *)
(** * The recharge logic of the state of charge (src/bms/google_battery.c, batt_rl)

    The operations on [batt_ssoc_state] as events in any order: they return and keep the
    invariant, and charging restarts at most once for each time it was complete. *)

From S2P Require Import Prelude Ttf Ssoc SsocCurve SsocLimit SsocTrace.

(** ** An invariant that every splice keeps *)

Definition curve_shape (c : list ssoc_uicurve) : Prop :=
  exists q, c = [mk_point ssoc_point_true ssoc_point_true; q; mk_point ssoc_point_full ssoc_point_full].

Record ssoc_wf (m top : Z) (s : batt_ssoc_state) : Prop := {
  sw_rls : rls_ok m top (ssoc_rl_state s);
  sw_curve : curve_shape (ssoc_curve s);
  sw_started : started s;
  sw_level : 0 <= ssoc_rl s <= ssoc_point_full;
}.

(** The part of it that does not depend on the curve. *)
Record limiter_wf (m top : Z) (s : batt_ssoc_state) : Prop := {
  lw_rls : rls_ok m top (ssoc_rl_state s);
  lw_started : started s;
  lw_level : 0 <= ssoc_rl s <= ssoc_point_full;
}.

Lemma wf_limiter m top s : ssoc_wf m top s -> limiter_wf m top s.
Proof. by intros []. Qed.

Lemma limiter_same m top s s' :
  ssoc_rl_state s' = ssoc_rl_state s -> ssoc_rl s' = ssoc_rl s ->
  limiter_wf m top s -> limiter_wf m top s'.
Proof. intros E1 E2 [Hr Hs Hl]. split; [by rewrite E1|unfold started; by rewrite E1|by rewrite E2]. Qed.

(** Between the first point and full the search ends before the last point. *)
Lemma map_returns x q :
  exists u, ssoc_uicurve_map x
    [mk_point ssoc_point_true ssoc_point_true; q; mk_point ssoc_point_full ssoc_point_full] = Ret u.
Proof.
  unfold ssoc_uicurve_map. cbn -[Z.ltb Z.leb Z.eqb qnum_mul qnum_div swrap ssoc_point_true ssoc_point_full].
  destruct (Z.ltb_spec x ssoc_point_true); [eauto|]. destruct (Z.leb_spec ssoc_point_full x); [eauto|].
  unfold ssoc_uicurve_find, find_from.
  cbn -[Z.ltb Z.leb Z.eqb qnum_mul qnum_div swrap ssoc_point_true ssoc_point_full].
  rewrite (proj2 (Z.eqb_neq x ssoc_point_full)), (proj2 (Z.ltb_ge ssoc_point_full x)) by lia.
  destruct (x =? c_real q); [|destruct (c_real q <? x)]; run;
    cbn -[Z.ltb Z.leb Z.eqb qnum_mul qnum_div swrap ssoc_point_true ssoc_point_full];
    (destruct (_ =? x); [by eauto|]); unfold qnum_div; destruct (_ =? 0); run; eauto.
Qed.

Lemma splice_shape c (real ui : Z) : curve_shape c ->
  exists c', ssoc_uicurve_splice c real ui = Ret c' /\ curve_shape c'.
Proof.
  intros [q ->]. unfold ssoc_uicurve_splice.
  cbn -[Z.ltb ssoc_point_true ssoc_point_full].
  destruct (Z.ltb_spec real ssoc_point_true); run; [eexists; split; [done|by eexists]|].
  destruct (Z.ltb_spec ssoc_point_full real); run; eexists; split; (done || by eexists).
Qed.

Lemma curves_shape (type : Z) : curve_shape (if type =? SSOC_UIC_TYPE_DSG then dsg_curve else chg_curve).
Proof. destruct (_ =? _); by eexists. Qed.

(** What an operation leaves alone: what decides on a restart. *)
Record same_recharge (s s' : batt_ssoc_state) : Prop := {
  sr_status : rl_status s' = rl_status s;
  sr_threshold : rl_soc_threshold s' = rl_soc_threshold s;
  sr_trickle : bd_recharge_soc (trickle s') = bd_recharge_soc (trickle s);
}.

Lemma change_curve_wf m top s delta type : ssoc_wf m top s ->
  exists s', ssoc_change_curve s delta type = Ret s' /\ ssoc_wf m top s' /\ same_recharge s s' /\
    last_update s' = last_update s /\ ssoc_gdf s' = ssoc_gdf s.
Proof.
  intros [Hr Hc Hs Hl]. unfold ssoc_change_curve, ssoc_change_curve_at_gdf.
  cbv zeta. match goal with |- context [ssoc_uicurve_splice ?c ?g ?u] =>
    destruct (splice_shape c g u (curves_shape _)) as (c' & -> & Hc') end. run.
  eexists; split_and!; [done|by split|by split|done|done].
Qed.

(** An update needs the curve only to map the reading. *)
Lemma update_limiter m top s now soc u : limiter_wf m top s ->
  ssoc_uicurve_map soc (ssoc_curve s) = Ret u -> 0 <= now - last_update s < 2 ^ 32 ->
  exists s', ssoc_update now s soc = Ret s' /\ limiter_wf m top s' /\ same_recharge s s' /\
    last_update s' = now /\ ssoc_gdf s' = soc /\ ssoc_uic s' = u /\ ssoc_curve s' = ssoc_curve s.
Proof.
  intros [Hr Hs Hl] Hu Hdt.
  destruct (prepared_rls s soc u) as (fast & nz & _ & Ep).
  rewrite (proj2 (Z.eqb_neq (target s) (-1)) Hs) in Ep. set (s0 := prepared s soc u) in *.
  assert (El : ssoc_rl s0 = ssoc_rl s).
  { unfold s0. cbn. by rewrite (proj2 (Z.eqb_neq (target s) (-1)) Hs). }
  destruct (apply_rl_level m top now s0) as (d & Hd & _ & _ & Happ);
    [rewrite Ep; auto 10 with ssoc|by rewrite El|by rewrite Ep|].
  pose proof (next_target_range s0). pose proof (next_level_range s0 d ltac:(lia)).
  rewrite (update_prepared now s soc u Hu). fold s0. rewrite Happ. run.
  eexists; split_and!; [done| |by split|done..].
  split; cbn [ssoc_rl_state ssoc_curve ssoc_rl set_levels fst snd].
  - rewrite Ep. auto 10 with ssoc.
  - unfold started. cbn -[next_target s0]. lia.
  - rewrite El in *. auto.
Qed.

Lemma update_wf m top s now soc : ssoc_wf m top s ->
  0 <= now - last_update s < 2 ^ 32 ->
  exists s', ssoc_update now s soc = Ret s' /\ ssoc_wf m top s' /\ same_recharge s s' /\
    last_update s' = now /\ ssoc_gdf s' = soc /\ ssoc_uicurve_map soc (ssoc_curve s) = Ret (ssoc_uic s').
Proof.
  intros Hwf Hdt. destruct (sw_curve _ _ _ Hwf) as [q Hc].
  destruct (map_returns soc q) as [u Hu]. rewrite <- Hc in Hu.
  destruct (update_limiter m top s now soc u (wf_limiter _ _ _ Hwf) Hu Hdt)
    as (s' & Hup & [] & Hsame & Hlast & Hgdf & Huic & Hcurve).
  exists s'. split_and!; [done| |done..|by rewrite Huic].
  split; [done| |done|done]. rewrite Hcurve. by exists q.
Qed.

(** An update that returns keeps the limiter, whatever the curve. *)
Lemma update_keeps m top s now soc s' : limiter_wf m top s -> ssoc_update now s soc = Ret s' ->
  0 <= now - last_update s < 2 ^ 32 -> limiter_wf m top s' /\ last_update s' = now.
Proof.
  intros Hwf Hup Hdt. pose proof Hup as (u & Hu & _)%obind_Ret.
  destruct (update_limiter m top s now soc u Hwf Hu Hdt) as (s1 & Hup1 & Hwf1 & _ & Hlast & _).
  rewrite Hup1 in Hup. by injection Hup as <-.
Qed.

(** ** Events *)

Inductive ssoc_event :=
| EvWork (now soc_q8_8 : Z)
| EvEnter (now : Z) (status : batt_rl_status)
| EvStatus
| EvReset
| EvConnect (now : Z) (ben : bool)
| EvCurve (delta type : Z)
| EvSmart
| EvFull (soc : Z).

(** No vote on the level that counts as full: the curve ends at 100%. *)
Definition no_full_vote (l : list ssoc_event) : Prop :=
  Forall (fun e => match e with EvFull _ => False | _ => True end) l.

(** The state after the event and, where charging restarts, the level of the gauge. *)
Definition ssoc_event_run (e : ssoc_event) (s : batt_ssoc_state)
    : outcome (option Z * batt_ssoc_state) :=
  match e with
  | EvWork now q => let* r := ssoc_work now q s in Ret (None, r.2)
  | EvEnter now status => let* r := batt_rl_enter now s status in Ret (None, r.2)
  | EvStatus =>
    let r := batt_rl_update_status s in
    Ret (if r.1 then Some (ssoc_get_real s) else None, r.2)
  | EvReset => Ret (None, batt_rl_reset s)
  | EvConnect now ben => Ret (None, ssoc_change_state now ben s)
  | EvCurve delta type => let* s := ssoc_change_curve s delta type in Ret (None, s)
  | EvSmart => Ret (None, batt_sr_update_state s)
  | EvFull soc => let* s := point_full_ui_soc_cb soc s in Ret (None, s)
  end.

(** The levels of the restarts, in order. *)
Fixpoint ssoc_run (l : list ssoc_event) (s : batt_ssoc_state) : outcome (list Z * batt_ssoc_state) :=
  match l with
  | [] => Ret ([], s)
  | e :: l =>
    let* r := ssoc_event_run e s in
    let* t := ssoc_run l r.2 in
    Ret (option_list r.1 ++ t.1, t.2)
  end.

(** Updates do not go back in time; the events take at most a hundred years after [start]. *)
Fixpoint in_order (start last : Z) (l : list ssoc_event) : Prop :=
  match l with
  | [] => True
  | (EvWork now _ | EvEnter now _) :: l => last <= now < start + 2 ^ 32 /\ in_order start now l
  | _ :: l => in_order start last l
  end.

(** How often the charger reported that the battery is full. *)
Fixpoint fulls (l : list ssoc_event) : nat :=
  match l with
  | [] => 0
  | EvEnter _ BATT_RL_STATUS_DISCHARGE :: l => S (fulls l)
  | _ :: l => fulls l
  end.

Definition is_discharge (s : batt_ssoc_state) : nat :=
  if decide (rl_status s = BATT_RL_STATUS_DISCHARGE) then 1 else 0.

(** The highest level at which charging may restart. *)
Definition restart_soc (s : batt_ssoc_state) : Z :=
  Z.max (rl_soc_threshold s) (bd_recharge_soc (trickle s)).

(** ** One event *)


Section event.
Context (m top : Z).

Lemma wf_status s x : ssoc_wf m top s -> ssoc_wf m top (set_status s x).
Proof. by intros []. Qed.
Lemma wf_sr s x : ssoc_wf m top s -> ssoc_wf m top (set_sr s x).
Proof. by intros []. Qed.
Lemma wf_connection s t b x : ssoc_wf m top s -> ssoc_wf m top (set_connection s t b x).
Proof. by intros []. Qed.
Lemma wf_dsg s : ssoc_wf m top s -> ssoc_wf m top (set_curve s SSOC_UIC_TYPE_DSG dsg_curve).
Proof. intros []. split; try done. by eexists. Qed.
Hint Resolve wf_status wf_sr wf_connection wf_dsg : ssoc.

Record step_ok (s : batt_ssoc_state) (r : option Z * batt_ssoc_state) (full : nat) : Prop := {
  st_wf : ssoc_wf m top r.2;
  st_threshold : restart_soc r.2 = restart_soc s;
  st_restart : forall x, r.1 = Some x -> x <= restart_soc s;
  st_count : (length (option_list r.1) + is_discharge r.2 <= full + is_discharge s)%nat;
}.

Lemma step_same s s' full : ssoc_wf m top s' -> same_recharge s s' -> step_ok s (None, s') full.
Proof.
  intros Hwf [Hst Ht Hb]. split; [done| |done|].
  - cbn. unfold restart_soc. by rewrite Ht, Hb.
  - cbn. unfold is_discharge. rewrite Hst. lia.
Qed.

Lemma enter_ok s now status : ssoc_wf m top s -> 0 <= now - last_update s < 2 ^ 32 ->
  exists b s', batt_rl_enter now s status = Ret (b, s') /\
    step_ok s (None, s') (fulls [EvEnter now status]) /\
    (last_update s' = now \/ last_update s' = last_update s) /\ ssoc_gdf s' = ssoc_gdf s.
Proof.
  intros Hwf Hdt. unfold batt_rl_enter.
  destruct (bool_decide (rl_status s = status) || _).
  { exists false, s. split_and!; [done|by apply step_same|by right|done]. }
  assert (H1 : exists s1, (if bool_decide (status = BATT_RL_STATUS_DISCHARGE) then
      if batt_is_trickle s && (bd_version (trickle s) =? BD_TRICKLE_VER_SOC)
      then ssoc_change_curve s 0 SSOC_UIC_TYPE_DSG
      else Ret (set_curve s SSOC_UIC_TYPE_DSG dsg_curve) else Ret s) = Ret s1 /\
    ssoc_wf m top s1 /\ same_recharge s s1 /\ last_update s1 = last_update s /\
    ssoc_gdf s1 = ssoc_gdf s).
  { case_bool_decide; [|by exists s]. destruct (_ && _).
    - destruct (change_curve_wf m top s 0 SSOC_UIC_TYPE_DSG Hwf) as (s1 & ? & ? & ? & ? & ?). eauto 10.
    - eexists; split_and!; [done|by apply wf_dsg|by split|done|done]. }
  destruct H1 as (s1 & -> & Hwf1 & Hsame1 & Hlast1 & Hgdf1). run.
  destruct (update_wf m top s1 now (ssoc_gdf s1) Hwf1) as (s2 & -> & Hwf2 & Hsame2 & Hlast2 & Hgdf2 & _);
    [by rewrite Hlast1|]. run.
  exists true. eexists; split_and!; [done| |by left|cbn; congruence].
  split; cbn [fst snd option_list]; [by apply wf_status| |done|].
  - unfold restart_soc. cbn. destruct Hsame1 as [_ Ht1 Hb1], Hsame2 as [_ Ht2 Hb2]. congruence.
  - unfold is_discharge. cbn. destruct status; repeat case_decide; (discriminate || lia || done).
Qed.

Lemma count_trickle_soc t : bd_recharge_soc (count_trickle t) = bd_recharge_soc t.
Proof. unfold count_trickle. by destruct (bd_full t && bd_eoc t). Qed.

Lemma status_ok s : ssoc_wf m top s ->
  step_ok s (if (batt_rl_update_status s).1 then Some (ssoc_get_real s) else None,
             (batt_rl_update_status s).2) 0 /\
  last_update (batt_rl_update_status s).2 = last_update s.
Proof.
  intros Hwf. unfold batt_rl_update_status.
  case_bool_decide as Hd; run; [|split; [by apply step_same|done]].
  destruct (Z.eqb_spec (rl_soc_threshold s) 0); [split; [by apply step_same|done]|].
  set (thr := if batt_is_trickle s && _ then bd_recharge_soc _ else _).
  destruct (Z.ltb_spec thr (ssoc_get_real s)); [split; [by apply step_same|done]|].
  assert (Hthr : thr <= restart_soc s) by (unfold thr, restart_soc; destruct (_ && _); lia).
  split; [|by case_bool_decide].
  split; cbn [fst snd].
  - case_bool_decide; auto with ssoc.
  - unfold restart_soc. case_bool_decide; cbn -[count_trickle]; by rewrite count_trickle_soc.
  - intros x [= <-]. lia.
  - unfold is_discharge. rewrite (decide_True _ _ Hd), decide_False; [cbn; lia|].
    by case_bool_decide.
Qed.

(** Names the time of the last event ahead of the result. *)
Ltac exists_after t :=
  match goal with |- exists r last', @?P r last' => enough (exists r, P r t) as [? ?] by eauto end.

Lemma event_ok start last s e l : no_full_vote [e] ->
  ssoc_wf m top s -> start <= last_update s <= last -> in_order start last (e :: l) ->
  exists r last', ssoc_event_run e s = Ret r /\ step_ok s r (fulls [e]) /\
    start <= last_update r.2 <= last' /\ in_order start last' l.
Proof.
  intros Hnf Hwf Hlast Hin. apply Forall_inv in Hnf.
  destruct e as [now q|now status| | |now ben|delta type| |soc];
    cbn [ssoc_event_run in_order] in *; [..|destruct Hnf];
    [destruct Hin as [Hdt Hin]; exists_after now|destruct Hin as [Hdt Hin]; exists_after now|exists_after last..].
  - unfold ssoc_work. destruct (q <? 0); run.
    + eexists; split_and!; [done|by apply step_same|cbn [fst snd]; lia..|done].
    + destruct (update_wf m top s now (s32 (qnum_from_q8_8 q)) Hwf) as (s' & -> & ? & ? & E & _); [lia|].
      run. eexists; split_and!; [done|by apply step_same|cbn [fst snd]; lia..|done].
  - destruct (enter_ok s now status Hwf) as (b & s' & -> & ? & E & _); [lia|]. run.
    eexists; split_and!; [done|done|cbn [fst snd]; lia..|done].
  - destruct (status_ok s Hwf) as [? E]. eexists; split_and!; [done|done|cbn [fst snd]; lia..|done].
  - eexists; split_and!; [done| |cbn; lia..|done]. split; [by apply wf_status|done|done|].
    assert (is_discharge (batt_rl_reset s) = 0%nat) as E by done. cbn -[is_discharge]. lia.
  - assert (E : last_update (ssoc_change_state now ben s) = last_update s)
      by (unfold ssoc_change_state; by repeat case_match).
    eexists; split_and!; [done| |cbn [fst snd]; lia..|done].
    apply step_same; unfold ssoc_change_state; [repeat case_match; auto with ssoc|].
    destruct ben; run; [|by split]. destruct (_ =? 0); [by split|]. split; try done.
    cbn [trickle set_connection]. by destruct (negb _ && _).
  - destruct (change_curve_wf m top s delta type Hwf) as (s' & -> & ? & ? & E & _). run.
    eexists; split_and!; [done|by apply step_same|cbn [fst snd]; lia..|done].
  - assert (E : last_update (batt_sr_update_state s) = last_update s)
      by (unfold batt_sr_update_state; by repeat case_match).
    eexists; split_and!; [done| |cbn [fst snd]; lia..|done].
    apply step_same; unfold batt_sr_update_state; repeat case_match; auto with ssoc; by split.
Qed.

(** *** An event that returns keeps the limiter *)

Lemma enter_keeps s now status b s' : limiter_wf m top s ->
  batt_rl_enter now s status = Ret (b, s') -> 0 <= now - last_update s < 2 ^ 32 ->
  limiter_wf m top s' /\ (last_update s' = now \/ last_update s' = last_update s).
Proof.
  intros Hwf H Hdt. unfold batt_rl_enter in H.
  destruct (bool_decide (rl_status s = status) || _); [injection H as <- <-; by split; [|right]|].
  apply obind_Ret in H as (s1 & H1 & (s2 & H2 & [= <- <-])%obind_Ret).
  assert (E : ssoc_rl_state s1 = ssoc_rl_state s /\ ssoc_rl s1 = ssoc_rl s).
  { destruct (bool_decide _); [|by apply Ret_inj in H1 as <-].
    destruct (_ && _); [|by apply Ret_inj in H1 as <-].
    by apply obind_Ret in H1 as (c & _ & <-%Ret_inj). }
  destruct E as [E1 E2]. pose proof (limiter_same m top s s1 E1 E2 Hwf) as Hwf1.
  destruct (update_keeps m top s1 now _ s2 Hwf1 H2) as [Hwf2 Hl2]; [by rewrite E1|].
  split; [by eapply limiter_same; [..|exact Hwf2]|by left].
Qed.

(** What the other events leave alone. *)
Lemma event_same s e r : ssoc_event_run e s = Ret r ->
  match e with EvWork _ _ | EvEnter _ _ => False | _ => True end ->
  ssoc_rl_state r.2 = ssoc_rl_state s /\ ssoc_rl r.2 = ssoc_rl s.
Proof.
  destruct e as [now q|now status| | |now ben|delta type| |soc]; cbn [ssoc_event_run];
    intros Hr He; [destruct He..| | | | | |]; revert Hr; clear.
  - intros <-%Ret_inj. unfold batt_rl_update_status. destruct (negb _); [done|].
    destruct (_ =? 0); [done|]. destruct (_ <? _); [done|]. by case_bool_decide.
  - by intros <-%Ret_inj.
  - intros <-%Ret_inj. unfold ssoc_change_state. destruct (negb ben); [done|]. by destruct (_ =? 0).
  - by intros (s' & (c & _ & <-%Ret_inj)%obind_Ret & <-%Ret_inj)%obind_Ret.
  - intros <-%Ret_inj. unfold batt_sr_update_state. case_bool_decide; [done|]. by destruct (_ && _).
  - intros (s' & Hs' & <-%Ret_inj)%obind_Ret. unfold point_full_ui_soc_cb in Hs'.
    destruct (_ =? _); [by apply Ret_inj in Hs' as <-|]. destruct (_ && _); [|by apply Ret_inj in Hs' as <-].
    by apply obind_Ret in Hs' as (c & _ & <-%Ret_inj).
Qed.

Lemma event_keeps start last s e l r :
  limiter_wf m top s -> start <= last_update s <= last -> in_order start last (e :: l) ->
  ssoc_event_run e s = Ret r ->
  exists last', limiter_wf m top r.2 /\ start <= last_update r.2 <= last' /\ in_order start last' l.
Proof.
  intros Hwf Hlast Hin Hr.
  assert (Hsame : match e with EvWork _ _ | EvEnter _ _ => False | _ => True end ->
    exists last', limiter_wf m top r.2 /\ start <= last_update r.2 <= last' /\ in_order start last' l).
  { intros He. destruct (event_same s e r Hr He) as [E1 E2]. exists last. rewrite E1.
    split_and!; [by eapply limiter_same|lia|lia|by destruct e]. }
  destruct e as [now q|now status| | |now ben|delta type| |soc]; try (by apply Hsame); clear Hsame;
    cbn [ssoc_event_run in_order] in *; destruct Hin as [Hdt Hin]; exists now.
  - apply obind_Ret in Hr as (x & Hx & [= <-]). unfold ssoc_work in Hx.
    destruct (q <? 0); [injection Hx as <-; cbn [fst snd]; split_and!; [done|lia..|done]|].
    apply obind_Ret in Hx as (s' & Hs' & [= <-]).
    destruct (update_keeps m top s now _ s' Hwf Hs') as [Hwf' E]; [lia|].
    cbn [fst snd]. split_and!; [done|lia..|done].
  - apply obind_Ret in Hr as ([b s'] & Hx & [= <-]).
    destruct (enter_keeps s now status b s' Hwf Hx) as [Hwf' E]; [lia|].
    cbn [fst snd]. split_and!; [done|lia..|done].
Qed.

End event.

(** ** Sequences of events *)

Section run.
Context (m top start : Z).

Lemma run_ok last l s : no_full_vote l ->
  ssoc_wf m top s -> start <= last_update s <= last -> in_order start last l ->
  exists levels s', ssoc_run l s = Ret (levels, s') /\ ssoc_wf m top s' /\
    Forall (fun x => x <= restart_soc s) levels /\
    (length levels + is_discharge s' <= fulls l + is_discharge s)%nat.
Proof.
  intros Hnf. revert last s. induction Hnf as [|e l He Hnf IH]; intros last s Hwf Hlast Hin;
    cbn [ssoc_run].
  { exists [], s. split_and!; [done|done|constructor|cbn; lia]. }
  destruct (event_ok m top start last s e l ltac:(by constructor) Hwf Hlast Hin) as (r & last' & -> & Hst & Hlast' & Hin').
  destruct Hst as [Hwf' Ht Hr Hc]. run.
  destruct (IH last' r.2 Hwf' Hlast' Hin') as (levels & s' & -> & Hwf2 & Hall & Hcount). run.
  exists (option_list r.1 ++ levels), s'. split_and!; [done|done| |].
  - rewrite Ht in Hall. apply Forall_app; split; [|done].
    destruct r.1 as [x|]; cbn; [|done]. constructor; [by apply Hr|done].
  - rewrite length_app. assert (fulls (e :: l) = fulls [e] + fulls l)%nat as ->
      by (destruct e as [| ? [] | | | | | |]; done). lia.
Qed.

Lemma run_keeps last l s levels s' :
  limiter_wf m top s -> start <= last_update s <= last -> in_order start last l ->
  ssoc_run l s = Ret (levels, s') -> limiter_wf m top s'.
Proof.
  revert last s levels. induction l as [|e l IH]; intros last s levels Hwf Hlast Hin; cbn [ssoc_run].
  { by intros [= _ <-]. }
  intros (r & Hr & ([levels' s1] & Hrun & [= _ <-])%obind_Ret)%obind_Ret.
  destruct (event_keeps m top start last s e l r Hwf Hlast Hin Hr) as (last' & Hwf' & Hlast' & Hin').
  by eapply IH.
Qed.

(** C23. The number is always a percentage. From a state with a configured limiter (every rate
    at least 8 tenths of the time: with 7 the limiter overflows, [fast_rate_overflows]), in
    any sequence of readings, changes of the recharge state, connections, splices of the
    curve, resets and votes on the level that counts as full, with the time not going back:
    when the sequence returns, the limiter is well formed and the number shown is between 0
    and 100, whatever the curve has become. Without a vote on the full level the sequence does
    return (no read past the curve, no division by zero), although the slopes of a spliced
    curve may overflow, and the curve keeps its shape; after such a vote a reading can go past
    the curve ([point_full_reads_past_curve]). *)
Theorem ssoc_events_keep_percentage last l s :
  ssoc_wf m top s -> start <= last_update s <= last -> in_order start last l ->
  (forall levels s', ssoc_run l s = Ret (levels, s') ->
     limiter_wf m top s' /\ 0 <= ssoc_get_capacity s' <= 100) /\
  (no_full_vote l ->
   exists levels s', ssoc_run l s = Ret (levels, s') /\ ssoc_wf m top s').
Proof.
  intros Hwf Hlast Hin. split.
  - intros levels s' Hrun.
    pose proof (run_keeps last l s levels s' (wf_limiter _ _ _ Hwf) Hlast Hin Hrun) as Hwf'.
    split; [done|]. apply capacity_range, Hwf'.
  - intros Hnf. destruct (run_ok last l s Hnf Hwf Hlast Hin) as (levels & s' & Hrun & Hwf' & _). eauto.
Qed.

(** A full battery is not charged again and again: in any sequence of events charging
    restarts at most once for each time the charger reported that the battery is full (and
    once more if the sequence begins in that state), as long as no vote moves the full
    level; and each restart happens with the gauge
    at or under the recharge threshold, or that of the trickle defender. *)
Theorem recharge_needs_discharge last l s : no_full_vote l ->
  ssoc_wf m top s -> start <= last_update s <= last -> in_order start last l ->
  exists levels s', ssoc_run l s = Ret (levels, s') /\
    Forall (fun x => x <= restart_soc s) levels /\
    (length levels + is_discharge s' <= fulls l + is_discharge s)%nat.
Proof.
  intros Hnf Hwf Hlast Hin.
  destruct (run_ok last l s Hnf Hwf Hlast Hin) as (levels & s' & Hrun & _ & ? & ?). eauto.
Qed.

End run.
