(* ===== verification/SsocSave.v ===== *)
(** * The state of charge over a reboot (src/bms/google_battery.c, gbatt_save_capacity)

    The driver stores the number that the user sees in the battery storage and, at the next
    start, continues from it when the gauge reports a little less. *)

From S2P Require Import Prelude Ttf GbmsStorage StorageTable StorageContract.
From S2P Require Import Ssoc SsocCurve SsocLimit SsocTrace SsocRecharge.

(** ** The bytes of a [u16] *)

Lemma u16_bytes_div x : 0 <= x < 2 ^ 16 -> u16_bytes x = [x mod 256; x / 256].
Proof.
  intros Hx. unfold u16_bytes. change 0xff with (Z.ones 8).
  rewrite !Z.land_ones, Z.shiftr_div_pow2 by lia. change (2 ^ 8) with 256.
  rewrite (Z.mod_small (x / 256)); [done|]. split; [apply Z.div_pos; lia|apply Z.div_lt_upper_bound; lia].
Qed.

Lemma u16_stored_bytes x rest old : 0 <= x < 2 ^ 16 -> u16_stored (u16_bytes x ++ rest) old = x.
Proof.
  intros Hx. unfold u16_stored. rewrite u16_bytes_div by done. cbn [app].
  pose proof (Z.div_mod x 256). lia.
Qed.

Lemma length_u16_bytes x : length (u16_bytes x) = 2%nat.
Proof. done. Qed.

(** ** Continuing from the stored level *)

Lemma percent_fromint n : qnum_fromint n = percent n.
Proof. unfold qnum_fromint, percent. by rewrite Z.shiftl_mul_pow2. Qed.

(** [gbatt_reset_curve] returns at any level.  Started with the reading that the present
    level came from, it puts the number on the curve from the first point on; below it the
    splice is refused, and the gauge's own level is shown. *)
Lemma reset_curve_shows m top now q cap s :
  ssoc_wf m top s -> 0 <= now - last_update s < 2 ^ 32 -> 0 <= cap <= 100 ->
  exists s', gbatt_reset_curve now q cap s = Ret s' /\ ssoc_wf m top s' /\
    (0 <= q -> ssoc_gdf s = s32 (qnum_from_q8_8 q) ->
     ssoc_gdf s' = ssoc_gdf s /\
     (ssoc_point_true <= ssoc_gdf s < ssoc_point_full -> ssoc_uic s' = percent cap) /\
     (ssoc_gdf s < ssoc_point_true -> ssoc_uic s' = ssoc_gdf s)).
Proof.
  intros Hwf Hdt Hcap. unfold gbatt_reset_curve. rewrite percent_fromint.
  rewrite (swrap_id 32 (percent cap)) by (unfold percent; lia).
  unfold ssoc_change_curve_at_gdf.
  match goal with |- context [ssoc_uicurve_splice (if ?ty =? _ then _ else _) ?g ?u] =>
    destruct (splice_shape _ g u (curves_shape ty)) as (c & Hc & Hshape); rewrite Hc; run;
    set (s1 := set_curve s ty c) end.
  assert (Hwf1 : ssoc_wf m top s1) by (by destruct Hwf; split).
  unfold ssoc_work. destruct (Z.ltb_spec q 0).
  { run. exists s1. split_and!; [done|done|lia]. }
  destruct (update_wf m top s1 now (s32 (qnum_from_q8_8 q)) Hwf1 Hdt)
    as (s2 & -> & Hwf2 & _ & _ & Hgdf2 & Hmap).
  run. exists s2. split_and!; [done|done|]. intros _ Hgdf. rewrite <- Hgdf in Hmap, Hgdf2.
  split_and!; [done|intros Hg|intros Hg].
  - assert (Hthru : ssoc_uicurve_map (ssoc_gdf s) (ssoc_curve s1) = Ret (percent cap)).
    { revert Hc. unfold ssoc_uicurve_splice. destruct (curves_shape
        (if ssoc_gdf s <? percent cap then SSOC_UIC_TYPE_DSG else SSOC_UIC_TYPE_CHG)) as [p ->].
      cbn -[Z.ltb ssoc_point_true ssoc_point_full].
      rewrite (proj2 (Z.ltb_ge (ssoc_gdf s) _)), (proj2 (Z.ltb_ge ssoc_point_full _)) by lia.
      intros [= <-]. apply map_through; cbn -[ssoc_point_true ssoc_point_full]; lia. }
    rewrite Hthru in Hmap. by simplify_eq.
  - destruct Hshape as [p Hp]. cbn [s1 ssoc_curve set_curve] in Hmap. rewrite Hp in Hmap.
    revert Hmap. unfold ssoc_uicurve_map. cbn -[Z.ltb ssoc_point_true ssoc_point_full].
    rewrite (proj2 (Z.ltb_lt (ssoc_gdf s) _)) by lia. by intros [= <-].
Qed.

(** ** The round trip *)

Section reboot.
Context {D : Type} (knows : nat -> Z -> bool) (sees : D -> Z -> list Z) (holds : D -> Prop).
#[local] Abbreviation lawful := (lawful knows sees holds).

(** What the driver knows about the stored record: what it wrote last. *)
Definition in_step (s : batt_ssoc_state) (st : gbms_storage D) : Prop :=
  exists rest, sees (devices st) GBMS_TAG_RSOC = u16_bytes (save_soc s) ++ rest.

Lemma save_capacity_ok s st :
  lawful st -> gbms_storage_init_done st = true -> 0 <= ssoc_rl s <= ssoc_point_full ->
  save_soc_available s = true -> in_step s st ->
  exists ret s' st', gbatt_save_capacity s st = Ret (ret, s', st') /\ lawful st' /\
    (0 <= ret -> save_soc s' = ssoc_get_capacity s /\ in_step s' st') /\
    (forall t, t <> GBMS_TAG_RSOC -> sees (devices st') t = sees (devices st) t).
Proof.
  intros Hst Hi Hl Ha Hstep. pose proof (capacity_range s Hl). unfold gbatt_save_capacity.
  rewrite Ha. cbn [negb]. rewrite (wrap_id 16) by lia.
  destruct (Z.eqb_spec (save_soc s) (ssoc_get_capacity s)) as [E|E].
  { eexists _, _, _; split_and!; [done|done| |done]. by intros _. }
  destruct (storage_write_lawful knows sees holds st GBMS_TAG_RSOC (u16_bytes (ssoc_get_capacity s)) 2
    Hst Hi) as (ret & st' & Hw & Hst' & Hnew & Hoth); [rewrite length_u16_bytes; lia|].
  cbn [save_soc set_saved]. rewrite Hw. run. eexists _, _, _; split_and!; [done|done| |done].
  intros Hret. split; [done|]. exists (drop 2 (sees (devices st) GBMS_TAG_RSOC)). by rewrite (Hnew Hret).
Qed.

(** What a restored level is, for a record of [cap]. *)
Definition restored (now q cap : Z) (s s' : batt_ssoc_state) : Prop :=
  2 <= cap - ssoc_get_real s <= 5 -> 0 <= q -> ssoc_gdf s = s32 (qnum_from_q8_8 q) ->
  ssoc_gdf s' = ssoc_gdf s /\
  (ssoc_point_true <= ssoc_gdf s < ssoc_point_full -> ssoc_uic s' = percent cap) /\
  (ssoc_gdf s < ssoc_point_true -> ssoc_uic s' = ssoc_gdf s).

Lemma restore_capacity_ok m top now q s st cap :
  lawful st -> gbms_storage_init_done st = true ->
  (exists rest, sees (devices st) GBMS_TAG_RSOC = u16_bytes cap ++ rest) -> 0 <= cap <= 100 ->
  ssoc_wf m top s -> 0 <= now - last_update s < 2 ^ 32 ->
  exists ret s' st', gbatt_restore_capacity now q s st = Ret (ret, s', st') /\
    ssoc_wf m top s' /\ (0 <= ret -> restored now q cap s s').
Proof.
  intros Hst Hi [rest Hrec] Hcap Hwf Hdt.
  destruct (storage_read_lawful knows sees holds st GBMS_TAG_RSOC true 2 Hst Hi eq_refl)
    as (ret & b & st' & Hread & _ & Hsee & _). unfold gbatt_restore_capacity. rewrite Hread. run.
  destruct (Z.ltb_spec ret 0) as [Hneg|Hpos].
  { eexists _, _, _; split_and!; [done..|]. lia. }
  specialize (Hsee Hpos). subst b.
  rewrite Hrec, u16_stored_bytes by lia.
  cbn [save_soc set_saved ssoc_gdf]. change (qnum_toint (ssoc_gdf s)) with (ssoc_get_real s).
  set (s1 := set_saved s (save_soc_available s) cap).
  assert (Hwf1 : ssoc_wf m top s1) by (by destruct Hwf).
  unfold RESTORE_SOC_LOWER_THRESHOLD, RESTORE_SOC_UPPER_THRESHOLD.
  destruct (_ && _) eqn:Eb.
  - destruct (reset_curve_shows m top now q cap s1 Hwf1 Hdt Hcap) as (s2 & -> & Hwf2 & Hshow).
    run. eexists _, _, _; split_and!; [done|done|]. intros _ _. exact Hshow.
  - eexists _, _, _; split_and!; [done|done|]. intros _ Hd. exfalso.
    rewrite (swrap_id 32 (cap - _)) in Eb by lia.
    apply Bool.andb_false_iff in Eb as [Eb|Eb]; apply Z.leb_gt in Eb; lia.
Qed.


End reboot.
