(* ===== verification/SsocDemo.v ===== *)
(** * Instances and defects of the state of charge (src/bms/google_battery.c)

    A limiter and a storage on which the theorems apply, and runs that show where the code
    does not do what it means to. *)

From Stdlib Require Import String.
From S2P Require Import Prelude GbmsProfile Ttf GbmsStorage StorageTable StorageContract.
From S2P Require Import Ssoc SsocCurve SsocLimit SsocTrace SsocRecharge SsocSave.

(** ** A state *)

(** [soc]% in [time] seconds, one rate below 50%. *)
Definition demo_rls (target time soc : Z) (rates limits : list Z) : batt_ssoc_rl_state :=
  mk_rls target 99 false false false time (qnum_fromint soc)
    (rates ++ replicate (8 - length rates) 0) (limits ++ replicate (8 - length limits) 0)
    (Z.of_nat (length rates)) 0 0.

Definition demo_trickle : bd_trickle := mk_trickle false 90 0 false false false 0 3 1.

Definition demo_state (gdf rl : Z) (curve : list ssoc_uicurve) (r : batt_ssoc_rl_state) (buck : Z) :=
  mk_ssoc gdf SSOC_UIC_TYPE_CHG curve gdf rl r 0 buck 95 BATT_RL_STATUS_NONE demo_trickle true 0
    DISABLE_POINT_FULL_UI_SOC BATT_SMART_RECHG_ENABLE.

Definition demo_limiter : batt_ssoc_rl_state :=
  demo_rls (percent 50) 1 100 [10] [qnum_fromint 60].

Lemma demo_limiter_ok : rls_ok 100 10 demo_limiter.
Proof.
  split; try done; cbn; try lia. constructor; [unfold ratio_ok; lia|constructor].
Qed.

Lemma chg_curve_ok : curve_ok ssoc_point_true ssoc_point_spoof ssoc_point_spoof ssoc_point_full.
Proof. split; vm_compute; intuition congruence. Qed.

Definition demo (buck : Z) : batt_ssoc_state :=
  demo_state (percent 50) (percent 50) chg_curve demo_limiter buck.

Lemma demo_ok buck : ssoc_ok 100 10 (demo buck).
Proof.
  split; [apply demo_limiter_ok| |right; vm_compute; intuition congruence].
  do 3 eexists. split; [apply chg_curve_ok|done].
Qed.

Lemma demo_wf buck : ssoc_wf 100 10 (demo buck).
Proof.
  split; [apply demo_limiter_ok|by eexists|done|vm_compute; intuition congruence].
Qed.

(** ** The theorems apply *)

Lemma ssoc_uicurve_map_interpolates_witness :
  exists v, ssoc_uicurve_map (percent 97) (three_points ssoc_point_true ssoc_point_spoof
      ssoc_point_spoof ssoc_point_full) = Ret v /\ ssoc_point_spoof <= v <= ssoc_point_full.
Proof.
  destruct (ssoc_uicurve_map_interpolates ssoc_point_true ssoc_point_spoof ssoc_point_spoof
    ssoc_point_full) as (v & Hv & _ & _ & _ & _ & _ & Hhigh).
  - split; vm_compute; intuition congruence.
  - exists (v (percent 97)). split; [apply Hv|]. apply Hhigh. vm_compute. intuition congruence.
Defined.

Lemma ssoc_change_curve_keeps_level_witness :
  exists s', ssoc_change_curve (demo 1) (percent 3) SSOC_UIC_TYPE_DSG = Ret s' /\
    ssoc_curve_type s' = SSOC_UIC_TYPE_DSG /\
    ssoc_uicurve_map (ssoc_gdf s') (ssoc_curve s') = Ret (percent 50).
Proof.
  apply (ssoc_change_curve_keeps_level (demo 1) (percent 3) SSOC_UIC_TYPE_DSG);
    vm_compute; intuition congruence.
Defined.

Definition demo_readings : list (Z * Z) := [(100, percent 70); (130, percent 72)].

Lemma demo_in_time : readings 99 demo_readings.
Proof. vm_compute. intuition congruence. Qed.

Lemma ssoc_updates_rate_limited_witness :
  exists s', ssoc_updates demo_readings (demo 1) = Ret s' /\
    8 * 1 * Z.abs (ssoc_rl s' - percent 50) <= 10 * percent 100 * (130 - 99).
Proof.
  apply (ssoc_updates_rate_limited 100 10 (demo 1) demo_readings).
  - apply demo_ok.
  - apply demo_in_time.
  - done.
  - reflexivity.
  - reflexivity.
Defined.

Lemma ssoc_updates_disconnected_fall_witness :
  exists s', ssoc_updates demo_readings (demo 0) = Ret s' /\ ssoc_rl s' <= percent 50.
Proof.
  apply (ssoc_updates_disconnected_fall 100 10 (demo 0) demo_readings).
  - apply demo_ok.
  - apply demo_in_time.
  - done.
  - reflexivity.
Defined.

Lemma ssoc_level_converges_witness :
  exists s', ssoc_updates [(100, percent 70); (101, percent 70)] (demo 1) = Ret s' /\
    ssoc_rl s' = percent 70.
Proof.
  destruct (ssoc_level_converges 100 10 (demo 1) (percent 70) [(100, percent 70); (101, percent 70)])
    as (u & Hu & Hconv).
  - apply demo_ok.
  - vm_compute. congruence.
  - vm_compute. intuition congruence.
  - apply steady_cons. split_and!; [done|by vm_compute|]. apply steady_cons.
    split_and!; [done|by vm_compute|]. split; [constructor|]. intros k now x Hk.
    by rewrite lookup_nil in Hk.
  - reflexivity.
  - vm_compute in Hu. injection Hu as <-.
    destruct Hconv as (s' & Hrun & Hl); [by left|by vm_compute|]. exists s'. split; [done|].
    rewrite Hl. reflexivity.
Defined.

(** A charge, a slow discharge and a recharge; the gauge counts in 256ths of a percent. *)
Definition demo_events : list ssoc_event :=
  [ EvConnect 99 true; EvWork 100 25600; EvSmart; EvEnter 101 BATT_RL_STATUS_DISCHARGE; EvStatus;
    EvWork 200 24000; EvStatus; EvEnter 201 BATT_RL_STATUS_DISCHARGE; EvReset; EvStatus;
    EvCurve (percent 3) SSOC_UIC_TYPE_DSG; EvConnect 300 false; EvWork 301 (-1) ].

Lemma ssoc_events_keep_percentage_witness :
  exists levels s', ssoc_run demo_events (demo 1) = Ret (levels, s') /\ ssoc_wf 100 10 s' /\
    0 <= ssoc_get_capacity s' <= 100.
Proof.
  destruct (ssoc_events_keep_percentage 100 10 99 99 demo_events (demo 1)) as [Hkeep Hret].
  - apply demo_wf.
  - vm_compute. intuition congruence.
  - vm_compute. intuition congruence.
  - destruct Hret as (levels & s' & Hrun & Hwf); [by repeat constructor|].
    exists levels, s'. split_and!; [exact Hrun|exact Hwf|apply (Hkeep levels s' Hrun)..].
Defined.

Lemma recharge_needs_discharge_witness :
  exists levels s', ssoc_run demo_events (demo 1) = Ret (levels, s') /\
    Forall (fun x => x <= 95) levels /\ (length levels + is_discharge s' <= 2)%nat /\
    levels = [93].
Proof.
  destruct (recharge_needs_discharge 100 10 99 99 demo_events (demo 1)) as (levels & s' & Hrun & Hl & Hn).
  - by repeat constructor.
  - apply demo_wf.
  - vm_compute. intuition congruence.
  - vm_compute. intuition congruence.
  - exists levels, s'. split_and!; [done|done|exact Hn|].
    vm_compute in Hrun. congruence.
Defined.

(** ** A device with one register *)

(** The value of the register, in two bytes; a request of another size is refused. *)
Definition scratch : Type := list Z.

Definition scratch_dsc : gbms_storage_desc scratch :=
  mk_desc None None
    (Some (fun tag _ count _ d =>
       Ret (if tag =? GBMS_TAG_RSOC then if count =? 2 then (2, d) else (- EINVAL, []) else (- ENOENT, []))))
    (Some (fun tag data count _ d =>
       Ret (if tag =? GBMS_TAG_RSOC
            then match data with
                 | Some l => if count =? 2 then (2, take 2 l ++ drop 2 d) else (- EINVAL, d)
                 | None => (- EINVAL, d)
                 end
            else (- ENOENT, d))))
    None None None None None.

Definition scratch_knows (i : nat) (t : Z) : bool :=
  match i with O => t =? GBMS_TAG_RSOC | S _ => false end.

Definition scratch_sees (d : scratch) (t : Z) : list Z := if t =? GBMS_TAG_RSOC then d else [].

Lemma scratch_contract ptr :
  StorageContract (scratch_knows 0) scratch_sees (fun _ => True) scratch_dsc ptr.
Proof.
  split.
  - intros f t data n d [= <-] _. eexists; split; [done|]. unfold scratch_knows, scratch_sees.
    destruct (t =? GBMS_TAG_RSOC); [|done]. split; [done|]. by destruct (n =? 2).
  - intros f t l n d [= <-] _ Hn. eexists; split; [done|]. unfold scratch_knows, scratch_sees.
    destruct (Z.eqb_spec t GBMS_TAG_RSOC) as [->|]; [|done]. rewrite ?Z.eqb_refl.
    destruct (Z.eqb_spec n 2) as [->|].
    + split_and!; try done.
      * cbn [fst snd]. change (Z.to_nat 2) with 2%nat. rewrite drop_app_ge by (rewrite length_take; lia).
        rewrite length_take, drop_drop. f_equal. lia.
      * intros t' Ht. by rewrite (proj2 (Z.eqb_neq t' _)) by done.
    + split_and!; done.
  - done.
  - done.
Qed.

(** The register in the first slot; [cache]: with the tag in the cache. *)
Definition scratch_storage (d : scratch) (cache : bool) : gbms_storage scratch :=
  mk_storage true 1 (mk_provider (Some "scratch"%string) (Some scratch_dsc) false 0 ::
    replicate 5 (empty_slot)) (Some 31%nat)
    (if cache then [mk_entry 0 GBMS_TAG_RSOC 0 GBMS_STORAGE_ADDR_INVALID] else []) d.

Lemma scratch_lawful d cache :
  lawful scratch_knows scratch_sees (fun _ => True) (scratch_storage d cache).
Proof.
  split; [..|done].
  - intros [|i] p dsc Hi Hd; cbn in Hi; [|by destruct i]. simplify_eq. cbn in Hd. simplify_eq.
    apply scratch_contract.
  - intros [|i] p Hi; cbn in Hi; [|by destruct i]. by simplify_eq.
  - intros [|i] [|j] t; cbn; by intros.
  - intros ce Hce. destruct cache; [|by apply not_elem_of_nil in Hce].
    apply list_elem_of_singleton in Hce as ->. eexists _, scratch_dsc. by split.
Qed.

(** The user sees 50%, the gauge starts at 47%. *)
Definition rebooted : batt_ssoc_state :=
  demo_state (percent 47) (percent 47) chg_curve demo_limiter 1.


(** ** Defects *)

(** A splice just above the first point is too steep for a [qnum_t]: with 90% shown and the
    gauge at 15.5%, a reading 0.1% lower takes the number from 90 to 0. *)
Theorem steep_splice_shows_zero :
  (let* s := ssoc_change_curve (demo_state (percent 15 + percent 5 / 10) (percent 90) chg_curve
      demo_limiter 1) (percent 3) SSOC_UIC_TYPE_DSG in
   let* s' := ssoc_update 200 s (percent 15 + percent 4 / 10) in
   Ret (ssoc_get_capacity s, ssoc_get_capacity s')) = Ret (90, 0).
Proof. vm_compute. reflexivity. Qed.

(** A vote for 98% as full moves the last point under its own level: a gauge between 98% and
    100% then reads past the end of the curve. *)
Theorem point_full_reads_past_curve :
  (let* s := point_full_ui_soc_cb 98 (demo 1) in Ret (ssoc_get_capacity s)) = Ret 50 /\
  (let* s := point_full_ui_soc_cb 98 (demo 1) in ssoc_update 100 s (percent 98 + percent 5 / 10)) = Undef.
Proof. split; vm_compute; reflexivity. Qed.

(** A rate of 7 tenths of the time overflows the largest change: the limiter leaves the
    percentages. *)
Theorem fast_rate_overflows :
  (let* s := ssoc_update 100 (demo_state (percent 50) (percent 50) chg_curve
      (demo_rls (percent 50) 1 100 [7] [percent 60]) 1) (percent 51) in
   Ret (ssoc_get_capacity s)) = Ret (-93).
Proof. vm_compute. reflexivity. Qed.

(** Where 0% is forbidden the number rises from 0 to 1 although the charger is away. *)
Theorem no_zero_rises_disconnected :
  (let* s := ssoc_update 100 (demo_state (percent 1) (percent 4 / 10) chg_curve
      (set_no_zero (demo_rls (percent 6 / 10) 1 100 [] []) true) 0) (percent 6 / 10) in
   Ret (connected s, ssoc_get_capacity s)) = Ret (false, 1).
Proof. vm_compute. reflexivity. Qed.

(** A tree with a change of 1% in 10 seconds, and no rates. *)
#[local] Instance plain_tree : DeviceTree := {|
  of_property_count_elems _ _ := - EINVAL;
  of_property_read_u32_array _ _ _ := inl (- EINVAL);
  of_property_read_u32 _ name :=
    if String.eqb name "google,rl_delta-max-soc" then inr 1 else
    if String.eqb name "google,rl_delta-max-time" then inr 10 else inl (- EINVAL);
  of_property_read_bool _ _ := false;
  of_children _ := [];
  gbms_storage_read_brid _ := inr 7;
|}.

(** Without rates the configuration is refused, instead of being used without them: the two
    missing properties count as equally long, and the limiter is turned off. *)
Theorem missing_rates_disable_limiter :
  (let* r := ssoc_rl_read_dt 1 (demo_rls 0 0 0 [] []) in
   Ret (r.1, rl_delta_max_time r.2, rl_delta_soc_cnt r.2)) = Ret (- EINVAL, 10, - EINVAL).
Proof. vm_compute. reflexivity. Qed.
