(* ===== verification/Msc.v ===== *)
(** * Multi step charging (src/bms/google_battery.c, msc_logic)

    The charge table of [GbmsProfile] gives a current for each range of temperatures and each
    tier of voltages.  [msc_logic] runs at every poll of the charger: it picks the row of the
    temperature, moves up the tiers as the current tapers off, raises the charger voltage to
    make up for the drop over the cable, and books the time in the statistics. *)

From S2P Require Import Prelude GbmsProfile GbmsCharge Ttf.

(** ** Data *)

Definition MSC_NONE : Z := 0.
Definition MSC_SEED : Z := 1.
Definition MSC_DSG : Z := 2.
Definition MSC_LAST : Z := 3.
Definition MSC_VSWITCH : Z := 4.
Definition MSC_VOVER : Z := 5.
Definition MSC_PULLBACK : Z := 6.
Definition MSC_FAST : Z := 7.
Definition MSC_TYPE : Z := 8.
Definition MSC_DLY : Z := 9.
Definition MSC_STEADY : Z := 10.
Definition MSC_TIERCNTING : Z := 11.
Definition MSC_RAISE : Z := 12.
Definition MSC_WAIT : Z := 13.
Definition MSC_RSTC : Z := 14.
Definition MSC_NEXT : Z := 15.
Definition MSC_NYET : Z := 16.
Definition MSC_DONE : Z := 17.
Definition MSC_HEALTH : Z := 18.
Definition MSC_HEALTH_PAUSE : Z := 19.
Definition MSC_HEALTH_ALWAYS_ON : Z := 20.

Definition POWER_SUPPLY_CHARGE_TYPE_TRICKLE : Z := 2.
Definition GBMS_CS_FLAG_CCLVL : Z := Z.shiftl 1 5.
Definition GBMS_CS_FLAG_DIRECT_CHG : Z := Z.shiftl 1 6.
Definition MSC_DEFAULT_UPDATE_INTERVAL : Z := 30000.

Definition has_flag (s : charger_state) (flag : Z) : bool := negb (Z.land (cs_flags s) flag =? 0).

(** The state of the algorithm in [struct batt_drv]; -1 for unset. *)
Record msc_algo := mk_algo {
  a_temp_idx : Z;
  a_vbatt_idx : Z;
  a_profile_vbatt_idx : Z;
  a_fv_uv : Z;
  a_cc_max : Z;
  a_topoff : Z;
  a_msc_update_interval : Z;
  a_jeita_stop_charging : Z;
  a_checked_cv_cnt : Z;
  a_checked_ov_cnt : Z;
  a_checked_tier_switch_cnt : Z;
  a_msc_state : Z;
  a_msc_irdrop_state : Z;
  a_hold_taper_ws : bool;
}.

Definition set_counts (a : msc_algo) (cv ov switch : Z) :=
  mk_algo (a_temp_idx a) (a_vbatt_idx a) (a_profile_vbatt_idx a) (a_fv_uv a) (a_cc_max a)
    (a_topoff a) (a_msc_update_interval a) (a_jeita_stop_charging a) cv ov switch
    (a_msc_state a) (a_msc_irdrop_state a) (a_hold_taper_ws a).
Definition set_cv_cnt a x := set_counts a x (a_checked_ov_cnt a) (a_checked_tier_switch_cnt a).
Definition set_ov_cnt a x := set_counts a (a_checked_cv_cnt a) x (a_checked_tier_switch_cnt a).
Definition set_switch_cnt a x := set_counts a (a_checked_cv_cnt a) (a_checked_ov_cnt a) x.
Definition set_states (a : msc_algo) (msc irdrop : Z) (hold : bool) :=
  mk_algo (a_temp_idx a) (a_vbatt_idx a) (a_profile_vbatt_idx a) (a_fv_uv a) (a_cc_max a)
    (a_topoff a) (a_msc_update_interval a) (a_jeita_stop_charging a) (a_checked_cv_cnt a)
    (a_checked_ov_cnt a) (a_checked_tier_switch_cnt a) msc irdrop hold.
Definition set_jeita (a : msc_algo) (x : Z) :=
  mk_algo (a_temp_idx a) (a_vbatt_idx a) (a_profile_vbatt_idx a) (a_fv_uv a) (a_cc_max a)
    (a_topoff a) (a_msc_update_interval a) x (a_checked_cv_cnt a)
    (a_checked_ov_cnt a) (a_checked_tier_switch_cnt a) (a_msc_state a) (a_msc_irdrop_state a)
    (a_hold_taper_ws a).

(** The settings that the algorithm reads. *)
Record msc_settings := mk_settings {
  c_dc_irdrop : bool;
  c_allow_higher_fv : bool;
  c_cv_max_temp : Z;
}.

(** ** The temperature *)

Definition TEMP_SAMPLE_SIZE : nat := 5.

(** The mean of the samples without the largest and the smallest. *)
Definition batt_get_filter_temp (sample : list Z) : outcome Z :=
  let* s0 := must (sample !! 0%nat) in
  if decide (length sample = TEMP_SAMPLE_SIZE) then
    let mx := fold_left Z.max sample s0 in
    let mn := fold_left Z.min sample s0 in
    let sum := fold_left (fun s x => s32 (s + x)) sample 0 in
    Ret (cdiv (s32 (sum - mx - mn)) (Z.of_nat TEMP_SAMPLE_SIZE - 2))
  else Undef.

(** Whether charging is off limits; the first time outside the state is left to the caller. *)
Definition msc_logic_soft_jeita (p : gbms_chg_profile) (temp : Z) (a : msc_algo)
    : outcome (bool * msc_algo) :=
  let l := limits p in
  let* lo := at_ (temp_limits l) 0 in
  let* out :=
    if temp <? lo then Ret true
    else let* hi := at_ (temp_limits l) (temp_nb_limits l - 1) in Ret (hi <=? temp) in
  if (out : bool) then
    Ret (true, if a_jeita_stop_charging a <? 0 then set_jeita a 1 else a)
  else Ret (false, a).

(** ** The drop over the cable *)

(** [tier]: what [*vbatt_idx], [*fv_uv] and [*update_interval] point to. *)
Record msc_tier := mk_msc_tier { m_vbatt_idx : Z; m_fv_uv : Z; m_interval : Z }.

Definition batt_chg_vbat2tier (vbatt_idx : Z) : Z :=
  if vbatt_idx <? GBMS_STATS_TIER_COUNT then vbatt_idx else GBMS_STATS_TIER_COUNT - 1.

(** [const int cc = GBMS_CCCM_LIMITS(...)]. *)
Definition cc_int (p : gbms_chg_profile) (ti vi : Z) : outcome Z :=
  let* cc := GBMS_CCCM_LIMITS p ti vi in Ret (s32 cc).

Section irdrop.
Context `{PowerSupplyTypes} (c : msc_settings) (p : gbms_chg_profile) (cs : charger_state).

#[local] Abbreviation b := (behavior p).
#[local] Abbreviation res := (fv_uv_resolution (behavior p)).
#[local] Abbreviation interval := (s32 (cv_update_interval (behavior p))).

(** OVER: the battery is over the tier by more than the margin. *)
Definition irdrop_over (a : msc_algo) (vtier ibatt temp_idx : Z) (match_enable no_back : bool)
    (t : msc_tier) : outcome (Z * msc_tier * msc_algo) :=
  let* cc_max := cc_int p temp_idx (m_vbatt_idx t) in
  let* fv := gbms_msc_round_fv_uv p vtier (s32 (u32 (m_fv_uv t - res))) (if no_back then cc_max else 0)
               (c_allow_higher_fv c) in
  let fv := if fv <? vtier then vtier else fv in
  let a := set_counts a 0 (s32 (cv_tier_ov_cnt b)) (a_checked_tier_switch_cnt a) in
  if (0 <? a_checked_tier_switch_cnt a) || negb match_enable then
    Ret (MSC_VSWITCH, mk_msc_tier (s32 (a_vbatt_idx a + 1)) fv interval, a)
  else if ibatt =? cc_max then
    Ret (MSC_VOVER, mk_msc_tier (m_vbatt_idx t) fv interval,
         set_ov_cnt a (s32 (a_checked_ov_cnt a * 2)))
  else
    Ret (MSC_PULLBACK, mk_msc_tier (m_vbatt_idx t) (if no_back then a_fv_uv a else fv) interval, a).

(** FAST: the charger voltage goes up by the drop. *)
Definition irdrop_fast (a : msc_algo) (vtier vbatt temp_idx vchg : Z) (no_back : bool)
    (t : msc_tier) : outcome (Z * msc_tier * msc_algo) :=
  let vchrg_uv := s32 (vchg * 1000) in
  let* fv :=
    if vchrg_uv <=? 0 then Ret vtier else
    if vbatt <? vchrg_uv then
      let* cc_max := cc_int p temp_idx (m_vbatt_idx t) in
      gbms_msc_round_fv_uv p vtier (s32 (vtier + s32 (vchrg_uv - vbatt)))
        (if no_back then cc_max else 0) (c_allow_higher_fv c)
    else Ret (m_fv_uv t) in
  let fv := if no_back && (fv <? m_fv_uv t) then m_fv_uv t else fv in
  let a := if a_checked_cv_cnt a =? 0 then set_cv_cnt a 1 else a in
  Ret (MSC_FAST, mk_msc_tier (m_vbatt_idx t) fv (m_interval t), a).

Definition msc_logic_irdrop (a : msc_algo) (vbatt ibatt temp_idx : Z) (t : msc_tier)
    : outcome (Z * msc_tier * msc_algo) :=
  let* vtier := at_ (volt_limits (limits p)) (m_vbatt_idx t) in
  let chg_type := cs_chg_type cs in
  let utv_margin := s32 (cv_range_accuracy b) in
  let otv_margin := s32 (cv_otv_margin b) in
  let switch_cnt := s32 (cv_tier_switch_cnt b) in
  let no_back := has_flag cs GBMS_CS_FLAG_DIRECT_CHG && c_dc_irdrop c in
  let vchg := if has_flag cs GBMS_CS_FLAG_DIRECT_CHG && negb (c_dc_irdrop c) then 0 else cs_vchrg cs in
  let match_enable := negb (vchg =? 0) in
  let steady := mk_msc_tier (m_vbatt_idx t) (m_fv_uv t) interval in
  if otv_margin <? s32 (vbatt - vtier) then
    irdrop_over a vtier ibatt temp_idx match_enable no_back t
  else if chg_type =? POWER_SUPPLY_CHARGE_TYPE_FAST then
    irdrop_fast a vtier vbatt temp_idx vchg no_back t
  else if chg_type =? POWER_SUPPLY_CHARGE_TYPE_TRICKLE then
    Ret (MSC_TYPE, t, if a_checked_cv_cnt a =? 0 then set_cv_cnt a 1 else a)
  else if negb (chg_type =? POWER_SUPPLY_CHARGE_TYPE_TAPER_EXT) then
    if s32 (vtier - utv_margin) <? vbatt then Ret (MSC_TYPE, steady, set_cv_cnt a 0)
    else Ret (MSC_TYPE, t, set_cv_cnt a 1)
  else if negb (a_checked_ov_cnt a =? 0) then
    Ret (MSC_DLY, steady, set_ov_cnt a (s32 (a_checked_ov_cnt a - 1)))
  else if s32 (vtier - vbatt) <? utv_margin then Ret (MSC_STEADY, steady, a)
  else if s32 (switch_cnt - 1) <=? a_checked_tier_switch_cnt a then
    Ret (MSC_TIERCNTING, steady, a)
  else if match_enable then
    let* cc_max := cc_int p temp_idx (m_vbatt_idx t) in
    let* fv := gbms_msc_round_fv_uv p vtier (s32 (u32 (m_fv_uv t + res)))
                 (if no_back then cc_max else 0) (c_allow_higher_fv c) in
    Ret (MSC_RAISE, mk_msc_tier (m_vbatt_idx t) fv interval, set_cv_cnt a (s32 (cv_debounce_cnt b)))
  else Ret (MSC_STEADY, t, a).

(** ** The tiers *)

(** Whether the wake source is held (1) or released (0) in a state. *)
Definition msc_pm_hold (msc_state : Z) : Z :=
  if (msc_state =? MSC_RAISE) || (msc_state =? MSC_VOVER) || (msc_state =? MSC_PULLBACK)
  then 1 else 0.

(** The switch to the next tier, once the current is under what the next tier allows. *)
Definition msc_next_tier (a : msc_algo) (ibatt temp cc_next_max msc_state vbatt_idx : Z)
    : Z * Z * msc_algo :=
  let switch_cnt := s32 (cv_tier_switch_cnt b) in
  if 0 <? a_checked_cv_cnt a then
    let a := set_cv_cnt a (s32 (a_checked_cv_cnt a - 1)) in
    (MSC_WAIT, vbatt_idx, if cc_next_max <? ibatt then set_switch_cnt a 0 else a)
  else if negb (cc_next_max =? 0) && (cc_next_max <? ibatt) then
    (MSC_RSTC, vbatt_idx, set_switch_cnt a 0)
  else if (cc_next_max =? 0) && (cs_chg_type cs =? POWER_SUPPLY_CHARGE_TYPE_TAPER_EXT) &&
          (c_cv_max_temp c <=? u32 temp) then
    (MSC_DONE, s32 (a_vbatt_idx a + 1), a)
  else if switch_cnt <=? a_checked_tier_switch_cnt a then
    (MSC_NEXT, s32 (a_vbatt_idx a + 1), a)
  else (MSC_NYET, vbatt_idx, set_switch_cnt a (s32 (a_checked_tier_switch_cnt a + 1))).

(** The branches of [msc_logic]: the state, the tier, and the state to book in the statistics
    of a tier, if any. *)
Definition msc_branch (a : msc_algo) (vbatt ibatt temp temp_idx : Z)
    : outcome (Z * msc_tier * msc_algo * option (Z * Z)) :=
  let t := mk_msc_tier (a_vbatt_idx a) (a_fv_uv a) MSC_DEFAULT_UPDATE_INTERVAL in
  let moved i := mk_msc_tier i (m_fv_uv t) (m_interval t) in
  if negb (temp_idx =? a_temp_idx a) || (a_fv_uv a =? -1) || (a_vbatt_idx a =? -1) then
    let* i := if (a_vbatt_idx a =? -1) || negb (temp_idx =? a_temp_idx a)
              then gbms_msc_voltage_idx_merge_tiers (Some p) vbatt temp_idx
              else Ret (a_vbatt_idx a) in
    let a := if a_checked_tier_switch_cnt a =? 0 then set_cv_cnt a (s32 (cv_debounce_cnt b)) else a in
    Ret (MSC_SEED, moved i, a, None)
  else if a_msc_state a =? MSC_DONE then
    let* vtier := at_ (volt_limits (limits p)) (a_vbatt_idx a) in
    Ret (if vbatt <? s32 (vtier - 200000) then MSC_DSG else MSC_DONE, t, a, None)
  else if ibatt <? 0 then
    let* _ := at_ (volt_limits (limits p)) (a_vbatt_idx a) in
    let* i := gbms_msc_voltage_idx_merge_tiers (Some p) vbatt temp_idx in
    Ret (MSC_DSG, moved i, a, None)
  else
    let* last := gbms_msc_get_last_voltage_idx p temp_idx in
    let* _ := at_ (volt_limits (limits p)) (a_vbatt_idx a) in
    if a_vbatt_idx a =? last then
      Ret (if cs_chg_type cs =? POWER_SUPPLY_CHARGE_TYPE_FAST then MSC_FAST
           else if negb (cs_chg_type cs =? POWER_SUPPLY_CHARGE_TYPE_TAPER_EXT) then MSC_TYPE
           else MSC_LAST, t, a, None)
    else
      let* cc_next_max := cc_int p temp_idx (a_vbatt_idx a + 1) in
      let* r := msc_logic_irdrop a vbatt ibatt temp_idx t in
      let '(state, t, a') := r in
      let a' := set_states a' (a_msc_state a') state
                  (if (msc_pm_hold state =? 1) then true else a_hold_taper_ws a') in
      let '(state, i, a') := msc_next_tier a' ibatt temp cc_next_max state (m_vbatt_idx t) in
      Ret (state, mk_msc_tier i (m_fv_uv t) (m_interval t), a',
           Some (batt_chg_vbat2tier (a_vbatt_idx a), a_msc_irdrop_state a)).

(** What the poll decides: the new tier, with a new voltage only where tier or row change. *)
Definition msc_decide (a : msc_algo) (vbatt ibatt temp temp_idx : Z)
    : outcome (Z * msc_tier * msc_algo * option (Z * Z)) :=
  let* r := msc_branch a vbatt ibatt temp temp_idx in
  let '(state, t, a, booked) := r in
  let a := if (msc_pm_hold state =? 0) && a_hold_taper_ws a
           then set_states a (a_msc_state a) (a_msc_irdrop_state a) false else a in
  if negb (m_vbatt_idx t =? a_vbatt_idx a) || negb (temp_idx =? a_temp_idx a) then
    let* i := gbms_msc_voltage_idx_merge_tiers (Some p) vbatt temp_idx in
    let* fv := at_ (volt_limits (limits p)) i in
    Ret (state, mk_msc_tier i fv (m_interval t), set_counts a (a_checked_cv_cnt a) 0 0, booked)
  else Ret (state, t, a, booked).

(** The end of [msc_logic]: the decision is published. *)
Definition msc_publish (a : msc_algo) (state temp_idx profile_vbatt_idx : Z) (t : msc_tier)
    : outcome msc_algo :=
  let* cc := cc_int p temp_idx (m_vbatt_idx t) in
  let* topoff := at_ (topoff_limits (limits p)) temp_idx in
  Ret (mk_algo temp_idx (m_vbatt_idx t) profile_vbatt_idx (m_fv_uv t) cc topoff
         (m_interval t) (a_jeita_stop_charging a) (a_checked_cv_cnt a) (a_checked_ov_cnt a)
         (a_checked_tier_switch_cnt a) state (a_msc_irdrop_state a) (a_hold_taper_ws a)).

End irdrop.
