(* ===== verification/MscDrv.v ===== *)
(** The charging part of [struct batt_drv] (src/bms/google_battery.c): the state that a poll
    of the charger changes, the statistics of the charging event, the request for a stronger
    adapter, the reset on disconnect, and the whole of [msc_logic].

    Votes that are cast in other drivers' elections are kept as a log, to be replayed in
    the elections of [GvElection]. *)

From Stdlib Require Import String.
From stdpp Require Import functions.
From S2P Require Import Prelude GbmsProfile GbmsCharge Ttf Ssoc Msc.

(** ** Constants *)

Definition POWER_SUPPLY_STATUS_CHARGING : Z := 1.
Definition POWER_SUPPLY_HEALTH_OVERHEAT : Z := 2.

Definition CHG_HEALTH_CCLVL_DISABLED : Z := -6.
Definition CHG_HEALTH_BD_DISABLED : Z := -5.
Definition CHG_HEALTH_USER_DISABLED : Z := -3.
Definition CHG_HEALTH_DISABLED : Z := -2.
Definition CHG_HEALTH_DONE : Z := -1.
Definition CHG_HEALTH_INACTIVE : Z := 0.
Definition CHG_HEALTH_ENABLED : Z := 1.

Definition CHG_DEADLINE_DIALOG : Z := -3.
Definition CHG_DEADLINE_SETTING_STOP : Z := -2.
Definition CHG_DEADLINE_SETTING : Z := -1.

Definition CHARGING_POLICY_VOTE_LONGLIFE : Z := 4.
Definition LONGLIFE_CHARGE_STOP_LEVEL : Z := 80.
Definition SSOC_HIGH_SOC : Z := 90.
Definition MIN_DELTA_FOR_LOG_S : Z := 60.
Definition MAX_RATIO_MP_LIMIT : Z := 70.
Definition GBMS_STATS_TI_EOC : Z := 102.

Definition VOTABLE_MSC_LAST : string := "MSC_LAST".
Definition VOTABLE_FAN_LEVEL : string := "FAN_LEVEL".

(** ** State *)

(** [struct batt_chg_health]. *)
Record batt_chg_health := mk_health {
  h_rest_soc : Z;
  h_rest_voltage : Z;
  h_always_on_soc : Z;
  h_rest_deadline : Z;
  h_dry_run_deadline : Z;
  h_rest_rate : Z;
  h_rest_rate_before_trigger : Z;
  h_rest_state : Z;
  h_rest_cc_max : Z;
  h_rest_fv_uv : Z;
  h_active_time : Z;
}.

Definition set_rest (h : batt_chg_health) (state cc_max fv_uv : Z) :=
  mk_health (h_rest_soc h) (h_rest_voltage h) (h_always_on_soc h) (h_rest_deadline h)
    (h_dry_run_deadline h) (h_rest_rate h) (h_rest_rate_before_trigger h) state cc_max fv_uv
    (h_active_time h).
Definition set_deadline (h : batt_chg_health) (state deadline : Z) :=
  mk_health (h_rest_soc h) (h_rest_voltage h) (h_always_on_soc h) deadline
    (h_dry_run_deadline h) (h_rest_rate h) (h_rest_rate_before_trigger h) state (h_rest_cc_max h)
    (h_rest_fv_uv h) (h_active_time h).
Definition set_times (h : batt_chg_health) (dry_run active : Z) :=
  mk_health (h_rest_soc h) (h_rest_voltage h) (h_always_on_soc h) (h_rest_deadline h)
    dry_run (h_rest_rate h) (h_rest_rate_before_trigger h) (h_rest_state h) (h_rest_cc_max h)
    (h_rest_fv_uv h) active.

(** The tiers of the charging event beside those of the charge table and [health_stats]. *)
Inductive other_tier :=
| HIGH_SOC | HEALTH_DRYRUN | FULL_CHARGE | EOC_CHARGE | HEALTH_PAUSE
| TEMP_FILTER | OVERHEAT | POLICY_FORCE_FULL | POLICY_LONGLIFE | CC_LVL.

#[global] Instance other_tier_eq_dec : EqDecision other_tier.
Proof. solve_decision. Defined.

(** What the statistics copy into the event, unchanged, for the log. *)
Record event_log := mk_log {
  l_csi_aggregate_status : Z;
  l_csi_aggregate_type : Z;
  l_aacp_version : Z;
  l_aacc : Z;
  l_aafv : Z;
  l_aacc_chg_cc : Z;
}.

(** The rest of [struct gbms_charging_event]. *)
Record event_rest := mk_event {
  v_voltage_in : Z;
  v_cc_in : Z;
  v_first_update : Z;
  v_last_update : Z;
  v_max_charge_voltage : Z;
  v_tiers : other_tier -> gbms_ce_tier_stats;
  v_log : event_log;
}.

(** Fields of [struct batt_drv] and values of elections that other parts set: read only. *)
Record msc_env := mk_env {
  e_temp_filter : option (list Z * Z);  (* samples and [last_idx], when enabled *)
  e_batt_full : bool;
  e_batt_health : Z;
  e_fake_capacity : Z;
  e_soc_mp_limit_low : Z;
  e_soc_mp_limit_high : Z;
  e_therm_mp_limit : Z;
  e_thermal_level : Z;                   (* [batt_get_thermal_level] *)
  e_health_safety_margin : Z;
  e_csi_status : Z;
  e_csi_type : Z;
  e_aacp_version : Z;
  e_aacc : Z;
  e_aawc : Z;
  e_fake_temp : Z;
  e_fan_bt_limits : list Z;
  e_battery_capacity : Z;
  e_force_fcr_update_ops : Z;
  e_bd_trickle_rate : Z;
  e_bpst_detect_disable : bool;
  e_bpst_cell_fault : bool;
  e_bpst_chg_rate : Z;
  e_cycle_count : Z;
  e_ssoc_delta : Z;
  e_disable_votes : bool;
}.

(** What one poll of the gauge gives: [None] is an error. *)
Record gauge := mk_gauge {
  g_temp : option Z;
  g_current_now : option Z;
  g_voltage_now : Z;
  g_charge_counter : Z;
  g_capacity_raw : Z;
  g_need_charge_to_full : Z;
}.

(** An election, a voter, a value and whether the vote is enabled. *)
Definition vote : Type := (string * (string * Z * bool))%type.

(** The properties of the gauge that are written. *)
Inductive gauge_prop := NEED_CHARGE_TO_FULL | BATT_CE_CTRL | FG_EVENT_LOGGING.

Record batt_drv := mk_drv {
  d_profile : gbms_chg_profile;
  d_settings : msc_settings;
  d_env : msc_env;
  d_cs : charger_state;
  d_algo : msc_algo;
  d_ssoc : batt_ssoc_state;
  d_ttf : batt_ttf_stats;
  d_ttf_est : Z;
  d_ce : gbms_charging_event;
  d_ev : event_rest;
  d_health : batt_chg_health;
  d_charging_policy : Z;
  d_vote_force_full : bool;
  d_fast_update_cnt : Z;
  d_fg_status : Z;
  d_chg_done : bool;
  d_mp_debounce : bool;
  d_need_mp : bool;
  d_votes : list vote;
  d_writes : list (gauge_prop * Z);
}.

Definition set_algo (d : batt_drv) (a : msc_algo) :=
  mk_drv (d_profile d) (d_settings d) (d_env d) (d_cs d) a (d_ssoc d) (d_ttf d) (d_ttf_est d)
    (d_ce d) (d_ev d) (d_health d) (d_charging_policy d) (d_vote_force_full d)
    (d_fast_update_cnt d) (d_fg_status d) (d_chg_done d) (d_mp_debounce d) (d_need_mp d) (d_votes d) (d_writes d).
Definition set_ssoc (d : batt_drv) (s : batt_ssoc_state) :=
  mk_drv (d_profile d) (d_settings d) (d_env d) (d_cs d) (d_algo d) s (d_ttf d) (d_ttf_est d)
    (d_ce d) (d_ev d) (d_health d) (d_charging_policy d) (d_vote_force_full d)
    (d_fast_update_cnt d) (d_fg_status d) (d_chg_done d) (d_mp_debounce d) (d_need_mp d) (d_votes d) (d_writes d).
Definition set_ttf_est (d : batt_drv) (x : Z) :=
  mk_drv (d_profile d) (d_settings d) (d_env d) (d_cs d) (d_algo d) (d_ssoc d) (d_ttf d) x
    (d_ce d) (d_ev d) (d_health d) (d_charging_policy d) (d_vote_force_full d)
    (d_fast_update_cnt d) (d_fg_status d) (d_chg_done d) (d_mp_debounce d) (d_need_mp d) (d_votes d) (d_writes d).
Definition set_event (d : batt_drv) (ce : gbms_charging_event) (v : event_rest) :=
  mk_drv (d_profile d) (d_settings d) (d_env d) (d_cs d) (d_algo d) (d_ssoc d) (d_ttf d)
    (d_ttf_est d) ce v (d_health d) (d_charging_policy d) (d_vote_force_full d)
    (d_fast_update_cnt d) (d_fg_status d) (d_chg_done d) (d_mp_debounce d) (d_need_mp d) (d_votes d) (d_writes d).
Definition set_health (d : batt_drv) (h : batt_chg_health) :=
  mk_drv (d_profile d) (d_settings d) (d_env d) (d_cs d) (d_algo d) (d_ssoc d) (d_ttf d)
    (d_ttf_est d) (d_ce d) (d_ev d) h (d_charging_policy d) (d_vote_force_full d)
    (d_fast_update_cnt d) (d_fg_status d) (d_chg_done d) (d_mp_debounce d) (d_need_mp d) (d_votes d) (d_writes d).
Definition set_polling (d : batt_drv) (cnt status : Z) (done : bool) :=
  mk_drv (d_profile d) (d_settings d) (d_env d) (d_cs d) (d_algo d) (d_ssoc d) (d_ttf d)
    (d_ttf_est d) (d_ce d) (d_ev d) (d_health d) (d_charging_policy d) (d_vote_force_full d)
    cnt status done (d_mp_debounce d) (d_need_mp d) (d_votes d) (d_writes d).
Definition set_mp (d : batt_drv) (debounce need : bool) :=
  mk_drv (d_profile d) (d_settings d) (d_env d) (d_cs d) (d_algo d) (d_ssoc d) (d_ttf d)
    (d_ttf_est d) (d_ce d) (d_ev d) (d_health d) (d_charging_policy d) (d_vote_force_full d)
    (d_fast_update_cnt d) (d_fg_status d) (d_chg_done d) debounce need (d_votes d) (d_writes d).
Definition cast (d : batt_drv) (election voter : string) (value : Z) (enabled : bool) :=
  mk_drv (d_profile d) (d_settings d) (d_env d) (d_cs d) (d_algo d) (d_ssoc d) (d_ttf d)
    (d_ttf_est d) (d_ce d) (d_ev d) (d_health d) (d_charging_policy d) (d_vote_force_full d)
    (d_fast_update_cnt d) (d_fg_status d) (d_chg_done d) (d_mp_debounce d) (d_need_mp d)
    (d_votes d ++ [(election, (voter, value, enabled))]) (d_writes d).
Definition gauge_write (d : batt_drv) (p : gauge_prop) (value : Z) :=
  mk_drv (d_profile d) (d_settings d) (d_env d) (d_cs d) (d_algo d) (d_ssoc d) (d_ttf d)
    (d_ttf_est d) (d_ce d) (d_ev d) (d_health d) (d_charging_policy d) (d_vote_force_full d)
    (d_fast_update_cnt d) (d_fg_status d) (d_chg_done d) (d_mp_debounce d) (d_need_mp d)
    (d_votes d) (d_writes d ++ [(p, value)]).
Definition set_policy (d : batt_drv) (policy : Z) (force_full : bool) :=
  mk_drv (d_profile d) (d_settings d) (d_env d) (d_cs d) (d_algo d) (d_ssoc d) (d_ttf d)
    (d_ttf_est d) (d_ce d) (d_ev d) (d_health d) policy force_full
    (d_fast_update_cnt d) (d_fg_status d) (d_chg_done d) (d_mp_debounce d) (d_need_mp d)
    (d_votes d) (d_writes d).

(** ** Time to full *)

Definition batt_charge_to_limit_enable (h : batt_chg_health) : bool :=
  (h_rest_rate h =? 0) && (0 <? h_always_on_soc h).

Definition gbatt_get_capacity (d : batt_drv) : Z :=
  if (0 <=? e_fake_capacity (d_env d)) && (e_fake_capacity (d_env d) <=? 100)
  then e_fake_capacity (d_env d) else ssoc_get_capacity (d_ssoc d).

(** The status or the largest ratio, and the estimate. *)
Definition batt_ttf_estimate (d : batt_drv) : outcome (Z * Z * batt_drv) :=
  if negb (buck_enabled (d_ssoc d) =? 1) then Ret (- EINVAL, 0, d) else
  if negb (ttf_fake (d_ttf d) =? -1) then Ret (0, ttf_fake (d_ttf d), d) else
  let longlife := d_charging_policy d =? CHARGING_POLICY_VOTE_LONGLIFE in
  let ssoc_full :=
    if longlife then LONGLIFE_CHARGE_STOP_LEVEL
    else if batt_charge_to_limit_enable (d_health d) then h_always_on_soc (d_health d)
    else SSOC_FULL in
  let raw_full := s32 (qnum_fromint ssoc_full - SOC_ROUND_BASE) in
  if ssoc_full <=? ssoc_get_capacity (d_ssoc d) then Ret (0, 0, d) else
  if negb (d_fast_update_cnt d =? 0) ||
     (e_batt_health (d_env d) =? POWER_SUPPLY_HEALTH_OVERHEAT) ||
     (has_flag (d_cs d) GBMS_CS_FLAG_CCLVL && negb longlife) then Ret (0, -1, d) else
  let* r := ttf_soc_estimate (d_ttf d) (d_ce d) (ssoc_get_real_raw (d_ssoc d)) raw_full in
  let estimate := match r with (rc, Some e) => if rc <? 0 then -1 else e | (_, None) => -1 end in
  let max_ratio := if r.1 <? 0 then 0 else r.1 in
  Ret (max_ratio, estimate,
       if MIN_DELTA_FOR_LOG_S <? Z.abs (s64 (d_ttf_est d - estimate)) then set_ttf_est d estimate else d).

(** ** A stronger adapter *)

Definition batt_mp_adapter_qual (d : batt_drv) : bool :=
  let demand := cdiv (s32 (a_cc_max (d_algo d) * 75)) 100 in
  negb (s32 (ad_amperage (d_ce d) * 100000) <=? demand).

Definition batt_mp_ttf_qual (d : batt_drv) : outcome (bool * batt_drv) :=
  let* r := batt_ttf_estimate d in
  Ret (negb (r.1.1 <? MAX_RATIO_MP_LIMIT), r.2).

Definition batt_needs_more_power (d : batt_drv) (ibatt : Z) : outcome (bool * batt_drv) :=
  let e := d_env d in
  if negb (cs_chg_status (d_cs d) =? POWER_SUPPLY_STATUS_CHARGING) ||
     negb (h_rest_state (d_health d) =? CHG_HEALTH_DISABLED) ||
     (ibatt <? cdiv (a_cc_max (d_algo d)) 10) ||
     (e_therm_mp_limit e <? e_thermal_level e) then Ret (false, d) else
  let capacity := gbatt_get_capacity d in
  let debounce :=
    if e_soc_mp_limit_high e <=? capacity then true
    else if capacity <=? e_soc_mp_limit_low e then false else d_mp_debounce d in
  let d := set_mp d debounce (d_need_mp d) in
  if debounce || negb (batt_mp_adapter_qual d) then Ret (false, d) else
  batt_mp_ttf_qual d.

(** ** Statistics *)

Definition set_ce_soc (ce : gbms_charging_event) (s : ttf_soc_stats) (last : Z) :=
  mk_ce (ad_voltage ce) (ad_amperage ce) (chg_profile ce) (ssoc_in ce) (ssoc_out ce)
    (ce_tier_stats ce) s last (rest_state ce) (rest_soc ce) (always_on_soc ce) (rest_rate ce)
    (rest_cc_max ce) (health_stats ce).
Definition set_ce_tiers (ce : gbms_charging_event) (l : list gbms_ce_tier_stats)
    (health : gbms_ce_tier_stats) :=
  mk_ce (ad_voltage ce) (ad_amperage ce) (chg_profile ce) (ssoc_in ce) (ssoc_out ce)
    l (ce_soc_stats ce) (last_soc ce) (rest_state ce) (rest_soc ce) (always_on_soc ce)
    (rest_rate ce) (rest_cc_max ce) health.

(** Updates one of the tiers of the charge table. *)
Definition update_tier (l : list gbms_ce_tier_stats) (i : Z)
    (f : gbms_ce_tier_stats -> gbms_ce_tier_stats) : outcome (list gbms_ce_tier_stats) :=
  let* t := tier_at l i in Ret (<[Z.to_nat i := f t]> l).

Definition batt_chg_stats_soc_update (ce : gbms_charging_event) (soc elap tier_index cc : Z)
    : outcome gbms_charging_event :=
  let index := qnum_toint soc in
  let index := if index <? 0 then 0 else index in
  let index := if 100 <? index then 100 else index in
  if index <? last_soc ce then Ret ce else
  let s := ce_soc_stats ce in
  let* e := at_ (ss_elap s) index in
  let* s :=
    if e =? 0 then
      let* ti := put_cell (ss_ti s) index tier_index in
      let* c := put_cell (ss_cc s) index cc in
      Ret (mk_soc ti c (ss_elap s))
    else Ret s in
  let* s :=
    if negb (last_soc ce =? -1) then
      let* e := at_ (ss_elap s) (last_soc ce) in
      let* l := put_cell (ss_elap s) (last_soc ce) (s64 (e + elap)) in
      Ret (mk_soc (ss_ti s) (ss_cc s) l)
    else Ret s in
  Ret (set_ce_soc ce s index).

Section drv.
Context `{PowerSupplyTypes}.

Definition book_other (v : event_rest) (k : other_tier) (f : gbms_ce_tier_stats -> gbms_ce_tier_stats) :=
  mk_event (v_voltage_in v) (v_cc_in v) (v_first_update v) (v_last_update v) (v_max_charge_voltage v) (<[k := f (v_tiers v k)]> (v_tiers v)) (v_log v).

Definition set_log (v : event_rest) (l : event_log) :=
  mk_event (v_voltage_in v) (v_cc_in v) (v_first_update v) (v_last_update v) (v_max_charge_voltage v) (v_tiers v) l.

Definition log_event (d : batt_drv) : outcome event_rest :=
  let l := limits (d_profile d) in
  let e := d_env d in
  let* last := at_ (volt_limits l) (volt_nb_limits l - 1) in
  Ret (set_log (d_ev d) (mk_log (e_csi_status e) (e_csi_type e) (e_aacp_version e) (e_aacc e)
         (cdiv last 1000) (cdiv (e_aawc e) 1000))).

(** The full tier is copied to the end-of-charge tier the first time that charging is done. *)
Definition book_full (d : batt_drv) (v : event_rest) (f : gbms_ce_tier_stats -> gbms_ce_tier_stats) :=
  let v := book_other v FULL_CHARGE f in
  if d_chg_done d && (t_soc_in (v_tiers v EOC_CHARGE) =? -1) &&
     negb (bool_decide (sr_state (d_ssoc d) = BATT_SMART_RECHG_TRIGGER)) &&
     (bd_cnt (trickle (d_ssoc d)) =? 0)
  then
    let t := v_tiers v FULL_CHARGE in
    book_other v EOC_CHARGE (fun _ =>
      mk_tier (t_temp_idx t) GBMS_STATS_TI_EOC (t_soc_in t) (t_cc_in t) (t_cc_total t)
        (t_time_fast t) (t_time_taper t) (t_time_other t) (t_temp_in t) (t_temp_min t)
        (t_temp_max t) (t_ibatt_min t) (t_ibatt_max t) (t_icl_min t) (t_icl_max t) (t_icl_sum t)
        (t_temp_sum t) (t_ibatt_sum t) (t_sample_count t) (t_msc_cnt t) (t_msc_elap t))
  else v.

(** The tiers in series: the event, and whether the tier of the table is still to be
    booked. *)
Definition book_series (d : batt_drv) (ce : gbms_charging_event) (v : event_rest)
    (tier_idx elap cc : Z) (up : Z -> gbms_ce_tier_stats -> gbms_ce_tier_stats) (temp : Z)
    : outcome (gbms_charging_event * event_rest * bool) :=
  let msc_state := a_msc_state (d_algo d) in
  if e_batt_full (d_env d) then Ret (ce, book_full d v (up temp), false)
  else if msc_state =? MSC_HEALTH_PAUSE then Ret (ce, book_other v HEALTH_PAUSE (up temp), false)
  else if (msc_state =? MSC_HEALTH) || (msc_state =? MSC_HEALTH_ALWAYS_ON) then
    Ret (set_ce_tiers ce (ce_tier_stats ce) (up temp (health_stats ce)), v, false)
  else match e_temp_filter (d_env d) with
  | Some (sample, last_idx) =>
    let* no_filter_temp := at_ sample last_idx in
    Ret (ce, book_other v TEMP_FILTER (up no_filter_temp), false)
  | None =>
    let* ce :=
      if negb (msc_state =? MSC_DSG)
      then batt_chg_stats_soc_update ce (ssoc_get_capacity_raw (d_ssoc d)) elap tier_idx cc
      else Ret ce in
    Ret (ce, v, true)
  end.

Definition batt_chg_stats_update (d : batt_drv) (g : gauge) (temp_idx tier_idx ibatt_ma temp elap : Z)
    : outcome batt_drv :=
  if elap =? 0 then Ret d else
  if g_charge_counter g <? 0 then Ret d else
  let cc := cdiv (g_charge_counter g) 1000 in
  let soc_in := if g_capacity_raw g <? 0 then -1 else g_capacity_raw g in
  let up temp := gbms_stats_update_tier temp_idx ibatt_ma temp elap cc (d_cs d)
                   (a_msc_state (d_algo d)) soc_in in
  let* v := log_event d in
  let v := if SSOC_HIGH_SOC <=? ssoc_get_real (d_ssoc d) then book_other v HIGH_SOC (up temp) else v in
  let v := if 0 <? h_dry_run_deadline (d_health d) then book_other v HEALTH_DRYRUN (up temp) else v in
  let* r := book_series d (d_ce d) v tier_idx elap cc up temp in
  let '(ce, v, tier) := r in
  let overheat := e_batt_health (d_env d) =? POWER_SUPPLY_HEALTH_OVERHEAT in
  let v := if overheat then book_other v OVERHEAT (up temp) else v in
  let '(v, policy) :=
    if d_vote_force_full d then (book_other v POLICY_FORCE_FULL (up temp), true)
    else if d_charging_policy d =? CHARGING_POLICY_VOTE_LONGLIFE
    then (book_other v POLICY_LONGLIFE (up temp), true)
    else if has_flag (d_cs d) GBMS_CS_FLAG_CCLVL then (book_other v CC_LVL (up temp), true)
    else (v, false) in
  if negb tier || overheat || policy then Ret (set_event d ce v) else
  let* l := update_tier (ce_tier_stats ce) tier_idx (up temp) in
  Ret (set_event d (set_ce_tiers ce l (health_stats ce)) v).

(** ** Reset *)

Definition batt_reset_rest_state (h : batt_chg_health) : batt_chg_health :=
  let h := set_rest h (h_rest_state h) (-1) (-1) in
  let h := if (h_rest_deadline h <? 0) && negb (h_rest_deadline h =? CHG_DEADLINE_DIALOG)
           then set_deadline h CHG_HEALTH_USER_DISABLED (h_rest_deadline h)
           else set_deadline h CHG_HEALTH_INACTIVE 0 in
  set_times h 0 0.

Definition fan_level_reset (d : batt_drv) : batt_drv := cast d VOTABLE_FAN_LEVEL "MSC_BATT" 0 false.

Definition reset_trickle (s : batt_ssoc_state) : batt_ssoc_state :=
  let t := trickle s in
  set_connection s (disconnect_time s) (buck_enabled s)
    (mk_trickle (bd_enable t) (bd_recharge_soc t) (bd_cnt t) (bd_dry_run t) false false
       (bd_reset_sec t) (bd_cnt_thr t) (bd_version t)).

(** [topoff] and the state of the drop keep their values. *)
Definition reset_algo (a : msc_algo) : msc_algo :=
  mk_algo (-1) (-1) (-1) (-1) (-1) (a_topoff a) (-1) (-1) 0 0 0 (-1) (a_msc_irdrop_state a) false.

Definition batt_reset_chg_drv_state (d : batt_drv) : batt_drv :=
  let d := set_polling d 0 POWER_SUPPLY_STATUS_UNKNOWN false in
  let d := set_ssoc d (reset_trickle (d_ssoc d)) in
  let d := set_algo d (reset_algo (d_algo d)) in
  let d := set_health d (batt_reset_rest_state (d_health d)) in
  fan_level_reset d.

(** ** The poll *)

Definition gbatt_get_raw_temp (d : batt_drv) (g : gauge) : outcome (option Z) :=
  match e_temp_filter (d_env d) with
  | Some (sample, _) => let* t := batt_get_filter_temp sample in Ret (Some t)
  | None => Ret (g_temp g)
  end.

Definition set_times_voltage (v : event_rest) (last_update max_voltage : Z) : event_rest :=
  mk_event (v_voltage_in v) (v_cc_in v) (v_first_update v) last_update max_voltage (v_tiers v) (v_log v).
Definition set_max_voltage (d : batt_drv) (x : Z) : batt_drv :=
  set_event d (d_ce d) (set_times_voltage (d_ev d) (v_last_update (d_ev d)) x).
Definition set_updated (d : batt_drv) (now : Z) : batt_drv :=
  set_event d (d_ce d) (set_times_voltage (d_ev d) now (v_max_charge_voltage (d_ev d))).

(** Books the time to the tier that was charging and to its state. *)
Definition book_irdrop (d : batt_drv) (elap : Z) (booked : option (Z * Z)) : outcome batt_drv :=
  match booked with
  | None => Ret d
  | Some (tier_idx, state) =>
    let* l := update_tier (ce_tier_stats (d_ce d)) tier_idx (fun t => gbms_chg_stats_tier t state elap) in
    Ret (set_event d (set_ce_tiers (d_ce d) l (health_stats (d_ce d))) (d_ev d))
  end.

(** The end of [msc_logic], from the vote on the last tier on. *)
Definition msc_finish (now elap : Z) (g : gauge) (d : batt_drv) (vbatt ibatt temp temp_idx : Z)
    (state : Z) (t : msc_tier) : outcome batt_drv :=
  let p := d_profile d in
  let* last := gbms_msc_get_last_voltage_idx p temp_idx in
  let d := cast d VOTABLE_MSC_LAST "BATT" (Z.b2z (m_vbatt_idx t =? last)) true in
  let* pi := gbms_msc_voltage_idx p vbatt in
  let* d :=
    if negb (pi =? -1) && (pi <? volt_nb_limits (limits p)) then
      batt_chg_stats_update d g temp_idx (batt_chg_vbat2tier pi) (cdiv ibatt 1000) temp
        (if a_profile_vbatt_idx (d_algo d) =? -1 then 0 else elap)
    else Ret d in
  let d := set_algo d (set_states (d_algo d) state (a_msc_irdrop_state (d_algo d))
                         (a_hold_taper_ws (d_algo d))) in
  let d := set_updated d now in
  let* r := batt_needs_more_power d ibatt in
  let d := set_mp r.2 (d_mp_debounce r.2) r.1 in
  let* a := msc_publish p (d_algo d) state temp_idx pi t in
  Ret (set_algo d a).

(** One poll inside the limits of temperature. *)
Definition msc_charge (now : Z) (g : gauge) (d : batt_drv) (temp : Z) : outcome (Z * batt_drv) :=
  let p := d_profile d in
  let elap := s64 (now - v_last_update (d_ev d)) in
  match g_current_now g with
  | None => Ret (- EIO, d)
  | Some ibatt =>
    let vbatt := g_voltage_now g in
    if vbatt <? 0 then Ret (- EIO, d) else
    let d := set_max_voltage d (Z.max (v_max_charge_voltage (d_ev d)) vbatt) in
    let* temp_idx := gbms_msc_temp_idx p temp in
    let* r := msc_decide (d_settings d) p (d_cs d) (d_algo d) vbatt ibatt temp temp_idx in
    let '(state, t, a, booked) := r in
    let* d := book_irdrop (set_algo d a) elap booked in
    let* d := msc_finish now elap g d vbatt ibatt temp temp_idx state t in
    Ret (0, d)
  end.

Definition msc_logic (now : Z) (g : gauge) (d : batt_drv) : outcome (Z * batt_drv) :=
  let* temp := gbatt_get_raw_temp d g in
  match temp with
  | None => Ret (- EIO, d)
  | Some temp =>
    let* r := msc_logic_soft_jeita (d_profile d) temp (d_algo d) in
    let '(off, a) := r in
    if off : bool then
      let d := set_algo d a in
      Ret (0, if a_jeita_stop_charging a =? 0 then batt_reset_chg_drv_state d else d)
    else
      let d := if negb (a_jeita_stop_charging a =? 0)
               then set_max_voltage (set_algo d (set_jeita a 0)) 0 else set_algo d a in
      msc_charge now g d temp
  end.
End drv.
