(* ===== verification/MscHealth.v ===== *)
(** Health based (adaptive) charging of src/bms/google_battery.c: the charging policy, the
    deadline and the always-on level that users set, the state machine that
    [msc_logic_health] runs after every poll, and the votes of a poll.

    The elections of the charging policy and of the current are parameters: their results
    depend on votes that other drivers cast. *)

From Stdlib Require Import String.
From S2P Require Import Prelude GbmsProfile GbmsCharge Ttf Ssoc Msc MscDrv.

(** ** Constants *)

Definition HEALTH_PAUSE_DEBOUNCE : Z := 180.
Definition HEALTH_PAUSE_MAX_SSOC : Z := 95.
Definition HEALTH_PAUSE_MIN_SSOC : Z := 80.
Definition HEALTH_PAUSE_TIME : Z := 3.
Definition HEALTH_SAFETY_MARGIN_AHEAD (safety_margin : Z) : Z := safety_margin + 25 * 60.

Definition CHARGING_POLICY_VOTE_ADAPTIVE_AON : Z := 2.
Definition CHARGING_POLICY_VOTE_ADAPTIVE_AC : Z := 3.
Definition CHARGING_POLICY_VOTE_FORCE_FULL_CHARGE : Z := 5.
Definition IS_POLICY_LONGLIFE (p : Z) : bool :=
  (p =? CHARGING_POLICY_VOTE_LONGLIFE) || (p =? CHARGING_POLICY_VOTE_FORCE_FULL_CHARGE).
Definition ADAPTIVE_ALWAYS_ON_SOC : Z := 80.
Definition BATT_FCR_UPDATE_DISABLE : Z := 0.
Definition CSI_STATUS_Defender_Limit : Z := 44.
Definition LLONG_MAX : Z := 2 ^ 63 - 1.

Definition VOTABLE_CHARGING_POLICY : string := "CHARGING_POLICY".
Definition VOTABLE_CSI_STATUS : string := "CSI_STATUS".
Definition VOTABLE_MSC_FV : string := "MSC_FV".
Definition VOTABLE_MSC_FCC : string := "MSC_FCC".
Definition VOTABLE_MSC_INTERVAL : string := "MSC_INTERVAL".
Definition FCRU_CHARGE_VOTER : string := "fcr_update".
Definition MSC_LOGIC_VOTER : string := "msc_logic".
Definition SW_JEITA_VOTER : string := "sw_jeita".
Definition RL_STATE_VOTER : string := "rl_state".
Definition MSC_HEALTH_VOTER : string := "chg_health".
Definition BD_TRICKLE_VOTER : string := "bd_trickle".
Definition BPST_DETECT_VOTER : string := "bpst_detect".

(** The current vote of an election, and the vote of one voter, after the votes so far. *)
Class Elections := {
  current_vote : string -> list vote -> Z;
  voter_vote : string -> string -> list vote -> Z;
}.

(** ** The always-on level and the charging policy *)

Definition set_always_on (h : batt_chg_health) (soc state : Z) :=
  mk_health (h_rest_soc h) (h_rest_voltage h) soc (h_rest_deadline h) (h_dry_run_deadline h)
    (h_rest_rate h) (h_rest_rate_before_trigger h) state (h_rest_cc_max h) (h_rest_fv_uv h)
    (h_active_time h).

Definition batt_set_health_charge_limit (h : batt_chg_health) (always_on_soc : Z) : batt_chg_health :=
  let s := h_rest_state h in
  let s :=
    if negb (always_on_soc =? -1) then
      if (s =? CHG_HEALTH_DISABLED) || (s =? CHG_HEALTH_INACTIVE) then CHG_HEALTH_ENABLED else s
    else if negb (h_always_on_soc h =? -1) then
      if (s =? CHG_HEALTH_ENABLED) || (s =? CHG_HEALTH_ACTIVE) then
        if 0 <? h_rest_deadline h then CHG_HEALTH_ENABLED else CHG_HEALTH_INACTIVE
      else s
    else s in
  set_always_on h always_on_soc s.

Section health.
Context `{PowerSupplyTypes} `{Elections}.

Definition batt_apply_charging_policy_vote (d : batt_drv) (reason : string) (vote : Z)
    (enabled : bool) : batt_drv :=
  let d := cast d VOTABLE_CHARGING_POLICY reason vote enabled in
  set_policy d (s32 (current_vote VOTABLE_CHARGING_POLICY (d_votes d))) (d_vote_force_full d).

Definition batt_need_force_fcr_update (d : batt_drv) (g : gauge) : bool :=
  if e_force_fcr_update_ops (d_env d) =? BATT_FCR_UPDATE_DISABLE then false
  else 0 <? g_need_charge_to_full g.

Definition batt_force_fcr_update_charging_policy (d : batt_drv) (g : gauge) : batt_drv :=
  let user := voter_vote VOTABLE_CHARGING_POLICY "MSC_USER" (d_votes d) in
  let enable :=
    if negb (e_force_fcr_update_ops (d_env d) =? BATT_FCR_UPDATE_DISABLE) &&
       (user =? CHARGING_POLICY_VOTE_LONGLIFE)
    then batt_need_force_fcr_update d g else false in
  if Bool.eqb (d_vote_force_full d) enable then d else
  let d := batt_apply_charging_policy_vote d FCRU_CHARGE_VOTER
             CHARGING_POLICY_VOTE_FORCE_FULL_CHARGE enable in
  set_policy d (d_charging_policy d) enable.

Definition batt_update_charging_policy (d : batt_drv) (g : gauge) (reason : string) (vote : Z)
    (enabled : bool) : batt_drv :=
  let old_cp := d_charging_policy d in
  let d := batt_apply_charging_policy_vote d reason vote enabled in
  let d := if IS_POLICY_LONGLIFE (d_charging_policy d)
           then batt_force_fcr_update_charging_policy d g else d in
  let cp := d_charging_policy d in
  if old_cp =? cp then d else
  let d :=
    if cp =? CHARGING_POLICY_VOTE_ADAPTIVE_AON
    then set_health d (batt_set_health_charge_limit (d_health d) ADAPTIVE_ALWAYS_ON_SOC)
    else if old_cp =? CHARGING_POLICY_VOTE_ADAPTIVE_AON
    then set_health d (batt_set_health_charge_limit (d_health d) (-1))
    else d in
  let d := if IS_POLICY_LONGLIFE old_cp && negb (IS_POLICY_LONGLIFE cp)
           then gauge_write d NEED_CHARGE_TO_FULL 0xffff else d in
  cast d VOTABLE_CSI_STATUS "CSI_STATUS_DEFEND_LIMIT" CSI_STATUS_Defender_Limit
    (cp =? CHARGING_POLICY_VOTE_LONGLIFE).

(** ** The deadline *)

Definition batt_health_set_chg_deadline (now : Z) (h : batt_chg_health)
    (ttf_with_margin deadline_s : Z) : bool * batt_chg_health :=
  let rest_state := h_rest_state h in
  let '(new_deadline, h) :=
    if deadline_s <? 0 then
      (negb (h_rest_deadline h =? deadline_s),
       set_deadline h CHG_HEALTH_USER_DISABLED
         (if deadline_s =? CHG_DEADLINE_DIALOG then CHG_DEADLINE_DIALOG
          else if 0 <? h_rest_deadline h then CHG_DEADLINE_SETTING_STOP
          else CHG_DEADLINE_SETTING))
    else if deadline_s =? 0 then
      (negb (h_rest_deadline h =? deadline_s),
       set_deadline h (if negb (h_rest_state h =? CHG_HEALTH_DONE) then CHG_HEALTH_USER_DISABLED
                       else h_rest_state h) (h_rest_deadline h))
    else
      let rest_deadline := s64 (now + deadline_s) in
      (negb (h_rest_deadline h =? rest_deadline),
       set_deadline h (if rest_deadline <? ttf_with_margin then CHG_HEALTH_DISABLED
                       else CHG_HEALTH_ENABLED) rest_deadline) in
  (new_deadline || negb (rest_state =? h_rest_state h), h).

(** What writing the deadline to sysfs does, and its status. *)
Definition charge_deadline_store (now : Z) (g : gauge) (d : batt_drv) (deadline_s : Z)
    : outcome (Z * batt_drv) :=
  if (buck_enabled (d_ssoc d) =? 0) && (0 <=? deadline_s) then Ret (- EINVAL, d) else
  let* r := batt_ttf_estimate d in
  let '(rc, ttf, d) := r in
  let margin := e_health_safety_margin (d_env d) in
  let ttf :=
    if rc <? 0 then LLONG_MAX else if 0 <? margin then s64 (ttf + margin) else ttf in
  let '(changed, h) := batt_health_set_chg_deadline now (d_health d) ttf deadline_s in
  let d := set_health d h in
  Ret (0, if changed
          then batt_update_charging_policy d g "MSC_AC" CHARGING_POLICY_VOTE_ADAPTIVE_AC
                 (0 <? h_rest_deadline h)
          else d).

(** ** The state machine *)

Definition health_rest_soc (h : batt_chg_health) : Z :=
  if negb (h_always_on_soc h =? -1) then h_always_on_soc h else h_rest_soc h.

Definition msc_health_active (d : batt_drv) : Z :=
  let threshold := health_rest_soc (d_health d) in
  if threshold <? 0 then CHG_HEALTH_INACTIVE
  else if threshold <=? ssoc_get_capacity (d_ssoc d) then CHG_HEALTH_ACTIVE
  else CHG_HEALTH_ENABLED.

(** Whether to pause, and the time of the check. *)
Definition msc_health_pause (d : batt_drv) (ttf now rest_state : Z) : bool * batt_chg_health :=
  let h := d_health d in
  let t := health_stats (d_ce d) in
  let margin := e_health_safety_margin (d_env d) in
  let elap_h := u32 (t_time_fast t + t_time_taper t + t_time_other t) in
  let ssoc := ssoc_get_capacity (d_ssoc d) in
  if margin <=? 0 then (false, h) else
  if negb (rest_state =? CHG_HEALTH_ACTIVE) && negb (rest_state =? CHG_HEALTH_PAUSE)
  then (false, h) else
  if (HEALTH_PAUSE_MAX_SSOC <? ssoc) || (ssoc <? HEALTH_PAUSE_MIN_SSOC) then (false, h) else
  if s64 (elap_h - h_active_time h) <? HEALTH_PAUSE_DEBOUNCE then (false, h) else
  if HEALTH_PAUSE_TIME * HEALTH_PAUSE_DEBOUNCE <? h_active_time h then (false, h) else
  if (0 <? ttf) &&
     (s64 (now + ttf + HEALTH_SAFETY_MARGIN_AHEAD margin + HEALTH_PAUSE_DEBOUNCE) <? h_rest_deadline h)
  then (true, h) else (false, set_times h (h_dry_run_deadline h) elap_h).

(** The state after the poll; [None] leaves everything as it is. *)
Definition health_next (now : Z) (d : batt_drv) : outcome (option Z * batt_drv) :=
  let h := d_health d in
  let aon := negb (h_always_on_soc h =? -1) in
  let s := if aon && (h_rest_state h =? CHG_HEALTH_INACTIVE) then CHG_HEALTH_ENABLED else h_rest_state h in
  if (s =? CHG_HEALTH_CCLVL_DISABLED) || (s =? CHG_HEALTH_BD_DISABLED) ||
     (s =? CHG_HEALTH_USER_DISABLED) || (s =? CHG_HEALTH_DISABLED) ||
     (s =? CHG_HEALTH_INACTIVE) || (s =? CHG_HEALTH_DONE) then Ret (Some s, d) else
  if has_flag (d_cs d) GBMS_CS_FLAG_CCLVL then Ret (Some CHG_HEALTH_CCLVL_DISABLED, d) else
  if e_batt_health (d_env d) =? POWER_SUPPLY_HEALTH_OVERHEAT
  then Ret (Some CHG_HEALTH_BD_DISABLED, d) else
  let* r := batt_ttf_estimate d in
  let '(rc, ttf, d) := r in
  if rc <? 0 then Ret (None, d) else
  if ttf =? 0 then Ret (Some CHG_HEALTH_DONE, d) else
  let margin := Z.max 0 (e_health_safety_margin (d_env d)) in
  if negb aon && ((s =? CHG_HEALTH_ACTIVE) || (s =? CHG_HEALTH_ENABLED)) &&
     (0 <? h_rest_deadline h) && negb (ttf =? -1) &&
     (h_rest_deadline h <? s64 (now + ttf + margin)) then Ret (Some CHG_HEALTH_DISABLED, d) else
  let '(pause, h') := if negb aon then msc_health_pause d ttf now s else (false, h) in
  let d := set_health d h' in
  if (pause : bool) then Ret (Some CHG_HEALTH_PAUSE, d) else Ret (Some (msc_health_active d), d).

(** The current and the voltage of a state; -1 for no vote. *)
Definition health_limits (d : batt_drv) (s : Z) : outcome (Z * Z) :=
  let l := limits (d_profile d) in
  let h := d_health d in
  if (s =? CHG_HEALTH_ACTIVE) || (s =? CHG_HEALTH_DONE) then
    let* i := gbms_msc_get_last_voltage_idx (d_profile d) (a_temp_idx (d_algo d)) in
    let* fv := at_ (volt_limits l) i in
    Ret (s32 (s32 (capacity_ma l) * h_rest_rate h * 10), fv)
  else if s =? CHG_HEALTH_ENABLED then Ret (s32 (s32 (capacity_ma l) * h_rest_rate_before_trigger h * 10), -1)
  else if s =? CHG_HEALTH_PAUSE then Ret (0, -1)
  else Ret (-1, -1).

(** [memcpy] of the state into the charging event. *)
Definition copy_health (ce : gbms_charging_event) (h : batt_chg_health) :=
  mk_ce (ad_voltage ce) (ad_amperage ce) (chg_profile ce) (ssoc_in ce) (ssoc_out ce)
    (ce_tier_stats ce) (ce_soc_stats ce) (last_soc ce) (h_rest_state h) (h_rest_soc h)
    (h_always_on_soc h) (h_rest_rate h) (h_rest_cc_max h) (health_stats ce).

Definition msc_logic_health (now : Z) (d : batt_drv) : outcome (bool * batt_drv) :=
  let* r := health_next now d in
  let '(next, d) := r in
  match next with
  | None => Ret (false, d)
  | Some s =>
    let* r := health_limits d s in
    let '(cc_max, fv_uv) := r in
    let h := d_health d in
    if (h_rest_state h =? s) && (h_rest_cc_max h =? cc_max) && (h_rest_fv_uv h =? fv_uv)
    then Ret (false, d) else
    let h := set_rest h s cc_max fv_uv in
    Ret (true, set_event (set_health d h) (copy_health (d_ce d) h) (d_ev d))
  end.
End health.
