(* ===== verification/MscLogic.v ===== *)
(** What a report of the charger does (src/bms/google_battery.c, batt_chg_logic): connecting,
    the poll of the charge table, the recharge logic and adaptive charging, disconnecting,
    and the votes for the current and the voltage that a poll ends with.

    Left out are the parts that neither read nor change what is modelled: the age adjusted
    tables (their result is an argument), the published statistics, the health index and the
    status votes. *)

From Stdlib Require Import String.
From S2P Require Import Prelude GbmsProfile GbmsCharge Ttf Ssoc Msc MscDrv MscHealth.

(** ** The fan *)

Definition FAN_LVL_NOT_CARE : Z := 0.
Definition FAN_LVL_LOW : Z := 1.
Definition FAN_LVL_MED : Z := 2.
Definition FAN_LVL_HIGH : Z := 3.
Definition FAN_LVL_ALARM : Z := 4.
Definition FAN_CHG_LIMIT_NOT_CARE : Z := 10.
Definition FAN_CHG_LIMIT_LOW : Z := 50.
Definition FAN_CHG_LIMIT_MED : Z := 70.

Definition BATT_WORK_FAST_RETRY_CNT : Z := 30.
Definition BD_TRICKLE_VER_FCC : Z := 2.
Definition GBMS_STATS_AC_TI_INVALID : Z := -1.

Section logic.
Context `{PowerSupplyTypes} `{Elections}.

Definition gbatt_get_temp (d : batt_drv) (g : gauge) : outcome (option Z) :=
  if negb (e_fake_temp (d_env d) =? 0) then Ret (Some (e_fake_temp (d_env d)))
  else gbatt_get_raw_temp d g.

Definition fan_bt_calculate_level (d : batt_drv) (g : gauge) : outcome Z :=
  let* temp := gbatt_get_temp d g in
  match temp with
  | None =>
    let i := a_temp_idx (d_algo d) in
    Ret (if i <? 2 then FAN_LVL_NOT_CARE else if i =? 3 then FAN_LVL_MED else FAN_LVL_HIGH)
  | Some temp =>
    let l := e_fan_bt_limits (d_env d) in
    let* l0 := at_ l 0 in
    if temp <=? l0 then Ret FAN_LVL_NOT_CARE else
    let* l1 := at_ l 1 in
    if temp <=? l1 then Ret FAN_LVL_LOW else
    let* l2 := at_ l 2 in
    if temp <=? l2 then Ret FAN_LVL_MED else
    let* l3 := at_ l 3 in
    if temp <=? l3 then Ret FAN_LVL_HIGH else Ret FAN_LVL_ALARM
  end.

Definition fan_calculate_level (d : batt_drv) (g : gauge) : outcome Z :=
  if a_jeita_stop_charging (d_algo d) =? 1 then Ret FAN_LVL_ALARM else
  let* fan_level := fan_bt_calculate_level d g in
  let cc_max := s32 (current_vote VOTABLE_MSC_FCC (d_votes d)) in
  if (cc_max <=? 0) || (e_battery_capacity (d_env d) =? 0) then Ret fan_level else
  let rate := s32 (u32 cc_max / e_battery_capacity (d_env d) / 10) in
  let level :=
    if rate <? FAN_CHG_LIMIT_NOT_CARE then FAN_LVL_NOT_CARE
    else if rate <=? FAN_CHG_LIMIT_LOW then FAN_LVL_LOW
    else if rate <=? FAN_CHG_LIMIT_MED then FAN_LVL_MED else FAN_LVL_HIGH in
  Ret (if fan_level <? level then level else fan_level).

(** ** The votes of a poll *)

Definition batt_trickle_cc_max (d : batt_drv) : Z :=
  s32 (s32 (capacity_ma (limits (d_profile d))) * e_bd_trickle_rate (d_env d) * 10).

Definition set_cc_interval (a : msc_algo) (cc_max interval : Z) :=
  mk_algo (a_temp_idx a) (a_vbatt_idx a) (a_profile_vbatt_idx a) (a_fv_uv a) cc_max
    (a_topoff a) interval (a_jeita_stop_charging a) (a_checked_cv_cnt a)
    (a_checked_ov_cnt a) (a_checked_tier_switch_cnt a) (a_msc_state a) (a_msc_irdrop_state a)
    (a_hold_taper_ws a).
Definition set_msc_state (a : msc_algo) (x : Z) :=
  set_states a x (a_msc_irdrop_state a) (a_hold_taper_ws a).
Definition set_fcc_now (t : batt_ttf_stats) (x : Z) :=
  mk_ttf (ttf_fake t) (soc_ref t) (ref_temp_idx t) (ref_watts t) (soc_stats t) (tier_stats t)
    (report_max_ratio t) x.
Definition set_ttf (d : batt_drv) (t : batt_ttf_stats) :=
  mk_drv (d_profile d) (d_settings d) (d_env d) (d_cs d) (d_algo d) (d_ssoc d) t
    (d_ttf_est d) (d_ce d) (d_ev d) (d_health d) (d_charging_policy d) (d_vote_force_full d)
    (d_fast_update_cnt d) (d_fg_status d) (d_chg_done d) (d_mp_debounce d) (d_need_mp d)
    (d_votes d) (d_writes d).

Definition in_rl (d : batt_drv) (s : batt_rl_status) : bool := bool_decide (rl_status (d_ssoc d) = s).

(** The current and the interval while charging is stopped. *)
Definition msc_stop (d : batt_drv) : batt_drv :=
  let d := if in_rl d BATT_RL_STATUS_DISCHARGE
           then set_algo d (set_cc_interval (d_algo d) 0 (-1)) else d in
  if a_jeita_stop_charging (d_algo d) =? 1
  then set_algo d (set_cc_interval (d_algo d) 0 (a_msc_update_interval (d_algo d))) else d.

Definition vote_fv (d : batt_drv) : batt_drv :=
  let on := negb (e_disable_votes (d_env d)) in
  let rest_fv_uv := h_rest_fv_uv (d_health d) in
  let fv_uv := if 0 <? rest_fv_uv then 0 else a_fv_uv (d_algo d) in
  let d := cast d VOTABLE_MSC_FV MSC_LOGIC_VOTER fv_uv (on && (0 <? fv_uv)) in
  cast d VOTABLE_MSC_FV MSC_HEALTH_VOTER rest_fv_uv (on && (0 <? rest_fv_uv)).

Definition vote_fcc (d : batt_drv) : batt_drv :=
  let on := negb (e_disable_votes (d_env d)) in
  let s := d_ssoc d in
  let cc_max := a_cc_max (d_algo d) in
  let rest_cc_max := h_rest_cc_max (d_health d) in
  let d := cast d VOTABLE_MSC_FCC RL_STATE_VOTER 0 (on && in_rl d BATT_RL_STATUS_DISCHARGE) in
  let d := cast d VOTABLE_MSC_FCC BD_TRICKLE_VOTER (batt_trickle_cc_max d)
             (on && batt_is_trickle s && (bd_version (trickle s) =? BD_TRICKLE_VER_FCC) &&
              in_rl d BATT_RL_STATUS_RECHARGE) in
  let d := cast d VOTABLE_MSC_FCC SW_JEITA_VOTER 0 (on && (a_jeita_stop_charging (d_algo d) =? 1)) in
  let d := cast d VOTABLE_MSC_FCC MSC_HEALTH_VOTER rest_cc_max (on && negb (rest_cc_max =? -1)) in
  let d := cast d VOTABLE_MSC_FCC MSC_LOGIC_VOTER cc_max (on && negb (cc_max =? -1)) in
  if e_bpst_detect_disable (d_env d) || e_bpst_cell_fault (d_env d) then
    let bpst_cc_max := if cc_max =? -1 then cc_max
                       else cdiv (s32 (cc_max * e_bpst_chg_rate (d_env d))) 100 in
    cast d VOTABLE_MSC_FCC BPST_DETECT_VOTER bpst_cc_max (on && negb (bpst_cc_max =? -1))
  else d.

Definition msc_vote (d : batt_drv) (g : gauge) : outcome batt_drv :=
  let d := vote_fcc (vote_fv (msc_stop d)) in
  let* level := fan_calculate_level d g in
  let d := cast d VOTABLE_FAN_LEVEL "MSC_BATT" level true in
  let interval := a_msc_update_interval (d_algo d) in
  let d := cast d VOTABLE_MSC_INTERVAL MSC_LOGIC_VOTER interval
             (negb (e_disable_votes (d_env d)) && negb (interval =? -1)) in
  Ret (set_ttf d (set_fcc_now (d_ttf d) (s32 (current_vote VOTABLE_MSC_FCC (d_votes d))))).

(** ** Connecting and disconnecting *)

(** The event after [memset] and the initialisation of the tiers; the adapter stays. *)
Definition zero_tier : gbms_ce_tier_stats :=
  mk_tier 0 0 0 0 0 0 0 0 0 0 0 0 0 0 0 0 0 0 0
    (replicate (Z.to_nat MSC_STATES_COUNT) 0) (replicate (Z.to_nat MSC_STATES_COUNT) 0).

Definition tier_code (k : other_tier) : Z :=
  match k with
  | HIGH_SOC => 101 | HEALTH_DRYRUN => 18 | FULL_CHARGE => 100 | EOC_CHARGE => 102
  | HEALTH_PAUSE => 16 | TEMP_FILTER => 124 | OVERHEAT => 110 | POLICY_FORCE_FULL => 117
  | POLICY_LONGLIFE => 116 | CC_LVL => 111
  end.

Definition cev_stats_init (ce : gbms_charging_event) (p : gbms_chg_profile)
    : gbms_charging_event * event_rest :=
  (mk_ce (ad_voltage ce) (ad_amperage ce) p (u16 (-1)) (u16 (-1))
     ((fun i => gbms_tier_stats_init zero_tier i) <$> seqZ 0 GBMS_STATS_TIER_COUNT)
     ttf_soc_init (-1) 0 0 0 0 0 (gbms_tier_stats_init zero_tier GBMS_STATS_AC_TI_INVALID),
   mk_event (u16 (-1)) 0 0 0 0 (fun k => gbms_tier_stats_init zero_tier (tier_code k))
     (mk_log 0 0 0 0 0 0)).

Definition batt_chg_stats_start (now : Z) (g : gauge) (d : batt_drv) : batt_drv :=
  let '(ce, v) := cev_stats_init (d_ce d) (d_profile d) in
  let vin := g_voltage_now g in
  let cc := g_charge_counter g in
  set_event d
    (mk_ce (ad_voltage ce) (ad_amperage ce) (chg_profile ce) (u16 (ssoc_get_capacity (d_ssoc d)))
       (u16 (-1)) (ce_tier_stats ce) (ce_soc_stats ce) (last_soc ce) (rest_state ce) (rest_soc ce)
       (always_on_soc ce) (rest_rate ce) (rest_cc_max ce) (health_stats ce))
    (mk_event (u16 (if vin <? 0 then -1 else cdiv vin 1000)) (u16 (if cc <? 0 then -1 else cdiv cc 1000))
       now now (v_max_charge_voltage v) (v_tiers v) (v_log v)).

Definition set_profile (d : batt_drv) (p : gbms_chg_profile) :=
  mk_drv p (d_settings d) (d_env d) (d_cs d) (d_algo d) (d_ssoc d) (d_ttf d)
    (d_ttf_est d) (d_ce d) (d_ev d) (d_health d) (d_charging_policy d) (d_vote_force_full d)
    (d_fast_update_cnt d) (d_fg_status d) (d_chg_done d) (d_mp_debounce d) (d_need_mp d)
    (d_votes d) (d_writes d).

Definition ssoc_get_delta (d : batt_drv) : Z :=
  if e_batt_health (d_env d) =? POWER_SUPPLY_HEALTH_OVERHEAT then 0
  else s32 (qnum_fromint (e_ssoc_delta (d_env d))).

Definition msc_disconnect (now : Z) (g : gauge) (d : batt_drv) : outcome batt_drv :=
  let* s := ssoc_change_curve (d_ssoc d) (ssoc_get_delta d) SSOC_UIC_TYPE_DSG in
  let d := set_ssoc d s in
  let d := set_health d (set_deadline (d_health d) (h_rest_state (d_health d)) 0) in
  let d := batt_reset_chg_drv_state d in
  let d := set_ssoc d (batt_rl_reset (d_ssoc d)) in
  let d := batt_update_charging_policy d g "MSC_AC" CHARGING_POLICY_VOTE_ADAPTIVE_AC false in
  let d := gauge_write d BATT_CE_CTRL 0 in
  Ret (set_ssoc d (ssoc_change_state now false (d_ssoc d))).

(** [p]: the charge table after the age adjustments of the connect. *)
Definition msc_connect (now : Z) (g : gauge) (p : gbms_chg_profile) (d : batt_drv) : outcome batt_drv :=
  let* s := ssoc_change_curve (d_ssoc d) (ssoc_get_delta d) SSOC_UIC_TYPE_CHG in
  let d := set_profile (set_ssoc d s) p in
  let d := batt_chg_stats_start now g d in
  let d := gauge_write d BATT_CE_CTRL 1 in
  let d := set_polling d BATT_WORK_FAST_RETRY_CNT (d_fg_status d) (d_chg_done d) in
  let d := set_ssoc d (ssoc_change_state now true (d_ssoc d)) in
  let d := set_ttf d (ttf_tier_reset (d_ttf d)) in
  let d := batt_force_fcr_update_charging_policy d g in
  Ret (set_ssoc d (batt_sr_update_state (d_ssoc d))).

(** ** Recharge *)

Definition set_trickle_flags (s : batt_ssoc_state) (full eoc : bool) : batt_ssoc_state :=
  let t := trickle s in
  set_connection s (disconnect_time s) (buck_enabled s)
    (mk_trickle (bd_enable t) (bd_recharge_soc t) (bd_cnt t) (bd_dry_run t) full eoc
       (bd_reset_sec t) (bd_cnt_thr t) (bd_version t)).

Definition FG_LOG_CHG_DONE : Z := 2.

Definition msc_recharge (now : Z) (g : gauge) (d : batt_drv) : outcome batt_drv :=
  if has_flag (d_cs d) GBMS_CS_FLAG_DONE ||
     bool_decide (sr_state (d_ssoc d) = BATT_SMART_RECHG_TRIGGER) then
    let* r := batt_rl_enter now (d_ssoc d) BATT_RL_STATUS_DISCHARGE in
    let d := set_ssoc d r.2 in
    let d :=
      if negb (d_chg_done d) then
        let d := gauge_write d NEED_CHARGE_TO_FULL (e_cycle_count (d_env d)) in
        let d := batt_force_fcr_update_charging_policy d g in
        gauge_write d FG_EVENT_LOGGING FG_LOG_CHG_DONE
      else d in
    let d := set_polling d (d_fast_update_cnt d) (d_fg_status d) true in
    Ret (set_ssoc d (set_trickle_flags (d_ssoc d) (bd_full (trickle (d_ssoc d))) true))
  else if e_batt_full (d_env d) then
    let* r := batt_rl_enter now (d_ssoc d) BATT_RL_STATUS_RECHARGE in
    Ret (set_ssoc d (set_trickle_flags r.2 true (bd_eoc (trickle r.2))))
  else Ret d.

(** ** A report of the charger *)

Definition CHG_HEALTH_REST_IS_AON (h : batt_chg_health) (ssoc : Z) : bool :=
  (h_rest_state h =? CHG_HEALTH_ACTIVE) && negb (h_always_on_soc h =? -1) &&
  (h_always_on_soc h <=? ssoc).

(** The state that the statistics of the next poll book for adaptive charging. *)
Definition msc_health_state (d : batt_drv) (ssoc : Z) : batt_drv :=
  let h := d_health d in
  if CHG_HEALTH_REST_IS_AON h ssoc then set_algo d (set_msc_state (d_algo d) MSC_HEALTH_ALWAYS_ON)
  else if h_rest_state h =? CHG_HEALTH_ACTIVE then set_algo d (set_msc_state (d_algo d) MSC_HEALTH)
  else if h_rest_state h =? CHG_HEALTH_PAUSE then set_algo d (set_msc_state (d_algo d) MSC_HEALTH_PAUSE)
  else d.

(** A poll while connected: status, and the state after the votes. *)
Definition msc_poll (now : Z) (g : gauge) (ssoc : Z) (d : batt_drv) : outcome (Z * batt_drv) :=
  let* d := msc_recharge now g d in
  let* r := msc_logic now g d in
  let '(err, d) := r in
  if err <? 0 then Ret (err, set_algo d (set_cc_interval (d_algo d) (a_cc_max (d_algo d)) (-1)))
  else
    let* r := msc_logic_health now d in
    let* d := msc_vote (msc_health_state r.2 ssoc) g in
    Ret (err, d).

Definition batt_chg_logic (now : Z) (g : gauge) (p : gbms_chg_profile) (d : batt_drv)
    : outcome (Z * batt_drv) :=
  let ssoc := ssoc_get_capacity (d_ssoc d) in
  match cccm_limits (limits (d_profile d)) with
  | None => Ret (- EINVAL, d)
  | Some _ =>
    if chg_state_is_disconnected (d_cs d) then
      if buck_enabled (d_ssoc d) =? 0 then Ret (0, d) else
      let* d := msc_disconnect now g d in
      let* d := msc_vote d g in
      Ret (0, d)
    else
      let* d := if buck_enabled (d_ssoc d) <=? 0 then msc_connect now g p d else Ret d in
      msc_poll now g ssoc d
  end.
End logic.
