(* ===== verification/MscTable.v ===== *)
(** Properties of the charging algorithm (Msc.v) on a profile that the driver may run with:
    what a poll decides stays in the table and under the voltage limits. *)

From S2P Require Import Prelude GbmsProfile GbmsLookup GbmsCharge Ttf Msc.

(** ** Profiles *)

(** A voltage of the table, and a current that the voltage limits are computed with. *)
Definition is_tier (p : gbms_chg_profile) (v : Z) : Prop :=
  exists i, 0 <= i < volt_nb_limits (limits p) /\ at_ (volt_limits (limits p)) i = Ret v.
Definition is_current (p : gbms_chg_profile) (cc : Z) : Prop :=
  cc = 0 \/ exists ti vi, GBMS_CCCM_LIMITS p ti vi = Ret cc.

(** A profile whose numbers fit the driver's integers: [top] bounds the tiers and the
    rounded caps of the voltage.  The last cell of the table is not empty. *)
Record wf_msc (p : gbms_chg_profile) (top : Z) : Prop := {
  wm_plain : plain_profile p;
  wm_res : 0 < fv_uv_resolution (behavior p) < 2 ^ 28;
  wm_top : top < 2 ^ 29;
  wm_margin : 0 <= fv_uv_margin_dpct (behavior p);
  wm_ratio : 0 <= fv_dc_ratio (behavior p);
  wm_tiers v : is_tier p v -> 2 * fv_uv_resolution (behavior p) <= v <= top;
  wm_cells cc : is_current p cc -> 0 <= cc < 2 ^ 31;
  wm_caps v last cc allow :
    is_tier p v -> is_current p cc ->
    at_ (volt_limits (limits p)) (volt_nb_limits (limits p) - 1) = Ret last ->
    2 * fv_uv_resolution (behavior p) <= fv_cap p last v cc allow /\
    fv_cap p last v cc allow + fv_uv_resolution (behavior p) / 2 <= top /\
    v + cc / 1000 * fv_dc_ratio (behavior p) < 2 ^ 32 /\
    v / 1000 * fv_uv_margin_dpct (behavior p) < 2 ^ 32;
  wm_last_cell : GBMS_CCCM_LIMITS p (temp_nb_limits (limits p) - 2)
                   (volt_nb_limits (limits p) - 1) <> Ret 0;
  wm_topoff : length (topoff_limits (limits p)) = Z.to_nat GBMS_CHG_TOPOFF_NB_LIMITS_MAX;
  wm_table c : cccm_limits (limits p) = Some c -> Forall (fun x => 0 <= x < 2 ^ 32) c;
  wm_volts : Forall (fun v => v = 0 \/ 1000 <= v) (volt_limits (limits p));
}.

(** ** Positions in the table *)

Definition row (p : gbms_chg_profile) (ti : Z) : Prop := 0 <= ti < temp_nb_limits (limits p) - 1.
Definition tier (p : gbms_chg_profile) (vi : Z) : Prop := 0 <= vi < volt_nb_limits (limits p).

(** Reset, or at a tier of a row with a voltage in bounds. *)
Definition algo_ok (p : gbms_chg_profile) (top : Z) (a : msc_algo) : Prop :=
  (a_temp_idx a = -1 /\ a_vbatt_idx a = -1 /\ a_fv_uv a = -1) \/
  (row p (a_temp_idx a) /\ tier p (a_vbatt_idx a) /\
   fv_uv_resolution (behavior p) <= a_fv_uv a <= top).

(** Everything but the counters and the state of the drop. *)
Definition same_position (a a' : msc_algo) : Prop :=
  a_temp_idx a' = a_temp_idx a /\ a_vbatt_idx a' = a_vbatt_idx a /\
  a_profile_vbatt_idx a' = a_profile_vbatt_idx a /\
  a_fv_uv a' = a_fv_uv a /\ a_cc_max a' = a_cc_max a /\ a_topoff a' = a_topoff a /\
  a_msc_update_interval a' = a_msc_update_interval a /\
  a_jeita_stop_charging a' = a_jeita_stop_charging a /\ a_msc_state a' = a_msc_state a.

#[global] Instance same_position_preorder : PreOrder same_position.
Proof. split; [done|]. unfold same_position. intros x y z (?&?&?&?&?&?&?&?&?) (?&?&?&?&?&?&?&?&?). split_and!; congruence. Qed.

Lemma same_counts a cv ov sw : same_position a (set_counts a cv ov sw).
Proof. done. Qed.
Lemma same_states a x h : same_position a (set_states a (a_msc_state a) x h).
Proof. done. Qed.
#[export] Hint Resolve same_counts same_states : core.

(** A lookup gives a cell, or nothing outside. *)
Lemma cccm_cell p ti vi cc c :
  cccm_limits (limits p) = Some c -> GBMS_CCCM_LIMITS p ti vi = Ret cc -> cc = 0 \/ cc ∈ c.
Proof.
  intros Hc. unfold GBMS_CCCM_LIMITS, deref, at_. rewrite Hc. destruct (_ && _); [|by intros [= <-]; left].
  run. destruct (_ <? 0); [done|]. destruct (c !! _) eqn:E; [|done]. intros [= <-]. right.
  by eapply list_elem_of_lookup_2.
Qed.

Section facts.
Context `{PowerSupplyTypes} (p : gbms_chg_profile) (top : Z) (Hp : wf_msc p top).

#[local] Abbreviation res := (fv_uv_resolution (behavior p)).

Lemma tier_volt vi : tier p vi -> exists v, at_ (volt_limits (limits p)) vi = Ret v /\ is_tier p v.
Proof.
  intros Hv. pose proof (plain_wf _ (wm_plain _ _ Hp)) as Hw.
  pose proof (wf_volt_nb _ Hw). pose proof (wf_volt _ Hw) as Hl.
  unfold tier, GBMS_CHG_VOLT_NB_LIMITS_MAX in *.
  destruct (at_Some (volt_limits (limits p)) vi) as [v Hat]; [lia|].
  exists v. split; [done|]. by exists vi.
Qed.

Lemma cc_ok ti vi :
  row p ti -> tier p vi ->
  exists cc, GBMS_CCCM_LIMITS p ti vi = Ret cc /\ cc_int p ti vi = Ret cc /\ is_current p cc.
Proof.
  intros Ht Hv. destruct (cccm_in_range p ti vi (wm_plain _ _ Hp) Ht Hv) as [cc Hcc].
  assert (Hc : is_current p cc) by (right; by exists ti, vi).
  pose proof (wm_cells _ _ Hp cc Hc). exists cc. split_and!; [done| |done].
  unfold cc_int. rewrite Hcc. run. by rewrite swrap_id by lia.
Qed.

(** The current of the tier after the last of a row is the first of the next row; there is
    one after the last cell only because the last cell charges. *)
Lemma next_ok ti vi :
  row p ti -> tier p vi -> gbms_msc_get_last_voltage_idx p ti <> Ret vi ->
  exists cc, cc_int p ti (vi + 1) = Ret cc /\ 0 <= cc < 2 ^ 31.
Proof.
  intros Ht Hv Hlast. unfold row, tier in *.
  destruct (decide (vi + 1 < volt_nb_limits (limits p))) as [Hlt|Hge].
  { destruct (cc_ok ti (vi + 1)) as (cc & _ & Hcc & Hc); [done|unfold tier; lia|].
    exists cc. split; [done|]. by apply (wm_cells _ _ Hp). }
  assert (Hvi : vi = volt_nb_limits (limits p) - 1) by lia.
  destruct (decide (ti + 1 < temp_nb_limits (limits p) - 1)) as [Hrow|Hrow].
  - destruct (cc_ok (ti + 1) 0) as (cc & Hc & _ & Hcur); [unfold row; lia|unfold tier; lia|].
    exists cc. pose proof (wm_cells _ _ Hp cc Hcur). split; [|done].
    unfold cc_int. replace (GBMS_CCCM_LIMITS p ti (vi + 1)) with (GBMS_CCCM_LIMITS p (ti + 1) 0).
    { rewrite Hc. run. by rewrite swrap_id by lia. }
    unfold GBMS_CCCM_LIMITS. rewrite !(proj2 (Z.leb_le 0 _)) by lia. run. f_equal.
    subst vi. lia.
  - exfalso. assert (ti = temp_nb_limits (limits p) - 2) as -> by lia.
    destruct (last_voltage_idx_charges p (temp_nb_limits (limits p) - 2) (wm_plain _ _ Hp))
      as (i & Hi & Hr & Hz & _); [lia|].
    destruct (decide (i < vi)) as [Hlt|]; [|apply Hlast; rewrite Hi; f_equal; lia].
    apply (wm_last_cell _ _ Hp). rewrite <- Hvi. apply Hz. lia.
Qed.

(** A rounded voltage stays in bounds. *)
Lemma round_ok v x cc allow :
  is_tier p v -> is_current p cc -> 0 <= x < 2 ^ 30 ->
  exists fv, gbms_msc_round_fv_uv p v x cc allow = Ret fv /\ fv <= top /\
    (2 * res <= x -> res <= fv).
Proof.
  intros Hv Hcc Hx. pose proof (plain_wf _ (wm_plain _ _ Hp)) as Hw.
  pose proof (wf_volt_nb _ Hw).
  destruct (tier_volt (volt_nb_limits (limits p) - 1)) as (last & Hlast & Hlt); [unfold tier; lia|].
  destruct (wm_caps _ _ Hp v last cc allow Hv Hcc Hlast) as (Hc1 & Hc2 & Hw1 & Hw2).
  pose proof (wm_tiers _ _ Hp v Hv). pose proof (wm_tiers _ _ Hp last Hlt).
  pose proof (wm_res _ _ Hp). pose proof (wm_top _ _ Hp). pose proof (wm_cells _ _ Hp cc Hcc).
  assert (0 <= res / 2) by (apply Z.div_pos; lia).
  destruct (round_fv_uv_nearest p last v x cc allow) as (fv & Hfv & _ & Hn);
    try done; try lia; [apply Hp..|].
  assert (res / 2 <= res) by (apply Z.div_le_upper_bound; lia).
  exists fv. split; [done|]. split; lia.
Qed.

(** ** One poll *)

(** What a branch leaves to be decided: a tier in range, and a voltage in bounds where the
    tier has not changed. *)
Definition tier_ok (a : msc_algo) (t : msc_tier) : Prop :=
  m_vbatt_idx t = a_vbatt_idx a -> res <= m_fv_uv t <= top.

Lemma over_ok c a vtier ibatt ti me nb t :
  row p ti -> tier p (m_vbatt_idx t) -> m_vbatt_idx t = a_vbatt_idx a -> is_tier p vtier ->
  res <= a_fv_uv a <= top -> m_fv_uv t = a_fv_uv a ->
  exists s t' a', irdrop_over c p a vtier ibatt ti me nb t = Ret (s, t', a') /\
    same_position a a' /\ tier_ok a t'.
Proof.
  intros Hti Hv He Hvt Hfv Hf. unfold irdrop_over. rewrite Hf.
  destruct (cc_ok ti _ Hti Hv) as (cc & _ & -> & Hcc). run.
  pose proof (wm_res _ _ Hp). pose proof (wm_top _ _ Hp).
  rewrite (wrap_id 32 (a_fv_uv a - res)), (swrap_id 32 (a_fv_uv a - res)) by lia.
  destruct (round_ok vtier (a_fv_uv a - res) (if nb then cc else 0) (c_allow_higher_fv c))
    as (fv & -> & Hle & _); [done|by destruct nb; [|left]|lia|]. run.
  pose proof (wm_tiers _ _ Hp vtier Hvt).
  assert (Hfv' : res <= (if fv <? vtier then vtier else fv) <= top) by (case_test; lia).
  destruct (_ || _); [|destruct (ibatt =? cc)]; eexists _, _, _; (split; [done|]); (split; [done|]);
    intros Hidx; cbn in *; try done. destruct nb; cbn; lia.
Qed.

Lemma fast_ok c a vtier vbatt ti vchg nb t :
  row p ti -> tier p (m_vbatt_idx t) -> is_tier p vtier -> res <= m_fv_uv t <= top ->
  0 <= vchg < 2 ^ 16 -> 0 <= vbatt ->
  exists s t' a', irdrop_fast c p a vtier vbatt ti vchg nb t = Ret (s, t', a') /\
    same_position a a' /\ m_vbatt_idx t' = m_vbatt_idx t /\ res <= m_fv_uv t' <= top.
Proof.
  intros Hti Hv Hvt Hf Hvc Hvb. unfold irdrop_fast. rewrite (swrap_id 32 (vchg * 1000)) by lia.
  pose proof (wm_res _ _ Hp). pose proof (wm_top _ _ Hp). pose proof (wm_tiers _ _ Hp vtier Hvt).
  assert (Hfv : exists fv, (if vchg * 1000 <=? 0 then Ret vtier else
    if vbatt <? vchg * 1000 then
      let* cc_max := cc_int p ti (m_vbatt_idx t) in
      gbms_msc_round_fv_uv p vtier (s32 (vtier + s32 (vchg * 1000 - vbatt)))
        (if nb then cc_max else 0) (c_allow_higher_fv c)
    else Ret (m_fv_uv t)) = Ret fv /\ res <= fv <= top).
  { destruct (vchg * 1000 <=? 0); [exists vtier; split; [done|lia]|].
    destruct (Z.ltb_spec vbatt (vchg * 1000)); [|by eauto].
    destruct (cc_ok ti _ Hti Hv) as (cc & _ & -> & Hcc). run.
    rewrite (swrap_id 32 (_ - _)), (swrap_id 32 (_ + _)) by lia.
    destruct (round_ok vtier (vtier + (vchg * 1000 - vbatt)) (if nb then cc else 0)
      (c_allow_higher_fv c)) as (fv & -> & Hle & Hge); [done|by destruct nb; [|left]|lia|].
    exists fv. split; [done|]. lia. }
  destruct Hfv as (fv & -> & Hr). run. eexists _, _, _. split; [done|]. split.
  { by destruct (a_checked_cv_cnt a =? 0). }
  split; [done|]. cbn. destruct nb; run; [case_test|]; lia.
Qed.

Lemma irdrop_ok c cs a vbatt ibatt ti t :
  wf_cs cs -> row p ti -> tier p (a_vbatt_idx a) -> m_vbatt_idx t = a_vbatt_idx a ->
  m_fv_uv t = a_fv_uv a -> res <= a_fv_uv a <= top -> 0 <= vbatt ->
  exists s t' a', msc_logic_irdrop c p cs a vbatt ibatt ti t = Ret (s, t', a') /\
    same_position a a' /\ tier_ok a t'.
Proof.
  intros Hcs Hti Hv Hi Hf Hr Hvb. unfold msc_logic_irdrop. rewrite Hi.
  destruct (tier_volt (a_vbatt_idx a) Hv) as (vt & -> & Hvt). run.
  pose proof (wm_res _ _ Hp). pose proof (wm_top _ _ Hp).
  assert (Hkeep : forall x y iv cv, same_position a (set_counts a x y cv) /\
    tier_ok a (mk_msc_tier (a_vbatt_idx a) (m_fv_uv t) iv)).
  { intros. split; [done|]. intros _. cbn. lia. }
  assert (Ht : tier_ok a t) by (intros _; lia).
  destruct (Z.ltb_spec (s32 (cv_otv_margin (behavior p))) (s32 (vbatt - vt))).
  { apply over_ok; try done; rewrite Hi; done. }
  destruct (cs_chg_type cs =? POWER_SUPPLY_CHARGE_TYPE_FAST).
  { destruct (fast_ok c a vt vbatt ti (if has_flag cs GBMS_CS_FLAG_DIRECT_CHG && negb (c_dc_irdrop c)
      then 0 else cs_vchrg cs) (has_flag cs GBMS_CS_FLAG_DIRECT_CHG && c_dc_irdrop c) t)
      as (s & t' & a' & -> & Hs & Hi' & Hf'); try done; [by rewrite Hi|lia| |].
    { pose proof (wf_vchrg _ Hcs). destruct (_ && _); lia. }
    eexists _, _, _. split; [done|]. split; [done|]. intros _. done. }
  destruct (cs_chg_type cs =? POWER_SUPPLY_CHARGE_TYPE_TRICKLE).
  { eexists _, _, _. split; [done|]. split; [|done]. by destruct (a_checked_cv_cnt a =? 0). }
  destruct (negb (cs_chg_type cs =? POWER_SUPPLY_CHARGE_TYPE_TAPER_EXT)).
  { case_test; eexists _, _, _; (split; [done|]); split; try done; apply Hkeep; exact 0. }
  destruct (negb (a_checked_ov_cnt a =? 0)).
  { eexists _, _, _. split; [done|]. split; [done|]. apply (Hkeep 0 0). exact 0. }
  destruct (s32 (vt - vbatt) <? _); [eexists _, _, _; split; [done|]; split; [done|apply (Hkeep 0 0 _ 0)]|].
  destruct (_ <=? _); [eexists _, _, _; split; [done|]; split; [done|apply (Hkeep 0 0 _ 0)]|].
  match goal with |- context [if negb ?b then obind _ _ else _] => destruct (negb b) end; [|eexists _, _, _; split; [done|]; done].
  destruct (cc_ok ti _ Hti Hv) as (cc & _ & -> & Hcc). run. rewrite Hf.
  rewrite (wrap_id 32 (a_fv_uv a + res)), (swrap_id 32 (a_fv_uv a + res)) by lia.
  match goal with |- context [gbms_msc_round_fv_uv p vt _ ?x ?y] =>
    destruct (round_ok vt (a_fv_uv a + res) x y) as (fv & -> & Hle & Hge)
  end; [done|by destruct (_ && _); [|left]|lia|].
  eexists _, _, _. split; [done|]. split; [done|]. intros _. cbn. lia.
Qed.

Lemma merged_ok vbatt ti :
  row p ti -> exists i, gbms_msc_voltage_idx_merge_tiers (Some p) vbatt ti = Ret i /\ tier p i.
Proof.
  intros Ht. destruct (merge_tiers_same_current p vbatt ti (wm_plain _ _ Hp) Ht)
    as (i & j & cc & _ & Hj & Hr & Hn & _). exists j. split; [done|]. unfold tier. lia.
Qed.

Lemma next_tier_position c cs a ibatt temp cc s vi :
  exists s' vi' a', msc_next_tier c p cs a ibatt temp cc s vi = (s', vi', a') /\
    same_position a a' /\ (vi' = vi \/ vi' = s32 (a_vbatt_idx a + 1)).
Proof.
  unfold msc_next_tier. destruct (0 <? a_checked_cv_cnt a); [|destruct (_ && _);
    [|destruct (_ && _); [|destruct (_ <=? _)]]]; eexists _, _, _; (split; [done|]);
    (split; [|by auto]); by try destruct (cc <? ibatt).
Qed.

(** A tier of the statistics and a state, if time is booked. *)
Definition booked_ok (b : option (Z * Z)) : Prop :=
  match b with Some (i, _) => 0 <= i < GBMS_STATS_TIER_COUNT | None => True end.

Lemma vbat2tier_range vi : 0 <= vi -> 0 <= batt_chg_vbat2tier vi < GBMS_STATS_TIER_COUNT.
Proof. unfold batt_chg_vbat2tier, GBMS_STATS_TIER_COUNT. case_test; lia. Qed.

Lemma branch_ok c cs a vbatt ibatt temp ti :
  wf_cs cs -> algo_ok p top a -> row p ti -> 0 <= vbatt ->
  exists s t a' b, msc_branch c p cs a vbatt ibatt temp ti = Ret (s, t, a', b) /\
    same_position a a' /\ (ti = a_temp_idx a -> tier_ok a t) /\ booked_ok b.
Proof.
  intros Hcs Ha Hti Hvb. unfold msc_branch.
  destruct (merged_ok vbatt ti Hti) as (i & Hi & Hir).
  destruct Ha as [(Ht & Hv & Hf)|(Ht & Hv & Hf)].
  { rewrite Hv, Hf, !orb_true_r. run. rewrite Hi. run.
    eexists _, _, _, _. split; [done|]. split; [by destruct (_ =? 0)|]. split; [|done].
    intros _ Hidx. cbn in Hidx. unfold tier in Hir. lia. }
  pose proof (wm_res _ _ Hp). unfold row, tier in *.
  rewrite (proj2 (Z.eqb_neq (a_fv_uv a) (-1))), (proj2 (Z.eqb_neq (a_vbatt_idx a) (-1))) by lia.
  rewrite !orb_false_r, orb_false_l.
  destruct (Z.eqb_spec ti (a_temp_idx a)) as [->|Hne]; cbn [negb].
  2: { rewrite Hi. run. eexists _, _, _, _. split; [done|]. by split; [destruct (_ =? 0)|]. }
  destruct (tier_volt (a_vbatt_idx a) Hv) as (vt & Hvt & _). rewrite Hvt. run.
  destruct (a_msc_state a =? MSC_DONE).
  { eexists _, _, _, _. split; [done|]. split; [done|]. split; [|done]. intros _ _. cbn. lia. }
  destruct (ibatt <? 0).
  { rewrite Hi. run. eexists _, _, _, _. split; [done|]. split; [done|]. split; [|done]. intros _ _. cbn. lia. }
  destruct (last_voltage_idx_charges p (a_temp_idx a) (wm_plain _ _ Hp) Ht)
    as (last & Hlast & _). rewrite Hlast. run.
  destruct (Z.eqb_spec (a_vbatt_idx a) last) as [|Hnl].
  { eexists _, _, _, _. split; [done|]. split; [done|]. split; [|done]. intros _ _. cbn. lia. }
  destruct (next_ok (a_temp_idx a) (a_vbatt_idx a) Ht Hv) as (cc & -> & _);
    [rewrite Hlast; congruence|]. run.
  destruct (irdrop_ok c cs a vbatt ibatt (a_temp_idx a)
    (mk_msc_tier (a_vbatt_idx a) (a_fv_uv a) MSC_DEFAULT_UPDATE_INTERVAL))
    as (s & t & a' & -> & Hs & Ht'); try done. run.
  match goal with |- context [msc_next_tier c p cs ?x ibatt temp cc s ?v] =>
    destruct (next_tier_position c cs x ibatt temp cc s v) as (s' & vi' & a'' & -> & Hs' & Hvi)
  end. run.
  eexists _, _, _, _. split; [done|]. split; [by etrans; [|etrans; [apply same_states|]]|].
  split; [|apply vbat2tier_range; lia]. intros _ Hidx. cbn in Hidx |- *.
  destruct Hvi as [->| ->]; [by apply Ht'|]. exfalso. cbn in Hidx.
  destruct Hs as (_ & Hs & _). rewrite Hs in Hidx.
  pose proof (wf_volt_nb _ (plain_wf _ (wm_plain _ _ Hp))).
  unfold GBMS_CHG_VOLT_NB_LIMITS_MAX in *. rewrite swrap_id in Hidx by lia. lia.
Qed.

(** The tier of a poll: the one there was, at a voltage in bounds, or the tier of the
    battery voltage at its own voltage. *)
Lemma decide_ok c cs a vbatt ibatt temp ti :
  wf_cs cs -> algo_ok p top a -> row p ti -> 0 <= vbatt ->
  exists s t a' b, msc_decide c p cs a vbatt ibatt temp ti = Ret (s, t, a', b) /\
    same_position a a' /\ tier p (m_vbatt_idx t) /\ res <= m_fv_uv t <= top /\ booked_ok b /\
    (m_vbatt_idx t = a_vbatt_idx a /\ ti = a_temp_idx a \/
     gbms_msc_voltage_idx_merge_tiers (Some p) vbatt ti = Ret (m_vbatt_idx t) /\
     at_ (volt_limits (limits p)) (m_vbatt_idx t) = Ret (m_fv_uv t)).
Proof.
  intros Hcs Ha Hti Hvb. unfold msc_decide.
  destruct (branch_ok c cs a vbatt ibatt temp ti Hcs Ha Hti Hvb) as (s & t & a' & b & -> & Hs & Ht & Hb).
  run. set (a1 := if _ && _ then _ else a').
  assert (Hs1 : same_position a a1) by (subst a1; destruct (_ && _); [by etrans|done]).
  clearbody a1. pose proof Hs1 as (E1 & E2 & _). rewrite E1, E2.
  destruct (Z.eqb_spec (m_vbatt_idx t) (a_vbatt_idx a)) as [He|He];
    [destruct (Z.eqb_spec ti (a_temp_idx a)) as [Ht2|Ht2]|]; cbn [negb orb].
  - eexists _, _, _, _. split; [done|]. split; [done|].
    destruct Ha as [(Hx & _)|(Hx & Hy & Hz)]; [unfold row in *; lia|].
    split; [by rewrite He|]. split; [by apply Ht|]. split; [done|]. by left.
  - destruct (merged_ok vbatt ti Hti) as (i & Hi & Hir). rewrite Hi. run.
    destruct (tier_volt i Hir) as (v & Hv & Hvt). rewrite Hv. run.
    pose proof (wm_tiers _ _ Hp v Hvt). pose proof (wm_res _ _ Hp).
    eexists _, _, _, _. split; [done|]. split; [by etrans|]. cbn.
    split; [done|]. split; [lia|]. split; [done|]. by right.
  - destruct (merged_ok vbatt ti Hti) as (i & Hi & Hir). rewrite Hi. run.
    destruct (tier_volt i Hir) as (v & Hv & Hvt). rewrite Hv. run.
    pose proof (wm_tiers _ _ Hp v Hvt). pose proof (wm_res _ _ Hp).
    eexists _, _, _, _. split; [done|]. split; [by etrans|]. cbn.
    split; [done|]. split; [lia|]. split; [done|]. by right.
Qed.
End facts.
