(* ===== verification/MscSafe.v ===== *)
(** Every poll of the charging algorithm is safe: with a profile of [wf_msc], [msc_logic]
    never leaves a table, whatever the gauge, the charger and the user do, and the state it
    leaves is one that it may be called in again. *)

From stdpp Require Import functions.
From S2P Require Import Prelude GbmsProfile GbmsLookup GbmsCharge Ttf TtfPower TtfLearn Ssoc Msc MscDrv MscTable.

(** ** Time to full *)

Section estimate.
Context (s : batt_ttf_stats) (ce : gbms_charging_event).
Context (Hs : wf_stats s) (Hce : wf_event ce) (Hin : 0 <= ssoc_in ce) (Hlast : last_soc ce <= 100).

Lemma ref_elap_total soc :
  exists e, ttf_ref_elap s soc = Ret e /\ (soc < 0 \/ 100 <= soc -> e = 0).
Proof.
  unfold ttf_ref_elap. destruct (Z.ltb_spec soc 0); [eauto|].
  destruct (Z.leb_spec 100 soc); [eauto|]. run.
  destruct Hs as [[_ Hr _] [_ Hss _] _]. unfold GBMS_SOC_STATS_LEN in *.
  destruct (at_Some (ss_elap (soc_stats s)) soc) as [e ->]; [lia|]. run.
  destruct (at_Some (ss_elap (soc_ref s)) soc) as [e' ->]; [lia|].
  destruct (e =? 0); run; eexists; (split; [done|lia]).
Qed.

Lemma elap_total soc : exists r o, ttf_elap s ce soc = Ret (r, o).
Proof.
  unfold ttf_elap. destruct (ref_elap_total soc) as (e & -> & He). run.
  destruct (Z.eqb_spec e 0); [eauto|].
  destruct (pwr_ratio_value s ce soc Hs Hce) as (r & -> & _); [lia|]. run.
  destruct (r <? 0); eauto.
Qed.

Lemma estimate_loop_ok n i e m :
  i + Z.of_nat n <= 101 -> exists r, estimate_loop s ce n i e m = Ret r.
Proof.
  revert i e m. induction n as [|n IH]; intros i e m Hi; cbn [estimate_loop]; [eauto|].
  destruct (Z.leb_spec (ssoc_in ce) i), (Z.ltb_spec i (last_soc ce)); cbn [andb].
  1: { pose proof (ws_elap _ (we_soc _ Hce)) as Hl. unfold GBMS_SOC_STATS_LEN in Hl.
       destruct (at_Some (ss_elap (ce_soc_stats ce)) i) as [x ->]; [lia|]. run. apply IH. lia. }
  all: destruct (elap_total i) as (r & [c|] & ->); run; [apply IH; lia|eauto].
Qed.

(** The estimate is always computed, for any level of the gauge. *)
Lemma soc_estimate_total soc last :
  - 2 ^ 31 <= soc < 2 ^ 31 -> last < 2 ^ 31 -> exists r, ttf_soc_estimate s ce soc last = Ret r.
Proof.
  intros Hsoc Hl. unfold ttf_soc_estimate. change (qnum_rconst 100) with 1677721650.
  destruct (Z.ltb_spec 1677721650 last); [eauto|]. destruct (Z.ltb_spec last soc); [eauto|].
  run. destruct (last =? soc); [eauto|].
  assert (Hq : forall q, - 2 ^ 31 <= q <= 1677721650 -> - 128 <= qnum_toint q <= 100).
  { intros q Hq. unfold qnum_toint. change QNUM_FBITS with 24. rewrite Z.shiftr_div_pow2 by lia.
    assert (- 128 <= q / 2 ^ 24 <= 100); [|by rewrite swrap_id by lia].
    split; [apply Z.div_le_lower_bound|apply Z.lt_succ_r, Z.div_lt_upper_bound]; lia. }
  pose proof (Hq soc ltac:(lia)). pose proof (Hq last ltac:(lia)).
  match goal with |- context [obind ?m _] => assert (Hf : exists j e mr, m = Ret (j, e, mr) /\ 0 <= j <= 1) end.
  { case_test; [eexists _, _, _; split; [done|lia]|].
    destruct (elap_total (qnum_toint soc)) as (r & [c|] & ->); run; eexists _, _, _; (split; [done|lia]). }
  destruct Hf as (j & e & mr & -> & Hj). run.
  destruct (estimate_loop_ok (Z.to_nat (qnum_toint last - (j + qnum_toint soc)))
    (j + qnum_toint soc) e mr) as (r & ->); [lia|].
  run. destruct r as [err|[e' mr']]; [eauto|].
  destruct (_ =? 0); run; [eauto|].
  destruct (elap_total (qnum_toint last)) as (r & [c|] & ->); run; eauto.
Qed.
End estimate.

(** ** The state *)

(** Not more time in the tiers than since [t0]. *)
Definition within (n : Z) (t : gbms_ce_tier_stats) : Prop := time_of t <= n.

(** Inputs that other parts set. *)
Record env_ok (e : msc_env) : Prop := {
  eo_filter l i : e_temp_filter e = Some (l, i) -> length l = TEMP_SAMPLE_SIZE /\ 0 <= i < 5;
  eo_fan : length (e_fan_bt_limits e) = 4%nat;
}.

Record soc_ok (ce : gbms_charging_event) : Prop := {
  so_ti : length (ss_ti (ce_soc_stats ce)) = Z.to_nat GBMS_SOC_STATS_LEN;
  so_in : 0 <= ssoc_in ce;
  so_last : -1 <= last_soc ce <= 100;
}.

(** The driver between two polls: [t0] is the time the charging event started. *)
Record drv_ok (top t0 : Z) (d : batt_drv) : Prop := {
  do_profile : wf_msc (d_profile d) top;
  do_env : env_ok (d_env d);
  do_cs : wf_cs (d_cs d);
  do_algo : algo_ok (d_profile d) top (d_algo d);
  do_same : chg_profile (d_ce d) = d_profile d;
  do_event : wf_event (d_ce d);
  do_soc : soc_ok (d_ce d);
  do_stats : wf_stats (d_ttf d);
  do_gdf : - 2 ^ 31 <= ssoc_gdf (d_ssoc d) < 2 ^ 31;
  do_time : 0 <= t0 /\ t0 <= v_last_update (d_ev d) < 2 ^ 62;
  do_tiers : Forall (within (v_last_update (d_ev d) - t0)) (ce_tier_stats (d_ce d));
  do_health : within (v_last_update (d_ev d) - t0) (health_stats (d_ce d));
}.

(** What the invariant depends on. *)
Lemma drv_ok_ext top t0 d d' :
  drv_ok top t0 d ->
  d_profile d' = d_profile d -> d_env d' = d_env d -> d_cs d' = d_cs d ->
  algo_ok (d_profile d) top (d_algo d') -> d_ce d' = d_ce d -> d_ttf d' = d_ttf d ->
  ssoc_gdf (d_ssoc d') = ssoc_gdf (d_ssoc d) -> v_last_update (d_ev d') = v_last_update (d_ev d) ->
  drv_ok top t0 d'.
Proof. intros [] E1 E2 E3 Ha E4 E5 E6 E7. split; rewrite ?E1, ?E2, ?E3, ?E4, ?E5, ?E6, ?E7; done. Qed.

(** ** The parts of a poll *)

Section parts.
Context `{PowerSupplyTypes} (top t0 : Z).

Lemma ttf_estimate_total d :
  drv_ok top t0 d ->
  exists rc e x, batt_ttf_estimate d = Ret (rc, e, set_ttf_est d x).
Proof.
  intros Hd. unfold batt_ttf_estimate.
  assert (Hid : forall rc e, exists rc' e' x,
    @Ret (Z * Z * batt_drv) (rc, e, d) = Ret (rc', e', set_ttf_est d x)).
  { intros rc e. exists rc, e, (d_ttf_est d). by destruct d. }
  destruct (negb _); [done|]. destruct (negb _); [done|].
  destruct (_ <=? _); [done|]. destruct (_ || _); [done|].
  match goal with |- context [ttf_soc_estimate _ _ ?x ?y] =>
    destruct (soc_estimate_total (d_ttf d) (d_ce d) (do_stats _ _ _ Hd) (do_event _ _ _ Hd)
      (so_in _ (do_soc _ _ _ Hd)) (proj2 (so_last _ (do_soc _ _ _ Hd))) x y) as ([rc o] & ->)
  end.
  { apply (do_gdf _ _ _ Hd). }
  { pose proof (swrap_range 32 (qnum_fromint (if d_charging_policy d =? CHARGING_POLICY_VOTE_LONGLIFE
      then LONGLIFE_CHARGE_STOP_LEVEL else if batt_charge_to_limit_enable (d_health d)
      then h_always_on_soc (d_health d) else SSOC_FULL) - SOC_ROUND_BASE)). lia. }
  run. destruct (MIN_DELTA_FOR_LOG_S <? _); [by eauto|done].
Qed.

Lemma needs_more_power_total d ibatt :
  drv_ok top t0 d ->
  exists b x y, batt_needs_more_power d ibatt = Ret (b, set_mp (set_ttf_est d x) y (d_need_mp d)).
Proof.
  intros Hd. unfold batt_needs_more_power.
  destruct (_ || _); [exists false, (d_ttf_est d), (d_mp_debounce d); by destruct d|].
  match goal with |- context [set_mp d ?y _] => set (m := y) end.
  destruct (_ || _); [exists false, (d_ttf_est d), m; by destruct d|]. unfold batt_mp_ttf_qual.
  assert (Hd' : drv_ok top t0 (set_mp d m (d_need_mp d))).
  { apply (drv_ok_ext _ _ d); try done. apply (do_algo _ _ _ Hd). }
  destruct (ttf_estimate_total _ Hd') as (rc & e & x & ->). run. eauto.
Qed.

(** Booking a sample adds at most its time. *)
Lemma update_tier_wf rows t ti ibatt temp elap cc s msc soc n :
  wf_tier rows t -> 0 <= ti < rows -> rows <= 100 -> within n t -> 0 <= elap -> n + elap < 2 ^ 31 ->
  let t' := gbms_stats_update_tier ti ibatt temp elap cc s msc soc t in
  wf_tier rows t' /\ within (n + elap) t'.
Proof.
  intros [Hf Ht Ho Hsum Hrow] Hti Hrows Hn He Hb. unfold gbms_stats_update_tier, within, time_of in *.
  assert (Hc : forall m, exists u, gbms_chg_stats_tier t m elap = u /\ t_soc_in u = t_soc_in t /\
    t_time_fast u = t_time_fast t /\ t_time_taper u = t_time_taper t /\
    t_time_other u = t_time_other t /\ t_temp_idx u = t_temp_idx t).
  { intros m. unfold gbms_chg_stats_tier. destruct (_ || _); eexists; (split; [done|]); by split_and!. }
  destruct (Hc msc) as (u & -> & -> & E1 & E2 & E3 & E4). cbn zeta.
  destruct (t_soc_in t =? -1); [|destruct (cs_chg_type s =? _); [|destruct (cs_chg_type s =? _)]];
    cbn; rewrite ?E1, ?E2, ?E3, ?E4; rewrite ?(wrap_id 32) by lia; rewrite ?(swrap_id 8) by lia;
    (split; [split|]); cbn; rewrite ?E1, ?E2, ?E3, ?E4; rewrite ?(wrap_id 32) by lia;
    rewrite ?(swrap_id 8) by lia; try lia; destruct (negb _); lia.
Qed.


Lemma within_mono n m t : within n t -> n <= m -> within m t.
Proof. unfold within. lia. Qed.

(** A tier of the list is booked. *)
Lemma update_tier_total rows l i f n :
  length l = Z.to_nat GBMS_STATS_TIER_COUNT -> 0 <= i < GBMS_STATS_TIER_COUNT ->
  Forall (wf_tier rows) l -> Forall (within n) l ->
  (forall t, t ∈ l -> wf_tier rows (f t) /\ within n (f t)) ->
  exists l', update_tier l i f = Ret l' /\ length l' = Z.to_nat GBMS_STATS_TIER_COUNT /\
    Forall (wf_tier rows) l' /\ Forall (within n) l'.
Proof.
  intros Hl Hi Hw Hn Hf. unfold update_tier.
  destruct (tier_at_Some l i) as (t & -> & Hin); [unfold GBMS_STATS_TIER_COUNT in *; lia|]. run.
  destruct (Hf t Hin). eexists. split; [done|]. rewrite length_insert. split; [done|].
  by split; apply Forall_insert.
Qed.

(** The parts of the event that the times to full are computed from. *)
Record ce_ok (rows n : Z) (ce : gbms_charging_event) : Prop := {
  co_count : length (ce_tier_stats ce) = Z.to_nat GBMS_STATS_TIER_COUNT;
  co_tiers : Forall (wf_tier rows) (ce_tier_stats ce);
  co_within : Forall (within n) (ce_tier_stats ce);
  co_health : wf_tier rows (health_stats ce);
  co_hwithin : within n (health_stats ce);
  co_wf_soc : wf_soc (ce_soc_stats ce);
  co_soc : soc_ok ce;
}.

Lemma soc_update_total rows n ce soc elap ti cc :
  ce_ok rows n ce ->
  exists ce', batt_chg_stats_soc_update ce soc elap ti cc = Ret ce' /\ ce_ok rows n ce' /\
    chg_profile ce' = chg_profile ce.
Proof.
  intros [Hc Ht Hn Hh Hhn [Hcc He Hs] [Hti Hin Hl]]. unfold batt_chg_stats_soc_update.
  set (i0 := if _ <? 0 then 0 else _). set (i := if 100 <? i0 then 100 else i0).
  assert (Hi : 0 <= i <= 100) by (subst i i0; repeat case_test; lia). clearbody i.
  case_test; [by eexists|]. unfold GBMS_SOC_STATS_LEN in *.
  destruct (at_Some (ss_elap (ce_soc_stats ce)) i) as [e He1]; [lia|]. rewrite He1. run.
  match goal with |- context [if e =? 0 then ?x else ?y] =>
    assert (Hs1 : exists s1, (if e =? 0 then x else y) = Ret s1 /\
      length (ss_ti s1) = Z.to_nat 101 /\ length (ss_cc s1) = Z.to_nat 101 /\
      ss_elap s1 = ss_elap (ce_soc_stats ce))
  end.
  { destruct (e =? 0); [|by eexists]. rewrite !put_cell_ok by lia. run. eexists.
    split; [done|]. cbn. by rewrite !length_insert. }
  destruct Hs1 as (s1 & -> & H1 & H2 & H3). run.
  destruct (Z.eqb_spec (last_soc ce) (-1)); cbn [negb]; run.
  { eexists. split; [done|]. split; [|done].
    split; try done; cbn; [split; rewrite ?H3; done|by split; cbn; try lia]. }
  rewrite H3. destruct (at_Some (ss_elap (ce_soc_stats ce)) (last_soc ce)) as [e' ->]; [lia|]. run.
  rewrite put_cell_ok by lia. run. eexists. split; [done|]. split; [|done].
  split; try done; cbn; [split; cbn|by split; cbn; try lia]; try done.
  - by rewrite length_insert.
  - apply Forall_insert; [done|]. apply (swrap_range 64). lia.
Qed.

Lemma ce_ok_mono rows n m ce : ce_ok rows n ce -> n <= m -> ce_ok rows m ce.
Proof.
  intros [] Hnm. split; try done; [|by eapply within_mono].
  eapply Forall_impl; [done|]. intros t Ht. by eapply within_mono.
Qed.

(** The series of tiers never fails, and the event stays in order. *)
Lemma book_series_total rows n d ce v tier_idx elap cc up temp :
  env_ok (d_env d) -> ce_ok rows n ce -> 0 <= elap ->
  (forall x t, wf_tier rows t -> within n t -> wf_tier rows (up x t) /\ within (n + elap) (up x t)) ->
  exists ce' v' b, book_series d ce v tier_idx elap cc up temp = Ret (ce', v', b) /\
    chg_profile ce' = chg_profile ce /\ v_last_update v' = v_last_update v /\
    (if b then ce_ok rows n ce' else ce_ok rows (n + elap) ce').
Proof.
  intros He Hce Hel Hup. unfold book_series.
  assert (Hm : ce_ok rows (n + elap) ce) by (eapply ce_ok_mono; [done|lia]).
  destruct (e_batt_full (d_env d)).
  { eexists _, _, _. split; [done|]. split; [done|]. split; [|done].
    unfold book_full. by destruct (_ && _). }
  destruct (_ =? MSC_HEALTH_PAUSE); [by eexists _, _, _|].
  destruct (_ || _).
  { eexists _, _, _. split; [done|]. split; [done|]. split; [done|].
    destruct Hm as [? ? ? ? ? ? []]. destruct (Hup temp (health_stats ce)); [apply Hce..|]. by split. }
  destruct (e_temp_filter (d_env d)) as [[l i]|] eqn:Ef.
  { destruct (eo_filter _ He _ _ Ef) as [Hl Hi]. unfold TEMP_SAMPLE_SIZE in Hl.
    destruct (at_Some l i) as [x ->]; [lia|]. run. by eexists _, _, _. }
  destruct (negb _); run; [|by eexists _, _, _].
  destruct (soc_update_total rows n ce (ssoc_get_capacity_raw (d_ssoc d)) elap tier_idx cc Hce)
    as (ce' & -> & Hce' & Hpr). run. by eexists _, _, _.
Qed.

Lemma stats_update_total n d g ti tier_idx ibatt temp elap :
  wf_msc (d_profile d) top -> env_ok (d_env d) ->
  ce_ok (temp_nb_limits (limits (d_profile d)) - 1) n (d_ce d) ->
  row (d_profile d) ti -> 0 <= tier_idx < GBMS_STATS_TIER_COUNT -> 0 <= elap -> n + elap < 2 ^ 31 ->
  exists ce v, batt_chg_stats_update d g ti tier_idx ibatt temp elap = Ret (set_event d ce v) /\
    ce_ok (temp_nb_limits (limits (d_profile d)) - 1) (n + elap) ce /\
    chg_profile ce = chg_profile (d_ce d) /\ v_last_update v = v_last_update (d_ev d).
Proof.
  intros Hp He Hce Hti Hi Hel Hb. unfold batt_chg_stats_update.
  set (rows := temp_nb_limits (limits (d_profile d)) - 1) in *.
  assert (Hrows : rows <= 100).
  { pose proof (wf_temp_nb _ (plain_wf _ (wm_plain _ _ Hp))).
    unfold GBMS_CHG_TEMP_NB_LIMITS_MAX in *. lia. }
  assert (Hid : exists ce v, Ret d = Ret (set_event d ce v) /\ ce_ok rows (n + elap) ce /\
    chg_profile ce = chg_profile (d_ce d) /\ v_last_update v = v_last_update (d_ev d)).
  { exists (d_ce d), (d_ev d). split; [by destruct d|]. split; [|done].
    eapply ce_ok_mono; [done|lia]. }
  destruct (elap =? 0); [done|]. destruct (g_charge_counter g <? 0); [done|]. clear Hid.
  match goal with |- context [book_series d _ _ _ _ _ ?f _] => set (up := f) end.
  assert (Hup : forall x t, wf_tier rows t -> within n t ->
    wf_tier rows (up x t) /\ within (n + elap) (up x t)).
  { intros x t Hw Hn. by apply update_tier_wf. }
  unfold log_event.
  destruct (tier_volt _ _ Hp (volt_nb_limits (limits (d_profile d)) - 1)) as (v0 & -> & _).
  { pose proof (wf_volt_nb _ (plain_wf _ (wm_plain _ _ Hp))). unfold tier. lia. }
  run. match goal with |- context [book_series d _ ?v _ _ ?c _ _] =>
    destruct (book_series_total rows n d (d_ce d) v tier_idx elap c up temp He Hce Hel Hup)
      as (ce & v1 & b & -> & Hpr & Hv & Hb')
  end. run.
  match goal with |- context [let '(a, b) := ?m in _] => destruct m as [v2 pol] eqn:Epol end.
  assert (Hv2 : v_last_update v2 = v_last_update (d_ev d)).
  { revert Epol. repeat case_match; intros [= <- <-]; cbn; rewrite ?Hv; repeat case_match; done. }
  clear Epol Hv. destruct b; cbn [negb orb]; [|by eexists _, _].
  assert (Hm : ce_ok rows (n + elap) ce) by (eapply ce_ok_mono; [done|lia]).
  destruct (_ || _); [by eexists _, _|].
  destruct Hm as [Hc Ht Hn Hh Hhn Hs Hso].
  match goal with |- context [update_tier _ _ ?f] =>
    destruct (update_tier_total rows (ce_tier_stats ce) tier_idx f (n + elap))
      as (l & -> & Hl1 & Hl2 & Hl3); try done
  end.
  { intros t Hin. destruct Hb' as [_ Ht' Hn' _ _ _ _]. rewrite Forall_forall in Ht', Hn'.
    by apply Hup; [apply Ht'|apply Hn']. }
  run. eexists _, _. split; [done|]. split; [|done]. split; try done. destruct Hso. by split.
Qed.

Lemma book_irdrop_total rows n d elap b :
  ce_ok rows n (d_ce d) -> booked_ok b ->
  exists ce, book_irdrop d elap b = Ret (set_event d ce (d_ev d)) /\ ce_ok rows n ce /\
    chg_profile ce = chg_profile (d_ce d).
Proof.
  intros Hce Hb. destruct b as [[i s]|]; cbn [book_irdrop].
  2: { exists (d_ce d). split; [by destruct d|done]. }
  destruct Hce as [Hc Ht Hn Hh Hhn Hs Hso].
  destruct (update_tier_total rows (ce_tier_stats (d_ce d)) i
    (fun t => gbms_chg_stats_tier t s elap) n) as (l & -> & Hl1 & Hl2 & Hl3); try done.
  { intros t Hin. rewrite Forall_forall in Ht, Hn. specialize (Ht t Hin). specialize (Hn t Hin).
    unfold gbms_chg_stats_tier. destruct (_ || _); [done|]. destruct Ht. by split. }
  run. eexists. split; [done|]. split; [|done]. split; try done. destruct Hso. by split.
Qed.

(** What a poll publishes. *)
Record published (p : gbms_chg_profile) (a : msc_algo) (s ti : Z) (t : msc_tier) (a' : msc_algo)
    : Prop := {
  pb_temp : a_temp_idx a' = ti;
  pb_vbatt : a_vbatt_idx a' = m_vbatt_idx t;
  pb_fv : a_fv_uv a' = m_fv_uv t;
  pb_cc : GBMS_CCCM_LIMITS p ti (m_vbatt_idx t) = Ret (a_cc_max a');
  pb_topoff : at_ (topoff_limits (limits p)) ti = Ret (a_topoff a');
  pb_interval : a_msc_update_interval a' = m_interval t;
  pb_jeita : a_jeita_stop_charging a' = a_jeita_stop_charging a;
  pb_cv : a_checked_cv_cnt a' = a_checked_cv_cnt a;
  pb_ov : a_checked_ov_cnt a' = a_checked_ov_cnt a;
  pb_switch : a_checked_tier_switch_cnt a' = a_checked_tier_switch_cnt a;
  pb_state : a_msc_state a' = s;
}.

Lemma publish_total p a s ti pi t :
  wf_msc p top -> row p ti -> tier p (m_vbatt_idx t) ->
  exists a', msc_publish p a s ti pi t = Ret a' /\ published p a s ti t a'.
Proof.
  intros Hp Hti Ht. unfold msc_publish.
  destruct (cc_ok p top Hp ti _ Hti Ht) as (cc & Hcc & -> & _). run.
  pose proof (wm_topoff _ _ Hp) as Hl. pose proof (wf_temp_nb _ (plain_wf _ (wm_plain _ _ Hp))).
  unfold row, GBMS_CHG_TOPOFF_NB_LIMITS_MAX, GBMS_CHG_TEMP_NB_LIMITS_MAX in *.
  destruct (at_Some (topoff_limits (limits p)) ti) as [x Hx]; [lia|]. rewrite Hx. run.
  eexists. split; [done|]. by split.
Qed.

Lemma drv_ce_ok d :
  drv_ok top t0 d ->
  ce_ok (temp_nb_limits (limits (d_profile d)) - 1) (v_last_update (d_ev d) - t0) (d_ce d).
Proof. intros [? ? ? ? E [] ? ? ? ? ? ?]. rewrite <- E. by split. Qed.

(** The end of a poll. *)
Lemma finish_total now g d vbatt ibatt temp ti s t a0 :
  drv_ok top t0 d -> d_algo d = a0 -> row (d_profile d) ti -> tier (d_profile d) (m_vbatt_idx t) ->
  fv_uv_resolution (behavior (d_profile d)) <= m_fv_uv t <= top ->
  v_last_update (d_ev d) <= now < 2 ^ 62 -> now - t0 < 2 ^ 31 ->
  exists d', msc_finish now (now - v_last_update (d_ev d)) g d vbatt ibatt temp ti s t = Ret d' /\
    drv_ok top t0 d' /\ published (d_profile d) a0 s ti t (d_algo d') /\
    d_profile d' = d_profile d /\ d_settings d' = d_settings d /\ d_env d' = d_env d /\
    d_cs d' = d_cs d /\ d_ssoc d' = d_ssoc d /\ d_ttf d' = d_ttf d /\ d_health d' = d_health d /\
    v_last_update (d_ev d') = now.
Proof.
  intros Hd Ha Hti Ht Hfv Hnow Hb. unfold msc_finish. set (p := d_profile d) in *.
  pose proof (do_profile _ _ _ Hd) as Hp. pose proof (do_time _ _ _ Hd) as Htime.
  destruct (last_voltage_idx_charges p ti (wm_plain _ _ Hp) Hti) as (last & -> & _). run.
  destruct (voltage_idx_ok p vbatt (plain_wf _ (wm_plain _ _ Hp))) as (i & j & -> & (Hi & _) & Hj).
  assert (Hjr : 0 <= j < volt_nb_limits (limits p)).
  { destruct Hj as [[? ?]|(? & v & _ & [[_ ?]|[_ ?]])]; lia. }
  run. rewrite (proj2 (Z.eqb_neq j (-1))), (proj2 (Z.ltb_lt j _)) by lia. cbn [negb andb].
  set (d1 := cast d _ _ _ _).
  set (el := if _ =? -1 then 0 else _).
  assert (Hel : 0 <= el <= now - v_last_update (d_ev d)) by (subst el; case_test; lia).
  pose proof (drv_ce_ok d Hd) as Hce. pose proof (do_env _ _ _ Hd) as He.
  destruct (stats_update_total (v_last_update (d_ev d) - t0) d1 g ti (batt_chg_vbat2tier j)
    (cdiv ibatt 1000) temp el Hp He Hce Hti) as (ce & v & -> & Hce' & Hpr & Hv);
    [apply vbat2tier_range; lia|lia|lia|].
  run. match goal with |- context [batt_needs_more_power ?x _] => set (d2 := x) end.
  assert (Hm : ce_ok (temp_nb_limits (limits p) - 1) (now - t0) ce).
  { eapply ce_ok_mono; [exact Hce'|lia]. }
  assert (Hd2 : drv_ok top t0 d2).
  { destruct Hd as [H1 H2 H3 H4 H5 [Q1 Q2 Q3 Q4 Q5 Q6 Q7 Q8] H7 H8 H9 H10 H11 H12].
    destruct Hm as [M1 M2 M3 M4 M5 M6 M7]. change (chg_profile (d_ce d1)) with (chg_profile (d_ce d)) in Hpr.
    split; cbn; try done; [congruence| |lia].
    split; rewrite ?Hpr, ?H5; try done; rewrite <- ?H5; done. }
  destruct (needs_more_power_total d2 ibatt Hd2) as (b & x & y & ->). run.
  match goal with |- context [msc_publish p ?a s ti j t] =>
    destruct (publish_total p a s ti j t Hp Hti Ht) as (a' & -> & Hpub)
  end.
  run. eexists. split; [done|]. cbn. split; [|split; [|done]].
  - apply (drv_ok_ext _ _ d2); try done. right. cbn. rewrite (pb_temp _ _ _ _ _ _ Hpub),
      (pb_vbatt _ _ _ _ _ _ Hpub), (pb_fv _ _ _ _ _ _ Hpub). done.
  - destruct Hpub. rewrite <- Ha. by split.
Qed.

(** What stays the same in a poll that charges. *)
Record same_parts (d d' : batt_drv) : Prop := {
  sp_profile : d_profile d' = d_profile d;
  sp_settings : d_settings d' = d_settings d;
  sp_env : d_env d' = d_env d;
  sp_cs : d_cs d' = d_cs d;
  sp_ssoc : d_ssoc d' = d_ssoc d;
  sp_ttf : d_ttf d' = d_ttf d;
  sp_health : d_health d' = d_health d;
}.

(** A poll that was carried out: the tier it decided on is published. *)
Definition polled (g : gauge) (d : batt_drv) (temp : Z) (d' : batt_drv) : Prop :=
  exists ibatt ti s t a b,
    g_current_now g = Some ibatt /\ 0 <= g_voltage_now g /\
    gbms_msc_temp_idx (d_profile d) temp = Ret ti /\ row (d_profile d) ti /\
    msc_decide (d_settings d) (d_profile d) (d_cs d) (d_algo d) (g_voltage_now g) ibatt temp ti =
      Ret (s, t, a, b) /\
    published (d_profile d) a s ti t (d_algo d').

Lemma charge_total now g d temp :
  drv_ok top t0 d -> v_last_update (d_ev d) <= now < 2 ^ 62 -> now - t0 < 2 ^ 31 ->
  (g_current_now g = None \/ g_voltage_now g < 0) /\ msc_charge now g d temp = Ret (- EIO, d) \/
  exists d', msc_charge now g d temp = Ret (0, d') /\ drv_ok top t0 d' /\
    v_last_update (d_ev d') = now /\ same_parts d d' /\ polled g d temp d'.
Proof.
  intros Hd Hnow Hb. unfold msc_charge.
  destruct (g_current_now g) as [ibatt|] eqn:Eg; [|by left; split; [left|]].
  destruct (Z.ltb_spec (g_voltage_now g) 0); [by left; split; [right|]|]. right.
  pose proof (do_profile _ _ _ Hd) as Hp. set (p := d_profile d) in *.
  destruct (temp_idx_ok p temp (plain_wf _ (wm_plain _ _ Hp))) as (ti & Hti & Htr & _).
  assert (Hrow : row p ti) by (pose proof (plain_rows _ (wm_plain _ _ Hp)); unfold row; lia).
  change (d_profile d) with p. rewrite Hti. run.
  destruct (decide_ok p top Hp (d_settings d) (d_cs d) (d_algo d) (g_voltage_now g) ibatt temp ti
    (do_cs _ _ _ Hd) (do_algo _ _ _ Hd) Hrow) as (s & t & a & b & Hdec & Hs & Htt & Hfv & Hbk & _);
    [lia|].
  cbn [d_settings d_cs d_algo set_max_voltage set_event]. rewrite Hdec. run.
  pose proof (do_time _ _ _ Hd) as Htime. rewrite (swrap_id 64) by lia.
  set (dm := set_max_voltage d _). set (da := set_algo dm a).
  assert (Hda : drv_ok top t0 da).
  { apply (drv_ok_ext _ _ d); try done. destruct Hs as (E1 & E2 & _ & E3 & _).
    unfold algo_ok. cbn. rewrite E1, E2, E3. apply Hd. }
  destruct (book_irdrop_total _ _ da (now - v_last_update (d_ev d)) b (drv_ce_ok _ Hda) Hbk)
    as (ce & -> & Hce & Hpr). run.
  assert (Hd3 : drv_ok top t0 (set_event da ce (d_ev da))).
  { destruct Hda as [H1 H2 H3 H4 H5 [Q1 Q2 Q3 Q4 Q5 Q6 Q7 Q8] H7 H8 H9 H10 H11 H12].
    destruct Hce as [M1 M2 M3 M4 M5 M6 M7].
    split; cbn; try done; [by rewrite Hpr|]. split; rewrite ?Hpr; try done; rewrite H5; done. }
  destruct (finish_total now g _ (g_voltage_now g) ibatt temp ti s t a Hd3 eq_refl Hrow Htt Hfv Hnow Hb)
    as (d' & Hf & Hd' & Hpub & E1 & E2 & E3 & E4 & E5 & E6 & E7 & E8).
  change (v_last_update (d_ev (set_event da ce (d_ev da)))) with (v_last_update (d_ev d)) in Hf.
  rewrite Hf. run. exists d'. split; [done|]. split; [done|]. split; [done|].
  split; [by split|]. exists ibatt, ti, s, t, a, b. by split_and!.
Qed.

(** ** The poll *)

(** The temperature is outside the charge table. *)
Definition off_limits (p : gbms_chg_profile) (temp : Z) : Prop :=
  exists lo hi, at_ (temp_limits (limits p)) 0 = Ret lo /\
    at_ (temp_limits (limits p)) (temp_nb_limits (limits p) - 1) = Ret hi /\
    (temp < lo \/ hi <= temp).
Definition in_limits (p : gbms_chg_profile) (temp : Z) : Prop :=
  exists lo hi, at_ (temp_limits (limits p)) 0 = Ret lo /\
    at_ (temp_limits (limits p)) (temp_nb_limits (limits p) - 1) = Ret hi /\ lo <= temp < hi.

(** Leaving and entering the table. *)
Definition jeita_off (d : batt_drv) : batt_drv :=
  if a_jeita_stop_charging (d_algo d) <? 0 then set_algo d (set_jeita (d_algo d) 1)
  else if a_jeita_stop_charging (d_algo d) =? 0 then batt_reset_chg_drv_state d else d.
Definition jeita_in (d : batt_drv) : batt_drv :=
  if a_jeita_stop_charging (d_algo d) =? 0 then d
  else set_max_voltage (set_algo d (set_jeita (d_algo d) 0)) 0.

Inductive poll_case (g : gauge) (d : batt_drv) : Z -> batt_drv -> Prop :=
| poll_no_temp :
    gbatt_get_raw_temp d g = Ret None -> poll_case g d (- EIO) d
| poll_off temp :
    gbatt_get_raw_temp d g = Ret (Some temp) -> off_limits (d_profile d) temp ->
    poll_case g d 0 (jeita_off d)
| poll_unread temp :
    gbatt_get_raw_temp d g = Ret (Some temp) -> in_limits (d_profile d) temp ->
    g_current_now g = None \/ g_voltage_now g < 0 -> poll_case g d (- EIO) (jeita_in d)
| poll_charged temp d' :
    gbatt_get_raw_temp d g = Ret (Some temp) -> in_limits (d_profile d) temp ->
    same_parts d d' -> polled g (jeita_in d) temp d' -> poll_case g d 0 d'.

Lemma raw_temp_total d g : env_ok (d_env d) -> exists o, gbatt_get_raw_temp d g = Ret o.
Proof.
  intros He. unfold gbatt_get_raw_temp. destruct (e_temp_filter (d_env d)) as [[l i]|] eqn:Ef; [|eauto].
  destruct (eo_filter _ He _ _ Ef) as [Hl _]. unfold batt_get_filter_temp.
  destruct l as [|x l]; [done|]. cbn [lookup list_lookup must]. run. rewrite decide_True by done. eauto.
Qed.

Lemma soft_jeita_total p temp a :
  wf_limits (limits p) ->
  (off_limits p temp /\ msc_logic_soft_jeita p temp a =
     Ret (true, if a_jeita_stop_charging a <? 0 then set_jeita a 1 else a)) \/
  (in_limits p temp /\ msc_logic_soft_jeita p temp a = Ret (false, a)).
Proof.
  intros [Hn Hl _ _ _]. unfold GBMS_CHG_TEMP_NB_LIMITS_MAX in *. unfold msc_logic_soft_jeita.
  destruct (at_Some (temp_limits (limits p)) 0) as [lo Hlo]; [lia|].
  destruct (at_Some (temp_limits (limits p)) (temp_nb_limits (limits p) - 1)) as [hi Hhi]; [lia|].
  rewrite Hlo. run. destruct (Z.ltb_spec temp lo); run.
  { left. split; [|done]. exists lo, hi. split_and!; auto. }
  rewrite Hhi. run. destruct (Z.leb_spec hi temp); [left|right]; (split; [|done]); exists lo, hi;
    split_and!; auto.
Qed.

Lemma reset_keeps d : drv_ok top t0 d -> drv_ok top t0 (batt_reset_chg_drv_state d).
Proof. intros Hd. apply (drv_ok_ext _ _ d); try done. by left. Qed.

Lemma jeita_off_ok d : drv_ok top t0 d -> drv_ok top t0 (jeita_off d).
Proof.
  intros Hd. unfold jeita_off. destruct (_ <? 0); [apply (drv_ok_ext _ _ d); try done; apply Hd|].
  destruct (_ =? 0); [by apply reset_keeps|done].
Qed.

Lemma jeita_in_ok d : drv_ok top t0 d -> drv_ok top t0 (jeita_in d).
Proof.
  intros Hd. unfold jeita_in. destruct (_ =? 0); [done|].
  apply (drv_ok_ext _ _ d); try done; apply Hd.
Qed.

Lemma jeita_in_parts d :
  same_parts d (jeita_in d) /\ v_last_update (d_ev (jeita_in d)) = v_last_update (d_ev d) /\
  a_jeita_stop_charging (d_algo (jeita_in d)) = 0.
Proof.
  unfold jeita_in. destruct (Z.eqb_spec (a_jeita_stop_charging (d_algo d)) 0); by split.
Qed.

Lemma logic_total now g d :
  drv_ok top t0 d -> v_last_update (d_ev d) <= now < 2 ^ 62 -> now - t0 < 2 ^ 31 ->
  exists rc d', msc_logic now g d = Ret (rc, d') /\ drv_ok top t0 d' /\
    v_last_update (d_ev d') <= now /\ poll_case g d rc d'.
Proof.
  intros Hd Hnow Hb. unfold msc_logic.
  destruct (raw_temp_total d g (do_env _ _ _ Hd)) as [[temp|] Ht]; rewrite Ht; run.
  2: { eexists _, _. split; [done|]. split; [done|]. split; [lia|]. by apply poll_no_temp. }
  destruct (soft_jeita_total (d_profile d) temp (d_algo d)
    (plain_wf _ (wm_plain _ _ (do_profile _ _ _ Hd)))) as [[Hlim ->]|[Hlim ->]]; run.
  - assert (E : (if a_jeita_stop_charging (if a_jeita_stop_charging (d_algo d) <? 0
        then set_jeita (d_algo d) 1 else d_algo d) =? 0
      then batt_reset_chg_drv_state (set_algo d (if a_jeita_stop_charging (d_algo d) <? 0
        then set_jeita (d_algo d) 1 else d_algo d))
      else set_algo d (if a_jeita_stop_charging (d_algo d) <? 0
        then set_jeita (d_algo d) 1 else d_algo d)) = jeita_off d).
    { unfold jeita_off. destruct (a_jeita_stop_charging (d_algo d) <? 0); [done|].
      destruct (a_jeita_stop_charging (d_algo d) =? 0); by destruct d. }
    rewrite E. eexists _, _. split; [done|]. split; [by apply jeita_off_ok|].
    split; [|by eapply poll_off].
    unfold jeita_off. destruct (_ <? 0); [cbn; lia|]. destruct (_ =? 0); cbn; lia.
  - assert (E : (if negb (a_jeita_stop_charging (d_algo d) =? 0)
      then set_max_voltage (set_algo d (set_jeita (d_algo d) 0)) 0 else set_algo d (d_algo d)) = jeita_in d).
    { unfold jeita_in. destruct (_ =? 0); [by destruct d|done]. }
    rewrite E. destruct (jeita_in_parts d) as (Hsp & Hlu & Hj).
    destruct (charge_total now g (jeita_in d) temp (jeita_in_ok d Hd)) as [[Hu ->]|Hc];
      [by rewrite Hlu|done| |].
    + eexists _, _. split; [done|]. split; [by apply jeita_in_ok|]. split; [lia|]. by eapply poll_unread.
    + destruct Hc as (d' & -> & Hd' & Hlu' & Hsp' & Hpl). eexists _, _. split; [done|].
      split; [done|]. split; [lia|]. eapply poll_charged; try done.
      destruct Hsp, Hsp'. split; congruence.
Qed.
End parts.
