(* ===== verification/MscRun.v ===== *)
(** The charger's reports and the user's requests in any order: the driver state they act on
    keeps its invariant, together with the state of charge of [SsocRecharge]. *)

From Stdlib Require Import String.
From S2P Require Import Prelude GbmsProfile GbmsLookup GbmsCharge Ttf TtfPower Ssoc SsocTrace SsocRecharge Msc MscDrv MscHealth MscLogic MscTable MscSafe.

(** ** Adaptive charging never fails *)

Section steps.
Context `{PowerSupplyTypes} `{Elections} (top t0 : Z).

Lemma last_idx_total p ti :
  wf_msc p top -> row p ti \/ ti = -1 ->
  exists i, gbms_msc_get_last_voltage_idx p ti = Ret i /\ tier p i.
Proof.
  intros Hp [Ht| ->].
  - destruct (last_voltage_idx_charges p ti (wm_plain _ _ Hp) Ht) as (i & Hi & Hr & _).
    exists i. split; [done|]. unfold tier. lia.
  - pose proof (wf_volt_nb _ (plain_wf _ (wm_plain _ _ Hp))). unfold gbms_msc_get_last_voltage_idx.
    destruct (scan_down_spec (fun i => let* cc := GBMS_CCCM_LIMITS p (-1) i in Ret (cc =? 0))
      (Z.to_nat (volt_nb_limits (limits p) - 1))) as (i & -> & Hr & _).
    { intros k _. unfold GBMS_CCCM_LIMITS. cbn. eauto. }
    exists i. split; [done|]. unfold tier. lia.
Qed.

Lemma algo_row p a : algo_ok p top a -> row p (a_temp_idx a) \/ a_temp_idx a = -1.
Proof. intros [(-> & _)|(? & _)]; [by right|by left]. Qed.

Lemma health_limits_total d s :
  drv_ok top t0 d -> exists cc fv, health_limits d s = Ret (cc, fv).
Proof.
  intros Hd. unfold health_limits. pose proof (do_profile _ _ _ Hd) as Hp.
  destruct (_ || _).
  - destruct (last_idx_total _ _ Hp (algo_row _ _ (do_algo _ _ _ Hd))) as (i & -> & Hi). run.
    destruct (tier_volt _ _ Hp i Hi) as (v & -> & _). run. eauto.
  - destruct (_ =? CHG_HEALTH_ENABLED); [eauto|]. destruct (_ =? CHG_HEALTH_PAUSE); eauto.
Qed.

(** The state that the state machine starts in: with an always-on level it is enabled. *)
Definition entry_state (h : batt_chg_health) : Z :=
  if negb (h_always_on_soc h =? -1) && (h_rest_state h =? CHG_HEALTH_INACTIVE)
  then CHG_HEALTH_ENABLED else h_rest_state h.

(** What the state machine leaves alone. *)
Record health_frame (d d' : batt_drv) : Prop := {
  hf_algo : d_algo d' = d_algo d;
  hf_ssoc : d_ssoc d' = d_ssoc d;
  hf_cs : d_cs d' = d_cs d;
  hf_env : d_env d' = d_env d;
  hf_profile : d_profile d' = d_profile d;
  hf_ev : d_ev d' = d_ev d;
  hf_aon : h_always_on_soc (d_health d') = h_always_on_soc (d_health d);
  hf_deadline : h_rest_deadline (d_health d') = h_rest_deadline (d_health d);
  hf_rate : h_rest_rate (d_health d') = h_rest_rate (d_health d);
  hf_before : h_rest_rate_before_trigger (d_health d') = h_rest_rate_before_trigger (d_health d);
  hf_votes : d_votes d' = d_votes d;
  hf_settings : d_settings d' = d_settings d;
}.

Lemma pause_frame d ttf now s :
  let h := (msc_health_pause d ttf now s).2 in
  h_always_on_soc h = h_always_on_soc (d_health d) /\ h_rest_deadline h = h_rest_deadline (d_health d) /\
  h_rest_rate h = h_rest_rate (d_health d) /\ h_rest_state h = h_rest_state (d_health d) /\
  h_rest_rate_before_trigger h = h_rest_rate_before_trigger (d_health d) /\
  h_rest_cc_max h = h_rest_cc_max (d_health d) /\ h_rest_fv_uv h = h_rest_fv_uv (d_health d) /\
  health_rest_soc h = health_rest_soc (d_health d).
Proof. unfold msc_health_pause. by repeat case_match. Qed.

Lemma health_next_total now d :
  drv_ok top t0 d ->
  exists o d', health_next now d = Ret (o, d') /\ drv_ok top t0 d' /\ health_frame d d' /\
    h_rest_state (d_health d') = h_rest_state (d_health d) /\
    h_rest_cc_max (d_health d') = h_rest_cc_max (d_health d) /\
    h_rest_fv_uv (d_health d') = h_rest_fv_uv (d_health d).
Proof.
  intros Hd. unfold health_next. fold (entry_state (d_health d)).
  destruct (_ || _); [by eexists _, _|].
  destruct (has_flag _ _); [by eexists _, _|].
  destruct (_ =? POWER_SUPPLY_HEALTH_OVERHEAT); [by eexists _, _|].
  destruct (ttf_estimate_total top t0 d Hd) as (rc & e & x & ->). run.
  assert (Hd1 : drv_ok top t0 (set_ttf_est d x)) by (apply (drv_ok_ext _ _ d); try done; apply Hd).
  destruct (rc <? 0); [by eexists _, _|]. destruct (e =? 0); [by eexists _, _|].
  destruct (_ && _); [by eexists _, _|].
  match goal with |- context [let '(a, b) := ?m in _] => destruct m as [pause h'] eqn:Eh end.
  assert (Hh : h_always_on_soc h' = h_always_on_soc (d_health d) /\
    h_rest_deadline h' = h_rest_deadline (d_health d) /\ h_rest_rate h' = h_rest_rate (d_health d) /\
    h_rest_state h' = h_rest_state (d_health d) /\
    h_rest_rate_before_trigger h' = h_rest_rate_before_trigger (d_health d) /\
    h_rest_cc_max h' = h_rest_cc_max (d_health d) /\ h_rest_fv_uv h' = h_rest_fv_uv (d_health d)).
  { destruct (negb _); [|by injection Eh as <- <-].
    pose proof (pause_frame (set_ttf_est d x) e now (entry_state (d_health d))) as Hp.
    rewrite Eh in Hp. destruct Hp as (?&?&?&?&?&?&?&_). by split_and!. }
  destruct Hh as (E1 & E2 & E3 & E4 & E5 & E6 & E7).
  assert (Hd2 : drv_ok top t0 (set_health (set_ttf_est d x) h')).
  { apply (drv_ok_ext _ _ d); try done; apply Hd. }
  destruct pause; eexists _, _; (split; [done|]); (split; [done|]);
    (split; [by split|by split_and!]).
Qed.

Lemma health_drv_ok d h :
  drv_ok top t0 d -> drv_ok top t0 (set_event (set_health d h) (copy_health (d_ce d) h) (d_ev d)).
Proof.
  intros [H1 H2 H3 H4 H5 H6 [H7 H8 H9] H10 H11 H12 H13 H14].
  split; try done. destruct H6. by split.
Qed.

(** The state machine: nothing changes, or the new state with its current and voltage. *)
Lemma health_total now d :
  drv_ok top t0 d ->
  exists b d', msc_logic_health now d = Ret (b, d') /\ drv_ok top t0 d' /\ health_frame d d' /\
    exists o d1, health_next now d = Ret (o, d1) /\
      match o with
      | None => h_rest_state (d_health d') = h_rest_state (d_health d) /\
                h_rest_cc_max (d_health d') = h_rest_cc_max (d_health d)
      | Some s => h_rest_state (d_health d') = s /\
          health_limits d1 s = Ret (h_rest_cc_max (d_health d'), h_rest_fv_uv (d_health d'))
      end.
Proof.
  intros Hd. unfold msc_logic_health.
  destruct (health_next_total now d Hd) as (o & d1 & Hn & Hd1 & Hf & E1 & E2 & E3). rewrite Hn. run.
  destruct o as [s|].
  2: { exists false, d1. split_and!; try done. exists None, d1. done. }
  destruct (health_limits_total d1 s Hd1) as (cc & fv & Hl). rewrite Hl. run.
  match goal with |- context [if ?c then _ else _] => destruct c eqn:Ec end.
  - apply andb_true_iff in Ec as [[Es Ecc]%andb_true_iff Efv].
    apply Z.eqb_eq in Es, Ecc, Efv. exists false, d1. split; [done|]. split; [done|]. split; [done|].
    exists (Some s), d1. split; [done|]. split; [congruence|]. rewrite Hl. congruence.
  - eexists true, _. split; [done|]. split; [by apply health_drv_ok|].
    split; [destruct Hf; by split|]. exists (Some s), d1. split; [done|]. by split.
Qed.
End steps.

(** ** What does not touch the charging state *)

Record same_core (d d' : batt_drv) : Prop := {
  sc_profile : d_profile d' = d_profile d;
  sc_settings : d_settings d' = d_settings d;
  sc_env : d_env d' = d_env d;
  sc_cs : d_cs d' = d_cs d;
  sc_algo : d_algo d' = d_algo d;
  sc_ssoc : d_ssoc d' = d_ssoc d;
  sc_ce : d_ce d' = d_ce d;
  sc_ev : d_ev d' = d_ev d;
  sc_ttf : d_ttf d' = d_ttf d;
}.

#[global] Instance same_core_preorder : PreOrder same_core.
Proof. split; [by split|]. intros x y z [] []. split; congruence. Qed.

Create HintDb msc.

Lemma core_cast d el who v b : same_core d (cast d el who v b).
Proof. by split. Qed.
Lemma core_write d k v : same_core d (gauge_write d k v).
Proof. by split. Qed.
Lemma core_policy d x b : same_core d (set_policy d x b).
Proof. by split. Qed.
Lemma core_health d h : same_core d (set_health d h).
Proof. by split. Qed.
Lemma core_polling d a b c : same_core d (set_polling d a b c).
Proof. by split. Qed.
#[export] Hint Resolve core_cast core_write core_policy core_health core_polling : msc.
#[export] Hint Extern 1 (same_core _ (if ?b then _ else _)) => destruct b : msc.
#[export] Hint Extern 3 (same_core ?d ?d) => reflexivity : msc.

(** Peels one operation off. *)
Ltac core_step := first [reflexivity | solve [eauto with msc] | etrans; [|solve [eauto with msc]]].

Section core.
Context `{PowerSupplyTypes} `{Elections}.

Lemma core_apply_policy d r v b : same_core d (batt_apply_charging_policy_vote d r v b).
Proof. unfold batt_apply_charging_policy_vote. repeat core_step. Qed.

Lemma core_force_fcr d g : same_core d (batt_force_fcr_update_charging_policy d g).
Proof.
  unfold batt_force_fcr_update_charging_policy. destruct (Bool.eqb _ _); [done|].
  etrans; [apply core_apply_policy|]. repeat core_step.
Qed.

Lemma core_update_policy d g r v b : same_core d (batt_update_charging_policy d g r v b).
Proof.
  unfold batt_update_charging_policy.
  set (d1 := batt_apply_charging_policy_vote d r v b).
  set (d2 := if IS_POLICY_LONGLIFE _ then _ else d1).
  assert (H2 : same_core d d2).
  { subst d2. destruct (IS_POLICY_LONGLIFE _); [|apply core_apply_policy].
    etrans; [apply core_apply_policy|apply core_force_fcr]. }
  clearbody d2. destruct (_ =? _); [done|]. etrans; [exact H2|]. repeat core_step.
Qed.
End core.

Lemma drv_ok_core top t0 d d' : drv_ok top t0 d -> same_core d d' -> drv_ok top t0 d'.
Proof.
  intros Hd [E1 E2 E3 E4 E5 E6 E7 E8 E9]. apply (drv_ok_ext _ _ d); try done;
    rewrite ?E5, ?E6, ?E8; try done. apply Hd.
Qed.

(** ** The invariant *)

(** No current, none yet, or that of the table. *)
Definition cc_ok (d : batt_drv) : Prop :=
  let a := d_algo d in
  a_cc_max a = -1 \/ a_cc_max a = 0 \/
  GBMS_CCCM_LIMITS (d_profile d) (a_temp_idx a) (a_vbatt_idx a) = Ret (a_cc_max a).

(** The algorithm between two charging events. *)
Definition at_rest (a : msc_algo) : Prop :=
  a_temp_idx a = -1 /\ a_vbatt_idx a = -1 /\ a_fv_uv a = -1 /\ (a_cc_max a = -1 \/ a_cc_max a = 0).

(** [m], [stop]: the limiter of the state of charge; nothing happened before [start]; the
    last event was at [now], in less than 68 years. *)
Record run_ok (m stop top start now : Z) (d : batt_drv) : Prop := {
  ro_drv : exists t0, start <= t0 /\ drv_ok top t0 d;
  ro_last : v_last_update (d_ev d) <= now;
  ro_ssoc : ssoc_wf m stop (d_ssoc d);
  ro_ssoc_time : start <= SsocTrace.last_update (d_ssoc d) <= now;
  ro_now : 0 <= start < 2 ^ 61 /\ now < start + 2 ^ 31;
  ro_cc : cc_ok d;
  ro_rest : buck_enabled (d_ssoc d) <= 0 -> at_rest (d_algo d);
}.

Lemma run_ok_core m stop top start now d d' :
  run_ok m stop top start now d -> same_core d d' -> run_ok m stop top start now d'.
Proof.
  intros [(t0 & Ht & Hd) H1 H2 H3 H4 H5 H6] Hc. pose proof Hc as [E1 E2 E3 E4 E5 E6 E7 E8 E9].
  split; unfold cc_ok; rewrite ?E1, ?E5, ?E6, ?E8; try done.
  exists t0. split; [done|]. by eapply drv_ok_core.
Qed.

Lemma run_ok_time m stop top start now now' d :
  run_ok m stop top start now d -> now <= now' < start + 2 ^ 31 -> run_ok m stop top start now' d.
Proof. intros [] Hn. split; try done; try lia. Qed.

(** Another state of charge: the level of the gauge in range, connected as before. *)
Lemma run_ok_ssoc m stop top start now d s :
  run_ok m stop top start now d -> ssoc_wf m stop s -> start <= SsocTrace.last_update s <= now ->
  - 2 ^ 31 <= ssoc_gdf s < 2 ^ 31 ->
  (buck_enabled s <= 0 -> at_rest (d_algo d)) -> run_ok m stop top start now (set_ssoc d s).
Proof.
  intros [(t0 & Ht & Hd) H1 H2 H3 H4 H5 H6] Hs Hl Hg Hb. split; try done.
  exists t0. split; [done|]. destruct Hd. by split.
Qed.

(** ** The state of charge keeps the connection *)

Lemma update_keeps_buck now s soc s' : ssoc_update now s soc = Ret s' -> buck_enabled s' = buck_enabled s.
Proof.
  unfold ssoc_update. intros (u & _ & Hr)%obind_Ret. apply obind_Ret in Hr as (r & _ & Hr).
  by injection Hr as <-.
Qed.

Lemma change_curve_keeps_buck s delta type s' :
  ssoc_change_curve s delta type = Ret s' -> buck_enabled s' = buck_enabled s.
Proof.
  unfold ssoc_change_curve, ssoc_change_curve_at_gdf. cbv zeta. intros (c & _ & Hr)%obind_Ret.
  apply Ret_inj in Hr. by rewrite <- Hr.
Qed.

Lemma enter_keeps_buck now s st b s' :
  batt_rl_enter now s st = Ret (b, s') -> buck_enabled s' = buck_enabled s.
Proof.
  unfold batt_rl_enter. destruct (_ || _); [by intros [= _ <-]%Ret_inj|].
  intros (s1 & H1 & H2)%obind_Ret. apply obind_Ret in H2 as (s2 & H2 & H3).
  apply Ret_inj, pair_equal_spec in H3 as [_ <-].
  change (buck_enabled s2 = buck_enabled s). rewrite (update_keeps_buck _ _ _ _ H2).
  destruct (bool_decide _); [|apply Ret_inj in H1; by rewrite H1].
  destruct (_ && _); [by apply change_curve_keeps_buck in H1|apply Ret_inj in H1; by rewrite <- H1].
Qed.

(** ** The parts of a report *)

Section reports.
Context `{PowerSupplyTypes} `{Elections} (m stop top start : Z).

#[local] Abbreviation ok := (run_ok m stop top start).

Lemma run_ok_algo now d a :
  ok now d -> algo_ok (d_profile d) top a -> cc_ok (set_algo d a) ->
  (buck_enabled (d_ssoc d) <= 0 -> at_rest a) -> ok now (set_algo d a).
Proof.
  intros [(t0 & Ht & Hd) H1 H2 H3 H4 H5 H6] Ha Hc Hr. split; try done.
  exists t0. split; [done|]. by apply (drv_ok_ext _ _ d).
Qed.

Lemma run_ok_algo_ok now d : ok now d -> algo_ok (d_profile d) top (d_algo d).
Proof. intros [(t0 & _ & Hd) _ _ _ _ _ _]. apply Hd. Qed.

Lemma stop_ok now d : ok now d -> ok now (msc_stop d).
Proof.
  intros Hd. unfold msc_stop. set (d1 := if in_rl _ _ then _ else d).
  assert (H1 : ok now d1).
  { subst d1. destruct (in_rl _ _); [|done]. apply run_ok_algo; try done.
    - apply (run_ok_algo_ok _ _ Hd).
    - by right; left.
    - intros Hb. destruct (ro_rest _ _ _ _ _ _ Hd Hb) as (? & ? & ? & _). split_and!; auto. }
  clearbody d1. destruct (_ =? 1); [|done]. apply run_ok_algo; try done.
  - apply (run_ok_algo_ok _ _ H1).
  - by right; left.
  - intros Hb. destruct (ro_rest _ _ _ _ _ _ H1 Hb) as (? & ? & ? & _). split_and!; auto.
Qed.

Lemma core_votes d : same_core d (vote_fcc (vote_fv d)).
Proof. unfold vote_fcc, vote_fv. destruct (_ || _); by split. Qed.

Lemma fan_total now d g : ok now d -> exists l, fan_calculate_level d g = Ret l.
Proof.
  intros [(t0 & _ & Hd) _ _ _ _ _ _]. pose proof (do_env _ _ _ Hd) as He.
  unfold fan_calculate_level. destruct (_ =? 1); [eauto|].
  assert (Hf : exists l, fan_bt_calculate_level d g = Ret l).
  { unfold fan_bt_calculate_level.
    assert (Ht : exists t, gbatt_get_temp d g = Ret t).
    { unfold gbatt_get_temp. destruct (negb _); [eauto|]. by apply raw_temp_total. }
    destruct Ht as ([t|] & ->); run; [|eauto]. pose proof (eo_fan _ He) as Hl.
    destruct (e_fan_bt_limits (d_env d)) as [|l0 [|l1 [|l2 [|l3 l]]]]; try done.
    unfold at_. cbn.
    change (Z.to_nat 0) with 0%nat. change (Z.to_nat 1) with 1%nat.
    change (Z.to_nat 2) with 2%nat. change (Z.to_nat 3) with 3%nat. cbn.
    destruct (t <=? l0), (t <=? l1), (t <=? l2), (t <=? l3); by eexists. }
  destruct Hf as (l & ->). run. destruct (_ || _); eauto.
Qed.

(** The state that a report leaves: the votes do not matter to it. *)
(** The votes of a poll, with the current that the election gives and the level of the fan. *)
Definition voted (d : batt_drv) (x level : Z) : batt_drv :=
  set_ttf (cast (cast (vote_fcc (vote_fv (msc_stop d))) VOTABLE_FAN_LEVEL "MSC_BATT" level true)
             VOTABLE_MSC_INTERVAL MSC_LOGIC_VOTER (a_msc_update_interval (d_algo (msc_stop d)))
             (negb (e_disable_votes (d_env d)) && negb (a_msc_update_interval (d_algo (msc_stop d)) =? -1)))
    (set_fcc_now (d_ttf d) x).

Lemma voted_keeps d x level :
  d_profile (voted d x level) = d_profile d /\ d_ssoc (voted d x level) = d_ssoc d.
Proof.
  assert (Hs : d_profile (msc_stop d) = d_profile d /\ d_ssoc (msc_stop d) = d_ssoc d).
  { unfold msc_stop. destruct (in_rl d _); case_test; by split. }
  destruct Hs as [<- <-]. pose proof (core_votes (msc_stop d)) as Hc. unfold voted.
  generalize dependent (vote_fcc (vote_fv (msc_stop d))). intros d1 [P _ _ _ _ S _ _ _].
  split; [exact P|exact S].
Qed.

Lemma vote_ok now d g :
  ok now d ->
  exists d' x level, msc_vote d g = Ret d' /\ ok now d' /\
    d' = voted d x level.
Proof.
  intros Hd. unfold msc_vote, voted. pose proof (stop_ok now d Hd) as Hs.
  pose proof (core_votes (msc_stop d)) as Hc.
  generalize dependent (vote_fcc (vote_fv (msc_stop d))). intros d1 Hc.
  assert (H1 : ok now d1) by (by apply (run_ok_core _ _ _ _ _ _ _ Hs)).
  destruct Hc as [C1 C2 C3 C4 C5 C6 C7 C8 C9].
  assert (S1 : d_env (msc_stop d) = d_env d /\ d_ttf (msc_stop d) = d_ttf d).
  { unfold msc_stop. destruct (in_rl _ _); by destruct (_ =? 1). }
  destruct S1 as [S1 S2]. destruct (fan_total now d1 g H1) as (l & ->). run.
  eexists _, _, l. split; [done|].
  match goal with |- ok now (set_ttf ?x _) /\ _ => assert (H2 : ok now x) end.
  { eapply run_ok_core; [exact H1|]. by split. }
  split.
  - destruct H2 as [(t0 & Ht & Hd2) Q1 Q2 Q3 Q4 Q5 Q6]. split; try done.
    exists t0. split; [done|]. destruct Hd2 as [? ? ? ? ? ? ? [] ? ? ? ?]. by split.
  - cbn [d_algo d_env d_ttf cast]. by rewrite C3, C5, C9, S1, S2.
Qed.

Lemma recharge_ok now d g :
  ok now d ->
  exists d', msc_recharge now g d = Ret d' /\ ok now d' /\
    d_algo d' = d_algo d /\ d_profile d' = d_profile d /\ d_cs d' = d_cs d /\ d_env d' = d_env d /\
    d_settings d' = d_settings d /\ d_ev d' = d_ev d /\ d_health d' = d_health d /\
    buck_enabled (d_ssoc d') = buck_enabled (d_ssoc d).
Proof.
  intros Hd. unfold msc_recharge.
  assert (Hgo : forall st, exists b s', batt_rl_enter now (d_ssoc d) st = Ret (b, s') /\
    forall f e, ok now (set_ssoc d (set_trickle_flags s' f e)) /\
      buck_enabled s' = buck_enabled (d_ssoc d)).
  { intros st. destruct Hd as [(t0 & Ht & Hd) H1 H2 H3 H4 H5 H6].
    destruct (enter_ok m stop (d_ssoc d) now st H2) as (b & s' & Hen & [Hw _ _ _] & Hl & Hg); [lia|].
    exists b, s'. split; [done|]. intros f e. pose proof (enter_keeps_buck _ _ _ _ _ Hen) as Hb.
    split; [|done]. apply (run_ok_ssoc m stop top start now d); [split; try done; by exists t0| | | |].
    - by apply wf_connection.
    - cbn. destruct Hl as [->| ->]; lia.
    - cbn. rewrite Hg. apply Hd.
    - cbn. rewrite Hb. apply H6. }
  destruct (_ || _).
  - destruct (Hgo BATT_RL_STATUS_DISCHARGE) as (b & s' & -> & Hok). run.
    set (d1 := if negb _ then _ else _).
    assert (Hc : same_core (set_ssoc d s') d1 /\ d_health d1 = d_health d).
    { subst d1. destruct (negb _); [|by split].
      split; [|by unfold batt_force_fcr_update_charging_policy; destruct (Bool.eqb _ _)].
      etrans; [apply core_write|]. etrans; [apply core_force_fcr|]. apply core_write. }
    clearbody d1. destruct Hc as [Hc Hh]. pose proof Hc as [E1 E2 E3 E4 E5 E6 E7 E8 E9].
    eexists. split; [done|].
    destruct (Hok (bd_full (trickle s')) true) as [Hok' Hb].
    split; [|cbn; rewrite E1, E2, E3, E4, E5, E6, E8; cbn; by split_and!].
    eapply run_ok_core; [exact Hok'|]. cbn. rewrite E6. cbn.
    split; cbn; by rewrite ?E1, ?E2, ?E3, ?E4, ?E5, ?E7, ?E8, ?E9.
  - destruct (e_batt_full (d_env d)); [|by exists d].
    destruct (Hgo BATT_RL_STATUS_RECHARGE) as (b & s' & -> & Hok). run.
    destruct (Hok true (bd_eoc (trickle s'))) as [Hok' Hb]. eexists. split; [done|]. split; [done|]. by split_and!.
Qed.

Lemma at_rest_reset a : at_rest (reset_algo a).
Proof. split_and!; try done. by left. Qed.

Lemma cc_ok_same d d' :
  d_profile d' = d_profile d -> a_cc_max (d_algo d') = a_cc_max (d_algo d) ->
  a_temp_idx (d_algo d') = a_temp_idx (d_algo d) ->
  a_vbatt_idx (d_algo d') = a_vbatt_idx (d_algo d) -> cc_ok d -> cc_ok d'.
Proof. unfold cc_ok. by intros -> -> -> ->. Qed.

Lemma poll_case_run now g d rc d' t0 :
  ok now d -> 0 < buck_enabled (d_ssoc d) -> start <= t0 -> drv_ok top t0 d' ->
  v_last_update (d_ev d') <= now -> poll_case g d rc d' ->
  ok now d' /\ buck_enabled (d_ssoc d') = buck_enabled (d_ssoc d) /\ d_profile d' = d_profile d.
Proof.
  intros [(t1 & Ht & Hd) H1 H2 H3 H4 H5 H6] Hb Ht0 Hd' Hl Hc.
  assert (Hw : forall s, ssoc_wf m stop s -> ssoc_wf m stop (reset_trickle s)) by (intros; by apply wf_connection).
  assert (Hres : cc_ok d' /\ ssoc_wf m stop (d_ssoc d') /\
    SsocTrace.last_update (d_ssoc d') = SsocTrace.last_update (d_ssoc d) /\
    buck_enabled (d_ssoc d') = buck_enabled (d_ssoc d) /\ d_profile d' = d_profile d).
  { destruct Hc as [|temp _ _|temp _ _ _|temp d' _ _ [S1 S2 S3 S4 S5 S6 S7] Hpl].
    - by split_and!.
    - unfold jeita_off. destruct (_ <? 0); [by split_and!|]. destruct (_ =? 0); [|by split_and!].
      split_and!; try done; [by left|by apply Hw].
    - unfold jeita_in. destruct (_ =? 0); by split_and!.
    - rewrite S5. split_and!; try done.
      destruct Hpl as (ib & ti & s & t & a & b & _ & _ & _ & _ & _ & [P1 P2 _ P4 _ _ _ _ _ _ _]).
      right; right. rewrite S1, P1, P2.
      destruct (jeita_in_parts d) as ([J1 _ _ _ _ _ _] & _ & _). by rewrite <- J1. }
  destruct Hres as (R1 & R2 & R3 & R4 & R5). split; [|done].
  split; try done; [by exists t0|by rewrite R3|lia].
Qed.

(** A poll, part by part: the recharge logic, the charge table, and, unless the table could
    not be used, adaptive charging and the votes. *)
Record poll_parts (now : Z) (g : gauge) (ssoc : Z) (d : batt_drv) (rc : Z) (d1 d2 d3 d' : batt_drv)
    : Prop := {
  pp_recharge : d_algo d1 = d_algo d /\ d_profile d1 = d_profile d /\ d_cs d1 = d_cs d /\
    d_env d1 = d_env d /\ d_settings d1 = d_settings d /\ d_ev d1 = d_ev d /\
    d_health d1 = d_health d /\ buck_enabled (d_ssoc d1) = buck_enabled (d_ssoc d);
  pp_logic : msc_logic now g d1 = Ret (rc, d2);
  pp_case : poll_case g d1 rc d2;
  pp_buck : buck_enabled (d_ssoc d2) = buck_enabled (d_ssoc d1) /\ d_profile d2 = d_profile d1;
  pp_table : ok now d2;
  pp_rest : if rc <? 0
    then d' = set_algo d2 (set_cc_interval (d_algo d2) (a_cc_max (d_algo d2)) (-1))
    else (exists b, msc_logic_health now d2 = Ret (b, d3)) /\ health_frame d2 d3 /\
         ok now (msc_health_state d3 ssoc) /\
         exists x level, d' = voted (msc_health_state d3 ssoc) x level;
}.

Lemma health_state_frame d ssoc :
  exists s, (s = a_msc_state (d_algo d) \/
             s = MSC_HEALTH \/ s = MSC_HEALTH_PAUSE \/ s = MSC_HEALTH_ALWAYS_ON) /\
    msc_health_state d ssoc = set_algo d (set_msc_state (d_algo d) s).
Proof.
  unfold msc_health_state.
  destruct (CHG_HEALTH_REST_IS_AON _ _); [exists MSC_HEALTH_ALWAYS_ON; by auto|].
  destruct (_ =? CHG_HEALTH_ACTIVE); [exists MSC_HEALTH; by auto|].
  destruct (_ =? CHG_HEALTH_PAUSE); [exists MSC_HEALTH_PAUSE; by auto|].
  exists (a_msc_state (d_algo d)). split; [by left|]. by destruct d as [? ? ? ? []].
Qed.

Lemma poll_in_parts now g ssoc d :
  ok now d -> 0 < buck_enabled (d_ssoc d) ->
  exists rc d1 d2 d3 d', msc_poll now g ssoc d = Ret (rc, d') /\ ok now d' /\
    poll_parts now g ssoc d rc d1 d2 d3 d'.
Proof.
  intros Hd Hb. unfold msc_poll.
  destruct (recharge_ok now d g Hd) as (d1 & -> & Hd1 & Hfr). run.
  pose proof Hfr as (_ & _ & _ & _ & _ & _ & _ & Hb1). rewrite <- Hb1 in Hb.
  pose proof Hd1 as [(t0 & Ht & Hdrv) H1 H2 H3 H4 H5 H6].
  destruct (logic_total top t0 now g d1 Hdrv) as (rc & d2 & Hlog & Hd2 & Hl2 & Hc); [lia..|].
  rewrite Hlog. run.
  destruct (poll_case_run now g d1 rc d2 t0 Hd1 Hb Ht Hd2 Hl2 Hc) as (Hok2 & Hb2 & Hp2).
  destruct (rc <? 0) eqn:Erc.
  { exists rc, d1, d2, d2. eexists. split; [done|].
    split; [|split; [exact Hfr|exact Hlog|exact Hc|by split|exact Hok2|by rewrite Erc]].
    apply run_ok_algo; try done; [by apply Hd2| |lia].
    by apply (cc_ok_same d2); [..|apply Hok2]. }
  pose proof Hok2 as [_ Q1 Q2 Q3 Q4 Q5 Q6].
  destruct (health_total top t0 now d2 Hd2) as (b & d3 & Hh & Hd3 & Hf & _). rewrite Hh. run.
  assert (Hok3 : ok now d3).
  { destruct Hf as [F1 F2 F3 F4 F5 F6 _ _ _ _ _ _].
    split; rewrite ?F2, ?F6; try done; [by exists t0| |lia].
    apply (cc_ok_same d2); by rewrite ?F1, ?F5. }
  assert (Hb3 : 0 < buck_enabled (d_ssoc d3)) by (destruct Hf as [_ F2 _]; rewrite F2; lia).
  assert (Hok4 : ok now (msc_health_state d3 ssoc)).
  { destruct (health_state_frame d3 ssoc) as (s & _ & ->).
    apply run_ok_algo; try done; [by apply Hd3| |lia].
    by apply (cc_ok_same d3); [..|apply Hok3]. }
  destruct (vote_ok now _ g Hok4) as (d5 & x & l & -> & Hok5 & E). run.
  exists rc, d1, d2, d3, d5. split; [done|]. split; [done|].
  split; [exact Hfr|exact Hlog|exact Hc|by split|exact Hok2|]. rewrite Erc.
  split; [by exists b|]. split; [exact Hf|]. split; [exact Hok4|]. exists x, l. exact E.
Qed.

Lemma poll_ok now g ssoc d :
  ok now d -> 0 < buck_enabled (d_ssoc d) ->
  exists rc d', msc_poll now g ssoc d = Ret (rc, d') /\ ok now d' /\
    d_profile d' = d_profile d /\ buck_enabled (d_ssoc d') = buck_enabled (d_ssoc d).
Proof.
  intros Hd Hb. destruct (poll_in_parts now g ssoc d Hd Hb) as (rc & d1 & d2 & d3 & d' & Hr & Hd' & Hp).
  exists rc, d'. split; [done|]. split; [done|].
  destruct Hp as [(_ & P1 & _ & _ & _ & _ & _ & B1) _ _ [B2 P2] _ Hrest].
  rewrite <- P1, <- B1, <- P2, <- B2. destruct (rc <? 0); [by rewrite Hrest|].
  destruct Hrest as (_ & Hf & _ & x & l & ->). rewrite <- (hf_profile _ _ Hf), <- (hf_ssoc _ _ Hf).
  destruct (health_state_frame d3 ssoc) as (st & _ & ->).
  by destruct (voted_keeps (set_algo d3 (set_msc_state (d_algo d3) st)) x l) as [-> ->].
Qed.

Lemma change_state_ok s now (ben : bool) :
  ssoc_wf m stop s ->
  let s' := ssoc_change_state now ben s in
  ssoc_wf m stop s' /\ SsocTrace.last_update s' = SsocTrace.last_update s /\
  ssoc_gdf s' = ssoc_gdf s /\ buck_enabled s' = if ben then 1 else 0.
Proof.
  intros Hs. unfold ssoc_change_state. destruct ben; cbn [negb].
  - destruct (_ =? 0); (split; [by apply wf_connection|done]).
  - split; [by apply wf_connection|done].
Qed.

Lemma disconnect_ok now g d : ok now d ->
  exists d', msc_disconnect now g d = Ret d' /\ ok now d' /\
    d_profile d' = d_profile d /\ buck_enabled (d_ssoc d') = 0.
Proof.
  intros Hd. unfold msc_disconnect.
  destruct (change_curve_wf m stop _ (ssoc_get_delta d) SSOC_UIC_TYPE_DSG (ro_ssoc _ _ _ _ _ _ Hd))
    as (s & -> & Hs & _ & Hl & Hg). run.
  match goal with |- context [batt_update_charging_policy ?x g _ _ _] => set (d1 := x) end.
  assert (Hpr : d_profile d1 = d_profile d) by done.
  assert (H1 : ok now d1 /\ at_rest (d_algo d1)).
  { destruct Hd as [(t0 & Ht & Hd) H1 H2 H3 H4 H5 H6]. split; [|apply at_rest_reset].
    split; cbn; try done; [|by apply wf_status, wf_connection|by rewrite Hl|by left|intros _; apply at_rest_reset].
    exists t0. split; [done|]. apply (drv_ok_ext _ _ d); try done. by left. }
  clearbody d1. destruct H1 as [H1 Hr].
  match goal with |- context [gauge_write ?x BATT_CE_CTRL 0] => set (d2 := gauge_write x BATT_CE_CTRL 0) end.
  assert (Hc : same_core d1 d2).
  { subst d2. etrans; [apply core_update_policy|apply core_write]. }
  clearbody d2. eexists. split; [done|].
  pose proof (run_ok_core _ _ _ _ _ _ _ H1 Hc) as H2. destruct Hc as [C1 _ _ _ C5 _ _ _ _].
  destruct (change_state_ok (d_ssoc d2) now false (ro_ssoc _ _ _ _ _ _ H2)) as (Q1 & Q2 & Q3 & Q4).
  split; [|split; [cbn; congruence|exact Q4]].
  apply run_ok_ssoc; try done.
  - rewrite Q2. apply H2.
  - rewrite Q3. destruct H2 as [(t0 & _ & Hx) _ _ _ _ _ _]. apply Hx.
  - intros _. by rewrite C5.
Qed.

(** The event that a connection starts. *)
Lemma start_drv_ok now g d p s :
  run_ok m stop top start now d -> wf_msc p top -> at_rest (d_algo d) ->
  0 <= ssoc_get_capacity s -> - 2 ^ 31 <= ssoc_gdf s < 2 ^ 31 ->
  drv_ok top now (batt_chg_stats_start now g (set_profile (set_ssoc d s) p)).
Proof.
  intros [(t0 & Ht & Hd) H1 H2 H3 H4 H5 H6] Hp (R1 & R2 & R3 & R4) Hs0 Hg.
  pose proof (do_time _ _ _ Hd).
  pose proof (wf_volt_nb _ (plain_wf _ (wm_plain _ _ Hp))).
  pose proof (plain_rows _ (wm_plain _ _ Hp)).
  assert (Hz : forall i, wf_tier (temp_nb_limits (limits p) - 1) (gbms_tier_stats_init zero_tier i)).
  { intros i. split; cbn; try lia. }
  destruct Hd as [_ D2 D3 _ _ _ _ D8 _ _ _ _]. split; cbn; try done; try lia.
  - by left.
  - split; try done.
    + apply Hp.
    + apply Hp.
    + apply Hp.
    + cbn. intros v Hv. assert (is_tier p v) as Hvt%(wm_tiers _ _ Hp).
      { exists (volt_nb_limits (limits p) - 1). split; [lia|done]. }
      pose proof (wm_res _ _ Hp). lia.
    + cbn [ce_tier_stats]. apply Forall_fmap, Forall_forall. intros i _. apply Hz.
    + cbn. apply Hz.
    + split; try done. apply Forall_replicate. lia.
  - split; [done| |done]. cbn. apply wrap_range. lia.
  - apply Forall_fmap, Forall_forall. intros i _. unfold within, time_of. cbn. lia.
  - unfold within, time_of. cbn. lia.
Qed.

Lemma connect_ok now g p d :
  ok now d -> wf_msc p top -> buck_enabled (d_ssoc d) <= 0 ->
  exists d', msc_connect now g p d = Ret d' /\ ok now d' /\ buck_enabled (d_ssoc d') = 1 /\ d_profile d' = p.
Proof.
  intros Hd Hp Hb. unfold msc_connect.
  pose proof (ro_rest _ _ _ _ _ _ Hd Hb) as Hrest.
  destruct (change_curve_wf m stop _ (ssoc_get_delta d) SSOC_UIC_TYPE_CHG (ro_ssoc _ _ _ _ _ _ Hd))
    as (s & -> & Hs & _ & Hl & Hg). run.
  assert (Hcap : 0 <= ssoc_get_capacity s) by (apply capacity_range; apply Hs).
  assert (Hgdf : - 2 ^ 31 <= ssoc_gdf s < 2 ^ 31).
  { rewrite Hg. destruct Hd as [(t1 & _ & Hx) _ _ _ _ _ _]. apply Hx. }
  pose proof (start_drv_ok now g d p s Hd Hp Hrest Hcap Hgdf) as Hst.
  set (d1 := batt_chg_stats_start now g (set_profile (set_ssoc d s) p)) in *.
  destruct (change_state_ok s now true Hs) as (Q1 & Q2 & Q3 & Q4).
  match goal with |- context [ssoc_change_state now true ?x] => change x with s end.
  rewrite Hl in Q2. rewrite <- Q3 in Hgdf. clear Q3. revert Q1 Q2 Q4 Hgdf.
  generalize (ssoc_change_state now true s). intros s1 Q1 Q2 Q4 Hgdf1.
  match goal with |- context [batt_force_fcr_update_charging_policy ?x g] => set (d2 := x) end.
  assert (Hpr : d_profile d2 = p) by done.
  assert (H2 : ok now d2 /\ buck_enabled (d_ssoc d2) = 1).
  { split; [|exact Q4]. destruct Hd as [_ _ _ H3 H4 _ _].
    split; cbn; try done; try lia.
    - exists now. split; [lia|]. destruct Hst as [D1 D2 D3 D4 D5 D6 D7 [E1 E2 E3] D9 D10 D11 D12].
      split; cbn; try done.
      split; try done. cbn. by rewrite length_fmap.
    - destruct Hrest as (_ & _ & _ & [Hc|Hc]); [by left|by right; left]. }
  clearbody d2. destruct H2 as [H2 Hb2].
  pose proof (core_force_fcr d2 g) as Hc. pose proof (run_ok_core _ _ _ _ _ _ _ H2 Hc) as H3.
  generalize dependent (batt_force_fcr_update_charging_policy d2 g). intros d3 Hc H3.
  destruct Hc as [C1 _ _ _ C5 C6 _ _ _].
  assert (Hk : buck_enabled (batt_sr_update_state (d_ssoc d3)) = 1 /\
    ssoc_wf m stop (batt_sr_update_state (d_ssoc d3)) /\
    SsocTrace.last_update (batt_sr_update_state (d_ssoc d3)) = SsocTrace.last_update (d_ssoc d3) /\
    ssoc_gdf (batt_sr_update_state (d_ssoc d3)) = ssoc_gdf (d_ssoc d3)).
  { rewrite C6. rewrite <- C6. pose proof (ro_ssoc _ _ _ _ _ _ H3) as Hw. rewrite C6 in *.
    unfold batt_sr_update_state. destruct (bool_decide _); [by split_and!|].
    destruct (_ && _); split_and!; try done; by apply wf_sr. }
  destruct Hk as (K1 & K2 & K3 & K4). eexists. split; [done|]. split; [|split; [exact K1|cbn; congruence]].
  apply run_ok_ssoc; try done.
  - rewrite K3. apply H3.
  - rewrite K4. destruct H3 as [(t1 & _ & Hx) _ _ _ _ _ _]. apply Hx.
  - rewrite K1. lia.
Qed.

(** ** A report of the charger *)

(** A report that connects the charger. *)
Definition connects (d : batt_drv) : bool :=
  negb (chg_state_is_disconnected (d_cs d)) && (buck_enabled (d_ssoc d) <=? 0).

Lemma chg_logic_ok now g p d :
  ok now d -> wf_msc p top ->
  exists rc d', batt_chg_logic now g p d = Ret (rc, d') /\ ok now d' /\
    d_profile d' = (if connects d then p else d_profile d) /\
    (0 < buck_enabled (d_ssoc d') -> chg_state_is_disconnected (d_cs d) = false).
Proof.
  intros Hd Hp. unfold batt_chg_logic, connects.
  destruct (ro_drv _ _ _ _ _ _ Hd) as (t0 & _ & Hdrv).
  destruct (wf_cccm _ (plain_wf _ (wm_plain _ _ (do_profile _ _ _ Hdrv)))) as (c & -> & _).
  destruct (chg_state_is_disconnected _); cbn [negb andb].
  - destruct (Z.eqb_spec (buck_enabled (d_ssoc d)) 0); [eexists _, _; split_and!; [done..|lia]|].
    destruct (disconnect_ok now g d Hd) as (d1 & -> & H1 & P1 & B1). run.
    destruct (vote_ok now d1 g H1) as (d2 & x & w & -> & H2 & ->). run.
    destruct (voted_keeps d1 x w) as [P2 S2]. rewrite <- B1, <- S2 in *. rewrite <- P1, <- P2.
    eexists _, _; split_and!; [done..|lia].
  - destruct (Z.leb_spec (buck_enabled (d_ssoc d)) 0).
    + destruct (connect_ok now g p d Hd Hp) as (d1 & -> & Hd1 & Hb & <-); [done|]. run.
      destruct (poll_ok now g (ssoc_get_capacity (d_ssoc d)) d1) as (rc & d' & -> & ? & ? & _); [done|lia|]. by eauto 6.
    + run. destruct (poll_ok now g (ssoc_get_capacity (d_ssoc d)) d) as (rc & d' & -> & ? & ? & _); [done|lia|]. by eauto 6.
Qed.

(** ** Events *)

Inductive drv_event :=
| EvReport (now : Z) (g : gauge) (cs : charger_state) (p : gbms_chg_profile)
| EvGauge (now soc_q8_8 : Z)
| EvAdapter (voltage amperage : Z)
| EvSet (e : msc_env)
| EvDeadline (now : Z) (g : gauge) (deadline_s : Z)
| EvLimit (always_on_soc : Z)
| EvPolicy (g : gauge) (reason : string) (vote : Z) (enabled : bool).

Definition set_cs (d : batt_drv) (cs : charger_state) :=
  mk_drv (d_profile d) (d_settings d) (d_env d) cs (d_algo d) (d_ssoc d) (d_ttf d) (d_ttf_est d)
    (d_ce d) (d_ev d) (d_health d) (d_charging_policy d) (d_vote_force_full d)
    (d_fast_update_cnt d) (d_fg_status d) (d_chg_done d) (d_mp_debounce d) (d_need_mp d)
    (d_votes d) (d_writes d).
Definition set_env (d : batt_drv) (e : msc_env) :=
  mk_drv (d_profile d) (d_settings d) e (d_cs d) (d_algo d) (d_ssoc d) (d_ttf d) (d_ttf_est d)
    (d_ce d) (d_ev d) (d_health d) (d_charging_policy d) (d_vote_force_full d)
    (d_fast_update_cnt d) (d_fg_status d) (d_chg_done d) (d_mp_debounce d) (d_need_mp d)
    (d_votes d) (d_writes d).
Definition set_adapter (ce : gbms_charging_event) (v a : Z) :=
  mk_ce v a (chg_profile ce) (ssoc_in ce) (ssoc_out ce) (ce_tier_stats ce) (ce_soc_stats ce)
    (last_soc ce) (rest_state ce) (rest_soc ce) (always_on_soc ce) (rest_rate ce)
    (rest_cc_max ce) (health_stats ce).

Definition drv_step (e : drv_event) (d : batt_drv) : outcome batt_drv :=
  match e with
  | EvReport now g cs p => let* r := batt_chg_logic now g p (set_cs d cs) in Ret r.2
  | EvGauge now q => let* r := ssoc_work now q (d_ssoc d) in Ret (set_ssoc d r.2)
  | EvAdapter v a => Ret (set_event d (set_adapter (d_ce d) v a) (d_ev d))
  | EvSet e => Ret (set_env d e)
  | EvDeadline now g s => let* r := charge_deadline_store now g d s in Ret r.2
  | EvLimit soc => Ret (set_health d (batt_set_health_charge_limit (d_health d) soc))
  | EvPolicy g r v b => Ret (batt_update_charging_policy d g r v b)
  end.

Fixpoint drv_run (l : list drv_event) (d : batt_drv) : outcome batt_drv :=
  match l with
  | [] => Ret d
  | e :: l => let* d := drv_step e d in drv_run l d
  end.

(** Events in order, and inputs that the parts they come from can give. *)
Fixpoint events_ok (last : Z) (l : list drv_event) : Prop :=
  match l with
  | [] => True
  | EvReport now _ cs p :: l =>
    last <= now < start + 2 ^ 31 /\ wf_cs cs /\ wf_msc p top /\ events_ok now l
  | EvGauge now _ :: l => last <= now < start + 2 ^ 31 /\ events_ok now l
  | EvSet e :: l => env_ok e /\ events_ok last l
  | _ :: l => events_ok last l
  end.

Lemma set_cs_ok now d cs : ok now d -> wf_cs cs -> ok now (set_cs d cs).
Proof.
  intros [(t0 & Ht & Hd) H1 H2 H3 H4 H5 H6] Hcs. split; try done.
  exists t0. split; [done|]. destruct Hd. by split.
Qed.

(** The time of the last event. *)
Definition time_after (e : drv_event) (now : Z) : Z :=
  match e with EvReport t _ _ _ | EvGauge t _ => t | _ => now end.

(** Only a report changes the table or the connection. *)
Definition keeps_table (e : drv_event) (d d' : batt_drv) : Prop :=
  match e with
  | EvReport _ _ _ _ => True
  | _ => d_profile d' = d_profile d /\ buck_enabled (d_ssoc d') = buck_enabled (d_ssoc d)
  end.

Lemma core_keeps d d' :
  same_core d d' -> d_profile d' = d_profile d /\ buck_enabled (d_ssoc d') = buck_enabled (d_ssoc d).
Proof. intros [-> _ _ _ _ -> _ _ _]. done. Qed.

Lemma drv_event_ok last e l d :
  ok last d -> events_ok last (e :: l) ->
  exists now d', drv_step e d = Ret d' /\ ok now d' /\ events_ok now l /\ now = time_after e last /\ keeps_table e d d'.
Proof.
  intros Hd He. destruct e as [now g cs p|now q|v a|env|now g s|soc|g r v b];
    cbn [drv_step events_ok keeps_table time_after] in *.
  - destruct He as (Hn & Hcs & Hp & He). exists now.
    destruct (chg_logic_ok now g p (set_cs d cs)) as (rc & d' & -> & Hd' & _).
    { apply set_cs_ok; [|done]. apply (run_ok_time _ _ _ _ last); [done|lia]. }
    { done. }
    run. by eauto 7.
  - destruct He as (Hn & He). exists now.
    assert (Hd1 : ok now d) by (apply (run_ok_time _ _ _ _ last); [done|lia]).
    unfold ssoc_work. destruct (q <? 0); run.
    { exists d. split; [by destruct d|done]. }
    pose proof (ro_ssoc_time _ _ _ _ _ _ Hd). pose proof (ro_ssoc_time _ _ _ _ _ _ Hd1).
    destruct (update_wf m stop (d_ssoc d) now (s32 (qnum_from_q8_8 q)) (ro_ssoc _ _ _ _ _ _ Hd))
      as (s' & Hu & Hw & _ & Hl & Hg & _); [lia|].
    pose proof (update_keeps_buck _ _ _ _ Hu) as Hb. rewrite Hu. run. eexists. split; [done|]. split; [|done].
    apply run_ok_ssoc; try done; [rewrite Hl; lia|rewrite Hg; apply (swrap_range 32); lia|].
    rewrite Hb. apply Hd1.
  - exists last. eexists. split; [done|]. split; [|done].
    destruct Hd as [(t0 & Ht & Hd) H1 H2 H3 H4 H5 H6]. split; try done.
    exists t0. split; [done|]. destruct Hd as [D1 D2 D3 D4 D5 [] [] D8 D9 D10 D11 D12]. by split.
  - destruct He as (Henv & He). exists last. eexists. split; [done|]. split; [|done].
    destruct Hd as [(t0 & Ht & Hd) H1 H2 H3 H4 H5 H6]. split; try done.
    exists t0. split; [done|]. destruct Hd. by split.
  - exists last. unfold charge_deadline_store. destruct (_ && _); [run; by eauto 8|].
    destruct (ro_drv _ _ _ _ _ _ Hd) as (t0 & Ht & Hdrv).
    destruct (ttf_estimate_total top t0 d Hdrv) as (rc & ttf & x & ->). run.
    match goal with |- context [batt_health_set_chg_deadline ?a ?b ?c ?e] =>
      destruct (batt_health_set_chg_deadline a b c e) as [ch h'] end.
    run. eexists. split; [done|].
    assert (Hc : same_core d (set_health (set_ttf_est d x) h')) by (by split).
    match goal with |- ok _ ?d' /\ _ => assert (Hc' : same_core d d') end.
    { destruct ch; [|done]. etrans; [exact Hc|]. apply core_update_policy. }
    split; [by apply (run_ok_core _ _ _ _ _ _ _ Hd)|]. split; [done|]. split; [done|]. by apply core_keeps.
  - exists last. eexists. split; [done|]. split; [|done]. apply (run_ok_core _ _ _ _ _ _ _ Hd), core_health.
  - exists last. eexists. split; [done|]. pose proof (core_update_policy d g r v b) as Hc.
    split; [by apply (run_ok_core _ _ _ _ _ _ _ Hd)|]. split; [done|]. split; [done|]. by apply core_keeps.
Qed.
End reports.
