(* ===== verification/MscDemo.v ===== *)
(** A charge table, a driver and a run of events of src/bms/google_battery.c on which the
    theorems of multi step charging apply. *)

From Stdlib Require Import String.
From stdpp Require Import functions.
From S2P Require Import Prelude GbmsProfile GbmsLookup GbmsCharge Ttf TtfPower Ssoc SsocRecharge SsocDemo.
From S2P Require Import Msc MscDrv MscHealth MscLogic MscTable MscSafe MscRun.

(** ** A charge table *)

(** Three tiers in two rows of temperatures; every cell charges. *)
Module DemoMsc.
Definition cells : list Z := [2000000; 2000000; 1000000; 4000000; 3000000; 1500000].
Definition lims : chg_limits :=
  mk_limits 3 (DemoProfile.pad 10 [0; 100; 450]) 3 (DemoProfile.pad 10 [4200000; 4300000; 4400000])
    0 (DemoProfile.pad 10 []) (Some cells) 4500 4400000.
Definition prof : gbms_chg_profile := with_limits lims DemoProfile.prof.

Lemma table_plain : plain_profile prof.
Proof.
  split; [|by vm_compute|reflexivity].
  split; [by vm_compute|reflexivity|by vm_compute|reflexivity|]. eexists. split; reflexivity.
Qed.

Lemma prof_tier v : is_tier prof v -> v ∈ [4200000; 4300000; 4400000].
Proof.
  intros (i & Hi & Hv). cbn in Hi. assert (i = 0 \/ i = 1 \/ i = 2) as [->|[->| ->]] by lia;
    injection Hv as <-; rewrite !elem_of_cons; auto.
Qed.

Lemma prof_current cc : is_current prof cc -> cc ∈ 0 :: cells.
Proof.
  intros [->|(ti & vi & Hc)]; [set_solver|]. eapply cccm_cell in Hc as [->|Hc]; [set_solver| |reflexivity].
  by apply elem_of_cons; right.
Qed.

Definition caps_fit (v cc : Z) (allow : bool) : bool :=
  (50000 <=? fv_cap prof 4400000 v cc allow) && (fv_cap prof 4400000 v cc allow <=? 4500000) &&
  (v + cc / 1000 * 20 <? 2 ^ 32) && (v / 1000 * 1020 <? 2 ^ 32).

Lemma prof_caps v cc allow : is_tier prof v -> is_current prof cc -> caps_fit v cc allow = true.
Proof.
  intros Hv%prof_tier Hc%prof_current. revert v Hv. apply Forall_forall. revert cc Hc.
  apply Forall_forall. repeat constructor; by destruct allow.
Qed.

Lemma prof_wf : wf_msc prof 4600000.
Proof.
  split.
  - exact table_plain.
  - by vm_compute.
  - by vm_compute.
  - by vm_compute.
  - by vm_compute.
  - intros v Hv%prof_tier. revert v Hv. apply Forall_forall. repeat constructor; by vm_compute.
  - intros cc Hc%prof_current. revert cc Hc. apply Forall_forall. repeat constructor; by vm_compute.
  - intros v last cc allow Hv Hc Hl. injection Hl as <-.
    pose proof (prof_caps v cc allow Hv Hc) as Hf. unfold caps_fit in Hf.
    change (fv_uv_resolution (behavior prof)) with 25000.
    change (fv_dc_ratio (behavior prof)) with 20. change (fv_uv_margin_dpct (behavior prof)) with 1020.
    change (25000 / 2) with 12500. lia.
  - by vm_compute.
  - reflexivity.
  - intros c [= <-]. repeat constructor; by vm_compute.
  - apply (bool_decide_unpack _). vm_compute. exact I.
Qed.

(** Connected, charging; [TAPER_EXT] is 9 here. *)
Definition cs (flags type vchrg : Z) : charger_state := mk_cs flags 0 1 type vchrg 3000.
Definition unplugged : charger_state := mk_cs 0 0 POWER_SUPPLY_STATUS_DISCHARGING 0 0 0.
Definition env : msc_env :=
  mk_env None false 1 (-1) 80 90 5 0 600 0 0 0 0 0 0 [250; 300; 350; 400] 4500 0 0 false false 0 12
    3 false.
Definition gauge (temp ibatt vbatt : Z) : MscDrv.gauge := mk_gauge (Some temp) (Some ibatt) vbatt 1000000 50 0.
Definition settings : msc_settings := mk_settings false false 0.
Definition health : batt_chg_health := mk_health (-1) 0 (-1) 0 0 0 0 CHG_HEALTH_INACTIVE (-1) (-1) 0.
Definition rest : msc_algo := mk_algo (-1) (-1) (-1) (-1) (-1) 0 (-1) (-1) 0 0 0 (-1) 0 false.

#[global] Instance types : PowerSupplyTypes := 9.
(** Elections that nobody else votes in: the last vote counts. *)
#[global] Instance elections : Elections := {|
  current_vote el l :=
    match filter (fun v : vote => v.1 = el) l with
    | [] => -1 | v :: l => ((List.last l v).2).1.2 end;
  voter_vote el who l := -1;
|}.

(** The driver at [now], waiting for a charger. *)
Definition start : batt_drv :=
  batt_chg_stats_start 99 (gauge 250 0 4100000)
    (mk_drv prof settings env (cs 0 3 0) rest (demo 0) DemoTtf.stats (-1) DemoTtf.event
      (mk_event 0 0 0 0 0 (fun _ => zero_tier) (mk_log 0 0 0 0 0 0)) health (-1) false 0 0 false false
      false [] []).

Lemma start_drv : drv_ok 4600000 99 start.
Proof.
  assert (Hw : forall f, Forall (wf_tier 2) ((fun i => gbms_tier_stats_init zero_tier i) <$> seqZ 0 f)).
  { intros f. apply Forall_fmap, Forall_forall. intros i _. by split. }
  split; try done.
  - exact prof_wf.
  - by left.
  - pose proof prof_wf as Hp. split; try apply Hp.
    + intros v Hv. injection Hv as <-. lia.
    + reflexivity.
    + apply Hw.
    + by split.
    + split; [done..|]. apply Forall_replicate. lia.
  - exact DemoTtf.stats_wf.
  - apply Forall_fmap, Forall_forall. by intros i _.
Qed.

Lemma start_ok : run_ok 100 10 4600000 99 99 start.
Proof.
  split; try done; try lia.
  - exists 99. split; [lia|exact start_drv].
  - apply demo_wf.
  - by left.
  - intros _. split_and!; [done..|by left].
Qed.

(** Connected: in the second row and the first tier. *)
Definition charging : batt_drv :=
  match batt_chg_logic 100 (gauge 250 1500000 4100000) prof (set_cs start (cs 1 1 4300)) with
  | Ret r => r.2 | _ => start end.

Lemma charging_ok : run_ok 100 10 4600000 99 100 charging.
Proof.
  destruct (chg_logic_ok 100 10 4600000 99 100 (gauge 250 1500000 4100000) prof (set_cs start (cs 1 1 4300)))
    as (rc & d' & E & Hd & _); [|exact prof_wf|unfold charging; rewrite E; exact Hd].
  apply set_cs_ok; [apply (run_ok_time _ _ _ _ 99); [exact start_ok|lia]|by split].
Qed.

(** Connecting, a poll too hot for the table, adaptive charging, and disconnecting. *)
Definition events : list drv_event :=
  [ EvSet env; EvReport 100 (gauge 250 1500000 4100000) (cs 1 1 4300) prof; EvGauge 110 12900;
    EvDeadline 120 (gauge 250 0 0) 36000; EvReport 130 (gauge 500 1500000 4150000) (cs 1 1 4300) prof;
    EvReport 160 (gauge 500 0 4150000) (cs 1 1 4300) prof; EvLimit 80; EvAdapter 90 30;
    EvReport 190 (gauge 90 1500000 4250000) (cs 1 1 4300) prof;
    EvPolicy (gauge 250 0 0) "MSC_USER" 4 true;
    EvReport 220 (gauge 250 0 4150000) unplugged prof ].

Lemma events_fit : events_ok 4600000 99 99 events.
Proof.
  assert (Hc : forall f t v, 0 <= f < 2 ^ 8 -> 0 <= t < 2 ^ 8 -> 0 <= v < 2 ^ 16 -> wf_cs (cs f t v)) by (by split).
  cbn [events_ok events]. split_and!; try exact prof_wf; try (apply Hc; lia); try done; try lia; by split.
Qed.
End DemoMsc.
