(* ===== verification/MscProps.v ===== *)
(** What multi step charging guarantees of every run and of every poll. *)

From stdpp Require Import functions.
From S2P Require Import Prelude GbmsProfile GbmsLookup GbmsCharge Ttf TtfPower Ssoc SsocRecharge SsocDemo.
From S2P Require Import Msc MscDrv MscHealth MscLogic MscTable MscSafe MscRun MscDemo.

(** ** Runs *)

Section props.
Context `{PowerSupplyTypes} `{Elections}.

Lemma run_safe m stop top start last l d :
  run_ok m stop top start last d -> events_ok top start last l ->
  exists now d', drv_run l d = Ret d' /\ run_ok m stop top start now d'.
Proof.
  revert last d. induction l as [|e l IH]; intros last d Hd He; cbn [drv_run]; [eauto|].
  destruct (drv_event_ok m stop top start last e l d Hd He) as (now & d1 & -> & Hd1 & He1 & _). run.
  by apply (IH now).
Qed.

(** C26. Charging never leaves its table. From a driver at rest (or in any state that a run
    can reach), whatever the charger, the gauge, the temperature and the user report and do,
    in whatever order, every report is processed without an access outside an array, and
    afterwards the driver either has no tier, or is at a row and a tier of the table; its
    current is -1, 0 or the one of that row and tier, its voltage never exceeds [top], the
    bound of the tier voltages and their rounded caps. This is for tables that fit the driver
    ([wf_msc]): no AACT, voltages, caps and currents that fit its integers, and a last cell
    that is not 0, without which the code does read past the table
    ([next_tier_reads_past_table]); for a limiter whose rates are at least 8 tenths; and for
    times that do not go back, in a run of less than 68 years. *)
Theorem charging_run_safe m stop top start last l d :
  run_ok m stop top start last d -> events_ok top start last l ->
  exists now d', drv_run l d = Ret d' /\ run_ok m stop top start now d' /\
    let a := d_algo d' in
    a_fv_uv a <= top /\
    (a_cc_max a = -1 \/ a_cc_max a = 0 \/
     GBMS_CCCM_LIMITS (d_profile d') (a_temp_idx a) (a_vbatt_idx a) = Ret (a_cc_max a)) /\
    (a_temp_idx a = -1 /\ a_vbatt_idx a = -1 \/
     row (d_profile d') (a_temp_idx a) /\ tier (d_profile d') (a_vbatt_idx a)).
Proof.
  intros Hd He. destruct (run_safe m stop top start last l d Hd He) as (now & d' & Hr & Hd').
  exists now, d'. split; [done|]. split; [done|]. cbn zeta.
  pose proof (run_ok_algo_ok _ _ _ _ _ _ Hd') as Ha.
  destruct Hd' as [(t0 & _ & Hdrv) _ _ _ _ Hcc _].
  destruct (do_profile _ _ _ Hdrv) as [Hp Hres _ _ _ Ht _ _ _ _ _ _].
  destruct (tier_volt (d_profile d') top (do_profile _ _ _ Hdrv) 0) as (v & _ & Hv).
  { pose proof (wf_volt_nb _ (plain_wf _ Hp)). unfold tier. lia. }
  pose proof (Ht v Hv). split; [|split; [exact Hcc|]].
  - destruct Ha as [(_ & _ & ->)|(_ & _ & ?)]; lia.
  - destruct Ha as [(? & ? & _)|(? & ? & _)]; auto.
Qed.

(** ** Polls *)

Lemma limits_exclusive p temp : off_limits p temp -> in_limits p temp -> False.
Proof. intros (lo & hi & E1 & E2 & E) (lo' & hi' & E1' & E2' & E'). 
  rewrite E1 in E1'. rewrite E2 in E2'. injection E1' as <-. injection E2' as <-. lia. Qed.

(** A poll outside the temperatures of the table: the first one resets the charging event
    (no row, no tier, no voltage, current -1), the next one marks charging as stopped. *)
Definition left_table (d d' : batt_drv) : Prop :=
  let stop := a_jeita_stop_charging (d_algo d) in
  (stop = 0 -> d' = batt_reset_chg_drv_state d /\ d_algo d' = reset_algo (d_algo d)) /\
  (stop < 0 -> d' = set_algo d (set_jeita (d_algo d) 1)) /\
  (0 < stop -> d' = d).

(** A poll inside: the row of the temperature, its cell, and the tier. *)
Definition in_table (top temp : Z) (g : gauge) (d d' : batt_drv) : Prop :=
  let p := d_profile d in let a := d_algo (jeita_in d) in let a' := d_algo d' in
  gbms_msc_temp_idx p temp = Ret (a_temp_idx a') /\
  row p (a_temp_idx a') /\ tier p (a_vbatt_idx a') /\
  GBMS_CCCM_LIMITS p (a_temp_idx a') (a_vbatt_idx a') = Ret (a_cc_max a') /\
  fv_uv_resolution (behavior p) <= a_fv_uv a' <= top /\ a_jeita_stop_charging a' = 0 /\
  (a_vbatt_idx a' = a_vbatt_idx a /\ a_temp_idx a' = a_temp_idx a \/
   gbms_msc_voltage_idx_merge_tiers (Some p) (g_voltage_now g) (a_temp_idx a') =
     Ret (a_vbatt_idx a') /\
   at_ (volt_limits (limits p)) (a_vbatt_idx a') = Ret (a_fv_uv a')).

Lemma polled_in_table top t0 g temp d d' : drv_ok top t0 d ->
  gbatt_get_raw_temp d g = Ret (Some temp) -> polled g (jeita_in d) temp d' -> in_table top temp g d d'.
Proof.
  intros Hd Ht Hpl. unfold in_table. cbn zeta.
  destruct (jeita_in_parts d) as (Hj & _ & Hz).
  pose proof (jeita_in_ok top t0 d Hd) as Hin.
  destruct Hpl as (ibatt & ti & s & t & a & b & _ & Hvb & Hti & Hrow & Hdec & Hpub).
  rewrite (sp_profile _ _ Hj) in *.
  destruct (decide_ok (d_profile d) top (do_profile _ _ _ Hd) (d_settings (jeita_in d))
    (d_cs (jeita_in d)) (d_algo (jeita_in d)) (g_voltage_now g) ibatt temp ti) as
    (s2 & t2 & a2 & b2 & Hdec2 & Hs & Htier & Hfv & _ & Hmove); try done.
  { apply Hin. }
  { rewrite <- (sp_profile _ _ Hj). apply Hin. }
  rewrite Hdec in Hdec2. injection Hdec2 as <- <- <- <-.
  destruct Hpub as [P1 P2 P3 P4 P5 P6 P7 P8 P9 P10 P11]. rewrite P1, P2, P3.
  split_and!; try done; try lia. rewrite P7. destruct Hs as (_ & _ & _ & _ & _ & _ & _ & -> & _). done.
Qed.

(** C27. What a poll publishes. Without a temperature the call fails with [-EIO] and changes
    nothing. Outside the temperatures of the table it succeeds, whatever the other readings:
    the first such poll resets the charging event, so that there is no row, tier, voltage or
    current any more, the second one marks charging as stopped, and later ones change nothing.
    Inside, the call fails with [-EIO] exactly when the current or the voltage cannot be read;
    otherwise the row is that of the temperature, the current is the cell of that row and of
    the new tier, and the tier is either the one there was, in the same row, at a voltage
    within bounds, or the tier of the battery voltage at its own voltage. The driver's profile
    has no AACT and fits [wf_msc], with a last cell that is not 0. *)
Theorem poll_publishes_table top t0 now g d :
  drv_ok top t0 d -> v_last_update (d_ev d) <= now < 2 ^ 62 -> now - t0 < 2 ^ 31 ->
  exists rc d' reading, msc_logic now g d = Ret (rc, d') /\ drv_ok top t0 d' /\
    gbatt_get_raw_temp d g = Ret reading /\
    match reading with
    | None => rc = - EIO /\ d' = d
    | Some temp =>
      let unread := g_current_now g = None \/ g_voltage_now g < 0 in
      (off_limits (d_profile d) temp /\ rc = 0 /\ left_table d d') \/
      (in_limits (d_profile d) temp /\ unread /\ rc = - EIO /\ d' = jeita_in d) \/
      (in_limits (d_profile d) temp /\ ~ unread /\ rc = 0 /\ in_table top temp g d d')
    end.
Proof.
  intros Hd Hnow Hb. destruct (logic_total top t0 now g d Hd Hnow Hb) as (rc & d' & Hr & Hd' & _ & Hc).
  destruct Hc as [Ht|temp Ht Ho|temp Ht Hi Hu|temp d' Ht Hi Hsp Hpl]; eexists _, _, _;
    (split; [exact Hr|]); (split; [exact Hd'|]); (split; [exact Ht|]); cbn beta iota zeta; [done|..].
  - left. split_and!; [done|done|]. unfold left_table, jeita_off. cbv zeta.
    destruct (Z.ltb_spec (a_jeita_stop_charging (d_algo d)) 0);
      [|destruct (Z.eqb_spec (a_jeita_stop_charging (d_algo d)) 0)]; split_and!; (done || lia).
  - right. left. auto.
  - right. right. split_and!; [done| |done|by eapply polled_in_table].
    destruct Hpl as (ibatt & ti & s & t & a & b & Hib & Hvb & _). rewrite Hib.
    intros [?|?]; [done|]. lia.
Qed.

(** ** Statistics *)

(** Charging that says how long a charge takes: not full, not slowed down or paused for the
    health of the battery, with a temperature that is not filtered, at a normal temperature,
    and to no other level than full. *)
Definition plain_charging (d : batt_drv) : bool :=
  negb (e_batt_full (d_env d)) &&
  negb (bool_decide (a_msc_state (d_algo d) ∈ [MSC_HEALTH_PAUSE; MSC_HEALTH; MSC_HEALTH_ALWAYS_ON])) &&
  (match e_temp_filter (d_env d) with None => true | Some _ => false end) &&
  negb (e_batt_health (d_env d) =? POWER_SUPPLY_HEALTH_OVERHEAT) && negb (d_vote_force_full d) &&
  negb (d_charging_policy d =? CHARGING_POLICY_VOTE_LONGLIFE) && negb (has_flag (d_cs d) GBMS_CS_FLAG_CCLVL).

Lemma soc_update_tiers ce soc elap k cc ce' :
  batt_chg_stats_soc_update ce soc elap k cc = Ret ce' -> ce_tier_stats ce' = ce_tier_stats ce.
Proof.
  unfold batt_chg_stats_soc_update. cbv zeta. destruct (_ <? last_soc ce); [by intros [= <-]|].
  intros (e & _ & Hr)%obind_Ret. apply obind_Ret in Hr as (s & _ & Hr).
  apply obind_Ret in Hr as (s' & _ & Hr). apply Ret_inj in Hr. by rewrite <- Hr.
Qed.

Lemma health_states_test s :
  (s =? MSC_HEALTH_PAUSE) || ((s =? MSC_HEALTH) || (s =? MSC_HEALTH_ALWAYS_ON)) =
  bool_decide (s ∈ [MSC_HEALTH_PAUSE; MSC_HEALTH; MSC_HEALTH_ALWAYS_ON]).
Proof.
  apply eq_true_iff_eq.
  rewrite bool_decide_eq_true, !orb_true_iff, !Z.eqb_eq, !elem_of_cons, elem_of_nil. tauto.
Qed.

Lemma book_series_tiers d ce v k elap cc up temp ce' v' b :
  book_series d ce v k elap cc up temp = Ret (ce', v', b) ->
  ce_tier_stats ce' = ce_tier_stats ce /\
  b = negb (e_batt_full (d_env d)) &&
      negb (bool_decide (a_msc_state (d_algo d) ∈ [MSC_HEALTH_PAUSE; MSC_HEALTH; MSC_HEALTH_ALWAYS_ON])) &&
      (match e_temp_filter (d_env d) with None => true | Some _ => false end).
Proof.
  rewrite <- health_states_test. unfold book_series.
  destruct (e_batt_full (d_env d)); [by intros [= <- <- <-]|].
  destruct (_ =? MSC_HEALTH_PAUSE); [by intros [= <- <- <-]|].
  destruct (_ || _); [by intros [= <- <- <-]|]. cbn [orb negb andb].
  destruct (e_temp_filter _) as [[l i]|].
  - intros (x & _ & Hr)%obind_Ret. by injection Hr as <- <- <-.
  - destruct (negb (_ =? MSC_DSG)); intros (x & Hx & Hr)%obind_Ret; injection Hr as <- <- <-.
    + split; [by eapply soc_update_tiers|done].
    + by injection Hx as <-.
Qed.

(** The tiers that the time to full is learned from are booked in plain charging only:
    a poll that charges books its time, current and temperature to the one tier of the
    battery voltage, and any other poll - full, adaptive charging, a filtered temperature,
    overheated, charging to another level, or without a reading of the charge counter -
    leaves every tier of the table as it was. *)
Theorem tiers_booked_in_plain_charging d g ti k ibatt temp elap d' :
  batt_chg_stats_update d g ti k ibatt temp elap = Ret d' ->
  if plain_charging d && negb (elap =? 0) && (0 <=? g_charge_counter g) then
    exists t, tier_at (ce_tier_stats (d_ce d)) k = Ret t /\
      ce_tier_stats (d_ce d') = <[Z.to_nat k := gbms_stats_update_tier ti ibatt temp elap
        (cdiv (g_charge_counter g) 1000) (d_cs d) (a_msc_state (d_algo d))
        (if g_capacity_raw g <? 0 then -1 else g_capacity_raw g) t]> (ce_tier_stats (d_ce d))
  else ce_tier_stats (d_ce d') = ce_tier_stats (d_ce d).
Proof.
  unfold batt_chg_stats_update. rewrite (Z.leb_antisym (g_charge_counter g) 0).
  destruct (elap =? 0); [intros <-%Ret_inj; by destruct (plain_charging d)|].
  destruct (g_charge_counter g <? 0); [intros <-%Ret_inj; by destruct (plain_charging d)|].
  cbn [negb]. rewrite !andb_true_r. cbv zeta. intros (v & _ & Hr)%obind_Ret.
  apply obind_Ret in Hr as ([[ce v1] b] & Hs & Hr). apply book_series_tiers in Hs as [Ht Hb].
  unfold plain_charging. rewrite <- Hb.
  destruct (_ =? POWER_SUPPLY_HEALTH_OVERHEAT);
    [|destruct (d_vote_force_full d); [|destruct (_ =? CHARGING_POLICY_VOTE_LONGLIFE);
       [|destruct (has_flag _ _)]]]; cbn [negb]; rewrite ?andb_false_r; cbn [andb].
  1: match type of Hr with context [let '(a, b) := ?m in _] => destruct m end.
  1-4: rewrite ?orb_true_r in Hr; apply Ret_inj in Hr; by rewrite <- Hr.
  rewrite !andb_true_r. rewrite !orb_false_r in Hr. destruct b; cbn [negb] in Hr.
  - apply obind_Ret in Hr as (l & Hl & Hr). apply Ret_inj in Hr. rewrite <- Hr. cbn.
    unfold update_tier in Hl. apply obind_Ret in Hl as (t & Hat & Hl). apply Ret_inj in Hl.
    rewrite Ht in *. exists t. split; [done|]. by rewrite <- Hl.
  - apply Ret_inj in Hr. by rewrite <- Hr.
Qed.
End props.

(** ** Instances *)

Lemma charging_run_safe_witness :
  exists now d', drv_run DemoMsc.events DemoMsc.start = Ret d' /\
    run_ok 100 10 4600000 99 now d' /\ a_fv_uv (d_algo d') <= 4600000.
Proof.
  destruct (charging_run_safe 100 10 4600000 99 99 DemoMsc.events DemoMsc.start DemoMsc.start_ok
    DemoMsc.events_fit) as (now & d' & Hr & Hd' & Hfv & _).
  exists now, d'. exact (conj Hr (conj Hd' Hfv)).
Defined.

Lemma poll_publishes_table_witness :
  exists rc d', msc_logic 100 (DemoMsc.gauge 250 1500000 4200000) DemoMsc.start = Ret (rc, d') /\
    drv_ok 4600000 99 d'.
Proof.
  destruct (poll_publishes_table 4600000 99 100 (DemoMsc.gauge 250 1500000 4200000) DemoMsc.start
    DemoMsc.start_drv) as (rc & d' & temp & Hr & Hd & _).
  - vm_compute. intuition congruence.
  - lia.
  - exists rc, d'. exact (conj Hr Hd).
Defined.

(** A poll half a minute after the first: half a minute goes to the tier. *)
Lemma tiers_booked_in_plain_charging_witness :
  exists d' t,
    batt_chg_stats_update DemoMsc.charging (DemoMsc.gauge 250 1500000 4100000) 1 0 1500 250 30 = Ret d' /\
    ce_tier_stats (d_ce d') = <[0%nat := t]> (ce_tier_stats (d_ce DemoMsc.charging)).
Proof.
  assert (Hr : exists d', batt_chg_stats_update DemoMsc.charging (DemoMsc.gauge 250 1500000 4100000)
    1 0 1500 250 30 = Ret d') by (eexists; vm_compute; reflexivity).
  destruct Hr as (d' & Hr). pose proof (tiers_booked_in_plain_charging DemoMsc.charging
    (DemoMsc.gauge 250 1500000 4100000) 1 0 1500 250 30 d' Hr) as Hb.
  assert (Hp : plain_charging DemoMsc.charging && negb (30 =? 0) &&
    (0 <=? g_charge_counter (DemoMsc.gauge 250 1500000 4100000)) = true) by (vm_compute; reflexivity).
  rewrite Hp in Hb. destruct Hb as (t & _ & Ht). eexists d', _. exact (conj Hr Ht).
Defined.
