(* ===== verification/MscLive.v ===== *)
(** Multi step charging makes progress: while the current tapers off at the voltage of a tier,
    the counters run down and the algorithm leaves the tier for a higher one. *)

From S2P Require Import Prelude GbmsProfile GbmsLookup GbmsCharge Ttf TtfPower Ssoc SsocTrace SsocRecharge SsocDemo.
From S2P Require Import Msc MscDrv MscHealth MscLogic MscTable MscSafe MscRun MscDemo.

(** ** A report that polls *)

Section live.
Context `{PowerSupplyTypes} `{Elections} (m stop top start : Z).

#[local] Abbreviation ok := (run_ok m stop top start).

(** The temperature, current and voltage of a report that charges. *)
Definition charging_at (d : batt_drv) (g : gauge) (cs : charger_state) (temp ibatt : Z) : Prop :=
  chg_state_is_disconnected cs = false /\ gbatt_get_raw_temp d g = Ret (Some temp) /\
  in_limits (d_profile d) temp /\ g_current_now g = Some ibatt /\ 0 <= g_voltage_now g.

(** The state after it: connected, and the tier that was decided on, with its counters. *)
Record decided (g : gauge) (d : batt_drv) (temp ibatt : Z) (d' : batt_drv) (s : Z) (t : msc_tier)
    (a : msc_algo) : Prop := {
  dc_profile : d_profile d' = d_profile d;
  dc_settings : d_settings d' = d_settings d;
  dc_env : d_env d' = d_env d;
  dc_buck : buck_enabled (d_ssoc d') = buck_enabled (d_ssoc d);
  dc_row : gbms_msc_temp_idx (d_profile d) temp = Ret (a_temp_idx (d_algo d'));
  dc_decide : exists b, msc_decide (d_settings d) (d_profile d) (d_cs d) (d_algo d)
                (g_voltage_now g) ibatt temp (a_temp_idx (d_algo d')) = Ret (s, t, a, b);
  dc_tier : a_vbatt_idx (d_algo d') = m_vbatt_idx t;
  dc_fv : a_fv_uv (d_algo d') = m_fv_uv t;
  dc_jeita : a_jeita_stop_charging (d_algo d') = 0;
  dc_cv : a_checked_cv_cnt (d_algo d') = a_checked_cv_cnt a;
  dc_switch : a_checked_tier_switch_cnt (d_algo d') = a_checked_tier_switch_cnt a;
  dc_state : a_msc_state (d_algo d') = s \/ a_msc_state (d_algo d') <> MSC_DONE;
}.

(** What the votes leave alone. *)
Lemma voted_frame d x level :
  let d' := voted d x level in
  d_profile d' = d_profile d /\ d_settings d' = d_settings d /\ d_env d' = d_env d /\
  d_ssoc d' = d_ssoc d /\ d_cs d' = d_cs d /\ a_temp_idx (d_algo d') = a_temp_idx (d_algo d) /\
  a_vbatt_idx (d_algo d') = a_vbatt_idx (d_algo d) /\ a_fv_uv (d_algo d') = a_fv_uv (d_algo d) /\
  a_jeita_stop_charging (d_algo d') = a_jeita_stop_charging (d_algo d) /\
  a_checked_cv_cnt (d_algo d') = a_checked_cv_cnt (d_algo d) /\
  a_checked_tier_switch_cnt (d_algo d') = a_checked_tier_switch_cnt (d_algo d) /\
  a_msc_state (d_algo d') = a_msc_state (d_algo d).
Proof.
  unfold voted. cbn zeta. pose proof (core_votes (msc_stop d)) as Hc.
  generalize dependent (vote_fcc (vote_fv (msc_stop d))). intros d1 [C1 C2 C3 C4 C5 C6 _ _ _].
  cbn. rewrite C1, C2, C3, C4, C5, C6. unfold msc_stop.
  destruct (in_rl _ _); destruct (_ =? 1); by split_and!.
Qed.

Lemma report_polled now g p cs d temp ibatt :
  ok now d -> wf_cs cs -> 0 < buck_enabled (d_ssoc d) -> a_jeita_stop_charging (d_algo d) = 0 ->
  charging_at d g cs temp ibatt ->
  exists d' s t a, drv_step (EvReport now g cs p) d = Ret d' /\ ok now d' /\
    decided g (set_cs d cs) temp ibatt d' s t a.
Proof.
  intros Hd0 Hcs Hb Hj (Hdis & Ht & Hlim & Hi & Hv). cbn [drv_step].
  pose proof (set_cs_ok m stop top start now d cs Hd0 Hcs) as Hd. set (dc := set_cs d cs) in *.
  assert (Hlog : batt_chg_logic now g p dc = msc_poll now g (ssoc_get_capacity (d_ssoc dc)) dc).
  { unfold batt_chg_logic. destruct (ro_drv _ _ _ _ _ _ Hd) as (t0 & _ & Hdrv).
    destruct (wf_cccm _ (plain_wf _ (wm_plain _ _ (do_profile _ _ _ Hdrv)))) as (c & -> & _).
    change (d_cs dc) with cs. rewrite Hdis. change (d_ssoc dc) with (d_ssoc d).
    rewrite (proj2 (Z.leb_gt _ 0)) by lia. done. }
  rewrite Hlog. destruct (poll_in_parts m stop top start now g (ssoc_get_capacity (d_ssoc dc)) dc Hd Hb)
    as (rc & d1 & d2 & d3 & d' & -> & Hok & [(E1 & E2 & E3 & E4 & E5 & _ & _ & E8) _ Hc Hbk _ Hrest]). run.
  assert (Hjin : jeita_in d1 = d1).
  { unfold jeita_in. rewrite E1. change (d_algo dc) with (d_algo d). by rewrite Hj. }
  assert (Hraw : gbatt_get_raw_temp d1 g = Ret (Some temp)) by (unfold gbatt_get_raw_temp; by rewrite E4).
  destruct Hc as [Hn|temp' Ht' Hoff|temp' Ht' _ Hu|temp' d2 Ht' _ Hsp Hpl].
  - congruence.
  - exfalso. rewrite Hraw in Ht'. injection Ht' as <-. rewrite E2 in Hoff.
    destruct Hoff as (lo & hi & Hlo & Hhi & Hoff), Hlim as (lo' & hi' & Hlo' & Hhi' & Hin).
    change (d_profile dc) with (d_profile d) in *. rewrite Hlo in Hlo'. rewrite Hhi in Hhi'.
    injection Hlo' as <-. injection Hhi' as <-. lia.
  - destruct Hu as [Hu|Hu]; [congruence|lia].
  - rewrite Hraw in Ht'. injection Ht' as <-. cbn [Z.ltb Z.compare] in Hrest.
    destruct Hrest as (_ & Hf & _ & x & level & ->). exists (voted (msc_health_state d3 (ssoc_get_capacity (d_ssoc dc))) x level).
    destruct Hpl as (ib & ti & s & t & a & b & Hib & _ & Hti & Hrow & Hdec & Hpub).
    rewrite Hjin in *. rewrite Hi in Hib. injection Hib as <-.
    exists s, t, a. split; [done|]. split; [exact Hok|].
    destruct (health_state_frame d3 (ssoc_get_capacity (d_ssoc dc))) as (s' & Hs' & Eh). rewrite Eh.
    destruct (voted_frame (set_algo d3 (set_msc_state (d_algo d3) s')) x level)
      as (V1 & V2 & V3 & V4 & V5 & V6 & V7 & V8 & V9 & V10 & V11 & V12).
    cbn [d_profile d_settings d_env d_ssoc d_cs d_algo set_algo set_msc_state set_states a_temp_idx
      a_vbatt_idx a_fv_uv a_jeita_stop_charging a_checked_cv_cnt a_checked_tier_switch_cnt a_msc_state] in *.
    destruct Hf as [F1 F2 F3 F4 F5 F6 _ _ _ _ _ F12].
    destruct Hsp as [S1 S2 S3 S4 S5 S6 S7].
    destruct Hpub as [P1 P2 P3 P4 P5 P6 P7 P8 P9 P10 P11].
    assert (Hsame : a_jeita_stop_charging a = 0).
    { destruct (ro_drv _ _ _ _ _ _ Hd) as (t0 & _ & Hdrv).
      rewrite E1, E2, E3, E5 in Hdec. rewrite E2 in Hrow.
      destruct (decide_ok _ top (do_profile _ _ _ Hdrv) (d_settings dc) (d_cs dc) (d_algo dc)
        (g_voltage_now g) ibatt temp ti (do_cs _ _ _ Hdrv) (do_algo _ _ _ Hdrv) Hrow Hv)
        as (s2 & t2 & a2 & b2 & Hdec2 & (_ & _ & _ & _ & _ & _ & _ & Hs8 & _) & _).
      rewrite Hdec in Hdec2. injection Hdec2 as <- <- <- <-. rewrite Hs8. exact Hj. }
    split; rewrite ?V1, ?V2, ?V3, ?V4, ?V5, ?V6, ?V7, ?V8, ?V9, ?V10, ?V11, ?V12, ?F1, ?F2, ?F4, ?F5, ?F12,
      ?P1, ?P2, ?P3, ?P7, ?P8, ?P9, ?P10, ?P11; try congruence.
    + exists b. congruence.
    + destruct Hs' as [->|Hs']; [left; congruence|right]. by destruct Hs' as [->|[->| ->]].
Qed.

(** ** The counters *)

(** What the charge table and the charger give while the current tapers off in tier [vi] of
    row [ti]: [vt] is the voltage of the tier, [cc] the current of the next one. *)
Record taper_tier (p : gbms_chg_profile) (ti vi vt cc : Z) : Prop := {
  tt_last : exists last, gbms_msc_get_last_voltage_idx p ti = Ret last /\ vi <> last;
  tt_volt : at_ (volt_limits (limits p)) vi = Ret vt;
  tt_next : cc_int p ti (vi + 1) = Ret cc;
  tt_charges : cc <> 0;
  tt_room : 0 <= vi < volt_nb_limits (limits p) - 1;
}.

(** The battery is at the voltage of the tier, with less current than the next tier allows. *)
Definition at_tier (p : gbms_chg_profile) (vt cc vbatt ibatt : Z) : Prop :=
  0 <= ibatt <= cc /\ s32 (vbatt - vt) <= s32 (cv_otv_margin (behavior p)) /\
  s32 (vt - vbatt) < s32 (cv_range_accuracy (behavior p)).

Definition switch_cnt (p : gbms_chg_profile) : Z := s32 (cv_tier_switch_cnt (behavior p)).

(** The polls that are left before the tier changes. *)
Definition polls_left (p : gbms_chg_profile) (a : msc_algo) : Z :=
  a_checked_cv_cnt a + Z.max 0 (switch_cnt p - a_checked_tier_switch_cnt a).

Context (Hfast : POWER_SUPPLY_CHARGE_TYPE_TAPER_EXT <> POWER_SUPPLY_CHARGE_TYPE_FAST)
  (Htrickle : POWER_SUPPLY_CHARGE_TYPE_TAPER_EXT <> POWER_SUPPLY_CHARGE_TYPE_TRICKLE).

Lemma irdrop_tapers c p cs a vbatt ibatt ti t vt cc :
  cs_chg_type cs = POWER_SUPPLY_CHARGE_TYPE_TAPER_EXT ->
  at_ (volt_limits (limits p)) (m_vbatt_idx t) = Ret vt -> at_tier p vt cc vbatt ibatt ->
  exists s iv ov, msc_logic_irdrop c p cs a vbatt ibatt ti t =
    Ret (s, mk_msc_tier (m_vbatt_idx t) (m_fv_uv t) iv, set_ov_cnt a ov).
Proof.
  intros Hty Hvt (_ & Hov & Hut). unfold msc_logic_irdrop. rewrite Hvt, Hty. run.
  rewrite (proj2 (Z.ltb_ge _ _)) by lia.
  rewrite (proj2 (Z.eqb_neq _ _) Hfast), (proj2 (Z.eqb_neq _ _) Htrickle), Z.eqb_refl. cbn [negb].
  destruct (negb _); [by eexists _, _, _|]. rewrite (proj2 (Z.ltb_lt _ _)) by lia.
  eexists _, _, (a_checked_ov_cnt a). destruct a. done.
Qed.

(** The tier stays, whether the wake source was held or not. *)
#[local] Ltac stays :=
  match goal with |- context [if msc_pm_hold ?s =? 1 then true else ?x] =>
    destruct (if msc_pm_hold s =? 1 then true else x) end;
  cbn; rewrite !Z.eqb_refl; cbn; eexists _, _, _, _; (split; [done|]); cbn; split_and!; try done; try lia.

Lemma taper_decides c p cs a vbatt ibatt temp vt cc :
  cs_chg_type cs = POWER_SUPPLY_CHARGE_TYPE_TAPER_EXT ->
  a_fv_uv a <> -1 -> 0 <= a_vbatt_idx a < 2 ^ 31 - 1 -> a_msc_state a <> MSC_DONE ->
  taper_tier p (a_temp_idx a) (a_vbatt_idx a) vt cc -> at_tier p vt cc vbatt ibatt ->
  0 <= a_checked_cv_cnt a < 2 ^ 31 -> 0 <= a_checked_tier_switch_cnt a ->
  if polls_left p a =? 0 then
    forall i v, gbms_msc_voltage_idx_merge_tiers (Some p) vbatt (a_temp_idx a) = Ret i ->
      at_ (volt_limits (limits p)) i = Ret v ->
      exists t a' b, msc_decide c p cs a vbatt ibatt temp (a_temp_idx a) = Ret (MSC_NEXT, t, a', b) /\
        m_vbatt_idx t = i /\ m_fv_uv t = v
  else
    exists s t a' b, msc_decide c p cs a vbatt ibatt temp (a_temp_idx a) = Ret (s, t, a', b) /\
      s <> MSC_DONE /\ m_vbatt_idx t = a_vbatt_idx a /\ m_fv_uv t = a_fv_uv a /\
      0 <= a_checked_cv_cnt a' < 2 ^ 31 /\ 0 <= a_checked_tier_switch_cnt a' /\
      polls_left p a' = polls_left p a - 1.
Proof.
  intros Hty Hfv Hvi Hst [(last & Hlast & Hnl) Hvt Hnext Hcc _] Hat Hcv Hts.
  assert (Hsw : switch_cnt p < 2 ^ 31) by (apply (swrap_range 32); lia).
  unfold msc_decide, msc_branch.
  rewrite Z.eqb_refl, (proj2 (Z.eqb_neq _ _) Hfv), (proj2 (Z.eqb_neq (a_vbatt_idx a) _)),
    (proj2 (Z.eqb_neq _ _) Hst) by lia. cbn [negb orb].
  rewrite (proj2 (Z.ltb_ge ibatt 0)) by apply Hat. rewrite Hlast, Hvt. run.
  rewrite (proj2 (Z.eqb_neq _ _) Hnl), Hnext. run.
  destruct (irdrop_tapers c p cs a vbatt ibatt (a_temp_idx a)
    (mk_msc_tier (a_vbatt_idx a) (a_fv_uv a) MSC_DEFAULT_UPDATE_INTERVAL) vt cc Hty Hvt Hat)
    as (s & iv & ov & ->). run. unfold msc_next_tier. cbn [a_checked_cv_cnt a_checked_tier_switch_cnt
    set_states set_ov_cnt set_counts set_cv_cnt set_switch_cnt m_vbatt_idx a_vbatt_idx].
  fold (switch_cnt p). destruct Hat as (Hib & _). rewrite (proj2 (Z.ltb_ge cc ibatt)) by lia.
  rewrite (proj2 (Z.eqb_neq cc 0)) by done. cbn [negb andb]. unfold polls_left.
  destruct (Z.ltb_spec 0 (a_checked_cv_cnt a)) as [Hpos|Hz].
  { rewrite (proj2 (Z.eqb_neq _ 0)) by lia. cbn. rewrite swrap_id by lia. stays. }
  destruct (Z.leb_spec (switch_cnt p) (a_checked_tier_switch_cnt a)) as [Hle|Hlt].
  - rewrite (proj2 (Z.eqb_eq _ 0)) by lia. intros i v Hi Hv.
    rewrite (swrap_id 32 (a_vbatt_idx a + 1)) by lia.
    destruct (if msc_pm_hold s =? 1 then true else _);
      cbn -[gbms_msc_voltage_idx_merge_tiers]; rewrite (proj2 (Z.eqb_neq (_ + 1) _)) by lia;
      cbn [negb orb]; rewrite Hi; run; rewrite Hv; run; by eexists _, _, _.
  - rewrite (proj2 (Z.eqb_neq _ 0)) by lia. cbn. rewrite swrap_id by lia. stays.
Qed.

(** ** Leaving a tier *)

(** Tiers further apart than the headroom, which is more than the accuracy of the voltage. *)
Record spaced_tiers (p : gbms_chg_profile) : Prop := {
  sp_volts : volts_ok p;
  sp_apart : spaced p (3 * fv_uv_resolution (behavior p));
  sp_range : s32 (cv_range_accuracy (behavior p)) <= 3 * fv_uv_resolution (behavior p);
}.

Lemma merged_higher p ti vi vt cc vbatt ibatt :
  wf_msc p top -> row p ti -> spaced_tiers p -> taper_tier p ti vi vt cc ->
  at_tier p vt cc vbatt ibatt -> 0 <= vbatt < 2 ^ 31 ->
  exists i v, gbms_msc_voltage_idx_merge_tiers (Some p) vbatt ti = Ret i /\
    at_ (volt_limits (limits p)) i = Ret v /\ vi < i.
Proof.
  intros Hp Hti [Hv Hsp Hr] [_ Hvt _ _ Hroom] (_ & _ & Hut) Hvb.
  pose proof (wm_res _ _ Hp) as Hres.
  destruct (merge_tiers_same_current p vbatt ti (wm_plain _ _ Hp) Hti) as (i & j & cc' & Hi & Hj & Hij & Hjn & _).
  destruct (tier_volt p top Hp j) as (v & Hjv & _); [unfold tier; lia|].
  exists j, v. split; [done|]. split; [done|].
  destruct (msc_voltage_idx_lowest_with_headroom p vbatt (wm_plain _ _ Hp) Hv Hvb ltac:(lia) Hsp)
    as (i' & Hi' & _ & Hhead & _).
  rewrite Hi in Hi'. injection Hi' as <-. destruct (Z.lt_ge_cases vi j) as [?|Hge]; [done|exfalso].
  assert (Hmono : forall n k a b, Z.of_nat n = k - i -> k <= vi -> at_ (volt_limits (limits p)) i = Ret a ->
    at_ (volt_limits (limits p)) k = Ret b -> a <= b).
  { induction n as [|n IH]; intros k a b Hn Hk Ha Hb.
    - replace k with i in Hb by lia. rewrite Ha in Hb. injection Hb as <-. lia.
    - destruct (tier_volt p top Hp (k - 1)) as (c & Hc & _); [unfold tier; lia|].
      pose proof (IH (k - 1) a c ltac:(lia) ltac:(lia) Ha Hc).
      pose proof (Hsp (k - 1) c b ltac:(lia) Hc) as Hs. replace (k - 1 + 1) with k in Hs by lia.
      specialize (Hs Hb). lia. }
  destruct (tier_volt p top Hp i) as (a & Ha & _); [unfold tier; lia|].
  specialize (Hmono (Z.to_nat (vi - i)) vi a vt ltac:(lia) ltac:(lia) Ha Hvt).
  specialize (Hhead a ltac:(lia) Ha).
  pose proof (volts_ok_at p vi vt Hv Hvt). rewrite swrap_id in Hut by lia. lia.
Qed.

(** A report of the charger while the current tapers off in row [ti] at [vt]. *)
Definition taper_report (d : batt_drv) (ti vt cc : Z) (e : drv_event) : Prop :=
  exists now g cs p temp ibatt, e = EvReport now g cs p /\ charging_at d g cs temp ibatt /\
    cs_chg_type cs = POWER_SUPPLY_CHARGE_TYPE_TAPER_EXT /\
    gbms_msc_temp_idx (d_profile d) temp = Ret ti /\
    at_tier (d_profile d) vt cc (g_voltage_now g) ibatt /\ g_voltage_now g < 2 ^ 31.

Lemma taper_report_ext d d' ti vt cc e :
  d_profile d' = d_profile d -> d_env d' = d_env d ->
  taper_report d ti vt cc e -> taper_report d' ti vt cc e.
Proof.
  intros Ep Ee (now & g & cs & p & temp & ib & -> & (H1 & H2 & H3) & Hr).
  exists now, g, cs, p, temp, ib. rewrite Ep. split; [done|]. split; [|done].
  split; [done|]. rewrite Ep. split; [|done]. unfold gbatt_get_raw_temp in *. by rewrite Ee.
Qed.
(** The driver between two such reports, in tier [vi]. *)
Record tapering (d : batt_drv) (ti vi vt cc : Z) : Prop := {
  tp_buck : 0 < buck_enabled (d_ssoc d);
  tp_jeita : a_jeita_stop_charging (d_algo d) = 0;
  tp_state : a_msc_state (d_algo d) <> MSC_DONE;
  tp_row : a_temp_idx (d_algo d) = ti;
  tp_vbatt : a_vbatt_idx (d_algo d) = vi;
  tp_cv : 0 <= a_checked_cv_cnt (d_algo d) < 2 ^ 31;
  tp_switch : 0 <= a_checked_tier_switch_cnt (d_algo d);
  tp_tier : taper_tier (d_profile d) ti vi vt cc;
  tp_spaced : spaced_tiers (d_profile d);
}.

Lemma taper_step last l d ti vi vt cc e :
  ok last d -> events_ok top start last (e :: l) -> tapering d ti vi vt cc -> taper_report d ti vt cc e ->
  exists now d', drv_step e d = Ret d' /\ ok now d' /\ events_ok top start now l /\
    d_profile d' = d_profile d /\ d_env d' = d_env d /\ a_temp_idx (d_algo d') = ti /\
    if polls_left (d_profile d) (d_algo d) =? 0 then
      vi < a_vbatt_idx (d_algo d') /\
      at_ (volt_limits (limits (d_profile d))) (a_vbatt_idx (d_algo d')) = Ret (a_fv_uv (d_algo d'))
    else
      tapering d' ti vi vt cc /\ a_fv_uv (d_algo d') = a_fv_uv (d_algo d) /\
      polls_left (d_profile d') (d_algo d') = polls_left (d_profile d) (d_algo d) - 1.
Proof.
  intros Hd He [T1 T2 T3 T4 T5 T6 T7 T8 T9] (now & g & cs & p & temp & ib & -> & Hch & Hty & Hti & Hat & Hvb).
  cbn [events_ok] in He. destruct He as (Hn & Hcs & Hp & He).
  assert (Hd1 : ok now d) by (apply (run_ok_time _ _ _ _ last); [done|lia]).
  destruct (report_polled now g p cs d temp ib Hd1 Hcs T1 T2 Hch) as (d' & s & t & a & Hs & Hok & Hdec).
  exists now, d'. split; [exact Hs|]. split; [exact Hok|]. split; [exact He|].
  destruct Hdec as [E1 E2 E3 E4 E5 (b & E6) E7 E8 E9 E10 E11 E12].
  cbn [d_profile d_settings d_env d_ssoc d_cs d_algo set_cs] in *.
  rewrite Hti in E5. injection E5 as E5. rewrite <- E5 in E6.
  split; [done|]. split; [done|]. split; [done|].
  pose proof (run_ok_algo_ok _ _ _ _ _ _ Hd) as Ha.
  destruct (ro_drv _ _ _ _ _ _ Hd) as (t0 & _ & Hdrv).
  pose proof (do_profile _ _ _ Hdrv) as Hprof. pose proof (wm_res _ _ Hprof).
  pose proof (tt_room _ _ _ _ _ T8) as Hroom.
  pose proof (wf_volt_nb _ (plain_wf _ (wm_plain _ _ Hprof))) as Hnb.
  unfold GBMS_CHG_VOLT_NB_LIMITS_MAX in Hnb.
  destruct Ha as [(_ & Hz & _)|(Hrow & _ & Hfv)]; [lia|]. rewrite <- T4, <- T5 in T8.
  pose proof (taper_decides (d_settings d) (d_profile d) cs (d_algo d) (g_voltage_now g) ib temp vt cc
    Hty ltac:(lia) ltac:(lia) T3 T8 Hat T6 T7) as Hstep.
  rewrite T4 in Hstep. destruct (Z.eqb_spec (polls_left (d_profile d) (d_algo d)) 0) as [Hl|Hl].
  - rewrite T4 in Hrow. rewrite T4, T5 in T8.
    destruct (merged_higher (d_profile d) ti vi vt cc (g_voltage_now g) ib Hprof Hrow T9 T8 Hat)
      as (i & v & Hi & Hv & Hlt); [split; [apply Hch|done]|].
    destruct (Hstep i v Hi Hv) as (t' & a' & b' & Hdec & <- & <-). rewrite E6 in Hdec.
    injection Hdec as -> <- <- <-. rewrite E7, E8. done.
  - destruct Hstep as (s' & t' & a' & b' & Hdec & Hs' & Hvi & Hfv' & Hcv' & Hts' & Hpl).
    rewrite E6 in Hdec. injection Hdec as <- <- <- <-. split; [|split].
    + split; rewrite ?E1, ?E4, ?E10, ?E11; try done; [|lia|].
      * destruct E12 as [->|E12]; done.
      * by rewrite T4, T5 in T8.
    + congruence.
    + unfold polls_left in *. by rewrite E1, E10, E11.
Qed.

(** C28. Progress: while the charger reports that the current tapers off and the battery is
    at the voltage of its tier with less current than the next tier allows, the debounce and
    switch counters run down by one at every poll and leave the tier and its voltage alone,
    and the poll after that charges in a higher tier, at the voltage of that tier.  The reports
    come in time order ([events_ok]), and the tiers are as far apart as [tapering] says. *)
Theorem tapering_reaches_next_tier last l d ti vi vt cc :
  ok last d -> events_ok top start last l -> tapering d ti vi vt cc ->
  Forall (taper_report d ti vt cc) l ->
  Z.of_nat (length l) = polls_left (d_profile d) (d_algo d) + 1 ->
  (exists d', drv_run (removelast l) d = Ret d' /\ a_vbatt_idx (d_algo d') = vi /\
     a_fv_uv (d_algo d') = a_fv_uv (d_algo d)) /\
  exists now d', drv_run l d = Ret d' /\ ok now d' /\ a_temp_idx (d_algo d') = ti /\
    vi < a_vbatt_idx (d_algo d') /\
    at_ (volt_limits (limits (d_profile d'))) (a_vbatt_idx (d_algo d')) = Ret (a_fv_uv (d_algo d')).
Proof.
  revert last d. induction l as [|e l IH]; intros last d Hd He Hdt Hl Hn.
  { exfalso. destruct Hdt as [_ _ _ _ _ Hcv _ _ _]. unfold polls_left in Hn. cbn in Hn. lia. }
  apply Forall_cons in Hl as [Hr Hl].
  destruct (taper_step last l d ti vi vt cc e Hd He Hdt Hr) as (now & d' & Hs & Hd' & He' & E1 & E2 & E3 & Hc).
  cbn [length] in Hn. cbn [drv_run]. rewrite Hs. run.
  destruct (Z.eqb_spec (polls_left (d_profile d) (d_algo d)) 0) as [Hz|Hz].
  - destruct l; [|cbn [length] in Hn; lia]. split.
    + exists d. cbn. split_and!; [done|apply Hdt|done].
    + cbn [drv_run]. exists now, d'. rewrite E1. by destruct Hc.
  - destruct Hc as (Hdt' & Hfv & Hpl).
    destruct (IH now d' Hd' He' Hdt') as ((d2 & Hr2 & Hv2 & Hf2) & Hfin); [|lia|].
    { eapply Forall_impl; [exact Hl|]. intros x. by apply taper_report_ext. }
    split; [|exact Hfin]. destruct l as [|e' l]; [cbn [length] in *; lia|].
    change (removelast (e :: e' :: l)) with (e :: removelast (e' :: l)). cbn [drv_run]. rewrite Hs. run.
    exists d2. split_and!; [done|done|congruence].
Qed.
End live.

(** ** An instance *)

(** Seven reports of 2.5 A at 4.19 V. *)
Definition demo_report (now : Z) : drv_event :=
  EvReport now (DemoMsc.gauge 250 2500000 4190000) (DemoMsc.cs 1 9 4300) DemoMsc.prof.
Definition demo_taper : list drv_event :=
  demo_report <$> [130; 160; 190; 220; 250; 280; 310].

Lemma tapering_reaches_next_tier_witness :
  exists now d', drv_run demo_taper DemoMsc.charging = Ret d' /\ run_ok 100 10 4600000 99 now d' /\
    0 < a_vbatt_idx (d_algo d').
Proof.
  assert (Hf : POWER_SUPPLY_CHARGE_TYPE_TAPER_EXT <> POWER_SUPPLY_CHARGE_TYPE_FAST) by discriminate.
  assert (Ht : POWER_SUPPLY_CHARGE_TYPE_TAPER_EXT <> POWER_SUPPLY_CHARGE_TYPE_TRICKLE) by discriminate.
  destruct (tapering_reaches_next_tier 100 10 4600000 99 Hf Ht 100 demo_taper
    DemoMsc.charging 1 0 4200000 3000000) as (_ & now & d' & Hr & Hd & _ & Hlt & _).
  - exact DemoMsc.charging_ok.
  - assert (Hc : wf_cs (DemoMsc.cs 1 9 4300)) by (by split).
    cbn [events_ok demo_taper demo_report fmap list_fmap].
    split_and!; first [exact DemoMsc.prof_wf|exact Hc|lia|exact I].
  - split; try (vm_compute; intuition congruence).
    + split; try (vm_compute; intuition congruence). exists 2. split; [reflexivity|lia].
    + split; [repeat constructor; lia|exact DemoProfile.prof_spaced|vm_compute; congruence].
  - apply Forall_fmap, Forall_forall. intros k _. do 6 eexists. split; [reflexivity|].
    split; [split_and!; try reflexivity; [|cbn; lia]; exists 0, 450; split_and!; [reflexivity..|lia|lia]|].
    split; [reflexivity|]. split; [reflexivity|]. split; [|cbn; lia].
    vm_compute. intuition congruence.
  - reflexivity.
  - exists now, d'. exact (conj Hr (conj Hd Hlt)).
Defined.
