(* ===== verification/MscVote.v ===== *)
(** The votes of a poll in the election of the charge current: the battery's votes
    (MscLogic.v) are replayed in the integer election of [GvElection] that the charger
    creates for it, among the votes of the other drivers. *)

From Stdlib Require Import String.
From stdpp Require Import gmap.
From S2P Require Import Prelude GvElection GvOrder GvSpec GvResults.
From S2P Require Import GbmsProfile GbmsLookup GbmsCharge Ttf TtfPower Ssoc SsocTrace SsocRecharge.
From S2P Require Import Msc MscDrv MscHealth MscLogic MscTable MscSafe MscRun MscDemo.

(** The votes for the charge current in a log of votes. *)
Definition fcc_votes (l : list vote) : list event :=
  snd <$> filter (fun v => v.1 = VOTABLE_MSC_FCC) l.

(** ** Histories of distinct voters *)

Definition voter (ev : event) : string := ev.1.1.

Lemma fair_distinct sgn h t :
  NoDup (voter <$> h) -> Forall (fair_event sgn t) h -> fair sgn t h.
Proof.
  revert t. induction h as [|ev h IH]; intros t Hn Hf; [done|].
  apply NoDup_cons in Hn as [Hni Hn]. apply Forall_cons in Hf as [He Hf]. split; [done|].
  apply IH; [done|]. rewrite Forall_forall in Hf |- *. intros [[r v] b] Hin.
  destruct (Hf _ Hin) as (Q1 & Q2 & Q3 & Hd).
  split; [exact Q1|]. split; [exact Q2|]. split; [exact Q3|]. intros Hb v0 e0 Hl.
  rewrite lookup_insert_ne in Hl; [by eapply Hd|].
  intros E. apply Hni. apply list_elem_of_fmap. by exists (r, v, b).
Qed.

Lemma replay_other h t r : r ∉ voter <$> h -> replay h t !! r = t !! r.
Proof.
  revert t. induction h as [|ev h IH]; intros t Hr; [done|].
  apply not_elem_of_cons in Hr as [Hne Hr]. cbn [replay foldl]. fold (replay h (<[ev.1.1 := (ev.1.2, ev.2)]> t)).
  rewrite IH by done. by apply lookup_insert_ne.
Qed.

Lemma replay_voted h t r v e :
  NoDup (voter <$> h) -> (r, v, e) ∈ h -> replay h t !! r = Some (v, e).
Proof.
  revert t. induction h as [|ev h IH]; intros t Hn Hin; [by apply not_elem_of_nil in Hin|].
  apply NoDup_cons in Hn as [Hni Hn]. cbn [replay foldl]. fold (replay h (<[ev.1.1 := (ev.1.2, ev.2)]> t)).
  apply elem_of_cons in Hin as [<-|Hin]; [|by apply IH].
  rewrite replay_other by done. by rewrite lookup_insert_eq.
Qed.

Section votes.
Context `{PowerSupplyTypes} `{Elections} `{Environment} `{!QuietCallback} (m stop top start : Z).

#[local] Abbreviation ok := (run_ok m stop top start).

(** What the battery voted before: a vote that it withdraws now is not greater. *)
Record battery_ballots (d : batt_drv) (t : gmap string (Z * bool)) : Prop := {
  bb_zero r v e : r = RL_STATE_VOTER \/ r = SW_JEITA_VOTER -> t !! r = Some (v, e) -> 0 <= v;
  bb_unset r v e : r = MSC_LOGIC_VOTER \/ r = MSC_HEALTH_VOTER \/ r = BPST_DETECT_VOTER ->
    t !! r = Some (v, e) -> -1 <= v;
  bb_trickle v e : t !! BD_TRICKLE_VOTER = Some (v, e) -> batt_trickle_cc_max d <= v;
}.

Definition bpst_cc_max (d : batt_drv) : Z :=
  if a_cc_max (d_algo d) =? -1 then a_cc_max (d_algo d)
  else cdiv (s32 (a_cc_max (d_algo d) * e_bpst_chg_rate (d_env d))) 100.

Definition common_ballots (d : batt_drv) : list event :=
  [ (RL_STATE_VOTER, 0, in_rl d BATT_RL_STATUS_DISCHARGE);
    (BD_TRICKLE_VOTER, batt_trickle_cc_max d,
     batt_is_trickle (d_ssoc d) && (bd_version (trickle (d_ssoc d)) =? BD_TRICKLE_VER_FCC) &&
     in_rl d BATT_RL_STATUS_RECHARGE);
    (SW_JEITA_VOTER, 0, a_jeita_stop_charging (d_algo d) =? 1);
    (MSC_HEALTH_VOTER, h_rest_cc_max (d_health d), negb (h_rest_cc_max (d_health d) =? -1));
    (MSC_LOGIC_VOTER, a_cc_max (d_algo d), negb (a_cc_max (d_algo d) =? -1)) ].

Definition fcc_ballots (d : batt_drv) : list event :=
  common_ballots d ++
  (if e_bpst_detect_disable (d_env d) || e_bpst_cell_fault (d_env d)
   then [ (BPST_DETECT_VOTER, bpst_cc_max d, negb (bpst_cc_max d =? -1)) ] else []).

Lemma voted_ballots d x level :
  e_disable_votes (d_env d) = false ->
  exists votes, d_votes (voted d x level) = d_votes d ++ votes /\
    fcc_votes votes = fcc_ballots (msc_stop d).
Proof.
  intros Hdis. unfold voted, vote_fcc, vote_fv. cbn [d_votes set_ttf cast].
  assert (Hs : d_env (msc_stop d) = d_env d /\ d_votes (msc_stop d) = d_votes d).
  { unfold msc_stop. destruct (in_rl _ _); by destruct (_ =? 1). }
  destruct Hs as [Es Ev]. cbn [d_env d_health d_algo d_ssoc d_votes cast].
  rewrite Es, Hdis. cbn [negb andb].
  destruct (e_bpst_detect_disable (d_env d) || e_bpst_cell_fault (d_env d)) eqn:Eb;
    cbn [d_votes cast]; rewrite Ev, <- !app_assoc; eexists; (split; [reflexivity|]);
    unfold fcc_ballots, common_ballots, bpst_cc_max; rewrite Es, Eb; reflexivity.
Qed.

Lemma ballots_distinct d : NoDup (voter <$> fcc_ballots d).
Proof.
  unfold fcc_ballots, common_ballots. destruct (_ || _); cbn; apply (bool_decide_unpack _); vm_compute; exact I.
Qed.

(** The currents of adaptive charging and of a faulty cell fit their integers. *)
Record currents_ok (d : batt_drv) : Prop := {
  co_rest : -1 <= h_rest_cc_max (d_health d) < 2 ^ 31;
  co_rate : 0 <= e_bpst_chg_rate (d_env d);
  co_bpst cc : is_current (d_profile d) cc -> cc * e_bpst_chg_rate (d_env d) < 2 ^ 31;
}.

Lemma cc_range now d :
  ok now d -> a_cc_max (d_algo d) = -1 \/
    0 <= a_cc_max (d_algo d) < 2 ^ 31 /\ is_current (d_profile d) (a_cc_max (d_algo d)).
Proof.
  intros Hd. destruct (ro_drv _ _ _ _ _ _ Hd) as (t0 & _ & Hdrv).
  pose proof (wm_cells _ _ (do_profile _ _ _ Hdrv)) as Hc.
  destruct (ro_cc _ _ _ _ _ _ Hd) as [->|[->|Hcc]]; [by left|right|right].
  - split; [lia|by left].
  - assert (Hi : is_current (d_profile d) (a_cc_max (d_algo d))) by (right; eauto). auto.
Qed.

Lemma bpst_range now d : ok now d -> currents_ok d -> -1 <= bpst_cc_max d < 2 ^ 31.
Proof.
  intros Hd [_ Hr Hb]. unfold bpst_cc_max.
  destruct (cc_range now d Hd) as [->|[Hcc Hcur]]; [by cbn; lia|].
  rewrite (proj2 (Z.eqb_neq _ (-1))) by lia. specialize (Hb _ Hcur).
  assert (0 <= a_cc_max (d_algo d) * e_bpst_chg_rate (d_env d)) by (apply Z.mul_nonneg_nonneg; lia).
  rewrite swrap_id by lia. rewrite Z.quot_div_nonneg by lia.
  split; [|apply Z.div_lt_upper_bound; lia].
  etrans; [|apply Z.div_pos; lia]. lia.
Qed.

Lemma fair_ballot t r v e :
  bool_decide (r <> ""%string /\ (String.length r < GVOTABLE_MAX_REASON_LEN)%nat) = true ->
  - 2 ^ 31 <= v < 2 ^ 31 -> (e = false -> forall v' e', t !! r = Some (v', e') -> v <= v') ->
  fair_event 1 t (r, v, e).
Proof.
  intros Hr%bool_decide_eq_true Hv He. split; [apply Hr|]. split; [apply Hr|]. split; [exact Hv|].
  intros E v' e' Hl. specialize (He E v' e' Hl). lia.
Qed.

(** Every vote of a poll is fair. *)
Lemma ballots_fair now d t :
  ok now d -> currents_ok d -> battery_ballots d t -> fair 1 t (fcc_ballots d).
Proof.
  intros Hd Hc [Hz Hu Ht]. apply fair_distinct; [apply ballots_distinct|].
  assert (Hcc : -1 <= a_cc_max (d_algo d) < 2 ^ 31) by (destruct (cc_range now d Hd) as [->|[? _]]; lia).
  pose proof (bpst_range now d Hd Hc). destruct Hc as [Hr _ _].
  assert (Htr : - 2 ^ 31 <= batt_trickle_cc_max d < 2 ^ 31) by (apply (swrap_range 32); lia).
  apply Forall_app. split; [|destruct (_ || _); [apply Forall_singleton|done]].
  - repeat (apply Forall_cons_2; [apply fair_ballot; [reflexivity| |]|]); try apply Forall_nil_2;
      try exact Htr; try lia.
    + intros _ v e. apply Hz. by left.
    + intros _. apply Ht.
    + intros _ v e. apply Hz. by right.
    + intros E%negb_false_iff%Z.eqb_eq v e. rewrite E. apply Hu. by right; left.
    + intros E%negb_false_iff%Z.eqb_eq v e. rewrite E. apply Hu. by left.
  - apply fair_ballot; [reflexivity|lia|].
    intros E%negb_false_iff%Z.eqb_eq v e. rewrite E. apply Hu. by right; right.
Qed.

Definition battery_voters : list string :=
  [RL_STATE_VOTER; BD_TRICKLE_VOTER; SW_JEITA_VOTER; MSC_HEALTH_VOTER; MSC_LOGIC_VOTER; BPST_DETECT_VOTER].

Lemma ballots_voters d r : r ∉ battery_voters -> r ∉ voter <$> fcc_ballots d.
Proof.
  intros Hr Hin. apply Hr. revert Hin. unfold fcc_ballots, common_ballots, battery_voters.
  destruct (_ || _); cbn [app fmap list_fmap voter fst]; rewrite !elem_of_cons; tauto.
Qed.

(** A ballot that was just cast, from the facts that name it. *)
#[local] Ltac now_voted Hget Hin :=
  eapply Hget; [|eassumption]; apply Hin; rewrite !elem_of_cons; eauto 8.

(** The tally after a poll: the battery's ballots, still no greater when withdrawn, and
    the votes of the others as they were. *)
Lemma ballots_kept now d t :
  ok now d -> currents_ok d -> battery_ballots d t ->
  battery_ballots d (replay (fcc_ballots d) t).
Proof.
  intros Hd Hc [Hz Hu Ht].
  assert (Hcc : -1 <= a_cc_max (d_algo d)) by (destruct (cc_range now d Hd) as [->|[? _]]; lia).
  pose proof (bpst_range now d Hd Hc) as Hb. destruct Hc as [Hr _ _].
  assert (Hget : forall r v e v' e', (r, v, e) ∈ fcc_ballots d ->
      replay (fcc_ballots d) t !! r = Some (v', e') -> v' = v).
  { intros r v e v' e' Hin. rewrite (replay_voted _ t r v e (ballots_distinct d) Hin). by intros [= <- <-]. }
  assert (Hin : forall ev, ev ∈ common_ballots d -> ev ∈ fcc_ballots d).
  { intros ev Hev. apply elem_of_app. by left. }
  unfold common_ballots in Hin.
  split.
  - intros r v e [->| ->] Hl; assert (v = 0) as -> by now_voted Hget Hin; lia.
  - intros r v e [->|[->| ->]] Hl.
    + assert (v = a_cc_max (d_algo d)) as -> by now_voted Hget Hin. exact Hcc.
    + assert (v = h_rest_cc_max (d_health d)) as -> by now_voted Hget Hin. apply Hr.
    + destruct (e_bpst_detect_disable (d_env d) || e_bpst_cell_fault (d_env d)) eqn:Eb.
      * assert (v = bpst_cc_max d) as ->; [|apply Hb]. eapply Hget; [|exact Hl]. unfold fcc_ballots.
        rewrite Eb. apply elem_of_app. right. by apply list_elem_of_singleton.
      * rewrite replay_other in Hl; [apply (Hu _ _ _ (or_intror (or_intror eq_refl)) Hl)|].
        unfold fcc_ballots, common_ballots. rewrite Eb. cbn [app fmap list_fmap voter fst].
        apply (bool_decide_unpack _). vm_compute. exact I.
  - intros v e Hl. assert (v = batt_trickle_cc_max d) as -> by now_voted Hget Hin. lia.
Qed.

Lemma voted_parts d x level :
  d_algo (voted d x level) = d_algo (msc_stop d) /\ d_ssoc (voted d x level) = d_ssoc (msc_stop d) /\
  d_health (voted d x level) = d_health d /\ d_env (voted d x level) = d_env d /\
  d_profile (voted d x level) = d_profile d.
Proof.
  assert (Hs : d_health (msc_stop d) = d_health d /\ d_env (msc_stop d) = d_env d /\
    d_profile (msc_stop d) = d_profile d).
  { unfold msc_stop. destruct (in_rl _ _); by destruct (_ =? 1). }
  destruct Hs as (E1 & E2 & E3). rewrite <- E1, <- E2, <- E3. unfold voted, vote_fcc, vote_fv.
  destruct (e_bpst_detect_disable (d_env (msc_stop d)) || e_bpst_cell_fault (d_env (msc_stop d))) eqn:E;
    cbn [d_env cast]; rewrite E; by split_and!.
Qed.

Lemma currents_ok_ext d d' :
  d_health d' = d_health d -> d_env d' = d_env d -> d_profile d' = d_profile d ->
  currents_ok d -> currents_ok d'.
Proof. intros E1 E2 E3 []. split; by rewrite ?E1, ?E2, ?E3. Qed.

Lemma ballots_ext d d' t :
  d_env d' = d_env d -> d_profile d' = d_profile d -> battery_ballots d t -> battery_ballots d' t.
Proof. intros E1 E2 []. split; [done..|]. unfold batt_trickle_cc_max. by rewrite E1, E2. Qed.

(** C29. The elected charge current: after the votes of a poll, replayed in the election for
    the charge current among the votes of the other drivers, the elected current is at most
    the current of the charge table, where there is one, at most that of adaptive charging,
    where it sets one, at most 0 when the battery is recharging by discharge or charging is
    marked as stopped ([jeita_stop_charging] is 1, from the second poll outside the
    temperatures of the table on), and at most every vote that another driver has enabled; the
    votes of the next poll are fair again. The first poll outside the temperatures leaves no
    current of the table, and withdraws the vote ([hot_poll_withdraws_votes]): then only the
    other bounds hold. The votes are not disabled, the currents fit an [int] ([currents_ok]),
    and what the battery voted before is what its polls vote ([battery_ballots]). *)
Theorem poll_votes_bound_current now d g w el :
  ok now d -> currents_ok d -> e_disable_votes (d_env d) = false ->
  w_el w = Some el -> int_election 1 el -> battery_ballots d (tally (el_votes el)) ->
  exists d' votes w' el' res,
    msc_vote d g = Ret d' /\ ok now d' /\ d_votes d' = d_votes d ++ votes /\
    cast_all (fcc_votes votes) w = Ret w' /\ w_el w' = Some el' /\ int_election 1 el' /\
    battery_ballots d' (tally (el_votes el')) /\ gvotable_get_current_int_vote w' = Ret res /\
    (a_cc_max (d_algo d') <> -1 -> res <= a_cc_max (d_algo d')) /\
    (h_rest_cc_max (d_health d') <> -1 -> res <= h_rest_cc_max (d_health d')) /\
    (in_rl d' BATT_RL_STATUS_DISCHARGE = true \/ a_jeita_stop_charging (d_algo d') = 1 -> res <= 0) /\
    (a_cc_max (d_algo d') = -1 \/ a_cc_max (d_algo d') = 0 \/
     GBMS_CCCM_LIMITS (d_profile d') (a_temp_idx (d_algo d')) (a_vbatt_idx (d_algo d')) =
       Ret (a_cc_max (d_algo d'))) /\
    (forall r v, r ∉ battery_voters -> tally (el_votes el) !! r = Some (v, true) ->
       tally (el_votes el') !! r = Some (v, true) /\ res <= v).
Proof.
  intros Hd Hc Hdis Hw Hi Hb. destruct (vote_ok m stop top start now d g Hd) as (d' & x & l & Hv & Hd' & E).
  destruct (voted_ballots d x l Hdis) as (votes & Hlog & Hfcc). rewrite <- E in Hlog.
  destruct (voted_parts d x l) as (E1 & E2 & E3 & E4 & E5). rewrite <- E in E1, E2, E3, E4, E5.
  set (ds := msc_stop d) in *. pose proof (stop_ok m stop top start now d Hd) as Hs. fold ds in Hs.
  assert (S3 : d_health ds = d_health d /\ d_env ds = d_env d /\ d_profile ds = d_profile d).
  { subst ds. unfold msc_stop. destruct (in_rl _ _); by destruct (_ =? 1). }
  destruct S3 as (S1 & S2 & S3). rewrite <- S1 in E3. rewrite <- S2 in E4. rewrite <- S3 in E5.
  pose proof (currents_ok_ext d ds S1 S2 S3 Hc) as Hcs. pose proof (ballots_ext d ds _ S2 S3 Hb) as Hbs.
  destruct (int_history_ok 1 (fcc_ballots ds) w el Hw Hi (ballots_fair now ds _ Hs Hcs Hbs))
    as (w' & el' & Hcast & Hw' & Hi' & Ht' & _ & [Hnil|(res & Hget & Hp)]); [discriminate|].
  exists d', votes, w', el', res. rewrite Hfcc.
  assert (Hmin : forall r v, tally (el_votes el') !! r = Some (v, true) -> res <= v).
  { intros r v Hl. destruct Hp as [[_ Hm]|[Hno _]]; [specialize (Hm r v Hl); lia|by destruct (Hno r v)]. }
  assert (Hvote : forall r v e, (r, v, e) ∈ common_ballots ds -> e = true -> res <= v).
  { intros r v e Hin ->. apply (Hmin r). rewrite Ht'. apply replay_voted; [apply ballots_distinct|].
    apply elem_of_app. by left. }
  unfold common_ballots in Hvote. rewrite <- E1, <- E3 in Hvote.
  assert (Hrl : in_rl d' BATT_RL_STATUS_DISCHARGE = in_rl ds BATT_RL_STATUS_DISCHARGE)
    by (unfold in_rl; by rewrite E2).
  split; [exact Hv|]. split; [exact Hd'|]. split; [exact Hlog|]. split; [exact Hcast|].
  split; [exact Hw'|]. split; [exact Hi'|]. split.
  { rewrite Ht'. apply (ballots_ext ds d' _ E4 E5). by apply (ballots_kept now). }
  split; [exact Hget|]. split; [|split; [|split; [|split; [apply Hd'|]]]].
  - intros Hne. eapply Hvote; [rewrite !elem_of_cons; eauto 8|]. by apply negb_true_iff, Z.eqb_neq.
  - intros Hne. eapply Hvote; [rewrite !elem_of_cons; eauto 8|]. by apply negb_true_iff, Z.eqb_neq.
  - rewrite Hrl. intros [Hr|Hj].
    + eapply (Hvote RL_STATE_VOTER); [rewrite !elem_of_cons; by left|exact Hr].
    + eapply (Hvote SW_JEITA_VOTER); [rewrite !elem_of_cons; by do 2 right; left|by apply Z.eqb_eq].
  - intros r v Hr Hl. assert (Hl' : tally (el_votes el') !! r = Some (v, true)).
    { rewrite Ht', replay_other; [done|by apply ballots_voters]. }
    split; [exact Hl'|]. by apply (Hmin r).
Qed.
End votes.

(** ** An instance *)

#[local] Existing Instance Demo.env.
#[local] Existing Instance Demo.quiet.

Lemma ballots_empty d : battery_ballots d (tally (el_votes (Demo.new_el CmpIntMin true))).
Proof.
  assert (E : tally (el_votes (Demo.new_el CmpIntMin true)) = ∅) by reflexivity.
  rewrite E. split; intros *; by rewrite lookup_empty.
Qed.

(** An election without votes of other drivers. *)
Lemma poll_votes_bound_current_witness :
  exists d' votes w' res,
    msc_vote DemoMsc.charging (DemoMsc.gauge 250 1500000 4100000) = Ret d' /\
    d_votes d' = d_votes DemoMsc.charging ++ votes /\
    cast_all (fcc_votes votes) (Demo.world_of (Demo.new_el CmpIntMin true)) = Ret w' /\
    gvotable_get_current_int_vote w' = Ret res /\
    (a_cc_max (d_algo d') <> -1 -> res <= a_cc_max (d_algo d')).
Proof.
  destruct (poll_votes_bound_current 100 10 4600000 99 100 DemoMsc.charging
    (DemoMsc.gauge 250 1500000 4100000) (Demo.world_of (Demo.new_el CmpIntMin true))
    (Demo.new_el CmpIntMin true)) as (d' & votes & w' & el' & res & H1 & _ & H2 & H3 & _ & _ & _ & H4 & H5 & _).
  - exact DemoMsc.charging_ok.
  - split; [vm_compute; intuition congruence|vm_compute; congruence|].
    intros cc Hc. change (e_bpst_chg_rate (d_env DemoMsc.charging)) with 0. lia.
  - reflexivity.
  - reflexivity.
  - split; try done; [apply wf_new|apply int_min_key|constructor].
  - apply ballots_empty.
  - exists d', votes, w', res. exact (conj H1 (conj H2 (conj H3 (conj H4 H5)))).
Defined.
