(* ===== verification/MscAdaptive.v ===== *)
(** Adaptive charging as a state machine: what [msc_logic_health] decides, stated without
    the driver, and the proof that the code implements it. *)

From S2P Require Import Prelude GbmsProfile GbmsLookup GbmsCharge Ttf TtfPower Ssoc SsocCurve SsocLimit SsocTrace SsocRecharge SsocDemo.
From S2P Require Import Msc MscDrv MscHealth MscLogic MscTable MscSafe MscRun MscDemo.

(** ** The machine *)

(** What a poll knows: [ttf] is [None] when there is no estimate, and -1 is one that is not
    known yet; [level] is the state of charge from which charging slows down, negative when
    there is none. *)
Record adaptive_input := {
  in_aon : bool;
  in_cclvl : bool;
  in_overheat : bool;
  in_ttf : option Z;
  in_now : Z;
  in_deadline : Z;
  in_margin : Z;
  in_soc : Z;
  in_level : Z;
}.

Definition live (s : Z) : Prop :=
  s <> CHG_HEALTH_CCLVL_DISABLED /\ s <> CHG_HEALTH_BD_DISABLED /\ s <> CHG_HEALTH_USER_DISABLED /\
  s <> CHG_HEALTH_DISABLED /\ s <> CHG_HEALTH_INACTIVE /\ s <> CHG_HEALTH_DONE.

(** Full by the deadline, [slack] seconds early. *)
Definition in_time (i : adaptive_input) (ttf slack : Z) : bool :=
  s64 (in_now i + ttf + slack) <=? in_deadline i.

Definition late (i : adaptive_input) (s ttf : Z) : Prop :=
  in_aon i = false /\ (s = CHG_HEALTH_ACTIVE \/ s = CHG_HEALTH_ENABLED) /\
  0 < in_deadline i /\ ttf <> -1 /\ in_time i ttf (Z.max 0 (in_margin i)) = false.

(** The state of the level: slow from the level on, fast below it. *)
Definition level_state (i : adaptive_input) : Z :=
  if in_level i <? 0 then CHG_HEALTH_INACTIVE
  else if in_level i <=? in_soc i then CHG_HEALTH_ACTIVE else CHG_HEALTH_ENABLED.

Inductive adaptive (i : adaptive_input) (s : Z) : Z -> Prop :=
| ad_final : ~ live s -> adaptive i s s
| ad_levels : live s -> in_cclvl i = true -> adaptive i s CHG_HEALTH_CCLVL_DISABLED
| ad_overheat : live s -> in_cclvl i = false -> in_overheat i = true ->
    adaptive i s CHG_HEALTH_BD_DISABLED
| ad_full : live s -> in_cclvl i = false -> in_overheat i = false -> in_ttf i = Some 0 ->
    adaptive i s CHG_HEALTH_DONE
| ad_late ttf : live s -> in_cclvl i = false -> in_overheat i = false -> in_ttf i = Some ttf ->
    ttf <> 0 -> late i s ttf -> adaptive i s CHG_HEALTH_DISABLED
| ad_pause ttf : in_cclvl i = false -> in_overheat i = false -> in_ttf i = Some ttf -> 0 < ttf ->
    in_aon i = false -> s = CHG_HEALTH_ACTIVE \/ s = CHG_HEALTH_PAUSE -> ~ late i s ttf ->
    0 < in_margin i -> HEALTH_PAUSE_MIN_SSOC <= in_soc i <= HEALTH_PAUSE_MAX_SSOC ->
    s64 (in_now i + ttf + HEALTH_SAFETY_MARGIN_AHEAD (in_margin i) + HEALTH_PAUSE_DEBOUNCE) <
      in_deadline i -> adaptive i s CHG_HEALTH_PAUSE
| ad_charge ttf : live s -> in_cclvl i = false -> in_overheat i = false -> in_ttf i = Some ttf ->
    ttf <> 0 -> ~ late i s ttf -> adaptive i s (level_state i).

(** The current of a state, for a battery of [capacity] mAh. *)
Definition adaptive_current (capacity : Z) (h : batt_chg_health) (s : Z) : Z :=
  if (s =? CHG_HEALTH_ACTIVE) || (s =? CHG_HEALTH_DONE) then s32 (s32 capacity * h_rest_rate h * 10)
  else if s =? CHG_HEALTH_ENABLED then s32 (s32 capacity * h_rest_rate_before_trigger h * 10)
  else if s =? CHG_HEALTH_PAUSE then 0 else -1.

(** ** The code implements it *)

Section refine.
Context `{PowerSupplyTypes} `{Elections}.

Definition input_of (now : Z) (d : batt_drv) (ttf : option Z) : adaptive_input := {|
  in_aon := negb (h_always_on_soc (d_health d) =? -1);
  in_cclvl := has_flag (d_cs d) GBMS_CS_FLAG_CCLVL;
  in_overheat := e_batt_health (d_env d) =? POWER_SUPPLY_HEALTH_OVERHEAT;
  in_ttf := ttf;
  in_now := now;
  in_deadline := h_rest_deadline (d_health d);
  in_margin := e_health_safety_margin (d_env d);
  in_soc := ssoc_get_capacity (d_ssoc d);
  in_level := health_rest_soc (d_health d);
|}.

Lemma live_test s :
  (s =? CHG_HEALTH_CCLVL_DISABLED) || (s =? CHG_HEALTH_BD_DISABLED) ||
  (s =? CHG_HEALTH_USER_DISABLED) || (s =? CHG_HEALTH_DISABLED) ||
  (s =? CHG_HEALTH_INACTIVE) || (s =? CHG_HEALTH_DONE) = false <-> live s.
Proof. unfold live. rewrite !orb_false_iff, !Z.eqb_neq. tauto. Qed.

Lemma pause_test d ttf now s h :
  msc_health_pause d ttf now s = (true, h) ->
  0 < ttf /\ (s = CHG_HEALTH_ACTIVE \/ s = CHG_HEALTH_PAUSE) /\ 0 < e_health_safety_margin (d_env d) /\
  HEALTH_PAUSE_MIN_SSOC <= ssoc_get_capacity (d_ssoc d) <= HEALTH_PAUSE_MAX_SSOC /\
  s64 (now + ttf + HEALTH_SAFETY_MARGIN_AHEAD (e_health_safety_margin (d_env d)) + HEALTH_PAUSE_DEBOUNCE) <
    h_rest_deadline (d_health d).
Proof.
  unfold msc_health_pause. cbv zeta.
  destruct (Z.leb_spec (e_health_safety_margin (d_env d)) 0); [done|].
  destruct (Z.eqb_spec s CHG_HEALTH_ACTIVE), (Z.eqb_spec s CHG_HEALTH_PAUSE); cbn [negb andb]; try done;
    (destruct (Z.ltb_spec HEALTH_PAUSE_MAX_SSOC (ssoc_get_capacity (d_ssoc d))),
       (Z.ltb_spec (ssoc_get_capacity (d_ssoc d)) HEALTH_PAUSE_MIN_SSOC); cbn [orb]; try done;
     destruct (_ <? HEALTH_PAUSE_DEBOUNCE); [done|]; destruct (_ <? h_active_time _); [done|];
     destruct (Z.ltb_spec 0 ttf), (Z.ltb_spec (s64 (now + ttf + HEALTH_SAFETY_MARGIN_AHEAD
       (e_health_safety_margin (d_env d)) + HEALTH_PAUSE_DEBOUNCE)) (h_rest_deadline (d_health d)));
     cbn [andb]; try done; intros _; auto 10).
Qed.

Lemma late_test i s ttf :
  negb (in_aon i) && ((s =? CHG_HEALTH_ACTIVE) || (s =? CHG_HEALTH_ENABLED)) && (0 <? in_deadline i) &&
  negb (ttf =? -1) && (in_deadline i <? s64 (in_now i + ttf + Z.max 0 (in_margin i))) = true <-> late i s ttf.
Proof.
  unfold late, in_time. rewrite !andb_true_iff, orb_true_iff, !negb_true_iff, !Z.eqb_eq, Z.eqb_neq,
    !Z.ltb_lt, Z.leb_gt. tauto.
Qed.

Lemma next_refines now d rc ttf x o d1 :
  batt_ttf_estimate d = Ret (rc, ttf, set_ttf_est d x) -> health_next now d = Ret (o, d1) ->
  let i := input_of now d (if rc <? 0 then None else Some ttf) in
  let s := entry_state (d_health d) in
  match o with
  | None => rc < 0 /\ live s /\ in_cclvl i = false /\ in_overheat i = false
  | Some s' => adaptive i s s'
  end.
Proof.
  intros Httf. unfold health_next. fold (entry_state (d_health d)). rewrite Httf. run. cbn zeta.
  set (s := entry_state (d_health d)).
  match goal with |- context [if ?c then Ret (Some s, d) else _] => destruct c eqn:El end.
  { intros [= <- <-]. apply ad_final. rewrite <- live_test, El. done. }
  apply live_test in El.
  destruct (has_flag (d_cs d) GBMS_CS_FLAG_CCLVL) eqn:Ec; [intros [= <- <-]; by apply ad_levels|].
  destruct (e_batt_health (d_env d) =? POWER_SUPPLY_HEALTH_OVERHEAT) eqn:Eo;
    [intros [= <- <-]; by apply ad_overheat|].
  destruct (Z.ltb_spec rc 0); [intros [= <- <-]; by split_and!|].
  set (i := input_of now d (Some ttf)).
  destruct (Z.eqb_spec ttf 0) as [->|Hz]; [intros [= <- <-]; by apply ad_full|].
  pose proof (late_test i s ttf) as Hlate. cbn [i input_of in_aon in_deadline in_now in_margin] in Hlate.
  rewrite negb_involutive in Hlate. rewrite ?negb_involutive. change (d_env (set_ttf_est d x)) with (d_env d).
  match goal with |- context [if ?c then Ret (Some CHG_HEALTH_DISABLED, _) else _] => destruct c eqn:Et end.
  { intros [= <- <-]. apply (ad_late _ _ ttf); try done. by apply Hlate. }
  assert (Hnl : ~ late i s ttf) by (intros Hl%Hlate; cbn in Hl; congruence).
  assert (Hgo : forall h', health_rest_soc h' = health_rest_soc (d_health d) ->
    adaptive i s (msc_health_active (set_health (set_ttf_est d x) h'))).
  { intros h' Hh. pose proof (ad_charge i s ttf El Ec Eo eq_refl Hz Hnl) as Ha.
    unfold level_state in Ha. unfold msc_health_active. cbn [d_health d_ssoc set_health set_ttf_est].
    rewrite Hh. exact Ha. }
  destruct (h_always_on_soc (d_health d) =? -1) eqn:Ea; [|intros [= <- <-]; by apply Hgo].
  destruct (msc_health_pause (set_ttf_est d x) ttf now s) as [pause h'] eqn:Ep.
  destruct pause; intros [= <- <-].
  - apply pause_test in Ep as (Q1 & Q2 & Q3 & Q4 & Q5).
    apply (ad_pause _ _ ttf); try done. cbn. by rewrite Ea.
  - apply Hgo. pose proof (pause_frame (set_ttf_est d x) ttf now s) as Hp. rewrite Ep in Hp. apply Hp.
Qed.

(** What the machine asks before it pauses. *)
Lemma adaptive_pause i s : adaptive i s CHG_HEALTH_PAUSE ->
  exists ttf, in_ttf i = Some ttf /\ 0 < ttf /\
    s64 (in_now i + ttf + HEALTH_SAFETY_MARGIN_AHEAD (in_margin i) + HEALTH_PAUSE_DEBOUNCE) < in_deadline i.
Proof.
  remember CHG_HEALTH_PAUSE as p eqn:Ep. destruct 1 as [Hl| | | |? Hl ? ? Ht ? Hla|ttf|ttf]; try done.
  - subst s. unfold live in Hl. exfalso. apply Hl. by vm_compute.
  - eauto.
  - revert Ep. unfold level_state. destruct (_ <? 0); [done|]. by destruct (_ <=? _).
Qed.

(** What it asks before it slows down. *)
Lemma adaptive_slow i s : adaptive i s CHG_HEALTH_ACTIVE ->
  0 <= in_level i <= in_soc i /\
  exists ttf, in_ttf i = Some ttf /\ ttf <> 0 /\
    (in_aon i = false -> s = CHG_HEALTH_ACTIVE \/ s = CHG_HEALTH_ENABLED -> 0 < in_deadline i ->
     ttf <> -1 -> in_time i ttf (Z.max 0 (in_margin i)) = true).
Proof.
  remember CHG_HEALTH_ACTIVE as p eqn:Ep.
  destruct 1 as [Hl| | | |? Hl ? ? Ht ? Hla|ttf|ttf Hl ? ? Ht Hz Hnl]; try done.
  - subst s. unfold live in Hl. exfalso. apply Hl. by vm_compute.
  - revert Ep. unfold level_state. destruct (Z.ltb_spec (in_level i) 0); [done|].
    destruct (Z.leb_spec (in_level i) (in_soc i)); [|done]. intros _. split; [lia|].
    exists ttf. split_and!; [done|done|]. intros Ha Hs Hd Hk.
    destruct (in_time i ttf _) eqn:Et; [done|]. by destruct Hnl.
Qed.

(** C30. Adaptive charging implements its state machine: every poll of a well-formed driver is
    one step of [adaptive] from the state that the always-on level selects, with the current
    of the new state; only when there is no estimate of the time to full, and charging is
    neither finished nor refused, everything stays as it is. A step pauses charging only when
    the battery would still be full by the deadline, the safety margin with its 25 minutes and
    the debounce time early. It slows charging down only from the level on, and, where no
    always-on level is set, charging was enabled or slowed before, there is a deadline and the
    estimate is known, only when the battery would still be full by the deadline, the safety
    margin early; from a pause, with an always-on level or with an unknown estimate the code
    does not look at the deadline. *)
Theorem adaptive_charging_refines top t0 now d :
  drv_ok top t0 d ->
  exists b d' rc ttf x,
    msc_logic_health now d = Ret (b, d') /\ drv_ok top t0 d' /\
    batt_ttf_estimate d = Ret (rc, ttf, set_ttf_est d x) /\
    let i := input_of now d (if rc <? 0 then None else Some ttf) in
    let s := entry_state (d_health d) in let h' := d_health d' in
    (rc < 0 /\ live s /\ in_cclvl i = false /\ in_overheat i = false /\
       h_rest_state h' = h_rest_state (d_health d) /\ h_rest_cc_max h' = h_rest_cc_max (d_health d)) \/
    (adaptive i s (h_rest_state h') /\
       h_rest_cc_max h' = adaptive_current (capacity_ma (limits (d_profile d))) (d_health d) (h_rest_state h') /\
       (h_rest_state h' = CHG_HEALTH_PAUSE -> 0 < ttf /\
          s64 (now + ttf + HEALTH_SAFETY_MARGIN_AHEAD (in_margin i) + HEALTH_PAUSE_DEBOUNCE) < in_deadline i) /\
       (h_rest_state h' = CHG_HEALTH_ACTIVE -> 0 <= in_level i <= in_soc i /\
          (in_aon i = false -> s = CHG_HEALTH_ACTIVE \/ s = CHG_HEALTH_ENABLED -> 0 < in_deadline i ->
           ttf <> -1 -> in_time i ttf (Z.max 0 (in_margin i)) = true))).
Proof.
  intros Hd. destruct (ttf_estimate_total top t0 d Hd) as (rc & ttf & x & Httf).
  destruct (health_total top t0 now d Hd) as (b & d' & Hr & Hd' & _ & o & d1 & Hn & Ho).
  destruct (health_next_total top t0 now d Hd) as (o' & d1' & Hn' & _ & Hf & _).
  rewrite Hn in Hn'. injection Hn' as <- <-.
  exists b, d', rc, ttf, x. split; [exact Hr|]. split; [exact Hd'|]. split; [exact Httf|]. cbn zeta.
  pose proof (next_refines now d rc ttf x o d1 Httf Hn) as Hs. cbn zeta in Hs.
  destruct o as [s'|]; [right|left].
  - destruct Ho as [-> Hl]. split; [exact Hs|]. split; [|split; intros E; rewrite E in Hs].
    + revert Hl. unfold health_limits, adaptive_current.
      rewrite (hf_profile _ _ Hf), (hf_rate _ _ Hf), (hf_before _ _ Hf).
      destruct (_ || _).
      * intros (i & _ & Hl)%obind_Ret. apply obind_Ret in Hl as (v & _ & Hl). congruence.
      * destruct (_ =? CHG_HEALTH_ENABLED); [congruence|]. destruct (_ =? CHG_HEALTH_PAUSE); congruence.
    + apply adaptive_pause in Hs as (t & Ht & Hpos & Hdl). cbn in Ht.
      destruct (rc <? 0); [done|]. by injection Ht as <-.
    + apply adaptive_slow in Hs as (Hlev & t & Ht & _ & Hdl). cbn in Ht.
      destruct (rc <? 0); [done|]. by injection Ht as <-.
  - destruct Hs as (? & ? & ? & ?), Ho. by split_and!.
Qed.
End refine.

(** ** An instance *)

(** 90%, slow from 80% on, with ten hours until the deadline. *)
Definition demo_adaptive : batt_drv :=
  set_health (set_ssoc DemoMsc.start (demo_state (percent 90) (percent 90) chg_curve demo_limiter 1))
    (mk_health 80 0 (-1) 36000 0 20 50 CHG_HEALTH_ENABLED (-1) (-1) 0).

Lemma adaptive_charging_refines_witness :
  exists b d', msc_logic_health 100 demo_adaptive = Ret (b, d') /\ drv_ok 4600000 99 d' /\
    h_rest_state (d_health d') = CHG_HEALTH_ACTIVE /\ h_rest_cc_max (d_health d') = 900000.
Proof.
  destruct (adaptive_charging_refines 4600000 99 100 demo_adaptive) as (b & d' & _ & _ & _ & H1 & H2 & _).
  - destruct DemoMsc.start_drv. by split.
  - exists b, d'. split; [exact H1|]. split; [exact H2|]. vm_compute in H1.
    apply Ret_inj in H1. injection H1 as <- <-. split; reflexivity.
Defined.
