(* ===== verification/MscDefects.v ===== *)
(** Runs of multi step charging and adaptive charging (src/bms/google_battery.c) in which the
    code does not do what its comments say, or reads outside the charge table. *)

From Stdlib Require Import String.
From S2P Require Import Prelude GvSpec GbmsProfile GbmsLookup GbmsCharge Ttf TtfPower Ssoc SsocDemo.
From S2P Require Import Msc MscDrv MscHealth MscLogic MscTable MscSafe MscRun MscDemo MscVote.

(** Charging in tier [vi] of row [ti], no counter running. *)
Definition in_tier (ti vi fv : Z) (switch : Z) : msc_algo :=
  mk_algo ti vi vi fv 1000000 0 30000 0 0 0 switch MSC_NYET 0 false.

(** In the last tier of the last row, where a table may hold 0, the current of the next
    tier is read after the end of the table. *)
Example next_tier_reads_past_table :
  GBMS_CCCM_LIMITS DemoProfile.prof 1 2 = Ret 0 /\
  msc_branch DemoMsc.settings DemoProfile.prof (DemoMsc.cs 1 9 4300) (in_tier 1 2 4400000 0)
    4390000 100000 250 1 = Undef.
Proof. split; vm_compute; reflexivity. Qed.

(** In the last tier of another row it is the first current of the next row, warmer: a
    battery that is done in the cold row counts towards a switch. *)
Definition cold_done : gbms_chg_profile :=
  with_limits (with_cccm (Some [2000000; 2000000; 0; 4000000; 3000000; 1500000]) DemoMsc.lims) DemoMsc.prof.

Example next_tier_reads_next_row :
  GBMS_CCCM_LIMITS cold_done 0 2 = Ret 0 /\
  (let* r := msc_branch DemoMsc.settings cold_done (DemoMsc.cs 1 9 4300) (in_tier 0 2 4400000 0)
               4390000 100000 50 0 in Ret r.1.1.1) = Ret MSC_NYET.
Proof. split; vm_compute; reflexivity. Qed.

(** The switch to the next tier may stay in the tier: the index is looked up again from the
    battery voltage, which may be far under the voltage of the tier. *)
Example next_tier_is_same_tier :
  (let* r := msc_decide DemoMsc.settings DemoMsc.prof (DemoMsc.cs 1 9 4300) (in_tier 1 0 4200000 3)
               4000000 1000000 250 1 in
   Ret (r.1.1.1, m_vbatt_idx r.1.1.2, a_checked_tier_switch_cnt r.1.2)) = Ret (MSC_NEXT, 0, 0).
Proof. vm_compute. reflexivity. Qed.

(** The first poll that is too hot withdraws every vote of the battery on the current and
    casts none of 0; only the next one does. *)
Definition enabled_fcc (skip : nat) (d : batt_drv) : list (string * Z) :=
  fst <$> filter (fun ev => ev.2 = true) (fcc_votes (drop skip (d_votes d))).

Definition hot (now : Z) : drv_event :=
  EvReport now (DemoMsc.gauge 500 1500000 4150000) (DemoMsc.cs 1 1 4300) DemoMsc.prof.

Example hot_poll_withdraws_votes :
  enabled_fcc 0 DemoMsc.charging = [(MSC_LOGIC_VOTER, 4000000)] /\
  (let* d := drv_step (hot 130) DemoMsc.charging in
   Ret (enabled_fcc (length (d_votes DemoMsc.charging)) d)) = Ret [] /\
  (let* d := drv_step (hot 130) DemoMsc.charging in
   let* d' := drv_step (hot 160) d in
   Ret (enabled_fcc (length (d_votes d)) d')) = Ret [(SW_JEITA_VOTER, 0); (MSC_LOGIC_VOTER, 0)].
Proof. split_and!; vm_compute; reflexivity. Qed.

(** A deadline in a minute is accepted with two hours to full, because the time since boot is
    compared with a time to full. *)
Example short_deadline_is_enabled :
  h_rest_state (batt_health_set_chg_deadline 10000 DemoMsc.health 7200 60).2 = CHG_HEALTH_ENABLED.
Proof. vm_compute. reflexivity. Qed.

(** A deadline that the user disabled in the settings does not survive a disconnect. *)
Example disconnect_forgets_disabled :
  (let* d := msc_disconnect 200 (DemoMsc.gauge 250 0 4150000)
     (set_health DemoMsc.charging (set_deadline DemoMsc.health CHG_HEALTH_USER_DISABLED
        CHG_DEADLINE_SETTING)) in
   Ret (h_rest_state (d_health d), h_rest_deadline (d_health d))) = Ret (CHG_HEALTH_INACTIVE, 0).
Proof. vm_compute. reflexivity. Qed.

(** Without a temperature the fan runs faster in row 2 than in row 3. *)
Definition no_temp (ti : Z) : outcome Z :=
  fan_bt_calculate_level (set_algo DemoMsc.start (in_tier ti 0 4200000 0))
    (mk_gauge None None 0 0 0 0).

Example fan_faster_in_cooler_row : no_temp 2 = Ret FAN_LVL_HIGH /\ no_temp 3 = Ret FAN_LVL_MED.
Proof. split; vm_compute; reflexivity. Qed.

(** A battery under 0 degrees passes the test for the largest temperature of the last
    switch, which compares without sign. *)
Example cold_battery_is_done :
  (msc_next_tier (mk_settings false false 450) DemoMsc.prof (DemoMsc.cs 1 9 4300) (in_tier 0 1 4300000 0)
     100000 (-50) 0 MSC_STEADY 1).1.1 = MSC_DONE.
Proof. vm_compute. reflexivity. Qed.
