(* ===== verification/StorageUse.v ===== *)
(** * Using the storage (src/bms/gbms_storage.c)

    What a driver that keeps a record relies on, from [StorageContract]: the storage stays
    ready, a write that succeeds replaces the record, and no other record changes. *)

From S2P Require Import Prelude GbmsStorage StorageTable StorageContract Ssoc SsocSave.

Section use.
Context {D : Type} (knows : nat -> Z -> bool) (sees : D -> Z -> list Z) (holds : D -> Prop).
#[local] Abbreviation storage := (gbms_storage D).

(** The providers keep their contract and initialization is over. *)
Definition ready (st : storage) : Prop :=
  lawful knows sees holds st /\ gbms_storage_init_done st = true.

(** Nothing but the records in [tags] changed. *)
Definition only (tags : list Z) (st st' : storage) : Prop :=
  forall t, t ∉ tags -> sees (devices st') t = sees (devices st) t.

#[export] Instance only_preorder tags : PreOrder (only tags).
Proof. split; [by intros st t|]. intros a b c Hab Hbc t Ht. by rewrite Hbc, Hab. Qed.

Lemma only_refl tags st : only tags st st.
Proof. reflexivity. Qed.

Lemma only_weaken tags tags' st st' : tags ⊆ tags' -> only tags st st' -> only tags' st st'.
Proof. intros Hs H t Ht. apply H. by intros Hin; apply Ht, Hs. Qed.

Lemma cache_add_init_done tag slot (s : storage) r :
  gbms_cache_add tag slot s = Ret r -> gbms_storage_init_done r.2 = gbms_storage_init_done s.
Proof.
  unfold gbms_cache_add. intros H.
  destruct (gbms_cache_pool s) as [[|free]|], slot as [i|]; try (by simplify_eq).
  apply obind_Ret in H as (p & _ & H). apply obind_Ret in H as (dsc & _ & H).
  apply obind_Ret in H as (loc & _ & H). by simplify_eq.
Qed.

Lemma add_hit_init_done tag (hit : option nat) (s s' : storage) :
  match hit with Some i => let* c := gbms_cache_add tag (Some i) s in Ret c.2 | None => Ret s end
    = Ret s' -> gbms_storage_init_done s' = gbms_storage_init_done s.
Proof.
  destruct hit; [|by intros; simplify_eq]. intros (c & Hc & H)%obind_Ret. simplify_eq.
  by apply cache_add_init_done in Hc.
Qed.

Lemma write_init_done tag data count (s s' : storage) ret :
  gbms_storage_write tag data count s = Ret (ret, s') ->
  gbms_storage_init_done s' = gbms_storage_init_done s.
Proof.
  unfold gbms_storage_write. intros H.
  destruct (negb (gbms_storage_init_done s)); [by simplify_eq|].
  destruct (bool_decide _ && _); [by simplify_eq|]. apply obind_Ret in H as (r & _ & H).
  destruct (r.1 =? - ENOENT); [|by simplify_eq].
  apply obind_Ret in H as ([[[[? ?] d] ?] hit] & _ & H).
  apply obind_Ret in H as (s1 & Hs1 & H). simplify_eq. by apply add_hit_init_done in Hs1.
Qed.

Lemma read_init_done tag data count (s s' : storage) ret b :
  gbms_storage_read tag data count s = Ret (ret, b, s') ->
  gbms_storage_init_done s' = gbms_storage_init_done s.
Proof.
  unfold gbms_storage_read. intros H.
  destruct (negb (gbms_storage_init_done s)); [by simplify_eq|].
  destruct (negb data && _); [by simplify_eq|]. apply obind_Ret in H as (r & _ & H).
  destruct (r.1 =? - ENOENT); [|by simplify_eq].
  apply obind_Ret in H as ([[[[? ?] d] ?] hit] & _ & H).
  apply obind_Ret in H as (s1 & Hs1 & H). simplify_eq. by apply add_hit_init_done in Hs1.
Qed.

Lemma write_ready st tag l n :
  ready st -> 0 <= n <= Z.of_nat (length l) ->
  exists ret st', gbms_storage_write tag (Some l) n st = Ret (ret, st') /\ ready st' /\
    only [tag] st st' /\
    (0 <= ret -> sees (devices st') tag = overlay l n (sees (devices st) tag)).
Proof.
  intros [Hl Hi] Hn.
  destruct (storage_write_lawful knows sees holds st tag l n Hl Hi Hn)
    as (ret & st' & Hw & Hl' & Hnew & Hoth).
  exists ret, st'. split_and!; [done| |intros t Ht; apply Hoth; set_solver|done].
  split; [done|]. by rewrite (write_init_done _ _ _ _ _ _ Hw).
Qed.

Lemma read_ready st tag n :
  ready st -> exists ret b st', gbms_storage_read tag true n st = Ret (ret, b, st') /\
    ready st' /\ devices st' = devices st /\ (0 <= ret -> b = sees (devices st) tag).
Proof.
  intros [Hl Hi].
  destruct (storage_read_lawful knows sees holds st tag true n Hl Hi eq_refl)
    as (ret & b & st' & Hr & _ & Hsee & Hl' & Hd).
  exists ret, b, st'. split_and!; [done| |done|done].
  split; [done|]. by rewrite (read_init_done _ _ _ _ _ _ _ Hr).
Qed.

(** A record that starts with a [u16]. *)
Definition holds_u16 (st : storage) (tag x : Z) : Prop :=
  exists rest, sees (devices st) tag = u16_bytes x ++ rest.

Lemma write_u16_ready st tag x :
  ready st ->
  exists ret st', gbms_storage_write tag (Some (u16_bytes x)) 2 st = Ret (ret, st') /\
    ready st' /\ only [tag] st st' /\ (0 <= ret -> holds_u16 st' tag x).
Proof.
  intros H. destruct (write_ready st tag (u16_bytes x) 2 H) as (ret & st' & ? & ? & ? & Hn);
    [rewrite length_u16_bytes; lia|].
  exists ret, st'. split_and!; [done..|]. intros Hr. unfold holds_u16. rewrite (Hn Hr). by eexists.
Qed.

Lemma read_u16_ready st tag x old :
  ready st -> holds_u16 st tag x -> 0 <= x < 2 ^ 16 ->
  exists ret b st', gbms_storage_read tag true 2 st = Ret (ret, b, st') /\
    ready st' /\ devices st' = devices st /\ (0 <= ret -> u16_stored b old = x).
Proof.
  intros H [rest Hx] Hr. destruct (read_ready st tag 2 H) as (ret & b & st' & ? & ? & ? & Hb).
  exists ret, b, st'. split_and!; [done..|]. intros Hp. rewrite (Hb Hp), Hx. by apply u16_stored_bytes.
Qed.

End use.

#[export] Hint Resolve only_refl : core.
