(* ===== verification/Bhi.v ===== *)
(** * The battery health index: data and metrics (src/bms/google_battery.c)

    The driver condenses the age of the battery into indices of a hundredth of a percent:
    capacity left, resistance, and the time spent nearly full.  This file has the state
    ([struct health_data] and what it is computed from), the fuel gauge as a class, the
    filter of the resistance, the counters, and the indices.  [BhiUpdate.v] composes them. *)

From Stdlib Require Import String.
From S2P Require Import Prelude GbmsProfile GbmsStorage Eeprom Ssoc.

(** ** Constants *)

Definition BHI_MARGINAL_THRESHOLD_DEFAULT : Z := 80.
Definition BHI_NEED_REP_THRESHOLD_DEFAULT : Z := 70.
Definition BHI_CCBIN_INDEX_LIMIT : Z := 90.
Definition BHI_ALGO_FULL_HEALTH : Z := 10000.
Definition BHI_ALGO_ROUND_INDEX : Z := 50.
Definition BHI_CC_MARGINAL_THRESHOLD_DEFAULT : Z := 800.
Definition BHI_CC_NEED_REP_THRESHOLD_DEFAULT : Z := 1000.
Definition BHI_CAPACITY_MIN : Z := 0.
Definition BHI_CAPACITY_MAX : Z := 0xFFFF.
Definition BHI_CYCLE_GRACE_DEFAULT : Z := 200.
Definition BHI_INDI_CAP_DEFAULT : Z := 85.
Definition BHI_TREND_POINTS_SIZE : Z := 10.
Definition GBMS_CCBIN_BUCKET_COUNT : Z := 10.
Definition BATT_TEMP_RECORD_THR : nat := 3.
Definition BATT_SD_MAX_HOURS : Z := 15120.
Definition SAVE_UNIT : Z := 3600.
Definition ONE_HR_SEC : Z := 3600.
Definition ONE_YEAR_HRS : Z := 24 * 365.

Definition DEFAULT_RES_TEMP_LOW : Z := 350.
Definition DEFAULT_RES_TEMP_HIGH : Z := 390.
Definition DEFAULT_RAVG_SOC_LOW : Z := 5.
Definition DEFAULT_RAVG_SOC_HIGH : Z := 75.
Definition DEFAULT_RES_FILT_LEN : Z := 10.

Definition BHI_ALGO_DISABLED : Z := 0.
Definition BHI_ALGO_CYCLE_COUNT : Z := 1.
Definition BHI_ALGO_ACHI : Z := 2.
Definition BHI_ALGO_ACHI_B : Z := 3.
Definition BHI_ALGO_ACHI_RECAL : Z := 4.
Definition BHI_ALGO_ACHI_RAVG_B : Z := 5.
Definition BHI_ALGO_MIX_N_MATCH : Z := 6.
Definition BHI_ALGO_DEBUG : Z := 7.
Definition BHI_ALGO_INDI : Z := 8.
Definition BHI_ALGO_DTOOL : Z := 9.
Definition BHI_ALGO_ACHI_FCR : Z := 10.
Definition BHI_ALGO_ACHI_CARETAKER : Z := 11.
Definition BHI_ALGO_MAX : Z := 12.

Definition BH_UNKNOWN : Z := -1.
Definition BH_NOMINAL : Z := 0.
Definition BH_MARGINAL : Z := 1.
Definition BH_NEEDS_REPLACEMENT : Z := 2.
Definition BH_NOT_AVAILABLE : Z := 4.
Definition BH_INCONSISTENT : Z := 5.

Definition REC_MODE_RESET : Z := 0.
Definition REC_MODE_BEST_TIME : Z := 1.
Definition REC_MODE_IMMEDIATE : Z := 2.
Definition REC_MODE_RESTART : Z := 3.
Definition REC_STATE_OK : Z := 0.
Definition REC_STATE_SCHEDULED : Z := 1.

Definition BHI_ROUND_INDEX (index : Z) : Z := cdiv (s32 (index + BHI_ALGO_ROUND_INDEX)) 100.

(** Division as C defines it; a signed result wraps around where the caller says so. *)
Definition quot_c (a b : Z) : outcome Z := if b =? 0 then Undef else Ret (cdiv a b).

(** ** The fuel gauge

    The battery driver reads and writes the properties of whichever gauge the board has.
    [gbms_get_property] gives a status and, on success, a value. *)

Inductive bhi_prop :=
| CAPACITY_FADE_RATE | CAPACITY_FADE_RATE_FCR | CHARGE_FULL_DESIGN | CHARGE_FULL | GAUGE_HEALTH
| HEALTH_ACT_IMPEDANCE | BATTERY_AGE | RECAL_FG | RESISTANCE | BATT_ID | AAFV_OFFSET | TEMPERATURE.

#[global] Instance bhi_prop_eq_dec : EqDecision bhi_prop.
Proof. solve_decision. Defined.

Class FuelGauge (G : Type) := {
  gbms_get_property : bhi_prop -> G -> Z * Z;
  gbms_set_property : bhi_prop -> Z -> G -> Z * G;
}.

Definition POWER_SUPPLY_HEALTH_CALIBRATION_REQUIRED : Z := 10.

(** [gpsy_get_prop] on the gauge: the value, or the error, and the status; all are [int]. *)
Definition gauge_get_prop {G} `{!FuelGauge G} (p : bhi_prop) (g : G) : Z * Z :=
  let '(ret, v) := gbms_get_property p g in
  if s32 ret <? 0 then (s32 ret, s32 ret) else (s32 v, s32 ret).

Definition GPSY_GET_PROP {G} `{!FuelGauge G} (p : bhi_prop) (g : G) : Z := (gauge_get_prop p g).1.

Definition GPSY_SET_PROP {G} `{!FuelGauge G} (p : bhi_prop) (v : Z) (g : G) : Z * G :=
  let '(ret, g) := gbms_set_property p (s32 v) g in (s32 ret, g).

(** ** Data *)

(** [struct batt_res]; the average is in units of a hundred. *)
Record batt_res := mk_res {
  r_requested : bool;
  r_accumulator : Z;
  r_sample_count : Z;
  r_filter_count : Z;
  r_avg : Z;
  r_estimate_filter : Z;
  r_soc_low : Z;
  r_soc_high : Z;
  r_temp_low : Z;
  r_temp_high : Z;
}.

Record bhi_capacity_bound := mk_bound { cb_limit : list Z; cb_trigger : list Z }.
Record bm_date := mk_date { bm_y : Z; bm_m : Z; bm_d : Z }.

(** [struct bhi_data]. *)
Record bhi_data := mk_bhi_data {
  bd_cycle_count : Z;
  bd_battery_age : Z;
  bd_pack_capacity : Z;
  bd_fade : Z;
  bd_fade_fcr : Z;
  bd_act_impedance : Z;
  bd_cur_impedance : Z;
  bd_res : batt_res;
  bd_swell_cumulative : Z;
  bd_ccbin_index : Z;
  bd_bm_date : bm_date;
  bd_act_date : list Z;
  bd_first_usage_date : Z;
  bd_trend : list Z;
  bd_lower : bhi_capacity_bound;
  bd_upper : bhi_capacity_bound;
}.

Definition set_age (b : bhi_data) (cycles age : Z) :=
  mk_bhi_data cycles age (bd_pack_capacity b) (bd_fade b) (bd_fade_fcr b) (bd_act_impedance b)
    (bd_cur_impedance b) (bd_res b) (bd_swell_cumulative b) (bd_ccbin_index b) (bd_bm_date b)
    (bd_act_date b) (bd_first_usage_date b) (bd_trend b) (bd_lower b) (bd_upper b).
Definition set_fade (b : bhi_data) (fade fade_fcr : Z) :=
  mk_bhi_data (bd_cycle_count b) (bd_battery_age b) (bd_pack_capacity b) fade fade_fcr
    (bd_act_impedance b) (bd_cur_impedance b) (bd_res b) (bd_swell_cumulative b)
    (bd_ccbin_index b) (bd_bm_date b) (bd_act_date b) (bd_first_usage_date b) (bd_trend b)
    (bd_lower b) (bd_upper b).
Definition set_impedance (b : bhi_data) (act cur : Z) :=
  mk_bhi_data (bd_cycle_count b) (bd_battery_age b) (bd_pack_capacity b) (bd_fade b)
    (bd_fade_fcr b) act cur (bd_res b) (bd_swell_cumulative b) (bd_ccbin_index b) (bd_bm_date b)
    (bd_act_date b) (bd_first_usage_date b) (bd_trend b) (bd_lower b) (bd_upper b).
Definition set_res (b : bhi_data) (r : batt_res) :=
  mk_bhi_data (bd_cycle_count b) (bd_battery_age b) (bd_pack_capacity b) (bd_fade b)
    (bd_fade_fcr b) (bd_act_impedance b) (bd_cur_impedance b) r (bd_swell_cumulative b)
    (bd_ccbin_index b) (bd_bm_date b) (bd_act_date b) (bd_first_usage_date b) (bd_trend b)
    (bd_lower b) (bd_upper b).
Definition set_swell (b : bhi_data) (cumulative ccbin : Z) :=
  mk_bhi_data (bd_cycle_count b) (bd_battery_age b) (bd_pack_capacity b) (bd_fade b)
    (bd_fade_fcr b) (bd_act_impedance b) (bd_cur_impedance b) (bd_res b) cumulative ccbin
    (bd_bm_date b) (bd_act_date b) (bd_first_usage_date b) (bd_trend b) (bd_lower b) (bd_upper b).
Definition set_dates (b : bhi_data) (bm : bm_date) (act : list Z) :=
  mk_bhi_data (bd_cycle_count b) (bd_battery_age b) (bd_pack_capacity b) (bd_fade b)
    (bd_fade_fcr b) (bd_act_impedance b) (bd_cur_impedance b) (bd_res b) (bd_swell_cumulative b)
    (bd_ccbin_index b) bm act (bd_first_usage_date b) (bd_trend b) (bd_lower b) (bd_upper b).
Definition set_bounds (b : bhi_data) (trend : list Z) (lower upper : bhi_capacity_bound) :=
  mk_bhi_data (bd_cycle_count b) (bd_battery_age b) (bd_pack_capacity b) (bd_fade b)
    (bd_fade_fcr b) (bd_act_impedance b) (bd_cur_impedance b) (bd_res b) (bd_swell_cumulative b)
    (bd_ccbin_index b) (bd_bm_date b) (bd_act_date b) (bd_first_usage_date b) trend lower upper.
Definition set_pack (b : bhi_data) (capacity : Z) :=
  mk_bhi_data (bd_cycle_count b) (bd_battery_age b) capacity (bd_fade b) (bd_fade_fcr b)
    (bd_act_impedance b) (bd_cur_impedance b) (bd_res b) (bd_swell_cumulative b)
    (bd_ccbin_index b) (bd_bm_date b) (bd_act_date b) (bd_first_usage_date b) (bd_trend b)
    (bd_lower b) (bd_upper b).

(** The settings in [struct health_data]. *)
Record health_settings := mk_hset {
  hs_algo : Z;
  hs_w_ci : Z;
  hs_w_pi : Z;
  hs_w_sd : Z;
  hs_marginal : Z;
  hs_need_rep : Z;
  hs_cc_marginal : Z;
  hs_cc_need_rep : Z;
  hs_indi_cap : Z;
  hs_cycle_grace : Z;
}.

(** Its debug overrides; zero is off. *)
Record health_debug := mk_hdebug {
  hd_cycle_count : Z;
  hd_cap_index : Z;
  hd_imp_index : Z;
  hd_sd_index : Z;
  hd_health_index : Z;
  hd_health_status : Z;
}.

Definition no_debug : health_debug := mk_hdebug 0 0 0 0 0 0.

(** Its results. *)
Record health_result := mk_hresult {
  hr_index : Z;
  hr_status : Z;
  hr_cap : Z;
  hr_imp : Z;
  hr_sd : Z;
  hr_caretaker : Z;
}.

Record health_data := mk_hdata {
  h_settings : health_settings;
  h_debug : health_debug;
  h_result : health_result;
  h_bhi : bhi_data;
  h_cal_mode : Z;
  h_cal_state : Z;
  h_cal_target : Z;
}.

Definition set_settings (h : health_data) (s : health_settings) :=
  mk_hdata s (h_debug h) (h_result h) (h_bhi h) (h_cal_mode h) (h_cal_state h) (h_cal_target h).
Definition set_hresult (h : health_data) (r : health_result) :=
  mk_hdata (h_settings h) (h_debug h) r (h_bhi h) (h_cal_mode h) (h_cal_state h) (h_cal_target h).
Definition set_bhi (h : health_data) (b : bhi_data) :=
  mk_hdata (h_settings h) (h_debug h) (h_result h) b (h_cal_mode h) (h_cal_state h) (h_cal_target h).
Definition set_cal (h : health_data) (mode state : Z) :=
  mk_hdata (h_settings h) (h_debug h) (h_result h) (h_bhi h) mode state (h_cal_target h).

(** [struct swelling_data]; times in seconds, what is saved in hours. *)
Record swelling_data := mk_sd {
  sd_is_enable : bool;
  sd_temp_thr : list Z;
  sd_soc_thr : list Z;
  sd_saved : list Z;
  sd_chg : list Z;
  sd_dischg : list Z;
  sd_last_update : Z;
}.

Definition set_sd (s : swelling_data) (saved chg dischg : list Z) (last : Z) :=
  mk_sd (sd_is_enable s) (sd_temp_thr s) (sd_soc_thr s) saved chg dischg last.

(** [struct gbatt_ccbin_data]. *)
Record ccbin_data := mk_ccbin { cc_count : list Z; cc_prev_soc : Z }.

(** What the profiles that adjust to the age count and are set to (in [struct batt_drv]). *)
Record age_state := mk_age {
  ag_fake_aacp_cc : Z;
  ag_aacc : Z;
  ag_cut_off_cycles : Z;
  ag_over_cliff : Z;
  ag_over_cutoff : Z;
  ag_last_entry : Z;
  ag_cliff_cycle : Z;
}.

Definition AACP_OPT_OUT_CUT_OFF_DISABLED : Z := -1.

Definition aacp_get_cc (a : age_state) : Z :=
  if negb (ag_fake_aacp_cc a =? 0) then ag_fake_aacp_cc a else ag_aacc a.

(** ** Arrays *)

Lemma at_ret a i x : at_ a i = Ret x <-> 0 <= i /\ a !! Z.to_nat i = Some x.
Proof.
  unfold at_. split.
  - case_test; [done|]. destruct (a !! Z.to_nat i) eqn:E; [|done]. cbn. intros. by simplify_eq.
  - intros [Hi Ha]. rewrite (proj2 (Z.ltb_ge i 0)) by lia. by rewrite Ha.
Qed.

Lemma at_in a i : 0 <= i < Z.of_nat (length a) -> exists x, at_ a i = Ret x.
Proof.
  intros Hi. destruct (lookup_lt_is_Some_2 a (Z.to_nat i)) as [x Hx]; [lia|]. exists x. apply at_ret; split; [lia|done].
Qed.
