(* ===== verification/BhiRes.v ===== *)
(** * The resistance of the battery (src/bms/google_battery.c, google_resistance)

    While charging the driver samples the resistance that the gauge reports; at the end of
    the session it folds the mean of the samples into a running average, which it keeps in
    the battery storage. *)

From Stdlib Require Import String.
From S2P Require Import Prelude GbmsProfile GbmsStorage StorageTable StorageContract StorageUse Eeprom Ssoc Bhi.

(** ** Operations *)

Definition batt_ravg_value (r : batt_res) : Z := s32 (r_avg r * 100).

Definition batt_res_state_set (r : batt_res) (breq : bool) : batt_res :=
  mk_res breq 0 0 (r_filter_count r) (r_avg r) (r_estimate_filter r) (r_soc_low r) (r_soc_high r)
    (r_temp_low r) (r_temp_high r).

Definition set_average (r : batt_res) (count avg : Z) : batt_res :=
  mk_res (r_requested r) (r_accumulator r) (r_sample_count r) count avg (r_estimate_filter r)
    (r_soc_low r) (r_soc_high r) (r_temp_low r) (r_temp_high r).

Definition add_sample (r : batt_res) (x : Z) : batt_res :=
  mk_res (r_requested r) (s32 (r_accumulator r + x)) (s32 (r_sample_count r + 1))
    (r_filter_count r) (r_avg r) (r_estimate_filter r) (r_soc_low r) (r_soc_high r)
    (r_temp_low r) (r_temp_high r).

Definition batt_res_update (r : batt_res) : outcome batt_res :=
  let* new_estimate := quot_c (r_accumulator r) (r_sample_count r) in
  let filter_estimate := s32 (r_avg r * r_filter_count r) in
  let count := s32 (r_filter_count r + 1) in
  let '(count, filter_estimate) :=
    if r_estimate_filter r <? count then (r_estimate_filter r, s32 (filter_estimate - r_avg r))
    else (count, filter_estimate) in
  let total_estimate := s32 (filter_estimate + new_estimate) in
  let* avg := quot_c total_estimate count in
  Ret (set_average r count (s32 avg)).

Section stored.
Context {D : Type}.

Definition batt_ravg_write (resistance_avg filter_count : Z) (st : gbms_storage D)
    : outcome (Z * gbms_storage D) :=
  let ravg := u16 (if 0xffff <? resistance_avg then 0xffff else resistance_avg) in
  let rfcn := u16 (Z.land filter_count 0xffff) in
  let* w := gbms_storage_write GBMS_TAG_RAVG (Some (u16_bytes ravg)) 2 st in
  if w.1 <? 0 then Ret (- EIO, w.2) else
  let* w := gbms_storage_write GBMS_TAG_RFCN (Some (u16_bytes rfcn)) 2 w.2 in
  if w.1 <? 0 then Ret (- EIO, w.2) else Ret (0, w.2).

Definition batt_res_load_data (r : batt_res) (st : gbms_storage D)
    : outcome (batt_res * gbms_storage D) :=
  let* q := gbms_storage_read GBMS_TAG_RAVG true 2 st in
  let '(ret, bytes, st) := q in
  let avg := u16_stored bytes 0 in
  if ret <? 0 then Ret (set_average r 0 avg, st) else
  let* q := gbms_storage_read GBMS_TAG_RFCN true 2 st in
  let '(ret, bytes, st) := q in
  let count := u16_stored bytes 0 in
  if ret <? 0 then Ret (set_average r count avg, st) else
  if (avg =? 0xffff) || (count =? 0xffff) then Ret (set_average r 0 0, st)
  else Ret (set_average r count avg, st).

(** [soc]: [ssoc_get_real]; [temp]: [gbatt_get_raw_temp], [None] when it fails. *)
Definition batt_res_work {G} `{!FuelGauge G} (soc : Z) (temp : option Z) (g : G)
    (r : batt_res) (st : gbms_storage D) : outcome (batt_res * gbms_storage D) :=
  if r_soc_high r <=? soc then
    if 0 <? r_sample_count r then
      let* r := batt_res_update r in
      let* w := batt_ravg_write (r_avg r) (r_filter_count r) st in
      Ret (batt_res_state_set r false, w.2)
    else Ret (batt_res_state_set r false, st)
  else if soc <? r_soc_low r then Ret (r, st)
  else match temp with
  | None => Ret (r, st)
  | Some temp =>
    if (temp <? r_temp_low r) || (r_temp_high r <? temp) then Ret (r, st) else
    let '(resistance, ret) := gauge_get_prop RESISTANCE g in
    if ret <? 0 then Ret (r, st) else Ret (add_sample r (cdiv resistance 100), st)
  end.

(** A debugfs write: [val] is an [u64]. *)
Definition debug_ravg_fops_write (val : Z) (r : batt_res) (st : gbms_storage D)
    : outcome (batt_res * gbms_storage D) :=
  let resistance_avg := s32 (cdiv val 100) in
  let r := set_average (batt_res_state_set r false) 1 resistance_avg in
  let '(a, c) := if val =? 0 then (0xffff, 0xffff) else (resistance_avg, 1) in
  let* w := batt_ravg_write a c st in
  Ret (r, w.2).

End stored.

Definition batt_ravg_init `{DeviceTree} (node : Z) (r : batt_res) : Z * batt_res :=
  if of_property_read_bool node "google,no-ravg" then (- ENOENT, r) else
  (0, mk_res (r_requested r) (r_accumulator r) (r_sample_count r) (r_filter_count r) (r_avg r)
        (read_or node "google,res-filt-length" (fun v => s32 v) DEFAULT_RES_FILT_LEN)
        (read_or node "google,ravg-soc-low" (fun v => s32 v) DEFAULT_RAVG_SOC_LOW)
        (read_or node "google,res-soc-thresh" (fun v => s32 v) DEFAULT_RAVG_SOC_HIGH)
        (read_or node "google,res-temp-lo" (fun v => s32 v) DEFAULT_RES_TEMP_LOW)
        (read_or node "google,res-temp-hi" (fun v => s32 v) DEFAULT_RES_TEMP_HIGH)).

(** ** The average *)

(** One step of the filter without the wrap-around. *)
Definition fold_in (filter avg count new : Z) : Z * Z :=
  if filter <? count + 1 then (filter, (avg * count - avg + new) / filter)
  else (count + 1, (avg * count + new) / (count + 1)).

(** Readings lie in [lo, hi]; [n]: no more samples than that. *)
Record res_ok (lo hi n : Z) (r : batt_res) : Prop := {
  ok_count : 0 <= r_sample_count r <= n;
  ok_acc : r_sample_count r * lo <= r_accumulator r <= r_sample_count r * hi;
  ok_filter : 0 <= r_filter_count r <= r_estimate_filter r;
  ok_avg : 0 < r_filter_count r -> lo <= r_avg r <= hi;
  ok_filter_avg : r_filter_count r = 0 -> 0 <= r_avg r <= U16_MAX;
}.

(** The averages fit their type: 2^31 is not reached. *)
Definition res_fits (lo hi n : Z) (r : batt_res) : Prop :=
  0 <= lo <= hi /\ 0 < r_estimate_filter r /\ r_estimate_filter r <= U16_MAX /\
  n * hi < 2 ^ 31 /\ n < 2 ^ 31 /\ (r_estimate_filter r + 1) * hi < 2 ^ 31.

(** The running average is a mean of old average and new estimate. *)
Lemma mean_between lo hi a b k m :
  0 <= k -> 0 <= m -> 0 < k + m -> lo <= a <= hi -> lo <= b <= hi ->
  lo <= (a * k + b * m) / (k + m) <= hi.
Proof.
  intros Hk Hm Hkm Ha Hb. split.
  - apply Z.div_le_lower_bound; [lia|]. nia.
  - apply Z.div_le_upper_bound; [lia|]. nia.
Qed.

Lemma fold_in_between lo hi filter avg count new :
  0 < filter -> 0 <= count <= filter -> (0 < count -> lo <= avg <= hi) -> lo <= new <= hi ->
  let '(count', avg') := fold_in filter avg count new in
  0 < count' <= filter /\ lo <= avg' <= hi.
Proof.
  intros Hf Hc Ha Hn. unfold fold_in. case_test; (split; [lia|]).
  - assert (count = filter) as -> by lia.
    destruct (decide (filter = 1)) as [->|]; [rewrite Z.div_1_r; lia|].
    replace (avg * filter - avg + new) with (avg * (filter - 1) + new * 1) by ring.
    replace filter with (filter - 1 + 1) at 2 4 by ring. apply mean_between; lia.
  - destruct (decide (count = 0)) as [->|].
    + replace (avg * 0 + new) with new by lia. rewrite Z.div_1_r. lia.
    + replace (avg * count + new) with (avg * count + new * 1) by ring. apply mean_between; lia.
Qed.

Lemma res_update_ok lo hi n r :
  res_ok lo hi n r -> res_fits lo hi n r -> 0 < r_sample_count r ->
  exists new, lo <= new <= hi /\ new = r_accumulator r / r_sample_count r /\
    batt_res_update r = Ret (let '(c, a) := fold_in (r_estimate_filter r) (r_avg r)
                                              (r_filter_count r) new in set_average r c a) /\
    res_ok lo hi n (let '(c, a) := fold_in (r_estimate_filter r) (r_avg r)
                                     (r_filter_count r) new in set_average r c a).
Proof.
  intros [Hc Ha Hf Hv Hv0] (Hl & Hf0 & Hf1 & Hn & Hn1 & Hb) Hs.
  set (new := r_accumulator r / r_sample_count r).
  assert (Hnew : lo <= new <= hi).
  { subst new. split; [apply Z.div_le_lower_bound; lia|apply Z.div_le_upper_bound; lia]. }
  pose proof (fold_in_between lo hi (r_estimate_filter r) (r_avg r) (r_filter_count r) new
                Hf0 Hf Hv Hnew) as Hfold.
  exists new. split; [done|split; [done|split]].
  - unfold batt_res_update, quot_c. rewrite (proj2 (Z.eqb_neq _ 0)) by lia. run.
    rewrite Z.quot_div_nonneg by (assert (0 <= r_sample_count r * lo) by nia; lia). fold new.
    assert (Hp : 0 <= r_avg r * r_filter_count r <= r_estimate_filter r * hi /\
                 (0 < r_filter_count r -> r_avg r <= r_avg r * r_filter_count r)).
    { destruct (decide (r_filter_count r = 0)) as [E|E]; [rewrite E; split; nia|].
      specialize (Hv ltac:(lia)). split; nia. }
    unfold U16_MAX in *. rewrite (swrap_id 32 (r_avg r * r_filter_count r)) by lia.
    rewrite (swrap_id 32 (r_filter_count r + 1)) by lia.
    unfold fold_in in *. case_test.
    + rewrite (swrap_id 32 (_ - _)) by lia. rewrite (swrap_id 32 (_ + new)) by lia.
      rewrite (proj2 (Z.eqb_neq _ 0)) by lia. run. rewrite Z.quot_div_nonneg by lia.
      rewrite swrap_id by nia. done.
    + rewrite (swrap_id 32 (_ + new)) by lia.
      rewrite (proj2 (Z.eqb_neq _ 0)) by lia. run. rewrite Z.quot_div_nonneg by lia.
      rewrite swrap_id by nia. done.
  - destruct (fold_in _ _ _ _) as [c a]. destruct Hfold as [Hc' Ha'].
    split; cbn -[Z.mul]; lia.
Qed.

(** ** Sessions *)

(** What happens to the filter: a connection or a disconnection ([batt_res_state_set]), or a
    poll with the level, the temperature and the state of the gauge. *)
Inductive res_event (G : Type) :=
| ResSet (breq : bool)
| ResWork (soc : Z) (temp : option Z) (g : G).
Arguments ResSet {G} _.
Arguments ResWork {G} _ _ _.

Section sessions.
Context {G D : Type} `{!FuelGauge G}.
Context (knows : nat -> Z -> bool) (sees : D -> Z -> list Z) (holds : D -> Prop).
#[local] Abbreviation ready := (ready knows sees holds).
#[local] Abbreviation only := (only sees).
#[local] Abbreviation holds_u16 := (holds_u16 sees).

Definition res_step (e : res_event G) (s : batt_res * gbms_storage D)
    : outcome (batt_res * gbms_storage D) :=
  match e with
  | ResSet breq => Ret (batt_res_state_set s.1 breq, s.2)
  | ResWork soc temp g => batt_res_work soc temp g s.1 s.2
  end.

Fixpoint res_run (es : list (res_event G)) (s : batt_res * gbms_storage D)
    : outcome (batt_res * gbms_storage D) :=
  match es with
  | [] => Ret s
  | e :: es => let* s := res_step e s in res_run es s
  end.

(** The gauge reports resistances between [100 * lo] and [100 * hi], or an error. *)
Definition reads_within (lo hi : Z) (e : res_event G) : Prop :=
  match e with
  | ResWork _ _ g => 0 <= (gauge_get_prop RESISTANCE g).2 ->
      100 * lo <= (gauge_get_prop RESISTANCE g).1 < 100 * hi + 100
  | ResSet _ => True
  end.

Lemma fits_settings lo hi n r r' :
  r_estimate_filter r' = r_estimate_filter r -> res_fits lo hi n r -> res_fits lo hi n r'.
Proof. intros He H. unfold res_fits in *. by rewrite He. Qed.

Lemma ravg_write_ready avg count st :
  ready st -> 0 <= avg -> 0 <= count <= U16_MAX ->
  exists ret st', batt_ravg_write avg count st = Ret (ret, st') /\ ready st' /\
    only [GBMS_TAG_RAVG; GBMS_TAG_RFCN] st st' /\
    (ret = 0 \/ ret = - EIO) /\
    (ret = 0 -> holds_u16 st' GBMS_TAG_RAVG (Z.min avg 0xffff) /\ holds_u16 st' GBMS_TAG_RFCN count).
Proof.
  intros Hst Ha Hc. unfold batt_ravg_write, U16_MAX in *.
  replace (u16 (if 0xffff <? avg then 0xffff else avg)) with (Z.min avg 0xffff).
  2: { case_test; rewrite wrap_id; lia. }
  change 0xffff with (Z.ones 16) at 2. rewrite Z.land_ones, (Z.mod_small count), (wrap_id 16 count) by lia.
  destruct (write_u16_ready knows sees holds st GBMS_TAG_RAVG (Z.min avg 0xffff) Hst)
    as (ret & st1 & -> & Hst1 & Ho1 & Hn1). run.
  assert (Ho1' : only [GBMS_TAG_RAVG; GBMS_TAG_RFCN] st st1)
    by (eapply only_weaken; [|exact Ho1]; set_solver).
  destruct (Z.ltb_spec ret 0); [eexists _, _; split_and!; [done..|by right|done]|].
  destruct (write_u16_ready knows sees holds st1 GBMS_TAG_RFCN count Hst1)
    as (ret2 & st2 & -> & Hst2 & Ho2 & Hn2). run.
  assert (Ho2' : only [GBMS_TAG_RAVG; GBMS_TAG_RFCN] st st2).
  { etrans; [exact Ho1'|]. eapply only_weaken; [|exact Ho2]; set_solver. }
  destruct (Z.ltb_spec ret2 0); [eexists _, _; split_and!; [done..|by right|done]|].
  eexists _, _; split_and!; [done..|by left|]. intros _. split; [|by apply Hn2].
  destruct (Hn1 ltac:(lia)) as [rest Hr]. exists rest. rewrite <- Hr. apply Ho2. set_solver.
Qed.

(** The settings of the filter do not change. *)
Definition same_settings (r r' : batt_res) : Prop :=
  r_estimate_filter r' = r_estimate_filter r /\ r_soc_low r' = r_soc_low r /\
  r_soc_high r' = r_soc_high r /\ r_temp_low r' = r_temp_low r /\ r_temp_high r' = r_temp_high r.

Lemma state_set_ok lo hi n r b : 0 <= n -> res_ok lo hi n r -> res_ok lo hi n (batt_res_state_set r b).
Proof. intros Hn [? ? ? ? ?]. split; cbn -[Z.mul]; lia. Qed.

Lemma res_ok_more lo hi n m r : n <= m -> res_ok lo hi n r -> res_ok lo hi m r.
Proof. intros Hn [? ? ? ? ?]. split; [lia|done..]. Qed.

Lemma add_sample_ok lo hi n r x :
  res_ok lo hi n r -> res_fits lo hi (n + 1) r -> lo <= x <= hi -> res_ok lo hi (n + 1) (add_sample r x).
Proof.
  intros [Hc Ha Hf Hv Hv0] (Hl & _ & _ & Hn & Hn1 & _) Hx.
  assert (0 <= r_sample_count r * lo) by nia.
  assert ((r_sample_count r + 1) * hi <= (n + 1) * hi) by nia.
  split; cbn [add_sample r_sample_count r_accumulator r_filter_count r_estimate_filter r_avg]; try done;
    rewrite (swrap_id 32 (r_sample_count r + 1)) by lia; [lia|].
  rewrite swrap_id by lia. lia.
Qed.

Lemma res_step_ok lo hi n e r st :
  res_ok lo hi n r -> res_fits lo hi (n + 1) r -> reads_within lo hi e -> ready st ->
  exists r' st', res_step e (r, st) = Ret (r', st') /\ res_ok lo hi (n + 1) r' /\
    same_settings r r' /\ ready st' /\ only [GBMS_TAG_RAVG; GBMS_TAG_RFCN] st st'.
Proof.
  intros Hr Hfit He Hst. pose proof (ok_count _ _ _ _ Hr).
  assert (Hr' : res_ok lo hi (n + 1) r) by (eapply res_ok_more; [|done]; lia).
  destruct e as [breq|soc temp g]; cbn [res_step fst snd].
  { eexists _, _; split_and!; [done| |done..]. apply state_set_ok; [lia|done]. }
  unfold batt_res_work. case_test.
  - destruct (Z.ltb_spec 0 (r_sample_count r)) as [Hs|Hs].
    + destruct (res_update_ok lo hi (n + 1) r Hr' Hfit Hs) as (new & _ & _ & -> & Hu). run.
      set (r' := let '(c, a) := _ in _) in *.
      assert (Hset : same_settings r r') by (subst r'; by destruct (fold_in _ _ _ _)).
      assert (Havg : 0 <= r_avg r' /\ 0 <= r_filter_count r' <= U16_MAX).
      { destruct Hu as [_ _ ? ? ?]. destruct Hset as [Hef _]. destruct Hfit as (? & ? & ? & _). lia. }
      destruct (ravg_write_ready (r_avg r') (r_filter_count r') st Hst)
        as (ret & st' & -> & Hst' & Ho & _); [lia..|]. run.
      eexists _, _; split_and!; [done| |done..]. apply state_set_ok; [lia|done].
    + eexists _, _; split_and!; [done| |done..]. apply state_set_ok; [lia|done].
  - assert (Hskip : exists r' st', Ret (r, st) = Ret (r', st') /\ res_ok lo hi (n + 1) r' /\
      same_settings r r' /\ ready st' /\ only [GBMS_TAG_RAVG; GBMS_TAG_RFCN] st st')
      by (eexists _, _; split_and!; done).
    destruct (soc <? r_soc_low r); [done|]. destruct temp as [temp|]; [|done].
    destruct (_ || _); [done|]. cbn [reads_within] in He.
    destruct (gauge_get_prop RESISTANCE g) as [v ret]. cbn [fst snd] in He.
    destruct (Z.ltb_spec ret 0); [done|]. specialize (He ltac:(lia)).
    eexists _, _; split_and!; [done| |done..]. apply add_sample_ok; [done..|].
    destruct Hfit as (? & _). rewrite Z.quot_div_nonneg by lia.
    split; [apply Z.div_le_lower_bound; lia|]. apply Z.lt_succ_r, Z.div_lt_upper_bound; lia.
Qed.

Lemma res_run_ok lo hi n es r st :
  res_ok lo hi n r -> res_fits lo hi (n + Z.of_nat (length es)) r ->
  Forall (reads_within lo hi) es -> ready st ->
  exists r' st', res_run es (r, st) = Ret (r', st') /\
    res_ok lo hi (n + Z.of_nat (length es)) r' /\ same_settings r r' /\ ready st' /\
    only [GBMS_TAG_RAVG; GBMS_TAG_RFCN] st st'.
Proof.
  revert n r st. induction es as [|e es IH]; intros n r st Hr Hfit Hes Hst; cbn [res_run length].
  { eexists _, _; split_and!; [done|by rewrite Z.add_0_r|done..]. }
  apply Forall_cons in Hes as [He Hes].
  pose proof (ok_count _ _ _ _ Hr). cbn [length] in Hfit.
  assert (Hfit1 : res_fits lo hi (n + 1) r).
  { destruct Hfit as (? & ? & ? & ? & ? & ?). split_and!; try done; nia. }
  destruct (res_step_ok lo hi n e r st Hr Hfit1 He Hst) as (r1 & st1 & -> & Hr1 & Hset & Hst1 & Ho). run.
  destruct (IH (n + 1) r1 st1 Hr1) as (r2 & st2 & -> & Hr2 & Hset2 & Hst2 & Ho2); [|done..|].
  { eapply fits_settings; [apply Hset|]. by replace (n + 1 + _) with (n + Z.of_nat (S (length es))) by lia. }
  eexists _, _; split_and!; [done| | |done|by etrans].
  - by replace (n + Z.of_nat _) with (n + 1 + Z.of_nat (length es)) by lia.
  - unfold same_settings in *. intuition congruence.
Qed.

(** C34. The resistance that the driver shows is plausible.  When the gauge reports values in
    a range (or errors), then after any sequence of connections, disconnections and polls,
    with any outcome of the writes to the storage, the driver has returned from each, the
    average is in that range as soon as one session has been folded in, the filter is not
    longer than it is set up to be, and no record but those of the filter has changed.  The sums
    fit an int ([res_fits]): there are fewer than 2^31 events, and their number times the largest
    value, like the length of the filter times it, is below 2^31. *)
Theorem resistance_average_in_range lo hi es r st :
  res_ok lo hi 0 r -> res_fits lo hi (Z.of_nat (length es)) r ->
  Forall (reads_within lo hi) es -> ready st ->
  exists r' st', res_run es (r, st) = Ret (r', st') /\ ready st' /\
    only [GBMS_TAG_RAVG; GBMS_TAG_RFCN] st st' /\
    0 <= r_filter_count r' <= r_estimate_filter r /\
    (0 < r_filter_count r' -> lo <= r_avg r' <= hi) /\
    (0 < r_filter_count r' -> 100 * hi < 2 ^ 31 -> 100 * lo <= batt_ravg_value r' <= 100 * hi).
Proof.
  intros Hr Hfit Hes Hst.
  destruct (res_run_ok lo hi 0 es r st Hr Hfit Hes Hst) as (r' & st' & Hrun & [_ _ Hf Hv _] & [Hef _] & Hst' & Ho).
  rewrite Hef in Hf. exists r', st'. split_and!; try done; try lia.
  intros Hc Hb. specialize (Hv Hc). destruct Hfit as ((? & ?) & _).
  unfold batt_ravg_value. rewrite swrap_id by lia. lia.
Qed.

(** ** Over a reboot *)

(** A read of a record on these devices fails. *)
Definition read_fails (d : D) : Prop :=
  exists tag st ret b st', devices st = d /\ gbms_storage_read tag true 2 st = Ret (ret, b, st') /\ ret < 0.

Lemma load_ready avg count st r :
  ready st -> holds_u16 st GBMS_TAG_RAVG avg -> holds_u16 st GBMS_TAG_RFCN count ->
  0 <= avg <= U16_MAX -> 0 <= count <= U16_MAX ->
  exists r' st', batt_res_load_data r st = Ret (r', st') /\ ready st' /\ devices st' = devices st /\
    (read_fails (devices st) \/
     r' = if (avg =? 0xffff) || (count =? 0xffff) then set_average r 0 0 else set_average r count avg).
Proof.
  intros Hst H1 H2 Ha Hc. unfold batt_res_load_data, U16_MAX in *.
  destruct (read_u16_ready knows sees holds st GBMS_TAG_RAVG avg 0 Hst H1)
    as (ret1 & b1 & st1 & Hr1 & Hst1 & Hd1 & Hb1); [lia|]. rewrite Hr1. run.
  destruct (Z.ltb_spec ret1 0).
  { eexists _, _; split_and!; [done..|]. left. by repeat eexists. }
  assert (H2' : holds_u16 st1 GBMS_TAG_RFCN count) by (unfold StorageUse.holds_u16; by rewrite Hd1).
  destruct (read_u16_ready knows sees holds st1 GBMS_TAG_RFCN count 0 Hst1 H2')
    as (ret2 & b2 & st2 & Hr2 & Hst2 & Hd2 & Hb2); [lia|]. rewrite Hr2. run.
  destruct (Z.ltb_spec ret2 0).
  { eexists _, _; split_and!; [done|done|congruence|]. left. by exists GBMS_TAG_RFCN, st1, ret2, b2, st2. }
  rewrite Hb1, Hb2 by lia. destruct (_ || _) eqn:E; eexists _, _; (split_and!; [done|done|congruence|by right]).
Qed.

(** The average survives a reboot.  When [batt_ravg_write] at the end of a session reports
    success, a driver that starts on the same devices loads the same average and the same
    length of the filter, unless a read of the storage fails, or the average is one that
    the record cannot hold. *)
Theorem resistance_survives_reboot lo hi n r st :
  res_ok lo hi n r -> res_fits lo hi n r -> ready st -> hi < 0xffff ->
  r_estimate_filter r < 0xffff -> 0 < r_filter_count r ->
  exists ret st', batt_ravg_write (r_avg r) (r_filter_count r) st = Ret (ret, st') /\
    (ret = 0 \/ ret = - EIO) /\
    (ret = 0 -> forall st2 r0, ready st2 -> devices st2 = devices st' ->
      exists st3, batt_res_load_data r0 st2 = Ret (set_average r0 (r_filter_count r) (r_avg r), st3) \/
        exists r1, batt_res_load_data r0 st2 = Ret (r1, st3) /\ read_fails (devices st')).
Proof.
  intros [_ _ Hf Hv _] (Hl & _) Hst Hhi Hef Hc. specialize (Hv Hc).
  destruct (ravg_write_ready (r_avg r) (r_filter_count r) st Hst)
    as (ret & st' & Hw & Hst' & _ & He & Hok); [unfold U16_MAX; lia..|].
  exists ret, st'. split_and!; [done..|]. intros Hret st2 r0 Hst2 Hdev. destruct (Hok Hret) as [H1 H2].
  rewrite Z.min_l in H1 by lia.
  destruct (load_ready (r_avg r) (r_filter_count r) st2 r0 Hst2) as (r1 & st3 & Hload & _ & _ & Hcase);
    [by unfold StorageUse.holds_u16; rewrite Hdev|by unfold StorageUse.holds_u16; rewrite Hdev|unfold U16_MAX; lia|unfold U16_MAX; lia|].
  exists st3. destruct Hcase as [Hcase| ->]; [right; exists r1; by rewrite <- Hdev|left].
  rewrite !(proj2 (Z.eqb_neq _ 0xffff)) in Hload by lia. done.
Qed.

End sessions.
