(* ===== verification/BhiSwell.v ===== *)
(** * Time at a high charge (src/bms/google_battery.c, swelling_data and gbatt_ccbin_data)

    Two things make a battery swell: heat while it is full, whose time is accumulated in
    [swelling_data], and the share of charging that happens near the top, which follows from
    the counts of the percents that were charged ([ccbin_data]). *)

From S2P Require Import Prelude GbmsProfile GbmsStorage StorageTable StorageContract StorageUse.
From S2P Require Import Eeprom Ssoc SsocSave Bhi.

(** ** Operations on the hot times *)

(** [sd->x[i]] for an index in range. *)
Definition put_ (a : list Z) (i : Z) (x : Z) : outcome (list Z) :=
  let* _ := at_ a i in Ret (<[Z.to_nat i := x]> a).

(** The [u16] array [l] as bytes, and one read from bytes. *)
Definition u16s_bytes (l : list Z) : list Z := l ≫= u16_bytes.

Fixpoint u16s_stored (bytes old : list Z) : list Z :=
  match old with
  | [] => []
  | x :: old => u16_stored (take 2 bytes) x :: u16s_stored (drop 2 bytes) old
  end.

Definition saved_hours (t : Z) : Z :=
  u16 (if cdiv t SAVE_UNIT <? BATT_SD_MAX_HOURS then cdiv t SAVE_UNIT else BATT_SD_MAX_HOURS).

(** The turns from [i] on; whether anything changed, and what is saved. *)
Fixpoint save_sd_loop (turns : nat) (i : Z) (s : swelling_data) (saved : list Z) (changed : bool)
    : outcome (bool * list Z) :=
  match turns with
  | O => Ret (changed, saved)
  | S turns =>
    let j := i + Z.of_nat BATT_TEMP_RECORD_THR in
    let* c := at_ (sd_chg s) i in
    let* d := at_ (sd_dischg s) i in
    let* si := at_ saved i in
    let* sj := at_ saved j in
    if (si <? saved_hours c) || (sj <? saved_hours d) then
      let* saved := put_ saved i (saved_hours c) in
      let* saved := put_ saved j (saved_hours d) in
      save_sd_loop turns (i + 1) s saved true
    else save_sd_loop turns (i + 1) s saved changed
  end.

Section stored.
Context {D : Type}.

Definition gbatt_save_sd (s : swelling_data) (st : gbms_storage D)
    : outcome (swelling_data * gbms_storage D) :=
  let* r := save_sd_loop BATT_TEMP_RECORD_THR 0 s (sd_saved s) false in
  let '(changed, saved) := r in
  if negb (changed : bool) then Ret (s, st) else
  let s := set_sd s saved (sd_chg s) (sd_dischg s) (sd_last_update s) in
  let* w := gbms_storage_write GBMS_TAG_STRD (Some (u16s_bytes (sd_saved s))) 12 st in
  Ret (s, w.2).

(** The turns of [gbatt_record_over_temp]; the temperature is compared as an [u32]. *)
Fixpoint record_loop (turns : nat) (i : Z) (charge : bool) (temp soc elap : Z)
    (s : swelling_data) (update : bool) : outcome (bool * swelling_data) :=
  match turns with
  | O => Ret (update, s)
  | S turns =>
    let* thr := at_ (sd_temp_thr s) i in
    let* ts := at_ (sd_soc_thr s) i in
    if (u32 temp <? thr) || (u32 soc <? ts)
    then record_loop turns (i + 1) charge temp soc elap s update
    else
      let* s :=
        if charge then
          let* c := at_ (sd_chg s) i in
          let* chg := put_ (sd_chg s) i (s64 (c + elap)) in
          Ret (set_sd s (sd_saved s) chg (sd_dischg s) (sd_last_update s))
        else
          let* d := at_ (sd_dischg s) i in
          let* dischg := put_ (sd_dischg s) i (s64 (d + elap)) in
          Ret (set_sd s (sd_saved s) (sd_chg s) dischg (sd_last_update s)) in
      record_loop turns (i + 1) charge temp soc elap s true
  end.

(** [charge]: the gauge is charging, or full without being done; [soc]: [ssoc_get_real];
    [now]: [get_boot_sec]. *)
Definition gbatt_record_over_temp (charge : bool) (temp soc now : Z) (s : swelling_data)
    (st : gbms_storage D) : outcome (swelling_data * gbms_storage D) :=
  let elap := s64 (now - sd_last_update s) in
  let* r := record_loop BATT_TEMP_RECORD_THR 0 charge temp soc elap s false in
  let* q := if (r.1 : bool) then gbatt_save_sd r.2 st else Ret (r.2, st) in
  Ret (set_sd q.1 (sd_saved q.1) (sd_chg q.1) (sd_dischg q.1) now, q.2).

Definition batt_init_sd (s : swelling_data) (st : gbms_storage D)
    : outcome (Z * swelling_data * gbms_storage D) :=
  if negb (sd_is_enable s) then Ret (0, s, st) else
  let* q := gbms_storage_read GBMS_TAG_STRD true 12 st in
  let '(ret, bytes, st) := q in
  let saved := u16s_stored bytes (sd_saved s) in
  let s := set_sd s saved (sd_chg s) (sd_dischg s) (sd_last_update s) in
  if ret <? 0 then Ret (ret, s, st) else
  let* first := at_ saved 0 in
  if first =? 0xFFFF then
    Ret (ret, set_sd s (replicate 6 0) (sd_chg s) (sd_dischg s) (sd_last_update s), st)
  else
    Ret (ret, set_sd s saved ((fun h => h * SAVE_UNIT) <$> take BATT_TEMP_RECORD_THR saved)
                ((fun h => h * SAVE_UNIT) <$> drop BATT_TEMP_RECORD_THR saved) (sd_last_update s), st).

End stored.

Fixpoint sd_total_loop (turns : nat) (i : Z) (s : swelling_data) (total : Z) : outcome Z :=
  match turns with
  | O => Ret total
  | S turns =>
    let* c := at_ (sd_chg s) i in
    let* d := at_ (sd_dischg s) i in
    sd_total_loop turns (i + 1) s (s32 (total + s64 (cdiv c 3600 + cdiv d 3600)))
  end.

Definition bhi_calc_sd_total (s : swelling_data) : outcome Z :=
  sd_total_loop BATT_TEMP_RECORD_THR 0 s 0.

(** ** Operations on the counts *)

Section counted.
Context {D : Type}.

Definition batt_cycle_count_store (c : ccbin_data) (st : gbms_storage D)
    : outcome (Z * gbms_storage D) :=
  let* w := gbms_storage_write GBMS_TAG_BCNT (Some (u16s_bytes (cc_count c))) 20 st in
  Ret (if (w.1 <? 0) && negb (w.1 =? - ENOENT) then w.1 else 0, w.2).

Definition batt_cycle_count_load (c : ccbin_data) (st : gbms_storage D)
    : outcome (Z * ccbin_data * gbms_storage D) :=
  let* q := gbms_storage_read GBMS_TAG_BCNT true 20 st in
  let '(ret, bytes, st) := q in
  let count := u16s_stored bytes (cc_count c) in
  if (ret <? 0) && negb (ret =? - ENOENT) then Ret (ret, mk_ccbin count (cc_prev_soc c), st) else
  Ret (0, mk_ccbin ((fun x => if x =? 0xFFFF then 0 else x) <$> count) (-1), st).

(** The bucket of the percent that ends at [cnt]. *)
Definition cc_bucket (cnt : Z) : Z := cdiv ((cnt - 1) * GBMS_CCBIN_BUCKET_COUNT) 100.

(** [for (cnt = soc; cnt > prev; cnt--)]: [turns] percents, the highest is [cnt]. *)
Fixpoint count_loop (turns : nat) (cnt : Z) (count : list Z) : outcome (list Z) :=
  match turns with
  | O => Ret count
  | S turns =>
    let* x := at_ count (cc_bucket cnt) in
    let* count := put_ count (cc_bucket cnt) (u16 (x + 1)) in
    count_loop turns (cnt - 1) count
  end.

Definition batt_cycle_count_update (soc : Z) (c : ccbin_data) (st : gbms_storage D)
    : outcome (ccbin_data * gbms_storage D) :=
  if (soc <? 0) || (100 <? soc) then Ret (c, st) else
  if negb (cc_prev_soc c =? -1) && (cc_prev_soc c <? soc) then
    let* count := count_loop (Z.to_nat (soc - cc_prev_soc c)) soc (cc_count c) in
    let* w := batt_cycle_count_store (mk_ccbin count (cc_prev_soc c)) st in
    Ret (mk_ccbin count soc, w.2)
  else Ret (mk_ccbin (cc_count c) soc, st).

End counted.

(** The buckets from [i] on. *)
Fixpoint residency_loop (turns : nat) (i soc_limit : Z) (count : list Z) (under over : Z)
    : outcome (Z * Z) :=
  match turns with
  | O => Ret (under, over)
  | S turns =>
    let* x := at_ count i in
    if x =? 0xFFFF then residency_loop turns (i + 1) soc_limit count under over
    else if i * 10 <? soc_limit
    then residency_loop turns (i + 1) soc_limit count (s32 (under + x)) over
    else residency_loop turns (i + 1) soc_limit count under (s32 (over + x))
  end.

Definition bhi_cycle_count_residency (c : ccbin_data) (soc_limit : Z) : outcome Z :=
  let* r := residency_loop (Z.to_nat GBMS_CCBIN_BUCKET_COUNT) 0 soc_limit (cc_count c) 0 0 in
  let* q := quot_c (s32 (r.1 * BHI_ALGO_FULL_HEALTH)) (s32 (r.1 + r.2)) in
  Ret (s32 q).

(** ** Arrays *)

Lemma put_in a i x : 0 <= i < Z.of_nat (length a) -> put_ a i x = Ret (<[Z.to_nat i := x]> a).
Proof. intros Hi. unfold put_. by destruct (at_in a i Hi) as [y ->]. Qed.

(** ** The counts *)

(** Sixteen bits in every bucket. *)
Definition counts_ok (count : list Z) : Prop :=
  length count = 10%nat /\ Forall (fun x => 0 <= x <= U16_MAX) count.

Lemma bucket_range cnt : 1 <= cnt <= 100 -> 0 <= cc_bucket cnt < 10 /\ cc_bucket cnt = (cnt - 1) / 10.
Proof.
  intros H. unfold cc_bucket, GBMS_CCBIN_BUCKET_COUNT.
  rewrite Z.quot_div_nonneg by lia. replace ((cnt - 1) * 10 / 100) with ((cnt - 1) / 10).
  2: { change 100 with (10 * 10). rewrite Z.div_mul_cancel_r; lia. }
  split; [|done]. split; [apply Z.div_pos; lia|apply Z.div_lt_upper_bound; lia].
Qed.

(** The percents of bucket [b] in [(lo, hi]]. *)
Definition percents (b lo hi : Z) : Z := Z.max 0 (Z.min hi (10 * b + 10) - Z.max lo (10 * b)).

Lemma percents_step b lo hi :
  0 <= lo < hi -> 0 <= b ->
  percents b lo hi = percents b lo (hi - 1) + if (hi - 1) / 10 =? b then 1 else 0.
Proof.
  intros H Hb. unfold percents. pose proof (Z.div_mod (hi - 1) 10 ltac:(lia)).
  pose proof (Z.mod_pos_bound (hi - 1) 10 ltac:(lia)). case_test; lia.
Qed.

Lemma count_loop_ok turns : forall cnt count lo,
  counts_ok count -> 0 <= lo -> cnt <= 100 -> cnt - lo = Z.of_nat turns ->
  exists count', count_loop turns cnt count = Ret count' /\ counts_ok count' /\
    forall b x, count !! b = Some x ->
      exists y, count' !! b = Some y /\ y = u16 (x + percents (Z.of_nat b) lo cnt).
Proof.
  induction turns as [|turns IH]; intros cnt count lo [Hlen Hall] Hlo Hcnt Ht; cbn [count_loop].
  { exists count. split_and!; [done|done|]. intros b x Hx. exists x. split; [done|].
    replace (percents (Z.of_nat b) lo cnt) with 0 by (unfold percents; lia).
    rewrite Z.add_0_r, wrap_id; [done|]. rewrite Forall_lookup in Hall. specialize (Hall b x Hx).
    unfold U16_MAX in Hall. lia. }
  destruct (bucket_range cnt) as [Hb Hbe]; [lia|].
  destruct (at_in count (cc_bucket cnt)) as [x0 Hx0]; [lia|]. rewrite Hx0. run.
  rewrite put_in by lia. run. apply at_ret in Hx0 as [_ Hx0].
  set (count1 := <[Z.to_nat (cc_bucket cnt) := u16 (x0 + 1)]> count).
  destruct (IH (cnt - 1) count1 lo) as (count' & Hrun & Hok & Hval); try lia.
  { subst count1. split; [by rewrite length_insert|]. apply Forall_insert; [done|].
    pose proof (wrap_range 16 (x0 + 1)). unfold U16_MAX. lia. }
  exists count'. split_and!; [done|done|]. intros b x Hx.
  rewrite percents_step by lia.
  destruct (decide (b = Z.to_nat (cc_bucket cnt))) as [->|Hne].
  - rewrite Hx in Hx0. simplify_eq.
    assert (E1 : count1 !! Z.to_nat (cc_bucket cnt) = Some (u16 (x0 + 1))).
    { subst count1. apply list_lookup_insert_eq. lia. }
    destruct (Hval _ _ E1) as (y & Hy & ->). eexists; split; [done|].
    rewrite Z2Nat.id by lia. rewrite Hbe, Z.eqb_refl. rewrite wrap_add_l. f_equal. lia.
  - assert (E1 : count1 !! b = Some x) by (subst count1; rewrite list_lookup_insert_ne; done).
    destruct (Hval _ _ E1) as (y & Hy & ->). eexists; split; [done|].
    rewrite (proj2 (Z.eqb_neq _ _)); [by rewrite Z.add_0_r|]. rewrite <- Hbe. lia.
Qed.

Lemma length_u16s_bytes l : length (u16s_bytes l) = (2 * length l)%nat.
Proof. unfold u16s_bytes. induction l as [|x l IH]; [done|]. cbn [mbind list_bind app length]. cbn in *. lia. Qed.

Section counts.
Context {D : Type} (knows : nat -> Z -> bool) (sees : D -> Z -> list Z) (holds : D -> Prop).
#[local] Abbreviation ready := (ready knows sees holds).

(** Polls with the levels [socs]. *)
Fixpoint count_run (socs : list Z) (c : ccbin_data) (st : gbms_storage D)
    : outcome (ccbin_data * gbms_storage D) :=
  match socs with
  | [] => Ret (c, st)
  | soc :: socs => let* r := batt_cycle_count_update soc c st in count_run socs r.1 r.2
  end.

(** The percents of bucket [b] that were charged in the course of [socs], from level [prev];
    -1 is not known. *)
Fixpoint charged (b prev : Z) (socs : list Z) : Z :=
  match socs with
  | [] => 0
  | soc :: socs =>
    if (soc <? 0) || (100 <? soc) then charged b prev socs
    else (if negb (prev =? -1) && (prev <? soc) then percents b prev soc else 0) + charged b soc socs
  end.

Lemma count_step soc c st :
  counts_ok (cc_count c) -> -1 <= cc_prev_soc c <= 100 -> ready st ->
  exists c' st', batt_cycle_count_update soc c st = Ret (c', st') /\ counts_ok (cc_count c') /\
    ready st' /\ -1 <= cc_prev_soc c' <= 100 /\
    cc_prev_soc c' = (if (soc <? 0) || (100 <? soc) then cc_prev_soc c else soc) /\
    forall b x, cc_count c !! b = Some x ->
      cc_count c' !! b = Some (u16 (x + charged (Z.of_nat b) (cc_prev_soc c) [soc])).
Proof.
  intros Hc Hp Hst. unfold batt_cycle_count_update. cbn [charged].
  assert (Hkeep : forall b x, cc_count c !! b = Some x -> cc_count c !! b = Some (u16 (x + 0))).
  { intros b x Hx. rewrite Hx. rewrite Z.add_0_r, wrap_id; [done|]. destruct Hc as [_ Hall].
    rewrite Forall_lookup in Hall. specialize (Hall b x Hx). unfold U16_MAX in Hall. lia. }
  destruct ((soc <? 0) || (100 <? soc)) eqn:Er; [by eauto 10|].
  apply Bool.orb_false_iff in Er as [E1%Z.ltb_ge E2%Z.ltb_ge].
  destruct (negb (cc_prev_soc c =? -1) && (cc_prev_soc c <? soc)) eqn:Ec.
  2: { eexists _, _; split_and!; [done..|cbn; lia|cbn; lia|done|]. intros b x Hx. by apply Hkeep. }
  bool_to_prop. destruct Ec as [Hn Hlt].
  destruct (count_loop_ok (Z.to_nat (soc - cc_prev_soc c)) soc (cc_count c) (cc_prev_soc c) Hc)
    as (count' & -> & Hc' & Hval); [lia..|]. run. unfold batt_cycle_count_store. cbn [cc_count].
  destruct (write_ready knows sees holds st GBMS_TAG_BCNT (u16s_bytes count') 20 Hst)
    as (ret & st' & -> & Hst' & _); [rewrite length_u16s_bytes; destruct Hc' as [-> _]; lia|].
  run. eexists _, _; split_and!; [done..|cbn; lia|cbn; lia|done|]. intros b x Hx.
  cbn [cc_count]. destruct (Hval b x Hx) as (y & -> & ->). by rewrite Z.add_0_r.
Qed.

(** The buckets count what was charged.  After any sequence of polls, whatever the
    storage answers, each bucket has grown by the number of its percents that the level
    went up through (modulo the sixteen bits of a bucket); falling and unchanged levels, and
    readings out of range, add nothing. *)
Theorem cycle_bins_count_charge socs : forall c st,
  counts_ok (cc_count c) -> -1 <= cc_prev_soc c <= 100 -> ready st ->
  exists c' st', count_run socs c st = Ret (c', st') /\ counts_ok (cc_count c') /\ ready st' /\
    forall b x, cc_count c !! b = Some x ->
      cc_count c' !! b = Some (u16 (x + charged (Z.of_nat b) (cc_prev_soc c) socs)).
Proof.
  induction socs as [|soc socs IH]; intros c st Hc Hp Hst; cbn [count_run].
  { exists c, st. split_and!; [done..|]. intros b x Hx. cbn [charged]. rewrite Hx, Z.add_0_r, wrap_id; [done|].
    destruct Hc as [_ Hall]. rewrite Forall_lookup in Hall. specialize (Hall b x Hx). unfold U16_MAX in Hall. lia. }
  destruct (count_step soc c st Hc Hp Hst) as (c1 & st1 & -> & Hc1 & Hst1 & Hp1 & Heq & Hval). run.
  destruct (IH c1 st1 Hc1 Hp1 Hst1) as (c2 & st2 & -> & Hc2 & Hst2 & Hval2).
  exists c2, st2. split_and!; [done..|]. intros b x Hx. rewrite (Hval2 _ _ (Hval _ _ Hx)), wrap_add_l, Heq.
  do 2 f_equal. cbn [charged]. destruct ((soc <? 0) || (100 <? soc)); lia.
Qed.

End counts.

(** ** The share of the top *)

(** The counts of the buckets from [i] on that satisfy [p]. *)
Fixpoint counted (p : Z -> bool) (i : Z) (count : list Z) : Z :=
  match count with
  | [] => 0
  | x :: count => (if p i then x else 0) + counted p (i + 1) count
  end.

Lemma counted_nonneg p count : forall i, Forall (fun x => 0 <= x) count -> 0 <= counted p i count.
Proof.
  induction count as [|x count IH]; intros i H; cbn [counted]; [lia|].
  apply Forall_cons in H as [? H]. specialize (IH (i + 1) H). destruct (p i); lia.
Qed.

Lemma counted_le p count : forall i,
  Forall (fun x => 0 <= x < U16_MAX) count -> counted p i count <= Z.of_nat (length count) * U16_MAX.
Proof.
  induction count as [|x count IH]; intros i H; cbn [counted length]; [lia|].
  apply Forall_cons in H as [? H]. specialize (IH (i + 1) H). destruct (p i); lia.
Qed.

(** The buckets that start below the limit, and the others. *)
Definition low_bucket (limit i : Z) : bool := i * 10 <? limit.
Definition top_bucket (limit i : Z) : bool := negb (low_bucket limit i).

Lemma residency_loop_ok limit count : forall pre under over n,
  n = Z.of_nat (length pre) ->
  Forall (fun x => 0 <= x < U16_MAX) count -> 0 <= under -> 0 <= over ->
  under + counted (low_bucket limit) n count < 2 ^ 31 ->
  over + counted (top_bucket limit) n count < 2 ^ 31 ->
  residency_loop (length count) n limit (pre ++ count) under over =
    Ret (under + counted (low_bucket limit) n count, over + counted (top_bucket limit) n count).
Proof.
  induction count as [|x count IH]; intros pre under over n Hn Hall Hu Ho Hbu Hbo;
    cbn [residency_loop counted length] in *; [by rewrite !Z.add_0_r|].
  apply Forall_cons in Hall as [Hx Hall].
  assert (Hnn : Forall (fun x => 0 <= x) count) by (eapply Forall_impl; [exact Hall|]; cbn; lia).
  pose proof (counted_nonneg (low_bucket limit) count (n + 1) Hnn).
  pose proof (counted_nonneg (top_bucket limit) count (n + 1) Hnn).
  assert (Hat : at_ (pre ++ x :: count) n = Ret x).
  { apply at_ret. split; [lia|]. subst n. rewrite Nat2Z.id. by apply list_lookup_middle. }
  rewrite Hat. run. unfold U16_MAX in Hx. rewrite (proj2 (Z.eqb_neq x 0xFFFF)) by lia.
  replace (pre ++ x :: count) with ((pre ++ [x]) ++ count) by (by rewrite <- app_assoc).
  assert (Hn' : n + 1 = Z.of_nat (length (pre ++ [x]))) by (rewrite length_app; cbn [length]; lia).
  change (n * 10 <? limit) with (low_bucket limit n). unfold top_bucket in Hbo |- * at 1.
  destruct (low_bucket limit n) eqn:El; cbn [negb] in *; fold (top_bucket limit) in *.
  - rewrite swrap_id by lia. rewrite (IH (pre ++ [x])); [do 2 f_equal|..]; first [assumption|lia|idtac].
  - rewrite swrap_id by lia. rewrite (IH (pre ++ [x])); [do 2 f_equal|..]; first [assumption|lia|idtac].
Qed.

Lemma residency_ok c limit :
  let under := counted (low_bucket limit) 0 (cc_count c) in
  let over := counted (top_bucket limit) 0 (cc_count c) in
  length (cc_count c) = 10%nat -> Forall (fun x => 0 <= x < U16_MAX) (cc_count c) ->
  0 < under + over -> under < 214748 ->
  exists index, bhi_cycle_count_residency c limit = Ret index /\ 0 <= index <= BHI_ALGO_FULL_HEALTH /\
    index = under * BHI_ALGO_FULL_HEALTH / (under + over) /\ 0 <= under /\ 0 <= over.
Proof.
  intros under over Hlen Hall Hpos Hfit.
  assert (Hnn : Forall (fun x => 0 <= x) (cc_count c)) by (eapply Forall_impl; [exact Hall|]; cbn; lia).
  pose proof (counted_nonneg (low_bucket limit) (cc_count c) 0 Hnn) as Hu. fold under in Hu.
  pose proof (counted_nonneg (top_bucket limit) (cc_count c) 0 Hnn) as Ho. fold over in Ho.
  assert (Hob : over <= 655350) by (subst over; rewrite counted_le by done; rewrite Hlen; by vm_compute).
  pose proof (residency_loop_ok limit (cc_count c) [] 0 0 0 eq_refl Hall) as Hloop. cbn [app] in Hloop.
  unfold bhi_cycle_count_residency. change (Z.to_nat GBMS_CCBIN_BUCKET_COUNT) with 10%nat.
  rewrite Hlen in Hloop. rewrite Hloop by first [assumption|lia]. run. rewrite !Z.add_0_l. fold under over.
  unfold BHI_ALGO_FULL_HEALTH, quot_c. rewrite (swrap_id 32 (under * 10000)), (swrap_id 32 (under + over)) by lia.
  rewrite (proj2 (Z.eqb_neq _ 0)) by lia. run. rewrite Z.quot_div_nonneg by lia.
  assert (Hr : 0 <= under * 10000 / (under + over) <= 10000).
  { split; [apply Z.div_pos; lia|apply Z.div_le_upper_bound; lia]. }
  rewrite swrap_id by lia. eexists; split_and!; [done|lia..].
Qed.

(** The index of the time near the top is a share.  When no bucket is at its limit, some
    charge has been counted, and less than 214748 percents of it below the limit,
    [bhi_cycle_count_residency] gives the share of the counts in the buckets that start
    below the limit, in hundredths of a percent and rounded down: between 0 and 10000. *)
Theorem residency_is_share c limit :
  let under := counted (low_bucket limit) 0 (cc_count c) in
  let over := counted (top_bucket limit) 0 (cc_count c) in
  length (cc_count c) = 10%nat -> Forall (fun x => 0 <= x < U16_MAX) (cc_count c) ->
  0 < under + over -> under < 214748 ->
  exists index, bhi_cycle_count_residency c limit = Ret index /\ 0 <= index <= BHI_ALGO_FULL_HEALTH /\
    index = under * BHI_ALGO_FULL_HEALTH / (under + over) /\
    (over = 0 -> index = BHI_ALGO_FULL_HEALTH) /\ (under = 0 -> index = 0).
Proof.
  intros under over Hlen Hall Hpos Hfit.
  destruct (residency_ok c limit Hlen Hall Hpos Hfit) as (index & -> & Hr & Hi & Hu & Ho).
  exists index. split_and!; [done|lia|lia|done| |]; unfold BHI_ALGO_FULL_HEALTH in *; fold under over in Hi.
  - intros E. rewrite E, Z.add_0_r, Z.mul_comm, Z.div_mul in Hi by lia. done.
  - intros E. by rewrite E in Hi.
Qed.
