(* ===== verification/BhiIndex.v ===== *)
(** * The metrics of the battery health index (src/bms/google_battery.c)

    Capacity, impedance and swelling as indices, where 10000 is full health; the capacity
    may be held between bounds that depend on the number of cycles, given as ten points a
    hundred cycles apart. *)

From S2P Require Import Prelude GbmsProfile Bhi BhiRes.

(** ** Bounds of the capacity *)

(** The first [n] cells of an array lie within [lower] and [upper]. *)
Fixpoint validity_loop (turns : nat) (cycles : Z) (capacity : list Z) (lower upper : Z) : outcome bool :=
  match turns with
  | O => Ret true
  | S turns =>
    let* c := at_ capacity cycles in
    if (c <? lower) || (upper <? c) then Ret false
    else validity_loop turns (cycles + 1) capacity lower upper
  end.

Definition bhi_bound_validity_check (capacity : list Z) (lower upper : Z) : outcome bool :=
  validity_loop (Z.to_nat BHI_TREND_POINTS_SIZE) 0 capacity lower upper.

Definition bhi_get_capacity_bound (cycle_count : Z) (cap_bound : list Z) : outcome Z :=
  if cycle_count <=? 100 then at_ cap_bound 0 else
  let index := cdiv cycle_count 100 in
  let index := if BHI_TREND_POINTS_SIZE <=? index then BHI_TREND_POINTS_SIZE - 1 else index in
  let* ca_upper := at_ cap_bound index in
  let* ca_under := at_ cap_bound (index - 1) in
  Ret (s32 (ca_under +
            cdiv (s32 (s32 (cycle_count - index * 100) * (ca_upper - ca_under))) 100)).

Definition bhi_algo_has_bounds (algo : Z) : bool :=
  (algo =? BHI_ALGO_ACHI_B) || (algo =? BHI_ALGO_ACHI_RECAL) || (algo =? BHI_ALGO_ACHI_RAVG_B) ||
  (algo =? BHI_ALGO_ACHI_CARETAKER).

Definition bhi_algo_apply_bounds (capacity_health cycle_count : Z) (b : bhi_data) : outcome Z :=
  let* l_bound := bhi_get_capacity_bound cycle_count (cb_limit (bd_lower b)) in
  let* u_bound := bhi_get_capacity_bound cycle_count (cb_limit (bd_upper b)) in
  Ret (Z.min (Z.max capacity_health l_bound) u_bound).

(** ** Capacity *)

Definition bhi_cap_data_update {G} `{!FuelGauge G} (g : G) (b : bhi_data) : outcome (Z * bhi_data) :=
  let '(fade_rate, rc) := gauge_get_prop CAPACITY_FADE_RATE g in
  let '(fade_rate_fcr, rc_fcr) := gauge_get_prop CAPACITY_FADE_RATE_FCR g in
  let designcap_uah := GPSY_GET_PROP CHARGE_FULL_DESIGN g in
  let pack_capacity_uah := s32 (bd_pack_capacity b * 1000) in
  if designcap_uah <? 0 then Ret (- ENODATA, b) else
  if bd_pack_capacity b <=? 0 then Ret (- EINVAL, b) else
  if negb (rc =? 0) || negb (rc_fcr =? 0) then Ret (- EINVAL, b) else
  let* q := quot_c (s32 (s32 (100 - fade_rate) * designcap_uah)) pack_capacity_uah in
  let* q_fcr := quot_c (s32 (s32 (100 - fade_rate_fcr) * designcap_uah)) pack_capacity_uah in
  Ret (0, set_fade b (s32 (100 - q)) (s32 (100 - q_fcr))).

Definition bhi_health_get_capacity (algo : Z) (b : bhi_data) : Z :=
  let fade_rate := if algo =? BHI_ALGO_ACHI_FCR then bd_fade_fcr b else bd_fade b in
  cdiv (s32 (bd_pack_capacity b * s32 (100 - fade_rate))) 100.

Definition bhi_calc_cap_index (algo : Z) (a : age_state) (h : health_data) : outcome Z :=
  let b := h_bhi h in
  if algo =? BHI_ALGO_DISABLED then Ret BHI_ALGO_FULL_HEALTH else
  if negb (hd_cap_index (h_debug h) =? 0) then Ret (hd_cap_index (h_debug h)) else
  if bd_pack_capacity b =? 0 then Ret (- ENODATA) else
  let capacity_health := bhi_health_get_capacity algo b in
  let* capacity_health :=
    if bhi_algo_has_bounds algo
    then bhi_algo_apply_bounds capacity_health (aacp_get_cc a) b
    else Ret capacity_health in
  Ret (s32 (cdiv (s32 (capacity_health * BHI_ALGO_FULL_HEALTH)) (bd_pack_capacity b))).

Definition bhi_cap_index_bound (bhi_algo index : Z) : Z :=
  if index <? 0 then BHI_ALGO_FULL_HEALTH else
  if (BHI_ALGO_FULL_HEALTH <? index) && (BHI_ALGO_ACHI <? bhi_algo) then BHI_ALGO_FULL_HEALTH
  else index.

(** ** Impedance *)

Definition bhi_imp_read_ai (b : bhi_data) : Z := batt_ravg_value (bd_res b).

(** Always returns 0. *)
Definition bhi_imp_data_update {G} `{!FuelGauge G} (g : G) (b : bhi_data) : bhi_data * G :=
  let act := s32 (bd_act_impedance b) in
  if act =? 0 then
    let act := GPSY_GET_PROP HEALTH_ACT_IMPEDANCE g in
    if act =? - EINVAL then
      let act := bhi_imp_read_ai b in
      if act <=? 0 then (b, g) else
      let '(ret, g) := GPSY_SET_PROP HEALTH_ACT_IMPEDANCE act g in
      if ret <? 0 then (b, g) else (set_impedance b (u32 act) (bd_cur_impedance b), g)
    else if act <? 0 then (b, g)
    else (set_impedance b (u32 act) (bd_cur_impedance b), g)
  else
    let cur := batt_ravg_value (bd_res b) in
    if bd_cur_impedance b <? u32 cur then (set_impedance b (bd_act_impedance b) (u32 cur), g)
    else (b, g).

(** [cur_impedance] is an [u32] there, so the test for [<= 0] is one for 0. *)
Definition bhi_health_get_impedance (algo : Z) (b : bhi_data) : Z :=
  if (algo =? BHI_ALGO_DISABLED) || (algo =? BHI_ALGO_CYCLE_COUNT) || (algo =? BHI_ALGO_ACHI_RECAL) ||
     (algo =? BHI_ALGO_ACHI_RAVG_B) || (algo =? BHI_ALGO_MIX_N_MATCH) then
    let cur := u32 (batt_ravg_value (bd_res b)) in
    s32 (if cur <=? 0 then bd_act_impedance b else cur)
  else 0.

(** All of it is [u32] arithmetic. *)
Definition bhi_calc_imp_index (algo : Z) (h : health_data) : Z :=
  let act := bd_act_impedance (h_bhi h) in
  if act =? 0 then BHI_ALGO_FULL_HEALTH else
  if negb (hd_imp_index (h_debug h) =? 0) then hd_imp_index (h_debug h) else
  let cur := u32 (bhi_health_get_impedance algo (h_bhi h)) in
  if cur =? 0 then BHI_ALGO_FULL_HEALTH else
  s32 (u32 (u32 (u32 (2 * act) - cur) * BHI_ALGO_FULL_HEALTH) / act).

(** ** Swelling and cycles *)

Definition bhi_calc_sd_index (h : health_data) : Z :=
  if negb (hd_sd_index (h_debug h) =? 0) then hd_sd_index (h_debug h) else bd_ccbin_index (h_bhi h).

Definition bhi_cycle_count_index (h : health_data) : outcome Z :=
  let s := h_settings h in
  let cc := bd_cycle_count (h_bhi h) in
  let cc_nrt := hs_cc_need_rep s in
  let h_nrt := hs_need_rep s in
  if (hs_marginal s <? h_nrt) || (cc_nrt <=? hs_cc_marginal s) then Ret BHI_ALGO_FULL_HEALTH else
  let '(h_mt, cc_mt) :=
    if hs_marginal s =? h_nrt then (100, 0) else (hs_marginal s, hs_cc_marginal s) in
  let* q := quot_c (s32 (s32 (h_mt - h_nrt) * s32 (cc - cc_nrt))) (s32 (cc_mt - cc_nrt)) in
  let cc_index := s32 (s32 (s32 q + h_nrt) * 100) in
  let cc_index := if BHI_ALGO_FULL_HEALTH <? cc_index then BHI_ALGO_FULL_HEALTH else cc_index in
  Ret (if cc_index <? 0 then 0 else cc_index).

(** ** The bounds interpolate *)

(** Ten points of sixteen bits. *)
Definition bound_ok (l : list Z) : Prop := length l = 10%nat /\ Forall (fun c => 0 <= c <= U16_MAX) l.

(** Point [i] of the bound: the capacity after [100 * (i + 1)] cycles. *)
Definition point (l : list Z) (i : Z) : Z := default 0 (l !! Z.to_nat i).

Lemma at_point l i : bound_ok l -> 0 <= i < 10 -> at_ l i = Ret (point l i) /\ 0 <= point l i <= U16_MAX.
Proof.
  intros [Hlen Hall] Hi. destruct (lookup_lt_is_Some_2 l (Z.to_nat i)) as [x Hx]; [lia|].
  unfold point. rewrite Hx. cbn. split; [apply at_ret; split; [lia|done]|].
  rewrite Forall_lookup in Hall. by apply (Hall (Z.to_nat i)).
Qed.

(** Cycle counts that keep the arithmetic in range; a battery does a few thousand. *)
Definition CYCLES_MAX : Z := 30000.

(** The segment of a cycle count above 100. *)
Definition segment (cc : Z) : Z := Z.min (cc / 100) 9.

Lemma capacity_bound_eq l cc :
  bound_ok l -> cc <= CYCLES_MAX ->
  bhi_get_capacity_bound cc l =
    Ret (if cc <=? 100 then point l 0 else
         let i := segment cc in
         point l (i - 1) + cdiv ((cc - 100 * i) * (point l i - point l (i - 1))) 100).
Proof.
  intros Hl Hcc. unfold bhi_get_capacity_bound, CYCLES_MAX in *. case_test.
  { by destruct (at_point l 0 Hl) as [-> _]; [lia|]. }
  cbv zeta. rewrite (Z.quot_div_nonneg cc 100) by lia.
  replace (if BHI_TREND_POINTS_SIZE <=? cc / 100 then BHI_TREND_POINTS_SIZE - 1 else cc / 100)
    with (segment cc) by (unfold segment, BHI_TREND_POINTS_SIZE; case_test; lia).
  assert (Hs : 1 <= segment cc <= 9 /\ 0 <= cc - 100 * segment cc <= cc).
  { unfold segment. pose proof (Z.div_mod cc 100). pose proof (Z.mod_pos_bound cc 100). lia. }
  destruct (at_point l (segment cc) Hl) as [-> Hu]; [lia|].
  destruct (at_point l (segment cc - 1) Hl) as [-> Hd]; [lia|]. run. unfold U16_MAX in *.
  rewrite (Z.mul_comm (segment cc) 100). rewrite (swrap_id 32 (cc - _)) by lia.
  set (d := point l (segment cc) - point l (segment cc - 1)).
  assert (Hp : - (30000 * 65535) <= (cc - 100 * segment cc) * d <= 30000 * 65535) by (subst d; nia).
  rewrite (swrap_id 32 (_ * d)) by lia. rewrite swrap_id; [done|lia|].
  pose proof (Z.quot_rem' ((cc - 100 * segment cc) * d) 100).
  pose proof (Z.rem_bound_abs ((cc - 100 * segment cc) * d) 100). lia.
Qed.

(** The bound without the machine arithmetic. *)
Definition bound_at (l : list Z) (cc : Z) : Z :=
  if cc <=? 100 then point l 0 else
  point l (segment cc - 1) +
    cdiv ((cc - 100 * segment cc) * (point l (segment cc) - point l (segment cc - 1))) 100.

Lemma quot_near a : 100 * cdiv a 100 - 100 < a < 100 * cdiv a 100 + 100.
Proof. pose proof (Z.quot_rem' a 100). pose proof (Z.rem_bound_abs a 100). lia. Qed.

(** On a segment the bound is the line through its ends, up to rounding. *)
Lemma bound_at_segment l cc i :
  0 <= i <= 8 -> 100 * (i + 1) <= cc -> (cc <= 100 * (i + 2) \/ i = 8) ->
  exists d, bound_at l cc = point l i + cdiv d 100 /\
    d = (cc - 100 * (i + 1)) * (point l (i + 1) - point l i).
Proof.
  intros Hi Hlo Hhi. unfold bound_at. case_test.
  { assert (i = 0) as -> by lia. assert (cc = 100) as -> by lia. eexists; split; [|reflexivity].
    change (100 - 100 * (0 + 1)) with 0. rewrite Z.mul_0_l. change (cdiv 0 100) with 0. lia. }
  pose proof (Z.div_mod cc 100 ltac:(lia)). pose proof (Z.mod_pos_bound cc 100 ltac:(lia)).
  destruct (decide (cc = 100 * (i + 2))) as [E|E].
  - destruct (decide (i = 8)) as [->|].
    { replace (segment cc) with 9 by (unfold segment; lia). by eexists. }
    replace (segment cc) with (i + 2) by (unfold segment; lia). rewrite E.
    eexists; split; [|done]. rewrite Z.sub_diag, Z.mul_0_l.
    replace (100 * (i + 2) - 100 * (i + 1)) with 100 by lia. rewrite Z.mul_comm, Z.quot_mul by lia.
    change (cdiv 0 100) with 0. replace (i + 2 - 1) with (i + 1) by lia. lia.
  - replace (segment cc) with (i + 1) by (unfold segment; lia).
    replace (i + 1 - 1) with i by lia. by eexists.
Qed.

Definition antitone (l : list Z) : Prop := forall i, 0 <= i < 9 -> point l (i + 1) <= point l i.

Lemma bound_at_antitone l cc cc' : antitone l -> cc <= cc' -> bound_at l cc' <= bound_at l cc.
Proof.
  intros Hl. assert (Hp : forall i j, 0 <= i -> i <= j -> j <= 9 -> point l j <= point l i).
  { intros i j Hi Hj. revert j Hj. apply (Zlt_lower_bound_ind (fun j => j <= 9 -> point l j <= point l i)).
    intros j IH Hij Hj. destruct (decide (j = i)) as [->|]; [done|].
    specialize (IH (j - 1) ltac:(lia) ltac:(lia)). specialize (Hl (j - 1) ltac:(lia)).
    replace (j - 1 + 1) with j in Hl by lia. lia. }
  assert (Hend : forall cc, 100 < cc -> let s := segment cc in
    1 <= s <= 9 /\ 100 * s <= cc /\ (s < 9 -> cc < 100 * (s + 1))).
  { intros c Hc. unfold segment. pose proof (Z.div_mod c 100 ltac:(lia)).
    pose proof (Z.mod_pos_bound c 100 ltac:(lia)). cbv zeta. lia. }
  intros Hcc. unfold bound_at. destruct (Z.leb_spec cc 100), (Z.leb_spec cc' 100); try lia.
  - destruct (Hend cc') as (Hs & Hs1 & _); [lia|]. pose proof (Hp 0 (segment cc' - 1)).
    assert (cdiv ((cc' - 100 * segment cc') * (point l (segment cc') - point l (segment cc' - 1))) 100 <= 0).
    { specialize (Hp (segment cc' - 1) (segment cc')). apply Z.quot_le_upper_bound; nia. }
    lia.
  - destruct (Hend cc) as (Hs & Hs1 & Hs2); [lia|]. destruct (Hend cc') as (Hs' & Hs1' & Hs2'); [lia|].
    pose proof (Hp (segment cc - 1) (segment cc)). pose proof (Hp (segment cc' - 1) (segment cc')).
    destruct (decide (segment cc = segment cc')) as [E|E].
    + rewrite <- E in *. apply Z.add_le_mono_l, Z.quot_le_mono; nia.
    + assert (segment cc < segment cc') by (unfold segment in *; pose proof (Z.div_le_mono cc cc' 100); lia).
      pose proof (Hp (segment cc) (segment cc' - 1)).
      assert (cdiv ((cc' - 100 * segment cc') * (point l (segment cc') - point l (segment cc' - 1))) 100 <= 0)
        by (apply Z.quot_le_upper_bound; nia).
      assert (point l (segment cc) - point l (segment cc - 1) <=
        cdiv ((cc - 100 * segment cc) * (point l (segment cc) - point l (segment cc - 1))) 100).
      { apply Z.quot_le_lower_bound; nia. }
      lia.
Qed.

(** The capacity bound interpolates its table.  [bhi_get_capacity_bound] gives point [i] at
    [100 * (i + 1)] cycles and the first point before that; between two points it lies
    between them, on the line through them up to rounding; beyond the last point the line
    through the last two goes on.  With a table that does not rise, the bound does not rise
    with the cycles. *)
Theorem capacity_bound_interpolates l cc :
  bound_ok l -> cc <= CYCLES_MAX ->
  exists v, bhi_get_capacity_bound cc l = Ret v /\
    (cc <= 100 -> v = point l 0) /\
    (forall i, 0 <= i <= 9 -> cc = 100 * (i + 1) -> v = point l i) /\
    (forall i, 0 <= i <= 8 -> 100 * (i + 1) <= cc <= 100 * (i + 2) ->
       Z.min (point l i) (point l (i + 1)) <= v <= Z.max (point l i) (point l (i + 1)) /\
       Z.abs (100 * (v - point l i) - (cc - 100 * (i + 1)) * (point l (i + 1) - point l i)) < 100) /\
    (1000 <= cc -> Z.abs (100 * (v - point l 8) - (cc - 900) * (point l 9 - point l 8)) < 100) /\
    (antitone l -> forall cc' v', cc <= cc' <= CYCLES_MAX ->
       bhi_get_capacity_bound cc' l = Ret v' -> v' <= v).
Proof.
  intros Hl Hcc. assert (Heq : forall c, c <= CYCLES_MAX -> bhi_get_capacity_bound c l = Ret (bound_at l c)).
  { intros c Hc. rewrite capacity_bound_eq by done. unfold bound_at. by destruct (_ <=? _). }
  rewrite Heq by done. eexists; split; [done|]. split_and!.
  - intros H. unfold bound_at. by rewrite (proj2 (Z.leb_le _ _)) by lia.
  - intros i Hi ->. destruct (decide (i = 0)) as [->|]; [done|].
    destruct (bound_at_segment l (100 * (i + 1)) (i - 1)) as (d & -> & ->); [lia..|].
    replace (100 * (i + 1) - 100 * (i - 1 + 1)) with 100 by lia.
    rewrite Z.mul_comm, Z.quot_mul by lia. replace (i - 1 + 1) with i by lia. lia.
  - intros i Hi H. destruct (bound_at_segment l cc i) as (d & -> & Hd); [lia..|].
    pose proof (quot_near d). split; [|lia].
    assert (0 <= cc - 100 * (i + 1) <= 100) by lia.
    destruct (Z.le_ge_cases (point l i) (point l (i + 1))).
    + assert (0 <= cdiv d 100) by (apply Z.quot_le_lower_bound; nia).
      assert (cdiv d 100 <= point l (i + 1) - point l i) by (apply Z.quot_le_upper_bound; nia). lia.
    + assert (cdiv d 100 <= 0) by (apply Z.quot_le_upper_bound; nia).
      assert (point l (i + 1) - point l i <= cdiv d 100) by (apply Z.quot_le_lower_bound; nia). lia.
  - intros H. destruct (bound_at_segment l cc 8) as (d & -> & Hd); [lia..|].
    pose proof (quot_near d). change (8 + 1) with 9 in Hd. lia.
  - intros Ha cc' v' H. rewrite Heq by lia. intros [= <-]. apply bound_at_antitone; [done|lia].
Qed.
