(* ===== verification/BhiDate.v ===== *)
(** * Dates of the battery (src/bms/google_battery.c)

    The EEPROM keeps the dates of manufacture and activation as three characters each
    (XYMD).  The conversions between dates and seconds are the kernel's. *)

From S2P Require Import Prelude GbmsProfile GbmsStorage StorageTable StorageContract StorageUse.
From S2P Require Import Eeprom Ssoc Bhi.

(** ** The kernel's calendar *)

(** [struct rtc_time], the fields that are used. *)
Record rtc_time := mk_tm {
  tm_sec : Z;
  tm_min : Z;
  tm_hour : Z;
  tm_mday : Z;
  tm_mon : Z;
  tm_year : Z;
}.

(** Seconds since 1970 of a date, and the date of an instant; months from 0, years from 1900. *)
Class Calendar := {
  rtc_tm_to_time64 : rtc_time -> Z;
  rtc_time64_to_tm : Z -> rtc_time;
}.

(** What drivers/rtc/lib.c documents: the date of an instant is valid, the two functions
    are inverse, and hours, minutes and seconds count. *)
Class CalendarLaws `{Calendar} : Prop := {
  tm_valid t : 0 <= t < 2 ^ 32 ->
    0 <= tm_sec (rtc_time64_to_tm t) < 60 /\ 0 <= tm_min (rtc_time64_to_tm t) < 60 /\
    0 <= tm_hour (rtc_time64_to_tm t) < 24 /\ 1 <= tm_mday (rtc_time64_to_tm t) <= 31 /\
    0 <= tm_mon (rtc_time64_to_tm t) < 12;
  tm_inverse t : 0 <= t < 2 ^ 32 -> rtc_tm_to_time64 (rtc_time64_to_tm t) = t;
  tm_time_of_day s m h d mo y :
    rtc_tm_to_time64 (mk_tm s m h d mo y) = rtc_tm_to_time64 (mk_tm 0 0 0 d mo y) + 3600 * h + 60 * m + s;
  (* from 1 December 2020 to 7 February 2106 *)
  tm_years t : 1606780800 <= t < 2 ^ 32 -> 120 <= tm_year (rtc_time64_to_tm t) <= 206;
}.

(** The time of day, in UTC and in minutes west, and what the stack holds where a
    [struct rtc_time] is left uninitialized (seconds, minutes, hours). *)
Record clock := mk_clock { c_real_sec : Z; c_minuteswest : Z; c_stack : Z * Z * Z }.

Definition local_epoch (c : clock) : Z := u64 (c_real_sec c - s32 (c_minuteswest c * 60)).

(** A date in a [struct rtc_time] whose time of day is not set. *)
Definition date_tm (c : clock) (d mo y : Z) : rtc_time :=
  let '(s, m, h) := c_stack c in mk_tm s m h d mo y.

(** ** The characters *)

Definition date_to_xymd (val : Z) : Z :=
  if 23 <=? val then (val - 23) + 0x50 else
  if 18 <=? val then (val - 18) + 0x4a else
  if 10 <=? val then (val - 10) + 0x41 else val + 0x30.

Definition xymd_to_date (val : Z) : Z :=
  if 0x50 <=? val then (val - 0x50) + 23 else
  if 0x4a <=? val then (val - 0x4a) + 18 else
  if 0x41 <=? val then (val - 0x41) + 10 else val - 0x30.

Definition FIRST_USAGE_DATE_DEFAULT : Z := 1606780800.
Definition FIRST_USAGE_DATE_MAX : Z := 2147483647.

(** Bytes read over an object of [n] bytes. *)
Definition read_over (n : nat) (bytes old : list Z) : list Z :=
  take n (bytes ++ drop (length bytes) old).

Definition bytes_to_date (data : list Z) : outcome bm_date :=
  let* y := at_ data 0 in
  let* m := at_ data 1 in
  let* d := at_ data 2 in
  Ret (mk_date (u8 (xymd_to_date y + 20)) (u8 (xymd_to_date m)) (u8 (xymd_to_date d))).

(** 1 December 2020. *)
Definition act_date_default : list Z := [0x30; 0x43; 0x31].

Section dates.
Context {D : Type} `{Calendar}.
#[local] Abbreviation storage := (gbms_storage D).

Definition batt_get_manufacture_date (b : bhi_data) (st : storage) : outcome (Z * bhi_data * storage) :=
  let* q := gbms_storage_read GBMS_TAG_MYMD true 3 st in
  let '(ret, bytes, st) := q in
  if ret <? 0 then Ret (ret, b, st) else
  let* date := bytes_to_date bytes in
  Ret (0, set_dates b date (bd_act_date b), st).

(** The result is an [int]. *)
Definition batt_mdate_to_epoch (c : clock) (b : bhi_data) : Z :=
  let d := bd_bm_date b in
  s32 (rtc_tm_to_time64 (date_tm c (bm_d d) (bm_m d - 1) (bm_y d + 100))).

Definition batt_get_activation_date (b : bhi_data) (st : storage) : outcome (Z * bhi_data * storage) :=
  let* q := gbms_storage_read GBMS_TAG_AYMD true 3 st in
  let '(ret, bytes, st) := q in
  let b := set_dates b (bd_bm_date b) (read_over 3 bytes (bd_act_date b)) in
  if ret <? 0 then Ret (ret, b, st) else
  let* first := at_ (bd_act_date b) 0 in
  Ret (0, if first =? 0xff then set_dates b (bd_bm_date b) act_date_default else b, st).

(** The date, in a [struct rtc_time] of the caller. *)
Definition get_activation_date (c : clock) (b : bhi_data) (st : storage)
    : outcome (Z * rtc_time * bhi_data * storage) :=
  let* first := at_ (bd_act_date b) 0 in
  let* q := if first =? 0 then batt_get_activation_date b st else Ret (0, b, st) in
  let '(ret, b, st) := q in
  if ret <? 0 then Ret (ret, date_tm c 0 0 0, b, st) else
  let* date := bytes_to_date (bd_act_date b) in
  Ret (0, date_tm c (bm_d date) (bm_m date - 1) (bm_y date + 100), b, st).

(** What a read of the sysfs attributes prints. *)
Definition manufacturing_date_show (c : clock) (b : bhi_data) (st : storage)
    : outcome (Z * bhi_data * storage) :=
  let* q := if bm_y (bd_bm_date b) =? 0 then batt_get_manufacture_date b st else Ret (0, b, st) in
  let '(ret, b, st) := q in
  if ret <? 0 then Ret (ret, b, st) else
  let d := bd_bm_date b in
  Ret (rtc_tm_to_time64 (date_tm c (bm_d d) (bm_m d - 1) (bm_y d + 100)), b, st).

Definition first_usage_date_show (c : clock) (b : bhi_data) (st : storage)
    : outcome (Z * bhi_data * storage) :=
  if 0 <=? bd_first_usage_date b then Ret (bd_first_usage_date b, b, st) else
  let* q := get_activation_date c b st in
  let '(ret, tm, b, st) := q in
  if ret <? 0 then Ret (- EIO, b, st) else Ret (rtc_tm_to_time64 tm, b, st).

(** The date that a request for [value] stands for: not before manufacture. *)
Definition usage_epoch (c : clock) (value : Z) (b : bhi_data) : Z :=
  let date_in_epoch := u64 value in
  let date_in_epoch := if date_in_epoch =? 0 then local_epoch c else date_in_epoch in
  if negb (bm_y (bd_bm_date b) =? 0) then
    let mdate := u64 (batt_mdate_to_epoch c b) in
    if date_in_epoch <? mdate then mdate else date_in_epoch
  else date_in_epoch.

(** A write of the number [value] to sysfs; 0 when [count] is returned. *)
Definition first_usage_date_store (c : clock) (value : Z) (b : bhi_data) (st : storage)
    : outcome (Z * bhi_data * storage) :=
  if 0 <=? bd_first_usage_date b then Ret (0, b, st) else
  if (value =? 0) || ((FIRST_USAGE_DATE_DEFAULT <=? value) && (value <=? FIRST_USAGE_DATE_MAX)) then
    let* q := gbms_storage_read GBMS_TAG_AYMD true 3 st in
    let '(ret, act_date, st) := q in
    if ret <? 0 then Ret (- EINVAL, b, st) else
    let* a0 := at_ act_date 0 in
    let* a1 := at_ act_date 1 in
    let* a2 := at_ act_date 2 in
    if negb (a0 =? 0xff) || negb (a1 =? 0xff) || negb (a2 =? 0xff) then Ret (0, b, st) else
    let* q := if bm_y (bd_bm_date b) =? 0 then batt_get_manufacture_date b st else Ret (0, b, st) in
    let '(_, b, st) := q in
    let tm := rtc_time64_to_tm (s64 (usage_epoch c value b)) in
    let act_date := [u8 (date_to_xymd (u8 (tm_year tm - 100 - 20)));
                     u8 (date_to_xymd (u8 (tm_mon tm + 1))); u8 (date_to_xymd (u8 (tm_mday tm)))] in
    let* w := gbms_storage_write GBMS_TAG_AYMD (Some act_date) 3 st in
    if w.1 <? 0 then Ret (- EINVAL, b, w.2) else
    Ret (0, set_dates b (bd_bm_date b) act_date, w.2)
  else Ret (0, b, st).

End dates.

(** ** Characters and dates *)

(** Every date has a character, which is neither I nor O, and the character has the date. *)
Lemma xymd_roundtrip val :
  0 <= val <= 198 ->
  xymd_to_date (date_to_xymd val) = val /\ 0x30 <= date_to_xymd val <= 0xff /\
  date_to_xymd val <> 0x49 /\ date_to_xymd val <> 0x4f /\ (val < 198 -> date_to_xymd val < 0xff).
Proof. intros H. unfold xymd_to_date, date_to_xymd. repeat case_test; lia. Qed.

Lemma at_0 a l : at_ (a :: l) 0 = Ret a.
Proof. reflexivity. Qed.

Lemma at_1 a b l : at_ (a :: b :: l) 1 = Ret b.
Proof. reflexivity. Qed.

Lemma at_2 a b c l : at_ (a :: b :: c :: l) 2 = Ret c.
Proof. reflexivity. Qed.

Lemma bytes_to_date_ok y m d rest :
  0 <= y <= 198 -> 0 <= m <= 31 -> 0 <= d <= 31 ->
  bytes_to_date (u8 (date_to_xymd y) :: u8 (date_to_xymd m) :: u8 (date_to_xymd d) :: rest) =
    Ret (mk_date (y + 20) m d).
Proof.
  intros Hy Hm Hd. unfold bytes_to_date.
  destruct (xymd_roundtrip y) as (Ey & ? & _), (xymd_roundtrip m) as (Em & ? & _); try lia.
  destruct (xymd_roundtrip d) as (Ed & ? & _); [lia|].
  rewrite at_0, at_1, at_2. run.
  rewrite !(wrap_id 8 (date_to_xymd _)) by lia. rewrite Ey, Em, Ed. by wrap_small.
Qed.

(** ** The first use *)

Section usage.
Context {D : Type} `{CalendarLaws}.
Context (knows : nat -> Z -> bool) (sees : D -> Z -> list Z) (holds : D -> Prop).
#[local] Abbreviation ready := (ready knows sees holds).
#[local] Abbreviation only := (only sees).

(** The record of the date, and whether it is blank. *)
Definition records (st : gbms_storage D) (date : list Z) : Prop :=
  exists rest, sees (devices st) GBMS_TAG_AYMD = date ++ rest.

Definition of_stack (c : clock) : Z := let '(s, m, h) := c_stack c in 3600 * h + 60 * m + s.

Lemma date_tm_time c d mo y :
  rtc_tm_to_time64 (date_tm c d mo y) = rtc_tm_to_time64 (mk_tm 0 0 0 d mo y) + of_stack c.
Proof. unfold date_tm, of_stack. destruct (c_stack c) as [[s m] h]. rewrite tm_time_of_day. lia. Qed.

(** The characters of a date. *)
Definition xymd (tm : rtc_time) : list Z :=
  [u8 (date_to_xymd (u8 (tm_year tm - 100 - 20))); u8 (date_to_xymd (u8 (tm_mon tm + 1)));
   u8 (date_to_xymd (u8 (tm_mday tm)))].

(** The start of the day of instant [e]. *)
Definition day_start (e : Z) : Z :=
  let tm := rtc_time64_to_tm e in
  rtc_tm_to_time64 (mk_tm 0 0 0 (tm_mday tm) (tm_mon tm) (tm_year tm)).

Lemma day_start_ok e : 0 <= e < 2 ^ 32 -> e - 86400 < day_start e <= e.
Proof.
  intros He. pose proof (tm_inverse e He) as Hi. destruct (tm_valid e He) as (? & ? & ? & _).
  unfold day_start. destruct (rtc_time64_to_tm e) as [s m h d mo y]. cbn in *.
  rewrite tm_time_of_day in Hi. lia.
Qed.

(** The characters of a day since December 2020: none is that of a blank record, the first is
    not that of a missing one, and they have the date. *)
Lemma xymd_date e :
  FIRST_USAGE_DATE_DEFAULT <= e < 2 ^ 32 ->
  let tm := rtc_time64_to_tm e in
  exists a0 a1 a2, xymd tm = [a0; a1; a2] /\ 0 < a0 < 0xff /\
    forall rest, bytes_to_date (xymd tm ++ rest) =
      Ret (mk_date (tm_year tm - 100) (tm_mon tm + 1) (tm_mday tm)).
Proof.
  unfold FIRST_USAGE_DATE_DEFAULT. intros He. cbv zeta. set (tm := rtc_time64_to_tm e).
  destruct (tm_valid e) as (_ & _ & _ & Hd & Hm); [lia|]. pose proof (tm_years e He) as Hy.
  fold tm in Hd, Hm, Hy. unfold xymd.
  rewrite (wrap_id 8 (tm_year tm - 100 - 20)), (wrap_id 8 (tm_mon tm + 1)), (wrap_id 8 (tm_mday tm)) by lia.
  destruct (xymd_roundtrip (tm_year tm - 100 - 20)) as (_ & ? & _ & _ & ?); [lia|].
  eexists _, _, _; split_and!; [done| | |].
  - rewrite wrap_id; lia.
  - rewrite wrap_id; lia.
  - intros rest. cbn [app]. rewrite bytes_to_date_ok by lia. do 2 f_equal. lia.
Qed.

(** [get_activation_date] with the characters at hand. *)
Lemma show_known c b (st : gbms_storage D) e :
  bd_first_usage_date b < 0 -> FIRST_USAGE_DATE_DEFAULT <= e < 2 ^ 32 ->
  bd_act_date b = xymd (rtc_time64_to_tm e) ->
  first_usage_date_show c b st = Ret (day_start e + of_stack c, b, st).
Proof.
  intros Hf He Ha. unfold first_usage_date_show. rewrite (proj2 (Z.leb_gt 0 _)) by lia.
  destruct (xymd_date e He) as (a0 & a1 & a2 & Hx & Ha0 & Hdate). specialize (Hdate []).
  rewrite app_nil_r in Hdate. unfold get_activation_date. rewrite Ha.
  assert (Hfirst : at_ (xymd (rtc_time64_to_tm e)) 0 = Ret a0) by (rewrite Hx; apply at_0).
  rewrite Hfirst. run. rewrite (proj2 (Z.eqb_neq a0 0)) by lia. run. change (0 <? 0) with false. cbv iota. rewrite Ha, Hdate. run.
  change (0 <? 0) with false. cbn [bm_d bm_m bm_y fst snd]. rewrite date_tm_time. unfold day_start.
  replace (tm_mon _ + 1 - 1) with (tm_mon (rtc_time64_to_tm e)) by lia.
  by replace (tm_year _ - 100 + 100) with (tm_year (rtc_time64_to_tm e)) by lia.
Qed.

(** A driver that has not read the characters yet. *)
Lemma show_stored c b st e :
  bd_first_usage_date b < 0 -> FIRST_USAGE_DATE_DEFAULT <= e < 2 ^ 32 -> ready st ->
  records st (xymd (rtc_time64_to_tm e)) -> bd_act_date b = [0; 0; 0] ->
  exists shown b' st', first_usage_date_show c b st = Ret (shown, b', st') /\
    (shown = - EIO \/ shown = day_start e + of_stack c).
Proof.
  intros Hf He Hst [rest Hrec] Ha.
  destruct (read_ready knows sees holds st GBMS_TAG_AYMD 3 Hst) as (ret & bytes & st1 & Hr & _ & _ & Hb).
  destruct (xymd_date e He) as (a0 & a1 & a2 & Hx & Ha0 & _).
  destruct (Z.ltb_spec ret 0) as [Hneg|Hpos].
  - unfold first_usage_date_show, get_activation_date, batt_get_activation_date.
    rewrite (proj2 (Z.leb_gt 0 _)), Ha, at_0 by lia. run. rewrite Z.eqb_refl, Hr. run.
    rewrite (proj2 (Z.ltb_lt ret 0)) by lia. run. rewrite (proj2 (Z.ltb_lt ret 0)) by lia. run.
    rewrite (proj2 (Z.ltb_lt ret 0)) by lia. eauto 6.
  - set (b1 := set_dates b (bd_bm_date b) (xymd (rtc_time64_to_tm e))).
    assert (Hload : batt_get_activation_date b st = Ret (0, b1, st1)).
    { unfold batt_get_activation_date. rewrite Hr. run. rewrite (proj2 (Z.ltb_ge ret 0)) by lia.
      rewrite (Hb Hpos), Hrec, Hx. change (read_over 3 ([a0; a1; a2] ++ rest) (bd_act_date b)) with [a0; a1; a2].
      cbn [set_dates bd_act_date]. rewrite at_0. run. rewrite (proj2 (Z.eqb_neq a0 0xff)) by lia.
      subst b1. by rewrite Hx. }
    assert (Hget : get_activation_date c b st = get_activation_date c b1 st1).
    { unfold get_activation_date. rewrite Ha, at_0. run. rewrite Z.eqb_refl, Hload. run.
      subst b1. cbn [set_dates bd_act_date]. rewrite Hx, at_0. run.
      rewrite (proj2 (Z.eqb_neq a0 0)) by lia. by run. }
    pose proof (show_known c b1 st1 e Hf He eq_refl) as Hs. unfold first_usage_date_show in Hs |- *.
    change (bd_first_usage_date b1) with (bd_first_usage_date b) in Hs.
    rewrite (proj2 (Z.leb_gt 0 _)) in Hs |- * by lia. rewrite Hget, Hs. eauto 6.
Qed.

(** A second request leaves the record alone. *)
Lemma store_again c value b st a0 a1 a2 :
  ready st -> records st [a0; a1; a2] -> a0 <> 0xff ->
  exists ret st', first_usage_date_store c value b st = Ret (ret, b, st') /\ devices st' = devices st.
Proof.
  intros Hst [rest Hrec] Ha. unfold first_usage_date_store.
  destruct (0 <=? _); [by eauto|]. destruct (_ || _); [|by eauto].
  destruct (read_ready knows sees holds st GBMS_TAG_AYMD 3 Hst) as (ret & bytes & st1 & -> & _ & Hd & Hb).
  run. destruct (Z.ltb_spec ret 0); [by eauto|]. rewrite Hb, Hrec by done. cbn [app].
  rewrite at_0, at_1, at_2. run. rewrite (proj2 (Z.eqb_neq a0 0xff)) by done. run. by eauto.
Qed.

(** The date of the first use is stored once and read back.  With a blank record, a
    request that stands for instant [e] (the clock or the number written, not before the
    date of manufacture) stores the day of [e] and nothing else; a read gives the start of
    that day, plus whatever the uninitialized hours of the reader's stack amount to; later
    requests do not change it; and a driver that starts on the same devices reads the same,
    or an error. *)
Theorem first_usage_date_reads_back c value b st :
  let e := usage_epoch c value b in
  ready st -> records st [0xff; 0xff; 0xff] -> bd_first_usage_date b < 0 -> bm_y (bd_bm_date b) <> 0 ->
  value = 0 \/ FIRST_USAGE_DATE_DEFAULT <= value <= FIRST_USAGE_DATE_MAX ->
  FIRST_USAGE_DATE_DEFAULT <= e < 2 ^ 32 ->
  exists ret b' st', first_usage_date_store c value b st = Ret (ret, b', st') /\
    ready st' /\ only [GBMS_TAG_AYMD] st st' /\ (ret = 0 \/ ret = - EINVAL) /\
    (ret = 0 ->
      e - 86400 < day_start e <= e /\
      (forall c', first_usage_date_show c' b' st' = Ret (day_start e + of_stack c', b', st')) /\
      (forall c' v', exists ret' st2, first_usage_date_store c' v' b' st' = Ret (ret', b', st2) /\
         devices st2 = devices st') /\
      (forall c' b0 st0, ready st0 -> devices st0 = devices st' -> bd_first_usage_date b0 < 0 ->
         bd_act_date b0 = [0; 0; 0] ->
         exists shown b1 st1, first_usage_date_show c' b0 st0 = Ret (shown, b1, st1) /\
           (shown = - EIO \/ shown = day_start e + of_stack c'))).
Proof.
  intros e Hst [rest Hrec] Hf Hbm Hv He. unfold first_usage_date_store at 1.
  rewrite (proj2 (Z.leb_gt 0 _)) by lia.
  replace ((value =? 0) || _) with true.
  2: { symmetry. apply orb_true_iff. rewrite andb_true_iff, Z.eqb_eq, !Z.leb_le. lia. }
  destruct (read_ready knows sees holds st GBMS_TAG_AYMD 3 Hst) as (ret & bytes & st1 & -> & Hst1 & Hd1 & Hb).
  run. assert (Ho1 : only [GBMS_TAG_AYMD] st st1) by (intros t _; by rewrite Hd1).
  destruct (Z.ltb_spec ret 0); [eexists _, _, _; split_and!; [done..|by right|unfold EINVAL; lia]|].
  rewrite Hb, Hrec by done. cbn [app]. rewrite at_0, at_1, at_2. run. rewrite Z.eqb_refl. run.
  rewrite (proj2 (Z.eqb_neq (bm_y _) 0)) by done. run. fold e.
  unfold FIRST_USAGE_DATE_DEFAULT in He. rewrite (swrap_id 64 e) by lia.
  change [u8 _; u8 _; u8 _] with (xymd (rtc_time64_to_tm e)).
  destruct (xymd_date e He) as (a0 & a1 & a2 & Hx & Ha0 & _).
  destruct (write_ready knows sees holds st1 GBMS_TAG_AYMD (xymd (rtc_time64_to_tm e)) 3 Hst1)
    as (wret & st2 & -> & Hst2 & Ho2 & Hnew); [by rewrite Hx|]. run.
  assert (Ho : only [GBMS_TAG_AYMD] st st2) by (by etrans).
  destruct (Z.ltb_spec wret 0); [eexists _, _, _; split_and!; [done..|by right|unfold EINVAL; lia]|].
  assert (Hrec2 : records st2 (xymd (rtc_time64_to_tm e))).
  { eexists. rewrite Hnew by done. unfold overlay. rewrite Hx. cbn [take Z.to_nat Pos.to_nat]. done. }
  eexists _, _, _; split_and!; [done..|by left|]. intros _. split_and!.
  - apply day_start_ok. lia.
  - apply day_start_ok. lia.
  - intros c'. by apply show_known.
  - intros c' v'. rewrite Hx in Hrec2. apply (store_again c' v' _ st2 a0 a1 a2); [done..|lia].
  - intros c' b0 st0 Hst0 Hdev Hf0 Hact0. apply show_stored; try done.
    destruct Hrec2 as [r' Hr']. exists r'. by rewrite Hdev.
Qed.

End usage.
