(* ===== verification/BhiUpdate.v ===== *)
(** * The battery health index: updates (src/bms/google_battery.c)

    The indices of [BhiIndex.v] are weighed into one, which gives a status.  They are
    recomputed when the charger goes away, when the history is read, and on a change of the
    algorithm.  Under one algorithm the driver also has the gauge learn its capacity again. *)

From Stdlib Require Import String.
From S2P Require Import Prelude GbmsProfile GbmsStorage Eeprom Ssoc Msc.
From S2P Require Import Bhi BhiRes BhiSwell BhiIndex BhiDate.

(** The part of [struct batt_drv] that the index reads and writes, with the storage and the
    gauge that it goes through. *)
Record bhi_drv {D G : Type} := mk_bhi {
  b_health : health_data;
  b_profile : gbms_chg_profile;
  b_age : age_state;
  b_cc : ccbin_data;
  b_sd : swelling_data;
  b_cycle_count : Z;
  b_battery_capacity : Z;
  b_batt_id : Z;
  b_msc_state : Z;
  b_chg_done : bool;
  b_store : gbms_storage D;
  b_gauge : G;
}.
Arguments bhi_drv : clear implicits.

Definition set_h {D G} (d : bhi_drv D G) (h : health_data) : bhi_drv D G :=
  mk_bhi _ _ h (b_profile d) (b_age d) (b_cc d) (b_sd d) (b_cycle_count d) (b_battery_capacity d)
    (b_batt_id d) (b_msc_state d) (b_chg_done d) (b_store d) (b_gauge d).
Definition set_data {D G} (d : bhi_drv D G) (b : bhi_data) : bhi_drv D G :=
  set_h d (set_bhi (b_health d) b).
Definition set_store {D G} (d : bhi_drv D G) (st : gbms_storage D) : bhi_drv D G :=
  mk_bhi _ _ (b_health d) (b_profile d) (b_age d) (b_cc d) (b_sd d) (b_cycle_count d)
    (b_battery_capacity d) (b_batt_id d) (b_msc_state d) (b_chg_done d) st (b_gauge d).
Definition set_gauge {D G} (d : bhi_drv D G) (g : G) : bhi_drv D G :=
  mk_bhi _ _ (b_health d) (b_profile d) (b_age d) (b_cc d) (b_sd d) (b_cycle_count d)
    (b_battery_capacity d) (b_batt_id d) (b_msc_state d) (b_chg_done d) (b_store d) g.
Definition set_batt_id {D G} (d : bhi_drv D G) (id : Z) : bhi_drv D G :=
  mk_bhi _ _ (b_health d) (b_profile d) (b_age d) (b_cc d) (b_sd d) (b_cycle_count d)
    (b_battery_capacity d) id (b_msc_state d) (b_chg_done d) (b_store d) (b_gauge d).

(** [bhi_w]: the weights of capacity, impedance and swelling. *)
Definition bhi_w (algo : Z) : Z * Z * Z :=
  if algo =? BHI_ALGO_MIX_N_MATCH then (90, 0, 10) else (100, 0, 0).

Definition bhi_algo_has_grace (algo : Z) : bool :=
  (algo =? BHI_ALGO_ACHI_B) || (algo =? BHI_ALGO_ACHI_RAVG_B) || (algo =? BHI_ALGO_ACHI_CARETAKER).

Definition bhi_calc_health_status (algo health_index : Z) (h : health_data) : outcome Z :=
  let s := h_settings h in
  if negb (hd_health_status (h_debug h) =? 0) then Ret (hd_health_status (h_debug h)) else
  if algo =? BHI_ALGO_DISABLED then Ret BH_UNKNOWN else
  let* na :=
    if bhi_algo_has_grace algo then
      let cycle_count := bd_cycle_count (h_bhi h) in
      let* l_bound := bhi_get_capacity_bound cycle_count (cb_limit (bd_lower (h_bhi h))) in
      Ret ((l_bound =? 0) && negb (hs_cycle_grace s =? 0) && (cycle_count <? hs_cycle_grace s))
    else Ret false in
  if (na : bool) then Ret BH_NOT_AVAILABLE else
  if h_cal_state h =? REC_STATE_SCHEDULED then Ret BH_INCONSISTENT else
  let health_status :=
    if health_index <? 0 then BH_UNKNOWN else
    if health_index <=? hs_need_rep s then BH_NEEDS_REPLACEMENT else
    if health_index <=? hs_marginal s then BH_MARGINAL else BH_NOMINAL in
  Ret (if algo =? BHI_ALGO_ACHI_CARETAKER then Z.max health_status (hr_caretaker (h_result h))
       else health_status).

Definition bhi_get_caretaker_status (p : gbms_chg_profile) (a : age_state) : outcome Z :=
  let cycle_count := aacp_get_cc a in
  let* last_aafv_entry := gbms_aafv_get_last_entry p in
  let status := if negb (last_aafv_entry =? 0) && (last_aafv_entry <=? cycle_count)
                then ag_last_entry a else BH_NOMINAL in
  let status := if negb (ag_cut_off_cycles a =? AACP_OPT_OUT_CUT_OFF_DISABLED) &&
                   (ag_cut_off_cycles a <=? cycle_count)
                then Z.max status (ag_over_cutoff a) else status in
  Ret (if (0 <=? ag_cliff_cycle a) && (ag_cliff_cycle a <=? cycle_count)
       then Z.max status (ag_over_cliff a) else status).

Definition batt_bhi_map_algo (algo : Z) (h : health_data) : Z :=
  if negb (algo =? BHI_ALGO_DTOOL) then algo else
  if negb (hs_algo (h_settings h) =? BHI_ALGO_DISABLED) then hs_algo (h_settings h)
  else BHI_ALGO_ACHI_B.

Section update.
Context {D G : Type} `{!FuelGauge G} `{Calendar}.
#[local] Abbreviation bhi_drv := (bhi_drv D G).

(** ** The index *)

Definition bhi_individual_conditions_index (c : clock) (d : bhi_drv) : outcome (Z * bhi_drv) :=
  let cur_capacity_pct := s32 (100 - bd_fade (h_bhi (b_health d))) in
  let bhi_indi_cap := hs_indi_cap (h_settings (b_health d)) in
  let* q := get_activation_date c (h_bhi (b_health d)) (b_store d) in
  let '(ret, tm, b, st) := q in
  let d := set_store (set_data d b) st in
  let battery_age :=
    if ret =? 0 then s32 (u64 (local_epoch c - rtc_tm_to_time64 tm) / ONE_HR_SEC)
    else bd_battery_age b in
  if (ONE_YEAR_HRS <=? battery_age) || (cur_capacity_pct <=? bhi_indi_cap)
  then Ret (s32 (hs_need_rep (h_settings (b_health d)) * 100), d)
  else Ret (BHI_ALGO_FULL_HEALTH, d).

(** The weighed mean; an index that is an error has no weight. *)
Definition weigh (w : Z * Z * Z) (cap_index imp_index sd_index : Z) : Z :=
  let '(w_ci, w_ii, w_sd) := w in
  let w_ci := if cap_index <? 0 then 0 else w_ci in
  let w_ii := if imp_index <? 0 then 0 else w_ii in
  let w_sd := if sd_index <? 0 then 0 else w_sd in
  let ratio := s32 (w_ci + w_ii + w_sd) in
  if 100 <? ratio then - ERANGE else
  if ratio =? 0 then 100 else
  s32 (cdiv (s32 (cap_index * w_ci + imp_index * w_ii + sd_index * w_sd)) ratio).

Definition bhi_calc_health_index (algo : Z) (c : clock) (cap_index imp_index sd_index : Z)
    (d : bhi_drv) : outcome (Z * bhi_drv) :=
  let h := b_health d in
  if negb (hd_health_index (h_debug h) =? 0) then Ret (hd_health_index (h_debug h), d) else
  if algo =? BHI_ALGO_DISABLED then Ret (BHI_ALGO_FULL_HEALTH, d) else
  if algo =? BHI_ALGO_CYCLE_COUNT then let* index := bhi_cycle_count_index h in Ret (index, d) else
  if (algo =? BHI_ALGO_ACHI) || (algo =? BHI_ALGO_ACHI_B) || (algo =? BHI_ALGO_ACHI_RECAL) ||
     (algo =? BHI_ALGO_ACHI_RAVG_B) || (algo =? BHI_ALGO_MIX_N_MATCH) || (algo =? BHI_ALGO_ACHI_FCR) ||
     (algo =? BHI_ALGO_ACHI_CARETAKER) then
    Ret (weigh (bhi_w algo) cap_index imp_index sd_index, d)
  else if algo =? BHI_ALGO_DEBUG then
    let s := h_settings h in
    Ret (weigh (hs_w_ci s, hs_w_pi s, hs_w_sd s) cap_index imp_index sd_index, d)
  else if algo =? BHI_ALGO_INDI then bhi_individual_conditions_index c d
  else Ret (- EINVAL, d).

(** Returns whether anything changed, or an error. *)
Definition batt_bhi_stats_update (c : clock) (d : bhi_drv) : outcome (Z * bhi_drv) :=
  let h := b_health d in
  let algo := hs_algo (h_settings h) in
  let age := GPSY_GET_PROP BATTERY_AGE (b_gauge d) in
  if age <? 0 then Ret (- EIO, d) else
  let cycles := if negb (hd_cycle_count (h_debug h) =? 0) then hd_cycle_count (h_debug h)
                else b_cycle_count d in
  let d := set_data d (set_age (h_bhi h) cycles age) in
  let* cap := bhi_calc_cap_index algo (b_age d) (b_health d) in
  let cap := bhi_cap_index_bound algo cap in
  let imp := bhi_calc_imp_index algo (b_health d) in
  let imp := if imp <? 0 then 0 else imp in
  let sd := bhi_calc_sd_index (b_health d) in
  let sd := if sd <? 0 then BHI_ALGO_FULL_HEALTH else sd in
  let* q := bhi_calc_health_index algo c cap imp sd d in
  let '(index, d) := q in
  let index := if index <? 0 then BHI_ALGO_FULL_HEALTH else index in
  let* caretaker := bhi_get_caretaker_status (b_profile d) (b_age d) in
  let old := h_result h in
  let d := set_h d (set_hresult (b_health d) (mk_hresult index (hr_status old) cap imp sd caretaker)) in
  let* status := bhi_calc_health_status algo (BHI_ROUND_INDEX index) (b_health d) in
  let changed := negb (hr_cap old =? cap) || negb (hr_imp old =? imp) || negb (hr_sd old =? sd) ||
                 negb (hr_index old =? index) || negb (hr_status old =? status) in
  Ret (if (changed : bool) then 1 else 0,
       set_h d (set_hresult (b_health d) (mk_hresult index status cap imp sd caretaker))).

(** Always returns 0; the errors of the parts are logged. *)
Definition batt_bhi_stats_update_all (c : clock) (d : bhi_drv) : outcome (Z * bhi_drv) :=
  let* ccbin := bhi_cycle_count_residency (b_cc d) BHI_CCBIN_INDEX_LIMIT in
  let* swell := bhi_calc_sd_total (b_sd d) in
  let b := set_swell (h_bhi (b_health d)) swell ccbin in
  let '(b, g) := bhi_imp_data_update (b_gauge d) b in
  let d := set_gauge d g in
  let* q := bhi_cap_data_update (b_gauge d) b in
  let d := set_data d q.2 in
  let* q := batt_bhi_stats_update c d in
  Ret (0, q.2).

(** ** Learning the capacity again *)

Definition batt_bhi_need_recalibration (d : bhi_drv) : outcome bool :=
  let h := b_health d in
  if negb (h_cal_state h =? REC_STATE_OK) || negb (h_cal_mode h =? REC_MODE_RESET) then Ret false else
  if negb (hs_algo (h_settings h) =? BHI_ALGO_ACHI_RECAL) then Ret false else
  if GPSY_GET_PROP GAUGE_HEALTH (b_gauge d) =? POWER_SUPPLY_HEALTH_CALIBRATION_REQUIRED
  then Ret true else
  let ret := GPSY_GET_PROP CHARGE_FULL (b_gauge d) in
  if ret <? 0 then Ret false else
  let full_cap_nom := cdiv ret 1000 in
  let* l_trigger := bhi_get_capacity_bound (b_cycle_count d) (cb_trigger (bd_lower (h_bhi h))) in
  let* u_trigger := bhi_get_capacity_bound (b_cycle_count d) (cb_trigger (bd_upper (h_bhi h))) in
  Ret ((full_cap_nom <? l_trigger) || (u_trigger <? full_cap_nom)).

Definition batt_bhi_update_recalibration_status (d : bhi_drv) : outcome (Z * bhi_drv) :=
  let h := b_health d in
  let recal_state := GPSY_GET_PROP RECAL_FG (b_gauge d) in
  if recal_state <? 0 then Ret (recal_state, d) else
  if negb (recal_state =? 0) then
    Ret (0, set_h d (set_cal h REC_MODE_RESTART REC_STATE_SCHEDULED)) else
  let is_best_time :=
    ((h_cal_mode h =? REC_MODE_BEST_TIME) &&
     ((b_msc_state d =? MSC_HEALTH_PAUSE) || b_chg_done d)) ||
    (h_cal_mode h =? REC_MODE_IMMEDIATE) in
  if is_best_time then
    let '(ret, g) := GPSY_SET_PROP RECAL_FG (h_cal_target h) (b_gauge d) in
    let d := set_gauge d g in
    Ret (ret, if ret =? 0 then set_h d (set_cal h REC_MODE_RESTART REC_STATE_SCHEDULED) else d)
  else if h_cal_mode h =? REC_MODE_RESTART then
    Ret (0, set_h d (set_cal h REC_MODE_RESET REC_STATE_OK))
  else
    let* need := batt_bhi_need_recalibration d in
    Ret (0, if (need : bool) then set_h d (set_cal h REC_MODE_BEST_TIME REC_STATE_SCHEDULED) else d).

(** ** Requests from user space *)

Definition health_algo_store (c : clock) (value : Z) (d : bhi_drv) : outcome (Z * bhi_drv) :=
  if (value <? BHI_ALGO_DISABLED) || (BHI_ALGO_MAX <=? value) || (value =? BHI_ALGO_DTOOL)
  then Ret (- EINVAL, d) else
  let s := h_settings (b_health d) in
  batt_bhi_stats_update_all c
    (set_h d (set_settings (b_health d)
       (mk_hset value (hs_w_ci s) (hs_w_pi s) (hs_w_sd s) (hs_marginal s) (hs_need_rep s)
          (hs_cc_marginal s) (hs_cc_need_rep s) (hs_indi_cap s) (hs_cycle_grace s)))).

Definition health_indi_cap_store (value : Z) (d : bhi_drv) : bhi_drv :=
  if (100 <? value) || (value <? 0) then d else
  let s := h_settings (b_health d) in
  set_h d (set_settings (b_health d)
    (mk_hset (hs_algo s) (hs_w_ci s) (hs_w_pi s) (hs_w_sd s) (hs_marginal s) (hs_need_rep s)
       (hs_cc_marginal s) (hs_cc_need_rep s) value (hs_cycle_grace s))).

Definition debug_bhi_cycle_grace_write (value : Z) (d : bhi_drv) : bhi_drv :=
  let s := h_settings (b_health d) in
  set_h d (set_settings (b_health d)
    (mk_hset (hs_algo s) (hs_w_ci s) (hs_w_pi s) (hs_w_sd s) (hs_marginal s) (hs_need_rep s)
       (hs_cc_marginal s) (hs_cc_need_rep s) (hs_indi_cap s) (s32 value))).

(** [cal_mode] is an [u8]. *)
Definition health_set_cal_mode_store (value : Z) (d : bhi_drv) : outcome (Z * bhi_drv) :=
  if h_cal_state (b_health d) =? REC_STATE_SCHEDULED then Ret (0, d) else
  batt_bhi_update_recalibration_status
    (set_h d (set_cal (b_health d) (u8 value) (h_cal_state (b_health d)))).

(** A line of [health_index_stats]. *)
Record stats_line := mk_line {
  ln_algo : Z;
  ln_status : Z;
  ln_health : Z;
  ln_cap : Z;
  ln_imp : Z;
  ln_swell : Z;
  ln_capacity : Z;
  ln_impedance : Z;
  ln_age : Z;
  ln_cycles : Z;
}.

Definition index_stats_line (c : clock) (i : Z) (d : bhi_drv) : outcome (list stats_line * bhi_drv) :=
  let use_algo := batt_bhi_map_algo i (b_health d) in
  let* cap := bhi_calc_cap_index use_algo (b_age d) (b_health d) in
  let cap := bhi_cap_index_bound use_algo cap in
  let imp := bhi_calc_imp_index use_algo (b_health d) in
  let sd := bhi_calc_sd_index (b_health d) in
  let* q := bhi_calc_health_index use_algo c cap imp sd d in
  let '(index, d) := q in
  let* status := bhi_calc_health_status use_algo (BHI_ROUND_INDEX index) (b_health d) in
  if index <? 0 then Ret ([], d) else
  let b := h_bhi (b_health d) in
  Ret ([mk_line i status (BHI_ROUND_INDEX index) (BHI_ROUND_INDEX cap) (BHI_ROUND_INDEX imp)
          (bd_swell_cumulative b) (bhi_health_get_capacity use_algo b)
          (bhi_health_get_impedance use_algo b) (bd_battery_age b) (bd_cycle_count b)], d).

Fixpoint index_stats_loop (c : clock) (turns : nat) (i : Z) (d : bhi_drv)
    : outcome (list stats_line * bhi_drv) :=
  match turns with
  | O => Ret ([], d)
  | S turns =>
    let* q := index_stats_line c i d in
    let* r := index_stats_loop c turns (i + 1) q.2 in
    Ret (q.1 ++ r.1, r.2)
  end.

Definition health_index_stats_show (c : clock) (d : bhi_drv) : outcome (list stats_line * bhi_drv) :=
  if bd_cycle_count (h_bhi (b_health d)) <=? 0 then Ret ([], d)
  else index_stats_loop c (Z.to_nat BHI_ALGO_MAX) BHI_ALGO_DISABLED d.

(** The status and the index of [bhi_debug_status]. *)
Definition debug_get_bhi_status (c : clock) (d : bhi_drv) : outcome (Z * Z * bhi_drv) :=
  let g := h_debug (b_health d) in
  let* q := if hd_health_index g =? 0
            then bhi_calc_health_index BHI_ALGO_DEBUG c (hd_cap_index g) (hd_imp_index g) (hd_sd_index g) d
            else Ret (hd_health_index g, d) in
  let '(health_idx, d) := q in
  let* status := bhi_calc_health_status BHI_ALGO_DEBUG (BHI_ROUND_INDEX health_idx) (b_health d) in
  Ret (status, health_idx, d).

End update.

(** ** Start-up *)

(** Ten cells of sixteen bits, or an error. *)
Class DeviceTree16 := {
  of_property_read_u16_array : Z -> string -> Z -> Z + list Z;
}.

Section init.
Context {D G : Type} `{!FuelGauge G} `{DeviceTree} `{!DeviceTree16}.
#[local] Abbreviation bhi_drv := (bhi_drv D G).

(** A table of the battery's node when it is there and its cells lie in range. *)
Definition read_boundary (node : Z) (name : string) (lower upper : Z) : outcome (option (list Z)) :=
  match of_property_read_u16_array (gbms_batt_id_node node) name BHI_TREND_POINTS_SIZE with
  | inl _ => Ret None
  | inr l => let* ok := bhi_bound_validity_check l lower upper in
             Ret (if (ok : bool) then Some l else None)
  end.

Definition all_points (x : Z) : list Z := replicate (Z.to_nat BHI_TREND_POINTS_SIZE) (u16 x).

Definition init_settings (node : Z) : health_settings :=
  let read name dflt := read_or node name (fun v => s32 v) dflt in
  mk_hset
    (match of_property_read_u32 (gbms_batt_id_node node) "google,bhi-algo-ver" with
     | inr v => s32 v
     | inl _ => read "google,bhi-algo-ver" BHI_ALGO_DISABLED
     end)
    (read "google,bhi-w_ci" 100) (read "google,bhi-w_pi" 0) (read "google,bhi-w_sd" 0)
    (read "google,bhi-status-marginal" BHI_MARGINAL_THRESHOLD_DEFAULT)
    (read "google,bhi-status-need-rep" BHI_NEED_REP_THRESHOLD_DEFAULT)
    (read "google,bhi-cycle-count-marginal" BHI_CC_MARGINAL_THRESHOLD_DEFAULT)
    (read "google,bhi-cycle-count-need-rep" BHI_CC_NEED_REP_THRESHOLD_DEFAULT)
    (read "google,bhi-indi-cap" BHI_INDI_CAP_DEFAULT)
    (read "google,bhi-cycle-grace" BHI_CYCLE_GRACE_DEFAULT).

Definition init_bounds (node capacity : Z) (b : bhi_data) : outcome bhi_data :=
  let* l_limit := read_boundary node "google,bhi-l-bound" 0 capacity in
  let* u_limit := read_boundary node "google,bhi-u-bound" capacity BHI_CAPACITY_MAX in
  let* l_trigger := read_boundary node "google,bhi-l-trigger" BHI_CAPACITY_MIN BHI_CAPACITY_MAX in
  let* u_trigger := read_boundary node "google,bhi-u-trigger" BHI_CAPACITY_MIN BHI_CAPACITY_MAX in
  Ret (set_bounds b (bd_trend b)
    (mk_bound (default (all_points (cdiv (s32 (bd_pack_capacity b * 60)) 100)) l_limit)
              (default (cb_trigger (bd_lower b)) l_trigger))
    (mk_bound (default (all_points (bd_pack_capacity b)) u_limit)
              (default (all_points 0xFFFF) u_trigger))).

(** Always returns 0. *)
Definition batt_bhi_init (node : Z) (d : bhi_drv) : outcome bhi_drv :=
  let h := b_health d in
  let* b := init_bounds node (b_battery_capacity d) (set_pack (h_bhi h) (b_battery_capacity d)) in
  let d := set_batt_id d (GPSY_GET_PROP BATT_ID (b_gauge d)) in
  Ret (set_h d (mk_hdata (init_settings node) no_debug (h_result h) b REC_MODE_RESET REC_STATE_OK
                  (h_cal_target h))).

End init.
