(* ===== verification/BhiSafe.v ===== *)
(** * The battery health index: updates return, and what they publish

    [bhi_ok] is what start-up establishes and every update keeps; [bhi_step] puts the entry
    points and what other parts of the driver change in between into one relation. *)

From S2P Require Import Prelude GbmsProfile GbmsStorage StorageUse Eeprom Ssoc Msc.
From S2P Require Import Bhi BhiRes BhiSwell BhiIndex BhiDate BhiUpdate.

(** ** Well-formed states *)

Record data_ok (b : bhi_data) : Prop := {
  do_pack : 1 <= bd_pack_capacity b <= U16_MAX;
  do_lower : bound_ok (cb_limit (bd_lower b));
  do_upper : bound_ok (cb_limit (bd_upper b));
  do_lower_t : bound_ok (cb_trigger (bd_lower b));
  do_upper_t : bound_ok (cb_trigger (bd_upper b));
  do_act : length (bd_act_date b) = 3%nat;
  do_cycles : bd_cycle_count b <= CYCLES_MAX;
  do_ccbin : 0 <= bd_ccbin_index b <= BHI_ALGO_FULL_HEALTH;
}.

(** An algorithm that may be selected. *)
Definition algo_ok (algo : Z) : Prop := 0 <= algo < BHI_ALGO_MAX /\ algo <> BHI_ALGO_DTOOL.

Record settings_ok (s : health_settings) : Prop := {
  so_algo : algo_ok (hs_algo s);
  so_rep : 0 <= hs_need_rep s <= hs_marginal s;
  so_marginal : hs_marginal s <= 100;
  so_cc : 0 <= hs_cc_marginal s < 2 ^ 20;
  so_cc_rep : 0 <= hs_cc_need_rep s < 2 ^ 20;
}.

(** The counts and statuses of the profiles that adjust to the age. *)
Record age_ok (a : age_state) : Prop := {
  ao_cc : aacp_get_cc a <= CYCLES_MAX;
  ao_cliff : BH_NOMINAL <= ag_over_cliff a <= BH_NEEDS_REPLACEMENT;
  ao_cutoff : BH_NOMINAL <= ag_over_cutoff a <= BH_NEEDS_REPLACEMENT;
  ao_last : BH_NOMINAL <= ag_last_entry a <= BH_NEEDS_REPLACEMENT;
}.

(** Some charge has been counted, less than 2386 full cycles. *)
Record cc_ok (c : ccbin_data) : Prop := {
  co_len : length (cc_count c) = 10%nat;
  co_range : Forall (fun x => 0 <= x < U16_MAX) (cc_count c);
  co_some : 0 < counted (low_bucket BHI_CCBIN_INDEX_LIMIT) 0 (cc_count c) +
                counted (top_bucket BHI_CCBIN_INDEX_LIMIT) 0 (cc_count c);
  co_fits : counted (low_bucket BHI_CCBIN_INDEX_LIMIT) 0 (cc_count c) < 214748;
}.

Definition sd_ok (s : swelling_data) : Prop := length (sd_chg s) = 3%nat /\ length (sd_dischg s) = 3%nat.

Definition aafv_ok (p : gbms_chg_profile) : Prop := exists x, gbms_aafv_get_last_entry p = Ret x.

(** Modes of recalibration that the driver itself enters belong to a scheduled one. *)
Definition cal_ok (h : health_data) : Prop :=
  h_cal_state h = REC_STATE_OK \/
  (h_cal_state h = REC_STATE_SCHEDULED /\
   (h_cal_mode h = REC_MODE_BEST_TIME \/ h_cal_mode h = REC_MODE_RESTART)).

(** The algorithms whose indices have no upper bound of their own. *)
Definition unbounded (algo : Z) : Prop :=
  algo = BHI_ALGO_ACHI \/ algo = BHI_ALGO_CYCLE_COUNT \/ algo = BHI_ALGO_DEBUG.

(** What is published; [narrow]: none of those has been selected. *)
Record result_ok (narrow : Prop) (r : health_result) : Prop := {
  ro_cap : 0 <= hr_cap r;
  ro_cap_top : narrow -> hr_cap r <= BHI_ALGO_FULL_HEALTH;
  ro_imp : 0 <= hr_imp r;
  ro_sd : 0 <= hr_sd r <= BHI_ALGO_FULL_HEALTH;
  ro_index : 0 <= hr_index r;
  ro_index_top : narrow -> hr_index r <= BHI_ALGO_FULL_HEALTH;
  ro_status : hr_status r ∈ [BH_UNKNOWN; BH_NOMINAL; BH_MARGINAL; BH_NEEDS_REPLACEMENT;
                             BH_NOT_AVAILABLE; BH_INCONSISTENT];
}.

(** ** The parts return *)

Lemma bound_ret l cc :
  bound_ok l -> cc <= CYCLES_MAX -> bhi_get_capacity_bound cc l = Ret (bound_at l cc).
Proof. intros Hl Hcc. rewrite capacity_bound_eq by done. unfold bound_at. by destruct (_ <=? _). Qed.

Lemma cap_index_ret algo a h :
  data_ok (h_bhi h) -> aacp_get_cc a <= CYCLES_MAX -> h_debug h = no_debug ->
  exists v, bhi_calc_cap_index algo a h = Ret v.
Proof.
  intros [] Hcc Hd. unfold bhi_calc_cap_index. rewrite Hd. cbn [no_debug hd_cap_index Z.eqb negb].
  destruct (_ =? BHI_ALGO_DISABLED); [by eauto|]. rewrite (proj2 (Z.eqb_neq (bd_pack_capacity _) 0)) by lia.
  destruct (bhi_algo_has_bounds algo); [|run; by eauto].
  unfold bhi_algo_apply_bounds. rewrite !bound_ret by done. run. by eauto.
Qed.

Lemma cap_bound_range algo v :
  0 <= bhi_cap_index_bound algo v /\
  (algo <> BHI_ALGO_ACHI -> algo <> BHI_ALGO_CYCLE_COUNT -> 0 <= algo ->
   (algo = BHI_ALGO_DISABLED -> v <= BHI_ALGO_FULL_HEALTH) ->
   bhi_cap_index_bound algo v <= BHI_ALGO_FULL_HEALTH).
Proof.
  unfold bhi_cap_index_bound, BHI_ALGO_FULL_HEALTH, BHI_ALGO_ACHI, BHI_ALGO_DISABLED, BHI_ALGO_CYCLE_COUNT.
  destruct (Z.ltb_spec v 0); [lia|]. destruct ((10000 <? v) && (2 <? algo)) eqn:E; [lia|].
  split; [done|]. intros. apply Bool.andb_false_iff in E as [E|E]; apply Z.ltb_ge in E; lia.
Qed.

Lemma cycle_index_ret h :
  settings_ok (h_settings h) -> exists v, bhi_cycle_count_index h = Ret v /\ 0 <= v <= BHI_ALGO_FULL_HEALTH.
Proof.
  intros [_ Hrep Hm Hcc Hcr]. unfold bhi_cycle_count_index.
  destruct (_ || _) eqn:E; [by exists BHI_ALGO_FULL_HEALTH|].
  apply Bool.orb_false_iff in E as [_ E%Z.leb_gt].
  assert (Hq : forall b, 0 <= b < hs_cc_need_rep (h_settings h) ->
    (s32 (b - hs_cc_need_rep (h_settings h)) =? 0) = false).
  { intros b Hb. rewrite swrap_id by lia. apply Z.eqb_neq. lia. }
  unfold quot_c. destruct (hs_marginal (h_settings h) =? hs_need_rep (h_settings h));
    rewrite Hq by lia; run; (eexists; split; [done|]);
    unfold BHI_ALGO_FULL_HEALTH; repeat case_test; lia.
Qed.

(** One full weight gives the index itself; otherwise a mean is not above its parts. *)
Lemma weigh_capacity cap imp sd : 0 <= cap -> 0 <= imp -> 0 <= sd -> cap <= 2 * BHI_ALGO_FULL_HEALTH ->
  weigh (100, 0, 0) cap imp sd = cap.
Proof.
  intros Hc Hi Hs Ht. unfold weigh, BHI_ALGO_FULL_HEALTH in *.
  rewrite !(proj2 (Z.ltb_ge _ 0)) by lia. change (s32 (100 + 0 + 0)) with 100. cbn -[Z.mul cdiv swrap Z.add].
  rewrite !Z.mul_0_r, !Z.add_0_r, (swrap_id 32 (cap * 100)), Z.quot_mul by lia. by rewrite swrap_id by lia.
Qed.

Lemma weigh_mix cap imp sd : 0 <= cap <= BHI_ALGO_FULL_HEALTH -> 0 <= imp -> 0 <= sd <= BHI_ALGO_FULL_HEALTH ->
  weigh (90, 0, 10) cap imp sd = (90 * cap + 10 * sd) / 100.
Proof.
  intros Hc Hi Hs. unfold weigh, BHI_ALGO_FULL_HEALTH in *.
  rewrite !(proj2 (Z.ltb_ge _ 0)) by lia. change (s32 (90 + 0 + 10)) with 100. cbn -[Z.mul cdiv swrap Z.add].
  rewrite Z.mul_0_r, Z.add_0_r, (swrap_id 32 (cap * 90 + sd * 10)), Z.quot_div_nonneg by lia.
  replace (cap * 90 + sd * 10) with (90 * cap + 10 * sd) by lia.
  rewrite swrap_id; [done|lia|]. split; [|apply Z.div_lt_upper_bound; lia].
  transitivity 0; [lia|]. apply Z.div_pos; lia.
Qed.

Lemma status_ret algo index h :
  data_ok (h_bhi h) -> h_debug h = no_debug ->
  (algo = BHI_ALGO_ACHI_CARETAKER -> BH_NOMINAL <= hr_caretaker (h_result h) <= BH_NEEDS_REPLACEMENT) ->
  exists v, bhi_calc_health_status algo index h = Ret v /\
    v ∈ [BH_UNKNOWN; BH_NOMINAL; BH_MARGINAL; BH_NEEDS_REPLACEMENT; BH_NOT_AVAILABLE; BH_INCONSISTENT].
Proof.
  intros [] Hd Hc. unfold bhi_calc_health_status. rewrite Hd. cbn [no_debug hd_health_status Z.eqb negb].
  destruct (algo =? BHI_ALGO_DISABLED); [eexists; split; [done|set_solver]|].
  set (na := if bhi_algo_has_grace algo then _ else _).
  assert (Hna : exists b, na = Ret b).
  { subst na. destruct (bhi_algo_has_grace algo); [|by eexists]. rewrite bound_ret by done. run. by eexists. }
  destruct Hna as [b ->]. run. destruct b; [eexists; split; [done|set_solver]|].
  destruct (_ =? REC_STATE_SCHEDULED); [eexists; split; [done|set_solver]|].
  eexists; split; [done|].
  set (s := if index <? 0 then _ else _).
  assert (Hs : s = BH_UNKNOWN \/ s = BH_NOMINAL \/ s = BH_MARGINAL \/ s = BH_NEEDS_REPLACEMENT).
  { subst s. repeat case_match; auto. }
  unfold BH_NOMINAL, BH_MARGINAL, BH_NEEDS_REPLACEMENT, BH_UNKNOWN in *.
  destruct (Z.eqb_spec algo BHI_ALGO_ACHI_CARETAKER) as [E|E]; [specialize (Hc E)|];
    rewrite !elem_of_cons; lia.
Qed.

Lemma caretaker_range p a :
  aafv_ok p -> age_ok a ->
  exists v, bhi_get_caretaker_status p a = Ret v /\ BH_NOMINAL <= v <= BH_NEEDS_REPLACEMENT.
Proof.
  intros [x Hx] [_ ? ? ?]. unfold bhi_get_caretaker_status. rewrite Hx. run.
  eexists; split; [done|]. unfold BH_NOMINAL, BH_NEEDS_REPLACEMENT in *.
  repeat case_match; lia.
Qed.

(** ** The whole state *)

Section safe.
Context {D G : Type} `{!FuelGauge G} `{Calendar}.
Context (knows : nat -> Z -> bool) (sees : D -> Z -> list Z) (holds : D -> Prop).
#[local] Abbreviation ready := (ready knows sees holds).
#[local] Abbreviation bhi_drv := (bhi_drv D G).
Context (narrow : Prop).

Record bhi_ok (d : bhi_drv) : Prop := {
  bo_data : data_ok (h_bhi (b_health d));
  bo_settings : settings_ok (h_settings (b_health d));
  bo_debug : h_debug (b_health d) = no_debug;
  bo_cal : cal_ok (b_health d);
  bo_narrow : narrow -> ~ unbounded (hs_algo (h_settings (b_health d)));
  bo_result : result_ok narrow (h_result (b_health d));
  bo_caretaker : BH_NOMINAL <= hr_caretaker (h_result (b_health d)) <= BH_NEEDS_REPLACEMENT;
  bo_aafv : aafv_ok (b_profile d);
  bo_age : age_ok (b_age d);
  bo_cc : cc_ok (b_cc d);
  bo_sd : sd_ok (b_sd d);
  bo_cycles : b_cycle_count d <= CYCLES_MAX;
  bo_store : ready (b_store d);
}.

(** What computing the index may change beside its result: the date of activation is loaded. *)
Definition with_date (d : bhi_drv) (date : list Z) (st : gbms_storage D) : bhi_drv :=
  set_store (set_data d (set_dates (h_bhi (b_health d)) (bd_bm_date (h_bhi (b_health d))) date)) st.

Lemma with_same_date d : with_date d (bd_act_date (h_bhi (b_health d))) (b_store d) = d.
Proof. by destruct d as [[? ? ? [] ? ? ?] ? ? ? ? ? ? ? ? ? ? ?]. Qed.

Definition loads_date (d d' : bhi_drv) : Prop :=
  exists date st, d' = with_date d date st /\ length date = 3%nat /\ ready st.

Lemma length_read_over bytes old : length old = 3%nat -> length (read_over 3 bytes old) = 3%nat.
Proof. intros Hl. unfold read_over. rewrite length_take, length_app, length_drop. lia. Qed.

Lemma bytes_to_date_ret l : length l = 3%nat -> exists x, bytes_to_date l = Ret x.
Proof.
  intros Hl. destruct l as [|a [|b [|c [|? ?]]]]; try done. unfold bytes_to_date.
  rewrite at_0, at_1, at_2. run. by eexists.
Qed.

Lemma activation_ret c b st :
  length (bd_act_date b) = 3%nat -> ready st ->
  exists ret tm date st', get_activation_date c b st = Ret (ret, tm, set_dates b (bd_bm_date b) date, st') /\
    length date = 3%nat /\ ready st'.
Proof.
  intros Hl Hst. unfold get_activation_date.
  destruct (at_in (bd_act_date b) 0) as [first ->]; [lia|]. run.
  assert (Hsame : b = set_dates b (bd_bm_date b) (bd_act_date b)) by (by destruct b).
  destruct (first =? 0).
  - unfold batt_get_activation_date.
    destruct (read_ready knows sees holds st GBMS_TAG_AYMD 3 Hst) as (ret & bytes & st1 & -> & Hst1 & _ & _). run.
    pose proof (length_read_over bytes (bd_act_date b) Hl) as Hl'.
    destruct (Z.ltb_spec ret 0).
    { run. rewrite (proj2 (Z.ltb_lt ret 0)) by lia. by eauto 8. }
    cbn [set_dates bd_act_date]. destruct (at_in (read_over 3 bytes (bd_act_date b)) 0) as [f1 ->]; [lia|]. run.
    change (0 <? 0) with false. cbv iota. destruct (f1 =? 0xff); cbn [set_dates bd_act_date bd_bm_date].
    + destruct (bytes_to_date_ret act_date_default) as [x ->]; [done|]. run. by eexists _, _, act_date_default, st1.
    + destruct (bytes_to_date_ret (read_over 3 bytes (bd_act_date b))) as [x ->]; [done|]. run. by eauto 8.
  - change (0 <? 0) with false. run. change (0 <? 0) with false. cbv iota.
    destruct (bytes_to_date_ret (bd_act_date b)) as [x ->]; [done|]. run.
    exists 0, (date_tm c (bm_d x) (bm_m x - 1) (bm_y x + 100)), (bd_act_date b), st. by rewrite <- Hsame.
Qed.

Lemma health_index_ret algo c cap imp sd d :
  algo_ok algo -> settings_ok (h_settings (b_health d)) -> h_debug (b_health d) = no_debug ->
  data_ok (h_bhi (b_health d)) -> ready (b_store d) ->
  exists v d', bhi_calc_health_index algo c cap imp sd d = Ret (v, d') /\ loads_date d d' /\
    (0 <= cap -> 0 <= imp -> 0 <= sd <= BHI_ALGO_FULL_HEALTH ->
     (algo <> BHI_ALGO_ACHI -> algo <> BHI_ALGO_CYCLE_COUNT -> cap <= BHI_ALGO_FULL_HEALTH) ->
     algo <> BHI_ALGO_ACHI -> algo <> BHI_ALGO_DEBUG -> v <= BHI_ALGO_FULL_HEALTH).
Proof.
  intros [Ha1 Ha2] Hset Hdbg Hdata Hst. unfold bhi_calc_health_index.
  rewrite Hdbg. cbn [no_debug hd_health_index Z.eqb negb].
  assert (Hsame : loads_date d d).
  { exists (bd_act_date (h_bhi (b_health d))), (b_store d). split_and!; [by rewrite with_same_date|by destruct Hdata|done]. }
  assert (Hfull : BHI_ALGO_FULL_HEALTH <= BHI_ALGO_FULL_HEALTH) by done.
  unfold BHI_ALGO_DISABLED, BHI_ALGO_CYCLE_COUNT, BHI_ALGO_ACHI, BHI_ALGO_ACHI_B, BHI_ALGO_ACHI_RECAL,
    BHI_ALGO_ACHI_RAVG_B, BHI_ALGO_MIX_N_MATCH, BHI_ALGO_ACHI_FCR, BHI_ALGO_ACHI_CARETAKER, BHI_ALGO_DEBUG,
    BHI_ALGO_INDI, BHI_ALGO_DTOOL, BHI_ALGO_MAX in *.
  destruct (Z.eqb_spec algo 0); [by eauto 12|].
  destruct (Z.eqb_spec algo 1).
  { destruct (cycle_index_ret (b_health d) Hset) as (v & -> & ? & ?). run. by eauto 12. }
  destruct (_ || _) eqn:Ew.
  { eexists _, _; split_and!; [done|done|]. intros Hcap Himp Hsd Htop H2 _. specialize (Htop H2 ltac:(lia)).
    unfold bhi_w, BHI_ALGO_MIX_N_MATCH.
    destruct (Z.eqb_spec algo 6) as [->|].
    - rewrite weigh_mix by lia. unfold BHI_ALGO_FULL_HEALTH in *. apply Z.div_le_upper_bound; lia.
    - rewrite weigh_capacity by lia. done. }
  destruct (Z.eqb_spec algo 7); [eexists _, _; split_and!; [done|done|by intros]|].
  destruct (Z.eqb_spec algo 8).
  2: { exfalso. rewrite !orb_false_iff, !Z.eqb_neq in Ew. lia. }
  unfold bhi_individual_conditions_index.
  destruct (activation_ret c (h_bhi (b_health d)) (b_store d)) as (ret & tm & date & st' & -> & Hl & Hst');
    [by destruct Hdata|done|]. run.
  match goal with |- context [if ?b then Ret (?x, ?y) else _] =>
    destruct b; (eexists _, _; split_and!; [done|by exists date, st'|]); [|done] end.
  intros _ _ _ _ _ _. destruct Hset as [_ ? ? _ _].
  change (h_settings (b_health (set_store _ _))) with (h_settings (b_health d)).
  unfold BHI_ALGO_FULL_HEALTH. rewrite swrap_id by lia. lia.
Qed.

(** The indices before they are weighed. *)
Definition published_cap (algo cap : Z) : Z := bhi_cap_index_bound algo cap.
Definition published_imp (imp : Z) : Z := if imp <? 0 then 0 else imp.
Definition published_sd (sd : Z) : Z := if sd <? 0 then BHI_ALGO_FULL_HEALTH else sd.
Definition published_index (index : Z) : Z := if index <? 0 then BHI_ALGO_FULL_HEALTH else index.

(** The state in which the indices are computed. *)
Definition aged (d : bhi_drv) (age : Z) : bhi_drv :=
  set_data d (set_age (h_bhi (b_health d)) (b_cycle_count d) age).

Lemma data_ok_age b cycles age : data_ok b -> cycles <= CYCLES_MAX -> data_ok (set_age b cycles age).
Proof. intros [] ?. by split. Qed.

Lemma data_ok_date b bm date : data_ok b -> length date = 3%nat -> data_ok (set_dates b bm date).
Proof. intros [] ?. by split. Qed.

Lemma loads_date_ok d d' : bhi_ok d -> loads_date d d' -> bhi_ok d'.
Proof.
  intros [] (date & st & -> & Hl & Hst). split; try done. by apply data_ok_date.
Qed.

(** The result of an update from its parts. *)
Definition result_of (algo : Z) (h : health_data) (cap v care status : Z) : health_result :=
  mk_hresult (published_index v) status (published_cap algo cap)
    (published_imp (bhi_calc_imp_index algo h)) (published_sd (bhi_calc_sd_index h)) care.

(** An update that goes through: its parts are those of the definitions. *)
Inductive updated (c : clock) (d d' : bhi_drv) : Prop :=
| Updated cap v care status d1
    (algo := hs_algo (h_settings (b_health d)))
    (d0 := aged d (GPSY_GET_PROP BATTERY_AGE (b_gauge d)))
    (up_age : 0 <= GPSY_GET_PROP BATTERY_AGE (b_gauge d))
    (up_cap : bhi_calc_cap_index algo (b_age d) (b_health d0) = Ret cap)
    (up_index : bhi_calc_health_index algo c (published_cap algo cap)
       (published_imp (bhi_calc_imp_index algo (b_health d0)))
       (published_sd (bhi_calc_sd_index (b_health d0))) d0 = Ret (v, d1))
    (up_load : loads_date d0 d1)
    (up_care : bhi_get_caretaker_status (b_profile d) (b_age d) = Ret care)
    (up_status : bhi_calc_health_status algo (BHI_ROUND_INDEX (published_index v))
       (set_hresult (b_health d1)
          (result_of algo (b_health d0) cap v care (hr_status (h_result (b_health d))))) = Ret status)
    (up_state : d' = set_h d1 (set_hresult (b_health d1) (result_of algo (b_health d0) cap v care status))).

Lemma aged_ok d age : bhi_ok d -> bhi_ok (aged d age).
Proof. intros []. split; try done. by apply data_ok_age. Qed.

Lemma published_index_range v :
  0 <= published_index v /\ (v <= BHI_ALGO_FULL_HEALTH -> published_index v <= BHI_ALGO_FULL_HEALTH).
Proof. unfold published_index. case_test; unfold BHI_ALGO_FULL_HEALTH in *; lia. Qed.

Lemma result_of_ok algo h cap v care status :
  0 <= algo -> (algo = BHI_ALGO_DISABLED -> cap <= BHI_ALGO_FULL_HEALTH) -> (narrow -> ~ unbounded algo) ->
  h_debug h = no_debug -> 0 <= bd_ccbin_index (h_bhi h) <= BHI_ALGO_FULL_HEALTH ->
  (narrow -> v <= BHI_ALGO_FULL_HEALTH) ->
  status ∈ [BH_UNKNOWN; BH_NOMINAL; BH_MARGINAL; BH_NEEDS_REPLACEMENT; BH_NOT_AVAILABLE; BH_INCONSISTENT] ->
  result_ok narrow (result_of algo h cap v care status).
Proof.
  intros Ha Hc Hn Hd Hs Hv Hin. destruct (cap_bound_range algo cap) as [Hc0 Hctop].
  destruct (published_index_range v) as [Hp Hptop].
  split; cbn [result_of hr_cap hr_imp hr_sd hr_index hr_status]; try done.
  - intros H1. unfold unbounded in Hn. apply Hctop; tauto.
  - unfold published_imp. case_test; lia.
  - unfold bhi_calc_sd_index. rewrite Hd. cbn [no_debug hd_sd_index Z.eqb negb].
    unfold published_sd. case_test; [lia|done].
  - intros H1. by apply Hptop, Hv.
Qed.

Lemma stats_update_ok c d :
  bhi_ok d ->
  (GPSY_GET_PROP BATTERY_AGE (b_gauge d) < 0 /\ batt_bhi_stats_update c d = Ret (- EIO, d)) \/
  exists ret d', batt_bhi_stats_update c d = Ret (ret, d') /\ updated c d d' /\ bhi_ok d'.
Proof.
  intros Hd. unfold batt_bhi_stats_update.
  destruct (Z.ltb_spec (GPSY_GET_PROP BATTERY_AGE (b_gauge d)) 0) as [Hage|Hage]; [by left|right].
  rewrite (bo_debug d Hd). cbn [no_debug hd_cycle_count Z.eqb negb].
  fold (aged d (GPSY_GET_PROP BATTERY_AGE (b_gauge d))).
  set (age := GPSY_GET_PROP BATTERY_AGE (b_gauge d)) in *. set (d0 := aged d age).
  set (algo := hs_algo (h_settings (b_health d))).
  assert (Hd0 : bhi_ok d0) by by apply aged_ok.
  destruct (cap_index_ret algo (b_age d0) (b_health d0)) as [cap Hcap];
    [apply Hd0|apply Hd0|apply Hd0|]. rewrite Hcap. run.
  assert (Hfull : algo = BHI_ALGO_DISABLED -> cap <= BHI_ALGO_FULL_HEALTH).
  { intros E. unfold bhi_calc_cap_index in Hcap. rewrite E, Z.eqb_refl in Hcap. by simplify_eq. }
  destruct (caretaker_range (b_profile d) (b_age d)) as (care & Hcare & Hcr); [apply Hd..|].
  pose proof (so_algo _ (bo_settings d Hd)) as Halgo. fold algo in Halgo.
  pose proof (do_ccbin _ (bo_data d0 Hd0)) as Hcc.
  assert (Hnw : narrow -> ~ unbounded algo) by apply Hd.
  assert (Hro : forall v status, (narrow -> v <= BHI_ALGO_FULL_HEALTH) ->
    status ∈ [BH_UNKNOWN; BH_NOMINAL; BH_MARGINAL; BH_NEEDS_REPLACEMENT; BH_NOT_AVAILABLE; BH_INCONSISTENT] ->
    result_ok narrow (result_of algo (b_health d0) cap v care status)).
  { intros v status Hv Hin. apply result_of_ok; try done; first [apply Hd0|destruct Halgo; lia]. }
  destruct (Hro 0 BH_UNKNOWN) as [Hpc Hpct Hpi Hps _ _ _]; [done|set_solver|].
  cbn [result_of hr_cap hr_imp hr_sd] in Hpc, Hpct, Hpi, Hps. unfold published_cap in Hpc, Hpct.
  fold (published_imp (bhi_calc_imp_index algo (b_health d0))).
  fold (published_sd (bhi_calc_sd_index (b_health d0))).
  destruct (health_index_ret algo c (bhi_cap_index_bound algo cap) (published_imp (bhi_calc_imp_index algo (b_health d0)))
    (published_sd (bhi_calc_sd_index (b_health d0))) d0) as (v & d1 & Hv & Hload & Hvtop);
    [done|apply Hd0|apply Hd0|apply Hd0|apply Hd0|].
  assert (Hvn : narrow -> v <= BHI_ALGO_FULL_HEALTH).
  { intros Hn. specialize (Hnw Hn). unfold unbounded in Hnw. apply Hvtop; try done; tauto. }
  rewrite Hv. run. pose proof (loads_date_ok d0 d1 Hd0 Hload) as Hd1.
  assert (Hp1 : b_profile d1 = b_profile d /\ b_age d1 = b_age d /\ hs_algo (h_settings (b_health d1)) = algo)
    by (by destruct Hload as (? & ? & -> & _)).
  destruct Hp1 as (-> & -> & Halgo1). rewrite Hcare. run. fold (published_index v).
  change (b_health (set_h d1 ?h)) with h.
  destruct (status_ret algo (BHI_ROUND_INDEX (published_index v)) (set_hresult (b_health d1)
     (result_of algo (b_health d0) cap v care (hr_status (h_result (b_health d)))))) as (status & Hs & Hin);
    [apply Hd1|apply Hd1|done|].
  unfold result_of, published_cap in Hs. rewrite Hs. run.
  eexists _, _; split; [done|]. split; [by eapply Updated|].
  specialize (Hro v status Hvn Hin).
  destruct Hd1. by split.
Qed.

(** ** The other entry points *)

Lemma sd_total_ret s : sd_ok s -> exists x, bhi_calc_sd_total s = Ret x.
Proof.
  intros [Hc Hd]. unfold bhi_calc_sd_total. destruct (sd_chg s) as [|c0 [|c1 [|c2 [|? ?]]]] eqn:Ec; try done.
  destruct (sd_dischg s) as [|e0 [|e1 [|e2 [|? ?]]]] eqn:Ed; try done.
  cbn [sd_total_loop BATT_TEMP_RECORD_THR]. rewrite Ec, Ed.
  change (0 + 1) with 1. change (1 + 1) with 2. rewrite !at_0, !at_1, !at_2. run. by eexists.
Qed.

Lemma residency_ret c :
  cc_ok c -> exists x, bhi_cycle_count_residency c BHI_CCBIN_INDEX_LIMIT = Ret x /\ 0 <= x <= BHI_ALGO_FULL_HEALTH.
Proof.
  intros [Hl Hr Hs Hf]. destruct (residency_ok c BHI_CCBIN_INDEX_LIMIT Hl Hr Hs Hf) as (x & ? & ? & _). by exists x.
Qed.

(** The state before the indices are computed: the metrics are new. *)
Definition metrics_read (d d' : bhi_drv) : Prop :=
  exists b g, d' = set_data (set_gauge d g) b /\ data_ok b /\
    bd_cycle_count b = bd_cycle_count (h_bhi (b_health d)).

Lemma metrics_read_ok d d' : bhi_ok d -> metrics_read d d' -> bhi_ok d'.
Proof. intros [] (b & g & -> & Hb & _). by split. Qed.

Lemma imp_update_ok g b :
  data_ok b -> data_ok (bhi_imp_data_update g b).1 /\
    bd_cycle_count (bhi_imp_data_update g b).1 = bd_cycle_count b /\
    bd_pack_capacity (bhi_imp_data_update g b).1 = bd_pack_capacity b.
Proof.
  intros Hb. assert (Hset : forall x y, data_ok (set_impedance b x y)) by (by destruct Hb).
  unfold bhi_imp_data_update. repeat (case_match; cbn [fst snd]; try done).
Qed.

Lemma cap_update_ok g b :
  data_ok b -> exists ret b', bhi_cap_data_update g b = Ret (ret, b') /\ data_ok b' /\
    bd_cycle_count b' = bd_cycle_count b.
Proof.
  intros Hb. pose proof (do_pack b Hb) as Hp. unfold U16_MAX in Hp. unfold bhi_cap_data_update.
  assert (Hset : forall x y, data_ok (set_fade b x y)) by (by destruct Hb).
  destruct (gauge_get_prop CAPACITY_FADE_RATE g) as [f rc], (gauge_get_prop CAPACITY_FADE_RATE_FCR g) as [ff rcf].
  destruct (_ <? 0); [by eauto|]. destruct (_ <=? 0); [by eauto|]. destruct (_ || _); [by eauto|].
  unfold quot_c. rewrite (swrap_id 32 (bd_pack_capacity b * 1000)) by lia.
  rewrite (proj2 (Z.eqb_neq (bd_pack_capacity b * 1000) 0)) by lia. run. by eauto.
Qed.

Lemma stats_update_all_ok c d :
  bhi_ok d -> exists d1 d', batt_bhi_stats_update_all c d = Ret (0, d') /\ metrics_read d d1 /\ bhi_ok d' /\
    ((GPSY_GET_PROP BATTERY_AGE (b_gauge d1) < 0 /\ d' = d1) \/ updated c d1 d').
Proof.
  intros Hd. unfold batt_bhi_stats_update_all.
  destruct (residency_ret (b_cc d)) as (ccbin & -> & Hcc); [apply Hd|]. run.
  destruct (sd_total_ret (b_sd d)) as (swell & ->); [apply Hd|]. run.
  set (b0 := set_swell (h_bhi (b_health d)) swell ccbin).
  assert (Hb0 : data_ok b0) by (destruct (bo_data d Hd); by split).
  destruct (imp_update_ok (b_gauge d) b0 Hb0) as (Hb1 & Hcy1 & _).
  destruct (bhi_imp_data_update (b_gauge d) b0) as [b1 g1]. cbn [fst] in Hb1, Hcy1.
  cbn [set_gauge b_gauge]. destruct (cap_update_ok g1 b1 Hb1) as (ret & b2 & -> & Hb2 & Hcy2). run.
  set (d1 := set_data (set_gauge d g1) b2).
  assert (Hm : metrics_read d d1) by (exists b2, g1; split_and!; [done|done|by rewrite Hcy2, Hcy1]).
  pose proof (metrics_read_ok d d1 Hd Hm) as Hd1.
  destruct (stats_update_ok c d1 Hd1) as [[Hage ->]|(r & d' & -> & Hu & Hd')]; run.
  - exists d1, d1. split_and!; [done..|by left].
  - exists d1, d'. split_and!; [done..|by right].
Qed.

Lemma recalibration_ok d :
  bhi_ok d -> exists ret d', batt_bhi_update_recalibration_status d = Ret (ret, d') /\ bhi_ok d' /\
    exists mode state g, d' = set_h (set_gauge d g) (set_cal (b_health d) mode state).
Proof.
  intros Hd. unfold batt_bhi_update_recalibration_status.
  assert (Hsame : d = set_h (set_gauge d (b_gauge d)) (set_cal (b_health d) (h_cal_mode (b_health d)) (h_cal_state (b_health d))))
    by (by destruct d as [[] ? ? ? ? ? ? ? ? ? ? ?]).
  assert (Hcal : forall g mode state, cal_ok (set_cal (b_health d) mode state) ->
    bhi_ok (set_h (set_gauge d g) (set_cal (b_health d) mode state))) by (intros; destruct Hd; by split).
  assert (Hg : forall mode state, set_h d (set_cal (b_health d) mode state) =
    set_h (set_gauge d (b_gauge d)) (set_cal (b_health d) mode state)) by (by destruct d).
  destruct (_ <? 0); [by eauto 8|].
  destruct (negb _); [rewrite Hg; eexists _, _; split_and!; [done|apply Hcal; right; auto|by eauto]|].
  destruct (_ || _).
  { destruct (GPSY_SET_PROP _ _ _) as [ret g]. eexists _, _; split; [done|].
    destruct (ret =? 0); [split; [apply Hcal; right; auto|by eexists _, _, g]|].
    split; [destruct Hd; by split|]. exists (h_cal_mode (b_health d)), (h_cal_state (b_health d)), g.
    rewrite Hsame at 1. done. }
  destruct (_ =? REC_MODE_RESTART); [rewrite Hg; eexists _, _; split_and!; [done|apply Hcal; by left|by eauto]|].
  assert (Hneed : exists n, batt_bhi_need_recalibration d = Ret n).
  { unfold batt_bhi_need_recalibration. destruct (_ || _); [by eauto|]. destruct (negb _); [by eauto|].
    destruct (_ =? _); [by eauto|]. destruct (_ <? 0); [by eauto|]. destruct (bo_data d Hd).
    rewrite !bound_ret by (done || apply Hd). run. by eauto. }
  destruct Hneed as [n ->]. run. destruct n; [|by eauto 8].
  rewrite Hg. eexists _, _; split_and!; [done|apply Hcal; right; auto|by eauto].
Qed.

(** ** Any order of events *)

(** The entry points of this component, and [BhiOutside]: what the rest of the driver, the
    gauge and the passing of time do in between. *)
Inductive bhi_event :=
| BhiOutside (res : batt_res) (age : age_state) (cc : ccbin_data) (sd : swelling_data)
    (cycles msc_state : Z) (chg_done : bool) (st : gbms_storage D) (g : G)
| BhiStats (c : clock)
| BhiPoll
| BhiAlgo (c : clock) (value : Z)
| BhiIndiCap (value : Z)
| BhiGrace (value : Z)
| BhiCalMode (value : Z)
| BhiShow (c : clock).

Definition event_ok (e : bhi_event) : Prop :=
  match e with
  | BhiOutside _ age cc sd cycles _ _ st _ =>
    age_ok age /\ cc_ok cc /\ sd_ok sd /\ cycles <= CYCLES_MAX /\ ready st
  | BhiAlgo _ value => narrow -> ~ unbounded value
  | _ => True
  end.

Definition bhi_step (e : bhi_event) (d : bhi_drv) : outcome bhi_drv :=
  match e with
  | BhiOutside res age cc sd cycles msc chg_done st g =>
    Ret (mk_bhi _ _ (set_bhi (b_health d) (set_res (h_bhi (b_health d)) res)) (b_profile d) age cc sd cycles
           (b_battery_capacity d) (b_batt_id d) msc chg_done st g)
  | BhiStats c => let* r := batt_bhi_stats_update_all c d in Ret r.2
  | BhiPoll => let* r := batt_bhi_update_recalibration_status d in Ret r.2
  | BhiAlgo c value => let* r := health_algo_store c value d in Ret r.2
  | BhiIndiCap value => Ret (health_indi_cap_store value d)
  | BhiGrace value => Ret (debug_bhi_cycle_grace_write value d)
  | BhiCalMode value => let* r := health_set_cal_mode_store value d in Ret r.2
  | BhiShow c => let* r := health_index_stats_show c d in Ret r.2
  end.

Fixpoint bhi_run (es : list bhi_event) (d : bhi_drv) : outcome bhi_drv :=
  match es with
  | [] => Ret d
  | e :: es => let* d := bhi_step e d in bhi_run es d
  end.

Lemma settings_change_ok d s :
  bhi_ok d -> settings_ok s -> (narrow -> ~ unbounded (hs_algo s)) ->
  bhi_ok (set_h d (set_settings (b_health d) s)).
Proof. intros [] Hs Ha. by split. Qed.

Lemma indi_cap_ok value d : bhi_ok d -> bhi_ok (health_indi_cap_store value d).
Proof.
  intros Hd. unfold health_indi_cap_store. destruct (_ || _); [done|].
  apply settings_change_ok; [done| |apply Hd]. destruct (bo_settings d Hd). by split.
Qed.

Lemma grace_ok value d : bhi_ok d -> bhi_ok (debug_bhi_cycle_grace_write value d).
Proof.
  intros Hd. apply settings_change_ok; [done| |apply Hd]. destruct (bo_settings d Hd). by split.
Qed.

Lemma algo_store_ok c value d :
  bhi_ok d -> (narrow -> ~ unbounded value) ->
  exists ret d', health_algo_store c value d = Ret (ret, d') /\ bhi_ok d'.
Proof.
  intros Hd Hn. unfold health_algo_store. destruct (_ || _) eqn:E; [by eauto|].
  rewrite !orb_false_iff, Z.ltb_ge, Z.leb_gt, Z.eqb_neq in E.
  match goal with |- context [batt_bhi_stats_update_all c ?x] => set (d0 := x) end.
  destruct (stats_update_all_ok c d0) as (d1 & d' & -> & _ & Hd' & _); [|by eauto].
  apply settings_change_ok; [done| |done]. destruct (bo_settings d Hd).
  by split.
Qed.

(** A mode that is written is kept only when no recalibration is scheduled. *)
Lemma cal_mode_ok value d :
  bhi_ok d -> exists ret d', health_set_cal_mode_store value d = Ret (ret, d') /\ bhi_ok d'.
Proof.
  intros Hd. unfold health_set_cal_mode_store.
  destruct (Z.eqb_spec (h_cal_state (b_health d)) REC_STATE_SCHEDULED) as [|Hs]; [by eauto|].
  destruct (recalibration_ok (set_h d (set_cal (b_health d) (u8 value) (h_cal_state (b_health d)))))
    as (ret & d' & -> & Hd' & _); [|by eauto].
  destruct Hd as [? ? ? Hcal]. split; try done. left. by destruct Hcal as [|[? _]].
Qed.

Lemma map_algo_ok i d : 0 <= i < BHI_ALGO_MAX -> bhi_ok d -> algo_ok (batt_bhi_map_algo i (b_health d)).
Proof.
  intros Hi Hd. unfold batt_bhi_map_algo. destruct (Z.eqb_spec i BHI_ALGO_DTOOL); cbn [negb]; [|done].
  destruct (_ =? _); [by split|]. apply Hd.
Qed.

Lemma stats_line_ok c i d :
  0 <= i < BHI_ALGO_MAX -> bhi_ok d ->
  exists l d', index_stats_line c i d = Ret (l, d') /\ bhi_ok d'.
Proof.
  intros Hi Hd. pose proof (map_algo_ok i d Hi Hd) as Ha. unfold index_stats_line.
  set (algo := batt_bhi_map_algo i (b_health d)) in *.
  destruct (cap_index_ret algo (b_age d) (b_health d)) as [cap ->]; [apply Hd..|]. run.
  destruct (health_index_ret algo c (bhi_cap_index_bound algo cap) (bhi_calc_imp_index algo (b_health d))
    (bhi_calc_sd_index (b_health d)) d Ha (bo_settings d Hd) (bo_debug d Hd) (bo_data d Hd) (bo_store d Hd))
    as (v & d1 & -> & Hload & _). run.
  pose proof (loads_date_ok d d1 Hd Hload) as Hd1.
  destruct (status_ret algo (BHI_ROUND_INDEX v) (b_health d1) (bo_data d1 Hd1) (bo_debug d1 Hd1))
    as (status & -> & _); [intros _; apply Hd1|]. run.
  destruct (v <? 0); by eauto.
Qed.

Lemma stats_loop_ok c turns : forall i d,
  0 <= i -> i + Z.of_nat turns <= BHI_ALGO_MAX -> bhi_ok d ->
  exists l d', index_stats_loop c turns i d = Ret (l, d') /\ bhi_ok d'.
Proof.
  induction turns as [|turns IH]; intros i d Hi Ht Hd; cbn [index_stats_loop]; [by eauto|].
  destruct (stats_line_ok c i d) as (l & d1 & -> & Hd1); [lia|done|]. run.
  destruct (IH (i + 1) d1) as (l' & d2 & -> & Hd2); [lia|lia|done|]. run. by eauto.
Qed.

Lemma bhi_step_ok e d : bhi_ok d -> event_ok e -> exists d', bhi_step e d = Ret d' /\ bhi_ok d'.
Proof.
  intros Hd He. destruct e as [res age cc sd cycles msc chg_done st g|c| |c value|value|value|value|c];
    cbn [bhi_step event_ok] in *.
  - destruct He as (? & ? & ? & ? & ?). eexists; split; [done|]. destruct Hd as [[] ?]. by split; [split|..].
  - destruct (stats_update_all_ok c d Hd) as (? & d' & -> & _ & ? & _). run. by eauto.
  - destruct (recalibration_ok d Hd) as (? & d' & -> & ? & _). run. by eauto.
  - destruct (algo_store_ok c value d Hd He) as (? & d' & -> & ?). run. by eauto.
  - eexists; split; [done|]. by apply indi_cap_ok.
  - eexists; split; [done|]. by apply grace_ok.
  - destruct (cal_mode_ok value d Hd) as (? & d' & -> & ?). run. by eauto.
  - unfold health_index_stats_show. destruct (_ <=? 0); [run; by eauto|].
    destruct (stats_loop_ok c (Z.to_nat BHI_ALGO_MAX) BHI_ALGO_DISABLED d) as (l & d' & -> & ?); [done..|].
    run. by eauto.
Qed.

(** C31. The health that is published of a battery that has been charged is well formed.  From
    a state in order, in any sequence of updates, polls, requests from user space and changes
    of the readings that keep it in order, every call returns; the indices are not negative, the
    status is one of the six that are defined, and a recalibration is scheduled only in a
    mode that belongs to it; unless an algorithm without a bound of its own (average
    capacity, cycle count, debug) is selected ([narrow]), the capacity index and the health
    index are at most 10000.  In order ([bhi_ok]) means: some charge has been counted in the
    bins, less than 2386 full cycles of it (without any, every update divides by zero,
    [fresh_battery_divides_by_zero]; with more, the product overflows,
    [residency_overflows]); a pack capacity; thresholds that are not reversed; no debug
    values; at most [CYCLES_MAX] cycles; and a storage that keeps its records. *)
Theorem health_index_well_formed es : forall d,
  bhi_ok d -> Forall event_ok es ->
  exists d', bhi_run es d = Ret d' /\ bhi_ok d' /\ result_ok narrow (h_result (b_health d')) /\
    cal_ok (b_health d').
Proof.
  induction es as [|e es IH]; intros d Hd Hes; cbn [bhi_run].
  { exists d. split_and!; [done..|apply Hd|apply Hd]. }
  apply Forall_cons in Hes as [He Hes]. destruct (bhi_step_ok e d Hd He) as (d1 & -> & Hd1). run.
  by apply IH.
Qed.
End safe.
