(* ===== verification/BhiRecal.v ===== *)
(** * Learning the capacity again, as a state machine (src/bms/google_battery.c)

    [cal_state] and [cal_mode] encode four phases.  [recal_step] is what a poll may do to
    them, in terms of what it sees of the gauge and of the charger. *)

From S2P Require Import Prelude GbmsProfile GbmsStorage StorageUse Ssoc Msc.
From S2P Require Import Bhi BhiRes BhiSwell BhiIndex BhiDate BhiUpdate BhiSafe.

(** [Asked]: user space wrote that mode; [Waiting]: until charging ends or pauses;
    [Learning]: the gauge is at it. *)
Inductive recal := Idle | Asked (mode : Z) | Waiting | Learning.

#[global] Instance recal_eq_dec : EqDecision recal.
Proof. solve_decision. Defined.

Definition phase (h : health_data) : recal :=
  if h_cal_state h =? REC_STATE_OK then
    if h_cal_mode h =? REC_MODE_RESET then Idle else Asked (h_cal_mode h)
  else if h_cal_mode h =? REC_MODE_BEST_TIME then Waiting else Learning.

(** What a poll sees: whether the gauge is learning (or an error), whether the time is good,
    whether the gauge would start, and whether the capacity is suspect. *)
Record view := mk_view {
  v_gauge : Z;
  v_good_time : bool;
  v_start : Z;
  v_suspect : bool;
}.

(** The phases in which the driver wants the gauge to start now. *)
Definition wants (v : view) (p : recal) : bool :=
  match p with
  | Waiting => v_good_time v
  | Asked m => (m =? REC_MODE_BEST_TIME) && v_good_time v || (m =? REC_MODE_IMMEDIATE)
  | _ => false
  end.

Inductive recal_step (v : view) : recal -> recal -> Prop :=
| GaugeError p : v_gauge v < 0 -> recal_step v p p
| GaugeBusy p : 0 < v_gauge v -> recal_step v p Learning
| Started p : v_gauge v = 0 -> wants v p = true -> v_start v = 0 -> recal_step v p Learning
| Refused p : v_gauge v = 0 -> wants v p = true -> v_start v <> 0 -> recal_step v p p
| Finished : v_gauge v = 0 -> recal_step v Learning Idle
| NotFinished : v_gauge v = 0 -> recal_step v (Asked REC_MODE_RESTART) Idle
| Detected : v_gauge v = 0 -> v_suspect v = true -> recal_step v Idle Waiting
| Healthy : v_gauge v = 0 -> v_suspect v = false -> recal_step v Idle Idle
| Later : v_gauge v = 0 -> v_good_time v = false -> recal_step v Waiting Waiting
| Held m : v_gauge v = 0 -> wants v (Asked m) = false -> m <> REC_MODE_RESTART ->
    recal_step v (Asked m) (Asked m).

(** The capacity is suspect under one algorithm, when the gauge says so or reports a full
    capacity outside the trigger bounds. *)
Definition suspect {D G} `{!FuelGauge G} (d : bhi_drv D G) : bool :=
  let b := h_bhi (b_health d) in
  let full := GPSY_GET_PROP CHARGE_FULL (b_gauge d) in
  (hs_algo (h_settings (b_health d)) =? BHI_ALGO_ACHI_RECAL) &&
  ((GPSY_GET_PROP GAUGE_HEALTH (b_gauge d) =? POWER_SUPPLY_HEALTH_CALIBRATION_REQUIRED) ||
   ((0 <=? full) &&
    ((full / 1000 <? bound_at (cb_trigger (bd_lower b)) (b_cycle_count d)) ||
     (bound_at (cb_trigger (bd_upper b)) (b_cycle_count d) <? full / 1000)))).

Definition view_of {D G} `{!FuelGauge G} (d : bhi_drv D G) : view :=
  mk_view (GPSY_GET_PROP RECAL_FG (b_gauge d))
    ((b_msc_state d =? MSC_HEALTH_PAUSE) || b_chg_done d)
    (GPSY_SET_PROP RECAL_FG (h_cal_target (b_health d)) (b_gauge d)).1 (suspect d).

Section recal.
Context {D G : Type} `{!FuelGauge G} `{Calendar}.
#[local] Abbreviation bhi_drv := (bhi_drv D G).

Lemma need_recalibration_eq (d : bhi_drv) :
  data_ok (h_bhi (b_health d)) -> b_cycle_count d <= CYCLES_MAX ->
  batt_bhi_need_recalibration d = Ret (if decide (phase (b_health d) = Idle) then suspect d else false).
Proof.
  intros [] Hc. unfold batt_bhi_need_recalibration, phase, suspect.
  destruct (Z.eqb_spec (h_cal_state (b_health d)) REC_STATE_OK); cbn [negb orb].
  2: { by destruct (_ =? REC_MODE_BEST_TIME). }
  destruct (Z.eqb_spec (h_cal_mode (b_health d)) REC_MODE_RESET); cbn [negb]; [|done].
  rewrite decide_True by done.
  destruct (hs_algo (h_settings (b_health d)) =? BHI_ALGO_ACHI_RECAL); cbn [negb andb]; [|done].
  destruct (GPSY_GET_PROP GAUGE_HEALTH _ =? _); cbn [orb]; [done|].
  destruct (Z.ltb_spec (GPSY_GET_PROP CHARGE_FULL (b_gauge d)) 0);
    [by rewrite (proj2 (Z.leb_gt 0 _)) by lia|].
  rewrite (proj2 (Z.leb_le 0 _)) by lia. rewrite !bound_ret by done. run.
  by rewrite Z.quot_div_nonneg by lia.
Qed.

Lemma phase_set h mode state : phase (set_cal h mode state) =
  if state =? REC_STATE_OK then if mode =? REC_MODE_RESET then Idle else Asked mode
  else if mode =? REC_MODE_BEST_TIME then Waiting else Learning.
Proof. done. Qed.

(** What a poll does. *)
Record polled (d : bhi_drv) (ret : Z) (d' : bhi_drv) : Prop := {
  po_step : recal_step (view_of d) (phase (b_health d)) (phase (b_health d'));
  po_state : exists mode state, d' = set_h (set_gauge d (b_gauge d')) (set_cal (b_health d) mode state);
  po_ret : 0 = v_gauge (view_of d) -> wants (view_of d) (phase (b_health d)) = true -> ret = v_start (view_of d);
  po_gauge : wants (view_of d) (phase (b_health d)) = false \/ v_gauge (view_of d) <> 0 -> b_gauge d' = b_gauge d;
  po_cal : cal_ok (b_health d');
}.

Lemma bhi_poll_ok (d : bhi_drv) :
  data_ok (h_bhi (b_health d)) -> b_cycle_count d <= CYCLES_MAX -> cal_ok (b_health d) ->
  exists ret d', batt_bhi_update_recalibration_status d = Ret (ret, d') /\ polled d ret d'.
Proof.
  intros Hb Hc Hcal.
  assert (Hsame : exists mode state, d = set_h (set_gauge d (b_gauge d)) (set_cal (b_health d) mode state)).
  { exists (h_cal_mode (b_health d)), (h_cal_state (b_health d)). by destruct d as [[] ? ? ? ? ? ? ? ? ? ? ?]. }
  assert (Hset : forall m s, exists mode state,
    set_h d (set_cal (b_health d) m s) = set_h (set_gauge d (b_gauge d)) (set_cal (b_health d) mode state)).
  { intros m s. exists m, s. by destruct d. }
  unfold batt_bhi_update_recalibration_status.
  set (gauge := GPSY_GET_PROP RECAL_FG (b_gauge d)).
  assert (Hvg : v_gauge (view_of d) = gauge) by done.
  destruct (Z.ltb_spec gauge 0).
  { eexists _, _; split; [done|]. split; rewrite ?Hvg; [by apply GaugeError|done|lia|done|done]. }
  destruct (Z.eqb_spec gauge 0) as [Hg|Hg]; cbn [negb].
  2: { eexists _, _; split; [done|]. split; rewrite ?Hvg; [apply GaugeBusy; rewrite Hvg; lia|apply Hset|lia|done|by right; auto]. }
  set (best := ((_ =? REC_MODE_BEST_TIME) && _ || _)).
  assert (Hbest : best = wants (view_of d) (phase (b_health d))).
  { subst best. unfold phase, wants. destruct Hcal as [Hs|[Hs [Hm|Hm]]]; rewrite Hs; cbn [Z.eqb REC_STATE_OK REC_STATE_SCHEDULED];
      [|rewrite Hm; cbn; by rewrite Bool.orb_false_r|by rewrite Hm].
    destruct (Z.eqb_spec (h_cal_mode (b_health d)) REC_MODE_RESET) as [Hm|Hm]; [by rewrite Hm|done]. }
  destruct best.
  { change (v_start (view_of d)) with (GPSY_SET_PROP RECAL_FG (h_cal_target (b_health d)) (b_gauge d)).1.
    destruct (GPSY_SET_PROP RECAL_FG (h_cal_target (b_health d)) (b_gauge d)) as [ret g] eqn:Es.
    assert (Hv : v_start (view_of d) = ret) by (cbn [view_of v_start]; by rewrite Es).
    eexists _, _; split; [done|]. destruct (Z.eqb_spec ret 0).
    - split; [by apply Started; rewrite ?Hv|by eexists _, _|done| |by right; auto].
      intros [E|E]; [by rewrite <- Hbest in E|done].
    - split; [by apply Refused; rewrite ?Hv| |done| |done].
      + destruct Hsame as (m & s & Hm). exists m, s. rewrite Hm at 1. done.
      + intros [E|E]; [by rewrite <- Hbest in E|done]. }
  symmetry in Hbest.
  destruct (Z.eqb_spec (h_cal_mode (b_health d)) REC_MODE_RESTART) as [Hm|Hm].
  { eexists _, _; split; [done|]. split; [|apply Hset|by rewrite Hbest|done|by left].
    change (phase (b_health (set_h _ _))) with Idle.
    unfold phase. rewrite Hm. destruct Hcal as [Hs|[Hs _]]; rewrite Hs; [by apply NotFinished|by apply Finished]. }
  rewrite need_recalibration_eq by done. run.
  destruct (decide (phase (b_health d) = Idle)) as [Hp|Hp].
  - rewrite Hp in *. destruct (suspect d) eqn:Es.
    + eexists _, _; split; [done|]. split; rewrite ?Hp; [by apply Detected|apply Hset|done|done|by right; auto].
    + eexists _, _; split; [done|]. split; rewrite ?Hp; [by apply Healthy|done|done|done|done].
  - eexists _, _; split; [done|]. split; [|done|by rewrite Hbest|done|done].
    unfold phase in *. destruct Hcal as [Hs|[Hs [Hm'|Hm']]]; rewrite Hs in *;
      cbn [Z.eqb REC_STATE_OK REC_STATE_SCHEDULED] in *; [| |done].
    + destruct (_ =? REC_MODE_RESET); [done|]. by apply Held.
    + rewrite Hm' in *. cbn [Z.eqb REC_MODE_BEST_TIME Pos.eqb] in *. by apply Later.
Qed.

(** C33. Recalibration follows its state machine.  A poll returns and takes exactly a step of
    [recal_step] for what it sees: learning starts only when the charger is done or pauses,
    or at once when user space asks for that; it ends when the gauge says so; a poll that
    the gauge does not answer changes nothing.  The gauge is written only when the phase
    wants it to start.  While one is scheduled, requests from user space have no effect. *)
Theorem recalibration_refines (d : bhi_drv) :
  data_ok (h_bhi (b_health d)) -> b_cycle_count d <= CYCLES_MAX -> cal_ok (b_health d) ->
  (exists ret d', batt_bhi_update_recalibration_status d = Ret (ret, d') /\
     recal_step (view_of d) (phase (b_health d)) (phase (b_health d')) /\
     (exists mode state, d' = set_h (set_gauge d (b_gauge d')) (set_cal (b_health d) mode state)) /\
     (0 = v_gauge (view_of d) -> wants (view_of d) (phase (b_health d)) = true -> ret = v_start (view_of d)) /\
     (wants (view_of d) (phase (b_health d)) = false \/ v_gauge (view_of d) <> 0 -> b_gauge d' = b_gauge d)) /\
  (forall value, phase (b_health d) = Waiting \/ phase (b_health d) = Learning ->
     health_set_cal_mode_store value d = Ret (0, d)).
Proof.
  intros Hb Hc Hcal. split.
  - destruct (bhi_poll_ok d Hb Hc Hcal) as (ret & d' & Hrun & []). by exists ret, d'.
  - intros value Hp. unfold health_set_cal_mode_store. unfold phase in Hp.
    destruct Hcal as [Hs|[Hs _]]; rewrite Hs in Hp |- *; [|done].
    rewrite Z.eqb_refl in Hp. destruct (_ =? REC_MODE_RESET); destruct Hp; done.
Qed.

(** ** Completion *)

(** What a poll finds: the state of the charger and the gauge. *)
Definition observe (o : Z * bool * G) (d : bhi_drv) : bhi_drv :=
  let '(msc, done, g) := o in
  mk_bhi _ _ (b_health d) (b_profile d) (b_age d) (b_cc d) (b_sd d) (b_cycle_count d)
    (b_battery_capacity d) (b_batt_id d) msc done (b_store d) g.

Fixpoint poll_run (os : list (Z * bool * G)) (d : bhi_drv) : outcome bhi_drv :=
  match os with
  | [] => Ret d
  | o :: os => let* r := batt_bhi_update_recalibration_status (observe o d) in poll_run os r.2
  end.

Definition pollable (d : bhi_drv) : Prop :=
  data_ok (h_bhi (b_health d)) /\ b_cycle_count d <= CYCLES_MAX /\ cal_ok (b_health d).

(** Polls that see [P] stay in a phase that [P] cannot leave. *)
Lemma poll_run_stay (P : view -> Prop) p os : forall d,
  (forall v q, P v -> recal_step v p q -> q = p) ->
  pollable d -> phase (b_health d) = p ->
  (forall d o, o ∈ os -> P (view_of (observe o d))) ->
  exists d', poll_run os d = Ret d' /\ pollable d' /\ phase (b_health d') = p /\
    h_bhi (b_health d') = h_bhi (b_health d) /\ h_settings (b_health d') = h_settings (b_health d) /\
    h_cal_target (b_health d') = h_cal_target (b_health d) /\ b_cycle_count d' = b_cycle_count d.
Proof.
  induction os as [|o os IH]; intros d Hstay (Hb & Hc & Hcal) Hp HP; cbn [poll_run].
  { by exists d. }
  assert (Ho : b_health (observe o d) = b_health d /\ b_cycle_count (observe o d) = b_cycle_count d)
    by (by destruct o as [[? ?] ?]).
  destruct Ho as [Hh Hcy].
  destruct (bhi_poll_ok (observe o d)) as (ret & d1 & -> & [Hstep (m & s & Hst) _ _ Hcal1]);
    [by rewrite Hh|by rewrite Hcy|by rewrite Hh|]. run.
  rewrite Hh in Hstep. rewrite Hp in Hstep. apply Hstay in Hstep; [|apply HP; set_solver].
  assert (Heq : h_bhi (b_health d1) = h_bhi (b_health d) /\ h_settings (b_health d1) = h_settings (b_health d) /\
    h_cal_target (b_health d1) = h_cal_target (b_health d) /\ b_cycle_count d1 = b_cycle_count d).
  { rewrite Hst. cbn. by rewrite Hh, Hcy. }
  destruct Heq as (E1 & E2 & E3 & E4).
  destruct (IH d1) as (d2 & -> & Hd2 & Hp2 & F1 & F2 & F3 & F4); [done|split_and!; [by rewrite E1|by rewrite E4|done]|done| |].
  { intros d2 o2 Hin. apply HP. set_solver. }
  exists d2. split_and!; [done|done|done|congruence..].
Qed.

Definition gauge_says (o : Z * bool * G) : Z := GPSY_GET_PROP RECAL_FG o.2.
Definition good_time (o : Z * bool * G) : bool := (o.1.1 =? MSC_HEALTH_PAUSE) || o.1.2.

Lemma poll_run_app os os' d d' : poll_run os d = Ret d' -> poll_run (os ++ os') d = poll_run os' d'.
Proof.
  revert d. induction os as [|o os IH]; intros d Hr; cbn [poll_run app] in *; [by simplify_eq|].
  apply obind_Ret in Hr as (r & -> & Hr). run. by apply IH.
Qed.

(** One poll with a given outcome. *)
Lemma poll_one o d p q :
  pollable d -> phase (b_health d) = p ->
  (forall q', recal_step (view_of (observe o d)) p q' -> q' = q) ->
  exists d', poll_run [o] d = Ret d' /\ pollable d' /\ phase (b_health d') = q /\
    h_cal_target (b_health d') = h_cal_target (b_health d).
Proof.
  intros (Hb & Hc & Hcal) Hp Hq. cbn [poll_run].
  assert (Ho : b_health (observe o d) = b_health d /\ b_cycle_count (observe o d) = b_cycle_count d)
    by (by destruct o as [[? ?] ?]).
  destruct Ho as [Hh Hcy].
  destruct (bhi_poll_ok (observe o d)) as (ret & d1 & -> & [Hstep (m & s & Hst) _ _ Hcal1]);
    [by rewrite Hh|by rewrite Hcy|by rewrite Hh|]. run.
  rewrite Hh, Hp in Hstep. exists d1. rewrite Hst in Hcal1 |- *. cbn in Hcal1 |- *. rewrite Hst in Hstep.
  split_and!; [done| |by apply Hq|by rewrite Hh].
  split_and!; [cbn; by rewrite Hh|cbn; by rewrite Hcy|done].
Qed.

(** A recalibration that is due comes to an end.  After a poll that finds the capacity
    suspect, any number of polls at a bad time leave it waiting; the first poll at a good
    time starts the gauge, if the gauge accepts; it counts as learning for as long as the
    gauge says so, and the first poll that finds the gauge idle ends it. *)
Theorem recalibration_completes d detect waits start busy fin :
  pollable d -> phase (b_health d) = Idle ->
  gauge_says detect = 0 -> suspect (observe detect d) = true ->
  Forall (fun o => gauge_says o = 0 /\ good_time o = false) waits ->
  gauge_says start = 0 -> good_time start = true ->
  (GPSY_SET_PROP RECAL_FG (h_cal_target (b_health d)) start.2).1 = 0 ->
  Forall (fun o => 0 < gauge_says o) busy -> gauge_says fin = 0 ->
  exists d1 d2 d3, poll_run (detect :: waits) d = Ret d1 /\ phase (b_health d1) = Waiting /\
    poll_run (start :: busy) d1 = Ret d2 /\ phase (b_health d2) = Learning /\
    poll_run (detect :: waits ++ start :: busy ++ [fin]) d = Ret d3 /\ phase (b_health d3) = Idle.
Proof.
  intros Hd Hp Hg Hs Hw Hgs Hts Hacc Hb Hf.
  assert (Hview : forall o d', v_gauge (view_of (observe o d')) = gauge_says o /\
    v_good_time (view_of (observe o d')) = good_time o) by (by intros [[? ?] ?] d').
  destruct (poll_one detect d Idle Waiting Hd Hp) as (d0 & H0 & Hd0 & Hp0 & Ht0).
  { intros q Hq. destruct (Hview detect d) as [Eg _]. rewrite Hg in Eg.
    assert (Ex : v_suspect (view_of (observe detect d)) = true) by done.
    inversion Hq; subst; try done; try lia; congruence. }
  destruct (poll_run_stay (fun v => v_gauge v = 0 /\ v_good_time v = false) Waiting waits d0)
    as (d1 & H1 & Hd1 & Hp1 & _ & _ & Ht1 & _); [|done|done| |].
  { intros v q [E1 E2] Hq. inversion Hq; subst; try done; try lia. cbn in *. congruence. }
  { intros d' o Hin. rewrite Forall_forall in Hw. destruct (Hview o d') as [-> ->]. by apply Hw. }
  destruct (poll_one start d1 Waiting Learning Hd1 Hp1) as (d1' & H1' & Hd1' & Hp1' & _).
  { intros q Hq. destruct (Hview start d1) as [Eg Et]. rewrite Hgs in Eg. rewrite Hts in Et.
    assert (Ea : v_start (view_of (observe start d1)) = 0).
    { rewrite <- Hacc, <- Ht0, <- Ht1. by destruct start as [[? ?] ?]. }
    inversion Hq; subst; try done; try lia; congruence. }
  destruct (poll_run_stay (fun v => 0 < v_gauge v) Learning busy d1')
    as (d2 & H2 & Hd2 & Hp2 & _); [|done|done| |].
  { intros v q E Hq. inversion Hq; subst; try done; lia. }
  { intros d' o Hin. rewrite Forall_forall in Hb. destruct (Hview o d') as [-> _]. by apply Hb. }
  destruct (poll_one fin d2 Learning Idle Hd2 Hp2) as (d3 & H3 & _ & Hp3 & _).
  { intros q Hq. destruct (Hview fin d2) as [Eg _]. rewrite Hf in Eg.
    inversion Hq; subst; try done; try lia. }
  exists d1, d2, d3. split_and!; [| done| |done| |done].
  - change (detect :: waits) with ([detect] ++ waits). by rewrite (poll_run_app _ _ _ _ H0).
  - change (start :: busy) with ([start] ++ busy). by rewrite (poll_run_app _ _ _ _ H1').
  - change (detect :: waits ++ start :: busy ++ [fin]) with ([detect] ++ waits ++ [start] ++ busy ++ [fin]).
    by rewrite (poll_run_app _ _ _ _ H0), (poll_run_app _ _ _ _ H1), (poll_run_app _ _ _ _ H1'),
      (poll_run_app _ _ _ _ H2).
Qed.
End recal.
