(* ===== verification/BhiAge.v ===== *)
(** * Wear never looks like health (src/bms/google_battery.c)

    Two batteries that differ in wear only: the more worn one never gets the higher index or
    the better status. *)

From S2P Require Import Prelude GbmsProfile GbmsStorage StorageUse Ssoc Msc.
From S2P Require Import Bhi BhiRes BhiSwell BhiIndex BhiDate BhiUpdate BhiSafe.

(** The algorithms that weigh nothing but the capacity. *)
Definition capacity_algo (algo : Z) : Prop :=
  algo = BHI_ALGO_ACHI \/ algo = BHI_ALGO_ACHI_B \/ algo = BHI_ALGO_ACHI_RECAL \/
  algo = BHI_ALGO_ACHI_RAVG_B \/ algo = BHI_ALGO_ACHI_FCR \/ algo = BHI_ALGO_ACHI_CARETAKER.

(** The capacity that is left, by the history of the gauge. *)
Definition fade_of (algo : Z) (b : bhi_data) : Z :=
  if algo =? BHI_ALGO_ACHI_FCR then bd_fade_fcr b else bd_fade b.

(** The capacity index without the machine arithmetic. *)
Definition left_of (algo : Z) (b : bhi_data) : Z := bd_pack_capacity b * (100 - fade_of algo b) / 100.

Definition held (algo cc : Z) (b : bhi_data) : Z :=
  if bhi_algo_has_bounds algo
  then Z.min (Z.max (left_of algo b) (bound_at (cb_limit (bd_lower b)) cc)) (bound_at (cb_limit (bd_upper b)) cc)
  else left_of algo b.

(** The gauge shows no more than 130%, and the bounds make sense. *)
Definition wear_ok (algo cc : Z) (b : bhi_data) : Prop :=
  - 30 <= fade_of algo b <= 100 /\
  0 <= bound_at (cb_limit (bd_upper b)) cc <= U16_MAX /\ bound_at (cb_limit (bd_lower b)) cc <= U16_MAX.

Lemma held_range algo cc b :
  1 <= bd_pack_capacity b <= U16_MAX -> wear_ok algo cc b -> 0 <= held algo cc b <= 2 * U16_MAX.
Proof.
  intros Hp (Hf & Hu & Hl). unfold held, left_of, U16_MAX in *.
  assert (0 <= bd_pack_capacity b * (100 - fade_of algo b) / 100 <= 131070).
  { split; [apply Z.div_pos; nia|apply Z.div_le_upper_bound; nia]. }
  destruct (bhi_algo_has_bounds algo); lia.
Qed.

Lemma cap_index_eq algo a h :
  capacity_algo algo -> h_debug h = no_debug -> data_ok (h_bhi h) -> aacp_get_cc a <= CYCLES_MAX ->
  wear_ok algo (aacp_get_cc a) (h_bhi h) ->
  bhi_calc_cap_index algo a h =
    Ret (held algo (aacp_get_cc a) (h_bhi h) * BHI_ALGO_FULL_HEALTH / bd_pack_capacity (h_bhi h)).
Proof.
  intros Ha Hd Hb Hcc Hw. pose proof (do_pack _ Hb) as Hp. pose proof (held_range _ _ _ Hp Hw) as Hh.
  destruct Hw as (Hf & _). unfold bhi_calc_cap_index. rewrite Hd. cbn [no_debug hd_cap_index Z.eqb negb].
  rewrite (proj2 (Z.eqb_neq algo _)) by (unfold capacity_algo in Ha; unfold BHI_ALGO_DISABLED; intros ->; by intuition).
  rewrite (proj2 (Z.eqb_neq (bd_pack_capacity _) 0)) by lia.
  assert (Hleft : bhi_health_get_capacity algo (h_bhi h) = left_of algo (h_bhi h)).
  { unfold bhi_health_get_capacity, left_of. fold (fade_of algo (h_bhi h)). unfold U16_MAX in *.
    rewrite (swrap_id 32 (100 - _)) by lia. rewrite swrap_id by nia. by rewrite Z.quot_div_nonneg by nia. }
  assert (Hheld : (if bhi_algo_has_bounds algo
      then bhi_algo_apply_bounds (bhi_health_get_capacity algo (h_bhi h)) (aacp_get_cc a) (h_bhi h)
      else Ret (bhi_health_get_capacity algo (h_bhi h))) = Ret (held algo (aacp_get_cc a) (h_bhi h))).
  { rewrite Hleft. unfold held. destruct (bhi_algo_has_bounds algo); [|done].
    unfold bhi_algo_apply_bounds. by rewrite !bound_ret by (apply Hb || done). }
  rewrite Hheld. run. unfold BHI_ALGO_FULL_HEALTH, U16_MAX in *.
  rewrite (swrap_id 32 (_ * 10000)), Z.quot_div_nonneg by lia. rewrite swrap_id; [done|lia|].
  split; [transitivity 0; [lia|apply Z.div_pos; lia]|apply Z.div_lt_upper_bound; nia].
Qed.

(** More wear: a greater fade and more cycles, all else equal. *)
Record more_worn {D G} (d1 d2 : bhi_drv D G) : Prop := {
  mw_settings : h_settings (b_health d2) = h_settings (b_health d1);
  mw_pack : bd_pack_capacity (h_bhi (b_health d2)) = bd_pack_capacity (h_bhi (b_health d1));
  mw_lower : bd_lower (h_bhi (b_health d2)) = bd_lower (h_bhi (b_health d1));
  mw_upper : bd_upper (h_bhi (b_health d2)) = bd_upper (h_bhi (b_health d1));
  mw_fade : bd_fade (h_bhi (b_health d1)) <= bd_fade (h_bhi (b_health d2));
  mw_fade_fcr : bd_fade_fcr (h_bhi (b_health d1)) <= bd_fade_fcr (h_bhi (b_health d2));
  mw_cc : aacp_get_cc (b_age d1) <= aacp_get_cc (b_age d2);
  mw_profile : b_profile d2 = b_profile d1;
  mw_cliff : ag_cliff_cycle (b_age d2) = ag_cliff_cycle (b_age d1) /\ ag_over_cliff (b_age d2) = ag_over_cliff (b_age d1);
  mw_cutoff : ag_cut_off_cycles (b_age d2) = ag_cut_off_cycles (b_age d1) /\
    ag_over_cutoff (b_age d2) = ag_over_cutoff (b_age d1);
  mw_last : ag_last_entry (b_age d2) = ag_last_entry (b_age d1);
}.

Lemma held_antitone {D G} algo (d1 d2 : bhi_drv D G) :
  let b d := h_bhi (b_health d) in
  let cc d := aacp_get_cc (b_age d) in
  more_worn d1 d2 -> 1 <= bd_pack_capacity (b d1) ->
  antitone (cb_limit (bd_lower (b d1))) -> antitone (cb_limit (bd_upper (b d1))) ->
  held algo (cc d2) (b d2) <= held algo (cc d1) (b d1).
Proof.
  intros b cc [_ Hp Hl Hu Hf Hff Hcc _ _ _ _] Hpack Hal Hau. subst b cc. cbv beta in *.
  assert (Hleft : left_of algo (h_bhi (b_health d2)) <= left_of algo (h_bhi (b_health d1))).
  { unfold left_of, fade_of. rewrite Hp. apply Z.div_le_mono; [lia|]. destruct (_ =? _); nia. }
  unfold held. rewrite Hl, Hu.
  pose proof (bound_at_antitone _ _ _ Hal Hcc). pose proof (bound_at_antitone _ _ _ Hau Hcc).
  destruct (bhi_algo_has_bounds algo); lia.
Qed.

(** ** The published values *)

(** What an index means. *)
Definition health_of (s : health_settings) (index : Z) : Z :=
  if BHI_ROUND_INDEX index <=? hs_need_rep s then BH_NEEDS_REPLACEMENT else
  if BHI_ROUND_INDEX index <=? hs_marginal s then BH_MARGINAL else BH_NOMINAL.

Lemma health_of_antitone s i j :
  settings_ok s -> 0 <= i <= j -> j <= 2 * BHI_ALGO_FULL_HEALTH ->
  BH_NOMINAL <= health_of s j <= health_of s i /\ health_of s i <= BH_NEEDS_REPLACEMENT.
Proof.
  intros [_ Hr _ _ _] Hi Hj. unfold health_of, BHI_ROUND_INDEX, BHI_ALGO_ROUND_INDEX, BHI_ALGO_FULL_HEALTH in *.
  rewrite !(swrap_id 32) by lia. pose proof (Z.quot_le_mono (i + 50) (j + 50) 100).
  unfold BH_NOMINAL, BH_NEEDS_REPLACEMENT, BH_MARGINAL. repeat case_test; lia.
Qed.

(** The index of a capacity algorithm. *)
Definition index_of (algo cc : Z) (b : bhi_data) : Z :=
  let i := held algo cc b * BHI_ALGO_FULL_HEALTH / bd_pack_capacity b in
  if BHI_ALGO_ACHI <? algo then Z.min i BHI_ALGO_FULL_HEALTH else i.

Lemma index_of_range algo cc b :
  capacity_algo algo -> 1 <= bd_pack_capacity b <= U16_MAX -> wear_ok algo cc b ->
  0 <= index_of algo cc b <= 2 * BHI_ALGO_FULL_HEALTH.
Proof.
  intros Ha Hp Hw. pose proof (held_range _ _ _ Hp Hw) as Hh. unfold index_of, BHI_ALGO_FULL_HEALTH.
  assert (0 <= held algo cc b * 10000 / bd_pack_capacity b) by (apply Z.div_pos; lia).
  unfold capacity_algo, BHI_ALGO_ACHI, BHI_ALGO_ACHI_B, BHI_ALGO_ACHI_RECAL, BHI_ALGO_ACHI_RAVG_B,
    BHI_ALGO_ACHI_FCR, BHI_ALGO_ACHI_CARETAKER in *.
  destruct (Z.ltb_spec 2 algo); [lia|]. assert (algo = 2) as -> by lia.
  split; [done|]. destruct Hw as (Hf & _). unfold held, left_of, U16_MAX in *.
  change (bhi_algo_has_bounds 2) with false. cbv iota.
  assert (Hl : bd_pack_capacity b * (100 - fade_of 2 b) / 100 <= 2 * bd_pack_capacity b)
    by (apply Z.div_le_upper_bound; nia).
  apply Z.div_le_upper_bound; lia.
Qed.

Section worn.
Context {D G : Type} `{!FuelGauge G} `{Calendar}.
Context (knows : nat -> Z -> bool) (sees : D -> Z -> list Z) (holds : D -> Prop) (narrow : Prop).
#[local] Abbreviation bhi_drv := (bhi_drv D G).
#[local] Abbreviation bhi_ok := (bhi_ok knows sees holds narrow).

Lemma capacity_index_eq algo c cap imp sd (d : bhi_drv) :
  capacity_algo algo -> h_debug (b_health d) = no_debug ->
  0 <= cap <= 2 * BHI_ALGO_FULL_HEALTH -> 0 <= imp -> 0 <= sd ->
  bhi_calc_health_index algo c cap imp sd d = Ret (cap, d).
Proof.
  intros Ha Hd Hc Hi Hs. unfold bhi_calc_health_index. rewrite Hd. cbn [no_debug hd_health_index Z.eqb negb].
  transitivity (Ret (weigh (100, 0, 0) cap imp sd, d)); [|by rewrite weigh_capacity by lia].
  destruct Ha as [->|[->|[->|[->|[->| ->]]]]]; reflexivity.
Qed.

Lemma past_grace_status algo index h :
  capacity_algo algo -> h_debug h = no_debug -> data_ok (h_bhi h) ->
  hs_cycle_grace (h_settings h) <= bd_cycle_count (h_bhi h) -> h_cal_state h = REC_STATE_OK ->
  0 <= BHI_ROUND_INDEX index ->
  bhi_calc_health_status algo (BHI_ROUND_INDEX index) h =
    Ret (if algo =? BHI_ALGO_ACHI_CARETAKER
         then Z.max (health_of (h_settings h) index) (hr_caretaker (h_result h))
         else health_of (h_settings h) index).
Proof.
  intros Ha Hd Hb Hg Hc Hi. unfold bhi_calc_health_status. rewrite Hd. cbn [no_debug hd_health_status Z.eqb negb].
  rewrite (proj2 (Z.eqb_neq algo _)) by (unfold capacity_algo in Ha; unfold BHI_ALGO_DISABLED; intros ->; by intuition).
  assert (Hna : (if bhi_algo_has_grace algo then
      let* l_bound := bhi_get_capacity_bound (bd_cycle_count (h_bhi h)) (cb_limit (bd_lower (h_bhi h))) in
      Ret ((l_bound =? 0) && negb (hs_cycle_grace (h_settings h) =? 0) &&
           (bd_cycle_count (h_bhi h) <? hs_cycle_grace (h_settings h)))
    else Ret false) = Ret false).
  { destruct (bhi_algo_has_grace algo); [|done]. rewrite bound_ret by apply Hb. run.
    rewrite (proj2 (Z.ltb_ge _ _)) by lia. by rewrite Bool.andb_false_r. }
  rewrite Hna. run. rewrite Hc. change (REC_STATE_OK =? REC_STATE_SCHEDULED) with false. cbv iota.
  unfold health_of. by rewrite (proj2 (Z.ltb_ge (BHI_ROUND_INDEX index) 0)) by lia.
Qed.

Lemma caretaker_monotone (d1 d2 : bhi_drv) v1 v2 :
  more_worn d1 d2 -> age_ok (b_age d1) ->
  bhi_get_caretaker_status (b_profile d1) (b_age d1) = Ret v1 ->
  bhi_get_caretaker_status (b_profile d2) (b_age d2) = Ret v2 -> v1 <= v2.
Proof.
  intros [_ _ _ _ _ _ Hcc Hp [Hcl Hcl'] [Hcu Hcu'] Hla] [_ H1 H2 H3]. unfold bhi_get_caretaker_status.
  rewrite Hp, Hcl, Hcl', Hcu, Hcu', Hla.
  destruct (gbms_aafv_get_last_entry (b_profile d1)) as [last| |]; run; [|done..].
  intros [= <-] [= <-]. unfold BH_NOMINAL in *.
  assert (Hmono : forall x, (x <=? aacp_get_cc (b_age d1)) = true -> (x <=? aacp_get_cc (b_age d2)) = true)
    by (intros x Hx; bool_to_prop; lia).
  pose proof (Hmono last). pose proof (Hmono (ag_cut_off_cycles (b_age d1))).
  pose proof (Hmono (ag_cliff_cycle (b_age d1))).
  destruct (negb (last =? 0)), (last <=? aacp_get_cc (b_age d1)), (last <=? aacp_get_cc (b_age d2));
  destruct (negb (ag_cut_off_cycles (b_age d1) =? _)), (ag_cut_off_cycles (b_age d1) <=? aacp_get_cc (b_age d1)),
    (ag_cut_off_cycles (b_age d1) <=? aacp_get_cc (b_age d2));
  destruct (0 <=? ag_cliff_cycle (b_age d1)), (ag_cliff_cycle (b_age d1) <=? aacp_get_cc (b_age d1)),
    (ag_cliff_cycle (b_age d1) <=? aacp_get_cc (b_age d2)); cbn [andb];
  try lia; exfalso; intuition congruence.
Qed.

(** The algorithm looks at the capacity, nothing hides the status, and the gauge answers. *)
Record judged (d : bhi_drv) : Prop := {
  ju_ok : bhi_ok d;
  ju_algo : capacity_algo (hs_algo (h_settings (b_health d)));
  ju_wear : wear_ok (hs_algo (h_settings (b_health d))) (aacp_get_cc (b_age d)) (h_bhi (b_health d));
  ju_cal : h_cal_state (b_health d) = REC_STATE_OK;
  ju_grace : hs_cycle_grace (h_settings (b_health d)) <= b_cycle_count d;
  ju_age : 0 <= GPSY_GET_PROP BATTERY_AGE (b_gauge d);
}.

(** An update of such a state: the index is the capacity that is left, the status what the
    thresholds say, or what the profile's age says if that is worse. *)
Lemma judged_result c d :
  judged d ->
  exists ret d' care, batt_bhi_stats_update c d = Ret (ret, d') /\
    let algo := hs_algo (h_settings (b_health d)) in
    let index := index_of algo (aacp_get_cc (b_age d)) (h_bhi (b_health d)) in
    let status := health_of (h_settings (b_health d)) index in
    bhi_get_caretaker_status (b_profile d) (b_age d) = Ret care /\
    hr_index (h_result (b_health d')) = index /\ hr_cap (h_result (b_health d')) = index /\
    hr_status (h_result (b_health d')) =
      if algo =? BHI_ALGO_ACHI_CARETAKER then Z.max status care else status.
Proof.
  intros [Hd Ha Hw Hc Hg Hage]. set (algo := hs_algo (h_settings (b_health d))) in *.
  destruct (stats_update_ok knows sees holds narrow c d Hd) as [[? _]|(ret & d' & Hrun & Hu & _)]; [lia|].
  destruct Hu as [cap v care status d1 algo' d0 _ Hcap Hv _ Hcare Hs ->]. fold algo in algo'. subst algo'.
  pose proof (do_pack _ (bo_data _ _ _ _ d Hd)) as Hp.
  set (index := index_of algo (aacp_get_cc (b_age d)) (h_bhi (b_health d))).
  pose proof (index_of_range algo (aacp_get_cc (b_age d)) (h_bhi (b_health d)) Ha Hp Hw) as Hi. fold index in Hi.
  assert (Hd0 : bhi_ok d0) by by apply aged_ok.
  rewrite cap_index_eq in Hcap; [|done|apply Hd0|apply Hd0|apply Hd|done].
  change (Ret (held algo (aacp_get_cc (b_age d)) (h_bhi (b_health d)) * BHI_ALGO_FULL_HEALTH /
    bd_pack_capacity (h_bhi (b_health d))) = Ret cap) in Hcap. injection Hcap as <-.
  assert (Hpub : published_cap algo (held algo (aacp_get_cc (b_age d)) (h_bhi (b_health d)) * BHI_ALGO_FULL_HEALTH /
      bd_pack_capacity (h_bhi (b_health d))) = index).
  { unfold published_cap, bhi_cap_index_bound, index, index_of in *.
    pose proof (held_range _ _ _ Hp Hw). unfold BHI_ALGO_FULL_HEALTH in *.
    assert (0 <= held algo (aacp_get_cc (b_age d)) (h_bhi (b_health d)) * 10000 /
      bd_pack_capacity (h_bhi (b_health d))) by (apply Z.div_pos; lia).
    repeat case_test; cbn [andb]; lia. }
  exists ret, (set_h d1 (set_hresult (b_health d1) (result_of algo (b_health d0)
    (held algo (aacp_get_cc (b_age d)) (h_bhi (b_health d)) * BHI_ALGO_FULL_HEALTH / bd_pack_capacity (h_bhi (b_health d)))
    v care status))), care.
  split; [done|]. cbv zeta. split; [done|]. cbn [set_h b_health set_hresult h_result result_of hr_index hr_cap hr_status].
  rewrite Hpub in Hv |- *.
  rewrite capacity_index_eq in Hv; [|done|apply Hd0|lia|unfold published_imp; case_test; lia|].
  2: { unfold published_sd. case_test; [done|lia]. }
  injection Hv as <- <-. unfold published_index in Hs |- *. rewrite (proj2 (Z.ltb_ge index 0)) in Hs |- * by lia.
  split; [done|]. split; [done|].
  rewrite past_grace_status in Hs; [|done|apply Hd0|apply Hd0|done|done|].
  - by injection Hs as <-.
  - unfold BHI_ROUND_INDEX, BHI_ALGO_ROUND_INDEX, BHI_ALGO_FULL_HEALTH in *. rewrite swrap_id by lia.
    apply Z.quot_pos; lia.
Qed.

(** C32. Wear never looks like health.  Take two batteries under the same algorithm (one that
    looks at capacity), with bounds that do not rise: if the second has lost at least as
    much capacity and done at least as many cycles, then after an update its capacity index
    and its health index are not higher, and its status is not better.  Both are [judged]: they
    are past the grace period, no recalibration is going on, and the gauge answers, so that a
    status is shown. *)
Theorem aging_never_improves_health c1 c2 d1 d2 :
  judged d1 -> judged d2 -> more_worn d1 d2 ->
  antitone (cb_limit (bd_lower (h_bhi (b_health d1)))) -> antitone (cb_limit (bd_upper (h_bhi (b_health d1)))) ->
  exists r1 r2 d1' d2', batt_bhi_stats_update c1 d1 = Ret (r1, d1') /\
    batt_bhi_stats_update c2 d2 = Ret (r2, d2') /\
    hr_cap (h_result (b_health d2')) <= hr_cap (h_result (b_health d1')) /\
    hr_index (h_result (b_health d2')) <= hr_index (h_result (b_health d1')) /\
    BH_NOMINAL <= hr_status (h_result (b_health d1')) <= hr_status (h_result (b_health d2')) /\
    hr_status (h_result (b_health d2')) <= BH_NEEDS_REPLACEMENT.
Proof.
  intros H1 H2 Hm Hal Hau.
  destruct (judged_result c1 d1 H1) as (r1 & d1' & care1 & Hr1 & Hc1 & Hi1 & Hcap1 & Hs1).
  destruct (judged_result c2 d2 H2) as (r2 & d2' & care2 & Hr2 & Hc2 & Hi2 & Hcap2 & Hs2).
  exists r1, r2, d1', d2'. rewrite (mw_settings _ _ Hm) in *.
  set (s := h_settings (b_health d1)) in *. set (algo := hs_algo s) in *.
  destruct H1 as [Hd1 Ha Hw1 _ _ _], H2 as [Hd2 _ Hw2 _ _ _]. rewrite (mw_settings _ _ Hm) in Hw2.
  fold s algo in Hw1, Hw2, Ha. pose proof (do_pack _ (bo_data _ _ _ _ d1 Hd1)) as Hp.
  assert (Hidx : index_of algo (aacp_get_cc (b_age d2)) (h_bhi (b_health d2)) <=
                 index_of algo (aacp_get_cc (b_age d1)) (h_bhi (b_health d1))).
  { unfold index_of. rewrite (mw_pack _ _ Hm).
    pose proof (held_antitone algo d1 d2 Hm ltac:(lia) Hal Hau) as Hh. cbv beta in Hh.
    assert (Hq := Z.div_le_mono _ _ (bd_pack_capacity (h_bhi (b_health d1))) ltac:(lia)
      (Z.mul_le_mono_nonneg_r _ _ BHI_ALGO_FULL_HEALTH ltac:(done) Hh)).
    destruct (_ <? algo); lia. }
  pose proof (index_of_range algo _ _ Ha Hp Hw1) as R1.
  assert (R2 : 0 <= index_of algo (aacp_get_cc (b_age d2)) (h_bhi (b_health d2))).
  { apply index_of_range; [done| |done]. by rewrite (mw_pack _ _ Hm). }
  destruct (health_of_antitone s _ _ (bo_settings _ _ _ _ d1 Hd1) (conj R2 Hidx) ltac:(lia)) as [Hst Hst'].
  destruct (caretaker_range (b_profile d2) (b_age d2)) as (care & Hce & Hcr); [apply Hd2..|].
  rewrite Hc2 in Hce. injection Hce as <-.
  pose proof (caretaker_monotone d1 d2 care1 care2 Hm (bo_age _ _ _ _ d1 Hd1) Hc1 Hc2) as Hcare.
  destruct (caretaker_range (b_profile d1) (b_age d1)) as (care' & Hce' & Hcr'); [apply Hd1..|].
  rewrite Hc1 in Hce'. injection Hce' as <-.
  split; [done|]. split; [done|]. rewrite Hi1, Hi2, Hcap1, Hcap2, Hs1, Hs2.
  destruct (algo =? BHI_ALGO_ACHI_CARETAKER); lia.
Qed.
End worn.
