(* ===== verification/BhiDemo.v ===== *)
(** * Instances for the battery health index (src/bms/google_battery.c)

    A gauge, a calendar and a storage on which the theorems apply, with the witnesses. *)

From Stdlib Require Import String.
From S2P Require Import Prelude GbmsProfile GbmsStorage StorageTable StorageContract StorageUse.
From S2P Require Import Eeprom Ssoc SsocSave Msc GbmsLookup.
From S2P Require Import Bhi BhiRes BhiSwell BhiIndex BhiDate BhiUpdate BhiSafe BhiRecal BhiAge.

(** ** A device that keeps every record *)

Definition notes : Type := Z -> list Z.

Definition note (d : notes) (t : Z) (l : list Z) : notes := fun t' => if t' =? t then l else d t'.

Definition notes_dsc : gbms_storage_desc notes :=
  mk_desc None None
    (Some (fun tag _ count _ d => Ret (count, d tag)))
    (Some (fun tag data count _ d =>
       Ret (match data with
            | Some l => (count, note d tag (take (Z.to_nat count) l ++ drop (Z.to_nat count) (d tag)))
            | None => (- EINVAL, d)
            end)))
    None None None None None.

Definition notes_knows (i : nat) (t : Z) : bool := match i with O => true | S _ => false end.
Definition notes_sees (d : notes) (t : Z) : list Z := d t.
Definition any_notes (d : notes) : Prop := True.

Lemma notes_contract ptr : StorageContract (notes_knows 0) notes_sees any_notes notes_dsc ptr.
Proof.
  split; [| |done|done].
  - intros f t data n d [= <-] _. eexists; split; [done|]. by split.
  - intros f t l n d [= <-] _ Hn. eexists; split; [done|]. unfold notes_sees, note. cbn [fst snd].
    split_and!; [done|done| | |].
    + intros _ _. by rewrite Z.eqb_refl.
    + rewrite Z.eqb_refl, drop_app_ge by (rewrite length_take; lia).
      rewrite length_take, drop_drop. f_equal. lia.
    + intros t' Ht. by rewrite (proj2 (Z.eqb_neq t' t)).
Qed.

Definition notes_storage (d : notes) : gbms_storage notes :=
  mk_storage true 1 (mk_provider (Some "notes"%string) (Some notes_dsc) false 0 ::
    replicate 5 (empty_slot)) None [] d.

Lemma notes_ready d : ready notes_knows notes_sees any_notes (notes_storage d).
Proof.
  split; [|done]. split; [..|done].
  - intros [|i] p dsc Hi Hd; cbn in Hi; [|by destruct i]. simplify_eq. cbn in Hd. simplify_eq.
    apply notes_contract.
  - intros [|i] p Hi; cbn in Hi; [|by destruct i]. by simplify_eq.
  - intros [|i] [|j] t; cbn; by intros.
  - intros ce Hce. by apply not_elem_of_nil in Hce.
Qed.

(** Every record blank. *)
Definition blank : notes := fun _ => replicate 20 0xff.

(** ** A calendar *)

(** Leap years every four years, which is the Gregorian calendar until February 2100.  Years
    are counted from March 1968. *)
Definition month_day (doy : Z) : Z * Z :=
  let mp := (5 * doy + 2) / 153 in
  (if mp <? 10 then mp + 3 else mp - 9, doy - (153 * mp + 2) / 5 + 1).

Definition day_of_year (m d : Z) : Z := (153 * (if 2 <? m then m - 3 else m + 9) + 2) / 5 + d - 1.

Definition civil_of_days (days : Z) : Z * Z * Z :=
  let z := days + 671 in
  let yoc := Z.min 3 (z mod 1461 / 365) in
  let '(m, d) := month_day (z mod 1461 - 365 * yoc) in
  (1968 + 4 * (z / 1461) + yoc + (if m <=? 2 then 1 else 0), m, d).

Definition days_of_civil (y m d : Z) : Z :=
  let y := (if m <=? 2 then y - 1 else y) - 1968 in
  365 * y + y / 4 + day_of_year m d - 671.

#[export] Instance four_years : Calendar := {|
  rtc_tm_to_time64 tm :=
    86400 * days_of_civil (tm_year tm + 1900) (tm_mon tm + 1) (tm_mday tm) +
    3600 * tm_hour tm + 60 * tm_min tm + tm_sec tm;
  rtc_time64_to_tm t :=
    let '(y, m, d) := civil_of_days (t / 86400) in
    mk_tm (t mod 60) (t / 60 mod 60) (t / 3600 mod 24) d (m - 1) (y - 1900);
|}.

(** Every day of a year has a date that stands for it. *)
Definition day_ok (doy : Z) : bool :=
  let '(m, d) := month_day doy in
  (day_of_year m d =? doy) && (1 <=? d) && (d <=? 31) && (1 <=? m) && (m <=? 12).

Lemma all_days_ok doy : 0 <= doy < 366 -> day_ok doy = true.
Proof.
  intros Hd. assert (Hall : forallb day_ok (seqZ 0 366) = true) by (vm_compute; reflexivity).
  rewrite forallb_forall in Hall. apply Hall, list_elem_of_In, elem_of_seqZ. lia.
Qed.

Lemma civil_ok days :
  let '(y, m, d) := civil_of_days days in
  days_of_civil y m d = days /\ 1 <= d <= 31 /\ 1 <= m <= 12 /\
  1968 + 4 * ((days + 671) / 1461) <= y /\
  365 * (y - 1969 - 4 * ((days + 671) / 1461)) <= (days + 671) mod 1461.
Proof.
  unfold civil_of_days. set (z := days + 671). set (yoc := Z.min 3 (z mod 1461 / 365)).
  assert (Hr : 0 <= yoc /\ 0 <= z mod 1461 - 365 * yoc < 366 /\ yoc <= 3).
  { pose proof (Z.mod_pos_bound z 1461 ltac:(lia)). subst yoc. Z.div_mod_to_equations. lia. }
  destruct Hr as (Hy & Hd & Hy3). pose proof (all_days_ok _ Hd) as Hok. unfold day_ok in Hok.
  destruct (month_day _) as [m d]. bool_to_prop. destruct Hok as ((((Hday & ?) & ?) & ?) & ?).
  split_and!; try lia; [|destruct (m <=? 2); lia..]. unfold days_of_civil. rewrite Hday.
  set (y := (if m <=? 2 then _ - 1 else _) - 1968).
  assert (y = 4 * (z / 1461) + yoc) as -> by (subst y; destruct (m <=? 2); lia).
  rewrite Z.mul_comm, Z.mul_comm, Z.add_comm. pose proof (Z.div_mod z 1461 ltac:(lia)).
  replace ((4 * (z / 1461) + yoc) / 4) with (z / 1461) by (Z.div_mod_to_equations; lia). lia.
Qed.

Lemma time_of_day t :
  t = 86400 * (t / 86400) + 3600 * (t / 3600 mod 24) + 60 * (t / 60 mod 60) + t mod 60.
Proof.
  change 86400 with (60 * 60 * 24). change 3600 with (60 * 60). rewrite <- !Z.div_div by lia.
  pose proof (Z.div_mod t 60). pose proof (Z.div_mod (t / 60) 60). pose proof (Z.div_mod (t / 60 / 60) 24). lia.
Qed.

Lemma civil_years t : 1606780800 <= t < 2 ^ 32 ->
  120 <= (civil_of_days (t / 86400)).1.1 - 1900 <= 206.
Proof.
  intros Ht. pose proof (civil_ok (t / 86400)) as Hok. destruct (civil_of_days (t / 86400)) as [[y m] d].
  destruct Hok as (_ & _ & _ & Hlo & Hhi). cbn [fst]. Z.div_mod_to_equations. lia.
Qed.

#[export] Instance four_years_laws : CalendarLaws.
Proof.
  split.
  - intros t Ht. pose proof (civil_ok (t / 86400)) as Hok. cbn [rtc_time64_to_tm four_years].
    destruct (civil_of_days (t / 86400)) as [[y m] d]. cbn [tm_sec tm_min tm_hour tm_mday tm_mon].
    pose proof (Z.mod_pos_bound t 60). pose proof (Z.mod_pos_bound (t / 60) 60).
    pose proof (Z.mod_pos_bound (t / 3600) 24). lia.
  - intros t Ht. pose proof (civil_ok (t / 86400)) as Hok. cbn [rtc_tm_to_time64 rtc_time64_to_tm four_years].
    destruct (civil_of_days (t / 86400)) as [[y m] d]. cbn [tm_sec tm_min tm_hour tm_mday tm_mon tm_year].
    replace (y - 1900 + 1900) with y by lia. replace (m - 1 + 1) with m by lia.
    destruct Hok as [-> _]. symmetry. apply time_of_day.
  - intros s m h d mo y. cbn [rtc_tm_to_time64 four_years tm_sec tm_min tm_hour tm_mday tm_mon tm_year]. lia.
  - intros t Ht. pose proof (civil_years t Ht) as Hok. cbn [rtc_time64_to_tm four_years].
    by destruct (civil_of_days (t / 86400)) as [[y m] d].
Qed.

(** ** A gauge and a driver *)

(** A status and a value for every property. *)
Definition board : Type := bhi_prop -> Z * Z.

#[export] Instance board_gauge : FuelGauge board := {|
  gbms_get_property p g := g p;
  gbms_set_property p v g := (0, fun q => if decide (q = p) then (0, v) else g q);
|}.

(** Faded by [fade] percent; [recal]: 0 when it is not learning; it asks for [health]. *)
Definition demo_board (fade recal health : Z) : board := fun p =>
  match p with
  | CAPACITY_FADE_RATE | CAPACITY_FADE_RATE_FCR => (0, fade)
  | CHARGE_FULL_DESIGN => (0, 4000000)
  | CHARGE_FULL => (0, 3500000)
  | GAUGE_HEALTH => (0, health)
  | HEALTH_ACT_IMPEDANCE => (0, 12000)
  | BATTERY_AGE => (0, 700)
  | RECAL_FG => (0, recal)
  | RESISTANCE => (0, 12345)
  | BATT_ID => (0, 1)
  | AAFV_OFFSET => (0, 0)
  | TEMPERATURE => (0, 250)
  end.

Definition demo_res : batt_res := mk_res true 0 0 0 0 10 5 75 350 390.

Definition lower_limit : list Z := [3600; 3400; 3200; 3100; 3000; 2900; 2800; 2700; 2600; 2500].
Definition upper_limit : list Z := [4000; 4000; 3950; 3900; 3850; 3800; 3750; 3700; 3650; 3600].

Definition demo_data (fade : Z) : bhi_data :=
  mk_bhi_data 300 700 4000 fade fade 12000 12400 demo_res 0 9000 (mk_date 22 5 1) [0; 0; 0] (-1)
    (replicate 10 0xffff) (mk_bound lower_limit (replicate 10 3600))
    (mk_bound upper_limit (replicate 10 0xffff)).

Definition demo_settings (algo : Z) : health_settings := mk_hset algo 100 0 0 80 70 800 1000 85 200.

Definition demo_health (algo fade : Z) : health_data :=
  mk_hdata (demo_settings algo) no_debug (mk_hresult 10000 0 10000 10000 10000 0) (demo_data fade)
    REC_MODE_RESET REC_STATE_OK 1.

Definition demo_age (cc : Z) : age_state := mk_age 0 cc AACP_OPT_OUT_CUT_OFF_DISABLED 2 2 1 (-1).
Definition demo_cc : ccbin_data := mk_ccbin [10; 20; 30; 30; 30; 30; 30; 30; 25; 15] 50.
Definition demo_sd : swelling_data :=
  mk_sd true [300; 350; 400] [90; 95; 95] [0; 0; 0; 0; 0; 0] [7200; 3600; 0] [3600; 0; 0] 0.

Definition demo (algo fade cc recal : Z) : bhi_drv notes board :=
  mk_bhi _ _ (demo_health algo fade) DemoProfile.prof (demo_age cc) demo_cc demo_sd 300 4000 1 0 false
    (notes_storage blank) (demo_board fade recal 0).

Lemma falls_antitone l :
  forallb (fun i => point l (i + 1) <=? point l i) (seqZ 0 9) = true -> antitone l.
Proof.
  intros H i Hi. rewrite forallb_forall in H.
  apply Z.leb_le, H, list_elem_of_In, elem_of_seqZ. lia.
Qed.

Lemma demo_data_ok fade : data_ok (demo_data fade).
Proof.
  split; try (vm_compute; intuition congruence);
    (split; [done|by apply (bool_decide_eq_true_1 _)]).
Qed.

Lemma demo_settings_ok algo : algo_ok algo -> settings_ok (demo_settings algo).
Proof. intros Ha. split; [done|vm_compute; intuition congruence..]. Qed.

Lemma demo_age_ok cc : cc <= CYCLES_MAX -> age_ok (demo_age cc).
Proof. intros Hc. split; [done|vm_compute; intuition congruence..]. Qed.

Lemma demo_cc_ok : cc_ok demo_cc.
Proof.
  split; [done| |by vm_compute|by vm_compute].
  by apply (bool_decide_eq_true_1 _).
Qed.

#[local] Abbreviation demo_state_ok := (bhi_ok notes_knows notes_sees any_notes True).

Lemma demo_index_ok algo fade cc recal :
  algo_ok algo -> ~ unbounded algo -> cc <= CYCLES_MAX -> demo_state_ok (demo algo fade cc recal).
Proof.
  intros Ha Hu Hc. split.
  - apply demo_data_ok.
  - by apply demo_settings_ok.
  - done.
  - by left.
  - done.
  - split; cbn; unfold BHI_ALGO_FULL_HEALTH; first [lia|set_solver].
  - vm_compute. intuition congruence.
  - by eexists.
  - by apply demo_age_ok.
  - apply demo_cc_ok.
  - by split.
  - vm_compute. congruence.
  - apply notes_ready.
Qed.

Lemma caretaker_ok : algo_ok BHI_ALGO_ACHI_CARETAKER /\ ~ unbounded BHI_ALGO_ACHI_CARETAKER.
Proof. unfold algo_ok, unbounded. vm_compute. intuition congruence. Qed.

Definition demo_clock : clock := mk_clock 1700000000 480 (0, 0, 0).

(** ** The theorems apply *)

Definition demo_bhi_events : list (bhi_event (D := notes) (G := board)) :=
  [ BhiStats demo_clock; BhiPoll; BhiShow demo_clock; BhiAlgo demo_clock BHI_ALGO_INDI; BhiIndiCap 95;
    BhiGrace 100; BhiCalMode REC_MODE_IMMEDIATE; BhiPoll;
    BhiOutside demo_res (demo_age 400) demo_cc demo_sd 310 0 true (notes_storage blank) (demo_board 12 0 0);
    BhiAlgo demo_clock BHI_ALGO_MIX_N_MATCH; BhiStats demo_clock ].

Lemma demo_bhi_events_ok : Forall (event_ok notes_knows notes_sees any_notes True) demo_bhi_events.
Proof.
  repeat (apply Forall_cons; split); [..|by apply Forall_nil]; try exact I;
    try (intros _; unfold unbounded; vm_compute; intuition congruence).
  split_and!; [apply demo_age_ok; by vm_compute|apply demo_cc_ok|by split|by vm_compute|apply notes_ready].
Qed.

Lemma health_index_well_formed_witness :
  exists d, bhi_run demo_bhi_events (demo BHI_ALGO_ACHI_CARETAKER 10 300 0) = Ret d /\
    demo_state_ok d /\ result_ok True (h_result (b_health d)) /\ cal_ok (b_health d).
Proof.
  apply (health_index_well_formed notes_knows notes_sees any_notes True demo_bhi_events).
  - destruct caretaker_ok. apply demo_index_ok; [done|done|by vm_compute].
  - apply demo_bhi_events_ok.
Defined.

(** 10% faded after 300 cycles against 25% after 900. *)
Lemma aging_never_improves_health_witness :
  exists r1 r2 d1 d2,
    batt_bhi_stats_update demo_clock (demo BHI_ALGO_ACHI_CARETAKER 10 300 0) = Ret (r1, d1) /\
    batt_bhi_stats_update demo_clock (demo BHI_ALGO_ACHI_CARETAKER 25 900 0) = Ret (r2, d2) /\
    hr_index (h_result (b_health d2)) <= hr_index (h_result (b_health d1)) /\
    hr_status (h_result (b_health d1)) <= hr_status (h_result (b_health d2)).
Proof.
  destruct caretaker_ok as [Ha Hu].
  destruct (aging_never_improves_health notes_knows notes_sees any_notes True demo_clock demo_clock
    (demo BHI_ALGO_ACHI_CARETAKER 10 300 0) (demo BHI_ALGO_ACHI_CARETAKER 25 900 0))
    as (r1 & r2 & d1 & d2 & H1 & H2 & _ & Hi & [_ Hs] & _).
  - split; [by apply demo_index_ok|unfold capacity_algo; intuition|vm_compute; intuition congruence|done|by vm_compute|by vm_compute].
  - split; [by apply demo_index_ok|unfold capacity_algo; intuition|vm_compute; intuition congruence|done|by vm_compute|by vm_compute].
  - split; try reflexivity; try (by split); by vm_compute.
  - by apply falls_antitone.
  - by apply falls_antitone.
  - exists r1, r2, d1, d2. by split_and!.
Defined.

Lemma capacity_bound_interpolates_witness :
  exists v, bhi_get_capacity_bound 350 lower_limit = Ret v /\ 3100 <= v <= 3200 /\
    forall cc v', 350 <= cc <= CYCLES_MAX -> bhi_get_capacity_bound cc lower_limit = Ret v' -> v' <= v.
Proof.
  destruct (capacity_bound_interpolates lower_limit 350) as (v & Hv & _ & _ & Hb & _ & Hm).
  - apply (do_lower _ (demo_data_ok 0)).
  - by vm_compute.
  - exists v. split_and!; [done|..].
    1-2: destruct (Hb 2) as [Hr _]; [lia|lia|vm_compute in Hr |- *; intuition congruence].
    by apply Hm, falls_antitone.
Defined.

Lemma residency_is_share_witness :
  bhi_cycle_count_residency demo_cc 90 = Ret 9400.
Proof.
  destruct (residency_is_share demo_cc 90) as (index & Hr & _ & Hi & _).
  - done.
  - apply demo_cc_ok.
  - by vm_compute.
  - by vm_compute.
  - rewrite Hr, Hi. reflexivity.
Defined.

Lemma cycle_bins_count_charge_witness :
  exists c st, count_run [40; 55; 101; 20; 41] (mk_ccbin (replicate 10 7) (-1)) (notes_storage blank) =
      Ret (c, st) /\ cc_count c = [7; 7; 17; 17; 18; 12; 7; 7; 7; 7].
Proof.
  destruct (cycle_bins_count_charge notes_knows notes_sees any_notes [40; 55; 101; 20; 41]
    (mk_ccbin (replicate 10 7) (-1)) (notes_storage blank)) as (c & st & Hr & [Hl _] & _ & Hb).
  - split; [done|]. by apply (bool_decide_eq_true_1 _).
  - by vm_compute.
  - apply notes_ready.
  - exists c, st. split; [done|]. apply list_eq. intros b. destruct (decide (b < 10)%nat) as [Hlt|Hge].
    + assert (b ∈ seq 0 10) as Hin by (apply elem_of_seq; lia). cbn in Hin. set_unfold in Hin.
      destruct_or! Hin; subst b; rewrite (Hb _ 7); reflexivity.
    + rewrite !lookup_ge_None_2; [done|cbn; lia|lia].
Defined.

Definition demo_session : list (res_event board) :=
  [ ResSet true; ResWork 50 (Some 360) (demo_board 0 0 0); ResWork 60 (Some 500) (demo_board 0 0 0);
    ResWork 70 (Some 370) (demo_board 0 0 0); ResWork 80 (Some 370) (demo_board 0 0 0); ResSet false ].

Lemma resistance_average_in_range_witness :
  exists r st, res_run demo_session (demo_res, notes_storage blank) = Ret (r, st) /\
    r_filter_count r = 1 /\ 10000 <= batt_ravg_value r <= 20000.
Proof.
  destruct (resistance_average_in_range notes_knows notes_sees any_notes 100 200 demo_session demo_res
    (notes_storage blank)) as (r & st & Hr & _ & _ & _ & _ & Hv).
  - split; vm_compute; intuition congruence.
  - unfold res_fits. vm_compute. intuition congruence.
  - repeat (apply Forall_cons; split); try exact I; try (intros _; by vm_compute). by apply Forall_nil.
  - apply notes_ready.
  - exists r, st. assert (Hc : r_filter_count r = 1) by (vm_compute in Hr; by injection Hr as <- _).
    rewrite Hc in Hv. split_and!; [exact Hr|done|apply Hv; by vm_compute..].
Defined.

(** An average of 123 over one session. *)
Lemma resistance_survives_reboot_witness :
  exists st, batt_ravg_write 123 1 (notes_storage blank) = Ret (0, st) /\
    exists r st3, batt_res_load_data demo_res (notes_storage (devices st)) = Ret (r, st3) /\
      (r = set_average demo_res 1 123 \/
       read_fails (devices st)).
Proof.
  destruct (resistance_survives_reboot notes_knows notes_sees any_notes 100 200 0
    (set_average demo_res 1 123) (notes_storage blank)) as (ret & st & Hw & _ & Hread).
  - split; vm_compute; intuition congruence.
  - unfold res_fits. vm_compute. intuition congruence.
  - apply notes_ready.
  - by vm_compute.
  - by vm_compute.
  - by vm_compute.
  - assert (Hret : ret = 0) by (vm_compute in Hw; by injection Hw as <- _). subst ret.
    exists st. split; [exact Hw|].
    destruct (Hread eq_refl (notes_storage (devices st)) demo_res (notes_ready _) eq_refl)
      as (st3 & [Hl|(r1 & Hl & Hf)]); [by eauto 6|by eauto 6].
Defined.

(** On 14 November 2023, without hours on the stack. *)
Lemma first_usage_date_reads_back_witness :
  exists b st, first_usage_date_store demo_clock 0 (demo_data 0) (notes_storage blank) = Ret (0, b, st) /\
    day_start (local_epoch demo_clock) = 1699920000 /\
    first_usage_date_show demo_clock b st = Ret (1699920000, b, st).
Proof.
  destruct (first_usage_date_reads_back notes_knows notes_sees any_notes demo_clock 0 (demo_data 0)
    (notes_storage blank)) as (ret & b & st & Hw & _ & _ & _ & Hok).
  - apply notes_ready.
  - by exists (replicate 17 0xff).
  - done.
  - done.
  - by left.
  - vm_compute. intuition congruence.
  - assert (Hret : ret = 0) by (vm_compute in Hw; by injection Hw as <- _ _). subst ret.
    destruct (Hok eq_refl) as (_ & Hshow & _). exists b, st. split_and!; [exact Hw|reflexivity|].
    rewrite Hshow. reflexivity.
Defined.

Lemma recalibration_refines_witness :
  exists ret d, batt_bhi_update_recalibration_status (demo BHI_ALGO_ACHI_RECAL 40 300 0) = Ret (ret, d) /\
    recal_step (view_of (demo BHI_ALGO_ACHI_RECAL 40 300 0)) Idle (phase (b_health d)).
Proof.
  destruct (recalibration_refines (demo BHI_ALGO_ACHI_RECAL 40 300 0)) as [(ret & d & Hr & Hs & _) _].
  - apply demo_data_ok.
  - by vm_compute.
  - by left.
  - by exists ret, d.
Defined.

Definition suspect_board : board := demo_board 10 0 POWER_SUPPLY_HEALTH_CALIBRATION_REQUIRED.

(** Found, two polls while charging, started when charging is done, two polls of learning. *)
Lemma recalibration_completes_witness :
  exists d1 d2 d3,
    poll_run [(0, false, suspect_board); (0, false, suspect_board); (0, false, suspect_board)]
      (demo BHI_ALGO_ACHI_RECAL 10 300 0) = Ret d1 /\ phase (b_health d1) = Waiting /\
    poll_run [(0, true, suspect_board); (0, true, demo_board 10 1 0)] d1 = Ret d2 /\
    phase (b_health d2) = Learning /\
    poll_run [(0, false, suspect_board); (0, false, suspect_board); (0, false, suspect_board);
              (0, true, suspect_board); (0, true, demo_board 10 1 0); (0, false, demo_board 10 0 0)]
      (demo BHI_ALGO_ACHI_RECAL 10 300 0) = Ret d3 /\ phase (b_health d3) = Idle.
Proof.
  destruct (recalibration_completes (demo BHI_ALGO_ACHI_RECAL 10 300 0) (0, false, suspect_board)
    [(0, false, suspect_board); (0, false, suspect_board)] (0, true, suspect_board)
    [(0, true, demo_board 10 1 0)] (0, false, demo_board 10 0 0))
    as (d1 & d2 & d3 & H1 & Hp1 & H2 & Hp2 & H3 & Hp3).
  - split_and!; [apply demo_data_ok|by vm_compute|by left].
  - reflexivity.
  - reflexivity.
  - reflexivity.
  - repeat (apply Forall_cons; split); [by split..|by apply Forall_nil].
  - reflexivity.
  - reflexivity.
  - reflexivity.
  - repeat (apply Forall_cons; split); [by vm_compute|by apply Forall_nil].
  - reflexivity.
  - exists d1, d2, d3. split_and!; [exact H1|exact Hp1|exact H2|exact Hp2|exact H3|exact Hp3].
Defined.
