(* ===== verification/BhiDefects.v ===== *)
(** * Start-up, and defects of the battery health index (src/bms/google_battery.c)

    What start-up establishes for any device tree, and runs that show where the code does
    not do what it means to. *)

From Stdlib Require Import String.
From S2P Require Import Prelude GbmsProfile GbmsStorage StorageTable StorageContract StorageUse.
From S2P Require Import Eeprom Ssoc SsocSave Msc GbmsLookup.
From S2P Require Import Bhi BhiRes BhiSwell BhiIndex BhiDate BhiUpdate BhiSafe BhiRecal BhiAge BhiDemo.

(** ** Start-up *)

(** What of_property_read_u16_array documents: all the cells that were asked for. *)
Class DeviceTree16Laws `{!DeviceTree16} : Prop :=
  u16_cells node name n l : of_property_read_u16_array node name n = inr l ->
    Z.of_nat (length l) = n /\ Forall (fun x => 0 <= x <= U16_MAX) l.

Section start_up.
Context {D G : Type} `{!FuelGauge G} `{DeviceTree} `{!DeviceTree16} `{!DeviceTree16Laws}.

Lemma validity_loop_ret turns : forall i l lower upper,
  0 <= i -> i + Z.of_nat turns <= Z.of_nat (length l) ->
  exists ok, validity_loop turns i l lower upper = Ret ok.
Proof.
  induction turns as [|turns IH]; intros i l lower upper Hi Hl; cbn [validity_loop]; [by eauto|].
  destruct (at_in l i) as [x ->]; [lia|]. run. destruct (_ || _); [by eauto|]. apply IH; lia.
Qed.

Lemma read_boundary_ok node name lower upper :
  exists r, read_boundary node name lower upper = Ret r /\ forall l, r = Some l -> bound_ok l.
Proof.
  unfold read_boundary. destruct (of_property_read_u16_array _ _ _) as [e|l] eqn:El.
  { eexists; split; [done|]. by intros. }
  destruct (u16_cells _ _ _ _ El) as [Hlen Hall]. unfold BHI_TREND_POINTS_SIZE in Hlen.
  destruct (validity_loop_ret (Z.to_nat BHI_TREND_POINTS_SIZE) 0 l lower upper) as [ok Hok];
    [lia|unfold BHI_TREND_POINTS_SIZE; lia|].
  unfold bhi_bound_validity_check. rewrite Hok. run. eexists; split; [done|].
  destruct ok; [|by intros]. intros l' [= <-]. split; [lia|done].
Qed.

Lemma all_points_ok x : bound_ok (all_points x).
Proof.
  unfold all_points. split; [by rewrite length_replicate|]. apply Forall_replicate.
  pose proof (wrap_range 16 x). unfold U16_MAX. lia.
Qed.

(** Start-up leaves tables that the updates may index.  For any device tree (tables that
    are missing, out of range or short of cells are replaced by the defaults) and any
    capacity of the pack up to 65535 mAh, [batt_bhi_init] returns; every table has ten
    points of sixteen bits, no recalibration is scheduled and no override is active. *)
Theorem start_up_tables_well_formed node (d : bhi_drv D G) :
  1 <= b_battery_capacity d <= U16_MAX -> bound_ok (cb_trigger (bd_lower (h_bhi (b_health d)))) ->
  length (bd_act_date (h_bhi (b_health d))) = 3%nat -> bd_cycle_count (h_bhi (b_health d)) <= CYCLES_MAX ->
  0 <= bd_ccbin_index (h_bhi (b_health d)) <= BHI_ALGO_FULL_HEALTH ->
  exists d', batt_bhi_init node d = Ret d' /\ data_ok (h_bhi (b_health d')) /\ cal_ok (b_health d') /\
    phase (b_health d') = Idle /\ h_debug (b_health d') = no_debug /\
    bd_pack_capacity (h_bhi (b_health d')) = b_battery_capacity d.
Proof.
  intros Hcap Htrig Hact Hcyc Hcc. unfold batt_bhi_init, init_bounds.
  destruct (read_boundary_ok node "google,bhi-l-bound" 0 (b_battery_capacity d)) as (ll & -> & Hll). run.
  destruct (read_boundary_ok node "google,bhi-u-bound" (b_battery_capacity d) BHI_CAPACITY_MAX) as (ul & -> & Hul). run.
  destruct (read_boundary_ok node "google,bhi-l-trigger" BHI_CAPACITY_MIN BHI_CAPACITY_MAX) as (lt & -> & Hlt). run.
  destruct (read_boundary_ok node "google,bhi-u-trigger" BHI_CAPACITY_MIN BHI_CAPACITY_MAX) as (ut & -> & Hut). run.
  assert (Hdef : forall (r : option (list Z)) dflt,
    (forall l, r = Some l -> bound_ok l) -> bound_ok dflt -> bound_ok (default dflt r)).
  { intros [l|] dflt Hr Hd; [by apply Hr|done]. }
  eexists; split; [done|]. split_and!; [|by left|done|done|done].
  split; cbn [set_h b_health h_bhi set_bounds set_pack bd_pack_capacity bd_lower bd_upper cb_limit cb_trigger
    bd_act_date bd_cycle_count bd_ccbin_index]; try done; apply Hdef; auto using all_points_ok.
Qed.
End start_up.

(** A tree with one table, too high for its capacity. *)
#[local] Instance bare_tree : DeviceTree := {|
  of_property_count_elems _ _ := - EINVAL;
  of_property_read_u32_array _ _ _ := inl (- EINVAL);
  of_property_read_u32 _ _ := inl (- EINVAL);
  of_property_read_bool _ _ := false;
  of_children _ := [];
  gbms_storage_read_brid _ := inr 7;
|}.

#[local] Instance bare_tree16 : DeviceTree16 := {|
  of_property_read_u16_array _ name n :=
    if String.eqb name "google,bhi-l-bound" && (0 <=? n) then inr (replicate (Z.to_nat n) 4500) else inl (- EINVAL);
|}.

#[local] Instance bare_tree16_laws : DeviceTree16Laws.
Proof.
  intros node name n l. cbn [of_property_read_u16_array bare_tree16].
  destruct (String.eqb name _ && (0 <=? n)) eqn:E; [|done]. apply andb_prop in E as [_ E%Z.leb_le].
  intros [= <-]. rewrite length_replicate, Z2Nat.id by lia. split; [done|].
  apply Forall_replicate. unfold U16_MAX. lia.
Qed.

Lemma start_up_tables_well_formed_witness :
  exists d', batt_bhi_init 1 (demo BHI_ALGO_DISABLED 10 300 0) = Ret d' /\
    data_ok (h_bhi (b_health d')) /\ cb_limit (bd_lower (h_bhi (b_health d'))) = replicate 10 2400.
Proof.
  destruct (start_up_tables_well_formed 1 (demo BHI_ALGO_DISABLED 10 300 0)) as (d' & Hi & Hd & _).
  - by vm_compute.
  - apply (do_lower_t _ (demo_data_ok 10)).
  - reflexivity.
  - by vm_compute.
  - vm_compute. intuition congruence.
  - exists d'. split_and!; [exact Hi|exact Hd|]. vm_compute in Hi. by injection Hi as <-.
Defined.

(** ** Defects *)

Definition with_cc (c : ccbin_data) (d : bhi_drv notes board) : bhi_drv notes board :=
  mk_bhi _ _ (b_health d) (b_profile d) (b_age d) c (b_sd d) (b_cycle_count d) (b_battery_capacity d)
    (b_batt_id d) (b_msc_state d) (b_chg_done d) (b_store d) (b_gauge d).

(** A battery that has not been charged yet divides by zero in every update. *)
Theorem fresh_battery_divides_by_zero :
  bhi_cycle_count_residency (mk_ccbin (replicate 10 0) (-1)) BHI_CCBIN_INDEX_LIMIT = Undef /\
  batt_bhi_stats_update_all demo_clock
    (with_cc (mk_ccbin (replicate 10 0) (-1)) (demo BHI_ALGO_ACHI_B 10 300 0)) = Undef.
Proof. split; vm_compute; reflexivity. Qed.

(** 23861 percents in each bucket (2386 full charges) overflow the product: the share of the
    lower buckets is negative. *)
Theorem residency_overflows :
  bhi_cycle_count_residency (mk_ccbin (replicate 10 23860) (-1)) BHI_CCBIN_INDEX_LIMIT = Ret 9000 /\
  bhi_cycle_count_residency (mk_ccbin (replicate 10 23861) (-1)) BHI_CCBIN_INDEX_LIMIT = Ret (-8999).
Proof. split; vm_compute; reflexivity. Qed.

(** A resistance of more than twice that at activation gives an index far above full health
    instead of one below zero. *)
Theorem impedance_index_wraps :
  bhi_calc_imp_index BHI_ALGO_MIX_N_MATCH
    (set_bhi (demo_health BHI_ALGO_MIX_N_MATCH 0)
       (set_impedance (set_res (demo_data 0) (set_average demo_res 5 3)) 100 0)) = 42939672.
Proof. vm_compute. reflexivity. Qed.

(** Without any weight the index is 1% (100 of 10000), which asks for a replacement. *)
Theorem no_weights_need_replacement :
  weigh (0, 0, 0) BHI_ALGO_FULL_HEALTH BHI_ALGO_FULL_HEALTH BHI_ALGO_FULL_HEALTH = 100 /\
  bhi_calc_health_status BHI_ALGO_DEBUG (BHI_ROUND_INDEX 100) (demo_health BHI_ALGO_DEBUG 0) =
    Ret BH_NEEDS_REPLACEMENT.
Proof. split; vm_compute; reflexivity. Qed.

(** 100 seconds at -0.1 degrees and 96% are booked as time at 30 degrees and more, since the
    temperature is compared as unsigned; at +0.1 degrees they are not. *)
Theorem cold_battery_booked_as_hot :
  (let* r := gbatt_record_over_temp true (-1) 96 100 demo_sd (notes_storage blank) in
   Ret (sd_chg r.1)) = Ret [7300; 3700; 100] /\
  (let* r := gbatt_record_over_temp true 1 96 100 demo_sd (notes_storage blank) in
   Ret (sd_chg r.1)) = Ret [7200; 3600; 0].
Proof. split; vm_compute; reflexivity. Qed.

(** A clock that is behind the date of activation makes the age of the battery unsigned: one
    second before activation counts as more than a year. *)
Theorem clock_before_activation_ages :
  let d := demo BHI_ALGO_INDI 0 0 0 in
  let b := set_dates (h_bhi (b_health d)) (mk_date 22 5 1) (xymd (rtc_time64_to_tm 1699920000)) in
  let index now :=
    let* r := bhi_calc_health_index BHI_ALGO_INDI (mk_clock now 0 (0, 0, 0)) 10000 10000 10000 (set_data d b) in
    Ret r.1 in
  index 1699919999 = Ret 7000 /\ index 1699920000 = Ret 10000.
Proof. split; vm_compute; reflexivity. Qed.

(** The hours, minutes and seconds of the dates are not set: what is read depends on what the
    stack holds. *)
Theorem dates_depend_on_stack :
  let b := set_dates (demo_data 0) (mk_date 22 5 1) (xymd (rtc_time64_to_tm 1699920000)) in
  let shown stack :=
    let* r := first_usage_date_show (mk_clock 0 0 stack) b (notes_storage blank) in Ret r.1.1 in
  shown (0, 0, 0) = Ret 1699920000 /\ shown (0, 0, 1000000) = Ret 5299920000.
Proof. split; vm_compute; reflexivity. Qed.

(** A mode that is not defined is kept, and the driver never looks for a wrong capacity
    again. *)
Theorem unknown_mode_stops_detection :
  (let* r := health_set_cal_mode_store 7 (demo BHI_ALGO_ACHI_RECAL 10 300 0) in
   let* s := batt_bhi_update_recalibration_status
     (set_gauge r.2 suspect_board) in Ret (r.1, h_cal_mode (b_health s.2), h_cal_state (b_health s.2))) =
    Ret (0, 7, REC_STATE_OK) /\
  suspect (set_gauge (demo BHI_ALGO_ACHI_RECAL 10 300 0) suspect_board) = true.
Proof. split; vm_compute; reflexivity. Qed.
