(* ===== verification/Aacp.v ===== *)
(** * Age adjusted charging profiles (src/bms/google_battery.c)

    With age the driver charges the battery with less current (AACR), to a lower voltage
    (AAFV), or after another table (AACT), and it counts wear by temperature and level (AACC).
    The user can opt out of what is not enabled for good.  All of it changes the charge
    profile, under one lock, when the charger connects and on requests ([AacpStore.v]). *)

From Stdlib Require Import String.
From S2P Require Import Prelude GbmsProfile GbmsStorage Eeprom Ssoc Bhi.

(** ** Constants *)

Definition AACR_START_CYCLE_DEFAULT : Z := 400.
Definition AACR_MAX_CYCLE_DEFAULT : Z := 0.
Definition AAFV_MAX_OFFSET_DEFAULT : Z := 100.
Definition AAFV_CLIFF_CYCLE_DEFAULT : Z := -1.
Definition AAFV_CLIFF_OFFSET_DEFAULT : Z := 100.
Definition GBMS_AAFV_VOLTAGE_OFFSET_SCALE : Z := 1000.

Definition BATT_AA_UNKNOWN : Z := -1.
Definition BATT_AA_DISABLED : Z := 0.
Definition BATT_AA_ENABLED : Z := 1.

Definition BATT_AACR_ALGO_UP_B : Z := 2.
Definition BATT_AACR_ALGO_REFERENCE_CAP : Z := 3.
Definition BATT_AACR_ALGO_LOW_B : Z := 4.
Definition BATT_AACR_ALGO_DEFAULT : Z := BATT_AACR_ALGO_UP_B.

Definition BATT_AACR_INVALID_CAP : Z := -3.
Definition BATT_AACR_UNDER_CYCLES : Z := -2.

Definition BATT_AACP_OPT_OUT_DISABLED : Z := 0.

(** ** State *)

Record aacr_config := mk_aacr_config {
  ar_state : Z;
  ar_phase : Z;
  ar_algo : Z;
  ar_cycle_grace : Z;
  ar_cycle_max : Z;
  ar_min_rate : Z;
  ar_cliff_rate : Z;
}.

Record aafv_config := mk_aafv_config {
  av_state : Z;
  av_apply_max : Z;
  av_max_offset : Z;
  av_cliff_offset : Z;
}.

(** What [struct aacc_profile] counts. *)
Record aacc_cycles := mk_cycles {
  ac_start_soc : Z;
  ac_end_soc : Z;
  ac_aawc : Z;
  ac_temp_sum : Z;
  ac_time_sum : Z;
  ac_last_update : Z;
}.

(** The part of [struct batt_drv] that the profiles use: [p_lock] is [aacp_state_lock],
    [p_aafv_offset] belongs to the profile, [p_soc] is what [gbatt_get_capacity] returns. *)
Record aacp_drv {D G : Type} := mk_aacp {
  p_profile : gbms_chg_profile;
  p_aafv_offset : Z;
  p_capacity : Z;
  p_cycle_count : Z;
  p_age : age_state;
  p_aacr : aacr_config;
  p_aafv : aafv_config;
  p_aact_state : Z;
  p_opt_out : Z;
  p_lock : bool;
  p_cycles : aacc_cycles;
  p_soc : Z;
  p_batt_id : Z;
  p_present : bool;
  p_store : gbms_storage D;
  p_gauge : G;
}.
Arguments aacp_drv : clear implicits.

Section setters.
Context {D G : Type}.
#[local] Abbreviation drv := (aacp_drv D G).

Definition set_aged_profile (d : drv) (p : gbms_chg_profile) (offset : Z) : drv :=
  mk_aacp _ _ p offset (p_capacity d) (p_cycle_count d) (p_age d) (p_aacr d) (p_aafv d)
    (p_aact_state d) (p_opt_out d) (p_lock d) (p_cycles d) (p_soc d) (p_batt_id d) (p_present d)
    (p_store d) (p_gauge d).
Definition set_chg_profile (d : drv) (p : gbms_chg_profile) : drv :=
  set_aged_profile d p (p_aafv_offset d).
Definition set_capacity (d : drv) (cap : Z) : drv :=
  mk_aacp _ _ (p_profile d) (p_aafv_offset d) cap (p_cycle_count d) (p_age d) (p_aacr d)
    (p_aafv d) (p_aact_state d) (p_opt_out d) (p_lock d) (p_cycles d) (p_soc d) (p_batt_id d)
    (p_present d) (p_store d) (p_gauge d).
Definition set_wear (d : drv) (cycle_count : Z) (a : age_state) : drv :=
  mk_aacp _ _ (p_profile d) (p_aafv_offset d) (p_capacity d) cycle_count a (p_aacr d)
    (p_aafv d) (p_aact_state d) (p_opt_out d) (p_lock d) (p_cycles d) (p_soc d) (p_batt_id d)
    (p_present d) (p_store d) (p_gauge d).
Definition set_configs (d : drv) (r : aacr_config) (v : aafv_config) (aact opt_out : Z) : drv :=
  mk_aacp _ _ (p_profile d) (p_aafv_offset d) (p_capacity d) (p_cycle_count d) (p_age d) r v
    aact opt_out (p_lock d) (p_cycles d) (p_soc d) (p_batt_id d) (p_present d) (p_store d)
    (p_gauge d).
Definition set_aacr (d : drv) (r : aacr_config) : drv :=
  set_configs d r (p_aafv d) (p_aact_state d) (p_opt_out d).
Definition set_aafv (d : drv) (v : aafv_config) : drv :=
  set_configs d (p_aacr d) v (p_aact_state d) (p_opt_out d).
Definition set_aact_state (d : drv) (state : Z) : drv :=
  set_configs d (p_aacr d) (p_aafv d) state (p_opt_out d).
Definition set_opt_out (d : drv) (opt_out : Z) : drv :=
  set_configs d (p_aacr d) (p_aafv d) (p_aact_state d) opt_out.
Definition set_lock (d : drv) (held : bool) : drv :=
  mk_aacp _ _ (p_profile d) (p_aafv_offset d) (p_capacity d) (p_cycle_count d) (p_age d)
    (p_aacr d) (p_aafv d) (p_aact_state d) (p_opt_out d) held (p_cycles d) (p_soc d)
    (p_batt_id d) (p_present d) (p_store d) (p_gauge d).
Definition set_cycles (d : drv) (c : aacc_cycles) (st : gbms_storage D) : drv :=
  mk_aacp _ _ (p_profile d) (p_aafv_offset d) (p_capacity d) (p_cycle_count d) (p_age d)
    (p_aacr d) (p_aafv d) (p_aact_state d) (p_opt_out d) (p_lock d) c (p_soc d)
    (p_batt_id d) (p_present d) st (p_gauge d).
Definition set_board (d : drv) (soc : Z) (g : G) : drv :=
  mk_aacp _ _ (p_profile d) (p_aafv_offset d) (p_capacity d) (p_cycle_count d) (p_age d)
    (p_aacr d) (p_aafv d) (p_aact_state d) (p_opt_out d) (p_lock d) (p_cycles d) soc
    (p_batt_id d) (p_present d) (p_store d) g.

Definition mutex_lock (d : drv) : outcome drv :=
  if p_lock d then Deadlock else Ret (set_lock d true).
Definition mutex_unlock (d : drv) : drv := set_lock d false.
End setters.

(** ** Which profiles are in use *)

Definition aafv_enabled (state opt_out : Z) : bool :=
  if state =? BATT_AA_UNKNOWN then false else
  if state =? BATT_AA_ENABLED then true else
  if state =? BATT_AA_DISABLED then opt_out =? 0 else false.

Definition aact_enabled (state opt_out : Z) : bool :=
  if state =? BATT_AA_UNKNOWN then false else
  if state =? BATT_AA_ENABLED then true else
  if state =? BATT_AA_DISABLED then opt_out =? 0 else false.

Definition aacr_enabled (state opt_out : Z) : bool :=
  if state =? BATT_AA_UNKNOWN then false else
  if state =? BATT_AA_ENABLED then true else
  if state =? BATT_AA_DISABLED then opt_out =? 0 else false.

(** Clamps the first [n] tiers to [top], from the lowest. *)
Fixpoint clamp_volts (n : nat) (top : Z) (l : list Z) : outcome (list Z) :=
  match n, l with
  | O, _ => Ret l
  | S _, [] => Undef
  | S n, v :: l =>
    let* l := clamp_volts n top l in
    Ret ((if top <? v then top else v) :: l)
  end.

(** The weights of the levels [i] .. , [n] of them, added to [aaw]; a table is NULL or holds
    a row of a hundred per temperature range. *)
Definition weight_at (table : option (list Z)) (ti soc : Z) : outcome Z :=
  if (0 <=? ti) && (1 <=? soc) then deref table (ti * GBMS_AACC_SOC_SIZE + (soc - 1)) else Ret 0.

Fixpoint sum_weights (table : option (list Z)) (ti : Z) (n : nat) (i aaw : Z) : outcome Z :=
  match n with
  | O => Ret aaw
  | S n => let* w := weight_at table ti i in sum_weights table ti n (i + 1) (s32 (aaw + w))
  end.

(** A [u32] in memory. *)
Definition u32_bytes (x : Z) : list Z :=
  [Z.land x 0xff; Z.land (Z.shiftr x 8) 0xff; Z.land (Z.shiftr x 16) 0xff;
   Z.land (Z.shiftr x 24) 0xff].
(** The [u32] that is left uninitialized when too few bytes are read. *)
Definition u32_stored (bytes : list Z) (old : Z) : Z :=
  match bytes ++ drop (length bytes) (u32_bytes old) with
  | a :: b :: c :: e :: _ => a + 2 ^ 8 * b + 2 ^ 16 * c + 2 ^ 24 * e
  | _ => old
  end.

Section ops.
Context {D G : Type} `{!FuelGauge G} `{!DeviceTree}.
(** The node of the battery; whether each of the allocations of a call succeeds: the table of
    AACT, its copy, and the default table. *)
Variable node : Z.
#[local] Abbreviation drv := (aacp_drv D G).

Record allocs := mk_allocs { al_aact : bool; al_copy : bool; al_default : bool }.

Definition KBUILD_MODNAME : string := "google_battery".
Definition gbms_init_chg_profile (m : allocs) (p : gbms_chg_profile) (n : Z) :=
  gbms_init_chg_profile_internal (al_default m) p n KBUILD_MODNAME.
Definition gbms_init_aact_profile (m : allocs) (p : gbms_chg_profile) (n : Z) :=
  gbms_init_aact_profile_internal (al_aact m) p n KBUILD_MODNAME.

(** ** Opting out *)

Definition aacp_update_opt_out_cutoff (d : drv) : drv :=
  let cycle_count := aacp_get_cc (p_age d) in
  if ag_cut_off_cycles (p_age d) =? AACP_OPT_OUT_CUT_OFF_DISABLED then d else
  if ag_cut_off_cycles (p_age d) <=? cycle_count
  then set_opt_out d BATT_AACP_OPT_OUT_DISABLED else d.

(** ** AACR: less capacity *)

(** An [u32]; same as design when under the grace period. *)
Definition aacr_get_reference_capacity (d : drv) (cycle_count : Z) : outcome Z :=
  let design_capacity := s32 (p_capacity d) in
  let grace := ar_cycle_grace (p_aacr d) in
  let cycle_max := ar_cycle_max (p_aacr d) in
  let* fade10 := gbms_aacr_fade10 (p_profile d) cycle_count in
  let* fade10 :=
    if 0 <=? fade10 then Ret fade10
    else if negb (cycle_max =? 0) && (grace <? cycle_count) then
      let* q := quot_c (s32 (200 * s32 (cycle_count - grace))) (s32 (cycle_max - grace)) in Ret (s32 q)
    else Ret 0 in
  Ret (u32 (design_capacity - cdiv (s32 (design_capacity * fade10)) 1000)).

(** In mAh, or an error of the gauge. *)
Definition aacr_get_capacity_for_algo (d : drv) (cycle_count aacr_algo : Z) : outcome Z :=
  let r := p_aacr d in
  let design_capacity := s32 (p_capacity d) in
  let min_capacity := s32 (u32 (p_capacity d * ar_min_rate r) / 100) in
  let cliff_capacity := s32 (u32 (p_capacity d * ar_cliff_rate r) / 100) in
  if negb (ar_cycle_max r =? 0) && (ar_cycle_max r <=? cycle_count) then Ret cliff_capacity else
  let* reference := aacr_get_reference_capacity d cycle_count in
  let reference_capacity := s32 reference in
  if reference_capacity <=? 0 then Ret design_capacity else
  if aacr_algo =? BATT_AACR_ALGO_REFERENCE_CAP then Ret reference_capacity else
  let full_cap_nom := GPSY_GET_PROP CHARGE_FULL (p_gauge d) in
  if full_cap_nom <? 0 then Ret full_cap_nom else
  let full_cap_nom := cdiv full_cap_nom 1000 in
  let full_capacity :=
    if aacr_algo =? BATT_AACR_ALGO_LOW_B
    then Z.min (Z.min full_cap_nom design_capacity) reference_capacity
    else Z.max (Z.min full_cap_nom design_capacity) reference_capacity in
  let aacr_capacity := Z.max full_capacity min_capacity in
  Ret (cdiv aacr_capacity 50 * 50).

Definition aacr_get_capacity_at_cycle (d : drv) (cycle_count : Z) : outcome Z :=
  if cycle_count <=? ar_cycle_grace (p_aacr d) then Ret (s32 (p_capacity d))
  else aacr_get_capacity_for_algo d cycle_count (ar_algo (p_aacr d)).

Definition set_phase (d : drv) (phase : Z) : drv :=
  let r := p_aacr d in
  set_aacr d (mk_aacr_config (ar_state r) phase (ar_algo r) (ar_cycle_grace r) (ar_cycle_max r)
                (ar_min_rate r) (ar_cliff_rate r)).

(** The capacity as an [u32]. *)
Definition aacr_get_capacity_locked (d : drv) : outcome (Z * drv) :=
  let capacity := s32 (p_capacity d) in
  if negb (aacr_enabled (ar_state (p_aacr d)) (p_opt_out d)) then Ret (u32 capacity, d) else
  let cycle_count := aacp_get_cc (p_age d) in
  if cycle_count <=? ar_cycle_grace (p_aacr d)
  then Ret (u32 capacity, set_phase d BATT_AACR_UNDER_CYCLES) else
  let* aacr_capacity := aacr_get_capacity_at_cycle d cycle_count in
  if aacr_capacity <? 0 then Ret (u32 capacity, set_phase d BATT_AACR_INVALID_CAP)
  else Ret (u32 aacr_capacity, set_phase d BATT_AA_ENABLED).

(** What the reports of a charging event say of it. *)
Definition aacr_filtered_capacity (d : drv) (event_profile : gbms_chg_profile) : Z :=
  if aacr_enabled (ar_state (p_aacr d)) (p_opt_out d)
  then capacity_ma (limits event_profile) else u32 (ar_state (p_aacr d)).

Definition aacr_update_chg_table (d : drv) : outcome drv :=
  let* r := aacr_get_capacity_locked d in
  let '(capacity, d) := r in
  if capacity =? capacity_ma (limits (p_profile d)) then Ret d else
  let* p := gbms_init_chg_table (p_profile d) node capacity in
  Ret (set_chg_profile d p).

(** ** AAFV: a lower voltage *)

(** In microvolt, an [u32]. *)
Definition aafv_get_offset_by_cycles (d : drv) (cycle_count : Z) : outcome Z :=
  let v := p_aafv d in
  if negb (aafv_enabled (av_state v) (p_opt_out d)) then Ret 0 else
  let* aafv_offset :=
    if negb (av_apply_max v =? 0) then Ret (av_max_offset v)
    else if (0 <=? av_cliff_offset v) && (0 <=? ag_cliff_cycle (p_age d)) &&
            (ag_cliff_cycle (p_age d) <=? cycle_count)
    then Ret (av_cliff_offset v)
    else gbms_aafv_get_offset (p_profile d) cycle_count in
  Ret (u32 (aafv_offset * GBMS_AAFV_VOLTAGE_OFFSET_SCALE)).

(** Reads the tiers again and lowers the last one. *)
Definition aafv_update_chg_profile (d : drv) : outcome drv :=
  let p := p_profile d in
  let l := limits p in
  let n := volt_nb_limits l in
  let* ra := read_s32_id node "google,chg-cv-limits" n (volt_limits l) in
  let '(ret, volts) := ra in
  if ret <? 0 then Ret (set_chg_profile d (with_limits (with_volt n volts l) p)) else
  let top := s32 (last_volt l - p_aafv_offset d) in
  let* _ := at_ volts (n - 1) in
  let* volts := clamp_volts (Z.to_nat n) top (<[Z.to_nat (n - 1) := top]> volts) in
  Ret (set_chg_profile d (with_limits (with_volt n volts l) p)).

Definition aafv_update_offset (d : drv) : outcome drv :=
  let cycle_count := aacp_get_cc (p_age d) in
  let* aafv_offset := aafv_get_offset_by_cycles d cycle_count in
  if p_aafv_offset d =? aafv_offset then Ret d else
  let '(fg_ret, g) := GPSY_SET_PROP AAFV_OFFSET aafv_offset (p_gauge d) in
  let d := set_board d (p_soc d) g in
  let d := if fg_ret =? 0 then set_aged_profile d (p_profile d) aafv_offset else d in
  aafv_update_chg_profile d.

(** ** AACT: another table *)

Definition aact_indexed (a : aact_data) (idx : Z) (cccm : option (list Z)) : aact_data :=
  mk_aact (aact_temp_nb_limits a) (aact_temp_limits a) (aact_volt_nb_limits a)
    (aact_volt_limits a) (aact_nb_limits a) (aact_limits a) idx (aact_init_profile a)
    (aact_update_profile a) (aact_support_multiple_profiles a) (aact_load_chg_ecc a) cccm.

(** The table that it pointed to is not freed. *)
Definition aact_reset (p : gbms_chg_profile) : gbms_chg_profile :=
  with_aact (aact_indexed (aact p) 0 None) p.

Definition aact_set_idx (p : gbms_chg_profile) (idx : Z) : gbms_chg_profile :=
  with_aact (aact_indexed (aact p) idx (aact_cccm_limits (aact p))) p.

Definition aact_get_index (d : drv) (p : gbms_chg_profile) : outcome Z :=
  gbms_aact_get_index p (aacp_get_cc (p_age d)).

(** The first part of [aact_update_chg_table]: a status, whether the index changed, and the
    profile. *)
Definition aact_check_index (d : drv) : outcome (Z * bool * gbms_chg_profile) :=
  let p := p_profile d in
  let* rp := if negb (aact_load_chg_ecc (aact p)) then gbms_read_chg_aact_ecc p node
             else Ret (0, p) in
  let '(ret, p) := rp in
  if ret <? 0 then Ret (ret, false, p) else
  let* idx := aact_get_index d p in
  let changed := negb (idx =? aact_idx (aact p)) in
  Ret (0, changed, if (changed : bool) then aact_set_idx p idx else p).

Definition aact_update_chg_table (m : allocs) (d : drv) : outcome (Z * drv) :=
  let enabled := aact_enabled (p_aact_state d) (p_opt_out d) in
  let* q := if (enabled : bool) then aact_check_index d else Ret (0, false, p_profile d) in
  let '(ret, changed, p) := q in
  if ret <? 0 then Ret (ret, set_chg_profile d p) else
  if (negb (aact_init_profile (aact p)) || changed) && enabled then
    let* rp := gbms_init_aact_profile m p node in
    let '(ret, p) := rp in
    if ret <? 0 then Ret (ret, set_chg_profile d p) else
    let* rp := gbms_update_chg_profile_from_aact (al_copy m) p in
    let '(ret, p) := rp in
    if ret <? 0 then Ret (ret, set_chg_profile d p) else
    let* p := gbms_init_chg_table p node (p_capacity d) in
    Ret (0, set_aged_profile d p 0)
  else if aact_init_profile (aact p) && negb enabled then
    let p := aact_reset p in
    let* rp := gbms_init_chg_profile m p node in
    let '(ret, p) := rp in
    if ret <? 0 then Ret (ret, set_chg_profile d p) else
    let* p := gbms_init_chg_table p node (p_capacity d) in
    Ret (0, set_aged_profile d p 0)
  else Ret (0, set_chg_profile d p).

(** What both callers do about a failure: back to the default table. *)
Definition aact_failed (m : allocs) (d : drv) : outcome drv :=
  let d := set_aact_state d BATT_AA_UNKNOWN in
  let* rp := gbms_init_chg_profile m (aact_reset (p_profile d)) node in
  let '(rc, p) := rp in
  let d := set_chg_profile d p in
  if rc =? 0 then
    let* r := aacr_get_capacity_locked d in
    let '(capacity, d) := r in
    let* p := gbms_init_chg_table (p_profile d) node capacity in
    Ret (set_chg_profile d p)
  else Ret d.

(** ** AACC: weighted cycles *)

Definition aacc_is_supported (p : gbms_chg_profile) : bool :=
  match aacc_weight_limits (aacc_chg p), aacc_weight_limits (aacc_dsg p) with
  | None, None => false
  | _, _ => true
  end.

(** [now] is the time since boot in seconds. *)
Definition aacc_update_temp_stats (now : Z) (d : drv) : Z * drv :=
  let c := p_cycles d in
  if negb (aacc_is_supported (p_profile d)) then (0, d) else
  let '(temp, ret) := gauge_get_prop TEMPERATURE (p_gauge d) in
  if ret <? 0 then (ret, d) else
  let last_update := if ac_last_update c =? 0 then now else ac_last_update c in
  let elap := u64 (now - last_update) in
  (0, set_cycles d (mk_cycles (ac_start_soc c) (ac_end_soc c) (ac_aawc c)
        (s64 (ac_temp_sum c + u64 (temp * elap))) (s64 (ac_time_sum c + elap)) now) (p_store d)).

(** The weights of the percents that were charged or discharged. *)
Definition aacc_calculate_aaw (p : gbms_chg_profile) (c : aacc_cycles) (temp_idx : Z)
    (is_charge : bool) : outcome Z :=
  if ac_start_soc c =? ac_end_soc c then Ret 0 else
  let first := s32 ((if is_charge then ac_start_soc c else ac_end_soc c) + 1) in
  let last := if is_charge then ac_end_soc c else ac_start_soc c in
  sum_weights (aacc_weight_limits (if is_charge then aacc_chg p else aacc_dsg p)) temp_idx
    (Z.to_nat (last - first + 1)) first 0.

(** A new session: the level now, no temperature yet. *)
Definition session_start (d : drv) : drv :=
  let c := p_cycles d in
  set_cycles d (mk_cycles (p_soc d) (ac_end_soc c) (ac_aawc c) 0 0 (ac_last_update c)) (p_store d).

Definition __aacc_calculate_cc (d : drv) (is_charge : bool) : outcome drv :=
  let p := p_profile d in
  let c := p_cycles d in
  match aacc_weight_limits (if is_charge then aacc_chg p else aacc_dsg p) with
  | None => Ret (session_start d)
  | Some _ =>
    if ac_time_sum c =? 0 then Ret (session_start d) else
    let* avg := quot_c (ac_temp_sum c) (ac_time_sum c) in
    let* temp_idx := gbms_aacc_temp_idx p (s32 (s64 avg)) is_charge in
    let c := mk_cycles (ac_start_soc c) (p_soc d) (ac_aawc c) (ac_temp_sum c) (ac_time_sum c)
               (ac_last_update c) in
    let d := set_cycles d c (p_store d) in
    let* aaw := aacc_calculate_aaw p c temp_idx is_charge in
    if aaw =? 0 then Ret (session_start d) else
    let aawc := s32 (ac_aawc c + aaw) in
    let* r := gbms_storage_write GBMS_TAG_AAWC (Some (u32_bytes (u32 aawc))) 4 (p_store d) in
    Ret (session_start (set_cycles d (mk_cycles (ac_start_soc c) (ac_end_soc c) aawc
           (ac_temp_sum c) (ac_time_sum c) (ac_last_update c)) r.2))
  end.

Definition aacc_calculate_chg_cc (d : drv) : outcome drv := __aacc_calculate_cc d true.
Definition aacc_calculate_dsg_cc (d : drv) : outcome drv := __aacc_calculate_cc d false.

Definition aacc_update_cycle_count (d : drv) : drv :=
  let a := p_age d in
  set_wear d (p_cycle_count d)
    (mk_age (ag_fake_aacp_cc a) (p_cycle_count d) (ag_cut_off_cycles a) (ag_over_cliff a)
       (ag_over_cutoff a) (ag_last_entry a) (ag_cliff_cycle a)).

(** What is written to the debug file is the number [val], or an error. *)
Definition debug_reset_aacc_weights_cycles (count : Z) (val : Z + Z) (d : drv)
    : outcome (Z * drv) :=
  match val with
  | inl e => Ret (e, d)
  | inr v =>
    if negb (v =? 1) then Ret (count, d) else
    let* r := gbms_storage_write GBMS_TAG_AAWC (Some (u32_bytes 0)) 4 (p_store d) in
    let d := set_cycles d (p_cycles d) r.2 in
    if r.1 <? 0 then Ret (- EINVAL, d) else
    let c := p_cycles d in
    Ret (count, aacc_update_cycle_count
      (set_cycles d (mk_cycles (ac_start_soc c) (ac_end_soc c) 0 (ac_temp_sum c)
         (ac_time_sum c) (ac_last_update c)) (p_store d)))
  end.

(** ** Start-up *)

Definition batt_init_aacr_profile (d : drv) : outcome drv :=
  let* rp := gbms_read_aacr_limits (p_profile d) (gbms_batt_id_node node) in
  let p := rp.2 in
  let read name dflt := read_or node name (fun v => s32 v) dflt in
  Ret (set_aacr (set_chg_profile d p)
    (mk_aacr_config
       (read "google,aacr-config"
          (if aacr_nb_limits (aacr p) =? 0 then BATT_AA_UNKNOWN else BATT_AA_DISABLED))
       (ar_phase (p_aacr d))
       (read "google,aacr-algo" BATT_AACR_ALGO_DEFAULT)
       (read "google,aacr-cycle-grace" AACR_START_CYCLE_DEFAULT)
       (read "google,aacr-cycle-max" AACR_MAX_CYCLE_DEFAULT)
       (read "google,aacr-min-capacity-rate" 80)
       (read "google,aacr-cliff-capacity-rate" 50))).

Definition batt_init_aafv_profile (d : drv) : outcome drv :=
  let* rp := gbms_read_aafv_limits (p_profile d) (gbms_batt_id_node node) in
  let p := rp.2 in
  let read n name dflt := read_or n name (fun v => s32 v) dflt in
  let a := p_age d in
  let d := set_wear (set_chg_profile d p) (p_cycle_count d)
    (mk_age (ag_fake_aacp_cc a) (ag_aacc a) (ag_cut_off_cycles a) (ag_over_cliff a)
       (ag_over_cutoff a) (ag_last_entry a)
       (read (gbms_batt_id_node node) "google,aafv-cliff-cycle" AAFV_CLIFF_CYCLE_DEFAULT)) in
  Ret (set_aafv d
    (mk_aafv_config
       (read node "google,aafv-config"
          (if aafv_nb_limits (aafv p) =? 0 then BATT_AA_UNKNOWN else BATT_AA_DISABLED))
       (av_apply_max (p_aafv d))
       (read node "google,aafv-max-offset" AAFV_MAX_OFFSET_DEFAULT)
       (read (gbms_batt_id_node node) "google,aafv-cliff-offset" AAFV_CLIFF_OFFSET_DEFAULT))).

Definition batt_init_aact_profile (d : drv) : drv :=
  set_aact_state d
    (read_or (gbms_batt_id_node node) "google,aact-config" (fun v => s32 v)
       (read_or node "google,aact-config" (fun v => s32 v) BATT_AA_UNKNOWN)).

(** [junk]: what the word on the stack held before the record is read into it. *)
Definition batt_init_aacc_profile (alloc_chg alloc_dsg : bool) (junk : Z) (d : drv)
    : outcome (Z * drv) :=
  let id_node := gbms_batt_id_node node in
  let* rp := gbms_read_aacc_chg_weights alloc_chg (p_profile d) id_node in
  let* rp := gbms_read_aacc_dsg_weights alloc_dsg rp.2 id_node in
  let d := set_chg_profile d rp.2 in
  if negb (aacc_is_supported (p_profile d)) then Ret (0, d) else
  let* r := gbms_storage_read GBMS_TAG_AAWC true 4 (p_store d) in
  let '(ret, bytes, st) := r in
  let c := p_cycles d in
  if ret <? 0 then Ret (- EINVAL, set_cycles d c st) else
  let data := u32_stored bytes junk in
  let aawc := if data =? U32_MAX then 0 else s32 data in
  Ret (0, set_cycles d (mk_cycles (p_soc d) (ac_end_soc c) aawc (ac_temp_sum c) (ac_time_sum c)
            (ac_last_update c)) st).

(** At boot, and when a debug profile is selected; [n] is its node. *)
Definition batt_init_chg_profile (m : allocs) (n : Z) (d : drv) : outcome (Z * drv) :=
  let* rp := match cccm_limits (limits (p_profile d)) with
             | Some _ => Ret (0, p_profile d)
             | None => gbms_init_chg_profile m (p_profile d) n
             end in
  let '(ret, p) := rp in
  let d := set_chg_profile d p in
  if ret <? 0 then Ret (- EINVAL, d) else
  let d := set_capacity d
    (match of_property_read_u32 (gbms_batt_id_node n) "google,chg-battery-capacity" with
     | inr v => v
     | inl _ => read_or n "google,chg-battery-capacity" (fun v => v) (p_capacity d)
     end) in
  let table d :=
    let* r := aacr_get_capacity_locked d in
    let '(capacity, d) := r in
    let* p := gbms_init_chg_table (p_profile d) n capacity in
    Ret (0, set_chg_profile d p) in
  if negb (p_capacity d =? 0) then table d else
  let fc := if p_present d then u32 (GPSY_GET_PROP CHARGE_FULL_DESIGN (p_gauge d)) else 0 in
  if p_present d && (fc =? u32 (- EAGAIN)) then Ret (- EPROBE_DEFER, d) else
  let d := if p_present d && (0 <? fc) then set_capacity d (fc / 1000) else d in
  let d := if p_capacity d =? 0
           then set_capacity d (read_or n "google,chg-battery-default-capacity" (fun v => v)
                                  (p_capacity d))
           else d in
  table d.

(** What a start does with the age adjusted profiles, in the order of the probe. *)
Definition batt_init_aaxx (alloc_chg alloc_dsg : bool) (junk : Z) (d : drv) : outcome drv :=
  let* d := batt_init_aacr_profile d in
  let* d := batt_init_aafv_profile d in
  let d := batt_init_aact_profile d in
  let* r := batt_init_aacc_profile alloc_chg alloc_dsg junk d in
  Ret (aacc_update_cycle_count r.2).

(** ** When the charger comes and goes (in [batt_chg_logic]) *)

Definition aacp_connect (m : allocs) (d : drv) : outcome drv :=
  let* d := mutex_lock d in
  let d := aacp_update_opt_out_cutoff d in
  let* r := aact_update_chg_table m d in
  let '(err, d) := r in
  let* d := if err <? 0 then aact_failed m d else Ret d in
  let* d := aafv_update_offset d in
  let* d := aacr_update_chg_table d in
  let* d := aacc_calculate_dsg_cc d in
  Ret (mutex_unlock d).

Definition aacp_disconnect (d : drv) : outcome drv :=
  let* d := aacc_calculate_chg_cc d in
  Ret (aacc_update_cycle_count d).

End ops.
