(* ===== verification/AacpStore.v ===== *)
(** * Requests on the age adjusted profiles (src/bms/google_battery.c)

    The files under sysfs that change the profiles of [Aacp.v], and the events of a driver:
    what happens to the profiles in any order.  Numbers are what [kstrtoint] or [sscanf]
    make of the text: an error or an [int], a list of the conversions that succeeded. *)

From Stdlib Require Import String.
From S2P Require Import Prelude GbmsProfile GbmsStorage Eeprom Ssoc Bhi Aacp.

(** Cell [i] of what was scanned, and the first [n] cells from [from] on in steps of [by]; the
    arrays start zeroed. *)
Definition scanned (scan : list Z) (i : nat) : Z := default 0 (scan !! i).
Definition scan_cells (scan : list Z) (from by_ n : nat) : list Z :=
  (fun i => scanned scan (from + by_ * i)) <$> seq 0 n.

Definition GBMS_AACT_PROFILE_MAX : Z := 100.

(** The check of [aacr_profile_store]: the points after number [i] until one has no cycles;
    [None] when they fall. *)
Fixpoint count_points (cc fd : list Z) (turns : nat) (i : nat) : option nat :=
  match turns with
  | O => Some i
  | S turns =>
    if scanned cc (S i) =? 0 then Some i else
    if (scanned cc (S i) <? scanned cc i) || (scanned fd (S i) <? scanned fd i) then None
    else count_points cc fd turns (S i)
  end.

(** The check of [aafv_profile_store] on the points [i] .. of the first [i + turns]. *)
Fixpoint points_sorted (cc of_ : list Z) (turns i : nat) : bool :=
  match turns with
  | O => true
  | S turns =>
    if (scanned cc i <? scanned cc (i - 1)) || (scanned of_ i <? scanned of_ (i - 1)) then false
    else points_sorted cc of_ turns (S i)
  end.

(** [memcpy] of a row of weights into a table. *)
Definition put_row (table : list Z) (offset : Z) (row : list Z) : outcome (list Z) :=
  if (offset <? 0) || (Z.of_nat (length table) <? offset + Z.of_nat (length row)) then Undef else
  Ret (take (Z.to_nat offset) table ++ row ++ drop (Z.to_nat offset + length row) table).

Section stores.
Context {D G : Type} `{!FuelGauge G} `{!DeviceTree}.
Variable node : Z.
(** The length of the text, which a store returns when it has taken it. *)
Variable count : Z.
#[local] Abbreviation drv := (aacp_drv D G).

Definition with_int (val : Z + Z) (d : drv) (k : Z -> outcome (Z * drv)) : outcome (Z * drv) :=
  match val with inl e => Ret (e, d) | inr v => k v end.

(** A setting that is changed under the lock. *)
Definition locked (d : drv) (k : drv -> outcome drv) : outcome (Z * drv) :=
  let* d := mutex_lock d in
  let* d := k d in
  Ret (count, mutex_unlock d).

(** ** AACR *)

(** The new state and, where the request names one, the new algorithm. *)
Definition aacr_request (val state : Z) : option (Z * option Z) :=
  let known := if state =? BATT_AA_UNKNOWN then BATT_AA_DISABLED else state in
  if val =? BATT_AA_UNKNOWN then Some (BATT_AA_UNKNOWN, None) else
  if val =? BATT_AA_DISABLED then Some (BATT_AA_DISABLED, None) else
  if val =? BATT_AA_ENABLED then Some (BATT_AA_ENABLED, Some BATT_AACR_ALGO_DEFAULT) else
  if (val =? BATT_AACR_ALGO_LOW_B) || (val =? BATT_AACR_ALGO_UP_B) ||
     (val =? BATT_AACR_ALGO_REFERENCE_CAP) then Some (known, Some val) else None.

(** [junk] is what the local [algo] holds when no case sets it.  A value that is none of the
    cases is refused with the lock held. *)
Definition aacr_state_store (junk : Z) (val : Z + Z) (d : drv) : outcome (Z * drv) :=
  with_int val d (fun v =>
    if v <? BATT_AA_UNKNOWN then Ret (- ERANGE, d) else
    let* d := mutex_lock d in
    let r := p_aacr d in
    match aacr_request v (ar_state r) with
    | None => Ret (- ERANGE, d)
    | Some (state, algo) =>
      let algo := default junk algo in
      if (ar_state r =? state) && (ar_algo r =? algo) then Ret (count, mutex_unlock d) else
      let d := set_aacr d (mk_aacr_config state (ar_phase r) algo (ar_cycle_grace r)
                             (ar_cycle_max r) (ar_min_rate r) (ar_cliff_rate r)) in
      let* d := aacr_update_chg_table node d in
      Ret (count, mutex_unlock d)
    end).

Definition set_aacr_range (d : drv) (grace cycle_max : Z) : drv :=
  let r := p_aacr d in
  set_aacr d (mk_aacr_config (ar_state r) (ar_phase r) (ar_algo r) grace cycle_max
                (ar_min_rate r) (ar_cliff_rate r)).

Definition set_aacr_rates (d : drv) (min_rate cliff_rate : Z) : drv :=
  let r := p_aacr d in
  set_aacr d (mk_aacr_config (ar_state r) (ar_phase r) (ar_algo r) (ar_cycle_grace r)
                (ar_cycle_max r) min_rate cliff_rate).

Definition aacr_cycle_grace_store (val : Z + Z) (d : drv) : outcome (Z * drv) :=
  with_int val d (fun value =>
    if value <? 0 then Ret (- ERANGE, d) else
    locked d (fun d => Ret (set_aacr_range d value (ar_cycle_max (p_aacr d))))).

Definition aacr_cycle_max_store (val : Z + Z) (d : drv) : outcome (Z * drv) :=
  with_int val d (fun value =>
    if (value <? 0) || (3000 <? value) then Ret (- ERANGE, d) else
    locked d (fun d => Ret (set_aacr_range d (ar_cycle_grace (p_aacr d)) value))).

(** Out of range returns the 0 of [kstrtoint]. *)
Definition aacr_min_capacity_rate_store (val : Z + Z) (d : drv) : outcome (Z * drv) :=
  with_int val d (fun rate =>
    if (100 <? rate) || (rate <=? 0) then Ret (0, d) else
    locked d (fun d => Ret (set_aacr_rates d rate (ar_cliff_rate (p_aacr d))))).

Definition aacr_cliff_capacity_rate_store (val : Z + Z) (d : drv) : outcome (Z * drv) :=
  with_int val d (fun rate =>
    if (100 <? rate) || (rate <=? 0) then Ret (- ERANGE, d) else
    locked d (fun d => Ret (set_aacr_rates d (ar_min_rate (p_aacr d)) rate))).

(** [scan]: the battery id, then cycles and fade of each point. *)
Definition aacr_profile_store (scan : list Z) (d : drv) : outcome (Z * drv) :=
  let cnt := Z.of_nat (length scan) in
  if (cnt mod 2 =? 0) || (cnt <? 3) then Ret (- ERANGE, d) else
  let cc := scan_cells scan 1 2 10 in
  let fd := scan_cells scan 2 2 10 in
  match count_points cc fd 9 0 with
  | None => Ret (- ERANGE, d)
  | Some n =>
    let batt_id := scanned scan 0 in
    let nb := Z.of_nat n + 1 in
    if (batt_id =? p_batt_id d) || (batt_id =? 0) then
      locked d (fun d =>
        Ret (set_chg_profile d (with_aacr (mk_aacr cc fd nb) (p_profile d))))
    else Ret (count, d)
  end.

(** ** AAFV *)

Definition aafv_state_store (val : Z + Z) (d : drv) : outcome (Z * drv) :=
  with_int val d (fun v =>
    locked d (fun d =>
      let c := p_aafv d in
      if av_state c =? v then Ret d else
      aafv_update_offset node
        (set_aafv d (mk_aafv_config v (av_apply_max c) (av_max_offset c) (av_cliff_offset c))))).

Definition aafv_apply_max_store (val : Z + Z) (d : drv) : outcome (Z * drv) :=
  with_int val d (fun value =>
    locked d (fun d =>
      let c := p_aafv d in
      Ret (if 0 <=? value
           then set_aafv d (mk_aafv_config (av_state c) value (av_max_offset c) (av_cliff_offset c))
           else d))).

Definition aafv_max_offset_store (val : Z + Z) (d : drv) : outcome (Z * drv) :=
  with_int val d (fun value =>
    locked d (fun d =>
      let c := p_aafv d in
      Ret (if 0 <=? value
           then set_aafv d (mk_aafv_config (av_state c) (av_apply_max c) value (av_cliff_offset c))
           else d))).

Definition aafv_cliff_cycle_store (val : Z + Z) (d : drv) : outcome (Z * drv) :=
  with_int val d (fun value =>
    locked d (fun d =>
      let a := p_age d in
      Ret (set_wear d (p_cycle_count d)
        (mk_age (ag_fake_aacp_cc a) (ag_aacc a) (ag_cut_off_cycles a) (ag_over_cliff a)
           (ag_over_cutoff a) (ag_last_entry a) value)))).

Definition aafv_cliff_offset_store (val : Z + Z) (d : drv) : outcome (Z * drv) :=
  with_int val d (fun value =>
    locked d (fun d =>
      let* is_valid := gbms_aafv_offset_is_valid (p_profile d) (u32 value)
                         (aafv_nb_limits (aafv (p_profile d))) in
      let c := p_aafv d in
      Ret (if (is_valid : bool)
           then set_aafv d (mk_aafv_config (av_state c) (av_apply_max c) (av_max_offset c) value)
           else d))).

(** [scan]: the battery id, then cycles and offset of each point. *)
Definition aafv_profile_store (scan : list Z) (d : drv) : outcome (Z * drv) :=
  let cnt := Z.of_nat (length scan) in
  if (cnt mod 2 =? 0) || (cnt <? 3) then Ret (- ERANGE, d) else
  let cc := scan_cells scan 1 2 16 in
  let of_ := scan_cells scan 2 2 16 in
  let nb_limits := cnt / 2 in
  if negb (points_sorted cc of_ (Z.to_nat (nb_limits - 1)) 1) then Ret (count, d) else
  let* last := at_ of_ (nb_limits - 1) in
  let* is_valid := gbms_aafv_offset_is_valid (p_profile d) last nb_limits in
  let batt_id := scanned scan 0 in
  if ((batt_id =? 0) || (batt_id =? p_batt_id d)) && is_valid then
    locked d (fun d =>
      Ret (set_chg_profile d (with_aafv (mk_aafv cc of_ nb_limits) (p_profile d))))
  else Ret (count, d).

(** ** AACT *)

Definition aact_state_store (m : allocs) (val : Z + Z) (d : drv) : outcome (Z * drv) :=
  with_int val d (fun v =>
    let* d := mutex_lock d in
    if p_aact_state d =? v then Ret (count, mutex_unlock d) else
    let* r := aact_update_chg_table node m (set_aact_state d v) in
    let '(ret, d) := r in
    if ret <? 0 then let* d := aact_failed node m d in Ret (ret, mutex_unlock d)
    else Ret (count, mutex_unlock d)).

Definition aact_load_profile (m : allocs) (d : drv) : outcome (Z * drv) :=
  match aact_cccm_limits (aact (p_profile d)) with
  | Some _ => Ret (0, d)
  | None =>
    let* rp := gbms_init_aact_profile m (p_profile d) node in
    Ret (rp.1, set_chg_profile d rp.2)
  end.

(** The four stores that change the tables that are not in use; they take no lock. *)
Definition aact_edit (m : allocs) (d : drv) (k : aact_data -> outcome (Z * aact_data))
    : outcome (Z * drv) :=
  if negb (p_aact_state d =? BATT_AA_DISABLED) then Ret (count, d) else
  let* r := aact_load_profile m d in
  let '(ret, d) := r in
  if ret <? 0 then Ret (ret, d) else
  let* ra := k (aact (p_profile d)) in
  Ret (ra.1, set_chg_profile d (with_aact ra.2 (p_profile d))).

Definition aact_cv_limits_store (m : allocs) (scan : list Z) (d : drv) : outcome (Z * drv) :=
  aact_edit m d (fun a =>
    let* volts := fill (aact_volt_limits a) ((fun x => s32 x) <$> scan_cells scan 0 1 10) in
    Ret (count, aact_volt (Z.of_nat (length scan)) volts a)).

Definition aact_temp_limits_store (m : allocs) (scan : list Z) (d : drv) : outcome (Z * drv) :=
  aact_edit m d (fun a =>
    let* temps := fill (aact_temp_limits a) ((fun x => s32 x) <$> scan_cells scan 0 1 10) in
    Ret (count, aact_temp (Z.of_nat (length scan)) temps a)).

Definition aact_ecc (n : Z) (ecc : list Z) (a : aact_data) : aact_data :=
  mk_aact (aact_temp_nb_limits a) (aact_temp_limits a) (aact_volt_nb_limits a)
    (aact_volt_limits a) n ecc (aact_idx a) (aact_init_profile a)
    (aact_update_profile a) (aact_support_multiple_profiles a) (aact_load_chg_ecc a)
    (aact_cccm_limits a).

Definition aact_chg_ecc_store (m : allocs) (scan : list Z) (d : drv) : outcome (Z * drv) :=
  aact_edit m d (fun a =>
    let* ecc := fill (aact_limits a) ((fun x => s32 x) <$> scan_cells scan 0 1 5) in
    Ret (count, aact_ecc (Z.of_nat (length scan)) ecc a)).

Definition aact_updated (a : aact_data) (cccm : list Z) : aact_data :=
  mk_aact (aact_temp_nb_limits a) (aact_temp_limits a) (aact_volt_nb_limits a)
    (aact_volt_limits a) (aact_nb_limits a) (aact_limits a) (aact_idx a) (aact_init_profile a)
    true (aact_support_multiple_profiles a) (aact_load_chg_ecc a) (Some cccm).

(** Copies the whole buffer of a hundred cells, whatever the size of the table. *)
Definition aact_profile_store (m : allocs) (scan : list Z) (d : drv) : outcome (Z * drv) :=
  aact_edit m d (fun a =>
    let cccm_array_size :=
      u32 ((aact_temp_nb_limits a - 1) * aact_volt_nb_limits a * aact_nb_limits a) in
    if negb (Z.of_nat (length scan) =? cccm_array_size) then Ret (- ERANGE, a) else
    let* cccm := must (aact_cccm_limits a) in
    let* cccm := fill cccm (scan_cells scan 0 1 (Z.to_nat GBMS_AACT_PROFILE_MAX)) in
    Ret (count, aact_updated a cccm)).

(** ** Opting out *)

Definition aacp_opt_out_store (val : Z + Z) (d : drv) : outcome (Z * drv) :=
  with_int val d (fun value =>
    if (value <? 0) || (1 <? value) then Ret (count, d) else
    locked d (fun d =>
      let* d := aafv_update_offset node (set_opt_out d value) in
      Ret (aacp_update_opt_out_cutoff d))).

Definition aacp_opt_out_cutoff_cycles_store (val : Z + Z) (d : drv) : outcome (Z * drv) :=
  with_int val d (fun value =>
    locked d (fun d =>
      let a := p_age d in
      Ret (set_wear d (p_cycle_count d)
        (mk_age (ag_fake_aacp_cc a) (ag_aacc a) value (ag_over_cliff a) (ag_over_cutoff a)
           (ag_last_entry a) (ag_cliff_cycle a))))).

(** ** AACC: no lock *)

Definition set_aacc (d : drv) (is_charge : bool) (a : aacc_weight_profile) : drv :=
  set_chg_profile d ((if is_charge then with_aacc_chg a else with_aacc_dsg a) (p_profile d)).

Definition aacc_side (d : drv) (is_charge : bool) : aacc_weight_profile :=
  if is_charge then aacc_chg (p_profile d) else aacc_dsg (p_profile d).

(** [aacc_chg_temp_limits_store] and [aacc_dsg_temp_limits_store]. *)
Definition aacc_temp_limits_store (is_charge : bool) (scan : list Z) (d : drv) : outcome (Z * drv) :=
  let a := aacc_side d is_charge in
  match aacc_weight_limits a with
  | None => Ret (count, d)
  | Some _ =>
    let* temps := fill (aacc_temp_limits a) ((fun x => s32 x) <$> scan_cells scan 0 1 10) in
    Ret (count, set_aacc d is_charge (mk_aacc (Z.of_nat (length scan)) temps (aacc_weight_limits a)))
  end.

(** [aacc_chg_profile_store] and [aacc_dsg_profile_store]; [scan]: the battery id, the row, and
    a hundred weights. *)
Definition aacc_profile_store (is_charge : bool) (scan : list Z) (d : drv) : outcome (Z * drv) :=
  let a := aacc_side d is_charge in
  match aacc_weight_limits a with
  | None => Ret (count, d)
  | Some table =>
    if negb (Z.of_nat (length scan) =? GBMS_AACC_SOC_SIZE + 2) then Ret (- ERANGE, d) else
    let batt_id := scanned scan 0 in
    if negb (batt_id =? 0) && negb (batt_id =? p_batt_id d) then Ret (count, d) else
    let* table := put_row table (s32 (scanned scan 1 * GBMS_AACC_SOC_SIZE)) (scan_cells scan 2 1 100) in
    Ret (count, set_aacc d is_charge (mk_aacc (aacc_temp_nb_limits a) (aacc_temp_limits a) (Some table)))
  end.

End stores.
