(* ===== verification/AacpFade.v ===== *)
(** * The capacity of an aged battery (src/bms/google_battery.c, google_bms.c)

    The fade of the reference table rises with the cycles, and the capacity that AACR charges
    for falls with them, within bounds. *)

From S2P Require Import Prelude GbmsProfile GbmsLookup GbmsStorage Eeprom Ssoc Bhi Aacp.

(** ** The reference table *)

(** No table, or one whose cycles rise, and whose fade does not fall and rises by no more than a
    thousandth a cycle. *)
Record fade_table (a : aacr_data) : Prop := {
  ft_wf : wf_aacr a;
  ft_rises i cs fs ce fe : 0 <= i < aacr_nb_limits a -> point_before a i cs fs ->
    at_ (aacr_reference_cycles a) i = Ret ce -> at_ (aacr_reference_fade10 a) i = Ret fe ->
    cs < ce /\ 0 <= fe - fs <= ce - cs;
}.

Definition fade_ok (a : aacr_data) : Prop := aacr_nb_limits a = 0 \/ fade_table a.

Lemma point_is a i c f :
  1 <= i -> point_before a i c f <->
  at_ (aacr_reference_cycles a) (i - 1) = Ret c /\ at_ (aacr_reference_fade10 a) (i - 1) = Ret f.
Proof. intros Hi. unfold point_before. by rewrite (proj2 (Z.eqb_neq i 0)) by lia. Qed.

(** Points further on have more cycles and no less fade. *)
Lemma points_rise a i j ci fi cj fj :
  fade_table a -> 0 <= i <= j -> j <= aacr_nb_limits a ->
  point_before a i ci fi -> point_before a j cj fj -> ci <= cj /\ fi <= fj.
Proof.
  intros [Hwf Hr] Hij Hj Hi. revert cj fj.
  replace j with (i + Z.of_nat (Z.to_nat (j - i))) in * by lia. clear Hij.
  induction (Z.to_nat (j - i)) as [|k IH]; intros cj fj Hpj.
  { replace (i + Z.of_nat 0) with i in Hpj by lia. unfold point_before in *.
    destruct (i =? 0); destruct Hi as [H1 H2], Hpj as [H3 H4]; [lia|]. rewrite H1 in H3. rewrite H2 in H4.
    by simplify_eq. }
  destruct (Z.lt_ge_cases i 0) as [Hneg|Hpos].
  { exfalso. unfold point_before in Hi. destruct (Z.eqb_spec i 0); [lia|]. destruct Hi as [Hi _].
    apply at_lookup in Hi. lia. }
  set (n := i + Z.of_nat k) in *. replace (i + Z.of_nat (S k)) with (n + 1) in * by lia.
  apply point_is in Hpj as [Hc Hf]; [|lia]. replace (n + 1 - 1) with n in * by lia.
  destruct (point_before_read a n Hwf ltac:(lia)) as (cn & fn & Hn & _).
  destruct (IH ltac:(lia) _ _ Hn). destruct (Hr n cn fn cj fj ltac:(lia) Hn Hc Hf). lia.
Qed.

(** What the lookup computes: a segment that holds the cycles, and its prolongation. *)
Record fade_at (p : gbms_chg_profile) (cycles f i cs fs ce fe : Z) : Prop := {
  fa_idx : 0 <= i < aacr_nb_limits (aacr p);
  fa_from : point_before (aacr p) i cs fs;
  fa_to_c : at_ (aacr_reference_cycles (aacr p)) i = Ret ce;
  fa_to_f : at_ (aacr_reference_fade10 (aacr p)) i = Ret fe;
  fa_after : 0 <= cs <= cycles;
  fa_before : i < aacr_nb_limits (aacr p) - 1 -> cycles < ce;
  fa_slope : cs < ce /\ 0 <= fe - fs <= ce - cs /\ 0 <= fs < 2 ^ 15;
  fa_is : f = fs + (cycles - cs) * (fe - fs) / (ce - cs);
}.

Lemma fade_read p cycles :
  fade_table (aacr p) -> 0 <= cycles < 2 ^ 15 ->
  exists f i cs fs ce fe, gbms_aacr_fade10 p cycles = Ret f /\ fade_at p cycles f i cs fs ce fe.
Proof.
  intros Ht Hc. pose proof Ht as [Hwf Hr].
  destruct (aacr_fade10_interpolates p cycles Hwf Hc) as (i & cs & fs & ce & fe & Hi & Hp & Hce & Hfe & Ha & Hb & Hf & _).
  { intros i c c' f Hi Hpt Hc'. destruct (at_Some (aacr_reference_fade10 (aacr p)) i) as [fe Hfe].
    { destruct Hwf. unfold GBMS_AACR_DATA_MAX in *. lia. }
    apply (Hr i c f c' fe Hi Hpt Hc' Hfe). }
  destruct (Hr i cs fs ce fe Hi Hp Hce Hfe) as [Hlt Hs].
  destruct (point_before_read _ i Hwf Hi) as (cs' & fs' & Hp' & Hcs & Hfs & _).
  destruct (points_rise _ i i cs fs cs' fs' Ht ltac:(lia) ltac:(lia) Hp Hp').
  destruct (points_rise _ i i cs' fs' cs fs Ht ltac:(lia) ltac:(lia) Hp' Hp).
  assert (fs = fs') as -> by lia.
  eexists _, i, cs, fs', ce, fe. split; [exact Hf|]. split; try done; try lia.
  rewrite Z.quot_div_nonneg by nia. done.
Qed.

Lemma fade_bounds p cycles f i cs fs ce fe :
  0 <= cycles < 2 ^ 15 -> fade_at p cycles f i cs fs ce fe -> 0 <= fs <= f /\ f < 2 ^ 16.
Proof.
  intros Hc [Hi _ _ _ Ha _ (Hlt & Hs & Hfs) ->].
  assert (0 <= (cycles - cs) * (fe - fs) / (ce - cs) <= cycles - cs); [|split; [lia|]].
  { split; [apply Z.div_pos; nia|]. apply Z.div_le_upper_bound; nia. }
  lia.
Qed.

(** The fade does not fall. *)
Lemma fade_mono p c1 c2 f1 f2 :
  fade_table (aacr p) -> 0 <= c1 <= c2 -> c2 < 2 ^ 15 ->
  gbms_aacr_fade10 p c1 = Ret f1 -> gbms_aacr_fade10 p c2 = Ret f2 -> f1 <= f2.
Proof.
  intros Ht H1 H2 Hf1 Hf2.
  destruct (fade_read p c1 Ht ltac:(lia)) as (g1 & i1 & cs1 & fs1 & ce1 & fe1 & E1 & A1).
  destruct (fade_read p c2 Ht ltac:(lia)) as (g2 & i2 & cs2 & fs2 & ce2 & fe2 & E2 & A2).
  rewrite E1 in Hf1. rewrite E2 in Hf2. simplify_eq.
  pose proof (fade_bounds p c1 _ _ _ _ _ _ ltac:(lia) A1) as Hb1.
  pose proof (fade_bounds p c2 _ _ _ _ _ _ ltac:(lia) A2) as Hb2.
  destruct A1 as [Hi1 Hp1 Hce1 Hfe1 Ha1 Hbe1 (Hlt1 & Hs1 & _) ->].
  destruct A2 as [Hi2 Hp2 Hce2 Hfe2 Ha2 Hbe2 (Hlt2 & Hs2 & _) ->].
  destruct (Z.lt_trichotomy i1 i2) as [Hi|[->|Hi]].
  - (* the end of the first segment is not beyond the start of the second *)
    assert (Hn : point_before (aacr p) (i1 + 1) ce1 fe1).
    { apply point_is; [lia|]. by replace (i1 + 1 - 1) with i1 by lia. }
    destruct (points_rise _ (i1 + 1) i2 _ _ _ _ Ht ltac:(lia) ltac:(lia) Hn Hp2).
    assert ((c1 - cs1) * (fe1 - fs1) / (ce1 - cs1) <= fe1 - fs1)
      by (apply Z.div_le_upper_bound; nia). lia.
  - destruct (points_rise _ i2 i2 _ _ _ _ Ht ltac:(lia) ltac:(lia) Hp1 Hp2).
    destruct (points_rise _ i2 i2 _ _ _ _ Ht ltac:(lia) ltac:(lia) Hp2 Hp1).
    assert (cs1 = cs2 /\ fs1 = fs2) as [-> ->] by lia.
    rewrite Hce1 in Hce2. rewrite Hfe1 in Hfe2. simplify_eq.
    apply Z.add_le_mono_l, Z.div_le_mono; nia.
  - exfalso. assert (Hn : point_before (aacr p) (i2 + 1) ce2 fe2).
    { apply point_is; [lia|]. by replace (i2 + 1 - 1) with i2 by lia. }
    destruct (points_rise _ (i2 + 1) i1 _ _ _ _ Ht ltac:(lia) ltac:(lia) Hn Hp1). lia.
Qed.

(** ** The capacity *)

Record aacr_ok (r : aacr_config) : Prop := {
  ro_grace : 0 <= ar_cycle_grace r < 2 ^ 31;
  ro_max : 0 <= ar_cycle_max r < 2 ^ 15;
  ro_min : 0 <= ar_min_rate r <= 100;
  ro_cliff : 0 <= ar_cliff_rate r <= 100;
}.

(** A percentage of the capacity, as computed without a sign. *)
Definition rate_of (cap rate : Z) : Z := cap * rate / 100.

Lemma rate_read cap rate :
  0 < cap < 2 ^ 15 -> 0 <= rate <= 100 ->
  s32 (u32 (cap * rate) / 100) = rate_of cap rate /\ 0 <= rate_of cap rate <= cap.
Proof.
  intros Hc Hr. unfold rate_of. rewrite wrap_id by nia.
  assert (0 <= cap * rate / 100 <= cap).
  { split; [apply Z.div_pos; nia|]. apply Z.div_le_upper_bound; nia. }
  split; [|done]. apply swrap_id; lia.
Qed.

Lemma round_down x : 0 <= x -> cdiv x 50 * 50 = x / 50 * 50 /\ 0 <= x / 50 * 50 <= x.
Proof.
  intros Hx. rewrite Z.quot_div_nonneg by lia. split; [done|].
  pose proof (Z.div_pos x 50 Hx). pose proof (Z.mul_div_le x 50). lia.
Qed.

Section capacity.
Context {D G : Type} `{!FuelGauge G}.
#[local] Abbreviation drv := (aacp_drv D G).

(** What the capacity depends on. *)
Record fades (d : drv) : Prop := {
  fd_aacr : aacr_ok (p_aacr d);
  fd_table : fade_ok (aacr (p_profile d));
  fd_capacity : 0 < p_capacity d < 2 ^ 15;
}.

(** Both readings at once, for the comparison; [f] is the fade in thousandths. *)
Definition reference_is (d : drv) (c f : Z) : Prop :=
  aacr_get_reference_capacity d c = Ret (u32 (p_capacity d - p_capacity d * f / 1000)) /\
  0 <= f < 2 ^ 16.

Lemma reference_of_fade d c f0 f :
  0 < p_capacity d < 2 ^ 15 -> gbms_aacr_fade10 (p_profile d) c = Ret f0 ->
  (if 0 <=? f0 then Ret f0
   else if negb (ar_cycle_max (p_aacr d) =? 0) && (ar_cycle_grace (p_aacr d) <? c) then
     let* q := quot_c (s32 (200 * s32 (c - ar_cycle_grace (p_aacr d))))
                 (s32 (ar_cycle_max (p_aacr d) - ar_cycle_grace (p_aacr d))) in Ret (s32 q)
   else Ret 0) = Ret f -> 0 <= f < 2 ^ 16 -> reference_is d c f.
Proof.
  intros Hcap Hf0 Hf Hr. split; [|done]. unfold aacr_get_reference_capacity.
  rewrite Hf0. cbn [obind]. rewrite Hf. cbn [obind].
  rewrite (swrap_id 32 (p_capacity d)), (swrap_id 32 (p_capacity d * f)) by nia.
  by rewrite Z.quot_div_nonneg by nia.
Qed.

(** The slope without a table: 20% at [cycle_max]. *)
Lemma slope_mono g mx c1 c2 :
  0 <= g < 2 ^ 31 -> 0 <= mx < 2 ^ 15 -> g < c1 <= c2 -> c2 < mx ->
  exists q1 q2, quot_c (s32 (200 * s32 (c1 - g))) (s32 (mx - g)) = Ret q1 /\
    quot_c (s32 (200 * s32 (c2 - g))) (s32 (mx - g)) = Ret q2 /\
    0 <= q1 <= q2 /\ q2 <= 200.
Proof.
  intros Hg Hm Hc Hmx. rewrite (swrap_id 32 (c1 - g)), (swrap_id 32 (c2 - g)), (swrap_id 32 (mx - g)),
    !swrap_id by lia.
  unfold quot_c. rewrite (proj2 (Z.eqb_neq (mx - g) 0)) by lia.
  rewrite !Z.quot_div_nonneg by lia. eexists _, _. split_and!; [done..| | |].
  - apply Z.div_pos; lia.
  - apply Z.div_le_mono; lia.
  - apply Z.div_le_upper_bound; lia.
Qed.

Lemma fade10_disabled p c : aacr_nb_limits (aacr p) = 0 -> gbms_aacr_fade10 p c = Ret (- EINVAL).
Proof. intros H. unfold gbms_aacr_fade10. by rewrite H. Qed.

Lemma reference_mono d c1 c2 :
  fades d -> 0 <= c1 <= c2 -> c2 < 2 ^ 15 -> (ar_cycle_max (p_aacr d) = 0 \/ c2 < ar_cycle_max (p_aacr d)) ->
  exists f1 f2, reference_is d c1 f1 /\ reference_is d c2 f2 /\ f1 <= f2.
Proof.
  intros [[Hg Hm _ _] Ht Hcap] Hc Hc2 Hmx. destruct Ht as [Hnb|Ht].
  - pose proof (fade10_disabled (p_profile d) c1 Hnb) as E1.
    pose proof (fade10_disabled (p_profile d) c2 Hnb) as E2.
    destruct (Z.eqb_spec (ar_cycle_max (p_aacr d)) 0) as [E0|E0].
    { exists 0, 0. split_and!; [| |lia]; (eapply reference_of_fade; [done|eassumption| |lia]);
        by rewrite E0. }
    destruct (Z.ltb_spec (ar_cycle_grace (p_aacr d)) c2) as [H2|H2]; cycle 1.
    { exists 0, 0. split_and!; [| |lia]; (eapply reference_of_fade; [done|eassumption| |lia]);
        rewrite (proj2 (Z.ltb_ge _ _)) by lia; by rewrite andb_false_r. }
    destruct (Z.ltb_spec (ar_cycle_grace (p_aacr d)) c1) as [H1|H1].
    + destruct (slope_mono _ _ c1 c2 Hg Hm ltac:(lia) ltac:(lia)) as (q1 & q2 & Q1 & Q2 & Hq & Hq2).
      exists q1, q2. split_and!; [| |lia]; (eapply reference_of_fade; [done|eassumption| |lia]);
        rewrite (proj2 (Z.ltb_lt _ _)) by lia; rewrite (proj2 (Z.eqb_neq _ 0) E0);
        cbn [negb andb]; rewrite ?Q1, ?Q2; cbn [obind Z.leb Z.compare EINVAL Z.opp];
        rewrite swrap_id by lia; done.
    + destruct (slope_mono _ _ c2 c2 Hg Hm ltac:(lia) ltac:(lia)) as (q1 & q2 & Q1 & Q2 & Hq & Hq2).
      exists 0, q2. split_and!; [| |lia]; (eapply reference_of_fade; [done|eassumption| |lia]).
      * rewrite (proj2 (Z.ltb_ge _ _)) by lia. by rewrite andb_false_r.
      * rewrite (proj2 (Z.ltb_lt _ _)) by lia. rewrite (proj2 (Z.eqb_neq _ 0) E0).
        cbn [negb andb]. rewrite Q2. cbn [obind Z.leb Z.compare EINVAL Z.opp].
        rewrite swrap_id by lia. done.
  - destruct (fade_read (p_profile d) c1 Ht ltac:(lia)) as (f1 & ? & ? & ? & ? & ? & E1 & A1).
    destruct (fade_read (p_profile d) c2 Ht ltac:(lia)) as (f2 & ? & ? & ? & ? & ? & E2 & A2).
    pose proof (fade_bounds _ c1 _ _ _ _ _ _ ltac:(lia) A1). pose proof (fade_bounds _ c2 _ _ _ _ _ _ ltac:(lia) A2).
    pose proof (fade_mono _ c1 c2 f1 f2 Ht Hc Hc2 E1 E2).
    exists f1, f2. split_and!; [| |done]; (eapply reference_of_fade; [done|eassumption| |lia]);
      by rewrite (proj2 (Z.leb_le _ _)) by lia.
Qed.

(** The capacity that is charged for, as a function of the fade. *)
Definition capacity_left (d : drv) (f : Z) : Z := p_capacity d - p_capacity d * f / 1000.

Definition capacity_for (d : drv) (f algo : Z) : Z :=
  let design := p_capacity d in
  let left := capacity_left d f in
  if left <=? 0 then design else
  if algo =? BATT_AACR_ALGO_REFERENCE_CAP then left else
  let full := Z.min (cdiv (GPSY_GET_PROP CHARGE_FULL (p_gauge d)) 1000) design in
  let full := if algo =? BATT_AACR_ALGO_LOW_B then Z.min full left else Z.max full left in
  Z.max full (rate_of design (ar_min_rate (p_aacr d))) / 50 * 50.

(** The specification: full capacity in the grace period, the cliff at its end. *)
Inductive aged_capacity (d : drv) (c : Z) : Z -> Prop :=
| aged_grace : c <= ar_cycle_grace (p_aacr d) -> aged_capacity d c (p_capacity d)
| aged_cliff : ar_cycle_grace (p_aacr d) < c -> ar_cycle_max (p_aacr d) <> 0 ->
    ar_cycle_max (p_aacr d) <= c -> aged_capacity d c (rate_of (p_capacity d) (ar_cliff_rate (p_aacr d)))
| aged_fade f : ar_cycle_grace (p_aacr d) < c ->
    (ar_cycle_max (p_aacr d) = 0 \/ c < ar_cycle_max (p_aacr d)) -> reference_is d c f ->
    aged_capacity d c (capacity_for d f (ar_algo (p_aacr d))).

Lemma left_range d f :
  0 < p_capacity d < 2 ^ 15 -> 0 <= f < 2 ^ 16 -> - 2 ^ 31 <= capacity_left d f <= p_capacity d.
Proof.
  intros Hc Hf. unfold capacity_left. assert (0 <= p_capacity d * f / 1000 <= p_capacity d * f).
  { split; [apply Z.div_pos; nia|]. apply Z.div_le_upper_bound; nia. } nia.
Qed.

Lemma capacity_for_ok d c f algo :
  fades d -> 0 <= GPSY_GET_PROP CHARGE_FULL (p_gauge d) ->
  (ar_cycle_max (p_aacr d) = 0 \/ c < ar_cycle_max (p_aacr d)) -> reference_is d c f ->
  aacr_get_capacity_for_algo d c algo = Ret (capacity_for d f algo).
Proof.
  intros [[Hg Hm Hmin Hcl] Ht Hcap] Hfull Hmx [Href Hf]. unfold aacr_get_capacity_for_algo.
  destruct (rate_read _ _ Hcap Hmin) as [-> Hrm]. destruct (rate_read _ _ Hcap Hcl) as [-> Hrc].
  assert (negb (ar_cycle_max (p_aacr d) =? 0) && (ar_cycle_max (p_aacr d) <=? c) = false) as ->.
  { destruct Hmx as [->|H]; [done|]. rewrite (proj2 (Z.leb_gt _ _) H). apply andb_false_r. }
  rewrite Href. cbn [obind]. pose proof (left_range d f Hcap Hf) as Hl.
  assert (s32 (u32 (capacity_left d f)) = capacity_left d f) as Hs.
  { unfold swrap, wrap. rewrite Zplus_mod_idemp_l. rewrite Z.mod_small by lia. lia. }
  unfold capacity_for. unfold capacity_left in Hs at 1. rewrite Hs, (swrap_id 32 (p_capacity d)) by lia.
  destruct (Z.leb_spec (capacity_left d f) 0); [done|].
  destruct (algo =? BATT_AACR_ALGO_REFERENCE_CAP); [done|].
  rewrite (proj2 (Z.ltb_ge (GPSY_GET_PROP CHARGE_FULL (p_gauge d)) 0)) by lia.
  f_equal. assert (0 <= cdiv (GPSY_GET_PROP CHARGE_FULL (p_gauge d)) 1000)
    by (rewrite Z.quot_div_nonneg by lia; apply Z.div_pos; lia).
  apply round_down. destruct (algo =? BATT_AACR_ALGO_LOW_B); lia.
Qed.

(** The capacity at a cycle count is the specified one. *)
Lemma capacity_at_cycle_ok d c :
  fades d -> 0 <= GPSY_GET_PROP CHARGE_FULL (p_gauge d) -> c < 2 ^ 15 ->
  exists cap, aacr_get_capacity_at_cycle d c = Ret cap /\ aged_capacity d c cap.
Proof.
  intros Hd Hfull Hc. pose proof Hd as [[Hg Hm Hmin Hcl] Ht Hcap]. unfold aacr_get_capacity_at_cycle.
  destruct (Z.leb_spec c (ar_cycle_grace (p_aacr d))).
  { rewrite swrap_id by lia. eexists. split; [done|]. by apply aged_grace. }
  destruct (Z.eq_dec (ar_cycle_max (p_aacr d)) 0) as [E|E].
  - destruct (reference_mono d c c) as (f & _ & Hf & _); [done|lia..|].
    eexists. split; [eapply capacity_for_ok; [done..|by left|exact Hf]|]. by apply aged_fade; [|left|].
  - destruct (Z.lt_ge_cases c (ar_cycle_max (p_aacr d))) as [Hlt|Hge].
    + destruct (reference_mono d c c) as (f & _ & Hf & _); [done|lia..|].
      eexists. split; [eapply capacity_for_ok; [done..|by right|exact Hf]|]. by apply aged_fade; [|right|].
    + eexists. split; [|by apply aged_cliff]. unfold aacr_get_capacity_for_algo.
      rewrite (proj2 (Z.eqb_neq _ 0) E), (proj2 (Z.leb_le _ _) Hge). cbn [negb andb].
      by rewrite (proj1 (rate_read _ _ Hcap Hcl)).
Qed.

Lemma capacity_for_range d f algo :
  fades d -> 0 <= GPSY_GET_PROP CHARGE_FULL (p_gauge d) -> 0 <= f < 2 ^ 16 ->
  0 <= capacity_for d f algo <= p_capacity d /\
  (algo <> BATT_AACR_ALGO_REFERENCE_CAP ->
   rate_of (p_capacity d) (ar_min_rate (p_aacr d)) / 50 * 50 <= capacity_for d f algo).
Proof.
  intros [[Hg Hm Hmin Hcl] Ht Hcap] Hfull Hf. unfold capacity_for.
  destruct (rate_read _ _ Hcap Hmin) as [_ Hrm]. set (floor := rate_of _ _) in *.
  pose proof (left_range d f Hcap Hf). pose proof (proj2 (round_down floor ltac:(lia))).
  destruct (Z.leb_spec (capacity_left d f) 0); [split; lia|].
  assert (0 <= cdiv (GPSY_GET_PROP CHARGE_FULL (p_gauge d)) 1000)
    by (rewrite Z.quot_div_nonneg by lia; apply Z.div_pos; lia).
  set (full := if algo =? BATT_AACR_ALGO_LOW_B then _ else _).
  assert (0 <= full <= p_capacity d) by (unfold full; destruct (algo =? BATT_AACR_ALGO_LOW_B); lia).
  pose proof (proj2 (round_down (Z.max full floor) ltac:(lia))).
  destruct (Z.eqb_spec algo BATT_AACR_ALGO_REFERENCE_CAP); [split; [lia|done]|split; [lia|]].
  intros _. apply Z.mul_le_mono_nonneg_r; [lia|]. apply Z.div_le_mono; lia.
Qed.

Lemma capacity_for_falls d f1 f2 algo :
  0 < p_capacity d -> f1 <= f2 -> 0 < capacity_left d f2 ->
  capacity_for d f2 algo <= capacity_for d f1 algo.
Proof.
  intros Hc Hf Hl.
  assert (Hle : capacity_left d f2 <= capacity_left d f1).
  { unfold capacity_left. apply Z.sub_le_mono_l, Z.div_le_mono; nia. }
  unfold capacity_for. rewrite !(proj2 (Z.leb_gt _ 0)) by lia.
  destruct (algo =? BATT_AACR_ALGO_REFERENCE_CAP); [done|].
  apply Z.mul_le_mono_nonneg_r; [lia|]. apply Z.div_le_mono; [lia|].
  destruct (algo =? BATT_AACR_ALGO_LOW_B); lia.
Qed.

Lemma aged_range d c cap :
  fades d -> 0 <= GPSY_GET_PROP CHARGE_FULL (p_gauge d) -> aged_capacity d c cap -> 0 <= cap <= p_capacity d.
Proof.
  intros Hd Hfull H. pose proof Hd as [[Hg Hm Hmin Hcl] Ht Hcap]. destruct H as [|? ? ?|f ? ? [_ Hf]]; [lia| |].
  - by apply rate_read.
  - by apply capacity_for_range.
Qed.

(** Settings that leave at least [floor]. *)
Record floor_ok (cap floor : Z) (r : aacr_config) : Prop := {
  fl_range : 0 <= floor <= cap;
  fl_min : floor <= rate_of cap (ar_min_rate r) / 50 * 50;
  fl_cliff : floor <= rate_of cap (ar_cliff_rate r);
  fl_algo : floor = 0 \/ ar_algo r <> BATT_AACR_ALGO_REFERENCE_CAP;
}.

Lemma aged_floor d c cap floor :
  fades d -> 0 <= GPSY_GET_PROP CHARGE_FULL (p_gauge d) -> floor_ok (p_capacity d) floor (p_aacr d) ->
  aged_capacity d c cap -> floor <= cap.
Proof.
  intros Hd Hfull [Hr Hm Hc Ha] H. destruct H as [|? ? ?|f ? ? [_ Hf]]; [lia|lia|].
  destruct (capacity_for_range d f (ar_algo (p_aacr d)) Hd Hfull Hf) as [? Hmin].
  destruct Ha as [->|Ha]; [lia|]. specialize (Hmin Ha). lia.
Qed.

(** The fade that is read gives one capacity. *)
Lemma capacity_for_cong d c f g algo :
  0 < p_capacity d < 2 ^ 15 -> reference_is d c f -> reference_is d c g ->
  capacity_for d f algo = capacity_for d g algo.
Proof.
  intros Hcap [Ef Hf] [Eg Hgr]. unfold capacity_for.
  assert (capacity_left d f = capacity_left d g) as ->; [|done].
  rewrite Ef in Eg. injection Eg as E.
  pose proof (left_range d f Hcap Hf). pose proof (left_range d g Hcap Hgr).
  unfold capacity_left in *. unfold wrap in E.
  assert (Hu : forall x, - 2 ^ 31 <= x < 2 ^ 31 -> x = (x mod 2 ^ 32 + 2 ^ 31) mod 2 ^ 32 - 2 ^ 31).
  { intros x Hx. rewrite Zplus_mod_idemp_l, Z.mod_small; lia. }
  rewrite (Hu (p_capacity d - p_capacity d * f / 1000)), E, <- Hu; lia.
Qed.

(** More cycles never raise what is specified. *)
Lemma aged_falls d c1 c2 cap1 cap2 :
  fades d -> 0 <= GPSY_GET_PROP CHARGE_FULL (p_gauge d) -> c1 <= c2 < 2 ^ 15 ->
  aged_capacity d c1 cap1 -> aged_capacity d c2 cap2 ->
  (forall f, reference_is d c2 f -> 0 < capacity_left d f) ->
  (ar_cycle_max (p_aacr d) <> 0 -> ar_cycle_max (p_aacr d) <= c2 ->
     ar_algo (p_aacr d) <> BATT_AACR_ALGO_REFERENCE_CAP /\
     rate_of (p_capacity d) (ar_cliff_rate (p_aacr d)) <=
       rate_of (p_capacity d) (ar_min_rate (p_aacr d)) / 50 * 50) ->
  cap2 <= cap1.
Proof.
  intros Hd Hfull Hc A1 A2 Hleft Hcliff.
  pose proof (aged_range d c1 cap1 Hd Hfull A1) as R1. pose proof (aged_range d c2 cap2 Hd Hfull A2) as R2.
  pose proof Hd as [[Hg Hm Hmin Hcl] Ht Hcap].
  destruct A1 as [|? ? ?|f1 ? Hm1 Hf1]; [lia| |]; destruct A2 as [|? ? ?|f2 ? Hm2 Hf2]; try lia.
  - destruct Hcliff as [Halgo Hbelow]; [lia..|].
    pose proof (proj2 (capacity_for_range d f1 (ar_algo (p_aacr d)) Hd Hfull (proj2 Hf1)) Halgo). lia.
  - destruct (reference_mono d c1 c2) as (g1 & g2 & G1 & G2 & Hg12); [done|lia..|done|].
    rewrite (capacity_for_cong d c1 f1 g1 _ Hcap Hf1 G1), (capacity_for_cong d c2 f2 g2 _ Hcap Hf2 G2).
    apply capacity_for_falls; [lia|done|by apply Hleft].
Qed.

(** Without an answer of the gauge the code returns the error of the gauge as the capacity. *)
Lemma capacity_at_cycle_unanswered d c :
  fades d -> GPSY_GET_PROP CHARGE_FULL (p_gauge d) < 0 -> c < 2 ^ 15 ->
  exists cap, aacr_get_capacity_at_cycle d c = Ret cap /\
    (0 <= cap <= p_capacity d \/ cap = GPSY_GET_PROP CHARGE_FULL (p_gauge d)).
Proof.
  intros Hd Hfull Hc. pose proof Hd as [[Hg Hm Hmin Hcl] Ht Hcap].
  unfold aacr_get_capacity_at_cycle, aacr_get_capacity_for_algo. rewrite !(swrap_id 32 (p_capacity d)) by lia.
  destruct (Z.leb_spec c (ar_cycle_grace (p_aacr d))); [eexists; split; [done|]; lia|].
  destruct (rate_read _ _ Hcap Hcl) as [-> Hrc].
  destruct (_ && _) eqn:E; [eexists; split; [done|]; by left|].
  destruct (reference_mono d c c) as (f & _ & [Href Hf] & _); [done|lia..| |].
  { destruct (Z.eq_dec (ar_cycle_max (p_aacr d)) 0) as [|Hne]; [by left|].
    rewrite (proj2 (Z.eqb_neq _ 0) Hne) in E. right. by apply Z.leb_gt. }
  rewrite Href. cbn [obind]. pose proof (left_range d f Hcap Hf) as Hl.
  assert (s32 (u32 (capacity_left d f)) = capacity_left d f) as Hs.
  { unfold swrap, wrap. rewrite Zplus_mod_idemp_l. rewrite Z.mod_small by lia. lia. }
  unfold capacity_left in Hs at 1. rewrite Hs.
  destruct (Z.leb_spec (capacity_left d f) 0); [eexists; split; [done|]; lia|].
  destruct (_ =? BATT_AACR_ALGO_REFERENCE_CAP); [eexists; split; [done|]; lia|].
  rewrite (proj2 (Z.ltb_lt _ 0)) by done. eexists. split; [done|]. by right.
Qed.

(** C39. AACR charges an aged battery for less.  The settings are in range, and the reference
    table has a fade that rises by no more than a thousandth a cycle or is empty ([fades]).  Then
    the capacity of every cycle count is defined, and it is between zero and the design capacity;
    only where the gauge fails to give its full capacity can it be the negative error of the
    gauge instead.  When the gauge answers, more cycles never raise it, under three conditions on
    the larger count [c2]: the table leaves some capacity there (with none left the code charges
    for the design capacity); and, where [c2] is at or past the last cycle, the algorithm is not
    REFERENCE_CAP and the capacity of the cliff is at most the rounded minimum.  With
    REFERENCE_CAP, which has no minimum, a cliff can raise the capacity. *)
Theorem aging_lowers_capacity d c1 c2 :
  fades d -> c1 <= c2 < 2 ^ 15 ->
  exists cap1 cap2,
    aacr_get_capacity_at_cycle d c1 = Ret cap1 /\ aacr_get_capacity_at_cycle d c2 = Ret cap2 /\
    (forall cap, cap = cap1 \/ cap = cap2 -> 0 <= cap <= p_capacity d \/
       cap < 0 /\ cap = GPSY_GET_PROP CHARGE_FULL (p_gauge d)) /\
    (0 <= GPSY_GET_PROP CHARGE_FULL (p_gauge d) ->
     (forall f, reference_is d c2 f -> 0 < capacity_left d f) ->
     (ar_cycle_max (p_aacr d) <> 0 -> ar_cycle_max (p_aacr d) <= c2 ->
        ar_algo (p_aacr d) <> BATT_AACR_ALGO_REFERENCE_CAP /\
        rate_of (p_capacity d) (ar_cliff_rate (p_aacr d)) <=
          rate_of (p_capacity d) (ar_min_rate (p_aacr d)) / 50 * 50) ->
     cap2 <= cap1).
Proof.
  intros Hd Hc. destruct (Z.lt_ge_cases (GPSY_GET_PROP CHARGE_FULL (p_gauge d)) 0) as [Hneg|Hfull].
  { destruct (capacity_at_cycle_unanswered d c1 Hd Hneg ltac:(lia)) as (cap1 & E1 & A1).
    destruct (capacity_at_cycle_unanswered d c2 Hd Hneg ltac:(lia)) as (cap2 & E2 & A2).
    exists cap1, cap2. split_and!; [done|done| |lia]. intros cap [-> | ->]; lia. }
  destruct (capacity_at_cycle_ok d c1 Hd Hfull ltac:(lia)) as (cap1 & E1 & A1).
  destruct (capacity_at_cycle_ok d c2 Hd Hfull ltac:(lia)) as (cap2 & E2 & A2).
  pose proof (aged_range d c1 cap1 Hd Hfull A1) as R1. pose proof (aged_range d c2 cap2 Hd Hfull A2) as R2.
  exists cap1, cap2. split_and!; [done|done|intros cap [-> | ->]; by left|]. intros _ Hleft Hcliff.
  by apply (aged_falls d c1 c2).
Qed.

End capacity.
