(* ===== verification/AacpTiers.v ===== *)
(** * The float voltage of an aged battery (src/bms/google_battery.c)

    AAFV lowers the last tier by an offset that depends on the cycles and caps the tiers below
    it; the offset is what the gauge has accepted. *)

From Stdlib Require Import String.
From S2P Require Import Prelude GbmsProfile GbmsLookup GbmsTables GbmsStorage Eeprom Ssoc Bhi.
From S2P Require Import Aacp.

(** ** Clamping *)

Lemma clamp_volts_spec n top l :
  (n <= length l)%nat ->
  clamp_volts n top l = Ret ((Z.min top <$> take n l) ++ drop n l).
Proof.
  revert l. induction n as [|n IH]; intros [|v l] Hn; cbn [length] in Hn; try lia; [done..|].
  cbn [clamp_volts]. rewrite IH by lia. run. cbn. do 2 f_equal. case_test; lia.
Qed.

(** ** What the device tree has *)

Section tiers.
Context `{!DeviceTree} `{!DeviceTreeLaws} (node low : Z).

(** The tiers in the node of the battery id, else in the node of the driver. *)
Definition cv_limits (n : Z) : option (list Z) :=
  match of_property_read_u32_array (gbms_batt_id_node node) "google,chg-cv-limits" n with
  | inr l => Some l
  | inl _ =>
    match of_property_read_u32_array node "google,chg-cv-limits" n with
    | inr l => Some l
    | inl _ => None
    end
  end.

Lemma cv_limits_length n cells : cv_limits n = Some cells -> Z.of_nat (length cells) = n.
Proof.
  unfold cv_limits. intros Hr.
  destruct (of_property_read_u32_array (gbms_batt_id_node node) _ n) as [e|l] eqn:E;
    [|simplify_eq; by eapply read_length].
  destruct (of_property_read_u32_array node _ n) as [e'|l] eqn:E'; [done|].
  simplify_eq. by eapply read_length.
Qed.

Lemma read_tiers n cells dst :
  cv_limits n = Some cells -> (length cells <= length dst)%nat ->
  read_s32_id node "google,chg-cv-limits" n dst
    = Ret (0, ((fun x => s32 x) <$> cells) ++ drop (length cells) dst).
Proof.
  unfold cv_limits, read_s32_id, read_s32. intros Hr Hl.
  assert (Hfill : forall l, (length l <= length dst)%nat ->
    fill dst ((fun x => s32 x) <$> l) = Ret (((fun x => s32 x) <$> l) ++ drop (length l) dst)).
  { intros l Hl'. unfold fill. rewrite length_fmap. by rewrite (proj2 (Nat.ltb_ge _ _)) by lia. }
  destruct (of_property_read_u32_array (gbms_batt_id_node node) _ n) as [e|l] eqn:E.
  - run. rewrite (proj2 (Z.ltb_lt e 0)) by (by eapply read_error).
    destruct (of_property_read_u32_array node _ n) as [e'|l] eqn:E'; [done|]. simplify_eq.
    by rewrite Hfill by done.
  - simplify_eq. rewrite Hfill by done. run. done.
Qed.

(** ** Tiers under an offset *)

(** Tier [i] of the tree as a voltage. *)
Definition tier_of (cells : list Z) (i : Z) : Z := s32 (default 0 (cells !! Z.to_nat i)).

(** The tiers under a cap: the last is the cap itself. *)
Definition lowered (cells : list Z) (n top i : Z) : Z :=
  if i =? n - 1 then top else Z.min top (tier_of cells i).

(** The tables that AAFV works on: the arrays are those of the struct, the tree has the tiers, and
    no tier is above the last one less the offset, nor below [low]. *)
Record tiers_ok (l : chg_limits) (offset last : Z) : Prop := {
  to_nb : 1 <= volt_nb_limits l <= 10;
  to_len : length (volt_limits l) = 10%nat;
  to_last : last_volt l = last /\ last < 2 ^ 31;
  to_tree : exists cells, cv_limits (volt_nb_limits l) = Some cells /\
    Forall (fun v => low <= v < 2 ^ 31) cells;
  to_rest : Forall (eq 0) (drop (Z.to_nat (volt_nb_limits l)) (volt_limits l));
  to_offset : 0 <= low /\ 0 <= offset <= last - low;
  to_capped i v : 0 <= i < volt_nb_limits l -> at_ (volt_limits l) i = Ret v -> low <= v <= last - offset;
  to_lowered cells i v : 0 < offset -> cv_limits (volt_nb_limits l) = Some cells ->
    0 <= i < volt_nb_limits l -> at_ (volt_limits l) i = Ret v ->
    v = lowered cells (volt_nb_limits l) (last - offset) i;
}.

(** What the update makes of the tiers. *)
Definition lower_tiers (l : chg_limits) (cells : list Z) (top : Z) : list Z :=
  (Z.min top <$> <[Z.to_nat (volt_nb_limits l - 1) := top]> ((fun x => s32 x) <$> cells)) ++
    drop (length cells) (volt_limits l).

Lemma lower_tiers_at l cells n top i v :
  volt_nb_limits l = n -> Z.of_nat (length cells) = n -> 0 <= i < n ->
  at_ (lower_tiers l cells top) i = Ret v -> v = lowered cells n top i.
Proof.
  intros Hn Hlen Hi [_ Hv]%at_lookup. unfold lower_tiers, lowered, tier_of in *. rewrite Hn in Hv.
  rewrite lookup_app_l in Hv by (rewrite length_fmap, length_insert, length_fmap; lia).
  rewrite list_lookup_fmap in Hv. destruct (Z.eqb_spec i (n - 1)) as [->|Hne].
  - rewrite list_lookup_insert_eq in Hv by (rewrite length_fmap; lia). cbn in Hv. simplify_eq. lia.
  - rewrite list_lookup_insert_ne in Hv by lia. rewrite list_lookup_fmap in Hv.
    destruct (cells !! Z.to_nat i) as [x|]; cbn in Hv |- *; by simplify_eq.
Qed.

Lemma lower_tiers_ok l cells top last offset :
  1 <= volt_nb_limits l <= 10 -> length (volt_limits l) = 10%nat ->
  last_volt l = last /\ last < 2 ^ 31 -> cv_limits (volt_nb_limits l) = Some cells ->
  Forall (fun v => low <= v < 2 ^ 31) cells -> Forall (eq 0) (drop (Z.to_nat (volt_nb_limits l)) (volt_limits l)) ->
  0 <= low -> 0 <= offset <= last - low -> top = last - offset ->
  tiers_ok (with_volt (volt_nb_limits l) (lower_tiers l cells top) l) offset last.
Proof.
  intros Hn Hlen Hlast Hcv Hcells Hrest Hlow Hoff ->. pose proof (cv_limits_length _ _ Hcv) as Hcl.
  split; cbn; try done; try lia; [|by exists cells| | |].
  - unfold lower_tiers. rewrite length_app, length_fmap, length_insert, length_fmap, length_drop. lia.
  - unfold lower_tiers. rewrite drop_app_ge by (rewrite length_fmap, length_insert, length_fmap; lia).
    rewrite length_fmap, length_insert, length_fmap, <- Hcl, Nat2Z.id, Nat.sub_diag, drop_0.
    by rewrite <- Hcl, Nat2Z.id in Hrest.
  - intros i v Hi Hv. apply (lower_tiers_at l cells (volt_nb_limits l)) in Hv; [|done..]. subst v.
    unfold lowered, tier_of. case_test; [lia|].
    destruct (lookup_lt_is_Some_2 cells (Z.to_nat i)) as [x Hx]; [lia|]. rewrite Hx. cbn.
    pose proof (proj1 (Forall_lookup _ _) Hcells _ _ Hx) as Hr. cbv beta in Hr. rewrite swrap_id; lia.
  - intros cells' i v _ Hcv' Hi Hv. rewrite Hcv in Hcv'. simplify_eq.
    by apply (lower_tiers_at l cells' (volt_nb_limits l)) in Hv.
Qed.

(** A change from the offset [old] to [off] reads the tiers of the tree again, under the new
    cap; without a change the tiers stay. *)
Definition tiers_follow (l l' : chg_limits) (old off last : Z) : Prop :=
  (old = off -> volt_limits l' = volt_limits l) /\
  (old <> off -> forall cells i v, cv_limits (volt_nb_limits l) = Some cells ->
     0 <= i < volt_nb_limits l -> at_ (volt_limits l') i = Ret v ->
     v = lowered cells (volt_nb_limits l) (last - off) i).

(** ** Choosing the offset *)

Section offset.
Context {D G : Type} `{!FuelGauge G}.
#[local] Abbreviation drv := (aacp_drv D G).

(** Offsets are in millivolt and leave a voltage. *)
Definition fits (room x : Z) : Prop := 0 <= x /\ x * 1000 <= room.

Record offsets_ok (v : aafv_config) (a : aafv_data) (room : Z) : Prop := {
  oo_max : fits room (av_max_offset v);
  oo_cliff : av_cliff_offset v * 1000 <= room;
  oo_table : aafv_nb_limits a = 0 \/
    (1 <= aafv_nb_limits a <= 16 /\ length (aafv_cycles a) = 16%nat /\
     length (aafv_offsets a) = 16%nat /\ Forall (fits room) (aafv_offsets a));
}.

(** The schedule in microvolt. *)
Inductive scheduled (d : drv) (cc : Z) : Z -> Prop :=
| sched_off : aafv_enabled (av_state (p_aafv d)) (p_opt_out d) = false -> scheduled d cc 0
| sched_max : aafv_enabled (av_state (p_aafv d)) (p_opt_out d) = true ->
    av_apply_max (p_aafv d) <> 0 -> scheduled d cc (av_max_offset (p_aafv d) * 1000)
| sched_cliff : aafv_enabled (av_state (p_aafv d)) (p_opt_out d) = true ->
    av_apply_max (p_aafv d) = 0 -> 0 <= av_cliff_offset (p_aafv d) ->
    0 <= ag_cliff_cycle (p_age d) <= cc -> scheduled d cc (av_cliff_offset (p_aafv d) * 1000)
| sched_none : aafv_enabled (av_state (p_aafv d)) (p_opt_out d) = true ->
    av_apply_max (p_aafv d) = 0 -> (aafv_nb_limits (aafv (p_profile d)) = 0 \/ cc < 0) ->
    scheduled d cc 0
| sched_table i o : aafv_enabled (av_state (p_aafv d)) (p_opt_out d) = true ->
    av_apply_max (p_aafv d) = 0 -> 0 <= cc -> 0 <= i < aafv_nb_limits (aafv (p_profile d)) ->
    (forall k c, 0 <= k < i -> at_ (aafv_cycles (aafv (p_profile d))) k = Ret c -> c <= cc) ->
    (forall c, i < aafv_nb_limits (aafv (p_profile d)) - 1 ->
       at_ (aafv_cycles (aafv (p_profile d))) i = Ret c -> cc < c) ->
    at_ (aafv_offsets (aafv (p_profile d))) i = Ret o -> scheduled d cc (o * 1000).

(** It does not depend on the lock. *)
Lemma scheduled_lock d b cc off : scheduled (set_lock d b) cc off -> scheduled d cc off.
Proof.
  intros Hs. destruct Hs as [He|He Hm|He Hm Hc Hcc|He Hm Hn|i o He Hm Hc Hi Hb Ha Ho].
  - exact (sched_off d cc He).
  - exact (sched_max d cc He Hm).
  - exact (sched_cliff d cc He Hm Hc Hcc).
  - exact (sched_none d cc He Hm Hn).
  - exact (sched_table d cc i o He Hm Hc Hi Hb Ha Ho).
Qed.

Lemma offset_read d cc room :
  offsets_ok (p_aafv d) (aafv (p_profile d)) room -> 0 <= room < 2 ^ 31 ->
  exists off, aafv_get_offset_by_cycles d cc = Ret off /\ scheduled d cc off /\ 0 <= off <= room.
Proof.
  intros [[Hm0 Hm] Hc Ht] Hl. unfold aafv_get_offset_by_cycles, GBMS_AAFV_VOLTAGE_OFFSET_SCALE.
  destruct (aafv_enabled _ _) eqn:En; cbn [negb]; [|exists 0; split_and!; [done|by apply sched_off|lia..]].
  destruct (Z.eqb_spec (av_apply_max (p_aafv d)) 0) as [E0|E0]; cbn [negb]; cycle 1.
  { run. rewrite wrap_id by lia. eexists; split_and!; [done|by apply sched_max|lia..]. }
  destruct (_ && _) eqn:Ec.
  { bool_to_prop. destruct Ec as [[? ?] ?]. run. rewrite wrap_id by lia.
    eexists; split_and!; [done|by apply sched_cliff|lia..]. }
  unfold gbms_aafv_get_offset. destruct Ht as [Hnb|(Hnb & Hlc & Hlo & Hall)].
  { rewrite Hnb. cbn [Z.eqb orb obind]. rewrite wrap_id by lia. eexists; split_and!; [done|by apply sched_none; [..|left]|lia..]. }
  rewrite (proj2 (Z.eqb_neq (aafv_nb_limits _) 0)) by lia. cbn [orb].
  destruct (Z.ltb_spec cc 0) as [Hneg|Hpos].
  { run. rewrite wrap_id by lia. eexists; split_and!; [done|by apply sched_none; [..|right]|lia..]. }
  destruct (cycle_idx_ok (aafv_cycles (aafv (p_profile d))) (aafv_nb_limits (aafv (p_profile d))) cc)
    as (i & -> & Hi & Hb & Ha); [lia|]. run.
  destruct (at_Some (aafv_offsets (aafv (p_profile d))) i) as [o Ho]; [lia|]. rewrite Ho. run.
  pose proof (at_Forall _ _ _ _ Hall Ho) as [Ho0 Hol]. rewrite swrap_id, wrap_id by lia.
  eexists; split_and!; [done|eapply sched_table; try done; lia|lia..].
Qed.

(** ** The update *)

(** Nothing but the tiers, the offset and the gauge changes. *)
Definition with_tiers (d : drv) (volts : list Z) (offset : Z) (g : G) : drv :=
  set_board (set_aged_profile d
    (with_limits (with_volt (volt_nb_limits (limits (p_profile d))) volts (limits (p_profile d)))
       (p_profile d)) offset) (p_soc d) g.

Lemma update_chg_profile_ok (d : drv) old last :
  tiers_ok (limits (p_profile d)) old last ->
  0 <= p_aafv_offset d <= last - low ->
  exists cells, cv_limits (volt_nb_limits (limits (p_profile d))) = Some cells /\
    aafv_update_chg_profile node d =
      Ret (set_chg_profile d (with_limits (with_volt (volt_nb_limits (limits (p_profile d)))
        (lower_tiers (limits (p_profile d)) cells (last - p_aafv_offset d)) (limits (p_profile d)))
        (p_profile d))) /\
    tiers_ok (with_volt (volt_nb_limits (limits (p_profile d)))
      (lower_tiers (limits (p_profile d)) cells (last - p_aafv_offset d)) (limits (p_profile d)))
      (p_aafv_offset d) last.
Proof.
  intros Ht Hoff. set (l := limits (p_profile d)) in *.
  assert (Hall : 1 <= volt_nb_limits l <= 10 /\ length (volt_limits l) = 10%nat /\
    (last_volt l = last /\ last < 2 ^ 31) /\ (0 <= low /\
    Forall (eq 0) (drop (Z.to_nat (volt_nb_limits l)) (volt_limits l))) /\ exists cells, cv_limits (volt_nb_limits l) = Some cells /\
    Forall (fun v => low <= v < 2 ^ 31) cells)
    by (destruct Ht as [? ? [? ?] ? ? [? ?] ? ?]; auto 10).
  destruct Hall as (Hn & Hlen & Hlast & [Hlow Hrest] & cells & Hcv & Hcells).
  pose proof (cv_limits_length _ _ Hcv) as Hcl.
  exists cells. split; [done|]. split; [|by apply lower_tiers_ok].
  unfold aafv_update_chg_profile. fold l. rewrite (read_tiers _ cells) by (done || lia). cbn [obind].
  assert (s32 (last_volt l - p_aafv_offset d) = last - p_aafv_offset d) as ->.
  { destruct Hlast as [-> ?]. apply swrap_id; lia. }
  set (vs := _ ++ drop _ _). assert (Hvs : length vs = 10%nat).
  { unfold vs. rewrite length_app, length_fmap, length_drop. lia. }
  destruct (at_Some vs (volt_nb_limits l - 1)) as [x ->]; [lia|]. cbn [obind Z.ltb Z.compare].
  rewrite clamp_volts_spec by (rewrite length_insert; lia). cbn [obind].
  do 4 f_equal. unfold lower_tiers. fold l.
  assert (Hins : <[Z.to_nat (volt_nb_limits l - 1) := last - p_aafv_offset d]> vs =
    <[Z.to_nat (volt_nb_limits l - 1) := last - p_aafv_offset d]> ((fun x => s32 x) <$> cells) ++
      drop (length cells) (volt_limits l)).
  { unfold vs. apply insert_app_l. rewrite length_fmap. lia. }
  rewrite Hins.
  replace (Z.to_nat (volt_nb_limits l)) with
    (length (<[Z.to_nat (volt_nb_limits l - 1) := last - p_aafv_offset d]> ((fun x => s32 x) <$> cells)))
    by (rewrite length_insert, length_fmap; lia).
  by rewrite take_app_length, drop_app_length.
Qed.

(** The offset becomes the scheduled one unless the gauge refuses it; either way no tier is
    above the last one less the offset. *)
Lemma update_offset_ok (d : drv) last :
  tiers_ok (limits (p_profile d)) (p_aafv_offset d) last ->
  offsets_ok (p_aafv d) (aafv (p_profile d)) (last - low) ->
  exists off volts offset g,
    aafv_update_offset node d = Ret (with_tiers d volts offset g) /\
    scheduled d (aacp_get_cc (p_age d)) off /\
    tiers_ok (limits (p_profile (with_tiers d volts offset g))) offset last /\
    ((forall v, (GPSY_SET_PROP AAFV_OFFSET v (p_gauge d)).1 = 0) -> offset = off /\
     tiers_follow (limits (p_profile d)) (limits (p_profile (with_tiers d volts offset g)))
       (p_aafv_offset d) off last).
Proof.
  intros Ht Ho. destruct (offset_read d (aacp_get_cc (p_age d)) (last - low) Ho) as (off & Eoff & Hs & Hr).
  { pose proof (to_offset _ _ _ Ht). pose proof (to_last _ _ _ Ht). lia. }
  unfold aafv_update_offset. rewrite Eoff. run.
  destruct (Z.eqb_spec (p_aafv_offset d) off) as [E|E].
  { exists off, (volt_limits (limits (p_profile d))), (p_aafv_offset d), (p_gauge d).
    split_and!; [|done| |intros _; split; [done|split; [done|by intros []]]].
    - destruct d as [[? [] ? ? ? ? ? ?]]. done.
    - destruct d as [[? [] ? ? ? ? ? ?]]. done. }
  destruct (GPSY_SET_PROP AAFV_OFFSET off (p_gauge d)) as [ret g] eqn:Eg.
  set (d1 := if ret =? 0 then _ else _).
  assert (Hp : p_profile d1 = p_profile d) by (unfold d1; by destruct (ret =? 0)).
  assert (Hoff : 0 <= p_aafv_offset d1 <= last - low).
  { unfold d1. pose proof (to_offset _ _ _ Ht). destruct (ret =? 0); cbn; lia. }
  destruct (update_chg_profile_ok d1 (p_aafv_offset d) last) as (cells & Hcv & Hu & Hok); [by rewrite Hp|done|].
  rewrite Hu. rewrite Hp in *.
  exists off, (lower_tiers (limits (p_profile d)) cells (last - p_aafv_offset d1)), (p_aafv_offset d1), g.
  split_and!; [|done|done|].
  - unfold d1. by destruct (ret =? 0).
  - intros Hacc. specialize (Hacc off). rewrite Eg in Hacc. cbn in Hacc.
    assert (E1 : p_aafv_offset d1 = off) by (unfold d1; by rewrite Hacc). split; [done|].
    split; [done|]. intros _ cells' i v Hcv' Hi Hv. rewrite Hcv in Hcv'. apply (inj Some) in Hcv' as <-.
    cbn in Hv. rewrite E1 in Hv.
    by apply (lower_tiers_at _ _ _ _ _ _ eq_refl (cv_limits_length _ _ Hcv) Hi) in Hv.
Qed.

End offset.
End tiers.
