(* ===== verification/AacpCount.v ===== *)
(** * Weighted cycles (src/bms/google_battery.c)

    AACC adds up a weight for every percent that is charged or discharged, by level and by the
    average temperature of the session, and keeps the count over a reboot. *)

From Stdlib Require Import String.
From S2P Require Import Prelude GbmsProfile GbmsLookup GbmsTables GbmsStorage StorageTable.
From S2P Require Import StorageContract StorageUse Eeprom Ssoc Bhi Aacp.

(** ** Signed sums *)

Lemma swrap_swrap_l x y : s32 (s32 x + y) = s32 (x + y).
Proof.
  unfold swrap. replace ((x + 2 ^ (32 - 1)) mod 2 ^ 32 - 2 ^ (32 - 1) + y + 2 ^ (32 - 1))
    with ((x + 2 ^ (32 - 1)) mod 2 ^ 32 + y) by lia.
  rewrite Zplus_mod_idemp_l. by replace (x + y + 2 ^ (32 - 1)) with (x + 2 ^ (32 - 1) + y) by lia.
Qed.

Lemma swrap_swrap x : s32 (s32 x) = s32 x.
Proof. apply swrap_id; [lia|]. by apply swrap_range. Qed.

(** ** A table of weights *)

(** No table, or [rows] rows of a hundred weights for the temperature ranges. *)
Record side_ok (rows : Z) (a : aacc_weight_profile) : Prop := {
  sk_len : length (aacc_temp_limits a) = 10%nat;
  sk_rows : 1 <= rows <= 9 /\ aacc_temp_nb_limits a <= 10 /\ aacc_temp_nb_limits a - 1 <= rows;
  sk_table t : aacc_weight_limits a = Some t -> rows * 100 <= Z.of_nat (length t);
}.

Definition side (p : gbms_chg_profile) (is_charge : bool) : aacc_weight_profile :=
  if is_charge then aacc_chg p else aacc_dsg p.

Lemma side_temp_idx_ok rows p temp is_charge :
  side_ok rows (side p is_charge) ->
  exists i, gbms_aacc_temp_idx p temp is_charge = Ret i /\ 0 <= i < rows.
Proof.
  intros [Hlen Hrows _]. unfold gbms_aacc_temp_idx. fold (side p is_charge).
  destruct (scan_table (Z.to_nat (aacc_temp_nb_limits (side p is_charge))) (aacc_temp_limits (side p is_charge)) 1
    (aacc_temp_nb_limits (side p is_charge) - 2) (fun t => t <=? temp)) as (i & -> & Hi & _); [lia..|].
  exists i. split; [done|]. lia.
Qed.

Definition weight (t : list Z) (ti soc : Z) : Z :=
  if 1 <=? soc then default 0 (t !! Z.to_nat (ti * 100 + (soc - 1))) else 0.

(** The weights of the [n] percents above [lo]. *)
Definition weights_above (t : list Z) (ti lo : Z) (n : nat) : Z :=
  foldr Z.add 0 (weight t ti <$> seqZ (lo + 1) (Z.of_nat n)).

Lemma weights_above_S t ti lo n :
  weights_above t ti lo (S n) = weight t ti (lo + 1) + weights_above t ti (lo + 1) n.
Proof.
  unfold weights_above. rewrite seqZ_cons by lia.
  replace (Z.succ (lo + 1)) with (lo + 1 + 1) by lia.
  by replace (Z.pred (Z.of_nat (S n))) with (Z.of_nat n) by lia.
Qed.

Lemma weights_above_0 t ti lo : weights_above t ti lo 0 = 0.
Proof. done. Qed.

(** A session may be cut anywhere. *)
Lemma weights_above_add t ti lo n m :
  weights_above t ti lo (n + m) = weights_above t ti lo n + weights_above t ti (lo + Z.of_nat n) m.
Proof.
  revert lo. induction n as [|n IH]; intros lo.
  - cbn [Nat.add]. replace (lo + Z.of_nat 0) with lo by lia. by rewrite weights_above_0.
  - cbn [Nat.add]. rewrite !weights_above_S, IH. replace (lo + 1 + Z.of_nat n) with (lo + Z.of_nat (S n)) by lia. lia.
Qed.

Lemma sum_weights_ok rows t ti n lo aaw :
  0 <= ti < rows -> rows * 100 <= Z.of_nat (length t) -> -1 <= lo -> lo + Z.of_nat n <= 100 ->
  aaw = s32 aaw ->
  sum_weights (Some t) ti n (lo + 1) aaw = Ret (s32 (aaw + weights_above t ti lo n)).
Proof.
  intros Hti Ht. revert lo aaw. induction n as [|n IH]; intros lo aaw Hlo Hn Ha; cbn [sum_weights].
  { by rewrite weights_above_0, Z.add_0_r, <- Ha. }
  assert (weight_at (Some t) ti (lo + 1) = Ret (weight t ti (lo + 1))) as ->.
  { unfold weight_at, weight, GBMS_AACC_SOC_SIZE. rewrite (proj2 (Z.leb_le 0 ti)) by lia. cbn [andb].
    case_test; [|done]. unfold deref. cbn [must obind].
    destruct (at_Some t (ti * 100 + (lo + 1 - 1))) as [x Hx]; [nia|].
    rewrite Hx. apply at_lookup in Hx as [_ Hx]. by rewrite Hx. }
  run. rewrite IH; [|lia|lia|by rewrite swrap_swrap].
  rewrite swrap_swrap_l, weights_above_S. do 2 f_equal. lia.
Qed.

(** ** The record *)

Lemma u32_bytes_stored x rest old : 0 <= x < 2 ^ 32 -> u32_stored (u32_bytes x ++ rest) old = x.
Proof.
  intros Hx. unfold u32_stored, u32_bytes. cbn [app]. change 0xff with (Z.ones 8).
  rewrite !Z.land_ones, !Z.shiftr_div_pow2 by lia.
  rewrite (Z.mod_small (x / 2 ^ 24)) by (split; [apply Z.div_pos; lia|apply Z.div_lt_upper_bound; lia]).
  replace (2 ^ 24) with (2 ^ 16 * 2 ^ 8) by lia. replace (2 ^ 16) with (2 ^ 8 * 2 ^ 8) by lia.
  rewrite <- !Z.div_div by lia.
  pose proof (Z.div_mod x (2 ^ 8)). pose proof (Z.div_mod (x / 2 ^ 8) (2 ^ 8)).
  pose proof (Z.div_mod (x / 2 ^ 8 / 2 ^ 8) (2 ^ 8)). lia.
Qed.

Section count.
Context {D G : Type} `{!FuelGauge G} (knows : nat -> Z -> bool) (sees : D -> Z -> list Z) (holds : D -> Prop).
#[local] Abbreviation drv := (aacp_drv D G).
#[local] Abbreviation ready := (ready knows sees holds).
#[local] Abbreviation only := (only sees).

(** The record of the count. *)
Definition stored_count (st : gbms_storage D) (n : Z) : Prop :=
  exists rest, sees (devices st) GBMS_TAG_AAWC = u32_bytes (u32 n) ++ rest.

Definition levels_ok (d : drv) : Prop :=
  0 <= p_soc d <= 100 /\ 0 <= ac_start_soc (p_cycles d) <= 100.

(** From which level up how many percents a session counts. *)
Definition session_from (d : drv) (is_charge : bool) : Z :=
  if is_charge then ac_start_soc (p_cycles d) else p_soc d.
Definition session_percents (d : drv) (is_charge : bool) : nat :=
  Z.to_nat (if is_charge then p_soc d - ac_start_soc (p_cycles d)
            else ac_start_soc (p_cycles d) - p_soc d).

(** What a session adds: nothing without a table or without a temperature, else the weights
    of its percents in the row of the average temperature. *)
Inductive session_adds (d : drv) (is_charge : bool) : Z -> Prop :=
| adds_no_table : aacc_weight_limits (side (p_profile d) is_charge) = None -> session_adds d is_charge 0
| adds_no_time : ac_time_sum (p_cycles d) = 0 -> session_adds d is_charge 0
| adds_weights t avg ti : aacc_weight_limits (side (p_profile d) is_charge) = Some t ->
    ac_time_sum (p_cycles d) <> 0 -> avg = cdiv (ac_temp_sum (p_cycles d)) (ac_time_sum (p_cycles d)) ->
    gbms_aacc_temp_idx (p_profile d) (s32 (s64 avg)) is_charge = Ret ti ->
    session_adds d is_charge
      (s32 (weights_above t ti (session_from d is_charge) (session_percents d is_charge))).

(** What is left of a session: a new one from the present level. *)
Definition counted_to (d : drv) (n end_soc : Z) (st : gbms_storage D) : drv :=
  set_cycles d (mk_cycles (p_soc d) end_soc n 0 0 (ac_last_update (p_cycles d))) st.

Lemma calculate_aaw_ok rows (d : drv) is_charge t ti c :
  side_ok rows (side (p_profile d) is_charge) -> levels_ok d -> 0 <= ti < rows ->
  aacc_weight_limits (side (p_profile d) is_charge) = Some t ->
  ac_start_soc c = ac_start_soc (p_cycles d) -> ac_end_soc c = p_soc d ->
  aacc_calculate_aaw (p_profile d) c ti is_charge =
    Ret (s32 (weights_above t ti (session_from d is_charge) (session_percents d is_charge))).
Proof.
  intros [_ _ Ht] [Hs Hst] Hti Hw Hc1 Hc2. unfold aacc_calculate_aaw. fold (side (p_profile d) is_charge).
  rewrite Hc1, Hc2, Hw. destruct (Z.eqb_spec (ac_start_soc (p_cycles d)) (p_soc d)) as [E|E].
  { unfold session_percents. rewrite E. by destruct is_charge; rewrite Z.sub_diag. }
  unfold session_from, session_percents. destruct is_charge; rewrite swrap_id by lia.
  - replace (Z.to_nat (p_soc d - (ac_start_soc (p_cycles d) + 1) + 1))
      with (Z.to_nat (p_soc d - ac_start_soc (p_cycles d))) by lia.
    destruct (Z.lt_ge_cases (p_soc d) (ac_start_soc (p_cycles d))).
    { by replace (Z.to_nat _) with 0%nat by lia. }
    rewrite (sum_weights_ok rows) by (auto || lia). by rewrite Z.add_0_l.
  - replace (Z.to_nat (ac_start_soc (p_cycles d) - (p_soc d + 1) + 1))
      with (Z.to_nat (ac_start_soc (p_cycles d) - p_soc d)) by lia.
    destruct (Z.lt_ge_cases (ac_start_soc (p_cycles d)) (p_soc d)).
    { by replace (Z.to_nat _) with 0%nat by lia. }
    rewrite (sum_weights_ok rows) by (auto || lia). by rewrite Z.add_0_l.
Qed.

(** The end of a session. *)
Lemma calculate_cc_ok rows (d : drv) is_charge :
  side_ok rows (side (p_profile d) is_charge) -> levels_ok d -> ready (p_store d) ->
  ac_aawc (p_cycles d) = s32 (ac_aawc (p_cycles d)) ->
  exists add end_soc st, __aacc_calculate_cc d is_charge =
      Ret (counted_to d (s32 (ac_aawc (p_cycles d) + add)) end_soc st) /\
    session_adds d is_charge add /\ ready st /\ only [GBMS_TAG_AAWC] (p_store d) st /\
    (stored_count st (s32 (ac_aawc (p_cycles d) + add)) \/ devices st = devices (p_store d) /\ add = 0 \/
     exists ret st', gbms_storage_write GBMS_TAG_AAWC
       (Some (u32_bytes (u32 (s32 (ac_aawc (p_cycles d) + add))))) 4 (p_store d) = Ret (ret, st') /\ ret < 0).
Proof.
  intros Hside Hl Hst Hn. unfold __aacc_calculate_cc. fold (side (p_profile d) is_charge).
  assert (Hsame : forall c, ac_aawc c = ac_aawc (p_cycles d) -> ac_last_update c = ac_last_update (p_cycles d) ->
    session_start (set_cycles d c (p_store d)) =
      counted_to d (s32 (ac_aawc (p_cycles d) + 0)) (ac_end_soc c) (p_store d)).
  { intros c Hc Hu. unfold session_start, counted_to. cbn. rewrite Hc, Hu, Z.add_0_r, <- Hn. done. }
  assert (Hstay : session_start d =
    counted_to d (s32 (ac_aawc (p_cycles d) + 0)) (ac_end_soc (p_cycles d)) (p_store d)).
  { unfold session_start, counted_to. by rewrite Z.add_0_r, <- Hn. }
  destruct (aacc_weight_limits (side (p_profile d) is_charge)) as [t|] eqn:Hw; cycle 1.
  { rewrite Hstay. eexists 0, _, _. split_and!; [done|by apply adds_no_table|done|done|by right; left]. }
  destruct (Z.eqb_spec (ac_time_sum (p_cycles d)) 0) as [E|E].
  { rewrite Hstay. eexists 0, _, _. split_and!; [done|by apply adds_no_time|done|done|by right; left]. }
  unfold quot_c. rewrite (proj2 (Z.eqb_neq _ 0) E). run.
  destruct (side_temp_idx_ok rows (p_profile d)
    (s32 (s64 (cdiv (ac_temp_sum (p_cycles d)) (ac_time_sum (p_cycles d))))) is_charge Hside) as (ti & Hti & Hr).
  rewrite Hti. run. set (c := mk_cycles _ _ _ _ _ _).
  change (p_profile (set_cycles d c (p_store d))) with (p_profile d).
  rewrite (calculate_aaw_ok rows d is_charge t ti c) by done. run.
  set (aaw := s32 _).
  assert (Hadds : session_adds d is_charge aaw) by (by eapply adds_weights).
  destruct (Z.eqb_spec aaw 0) as [E0|E0].
  { rewrite E0 in *. rewrite (Hsame c) by done.
    eexists 0, _, _. split_and!; [done|done|done|done|by right; left]. }
  cbn [p_store set_cycles].
  destruct (write_ready knows sees holds (p_store d) GBMS_TAG_AAWC (u32_bytes (u32 (s32 (ac_aawc c + aaw)))) 4 Hst)
    as (ret & st & Ew & Hrd & Hon & Hnew); [done|]. rewrite Ew. run.
  exists aaw, (p_soc d), st. split_and!; [done|done|done|done|].
  destruct (Z.lt_ge_cases ret 0) as [Hneg|Hpos]; [right; right; by exists ret, st|]. left.
  unfold stored_count. rewrite (Hnew Hpos). by eexists.
Qed.

(** ** Over a reboot *)

Context `{!DeviceTree} `{!DeviceTreeLaws}.

Lemma read_weights_ok temp weights alloc a node :
  length (aacc_temp_limits a) = 10%nat ->
  exists r a', read_aacc_weights temp weights alloc a node = Ret (r, a').
Proof.
  intros Hlen. unfold read_aacc_weights, GBMS_AACC_TEMP_NB_MAX, GBMS_AACC_SOC_SIZE.
  destruct (node =? 0); [by eauto|]. set (n := of_property_count_elems node temp). cbn [aacc_temp_limits].
  destruct (Z.leb_spec n 0); [by eauto|]. destruct (Z.ltb_spec 10 n); [by eauto|].
  destruct (read_s32_ok node temp n (aacc_temp_limits a)) as (r & l & -> & _); [lia|]. run.
  destruct (r <? 0); [by eauto|]. destruct alloc; cbn [negb]; [|by eauto].
  destruct (read_u32_ok node weights ((n - 1) * 100) (replicate (Z.to_nat ((n - 1) * 100)) 0))
    as (r2 & w & -> & _); [rewrite length_replicate; lia|]. run.
  destruct (r2 <? 0); by eauto.
Qed.

(** A start with the storage that was left behind. *)
Lemma init_restores node a1 a2 junk (d0 : drv) n :
  length (aacc_temp_limits (aacc_chg (p_profile d0))) = 10%nat ->
  length (aacc_temp_limits (aacc_dsg (p_profile d0))) = 10%nat ->
  ready (p_store d0) -> stored_count (p_store d0) n -> 0 <= n < 2 ^ 31 ->
  exists ret d1, batt_init_aacc_profile node a1 a2 junk d0 = Ret (ret, d1) /\
    (ret = 0 -> aacc_is_supported (p_profile d1) = true -> ac_aawc (p_cycles d1) = n).
Proof.
  intros Hc Hd Hst [rest Hn] Hr. unfold batt_init_aacc_profile, gbms_read_aacc_chg_weights, gbms_read_aacc_dsg_weights.
  destruct (read_weights_ok "google,aacc-chg-temp" "google,aacc-chg-weights" a1 _ (gbms_batt_id_node node) Hc)
    as (r1 & w1 & ->). run. cbn [aacc_dsg with_aacc_chg].
  destruct (read_weights_ok "google,aacc-dsg-temp" "google,aacc-dsg-weights" a2 _ (gbms_batt_id_node node) Hd)
    as (r2 & w2 & ->). run.
  set (d1 := set_chg_profile d0 _). destruct (aacc_is_supported (p_profile d1)) eqn:Es; cbn [negb]; cycle 1.
  { eexists _, _. split; [done|]. intros _. by rewrite Es. }
  change (p_store d1) with (p_store d0).
  destruct (read_ready knows sees holds (p_store d0) GBMS_TAG_AAWC 4 Hst) as (ret & b & st & -> & _ & _ & Hb).
  run. destruct (Z.ltb_spec ret 0) as [Hneg|Hpos].
  { eexists _, _. split; [done|]. by vm_compute. }
  eexists _, _. split; [done|]. intros _ _. cbn [p_cycles set_cycles ac_aawc].
  rewrite (Hb Hpos), Hn, u32_bytes_stored by (by apply wrap_range). rewrite wrap_id by lia.
  rewrite (proj2 (Z.eqb_neq n U32_MAX)) by (unfold U32_MAX; lia). apply swrap_id; lia.
Qed.

(** C40. The weighted count of cycles is exact and survives a reboot. When a charging or
    discharging session ends, the count grows by the weights of the percents between its
    levels, in the row of its average temperature, and a new session begins at the present
    level; if the storage took the write, it holds the count, and the next start continues
    from it. The count does not overflow an int, what is stored is the present count, levels
    are within 0..100, and the limits of the table fit its rows ([side_ok]). *)
Theorem weighted_count_survives_reboot rows node (d : drv) is_charge :
  side_ok rows (side (p_profile d) is_charge) -> levels_ok d -> ready (p_store d) ->
  0 <= ac_aawc (p_cycles d) < 2 ^ 31 -> stored_count (p_store d) (ac_aawc (p_cycles d)) ->
  (forall add, session_adds d is_charge add -> 0 <= add < 2 ^ 31 - ac_aawc (p_cycles d)) ->
  exists add d', __aacc_calculate_cc d is_charge = Ret d' /\ session_adds d is_charge add /\
    ac_aawc (p_cycles d') = ac_aawc (p_cycles d) + add /\
    ac_start_soc (p_cycles d') = p_soc d /\ ac_temp_sum (p_cycles d') = 0 /\ ac_time_sum (p_cycles d') = 0 /\
    ((forall ret st, gbms_storage_write GBMS_TAG_AAWC (Some (u32_bytes (u32 (ac_aawc (p_cycles d'))))) 4
        (p_store d) = Ret (ret, st) -> 0 <= ret) ->
     forall a1 a2 junk (d0 : drv),
       length (aacc_temp_limits (aacc_chg (p_profile d0))) = 10%nat ->
       length (aacc_temp_limits (aacc_dsg (p_profile d0))) = 10%nat -> p_store d0 = p_store d' ->
       exists ret (d1 : drv), batt_init_aacc_profile node a1 a2 junk d0 = Ret (ret, d1) /\
         (ret = 0 -> aacc_is_supported (p_profile d1) = true ->
          ac_aawc (p_cycles d1) = ac_aawc (p_cycles d'))).
Proof.
  intros Hside Hl Hst Hn Hrec Hfits.
  destruct (calculate_cc_ok rows d is_charge Hside Hl Hst) as (add & e & st & E & Hadd & Hst' & Hon & Hs);
    [rewrite swrap_id; lia|]. specialize (Hfits add Hadd). rewrite swrap_id in E, Hs by lia.
  eexists add, _. split_and!; [exact E|done|done..|]. intros Hwr a1 a2 junk d0 Hc Hd Hd0.
  apply init_restores; [done..| | |]; [by rewrite Hd0|rewrite Hd0; cbn|cbn; lia].
  destruct Hs as [|[[Hdev ->]|(ret & st' & Hw & Hneg)]]; [done| |specialize (Hwr _ _ Hw); lia].
  unfold stored_count in *. by rewrite Hdev, Z.add_0_r.
Qed.
End count.
