(* ===== verification/AacpRun.v ===== *)
(** * Age adjusted profiles: runs (src/bms/google_battery.c)

    What happens to the profiles as events in any order, on boards without a second table
    (AACT), and the invariant of all of them. *)

From Stdlib Require Import String.
From S2P Require Import Prelude GbmsProfile GbmsLookup GbmsTables GbmsStorage StorageTable.
From S2P Require Import StorageContract StorageUse Eeprom Ssoc Bhi.
From S2P Require Import Aacp AacpStore AacpFade AacpTiers AacpCount.

(** ** Events *)

Inductive aacp_event (G : Type) :=
| EvLevel (soc : Z)
| EvGauge (g : G)
| EvCycles (n : Z)
| EvFakeCycles (n : Z)
| EvPoll (now : Z)
| EvConnect (m : allocs)
| EvDisconnect
| EvAacrState (junk : Z) (val : Z + Z)
| EvAacrGrace (val : Z + Z)
| EvAacrMax (val : Z + Z)
| EvAacrMinRate (val : Z + Z)
| EvAacrCliffRate (val : Z + Z)
| EvAacrProfile (scan : list Z)
| EvAafvState (val : Z + Z)
| EvAafvApplyMax (val : Z + Z)
| EvAafvMaxOffset (val : Z + Z)
| EvAafvCliffCycle (val : Z + Z)
| EvAafvCliffOffset (val : Z + Z)
| EvAafvProfile (scan : list Z)
| EvOptOut (val : Z + Z)
| EvCutoff (val : Z + Z)
| EvAaccTemps (is_charge : bool) (scan : list Z)
| EvAaccProfile (is_charge : bool) (scan : list Z)
| EvAaccReset (val : Z + Z).
Arguments EvLevel {G} _. Arguments EvGauge {G} _. Arguments EvCycles {G} _.
Arguments EvFakeCycles {G} _. Arguments EvPoll {G} _. Arguments EvConnect {G} _.
Arguments EvDisconnect {G}. Arguments EvAacrState {G} _ _. Arguments EvAacrGrace {G} _.
Arguments EvAacrMax {G} _. Arguments EvAacrMinRate {G} _. Arguments EvAacrCliffRate {G} _.
Arguments EvAacrProfile {G} _. Arguments EvAafvState {G} _. Arguments EvAafvApplyMax {G} _.
Arguments EvAafvMaxOffset {G} _. Arguments EvAafvCliffCycle {G} _.
Arguments EvAafvCliffOffset {G} _. Arguments EvAafvProfile {G} _. Arguments EvOptOut {G} _.
Arguments EvCutoff {G} _. Arguments EvAaccTemps {G} _ _. Arguments EvAaccProfile {G} _ _.
Arguments EvAaccReset {G} _.

Section run.
Context {D G : Type} `{!FuelGauge G} `{!DeviceTree} (node count : Z).
#[local] Abbreviation drv := (aacp_drv D G).

Definition fake_cycles (d : drv) (n : Z) : drv :=
  let a := p_age d in
  set_wear d (p_cycle_count d)
    (mk_age n (ag_aacc a) (ag_cut_off_cycles a) (ag_over_cliff a) (ag_over_cutoff a)
       (ag_last_entry a) (ag_cliff_cycle a)).

(** What a request returns goes to user space. *)
Definition request (r : outcome (Z * drv)) : outcome drv := let* r := r in Ret r.2.

Definition aacp_step (e : aacp_event G) (d : drv) : outcome drv :=
  match e with
  | EvLevel soc => Ret (set_board d soc (p_gauge d))
  | EvGauge g => Ret (set_board d (p_soc d) g)
  | EvCycles n => Ret (set_wear d n (p_age d))
  | EvFakeCycles n => Ret (fake_cycles d n)
  | EvPoll now => Ret (aacc_update_temp_stats now d).2
  | EvConnect m => aacp_connect node m d
  | EvDisconnect => aacp_disconnect d
  | EvAacrState junk val => request (aacr_state_store node count junk val d)
  | EvAacrGrace val => request (aacr_cycle_grace_store count val d)
  | EvAacrMax val => request (aacr_cycle_max_store count val d)
  | EvAacrMinRate val => request (aacr_min_capacity_rate_store count val d)
  | EvAacrCliffRate val => request (aacr_cliff_capacity_rate_store count val d)
  | EvAacrProfile scan => request (aacr_profile_store count scan d)
  | EvAafvState val => request (aafv_state_store node count val d)
  | EvAafvApplyMax val => request (aafv_apply_max_store count val d)
  | EvAafvMaxOffset val => request (aafv_max_offset_store count val d)
  | EvAafvCliffCycle val => request (aafv_cliff_cycle_store count val d)
  | EvAafvCliffOffset val => request (aafv_cliff_offset_store count val d)
  | EvAafvProfile scan => request (aafv_profile_store count scan d)
  | EvOptOut val => request (aacp_opt_out_store node count val d)
  | EvCutoff val => request (aacp_opt_out_cutoff_cycles_store count val d)
  | EvAaccTemps is_charge scan => request (aacc_temp_limits_store count is_charge scan d)
  | EvAaccProfile is_charge scan => request (aacc_profile_store count is_charge scan d)
  | EvAaccReset val => request (debug_reset_aacc_weights_cycles count val d)
  end.

Fixpoint aacp_run (es : list (aacp_event G)) (d : drv) : outcome drv :=
  match es with
  | [] => Ret d
  | e :: es => let* d := aacp_step e d in aacp_run es d
  end.

(** ** Events that make sense

    [last] is the voltage of the last tier, [low] the lowest of any, [cap] the capacity of the
    design, [floor] the least that is charged for, [rows] the temperature ranges of the weights. *)

Definition on_int (val : Z + Z) (P : Z -> Prop) : Prop :=
  match val with inl _ => True | inr v => - 2 ^ 31 <= v < 2 ^ 31 /\ P v end.

Definition event_ok (last low cap floor rows : Z) (e : aacp_event G) : Prop :=
  match e with
  | EvLevel soc => 0 <= soc <= 100
  | EvCycles n | EvFakeCycles n => n < 2 ^ 15
  | EvAacrState junk val =>
    (floor = 0 \/ junk <> BATT_AACR_ALGO_REFERENCE_CAP) /\
    on_int val (fun v => v <= BATT_AACR_ALGO_LOW_B /\ (floor = 0 \/ v <> BATT_AACR_ALGO_REFERENCE_CAP))
  | EvAacrMinRate val => on_int val (fun v => 0 < v <= 100 -> floor <= rate_of cap v / 50 * 50)
  | EvAacrCliffRate val => on_int val (fun v => 0 < v <= 100 -> floor <= rate_of cap v)
  | EvAacrProfile scan =>
    forall n, count_points (scan_cells scan 1 2 10) (scan_cells scan 2 2 10) 9 0 = Some n ->
      fade_ok (mk_aacr (scan_cells scan 1 2 10) (scan_cells scan 2 2 10) (Z.of_nat n + 1))
  | EvAafvMaxOffset val => on_int val (fun v => v * 1000 <= last - low)
  | EvAafvProfile scan => (length scan <= 33)%nat /\ Forall (fun v => 0 <= v < 2 ^ 32) (drop 1 scan)
  | EvAaccTemps _ scan => (length scan <= 10)%nat /\ Z.of_nat (length scan) - 1 <= rows
  | EvAaccProfile _ scan => 0 <= scanned scan 1 < rows
  | EvAacrGrace val | EvAacrMax val
  | EvAafvState val | EvAafvApplyMax val | EvAafvCliffCycle val | EvAafvCliffOffset val
  | EvOptOut val | EvCutoff val | EvAaccReset val => on_int val (fun _ => True)
  | EvGauge _ | EvPoll _ | EvConnect _ | EvDisconnect => True
  end.

(** ** The invariant *)

Section invariant.
Context (knows : nat -> Z -> bool) (sees : D -> Z -> list Z) (holds : D -> Prop) (p0 : gbms_chg_profile).
Context (last low cap floor rows : Z).
#[local] Abbreviation ready := (ready knows sees holds).

(** What aging leaves as the start has read it. *)
Record same_board (p : gbms_chg_profile) : Prop := {
  sb_behavior : behavior p = behavior p0;
  sb_aact : aact p = aact p0;
  sb_temps : temp_nb_limits (limits p) = temp_nb_limits (limits p0) /\
    temp_limits (limits p) = temp_limits (limits p0);
  sb_volts : volt_nb_limits (limits p) = volt_nb_limits (limits p0);
  sb_topoff : topoff_limits (limits p) = topoff_limits (limits p0);
}.

(** The C rates of the device tree. *)
Definition rates : Z + list Z :=
  of_property_read_u32_array node "google,chg-cc-limits"
    ((temp_nb_limits (limits p0) - 1) * volt_nb_limits (limits p0)).

(** A charge table of a board without AACT: the rates of the tree for the capacity. *)
Record table_ok (p : gbms_chg_profile) : Prop := {
  tk_limits : wf_limits (limits p);
  tk_board : same_board p;
  tk_aact : aact_init_profile (aact p) = false;
  tk_two : 2 <= volt_nb_limits (limits p) \/ low = 0;
  tk_capacity : floor <= capacity_ma (limits p) <= cap;
  tk_cells : exists cells, rates = inr cells /\
    cccm_limits (limits p) =
      Some (cell_current (s32 (cc_ua_resolution (behavior p))) (capacity_ma (limits p)) <$> cells);
}.

(** [held]: whether the lock is. *)
Record aacp_ok (held : bool) (d : drv) : Prop := {
  ok_lock : p_lock d = held;
  ok_state : p_aact_state d = BATT_AA_UNKNOWN;
  ok_table : table_ok (p_profile d);
  ok_design : p_capacity d = cap;
  ok_tiers : tiers_ok node low (limits (p_profile d)) (p_aafv_offset d) last;
  ok_fades : fades d;
  ok_floor : floor_ok cap floor (p_aacr d);
  ok_offsets : offsets_ok (p_aafv d) (aafv (p_profile d)) (last - low);
  ok_chg : side_ok rows (aacc_chg (p_profile d));
  ok_dsg : side_ok rows (aacc_dsg (p_profile d));
  ok_levels : levels_ok d;
  ok_count : ac_aawc (p_cycles d) = s32 (ac_aawc (p_cycles d));
  ok_store : ready (p_store d);
  ok_cycles : p_cycle_count d < 2 ^ 15;
  ok_aacc : ag_aacc (p_age d) < 2 ^ 15;
  ok_fake : ag_fake_aacp_cc (p_age d) < 2 ^ 15;
}.

Lemma age_range held d : aacp_ok held d -> aacp_get_cc (p_age d) < 2 ^ 15.
Proof. intros Hd. unfold aacp_get_cc. destruct (negb _); apply Hd. Qed.

(** ** The parts *)

Context `{!DeviceTreeLaws}.

Lemma init_chg_table_ok p c :
  table_ok p -> floor <= c <= cap ->
  exists cells, gbms_init_chg_table p node c =
      Ret (with_limits (with_cccm (Some cells) (with_capacity c (limits p))) p) /\
    table_ok (with_limits (with_cccm (Some cells) (with_capacity c (limits p))) p).
Proof.
  intros [Hw Hb Ha Ht Hcap (cells & Hr & Hc)] Hc0. pose proof Hw as [Hnt Hlt Hnv Hlv (t & Hct & Hlen)].
  unfold GBMS_CHG_TEMP_NB_LIMITS_MAX, GBMS_CHG_VOLT_NB_LIMITS_MAX in *.
  pose proof Hb as [_ _ [Hn0 _] Hv0 _]. unfold rates in Hr. rewrite <- Hn0, <- Hv0 in Hr.
  pose proof (read_length _ _ _ _ Hr) as Hcl. rewrite Hct in Hc. apply (inj Some) in Hc.
  unfold gbms_init_chg_table.
  rewrite Ha. cbn [with_capacity cccm_limits temp_nb_limits volt_nb_limits andb negb]. rewrite Hct. run.
  unfold read_u32. rewrite (wrap_id 32) by nia. rewrite Hr. unfold fill.
  rewrite (proj2 (Nat.ltb_ge _ _)) by lia. run. rewrite drop_ge, app_nil_r by lia.
  rewrite init_rows_spec by nia. run. eexists. split; [done|].
  replace (Z.to_nat (0 * volt_nb_limits (limits p))) with 0%nat by lia.
  replace (Z.to_nat (temp_nb_limits (limits p) - 1) * Z.to_nat (volt_nb_limits (limits p)))%nat
    with (length cells) by nia.
  rewrite map_range_all. split; cbn; try done.
  - split; cbn; try done. eexists. split; [done|]. rewrite length_fmap. lia.
  - by destruct Hb.
  - exists cells. unfold rates. rewrite <- Hn0, <- Hv0. done.
Qed.

(** Whatever the gauge says, the capacity is no more than that of the design. *)
Lemma capacity_ret (d : drv) c :
  fades d -> floor_ok (p_capacity d) floor (p_aacr d) -> c < 2 ^ 15 ->
  exists v, aacr_get_capacity_at_cycle d c = Ret v /\ v <= p_capacity d /\ (0 <= v -> floor <= v).
Proof.
  intros Hd Hfl Hc. destruct (Z.lt_ge_cases (GPSY_GET_PROP CHARGE_FULL (p_gauge d)) 0) as [Hneg|Hpos]; cycle 1.
  { destruct (capacity_at_cycle_ok d c Hd Hpos Hc) as (v & -> & Hv). exists v. split; [done|].
    pose proof (aged_range d c v Hd Hpos Hv). pose proof (aged_floor d c v floor Hd Hpos Hfl Hv). lia. }
  pose proof Hd as [[Hg Hm Hmin Hcl] Ht Hcap]. pose proof Hfl as [Hr _ Hfc Hfa]. unfold aacr_get_capacity_at_cycle.
  rewrite (swrap_id 32 (p_capacity d)) by lia. case_test; [eexists; split; [done|lia]|]. unfold aacr_get_capacity_for_algo.
  destruct (rate_read _ _ Hcap Hcl) as [-> Hrc]. rewrite (swrap_id 32 (p_capacity d)) by lia.
  destruct (_ && _) eqn:Ec; [exists (rate_of (p_capacity d) (ar_cliff_rate (p_aacr d))); split; [done|lia]|].
  destruct (reference_mono d c c) as (f & _ & [Hf Hfr] & _); [done|lia..| |].
  { apply andb_false_iff in Ec as [Ec|Ec]; bool_to_prop; lia. }
  rewrite Hf. run. pose proof (left_range d f Hcap Hfr) as Hl. fold (capacity_left d f).
  assert (s32 (u32 (capacity_left d f)) = capacity_left d f) as ->.
  { unfold swrap, wrap. rewrite Zplus_mod_idemp_l. rewrite Z.mod_small by lia. lia. }
  case_test; [eexists; split; [done|lia]|].
  destruct (Z.eqb_spec (ar_algo (p_aacr d)) BATT_AACR_ALGO_REFERENCE_CAP).
  { eexists; split; [done|]. destruct Hfa as [->|]; [lia|done]. }
  rewrite (proj2 (Z.ltb_lt _ 0) Hneg). eexists. split; [done|]. lia.
Qed.

(** At most the phase changes. *)
Definition phase_of (d d' : drv) : Prop := d' = d \/ exists ph, d' = set_phase d ph.

Lemma capacity_locked_ok (d : drv) :
  fades d -> floor_ok (p_capacity d) floor (p_aacr d) -> aacp_get_cc (p_age d) < 2 ^ 15 ->
  exists c d', aacr_get_capacity_locked d = Ret (c, d') /\ floor <= c <= p_capacity d /\ phase_of d d'.
Proof.
  intros Hd Hfl Hc. pose proof (fd_capacity d Hd) as Hcap. pose proof (fl_range _ _ _ Hfl) as Hf. unfold aacr_get_capacity_locked.
  assert (Hdes : u32 (s32 (p_capacity d)) = p_capacity d) by (rewrite swrap_id, wrap_id; lia). rewrite Hdes.
  destruct (negb _); [eexists _, _; split_and!; [done|lia|lia|by left]|].
  case_test; [eexists _, _; split_and!; [done|lia|lia|right; by eexists]|].
  destruct (capacity_ret d _ Hd Hfl Hc) as (v & -> & Hv & Hfv). run.
  destruct (Z.ltb_spec v 0); (eexists _, _; split_and!; [done|try lia..|right; by eexists]);
    rewrite wrap_id by lia; lia.
Qed.

(** ** Each change keeps the invariant *)

#[local] Ltac same Hd := destruct Hd; split; cbn; try done.

Lemma set_lock_ok h h' d : aacp_ok h d -> aacp_ok h' (set_lock d h').
Proof. intros Hd. same Hd. by destruct ok_fades0. Qed.

Lemma set_aacr_ok h d r : aacp_ok h d -> aacr_ok r -> floor_ok cap floor r -> aacp_ok h (set_aacr d r).
Proof. intros Hd Hr Hf. same Hd. by destruct ok_fades0. Qed.

Lemma set_aafv_ok h d v :
  aacp_ok h d -> offsets_ok v (aafv (p_profile d)) (last - low) -> aacp_ok h (set_aafv d v).
Proof. intros Hd Hv. same Hd. by destruct ok_fades0. Qed.

Lemma set_opt_out_ok h d o : aacp_ok h d -> aacp_ok h (set_opt_out d o).
Proof. intros Hd. same Hd. by destruct ok_fades0. Qed.

Lemma set_wear_ok h d n a :
  aacp_ok h d -> n < 2 ^ 15 -> ag_aacc a < 2 ^ 15 -> ag_fake_aacp_cc a < 2 ^ 15 -> aacp_ok h (set_wear d n a).
Proof. intros Hd Hn Ha Hf. same Hd. by destruct ok_fades0. Qed.

Lemma set_board_ok h d soc g : aacp_ok h d -> 0 <= soc <= 100 -> aacp_ok h (set_board d soc g).
Proof. intros Hd Hs. same Hd; [by destruct ok_fades0|]. by destruct ok_levels0. Qed.

Lemma set_cycles_ok h d c st :
  aacp_ok h d -> 0 <= ac_start_soc c <= 100 -> ac_aawc c = s32 (ac_aawc c) -> ready st ->
  aacp_ok h (set_cycles d c st).
Proof. intros Hd Hs Hn Hst. same Hd; [by destruct ok_fades0|]. by destruct ok_levels0. Qed.

(** A profile with other tables for AACR, AAFV and AACC. *)
Lemma set_profile_ok h d p :
  aacp_ok h d -> limits p = limits (p_profile d) -> aact p = aact (p_profile d) ->
  behavior p = behavior (p_profile d) ->
  fade_ok (aacr p) -> offsets_ok (p_aafv d) (aafv p) (last - low) ->
  side_ok rows (aacc_chg p) -> side_ok rows (aacc_dsg p) -> aacp_ok h (set_chg_profile d p).
Proof.
  intros Hd Hl Ha Hb Hf Ho Hc Hs. same Hd; try (by rewrite Hl).
  - destruct ok_table0 as [? [] ? ? ? ?]. split; rewrite ?Hl, ?Ha, ?Hb; try done.
    split; rewrite ?Hl, ?Ha, ?Hb; done.
  - by destruct ok_fades0.
Qed.

Lemma phase_of_ok h d d' : aacp_ok h d -> phase_of d d' -> aacp_ok h d'.
Proof.
  intros Hd [->|[ph ->]]; [done|]. apply set_aacr_ok; [done|..].
  - by destruct (fd_aacr _ (ok_fades _ _ Hd)).
  - by destruct (ok_floor _ _ Hd).
Qed.

(** The tiers and the offset stay. *)
Definition same_tiers (d d' : drv) : Prop :=
  p_aafv_offset d' = p_aafv_offset d /\
  volt_limits (limits (p_profile d')) = volt_limits (limits (p_profile d)) /\
  volt_nb_limits (limits (p_profile d')) = volt_nb_limits (limits (p_profile d)).

Lemma update_chg_table_ok h d :
  aacp_ok h d -> exists d', aacr_update_chg_table node d = Ret d' /\ aacp_ok h d' /\ same_tiers d d'.
Proof.
  intros Hd. unfold aacr_update_chg_table.
  pose proof (ok_floor _ _ Hd) as Hfl. rewrite <- (ok_design _ _ Hd) in Hfl.
  destruct (capacity_locked_ok d (ok_fades _ _ Hd) Hfl (age_range _ _ Hd)) as (c & d1 & -> & Hc & Hph). run.
  pose proof (phase_of_ok _ _ _ Hd Hph) as Hd1.
  assert (Hp : p_profile d1 = p_profile d /\ p_capacity d1 = p_capacity d /\ p_aafv_offset d1 = p_aafv_offset d)
    by (destruct Hph as [->|[ph ->]]; done).
  destruct Hp as (Hp & Hcap & Hoff).
  destruct (c =? _); [exists d1; by unfold same_tiers; rewrite Hp, Hoff|].
  rewrite (ok_design _ _ Hd) in Hc.
  destruct (init_chg_table_ok (p_profile d1) c (ok_table _ _ Hd1) Hc) as (t & -> & Ht'). run.
  eexists. split; [done|]. split; [|unfold same_tiers; cbn; by rewrite Hp, Hoff].
  same Hd1.
  - by destruct ok_tiers0.
  - by destruct ok_fades0.
Qed.

Lemma update_aafv_ok h d :
  aacp_ok h d ->
  exists off d', aafv_update_offset node d = Ret d' /\ aacp_ok h d' /\
    scheduled d (aacp_get_cc (p_age d)) off /\
    ((forall v, (GPSY_SET_PROP AAFV_OFFSET v (p_gauge d)).1 = 0) -> p_aafv_offset d' = off /\
     tiers_follow node (limits (p_profile d)) (limits (p_profile d')) (p_aafv_offset d) off last).
Proof.
  intros Hd. destruct (update_offset_ok node low d last (ok_tiers _ _ Hd) (ok_offsets _ _ Hd))
    as (off & volts & offset & g & Hu & Hs & Ht & Ho).
  exists off, (with_tiers d volts offset g). split_and!; [done| |done|done].
  same Hd.
  - destruct ok_table0 as [[] [] ? ? ? ?]. split; cbn; try done; split; cbn; try done. by destruct Ht.
  - by destruct ok_fades0.
Qed.

Lemma calculate_ok h d is_charge :
  aacp_ok h d -> exists d', __aacc_calculate_cc d is_charge = Ret d' /\ aacp_ok h d' /\ same_tiers d d'.
Proof.
  intros Hd. assert (Hside : side_ok rows (side (p_profile d) is_charge)) by (destruct is_charge; apply Hd).
  destruct (calculate_cc_ok knows sees holds rows d is_charge Hside (ok_levels _ _ Hd) (ok_store _ _ Hd)
    (ok_count _ _ Hd)) as (add & e & st & -> & _ & Hst & _).
  eexists. split; [done|]. split; [|done].
  apply set_cycles_ok; [done|apply Hd|by cbn; rewrite swrap_swrap|done].
Qed.

(** ** Requests *)

(** A request returns and keeps the invariant. *)
Definition answers (r : outcome (Z * drv)) : Prop :=
  exists ret d', r = Ret (ret, d') /\ aacp_ok false d'.

Lemma answers_ret ret d : aacp_ok false d -> answers (Ret (ret, d)).
Proof. intros Hd. by exists ret, d. Qed.

Lemma locked_ok d k :
  aacp_ok false d -> (forall d, aacp_ok true d -> exists d', k d = Ret d' /\ aacp_ok true d') ->
  answers (locked count d k).
Proof.
  intros Hd Hk. unfold locked, mutex_lock. rewrite (ok_lock _ _ Hd). run.
  destruct (Hk (set_lock d true) (set_lock_ok _ _ _ Hd)) as (d' & -> & Hd'). run.
  apply answers_ret. by apply (set_lock_ok true).
Qed.

Lemma with_int_ok val d k :
  aacp_ok false d -> (forall v, val = inr v -> answers (k v)) -> answers (with_int val d k).
Proof. intros Hd Hk. destruct val as [e|v]; [by apply answers_ret|by apply Hk]. Qed.

(** Goes on with the driver under the lock. *)
#[local] Ltac on_lock Hd :=
  apply locked_ok; [done|];
  match type of Hd with aacp_ok _ ?d0 => clear dependent d0; let d1 := fresh d0 in intros d1 Hd; rename d1 into d0 end; cbv beta zeta.

Lemma aacr_range_ok h d g m :
  aacp_ok h d -> 0 <= g < 2 ^ 31 -> 0 <= m < 2 ^ 15 -> aacp_ok h (set_aacr_range d g m).
Proof.
  intros Hd Hg Hm. apply set_aacr_ok; [done|..].
  - by destruct (fd_aacr _ (ok_fades _ _ Hd)).
  - by destruct (ok_floor _ _ Hd).
Qed.

Lemma aacr_rates_ok h d a b :
  aacp_ok h d -> 0 <= a <= 100 -> 0 <= b <= 100 ->
  floor <= rate_of cap a / 50 * 50 -> floor <= rate_of cap b -> aacp_ok h (set_aacr_rates d a b).
Proof.
  intros Hd Ha Hb Hfa Hfb. apply set_aacr_ok; [done|..].
  - by destruct (fd_aacr _ (ok_fades _ _ Hd)).
  - by destruct (ok_floor _ _ Hd).
Qed.

Lemma grace_store_ok val d :
  aacp_ok false d -> on_int val (fun _ => True) -> answers (aacr_cycle_grace_store count val d).
Proof.
  intros Hd Hv. apply with_int_ok; [done|]. intros v ->. destruct Hv as [Hv _].
  case_test; [by apply answers_ret|]. on_lock Hd.
  eexists. split; [done|]. apply aacr_range_ok; [done|lia|]. apply (fd_aacr _ (ok_fades _ _ Hd)).
Qed.

Lemma max_store_ok val d : aacp_ok false d -> answers (aacr_cycle_max_store count val d).
Proof.
  intros Hd. apply with_int_ok; [done|]. intros v _.
  destruct (_ || _) eqn:E; [by apply answers_ret|]. bool_to_prop. on_lock Hd.
  eexists. split; [done|]. apply aacr_range_ok; [done| |lia]. apply (fd_aacr _ (ok_fades _ _ Hd)).
Qed.

Lemma min_rate_store_ok val d :
  aacp_ok false d -> event_ok last low cap floor rows (EvAacrMinRate val) -> answers (aacr_min_capacity_rate_store count val d).
Proof.
  intros Hd Hv. apply with_int_ok; [done|]. intros v ->. destruct Hv as [_ Hv].
  destruct (_ || _) eqn:E; [by apply answers_ret|]. bool_to_prop. on_lock Hd.
  destruct (fd_aacr _ (ok_fades _ _ Hd)). destruct (ok_floor _ _ Hd).
  eexists. split; [done|]. apply aacr_rates_ok; auto with lia.
Qed.

Lemma cliff_rate_store_ok val d :
  aacp_ok false d -> event_ok last low cap floor rows (EvAacrCliffRate val) -> answers (aacr_cliff_capacity_rate_store count val d).
Proof.
  intros Hd Hv. apply with_int_ok; [done|]. intros v ->. destruct Hv as [_ Hv].
  destruct (_ || _) eqn:E; [by apply answers_ret|]. bool_to_prop. on_lock Hd.
  destruct (fd_aacr _ (ok_fades _ _ Hd)). destruct (ok_floor _ _ Hd).
  eexists. split; [done|]. apply aacr_rates_ok; auto with lia.
Qed.

Lemma aacr_request_Some v st :
  BATT_AA_UNKNOWN <= v <= BATT_AACR_ALGO_LOW_B -> exists r, aacr_request v st = Some r.
Proof.
  unfold BATT_AA_UNKNOWN, BATT_AACR_ALGO_LOW_B. intros Hv. unfold aacr_request.
  destruct (Z.eqb_spec v BATT_AA_UNKNOWN); [by eauto|]. destruct (Z.eqb_spec v BATT_AA_DISABLED); [by eauto|].
  destruct (Z.eqb_spec v BATT_AA_ENABLED); [by eauto|].
  unfold BATT_AA_UNKNOWN, BATT_AA_DISABLED, BATT_AA_ENABLED in *.
  assert (v = 2 \/ v = 3 \/ v = 4) as [-> | [-> | ->]] by lia; cbn; by eauto.
Qed.

(** A request that does not ask for the reference algorithm does not get it. *)
Lemma aacr_request_algo v s st algo junk :
  aacr_request v s = Some (st, algo) -> floor = 0 \/ junk <> BATT_AACR_ALGO_REFERENCE_CAP ->
  floor = 0 \/ v <> BATT_AACR_ALGO_REFERENCE_CAP -> floor = 0 \/ default junk algo <> BATT_AACR_ALGO_REFERENCE_CAP.
Proof.
  unfold aacr_request. intros Hr [?|Hj] [?|Hv]; [by left..|]. right.
  repeat (case_test_in Hr; simplify_eq; [done|]).
  destruct (_ || _); by simplify_eq.
Qed.

Lemma aacr_state_store_ok junk val d :
  aacp_ok false d -> event_ok last low cap floor rows (EvAacrState junk val) ->
  answers (aacr_state_store node count junk val d).
Proof.
  intros Hd [Hj Hv]. apply with_int_ok; [done|]. intros v ->. destruct Hv as [_ [Hv Hv3]].
  case_test; [by apply answers_ret|]. unfold mutex_lock. rewrite (ok_lock _ _ Hd). run.
  pose proof (set_lock_ok _ true _ Hd) as Hd1. clear Hd. set (d1 := set_lock d true) in *.
  destruct (aacr_request_Some v (ar_state (p_aacr d1))) as [[st algo] Er]; [lia|]. rewrite Er.
  destruct (_ && _); [apply answers_ret; by apply (set_lock_ok true)|].
  set (d2 := set_aacr d1 _). assert (Hd2 : aacp_ok true d2).
  { apply set_aacr_ok; [done|..]; [by destruct (fd_aacr _ (ok_fades _ _ Hd1))|].
    destruct (ok_floor _ _ Hd1). split; cbn; try done. by apply (aacr_request_algo v (ar_state (p_aacr d1)) st). }
  destruct (update_chg_table_ok true d2 Hd2) as (d3 & -> & Hd3 & _). run.
  apply answers_ret. by apply (set_lock_ok true).
Qed.

Lemma aacr_profile_store_ok scan d :
  aacp_ok false d -> event_ok last low cap floor rows (EvAacrProfile scan) -> answers (aacr_profile_store count scan d).
Proof.
  intros Hd He. unfold aacr_profile_store. destruct (_ || _); [by apply answers_ret|].
  destruct (count_points _ _ 9 0) as [n|] eqn:En; [|by apply answers_ret]. specialize (He n En).
  destruct (_ || _); [|by apply answers_ret]. on_lock Hd.
  eexists. split; [done|]. apply set_profile_ok; try done; apply Hd.
Qed.

Lemma offsets_state h d st am :
  aacp_ok h d -> aacp_ok h (set_aafv d (mk_aafv_config st am (av_max_offset (p_aafv d)) (av_cliff_offset (p_aafv d)))).
Proof. intros Hd. apply set_aafv_ok; [done|]. by destruct (ok_offsets _ _ Hd). Qed.

Lemma aafv_state_store_ok val d : aacp_ok false d -> answers (aafv_state_store node count val d).
Proof.
  intros Hd. apply with_int_ok; [done|]. intros v _. on_lock Hd.
  destruct (_ =? v); [by eauto|].
  destruct (update_aafv_ok true _ (offsets_state true d v (av_apply_max (p_aafv d)) Hd)) as (? & d' & -> & ? & _).
  by eauto.
Qed.

Lemma apply_max_store_ok val d : aacp_ok false d -> answers (aafv_apply_max_store count val d).
Proof.
  intros Hd. apply with_int_ok; [done|]. intros v _. on_lock Hd.
  eexists. split; [done|]. destruct (0 <=? v); [by apply offsets_state|done].
Qed.

Lemma max_offset_store_ok val d :
  aacp_ok false d -> event_ok last low cap floor rows (EvAafvMaxOffset val) -> answers (aafv_max_offset_store count val d).
Proof.
  intros Hd Hv. apply with_int_ok; [done|]. intros v ->. destruct Hv as [_ Hv]. on_lock Hd.
  eexists. split; [done|]. case_test; [|done].
  apply set_aafv_ok; [done|]. by destruct (ok_offsets _ _ Hd).
Qed.

Lemma age_change_ok h d cut cliff :
  aacp_ok h d ->
  aacp_ok h (set_wear d (p_cycle_count d)
    (mk_age (ag_fake_aacp_cc (p_age d)) (ag_aacc (p_age d)) cut (ag_over_cliff (p_age d))
       (ag_over_cutoff (p_age d)) (ag_last_entry (p_age d)) cliff)).
Proof. intros Hd. apply set_wear_ok; try done; cbn; apply Hd. Qed.

Lemma cliff_cycle_store_ok val d : aacp_ok false d -> answers (aafv_cliff_cycle_store count val d).
Proof.
  intros Hd. apply with_int_ok; [done|]. intros v _. on_lock Hd.
  eexists. split; [done|]. by apply age_change_ok.
Qed.

(** A valid offset leaves the last tier above the one before. *)
Lemma offset_valid_ok h d offset len :
  aacp_ok h d -> exists b, gbms_aafv_offset_is_valid (p_profile d) offset len = Ret b /\
    (b = true -> 0 <= offset /\ offset * 1000 <= last - low).
Proof.
  intros Hd. unfold gbms_aafv_offset_is_valid.
  destruct (ok_tiers _ _ Hd) as [Hn Hlen [Hlast Hlr] _ _ [Hlow Hoff] Hcap _].
  pose proof (tk_two _ (ok_table _ _ Hd)) as H2.
  assert (exists pen, (if 1 <? volt_nb_limits (limits (p_profile d))
    then at_ (volt_limits (limits (p_profile d))) (volt_nb_limits (limits (p_profile d)) - 2) else Ret 0) = Ret pen /\
    low <= pen <= last) as (pen & -> & Hp).
  { case_test; [|exists 0; split; [done|lia]].
    destruct (at_Some (volt_limits (limits (p_profile d))) (volt_nb_limits (limits (p_profile d)) - 2)) as [x Hx]; [lia|].
    exists x. split; [done|]. pose proof (Hcap (volt_nb_limits (limits (p_profile d)) - 2) x ltac:(lia) Hx). lia. }
  run. eexists. split; [done|]. intros Hb. rewrite Hlast, (wrap_id 32 pen), (wrap_id 32 (last - pen)) in Hb by lia.
  bool_to_prop. destruct Hb as [[? Hlt] _]. split; [done|]. pose proof (Z.mul_div_le (last - pen) 1000). lia.
Qed.

Lemma cliff_offset_store_ok val d :
  aacp_ok false d -> on_int val (fun _ => True) -> answers (aafv_cliff_offset_store count val d).
Proof.
  intros Hd Hv. apply with_int_ok; [done|]. intros v ->. destruct Hv as [Hv _]. on_lock Hd.
  destruct (offset_valid_ok true d (u32 v) (aafv_nb_limits (aafv (p_profile d))) Hd) as (b & -> & Hb). run.
  eexists. split; [done|]. destruct b; [|done]. specialize (Hb eq_refl).
  apply set_aafv_ok; [done|]. destruct (ok_offsets _ _ Hd) as [Hm Hc Ht].
  split; cbn; [done| |done]. destruct (Z.lt_ge_cases v 0); [|rewrite wrap_id in Hb by lia; apply Hb].
  pose proof (to_offset _ _ _ _ _ (ok_tiers _ _ Hd)). lia.
Qed.

(** The offsets that are scanned lie below the last. *)
Lemma points_sorted_le cc of_ turns i :
  points_sorted cc of_ turns i = true -> (1 <= i)%nat ->
  forall k, (i - 1 <= k < i + turns)%nat -> scanned of_ k <= scanned of_ (i + turns - 1).
Proof.
  revert i. induction turns as [|turns IH]; intros i Hs Hi k Hk; cbn [points_sorted] in Hs.
  { replace (i + 0 - 1)%nat with k by lia. lia. }
  destruct (_ || _) eqn:E; [done|]. bool_to_prop. destruct E as [_ E].
  replace (i + S turns - 1)%nat with (S i + turns - 1)%nat by lia.
  destruct (Nat.eq_dec k (i - 1)) as [->|].
  - pose proof (IH (S i) Hs ltac:(lia) i ltac:(lia)). lia.
  - apply (IH (S i) Hs); lia.
Qed.

Lemma scan_cells_at scan from by_ n i :
  (i < n)%nat -> scan_cells scan from by_ n !! i = Some (scanned scan (from + by_ * i)).
Proof. intros Hi. unfold scan_cells. rewrite list_lookup_fmap, lookup_seq_lt by done. done. Qed.

Lemma length_scan_cells scan from by_ n : length (scan_cells scan from by_ n) = n.
Proof. unfold scan_cells. by rewrite length_fmap, length_seq. Qed.

Lemma scanned_cells scan from by_ n i :
  (i < n)%nat -> scanned (scan_cells scan from by_ n) i = scanned scan (from + by_ * i).
Proof. intros Hi. unfold scanned at 1. by rewrite scan_cells_at. Qed.

Lemma scanned_range scan i :
  Forall (fun v => 0 <= v < 2 ^ 32) (drop 1 scan) -> (1 <= i)%nat -> 0 <= scanned scan i < 2 ^ 32.
Proof.
  intros Hs Hi. unfold scanned. destruct (scan !! i) as [x|] eqn:E; cbn; [|lia].
  apply (proj1 (Forall_lookup _ _) Hs (i - 1)%nat). rewrite lookup_drop. by replace (1 + (i - 1))%nat with i by lia.
Qed.

Lemma aafv_profile_store_ok scan d :
  aacp_ok false d -> event_ok last low cap floor rows (EvAafvProfile scan) -> answers (aafv_profile_store count scan d).
Proof.
  intros Hd [Hlen Hr]. unfold aafv_profile_store.
  destruct (_ || _) eqn:Eodd; [by apply answers_ret|]. bool_to_prop. destruct Eodd as [Hodd H3].
  set (cnt := Z.of_nat (length scan)) in *. assert (Hnb : 1 <= cnt / 2 <= 16 /\ cnt = 2 * (cnt / 2) + 1).
  { Z.div_mod_to_equations. lia. }
  set (nb := cnt / 2) in *. destruct (points_sorted _ _ _ 1) eqn:Hs; cbn [negb]; [|by apply answers_ret].
  unfold at_. rewrite (proj2 (Z.ltb_ge (nb - 1) 0)), scan_cells_at by lia. run.
  set (top := scanned scan _).
  assert (Hall : forall k, (k < 16)%nat -> 0 <= scanned scan (2 + 2 * k) <= top).
  { intros k Hk. pose proof (scanned_range scan (2 + 2 * k) Hr ltac:(lia)). split; [lia|].
    destruct (Z.lt_ge_cases (Z.of_nat k) nb) as [Hin|Hout]; cycle 1.
    { unfold scanned at 1. rewrite lookup_ge_None_2 by lia. cbn.
      apply (scanned_range scan _ Hr). lia. }
    pose proof (points_sorted_le _ _ _ _ Hs ltac:(lia) k ltac:(lia)) as Hle.
    rewrite !scanned_cells in Hle by lia. unfold top.
    by replace (Z.to_nat (nb - 1)) with (1 + Z.to_nat (nb - 1) - 1)%nat by lia. }
  destruct (offset_valid_ok false d top nb Hd) as (b & -> & Hb). run.
  destruct (_ && b) eqn:Eb; [|by apply answers_ret].
  apply andb_true_iff in Eb as [_ ->]. specialize (Hb eq_refl). on_lock Hd.
  eexists. split; [done|].
  apply set_profile_ok; try done; cbn [with_aafv limits aact aacr aafv aacc_chg aacc_dsg]; try apply Hd.
  destruct (ok_offsets _ _ Hd) as [Hm Hc _]. split; [done|done|]. right. cbn [aafv_nb_limits aafv_cycles aafv_offsets].
  split_and!; [lia|lia|done|done|]. apply Forall_lookup. intros i x Hx.
  assert (Hi : (i < 16)%nat) by (apply lookup_lt_Some in Hx; by rewrite length_scan_cells in Hx).
  rewrite scan_cells_at in Hx by done. simplify_eq. specialize (Hall i Hi). split; lia.
Qed.

Lemma cutoff_ok h d : aacp_ok h d -> aacp_ok h (aacp_update_opt_out_cutoff d).
Proof.
  intros Hd. unfold aacp_update_opt_out_cutoff. destruct (_ =? _); [done|]. destruct (_ <=? _); [|done].
  by apply set_opt_out_ok.
Qed.

Lemma opt_out_store_ok val d : aacp_ok false d -> answers (aacp_opt_out_store node count val d).
Proof.
  intros Hd. apply with_int_ok; [done|]. intros v _. destruct (_ || _); [by apply answers_ret|]. on_lock Hd.
  destruct (update_aafv_ok true _ (set_opt_out_ok true d v Hd)) as (? & d' & -> & Hd' & _). run.
  eexists. split; [done|]. by apply cutoff_ok.
Qed.

Lemma cutoff_store_ok val d : aacp_ok false d -> answers (aacp_opt_out_cutoff_cycles_store count val d).
Proof.
  intros Hd. apply with_int_ok; [done|]. intros v _. on_lock Hd.
  eexists. split; [done|]. by apply age_change_ok.
Qed.

Lemma set_aacc_ok h d is_charge a :
  aacp_ok h d -> side_ok rows a -> aacp_ok h (set_aacc d is_charge a).
Proof.
  intros Hd Ha. unfold set_aacc. destruct is_charge; (apply set_profile_ok; try done; apply Hd).
Qed.

Lemma side_of h d is_charge : aacp_ok h d -> side_ok rows (aacc_side d is_charge).
Proof. intros Hd. destruct is_charge; apply Hd. Qed.

Lemma aacc_temps_ok is_charge scan d :
  aacp_ok false d -> event_ok last low cap floor rows (EvAaccTemps is_charge scan) ->
  answers (aacc_temp_limits_store count is_charge scan d).
Proof.
  intros Hd [Hl Hr]. unfold aacc_temp_limits_store. pose proof (side_of _ _ is_charge Hd) as [Hlen Hrows Ht].
  destruct (aacc_weight_limits _) as [t|] eqn:Et; [|by apply answers_ret].
  unfold fill. rewrite length_fmap, length_scan_cells, Hlen. cbn [Nat.ltb Nat.leb obind].
  apply answers_ret, set_aacc_ok; [done|].
  split; cbn [aacc_temp_limits aacc_temp_nb_limits aacc_weight_limits]; [|lia|done].
  rewrite length_app, length_fmap, length_scan_cells, length_drop. lia.
Qed.

Lemma aacc_profile_ok is_charge scan d :
  aacp_ok false d -> event_ok last low cap floor rows (EvAaccProfile is_charge scan) ->
  answers (aacc_profile_store count is_charge scan d).
Proof.
  intros Hd Hr. unfold aacc_profile_store. pose proof (side_of _ _ is_charge Hd) as [Hlen Hrows Ht].
  destruct (aacc_weight_limits _) as [t|] eqn:Et; [|by apply answers_ret].
  destruct (negb (_ =? GBMS_AACC_SOC_SIZE + 2)); [by apply answers_ret|].
  destruct (_ && _); [by apply answers_ret|]. specialize (Ht t eq_refl). unfold GBMS_AACC_SOC_SIZE.
  cbn [event_ok] in Hr. rewrite swrap_id by lia. unfold put_row. rewrite length_scan_cells.
  rewrite (proj2 (Z.ltb_ge _ 0)), (proj2 (Z.ltb_ge _ _)) by lia. run.
  apply answers_ret, set_aacc_ok; [done|]. split; cbn [aacc_temp_limits aacc_temp_nb_limits aacc_weight_limits]; [done|done|].
  intros t' Ht'. apply (inj Some) in Ht' as <-.
  rewrite !length_app, length_take, length_drop, length_scan_cells. lia.
Qed.

Lemma reset_weights_ok val d : aacp_ok false d -> answers (debug_reset_aacc_weights_cycles count val d).
Proof.
  intros Hd. unfold debug_reset_aacc_weights_cycles. destruct val as [e|v]; [by apply answers_ret|].
  destruct (negb _); [by apply answers_ret|].
  destruct (write_ready knows sees holds (p_store d) GBMS_TAG_AAWC (u32_bytes 0) 4 (ok_store _ _ Hd))
    as (ret & st & -> & Hst & _); [done|]. run.
  assert (Hd1 : aacp_ok false (set_cycles d (p_cycles d) st)) by (apply set_cycles_ok; try done; apply Hd).
  destruct (ret <? 0); [by apply answers_ret|]. apply answers_ret. unfold aacc_update_cycle_count.
  apply set_wear_ok; [|apply Hd..]. apply set_cycles_ok; [done|apply Hd1|done|done].
Qed.

(** ** The charger *)

Lemma aact_idle m (d : drv) :
  p_aact_state d = BATT_AA_UNKNOWN -> aact_init_profile (aact (p_profile d)) = false ->
  aact_update_chg_table node m d = Ret (0, d).
Proof.
  intros Hs Ha. unfold aact_update_chg_table. rewrite Hs.
  change (aact_enabled BATT_AA_UNKNOWN (p_opt_out d)) with false. run. change (0 <? 0) with false.
  cbn iota. rewrite Ha. cbn [negb orb andb]. by destruct d.
Qed.

Lemma profiles_connect_ok m d :
  aacp_ok false d ->
  exists off d', aacp_connect node m d = Ret d' /\ aacp_ok false d' /\
    scheduled (aacp_update_opt_out_cutoff d) (aacp_get_cc (p_age d)) off /\
    ((forall v, (GPSY_SET_PROP AAFV_OFFSET v (p_gauge d)).1 = 0) -> p_aafv_offset d' = off /\
     tiers_follow node (limits (p_profile d)) (limits (p_profile d')) (p_aafv_offset d) off last).
Proof.
  intros Hd. unfold aacp_connect, mutex_lock. rewrite (ok_lock _ _ Hd). run.
  set (d1 := aacp_update_opt_out_cutoff (set_lock d true)).
  assert (Hd1 : aacp_ok true d1) by (by apply cutoff_ok, (set_lock_ok false)).
  rewrite aact_idle by (apply Hd1 || apply (tk_aact _ _ (ok_table _ _ Hd1))). run.
  change (0 <? 0) with false. run.
  destruct (update_aafv_ok true d1 Hd1) as (off & d2 & -> & Hd2 & Hs & Hacc). run.
  destruct (update_chg_table_ok true d2 Hd2) as (d3 & -> & Hd3 & [Ho3 [Hv3 Hn3]]). run.
  destruct (calculate_ok true d3 false Hd3) as (d4 & E4 & Hd4 & [Ho4 [Hv4 Hn4]]).
  unfold aacc_calculate_dsg_cc. rewrite E4. run.
  assert (Hframe : d1 = set_lock (aacp_update_opt_out_cutoff d) true).
  { unfold d1, aacp_update_opt_out_cutoff. cbn. by repeat case_match. }
  assert (Hfr : p_age (aacp_update_opt_out_cutoff d) = p_age d /\
    p_gauge (aacp_update_opt_out_cutoff d) = p_gauge d /\
    p_profile (aacp_update_opt_out_cutoff d) = p_profile d /\
    p_aafv_offset (aacp_update_opt_out_cutoff d) = p_aafv_offset d)
    by (unfold aacp_update_opt_out_cutoff; by repeat case_match).
  destruct Hfr as (Hage & Hgauge & Hprof & Hoff).
  exists off. eexists. split; [done|]. split_and!.
  - by apply (set_lock_ok true).
  - rewrite Hframe in Hs. apply scheduled_lock in Hs. cbn [p_age set_lock] in Hs.
    by rewrite Hage in Hs.
  - intros Hg. rewrite Hframe in Hacc. cbn in Hacc |- *. rewrite Hgauge, Hprof, Hoff in Hacc.
    destruct (Hacc Hg) as [Ho2 Hf2]. rewrite Ho4, Ho3. split; [done|].
    unfold tiers_follow in *. cbn. by rewrite Hv4, Hv3.
Qed.

Lemma profiles_disconnect_ok d : aacp_ok false d -> exists d', aacp_disconnect d = Ret d' /\ aacp_ok false d'.
Proof.
  intros Hd. unfold aacp_disconnect, aacc_calculate_chg_cc.
  destruct (calculate_ok false d true Hd) as (d1 & -> & Hd1 & _). run. eexists. split; [done|].
  unfold aacc_update_cycle_count. apply set_wear_ok; [done|apply Hd1..].
Qed.

Lemma poll_temp_ok now d : aacp_ok false d -> aacp_ok false (aacc_update_temp_stats now d).2.
Proof.
  intros Hd. unfold aacc_update_temp_stats. destruct (negb _); [done|].
  destruct (gauge_get_prop TEMPERATURE (p_gauge d)) as [temp ret]. destruct (ret <? 0); [done|].
  apply set_cycles_ok; [done|apply Hd..].
Qed.

Lemma request_ok r : answers r -> exists d', request r = Ret d' /\ aacp_ok false d'.
Proof. intros (ret & d' & -> & Hd). run. by eauto. Qed.

Lemma aacp_step_ok e d :
  aacp_ok false d -> event_ok last low cap floor rows e -> exists d', aacp_step e d = Ret d' /\ aacp_ok false d'.
Proof.
  intros Hd He. destruct e; cbn [aacp_step].
  - eexists. split; [done|]. by apply set_board_ok.
  - eexists. split; [done|]. apply set_board_ok; [done|apply Hd].
  - eexists. split; [done|]. apply set_wear_ok; [done|done|apply Hd..].
  - eexists. split; [done|]. apply set_wear_ok; [done|apply Hd|apply Hd|done].
  - eexists. split; [done|]. by apply poll_temp_ok.
  - destruct (profiles_connect_ok m d Hd) as (_ & d' & -> & ? & _). by eauto.
  - by apply profiles_disconnect_ok.
  - by apply request_ok, aacr_state_store_ok.
  - by apply request_ok, grace_store_ok.
  - by apply request_ok, max_store_ok.
  - by apply request_ok, min_rate_store_ok.
  - by apply request_ok, cliff_rate_store_ok.
  - by apply request_ok, aacr_profile_store_ok.
  - by apply request_ok, aafv_state_store_ok.
  - by apply request_ok, apply_max_store_ok.
  - by apply request_ok, max_offset_store_ok.
  - by apply request_ok, cliff_cycle_store_ok.
  - by apply request_ok, cliff_offset_store_ok.
  - by apply request_ok, aafv_profile_store_ok.
  - by apply request_ok, opt_out_store_ok.
  - by apply request_ok, cutoff_store_ok.
  - by apply request_ok, aacc_temps_ok.
  - by apply request_ok, aacc_profile_ok.
  - by apply request_ok, reset_weights_ok.
Qed.

(** C37. The age adjusted profiles are safe in any run of events within [event_ok], on a board
    without AACT that starts in order ([aacp_ok]). Charger events, polls, any answers of the
    gauge, levels in 0..100, cycles below 2^15 and requests of user space, in any order, return
    and leave: the lock free; the charge table of the device tree for a capacity between [floor]
    and the design; tiers between the lowest of the tree and the last one less the offset the
    gauge has accepted. [event_ok] leaves out requests that the code accepts and that break it: an
    AACR state above LOW_B (returns with the lock held, [unknown_state_keeps_lock]); AACR tables
    with equal points ([equal_points_divide_by_zero]) or a fade over a thousandth a cycle; AACC
    weights for a row outside the table ([aacc_row_unchecked]), over 10 AACC limits or more than
    rows + 1, over 16 AAFV pairs; an AAFV offset beyond the room of the tiers
    ([largest_offset_unchecked]); rates, or with [floor] > 0 REFERENCE_CAP, that do not leave
    [floor]. *)
Theorem aged_profiles_run_safe es : forall d,
  aacp_ok false d -> Forall (event_ok last low cap floor rows) es ->
  exists d', aacp_run es d = Ret d' /\ p_lock d' = false /\
    floor <= capacity_ma (limits (p_profile d')) <= p_capacity d' /\
    (exists cells, rates = inr cells /\ cccm_limits (limits (p_profile d')) =
       Some (cell_current (s32 (cc_ua_resolution (behavior p0))) (capacity_ma (limits (p_profile d'))) <$> cells)) /\
    (forall i v, 0 <= i < volt_nb_limits (limits (p_profile d')) ->
       at_ (volt_limits (limits (p_profile d'))) i = Ret v -> low <= v <= last - p_aafv_offset d') /\
    aacp_ok false d'.
Proof.
  induction es as [|e es IH]; intros d Hd Hes; cbn [aacp_run].
  { exists d. destruct (ok_table _ _ Hd) as [_ [<- _ _ _ _] _ _ Hc Hcells]. rewrite (ok_design _ _ Hd).
    split_and!; try done; try apply Hc; [apply Hd|apply (ok_tiers _ _ Hd)]. }
  apply Forall_cons in Hes as [He Hes]. destruct (aacp_step_ok e d Hd He) as (d1 & -> & Hd1). run.
  by apply IH.
Qed.

(** C38. A connecting charger applies the schedule of AAFV.  On a board without AACT whose tiers
    and offsets fit ([aacp_ok]), and with a gauge that takes the offset: after the opt-out has
    been cut off where its cycles are reached, the offset is the one that the settings and the
    table give for the cycles, and every tier is between the lowest of the tree and the last
    one less the offset.  When the offset changes, also back to 0, the last tier is its own
    voltage less the offset and each other tier is that of the device tree under this cap,
    as it was read: the code does not round it to the resolution as the start does
    ([lowered_tiers_unaligned]); when the offset does not change, no tier does. *)
Theorem connect_applies_offset m d :
  aacp_ok false d -> (forall v, (GPSY_SET_PROP AAFV_OFFSET v (p_gauge d)).1 = 0) ->
  exists off d', aacp_connect node m d = Ret d' /\
    scheduled (aacp_update_opt_out_cutoff d) (aacp_get_cc (p_age d)) off /\
    p_aafv_offset d' = off /\
    (forall i v, 0 <= i < volt_nb_limits (limits (p_profile d')) ->
       at_ (volt_limits (limits (p_profile d'))) i = Ret v -> low <= v <= last - off) /\
    (p_aafv_offset d = off ->
       volt_limits (limits (p_profile d')) = volt_limits (limits (p_profile d))) /\
    (p_aafv_offset d <> off -> forall cells i v,
       cv_limits node (volt_nb_limits (limits (p_profile d))) = Some cells ->
       0 <= i < volt_nb_limits (limits (p_profile d)) ->
       at_ (volt_limits (limits (p_profile d'))) i = Ret v ->
       v = lowered cells (volt_nb_limits (limits (p_profile d))) (last - off) i).
Proof.
  intros Hd Hg. destruct (profiles_connect_ok m d Hd) as (off & d' & E & Hd' & Hs & Ho).
  destruct (Ho Hg) as [Hoff [Hsame Hmoved]].
  exists off, d'. pose proof (ok_tiers _ _ Hd') as Ht. rewrite Hoff in Ht.
  split_and!; [done|done|done|apply Ht|done|done].
Qed.

End invariant.
End run.
