(* ===== verification/AacpCharge.v ===== *)
(** * Charging with age (src/bms/google_battery.c)

    The whole of a driver that ages: the charging of [MscLogic.v] with the charge table that
    the age adjusted profiles of [Aacp.v] leave at every connect. *)

From Stdlib Require Import String.
From S2P Require Import Prelude GbmsProfile GbmsLookup GbmsTables GbmsStorage StorageTable.
From S2P Require Import StorageContract StorageUse Eeprom GbmsCharge Ttf Ssoc SsocTrace SsocRecharge.
From S2P Require Import Msc MscDrv MscHealth MscLogic MscTable MscSafe MscRun.
From S2P Require Import Bhi Aacp AacpStore AacpFade AacpTiers AacpCount AacpRun.

(** ** Aged tables fit *)

Section fits.
Context `{!DeviceTree} (node : Z) (p0 : gbms_chg_profile) (last low cap floor rmax top : Z).
#[local] Abbreviation res := (fv_uv_resolution (behavior p0)).
#[local] Abbreviation step := (cc_ua_resolution (behavior p0)).

(** The largest current of the table. *)
Definition current_max : Z := rmax * (cap * 10) + step / 2.

(** A board whose tables stay in range while they age: [rmax] is the largest C rate, [top] bounds
    the voltages with their headroom, and the last cell is not empty at the least capacity. *)
Record board_fits : Prop := {
  bf_rows : 2 <= temp_nb_limits (limits p0);
  bf_idx : GBMS_AACT_TI p0 = 0;
  bf_topoff : length (topoff_limits (limits p0)) = Z.to_nat GBMS_CHG_TOPOFF_NB_LIMITS_MAX;
  bf_res : 0 < res < 2 ^ 28;
  bf_low : 3 * res <= low /\ 1000 <= low;
  bf_signs : 0 <= fv_uv_margin_dpct (behavior p0) /\ 0 <= fv_dc_ratio (behavior p0);
  bf_step : 0 < step < 2 ^ 31;
  bf_cap : 0 <= floor /\ cap < 2 ^ 15;
  bf_rates cells : rates node p0 = inr cells ->
    Forall (fun r => 0 <= r <= rmax) cells /\
    exists r, cells !! pred (length cells) = Some r /\ step <= r * (floor * 10);
  bf_current : current_max < 2 ^ 31;
  bf_full : 2 * res <= low / 1000 * fv_uv_margin_dpct (behavior p0) /\
    last / 1000 * fv_uv_margin_dpct (behavior p0) + res / 2 <= top;
  bf_drop : last + current_max / 1000 * fv_dc_ratio (behavior p0) + res / 2 <= top /\ top < 2 ^ 29;
}.

Lemma cell_range c r :
  board_fits -> floor <= c <= cap -> 0 <= r <= rmax ->
  0 <= cell_current (s32 step) c r <= current_max /\
  (step <= r * (floor * 10) -> cell_current (s32 step) c r <> 0).
Proof.
  intros [] Hc Hr. unfold current_max in *. rewrite swrap_id by lia.
  assert (0 <= r * (c * 10) <= rmax * (cap * 10)) by nia.
  destruct (cell_current_nearest step c r) as [Hm Ha]; [lia..|].
  assert (Hdiv : cell_current step c r = step * (cell_current step c r / step))
    by (pose proof (Z.div_mod (cell_current step c r) step); lia).
  assert (- step < cell_current step c r) by (pose proof (Z.mul_div_le step 2); lia).
  split; [split; [|lia]|].
  - destruct (Z.lt_ge_cases (cell_current step c r / step) 0); nia.
  - intros Hs He. pose proof (Z.mul_div_le step 2). nia.
Qed.

Lemma table_cells p t x :
  board_fits -> table_ok node p0 low cap floor p -> cccm_limits (limits p) = Some t -> x ∈ t ->
  0 <= x <= current_max.
Proof.
  intros Hbf [_ [Hb _ _ _ _] _ _ Hc (cells & Hr & Ht)] Hx Hin. rewrite Hb, Hx in Ht. simplify_eq.
  apply list_elem_of_fmap in Hin as (r & -> & Hin).
  destruct (bf_rates Hbf cells Hr) as [Hall _]. rewrite Forall_forall in Hall.
  by apply cell_range, Hall.
Qed.

(** The last current of the table is not zero. *)
Lemma last_cell p :
  board_fits -> table_ok node p0 low cap floor p ->
  GBMS_CCCM_LIMITS p (temp_nb_limits (limits p) - 2) (volt_nb_limits (limits p) - 1) <> Ret 0.
Proof.
  intros Hbf [[_ _ Hnv _ (t & Ht & Hlen)] [Hb Ha [Hn _] _ _] _ _ Hc (cells & Hr & Ht')].
  pose proof (bf_rows Hbf) as H2. unfold GBMS_CHG_VOLT_NB_LIMITS_MAX in *.
  assert (Hidx : GBMS_AACT_TI p = 0).
  { rewrite <- (bf_idx Hbf). unfold GBMS_AACT_TI. by rewrite Ha, Hn. }
  rewrite Hb, Ht in Ht'. apply (inj Some) in Ht'. subst t. rewrite length_fmap in Hlen.
  destruct (bf_rates Hbf cells Hr) as [Hall (r & Hlast & Hs)]. unfold GBMS_CCCM_LIMITS, deref.
  rewrite Ht, Hidx, (proj2 (Z.leb_le 0 _)), (proj2 (Z.leb_le 0 _)) by lia. run. unfold at_.
  rewrite (proj2 (Z.ltb_ge _ 0)) by nia.
  replace (Z.to_nat _) with (pred (length cells)) by nia.
  rewrite list_lookup_fmap, Hlast. cbn. intros [= He].
  destruct (cell_range (capacity_ma (limits p)) r Hbf Hc) as [_ Hne]; [|by apply Hne].
  rewrite Forall_forall in Hall. by apply Hall, list_elem_of_lookup_2 with (pred (length cells)).
Qed.

(** The caps of the voltage stay in range. *)
Lemma caps_fit p vl v cc allow :
  board_fits -> behavior p = behavior p0 -> low <= v <= last -> low <= vl <= last -> 0 <= cc <= current_max ->
  2 * res <= fv_cap p vl v cc allow /\ fv_cap p vl v cc allow + res / 2 <= top /\
  v + cc / 1000 * fv_dc_ratio (behavior p0) < 2 ^ 32 /\
  v / 1000 * fv_uv_margin_dpct (behavior p0) < 2 ^ 32.
Proof.
  intros Hbf Hb Hv Hl Hcc. unfold fv_cap. rewrite Hb.
  pose proof (bf_res Hbf). pose proof (bf_low Hbf) as [H3 Hthou]. pose proof (bf_signs Hbf) as [Hmar Hrat].
  pose proof (bf_drop Hbf) as [Hdrop Htop29]. pose proof (bf_full Hbf) as [Hfull Hfull2].
  assert (0 <= res / 2) by (apply Z.div_pos; lia).
  assert (0 <= cc / 1000 <= current_max / 1000) by (split; [apply Z.div_pos|apply Z.div_le_mono]; lia).
  assert (low / 1000 <= v / 1000 <= last / 1000) by (split; apply Z.div_le_mono; lia).
  assert (0 <= cc / 1000 * fv_dc_ratio (behavior p0) <= current_max / 1000 * fv_dc_ratio (behavior p0))
    by (split; [apply Z.mul_nonneg_nonneg|apply Z.mul_le_mono_nonneg_r]; lia).
  assert (low / 1000 * fv_uv_margin_dpct (behavior p0) <= v / 1000 * fv_uv_margin_dpct (behavior p0)
    <= last / 1000 * fv_uv_margin_dpct (behavior p0)) by (split; apply Z.mul_le_mono_nonneg_r; lia).
  destruct (cc =? 0); [lia|]. destruct (_ && _); lia.
Qed.

(** Aging leaves a table that the charging may run with. *)
Lemma table_fits p offset :
  board_fits -> table_ok node p0 low cap floor p -> tiers_ok node low (limits p) offset last ->
  wf_msc p top.
Proof.
  intros Hbf Ht Hv. pose proof Ht as [Hw [Hb Ha [Hn _] Hnv Htop] _ _ Hc _].
  pose proof Hw as [_ _ Hnv0 Hlv (t & Htab & Hlen)].
  unfold GBMS_CHG_VOLT_NB_LIMITS_MAX in *.
  assert (Htier : forall v, is_tier p v -> low <= v <= last).
  { intros v (i & Hi & Hat). pose proof (to_capped _ _ _ _ _ Hv i v Hi Hat).
    pose proof (to_offset _ _ _ _ _ Hv). lia. }
  assert (Hmax : 0 <= current_max).
  { destruct (tk_cells _ _ _ _ _ _ Ht) as (cells & Hr & _).
    destruct (bf_rates Hbf cells Hr) as [Hall (r & Hlk & _)].
    pose proof (proj1 (Forall_lookup _ _) Hall _ _ Hlk) as Hr0. cbv beta in Hr0.
    pose proof (bf_cap Hbf). pose proof (bf_step Hbf). unfold current_max.
    apply Z.add_nonneg_nonneg; [apply Z.mul_nonneg_nonneg|apply Z.div_pos]; lia. }
  assert (Hcell : forall cc, is_current p cc -> 0 <= cc <= current_max).
  { intros cc [->|(ti & vi & Hcc)]; [lia|].
    apply (cccm_cell p ti vi cc t Htab) in Hcc as [->|Hin]; [lia|]. by eapply table_cells. }
  pose proof (bf_res Hbf). pose proof (bf_low Hbf) as [H3 Hthou]. pose proof (bf_signs Hbf) as [Hmar Hrat].
  pose proof (bf_drop Hbf) as [Hdrop Htop29]. pose proof (bf_full Hbf) as [Hfull Hfull2].
  pose proof (bf_current Hbf).
  assert (0 <= res / 2) by (apply Z.div_pos; lia).
  assert (0 <= current_max / 1000 * fv_dc_ratio (behavior p0))
    by (apply Z.mul_nonneg_nonneg; [apply Z.div_pos|]; lia).
  split; rewrite ?Hb; try done; try lia.
  - split; [done|rewrite Hn; by apply bf_rows|]. rewrite <- (bf_idx Hbf). unfold GBMS_AACT_TI. by rewrite Ha, Hn.
  - intros v Hvt%Htier. lia.
  - intros cc Hcc%Hcell. lia.
  - intros v vl cc allow Hvt%Htier Hcc%Hcell Hl. apply caps_fit; try done. apply Htier.
    exists (volt_nb_limits (limits p) - 1). split; [lia|done].
  - by apply last_cell.
  - rewrite Htop. by apply bf_topoff.
  - intros c0 Hc0. apply Forall_forall. intros x Hx. pose proof (table_cells p c0 x Hbf Ht Hc0 Hx). lia.
  - rewrite <- (take_drop (Z.to_nat (volt_nb_limits (limits p))) (volt_limits (limits p))).
    apply Forall_app. split.
    + apply Forall_lookup. intros i v Hi. apply lookup_take_Some in Hi as [Hi Hlt]. right.
      assert (low <= v <= last); [|lia]. apply Htier. exists (Z.of_nat i). split; [lia|].
      apply at_lookup. rewrite Nat2Z.id. split; [lia|done].
    + eapply Forall_impl; [exact (to_rest _ _ _ _ _ Hv)|]. intros v <-. by left.
Qed.

End fits.

(** ** The driver *)

Section driver.
Context `{PowerSupplyTypes} `{Elections} {D G : Type} `{!FuelGauge G} `{!DeviceTree} (node count : Z).
#[local] Abbreviation drv := (aacp_drv D G).

(** The time of the last event, the profiles, and charging. *)
Record aged_driver := mk_aged { g_now : Z; g_age : drv; g_chg : batt_drv }.

Inductive aged_event :=
| AgReport (now : Z) (g : gauge) (cs : charger_state) (m : allocs)
| AgAge (e : aacp_event G)
| AgCharge (e : drv_event).

(** What [gbatt_get_capacity] returns. *)
Definition at_level (a : drv) (s : batt_ssoc_state) : drv :=
  set_board a (ssoc_get_capacity s) (p_gauge a).

(** The profiles when a report connects or disconnects the charger; the level is read after
    the change of the curve. *)
Definition aged_connection (m : allocs) (a : drv) (d : batt_drv) : outcome drv :=
  if chg_state_is_disconnected (d_cs d) then
    if buck_enabled (d_ssoc d) =? 0 then Ret a else
    let* s := ssoc_change_curve (d_ssoc d) (ssoc_get_delta d) SSOC_UIC_TYPE_DSG in
    aacp_disconnect (at_level a (batt_rl_reset s))
  else if buck_enabled (d_ssoc d) <=? 0 then
    let* s := ssoc_change_curve (d_ssoc d) (ssoc_get_delta d) SSOC_UIC_TYPE_CHG in
    aacp_connect node m (at_level a s)
  else Ret a.

(** [batt_chg_logic]: charging looks the profile up that the connect has updated. *)
Definition aged_report (now : Z) (g : gauge) (cs : charger_state) (m : allocs) (a : drv) (d : batt_drv)
    : outcome (drv * batt_drv) :=
  let d := set_cs d cs in
  match cccm_limits (limits (p_profile a)) with
  | None => Ret (a, d)
  | Some _ =>
    let a := (aacc_update_temp_stats now a).2 in
    let* a := aged_connection m a d in
    let* r := batt_chg_logic now g (p_profile a) d in
    Ret (a, r.2)
  end.

Definition aged_step (e : aged_event) (s : aged_driver) : outcome aged_driver :=
  match e with
  | AgReport now g cs m =>
    let* r := aged_report now g cs m (g_age s) (g_chg s) in Ret (mk_aged now r.1 r.2)
  | AgAge e => let* a := aacp_step node count e (g_age s) in Ret (mk_aged (g_now s) a (g_chg s))
  | AgCharge e =>
    let* d := drv_step e (g_chg s) in Ret (mk_aged (time_after e (g_now s)) (g_age s) d)
  end.

(** Events of the profiles that are readings, and those that are requests; the others are part of
    a report. *)
Definition is_reading (e : aacp_event G) : bool :=
  match e with EvGauge _ | EvCycles _ | EvFakeCycles _ => true | _ => false end.
Definition is_request (e : aacp_event G) : bool :=
  match e with
  | EvLevel _ | EvPoll _ | EvConnect _ | EvDisconnect => false
  | e => negb (is_reading e)
  end.
Definition is_report (e : drv_event) : bool :=
  match e with EvReport _ _ _ _ => true | _ => false end.

Section safety.
Context `{!DeviceTreeLaws} (knows : nat -> Z -> bool) (sees : D -> Z -> list Z) (holds : D -> Prop).
Context (p0 : gbms_chg_profile) (last low cap floor rows rmax top : Z) (m stop start : Z).
#[local] Abbreviation age_ok := (aacp_ok node knows sees holds p0 last low cap floor rows false).
#[local] Abbreviation chg_ok := (run_ok m stop top start).

(** Requests on the profiles come while no charger is connected. *)
Inductive aged_may (s : aged_driver) : aged_event -> Prop :=
| may_report now g cs al : g_now s <= now < start + 2 ^ 31 -> wf_cs cs -> aged_may s (AgReport now g cs al)
| may_read e : is_reading e = true -> event_ok last low cap floor rows e -> aged_may s (AgAge e)
| may_request e : buck_enabled (d_ssoc (g_chg s)) <= 0 -> is_request e = true ->
    event_ok last low cap floor rows e -> aged_may s (AgAge e)
| may_charge e : is_report e = false -> events_ok top start (g_now s) [e] -> aged_may s (AgCharge e).

Inductive aged_reach (s0 : aged_driver) : aged_driver -> Prop :=
| reach_start : aged_reach s0 s0
| reach_step s e s' : aged_reach s0 s -> aged_may s e -> aged_step e s = Ret s' -> aged_reach s0 s'.

(** The invariants of both parts, and that a connected charger uses the aged table. *)
Record aged_ok (s : aged_driver) : Prop := {
  go_age : age_ok (g_age s);
  go_chg : chg_ok (g_now s) (g_chg s);
  go_same : 0 < buck_enabled (d_ssoc (g_chg s)) -> d_profile (g_chg s) = p_profile (g_age s);
}.

Context (Hfits : board_fits node p0 last low cap floor rmax top).

Lemma age_fits (a : drv) : age_ok a -> wf_msc (p_profile a) top.
Proof. intros Ha. eapply table_fits; [exact Hfits|apply Ha|apply Ha]. Qed.

Lemma at_level_ok (a : drv) s : age_ok a -> ssoc_wf m stop s -> age_ok (at_level a s).
Proof. intros Ha Hs. apply set_board_ok; [done|]. by apply capacity_range, Hs. Qed.

Lemma temp_stats_profile now (a : drv) : p_profile (aacc_update_temp_stats now a).2 = p_profile a.
Proof.
  unfold aacc_update_temp_stats. destruct (negb _); [done|].
  destruct (gauge_get_prop _ _) as [t r]. by destruct (r <? 0).
Qed.

Lemma connection_ok al now (a : drv) d :
  age_ok a -> chg_ok now d ->
  exists a', aged_connection al a d = Ret a' /\ age_ok a' /\
    (chg_state_is_disconnected (d_cs d) = false -> connects d = false -> a' = a).
Proof.
  intros Ha Hd. unfold aged_connection, connects.
  destruct (chg_state_is_disconnected (d_cs d)); cbn [negb andb].
  - destruct (_ =? 0); [by exists a|].
    destruct (change_curve_wf m stop _ (ssoc_get_delta d) SSOC_UIC_TYPE_DSG (ro_ssoc _ _ _ _ _ _ Hd))
      as (s & -> & Hs & _). run.
    destruct (profiles_disconnect_ok node knows sees holds p0 last low cap floor rows (at_level a (batt_rl_reset s)))
      as (a' & -> & Ha'); [by apply at_level_ok, wf_status|]. by exists a'.
  - destruct (_ <=? 0); [|by exists a].
    destruct (change_curve_wf m stop _ (ssoc_get_delta d) SSOC_UIC_TYPE_CHG (ro_ssoc _ _ _ _ _ _ Hd))
      as (s & -> & Hs & _). run.
    destruct (profiles_connect_ok node knows sees holds p0 last low cap floor rows al (at_level a s))
      as (_ & a' & -> & Ha' & _); [by apply at_level_ok|]. by exists a'.
Qed.
Lemma report_ok now g cs al s :
  aged_ok s -> g_now s <= now < start + 2 ^ 31 -> wf_cs cs ->
  exists s', aged_step (AgReport now g cs al) s = Ret s' /\ aged_ok s'.
Proof.
  intros [Ha Hc Hsame] Hn Hcs. cbn [aged_step]. unfold aged_report.
  destruct (wf_cccm _ (tk_limits _ _ _ _ _ _ (ok_table _ _ _ _ _ _ _ _ _ _ _ _ Ha))) as (t & -> & _).
  pose proof (poll_temp_ok node knows sees holds p0 last low cap floor rows now (g_age s) Ha) as Ha1.
  pose proof (temp_stats_profile now (g_age s)) as Hp1.
  set (a1 := (aacc_update_temp_stats now (g_age s)).2) in *. set (d1 := set_cs (g_chg s) cs).
  assert (Hd1 : chg_ok now d1) by (apply set_cs_ok; [by apply (run_ok_time _ _ _ _ (g_now s))|done]).
  destruct (connection_ok al now a1 d1 Ha1 Hd1) as (a2 & -> & Ha2 & Hkeep). run.
  destruct (chg_logic_ok m stop top start now g (p_profile a2) d1 Hd1 (age_fits a2 Ha2))
    as (rc & d2 & -> & Hd2 & Hp & Hb). run.
  eexists. split; [done|]. split; cbn [g_age g_chg g_now]; [done..|].
  intros Hpos. specialize (Hb Hpos). rewrite Hp. destruct (connects d1) eqn:Hcon; [done|].
  rewrite (Hkeep Hb eq_refl), Hp1. apply Hsame. unfold connects in Hcon. rewrite Hb in Hcon. cbn in Hcon.
  by apply Z.leb_gt.
Qed.

Lemma aged_step_ok s e :
  aged_ok s -> aged_may s e -> exists s', aged_step e s = Ret s' /\ aged_ok s'.
Proof.
  intros Hs He. destruct He as [now g cs al Hn Hcs|e Hr He|e Hb Hr He|e Hr He].
  - by apply report_ok.
  - destruct Hs as [Ha Hc Hsame]. cbn [aged_step].
    destruct (aacp_step_ok node count knows sees holds p0 last low cap floor rows e (g_age s) Ha He)
      as (a' & Ea & Ha'). rewrite Ea. run. eexists. split; [done|]. split; cbn [g_age g_chg g_now]; [done..|].
    intros Hpos. rewrite (Hsame Hpos). destruct e; try done; cbn in Ea; by simplify_eq.
  - destruct Hs as [Ha Hc Hsame]. cbn [aged_step].
    destruct (aacp_step_ok node count knows sees holds p0 last low cap floor rows e (g_age s) Ha He)
      as (a' & -> & Ha'). run. eexists. split; [done|]. split; cbn [g_age g_chg g_now]; [done..|lia].
  - destruct Hs as [Ha Hc Hsame]. cbn [aged_step].
    destruct (drv_event_ok m stop top start (g_now s) e [] (g_chg s) Hc He) as (t & d' & -> & Hd' & _ & -> & Hk). run.
    eexists. split; [done|]. split; cbn [g_age g_chg g_now]; [done..|].
    destruct e; try done; cbn [keeps_table] in Hk; destruct Hk as [-> ->]; exact Hsame.
Qed.
Lemma reach_ok s0 s : aged_ok s0 -> aged_reach s0 s -> aged_ok s.
Proof.
  intros Hs0 Hr. induction Hr as [|s e s' Hr IH Hm Hs]; [done|].
  destruct (aged_step_ok s e IH Hm) as (s1 & Hs1 & Hok). rewrite Hs in Hs1. by simplify_eq.
Qed.

(** The current of a tier of an aged table. *)
Lemma aged_current (p : gbms_chg_profile) ti vi cc :
  table_ok node p0 low cap floor p -> GBMS_CCCM_LIMITS p ti vi = Ret cc -> cc <> 0 ->
  exists cells r, rates node p0 = inr cells /\ r ∈ cells /\
    cc = cell_current (s32 (cc_ua_resolution (behavior p0))) (capacity_ma (limits p)) r.
Proof.
  intros [_ [Hb _ _ _ _] _ _ _ (cells & Hr & Ht)] Hcc Hne.
  destruct (cccm_cell _ _ _ _ _ Ht Hcc) as [?|Hin]; [done|].
  apply list_elem_of_fmap in Hin as (r & -> & Hin). exists cells, r. by rewrite Hb.
Qed.

(** C36. Charging and aging together are safe, on a board without AACT whose tables fit
    ([board_fits]) and that starts in order ([aged_ok]), for the events of [aged_may]: well-formed
    charger reports in time order; readings; requests to the charging part; and, only while no
    charger is connected, requests on the profiles within [event_ok]. That leaves out, as in
    [aged_profiles_run_safe], the requests that break the code: an AACR state above LOW_B, which
    keeps the lock, AACR tables with equal points, AACC rows outside the table, too many AACC
    limits or AAFV cells, an AAFV offset beyond the room of the tiers, rates or an algorithm that
    do not leave [floor]. In every state these events reach, every further one of them is
    processed and the lock is free; a connected charger uses the table that its connect has aged;
    the voltage is at most [top]; and the current is none, stopped, or a C rate of the device tree
    for the aged capacity, which lies between [floor] and the design. *)
Theorem aged_charging_safe s0 s :
  aged_ok s0 -> aged_reach s0 s ->
  aged_ok s /\
  (forall e, aged_may s e -> exists s', aged_step e s = Ret s') /\
  p_lock (g_age s) = false /\ a_fv_uv (d_algo (g_chg s)) <= top /\
  floor <= capacity_ma (limits (p_profile (g_age s))) <= cap /\
  (0 < buck_enabled (d_ssoc (g_chg s)) ->
   d_profile (g_chg s) = p_profile (g_age s) /\
   (a_cc_max (d_algo (g_chg s)) = -1 \/ a_cc_max (d_algo (g_chg s)) = 0 \/
    exists cells r, rates node p0 = inr cells /\ r ∈ cells /\
      a_cc_max (d_algo (g_chg s)) = cell_current (s32 (cc_ua_resolution (behavior p0)))
        (capacity_ma (limits (p_profile (g_age s)))) r)).
Proof.
  intros Hs0 Hr. pose proof (reach_ok s0 s Hs0 Hr) as Hs. pose proof Hs as [Ha Hc Hsame].
  pose proof (ok_table _ _ _ _ _ _ _ _ _ _ _ _ Ha) as Ht.
  split_and!; [done| |apply Ha| |apply Ht|apply Ht|].
  - intros e He. destruct (aged_step_ok s e Hs He) as (s' & Hs' & _). by exists s'.
  - pose proof (run_ok_algo_ok _ _ _ _ _ _ Hc) as Hal. pose proof (bf_res _ _ _ _ _ _ _ _ Hfits).
    pose proof (bf_low _ _ _ _ _ _ _ _ Hfits). destruct (age_fits _ Ha) as [Hp _ _ _ _ Htier _ _ _ _ _ _].
    destruct (tier_volt _ top (age_fits _ Ha) 0) as (v & _ & Hv).
    { pose proof (wf_volt_nb _ (plain_wf _ Hp)). unfold tier. lia. }
    specialize (Htier v Hv). pose proof (tk_board _ _ _ _ _ _ Ht) as [Hb _ _ _ _]. rewrite Hb in Htier.
    destruct Hal as [(_ & _ & ->)|(_ & _ & ?)]; lia.
  - intros Hpos. split; [by apply Hsame|].
    destruct (ro_cc _ _ _ _ _ _ Hc) as [->|[->|Hcc]]; [by left|by right; left|].
    destruct (Z.eq_dec (a_cc_max (d_algo (g_chg s))) 0) as [|Hne]; [by right; left|]. right; right.
    rewrite (Hsame Hpos) in Hcc. by apply (aged_current _ _ _ _ Ht Hcc).
Qed.
End safety.
End driver.
