(* ===== verification/AacpDemo.v ===== *)
(** * Age adjusted profiles: instances and defects (src/bms/google_battery.c)

    A device tree and a driver that starts from it, on which the theorems apply, also with the
    charger and the state of charge of [MscDemo.v]; and what the code does where that differs
    from what it means to do, in general or on this driver. *)

From Stdlib Require Import String.
From S2P Require Import Prelude GbmsProfile GbmsLookup GbmsTables GbmsStorage StorageTable.
From S2P Require Import StorageContract StorageUse Eeprom GbmsCharge Ttf Ssoc SsocTrace SsocRecharge SsocDemo.
From S2P Require Import Msc MscDrv MscHealth MscLogic MscTable MscSafe MscRun MscDemo.
From S2P Require Import Bhi BhiDemo Aacp AacpStore AacpFade AacpTiers AacpCount AacpRun AacpCharge.

(** ** A device tree *)

Definition aged_props (name : string) : option (list Z) :=
  if String.eqb name "google,chg-temp-limits" then Some [0; 100; 450]
  else if String.eqb name "google,chg-cv-limits" then Some [4200000; 4300000; 4400000]
  else if String.eqb name "google,chg-cc-limits" then Some [30; 30; 20; 90; 70; 50]
  else if String.eqb name "google,aacr-ref-cycles" then Some [400; 800; 1200]
  else if String.eqb name "google,aacr-ref-fade10" then Some [50; 120; 200]
  else if String.eqb name "google,aafv-ref-cycles" then Some [300; 600; 900]
  else if String.eqb name "google,aafv-ref-offset" then Some [0; 50; 110]
  else if String.eqb name "google,aacc-chg-temp" then Some [0; 250; 500]
  else if String.eqb name "google,aacc-chg-weights" then Some (replicate 100 1000 ++ replicate 100 1500)
  else if String.eqb name "google,aacc-dsg-temp" then Some [0; 250; 500]
  else if String.eqb name "google,aacc-dsg-weights" then Some (replicate 100 10 ++ replicate 100 20)
  else None.

Definition aged_values (name : string) : option Z :=
  if String.eqb name "google,chg-battery-capacity" then Some 4500
  else if String.eqb name "google,aafv-config" then Some 1
  else if String.eqb name "google,aacr-config" then Some 1
  else None.

(** [ecc]: the cycles of a second table that is announced, of which there are several. *)
Definition aged_tree (ecc : option (list Z)) : DeviceTree := {|
  of_property_count_elems _ name :=
    match (if String.eqb name "google,chg-aact-ecc" then ecc else aged_props name) with
    | Some l => Z.of_nat (length l)
    | None => - EINVAL
    end;
  of_property_read_u32_array _ name n :=
    match (if String.eqb name "google,chg-aact-ecc" then ecc else aged_props name) with
    | Some l => if n <=? Z.of_nat (length l)
                then if 0 <=? n then inr (take (Z.to_nat n) l) else inl (- EINVAL)
                else inl (- EINVAL)
    | None => inl (- EINVAL)
    end;
  of_property_read_u32 _ name :=
    match aged_values name with Some v => inr v | None => inl (- EINVAL) end;
  of_property_read_bool _ name :=
    String.eqb name "google,aact-support-multiple-profiles";
  of_children _ := [];
  gbms_storage_read_brid _ := inr 7;
|}.

#[export] Instance aged_tree_laws ecc : @DeviceTreeLaws (aged_tree ecc).
Proof.
  split; cbn [of_property_read_u32_array of_property_read_u32 aged_tree].
  - intros _ name n l. destruct (if String.eqb _ _ then _ else _) as [l'|]; [|done].
    case_test; [|done]. case_test; [|done]. intros [= <-]. rewrite length_take. lia.
  - intros _ name n e. destruct (if String.eqb _ _ then _ else _) as [l'|]; [|by intros [= <-]].
    case_test; [|by intros [= <-]]. case_test; [done|by intros [= <-]].
  - intros _ name v. unfold aged_values.
    repeat (destruct (String.eqb _ _); [intros [= <-]; lia|]). done.
Qed.

#[export] Instance no_second_table : DeviceTree := aged_tree None.

(** ** A driver that starts *)

Definition blank_profile : gbms_chg_profile :=
  mk_profile "" (mk_limits 0 (replicate 10 0) 0 (replicate 10 0) 0 (replicate 10 0) None 0 0)
    (mk_behavior 0 0 0 0 0 0 0 0 0 0 false)
    (mk_aacr (replicate 10 0) (replicate 10 0) 0)
    (mk_aafv (replicate 16 0) (replicate 16 0) 0)
    (mk_aact 0 (replicate 10 0) 0 (replicate 10 0) 0 (replicate 5 0) 0 false false false false None)
    (mk_aacc 0 (replicate 10 0) None) (mk_aacc 0 (replicate 10 0) None).

Definition memory_left : allocs := mk_allocs true true true.

(** Before the start: [cc] cycles, the battery at [soc], opted out. *)
Definition before (cc soc : Z) (store : notes) : aacp_drv notes board :=
  mk_aacp _ _ blank_profile 0 0 cc (mk_age 0 0 800 2 1 1 (-1)) (mk_aacr_config 0 0 0 0 0 0 0)
    (mk_aafv_config 0 0 0 0) 0 1 false (mk_cycles 0 0 0 0 0 0) soc 7 true
    (notes_storage store) (demo_board 5 0 0).

Definition start (d : aacp_drv notes board) : outcome (aacp_drv notes board) :=
  let* r := batt_init_chg_profile memory_left 1 d in
  batt_init_aaxx 1 true true 0 r.2.

Definition started (cc soc : Z) : aacp_drv notes board :=
  match start (before cc soc blank) with Ret d => d | _ => before cc soc blank end.

Lemma start_returns cc soc : start (before cc soc blank) = Ret (started cc soc).
Proof. vm_compute. reflexivity. Qed.

Lemma started_aacr :
  aacr (p_profile (started 700 50)) =
    mk_aacr ([400; 800; 1200] ++ replicate 7 0) ([50; 120; 200] ++ replicate 7 0) 3.
Proof. vm_compute. reflexivity. Qed.

(** The arrays of a short table. *)
Lemma short_table c f nb :
  length c = 10%nat -> length f = 10%nat -> 1 <= nb <= 10 ->
  forallb (fun x => (0 <=? x) && (x <? 2 ^ 15)) (c ++ f) = true -> wf_aacr (mk_aacr c f nb).
Proof.
  intros Hc Hf Hnb Hall. rewrite forallb_forall in Hall.
  split; cbn [aacr_nb_limits aacr_reference_cycles aacr_reference_fade10]; try done;
    apply Forall_forall; intros x Hx; specialize (Hall x); bool_to_prop; apply Hall, list_elem_of_In;
    set_solver.
Qed.

Lemma aged_fades_ok : fade_ok (aacr (p_profile (started 700 50))).
Proof.
  rewrite started_aacr. right. split; [by apply short_table|].
  intros i cs fs ce fe Hi Hp Hc Hf. cbn in Hi. assert (i = 0 \/ i = 1 \/ i = 2) as [->|[-> | ->]] by lia;
    vm_compute in Hp, Hc, Hf; destruct Hp; simplify_eq; lia.
Qed.

#[local] Abbreviation state_ok := (aacp_ok 1 notes_knows notes_sees any_notes
  (p_profile (started 700 50)) 4400000 4200000 4500 2250 2 false).

Lemma started_store : p_store (started 700 50) = notes_storage blank.
Proof. vm_compute. reflexivity. Qed.

Lemma started_profile :
  limits (p_profile (started 700 50)) =
    mk_limits 3 ([0; 100; 450] ++ replicate 7 0) 3 ([4200000; 4300000; 4400000] ++ replicate 7 0)
      (-22) (replicate 10 0)
      (Some [1350000; 1350000; 900000; 4050000; 3150000; 2250000]) 4500 4400000.
Proof. vm_compute. reflexivity. Qed.

Lemma tiers_started : tiers_ok 1 4200000 (limits (p_profile (started 700 50))) 0 4400000.
Proof.
  rewrite started_profile. split; cbn [volt_nb_limits volt_limits last_volt]; try done; try lia.
  - exists [4200000; 4300000; 4400000]. split; [by vm_compute|]. repeat (apply Forall_cons; split; [lia|]). done.
  - by apply (bool_decide_unpack _).
  - intros i v Hi Hv. assert (i = 0 \/ i = 1 \/ i = 2) as [->|[-> | ->]] by lia;
      vm_compute in Hv; simplify_eq; lia.
Qed.

Lemma offsets_started :
  offsets_ok (p_aafv (started 700 50)) (aafv (p_profile (started 700 50))) (4400000 - 4200000).
Proof.
  split; [vm_compute; intuition congruence|vm_compute; intuition congruence|]. right.
  split_and!; [vm_compute; intuition congruence..|by vm_compute|by vm_compute|].
  by apply (bool_decide_eq_true_1 _).
Qed.

Lemma weights_started is_charge : side_ok 2 (side (p_profile (started 700 50)) is_charge).
Proof.
  destruct is_charge; (split; [by vm_compute|vm_compute; intuition congruence|]; intros t Ht;
    vm_compute in Ht; simplify_eq; vm_compute; congruence).
Qed.

(** The charge table that the start has read. *)
Lemma table_started : table_ok 1 (p_profile (started 700 50)) 4200000 4500 2250 (p_profile (started 700 50)).
Proof.
  split; rewrite ?started_profile; try done.
  - split; cbn; unfold GBMS_CHG_TEMP_NB_LIMITS_MAX, GBMS_CHG_VOLT_NB_LIMITS_MAX; try lia; try done.
    by eexists.
  - by left.
  - exists [30; 30; 20; 90; 70; 50]. unfold rates. rewrite started_profile. by split; vm_compute.
Qed.

(** The start establishes the invariant. *)
Lemma started_ok : state_ok (started 700 50).
Proof.
  split.
  - by vm_compute.
  - by vm_compute.
  - exact table_started.
  - by vm_compute.
  - exact tiers_started.
  - split; [split|apply aged_fades_ok|]; vm_compute; intuition congruence.
  - split; [split| | |right]; vm_compute; congruence.
  - exact offsets_started.
  - exact (weights_started true).
  - exact (weights_started false).
  - split; vm_compute; intuition congruence.
  - by vm_compute.
  - rewrite started_store. apply notes_ready.
  - by vm_compute.
  - by vm_compute.
  - by vm_compute.
Qed.

(** ** Witnesses *)

Lemma started_fades : fades (started 700 50).
Proof. split; [split|apply aged_fades_ok|]; vm_compute; intuition congruence. Qed.

Lemma aging_lowers_capacity_witness :
  exists cap1 cap2,
    aacr_get_capacity_at_cycle (started 700 50) 500 = Ret cap1 /\
    aacr_get_capacity_at_cycle (started 700 50) 900 = Ret cap2 /\
    ((forall f, reference_is (started 700 50) 900 f -> 0 < capacity_left (started 700 50) f) -> cap2 <= cap1).
Proof.
  destruct (aging_lowers_capacity (started 700 50) 500 900) as (cap1 & cap2 & H1 & H2 & _ & H); [exact started_fades|lia|].
  exists cap1, cap2. split; [exact H1|]. split; [exact H2|]. intros Hleft. apply H; [vm_compute; congruence|exact Hleft|].
  intros Hne. destruct Hne. vm_compute. reflexivity.
Defined.

(** The capacities of the witness. *)
Example started_capacities :
  aacr_get_capacity_at_cycle (started 700 50) 500 = Ret 4150 /\
  aacr_get_capacity_at_cycle (started 700 50) 900 = Ret 3850.
Proof. split; vm_compute; reflexivity. Qed.

Lemma connect_applies_offset_witness :
  exists off d', aacp_connect 1 memory_left (started 700 50) = Ret d' /\
    scheduled (aacp_update_opt_out_cutoff (started 700 50)) (aacp_get_cc (p_age (started 700 50))) off /\
    p_aafv_offset d' = off /\
    (0 <> off -> forall cells i v, cv_limits 1 3 = Some cells -> 0 <= i < 3 ->
       at_ (volt_limits (limits (p_profile d'))) i = Ret v -> v = lowered cells 3 (4400000 - off) i).
Proof.
  destruct (connect_applies_offset 1 notes_knows notes_sees any_notes (p_profile (started 700 50))
    4400000 4200000 4500 2250 2 memory_left (started 700 50)) as (off & d' & H1 & H2 & H3 & _ & _ & H4);
    [exact started_ok|done|].
  exists off, d'. split; [exact H1|]. split; [exact H2|]. split; [exact H3|]. exact H4.
Defined.

(** The offset of the witness: 110 mV, and the middle tier is capped too. *)
Example started_offset :
  exists d', aacp_connect 1 memory_left (started 700 50) = Ret d' /\ p_aafv_offset d' = 110000 /\
    take 3 (volt_limits (limits (p_profile d'))) = [4200000; 4290000; 4290000].
Proof. eexists. split; [vm_compute; reflexivity|]. by split; vm_compute. Qed.

Definition demo_events : list (aacp_event board) :=
  [ EvConnect memory_left; EvLevel 80; EvPoll 100; EvPoll 4000; EvDisconnect;
    EvAafvMaxOffset (inr 200); EvAafvApplyMax (inr 1); EvGauge (demo_board 9 0 0);
    EvConnect memory_left; EvAacrProfile [0; 400; 60; 800; 130]; EvAacrState 5 (inr 4);
    EvAafvProfile [7; 300; 0; 600; 40]; EvAafvState (inl (- EINVAL)); EvOptOut (inr 0) ].

Lemma demo_events_ok : Forall (event_ok 4400000 4200000 4500 2250 2) demo_events.
Proof.
  repeat (apply Forall_cons; split); try done; cbn [event_ok on_int]; try lia.
  - intros n Hn. vm_compute in Hn. simplify_eq. right.
    split; [by apply short_table|].
    intros i cs fs ce fe Hi Hp Hc Hf. change (0 <= i < 2) in Hi. assert (i = 0 \/ i = 1) as [-> | ->] by lia;
      vm_compute in Hp, Hc, Hf; destruct Hp; simplify_eq; lia.
  - unfold BATT_AACR_ALGO_REFERENCE_CAP, BATT_AACR_ALGO_LOW_B. lia.
  - split; [cbn; lia|]. repeat constructor; lia.
Qed.

Lemma aged_profiles_run_safe_witness :
  exists d', aacp_run 1 4 demo_events (started 700 50) = Ret d' /\ p_lock d' = false /\
    2250 <= capacity_ma (limits (p_profile d')) <= p_capacity d' /\
    (exists cells, rates 1 (p_profile (started 700 50)) = inr cells /\
       cccm_limits (limits (p_profile d')) = Some (cell_current
         (s32 (cc_ua_resolution (behavior (p_profile (started 700 50))))) (capacity_ma (limits (p_profile d'))) <$> cells)) /\
    (forall i v, 0 <= i < volt_nb_limits (limits (p_profile d')) ->
       at_ (volt_limits (limits (p_profile d'))) i = Ret v -> 4200000 <= v <= 4400000 - p_aafv_offset d') /\
    state_ok d'.
Proof.
  apply (aged_profiles_run_safe 1 4 notes_knows notes_sees any_notes (p_profile (started 700 50))
    4400000 4200000 4500 2250 2 demo_events);
    [exact started_ok|exact demo_events_ok].
Defined.

(** Charged from 50 to 80% at 30 degrees, after 5000 thousandths of a percent. *)
Definition weighing : gbms_chg_profile :=
  with_aacc_dsg (mk_aacc 0 (replicate 10 0) None)
    (with_aacc_chg (mk_aacc 3 ([0; 250; 500] ++ replicate 7 0)
       (Some (replicate 100 1000 ++ replicate 100 1500))) blank_profile).

Definition charged : aacp_drv notes board :=
  mk_aacp _ _ weighing 0 4500 700 (mk_age 0 700 800 2 1 1 (-1)) (mk_aacr_config 0 0 2 400 0 80 50)
    (mk_aafv_config 0 0 100 100) (-1) 0 false (mk_cycles 50 0 5000 180000 600 700) 80 7 true
    (notes_storage (note blank GBMS_TAG_AAWC (u32_bytes 5000))) (demo_board 5 0 0).

Lemma charged_adds add : session_adds charged true add -> add = 45000.
Proof.
  intros Ha. destruct Ha as [Ht|Ht|t avg ti Ht _ -> Hi]; [vm_compute in Ht; discriminate..|].
  vm_compute in Ht, Hi. simplify_eq. vm_compute. reflexivity.
Qed.

Lemma weighted_count_survives_reboot_witness :
  exists add d', __aacc_calculate_cc charged true = Ret d' /\ session_adds charged true add /\
    ac_aawc (p_cycles d') = ac_aawc (p_cycles charged) + add /\
    ac_start_soc (p_cycles d') = p_soc charged /\ ac_temp_sum (p_cycles d') = 0 /\ ac_time_sum (p_cycles d') = 0 /\
    ((forall ret st, gbms_storage_write GBMS_TAG_AAWC (Some (u32_bytes (u32 (ac_aawc (p_cycles d'))))) 4
        (p_store charged) = Ret (ret, st) -> 0 <= ret) ->
     forall a1 a2 junk (d0 : aacp_drv notes board),
       length (aacc_temp_limits (aacc_chg (p_profile d0))) = 10%nat ->
       length (aacc_temp_limits (aacc_dsg (p_profile d0))) = 10%nat -> p_store d0 = p_store d' ->
       exists ret (d1 : aacp_drv notes board), batt_init_aacc_profile 1 a1 a2 junk d0 = Ret (ret, d1) /\
         (ret = 0 -> aacc_is_supported (p_profile d1) = true ->
          ac_aawc (p_cycles d1) = ac_aawc (p_cycles d'))).
Proof.
  apply (weighted_count_survives_reboot notes_knows notes_sees any_notes 2 1 charged true).
  - split; [done|cbn; lia|]. intros t [= <-]. by vm_compute.
  - split; vm_compute; intuition congruence.
  - apply notes_ready.
  - split; vm_compute; congruence.
  - by exists [].
  - intros add Ha. rewrite (charged_adds add Ha). split; vm_compute; congruence.
Defined.

(** ** Charging with age *)

#[local] Existing Instance DemoMsc.types.
#[local] Existing Instance DemoMsc.elections.

Definition aged_profile : gbms_chg_profile := p_profile (started 700 50).

Lemma board_fits_demo : board_fits 1 aged_profile 4400000 4200000 4500 2250 90 4600000.
Proof.
  split; try (vm_compute; intuition congruence).
  intros cells Hr. vm_compute in Hr. apply (inj inr) in Hr. subst cells.
  split; [repeat (apply Forall_cons; split; [lia|]); done|]. exists 50. split; [done|]. by vm_compute.
Qed.

(** No charger yet, after 700 cycles. *)
Definition unplugged : aged_driver := mk_aged 99 (started 700 50) DemoMsc.start.

Lemma unplugged_ok :
  aged_ok 1 notes_knows notes_sees any_notes aged_profile 4400000 4200000 4500 2250 2 4600000 100 10 99 unplugged.
Proof. split; [exact started_ok|exact DemoMsc.start_ok|by vm_compute]. Qed.

(** A charger connects. *)
Definition plug : @aged_event board :=
  AgReport 100 (DemoMsc.gauge 250 1500000 4100000) (DemoMsc.cs 1 1 4300) memory_left.

#[local] Abbreviation may := (aged_may 4400000 4200000 4500 2250 2 4600000 99).

Lemma aged_charging_safe_witness :
  exists s, aged_step 1 4 plug unplugged = Ret s /\ p_lock (g_age s) = false /\
    a_fv_uv (d_algo (g_chg s)) <= 4600000 /\
    2250 <= capacity_ma (limits (p_profile (g_age s))) <= 4500 /\
    (forall e, may s e -> exists s', aged_step 1 4 e s = Ret s').
Proof.
  assert (Hm : may unplugged plug) by (apply may_report; [cbn; lia|by split]).
  destruct (aged_step_ok 1 4 notes_knows notes_sees any_notes aged_profile 4400000 4200000 4500 2250 2 90 4600000
    100 10 99 board_fits_demo unplugged plug unplugged_ok Hm) as (s & Hs & _).
  destruct (aged_charging_safe 1 4 notes_knows notes_sees any_notes aged_profile 4400000 4200000 4500 2250 2 90
    4600000 100 10 99 board_fits_demo unplugged s unplugged_ok) as (_ & Hnext & Hl & Hfv & Hcap & _).
  { eapply reach_step; [apply reach_start|exact Hm|exact Hs]. }
  exists s. exact (conj Hs (conj Hl (conj Hfv (conj Hcap Hnext)))).
Defined.

(** After 700 cycles the charger of the witness gets the current for 4000 mAh instead of 4500, and
    the tiers stop at 4.29 V. *)
Example aged_charging :
  (let* s := aged_step 1 4 plug unplugged in
   Ret (capacity_ma (limits (p_profile (g_age s))), a_cc_max (d_algo (g_chg s)), a_fv_uv (d_algo (g_chg s)),
     take 3 (volt_limits (limits (d_profile (g_chg s)))))) =
  Ret (4000, 3600000, 4200000, [4200000; 4290000; 4290000]).
Proof. vm_compute. reflexivity. Qed.

(** ** Defects *)

Section general.
Context {D G : Type} `{!FuelGauge G} `{!DeviceTree} (node count : Z).
#[local] Abbreviation drv := (aacp_drv D G).

(** [aacr_state_store] refuses an unknown state with the lock held: the next connect of a
    charger, and every request that takes the lock, blocks. *)
Theorem unknown_state_keeps_lock junk v (d : drv) :
  p_lock d = false -> BATT_AACR_ALGO_LOW_B < v ->
  aacr_state_store node count junk (inr v) d = Ret (- ERANGE, set_lock d true) /\
  forall m, aacp_connect node m (set_lock d true) = Deadlock.
Proof.
  intros Hl Hv. split; [|done].
  unfold aacr_state_store, with_int, BATT_AACR_ALGO_LOW_B, BATT_AA_UNKNOWN, mutex_lock in *.
  rewrite (proj2 (Z.ltb_ge v (-1))), Hl by lia. run. unfold aacr_request.
  unfold BATT_AA_UNKNOWN, BATT_AA_DISABLED, BATT_AA_ENABLED, BATT_AACR_ALGO_LOW_B, BATT_AACR_ALGO_UP_B,
    BATT_AACR_ALGO_REFERENCE_CAP.
  by rewrite !(proj2 (Z.eqb_neq v _)) by lia.
Qed.

(** Disabling AACR leaves the algorithm at whatever the stack held: [algo] is assigned only by
    the other states. *)
Theorem disabling_takes_algo_from_stack junk (d : drv) ret d' :
  ar_state (p_aacr d) <> BATT_AA_DISABLED ->
  aacr_state_store node count junk (inr BATT_AA_DISABLED) d = Ret (ret, d') ->
  ar_algo (p_aacr d') = junk.
Proof.
  intros Hs. unfold aacr_state_store, with_int, mutex_lock. change (BATT_AA_DISABLED <? BATT_AA_UNKNOWN) with false.
  cbn iota. destruct (p_lock d); [done|]. run.
  change (aacr_request BATT_AA_DISABLED (ar_state (p_aacr (set_lock d true))))
    with (Some (BATT_AA_DISABLED, @None Z)). cbn iota.
  rewrite (proj2 (Z.eqb_neq (ar_state (p_aacr (set_lock d true))) _) Hs). cbn [andb default].
  unfold aacr_update_chg_table, aacr_get_capacity_locked.
  set (d1 := set_aacr (set_lock d true) _). intros Hr.
  apply obind_Ret in Hr as (d2 & Hr & Hr2). apply obind_Ret in Hr as ([c d3] & Hc & Hr).
  simplify_eq. cbn [p_aacr mutex_unlock set_lock].
  assert (ar_algo (p_aacr d3) = junk) as <-.
  { destruct (negb _) in Hc; [by simplify_eq|]. case_test_in Hc; [by simplify_eq|].
    apply obind_Ret in Hc as (x & _ & Hc). destruct (x <? 0); by simplify_eq. }
  destruct (c =? _); [by simplify_eq|]. apply obind_Ret in Hr as (p & _ & Hr). by simplify_eq.
Qed.

(** [aact_profile_store] copies its whole buffer of a hundred cells into the table, so a
    request of the right size writes past the end of every smaller table. *)
Theorem aact_profile_overruns_table m scan (d : drv) t :
  p_aact_state d = BATT_AA_DISABLED -> aact_cccm_limits (aact (p_profile d)) = Some t ->
  (length t < 100)%nat ->
  Z.of_nat (length scan) = u32 ((aact_temp_nb_limits (aact (p_profile d)) - 1) *
    aact_volt_nb_limits (aact (p_profile d)) * aact_nb_limits (aact (p_profile d))) ->
  aact_profile_store node count m scan d = Undef.
Proof.
  intros Hs Ht Hlen Hscan. unfold aact_profile_store, aact_edit, aact_load_profile.
  rewrite Hs, Ht. change (negb (BATT_AA_DISABLED =? BATT_AA_DISABLED)) with false. run.
  change (0 <? 0) with false. cbn iota. rewrite Hscan, Z.eqb_refl, Ht. run. unfold fill.
  rewrite length_scan_cells. unfold GBMS_AACT_PROFILE_MAX.
  by rewrite (proj2 (Nat.ltb_lt _ _)) by lia.
Qed.

(** [aacc_chg_profile_store] and [aacc_dsg_profile_store] write the row that they are given without a
    check. *)
Theorem aacc_row_unchecked is_charge scan (d : drv) t :
  aacc_weight_limits (aacc_side d is_charge) = Some t -> length scan = 102%nat ->
  scanned scan 0 = 0 -> scanned scan 1 < 0 \/ Z.of_nat (length t) < scanned scan 1 * 100 + 100 ->
  - 2 ^ 24 < scanned scan 1 < 2 ^ 24 -> aacc_profile_store count is_charge scan d = Undef.
Proof.
  intros Ht Hlen Hid Hrow Hr. unfold aacc_profile_store. rewrite Ht, Hlen, Hid.
  change (negb (Z.of_nat 102 =? GBMS_AACC_SOC_SIZE + 2)) with false.
  change (negb (0 =? 0)) with false. cbn [andb]. cbn iota. unfold GBMS_AACC_SOC_SIZE, put_row.
  rewrite swrap_id, length_scan_cells by lia.
  destruct Hrow; [rewrite (proj2 (Z.ltb_lt _ 0)) by lia; done|].
  rewrite (proj2 (Z.ltb_lt (Z.of_nat (length t)) _)) by lia. by rewrite orb_true_r.
Qed.
End general.

(** On the demo driver. *)

Abbreviation demo_drv := (aacp_drv notes board).

Definition connected (tree : DeviceTree) (d : outcome demo_drv) : outcome demo_drv :=
  let* d := d in @aacp_connect notes board _ tree 1 memory_left d.
(** A request, then what is seen of the driver. *)
Definition asked (f : demo_drv -> outcome (Z * demo_drv)) (d : outcome demo_drv) : outcome demo_drv :=
  let* d := d in let* r := f d in Ret r.2.
Definition seen {A} (f : demo_drv -> A) (d : outcome demo_drv) : outcome A :=
  let* d := d in Ret (f d).

Definition tiers (d : demo_drv) : list Z := take 3 (volt_limits (limits (p_profile d))).
Definition aged : outcome demo_drv := Ret (started 700 50).

(** An error of the gauge, and a device tree without a capacity. *)
Definition silent_gauge : board := fun p => (- ENODATA, 0).
Definition no_capacity : DeviceTree := {|
  of_property_count_elems := @of_property_count_elems no_second_table;
  of_property_read_u32_array := @of_property_read_u32_array no_second_table;
  of_property_read_u32 _ _ := inl (- EINVAL);
  of_property_read_bool := @of_property_read_bool no_second_table;
  of_children := @of_children no_second_table;
  gbms_storage_read_brid := @gbms_storage_read_brid no_second_table;
|}.

(** A second table that cannot be read makes the driver read the default table again, but the
    offset stays recorded: the lowered voltage is lost, and later connects do not restore it. *)
Theorem failed_table_drops_offset :
  let lowered := connected no_second_table aged in
  let failed := connected no_second_table (asked (aact_state_store 1 4 memory_left (inr BATT_AA_ENABLED)) lowered) in
  let view := fun d => (p_aafv_offset d, tiers d) in
  seen view lowered = Ret (110000, [4200000; 4290000; 4290000]) /\
  seen view failed = Ret (110000, [4200000; 4300000; 4400000]) /\
  seen view (connected no_second_table failed) = Ret (110000, [4200000; 4300000; 4400000]).
Proof. cbv zeta. split_and!; vm_compute; reflexivity. Qed.

(** With a second table that is announced, a cycle count that is an error of the gauge selects
    table number -1, outside the list of names. *)
Theorem negative_cycles_leave_the_names :
  connected (aged_tree (Some [0; 300])) (Ret (set_aact_state (set_wear (started 700 50) (-5)
    (mk_age 0 (-5) 800 2 1 1 (-1))) BATT_AA_ENABLED)) = Undef.
Proof. vm_compute. reflexivity. Qed.

(** [aacr_profile_store] accepts two points with the same cycles; a battery with more cycles
    then divides by zero. *)
Theorem equal_points_divide_by_zero :
  let d := asked (aacr_profile_store 4 [0; 100; 10; 200; 20; 200; 20]) aged in
  seen (fun d => aacr_nb_limits (aacr (p_profile d))) d = Ret 3 /\
  connected no_second_table d = Undef.
Proof. cbv zeta. split; vm_compute; reflexivity. Qed.

(** A table that fades by more than everything is accepted, and the battery is charged for its full
    capacity again. *)
Theorem faded_out_charges_in_full :
  let d := asked (aacr_profile_store 4 [0; 400; 900; 800; 1100]) aged in
  (let* d := d in aacr_get_capacity_at_cycle d 599) = Ret 3600 /\
  (let* d := d in aacr_get_capacity_at_cycle d 601) = Ret 4500.
Proof. cbv zeta. split; vm_compute; reflexivity. Qed.

(** The largest offset is not checked against the voltage, unlike the others: the tiers become
    negative. *)
Theorem largest_offset_unchecked :
  seen tiers (connected no_second_table
    (asked (aafv_apply_max_store 4 (inr 1)) (asked (aafv_max_offset_store 4 (inr 5000)) aged))) =
  Ret [-600000; -600000; -600000].
Proof. vm_compute. reflexivity. Qed.

(** The tiers that AAFV reads again are not rounded to the resolution, which the start does. *)
Theorem lowered_tiers_unaligned :
  let rest d := (fun v => v mod fv_uv_resolution (behavior (p_profile d))) <$> tiers d in
  seen rest aged = Ret [0; 0; 0] /\ seen rest (connected no_second_table aged) = Ret [0; 15000; 15000].
Proof. cbv zeta. split; vm_compute; reflexivity. Qed.

(** Rounding to 50 mAh goes below the minimum: 79.8 instead of 80% here. *)
Theorem rounding_below_minimum :
  let d := set_capacity (started 700 50) 4510 in
  rate_of 4510 (ar_min_rate (p_aacr d)) = 3608 /\
  (let* d := asked (aacr_profile_store 4 [0; 400; 50; 800; 300]) (Ret d) in
   aacr_get_capacity_at_cycle d 790) = Ret 3600.
Proof. cbv zeta. split; vm_compute; reflexivity. Qed.

(** An error of the gauge is taken for the design capacity: it is compared as an [u32]. *)
Theorem gauge_error_is_capacity :
  seen p_capacity (asked (@batt_init_chg_profile notes board _ no_capacity memory_left 1)
    (Ret (set_board (before 0 50 blank) 50 silent_gauge))) = Ret 4294967.
Proof. vm_compute. reflexivity. Qed.
