(* ===== verification/Logbuffer.v ===== *)
(** * The log buffer of the drivers (src/bms/misc/logbuffer.c)

    A ring of lines of 256 bytes.  Writers append a line, preceded by one with the date when
    the ring starts over and after a suspend; the file shows the lines from the oldest.
    Times, the calendar and the expansion of a format are arguments. *)

From S2P Require Import Prelude GbmsText BhiDate.

Definition LOGBUFFER_ENTRY_SHIFT_MAX : Z := 20.
Definition LOGBUFFER_ENTRY_SHIFT_MIN : Z := 3.
Definition LOGBUFFER_ENTRY_SHIFT_DEFAULT : Z := 10.
Definition LOGBUFFER_ENTRY_SIZE : Z := 256.
Definition LOGBUFFER_ID_LENGTH : Z := 50.

(** [struct logbuffer]; the lock is held around each operation. *)
Record logbuffer := mk_lb {
  lb_head : Z;
  lb_tail : Z;
  lb_buffer : list Z;
  lb_id : list Z;
  lb_name : list Z;
  lb_suspend_count : Z;
}.

(** The variables of the module. *)
Record lb_module := mk_lm {
  driver_suspended_count : Z;
  log_index : Z;
  buffer_entries : Z;
  buffer_entry_mask : Z;
  buffer_entry_shift : Z;
}.

(** [local_clock] and the time of day. *)
Record lb_time := mk_lbt { local_clock : Z; real_sec : Z; real_nsec : Z }.

(** ** Text *)

Definition text_of (s : String.string) : list Z :=
  (fun c => Z.of_nat (Ascii.nat_of_ascii c)) <$> String.list_ascii_of_string s.

(** [%<n>u] and [%0<n>u] of a number of 64 bits. *)
Definition dec64 (n : Z) : list Z := digits_aux 20 n [].
Definition padded (n : nat) (c : Z) (l : list Z) : list Z := replicate (n - length l) c ++ l.

(** [%0<n>d] of an [int]. *)
Definition dec_pad (n : nat) (x : Z) : list Z := padded n 48 (print_dec x).

Definition stamp (now : lb_time) : list Z :=
  text_of "[" ++ padded 5 SPACE (dec64 (local_clock now / 1000000000)) ++ text_of "." ++
  padded 6 48 (dec64 (local_clock now mod 1000000000 / 1000)) ++ text_of "] ".

Definition utc_text `{Calendar} (now : lb_time) : list Z :=
  let tm := rtc_time64_to_tm (real_sec now) in
  stamp now ++ print_dec (s32 (tm_year tm + 1900)) ++ text_of "-" ++ dec_pad 2 (s32 (tm_mon tm + 1)) ++
  text_of "-" ++ dec_pad 2 (tm_mday tm) ++ text_of " " ++ dec_pad 2 (tm_hour tm) ++ text_of ":" ++
  dec_pad 2 (tm_min tm) ++ text_of ":" ++ dec_pad 2 (tm_sec tm) ++ text_of "." ++
  padded 9 48 (dec64 (real_nsec now)) ++ text_of " UTC".

(** [scnprintf] to [size] bytes at [off] of an object, and the string at the start of one. *)
Definition poke (off : Z) (bytes buf : list Z) : outcome (list Z) :=
  if (0 <=? off) && (off + Z.of_nat (length bytes) <=? Z.of_nat (length buf))
  then Ret (take (Z.to_nat off) buf ++ bytes ++ drop (Z.to_nat off + length bytes) buf)
  else Undef.

Definition terminated (size : Z) (text : list Z) : list Z := take (Z.to_nat (size - 1)) text ++ [0].

Fixpoint c_str (l : list Z) : outcome (list Z) :=
  match l with
  | [] => Undef
  | c :: l => if c =? 0 then Ret [] else let* s := c_str l in Ret (c :: s)
  end.

(** ** Operations *)

Section logbuffer.
Context `{Calendar}.

Definition __logbuffer_log (m : lb_module) (now : lb_time) (tmpbuffer : list Z) (record_utc : bool)
    (b : logbuffer) : outcome logbuffer :=
  let* text := if record_utc then Ret (utc_text now)
               else let* s := c_str tmpbuffer in Ret (stamp now ++ s) in
  let* buffer := poke (u32 (lb_head b * LOGBUFFER_ENTRY_SIZE)) (terminated LOGBUFFER_ENTRY_SIZE text) (lb_buffer b) in
  let head := Z.land (u32 (lb_head b + 1)) (buffer_entry_mask m) in
  let tail := if head =? lb_tail b then Z.land (u32 (lb_tail b + 1)) (buffer_entry_mask m) else lb_tail b in
  Ret (mk_lb head tail buffer (lb_id b) (lb_name b) (lb_suspend_count b)).

(** [expand]: the format with its arguments; [stack]: what [tmpbuffer] holds before. *)
Definition logbuffer_vlog (m : lb_module) (now : lb_time) (fmt : option (list Z))
    (expand : list Z -> list Z) (stack : list Z) (b : logbuffer) : outcome logbuffer :=
  let tmpbuffer := match fmt with
    | Some f => let t := terminated LOGBUFFER_ENTRY_SIZE (expand f) in t ++ drop (length t) stack
    | None => stack
    end in
  let log_both b := let* b := __logbuffer_log m now tmpbuffer true b in
                    __logbuffer_log m now tmpbuffer false b in
  if (lb_head b =? lb_tail b) || (lb_head b =? u32 (buffer_entries m - 1)) then log_both b
  else if negb (driver_suspended_count m =? lb_suspend_count b) then
    let* b := __logbuffer_log m now tmpbuffer true b in
    __logbuffer_log m now tmpbuffer false
      (mk_lb (lb_head b) (lb_tail b) (lb_buffer b) (lb_id b) (lb_name b) (driver_suspended_count m))
  else match fmt with
       | None => Ret b
       | Some _ => __logbuffer_log m now tmpbuffer false b
       end.

Definition logbuffer_log (m : lb_module) (now : lb_time) (instance : option logbuffer)
    (fmt : option (list Z)) (expand : list Z -> list Z) (stack : list Z) : outcome (option logbuffer) :=
  match instance with
  | None => Ret None
  | Some b => let* b := logbuffer_vlog m now fmt expand stack b in Ret (Some b)
  end.

Definition next_index (m : lb_module) : lb_module :=
  mk_lm (driver_suspended_count m) (u32 (log_index m + 1)) (buffer_entries m) (buffer_entry_mask m)
    (buffer_entry_shift m).

(** The format gets a number in front, and loses its end if it is too long. *)
Definition indexed_format (index : Z) (fmt : list Z) : list Z :=
  take (Z.to_nat (LOGBUFFER_ENTRY_SIZE - 1))
    (text_of "[" ++ padded 5 SPACE (dec64 index) ++ text_of "] " ++ fmt).

Definition logbuffer_indexed_vlog (m : lb_module) (now : lb_time) (fmt : list Z)
    (expand : list Z -> list Z) (stack : list Z) (b : logbuffer) : outcome (lb_module * logbuffer) :=
  let m := next_index m in
  let* b := logbuffer_vlog m now (Some (indexed_format (log_index m) fmt)) expand stack b in
  Ret (m, b).

(** What the console gets is left out. *)
Definition logbuffer_logk (m : lb_module) (now : lb_time) (instance : option logbuffer)
    (fmt : option (list Z)) (expand : list Z -> list Z) (stack : list Z)
    : outcome (lb_module * option logbuffer) :=
  match fmt, instance with
  | Some f, Some b =>
    let* r := logbuffer_indexed_vlog m now f expand stack b in Ret (r.1, Some r.2)
  | _, _ => Ret (m, instance)
  end.

(** [printed]: what the console answers. *)
Definition dev_logbuffer_logk (m : lb_module) (now : lb_time) (dev : bool) (instance : option logbuffer)
    (fmt : option (list Z)) (expand : list Z -> list Z) (stack : list Z) (printed : Z)
    : outcome (Z * lb_module * option logbuffer) :=
  match dev, instance with
  | true, Some b =>
    match fmt with
    | None => Ret (0, m, instance)
    | Some f => let* r := logbuffer_indexed_vlog m now f expand stack b in Ret (printed, r.1, Some r.2)
    end
  | _, _ => Ret (- ENODEV, m, instance)
  end.

End logbuffer.

(** The lines that are shown, from [tail]; [turns]: no more than there are entries. *)
Fixpoint show_loop (turns : nat) (m : lb_module) (tail : Z) (b : logbuffer) : outcome (list (list Z)) :=
  if tail =? lb_head b then Ret [] else
  match turns with
  | O => Undef
  | S turns =>
    let* line := c_str (drop (Z.to_nat (u32 (tail * LOGBUFFER_ENTRY_SIZE))) (lb_buffer b)) in
    let* lines := show_loop turns m (Z.land (u32 (tail + 1)) (buffer_entry_mask m)) b in
    Ret (line :: lines)
  end.

Definition logbuffer_seq_show (m : lb_module) (b : logbuffer) : outcome (list (list Z)) :=
  show_loop (Z.to_nat (buffer_entries m)) m (lb_tail b) b.

(** [instance], [buffer]: whether the allocations succeed; [misc]: the result of
    [misc_register]. *)
Definition logbuffer_register (m : lb_module) (name : list Z) (instance buffer : bool) (misc : Z)
    : Z + logbuffer :=
  if negb instance then inl (- ENOMEM) else
  if negb buffer then inl (- ENOMEM) else
  if negb (misc =? 0) then inl (- ENOMEM) else
  inr (mk_lb 0 0 (replicate (Z.to_nat (u32 (buffer_entries m * LOGBUFFER_ENTRY_SIZE))) 0)
         (take (Z.to_nat (LOGBUFFER_ID_LENGTH - 1)) name)
         (take (Z.to_nat (LOGBUFFER_ID_LENGTH - 1)) (text_of "logbuffer_" ++ name)) 0).

Definition logbuffer_suspend (m : lb_module) : lb_module :=
  mk_lm (u32 (driver_suspended_count m + 1)) (log_index m) (buffer_entries m) (buffer_entry_mask m)
    (buffer_entry_shift m).

(** [shift]: the parameter of the module. *)
Definition logbuffer_dev_init (shift : Z) : lb_module :=
  let shift := if LOGBUFFER_ENTRY_SHIFT_MAX <? shift then LOGBUFFER_ENTRY_SHIFT_MAX else shift in
  let shift := if shift <? LOGBUFFER_ENTRY_SHIFT_MIN then LOGBUFFER_ENTRY_SHIFT_MIN else shift in
  mk_lm 0 0 (u32 (Z.shiftl 1 shift)) (Z.ones shift) shift.
