(* ===== verification/LogbufferRing.v ===== *)
(** * The log buffer keeps the latest lines (src/bms/misc/logbuffer.c)

    [log_spec] is an unbounded list of lines: [spec_run] the log with the stack that an empty
    message leaks, [meant_run] the log as its comments mean it.  The ring implements
    the first, which is the second when no message is empty: what the file shows is the end of that list, in order. *)

From S2P Require Import Prelude GbmsText BhiDate Logbuffer.

(** ** Bytes *)

Lemma c_str_ok text rest : 0 ∉ text -> c_str (text ++ 0 :: rest) = Ret text.
Proof.
  induction text as [|c text IH]; intros H; [done|]. cbn [c_str app]. apply not_elem_of_cons in H as [Hc H].
  rewrite (proj2 (Z.eqb_neq c 0)) by lia. by rewrite (IH H).
Qed.

(** The text before the first zero byte. *)
Fixpoint upto0 (l : list Z) : list Z :=
  match l with
  | [] => []
  | c :: l => if c =? 0 then [] else c :: upto0 l
  end.

Lemma upto0_no_zero l : 0 ∉ upto0 l.
Proof.
  induction l as [|c l IH]; cbn [upto0]; [apply not_elem_of_nil|]. case_test; [apply not_elem_of_nil|].
  apply not_elem_of_cons. by split; [lia|].
Qed.

Lemma c_str_upto0 l : 0 ∈ l -> c_str l = Ret (upto0 l).
Proof.
  induction l as [|c l IH]; intros H; [by apply not_elem_of_nil in H|]. cbn [c_str upto0]. case_test; [done|].
  apply elem_of_cons in H as [|H]; [lia|]. by rewrite (IH H).
Qed.

Lemma upto0_app l x : upto0 (l ++ 0 :: x) = upto0 l.
Proof. induction l as [|c l IH]; [done|]. cbn [app upto0]. by destruct (c =? 0); rewrite ?IH. Qed.

Lemma length_upto0 l : (length (upto0 l) <= length l)%nat.
Proof. induction l as [|c l IH]; cbn [upto0 length]; [lia|]. destruct (c =? 0); cbn [length]; lia. Qed.

Lemma upto0_split l : exists rest, l ++ [0] = upto0 l ++ 0 :: rest.
Proof.
  induction l as [|c l [rest IH]]; [by exists []|]. cbn [upto0 app]. case_test; [|by exists rest; rewrite IH].
  subst c. by eexists.
Qed.

(** A line that a slot holds: its text, ended by a zero byte within the slot. *)
Definition holds_line (buf : list Z) (s : nat) (text : list Z) : Prop :=
  (length text < 256)%nat /\ 0 ∉ text /\
  forall k c, (text ++ [0]) !! k = Some c -> buf !! (256 * s + k)%nat = Some c.

Lemma line_read buf s text : holds_line buf s text -> c_str (drop (256 * s) buf) = Ret text.
Proof.
  intros (_ & Hz & Hl). assert (Hpre : take (length (text ++ [0])) (drop (256 * s) buf) = text ++ [0]).
  { apply list_eq. intros k. destruct (decide (k < length (text ++ [0%Z]))%nat) as [Hk|Hk].
    - destruct (lookup_lt_is_Some_2 _ _ Hk) as [c Hc]. rewrite lookup_take_lt, lookup_drop by done.
      by rewrite Hc, (Hl k c Hc).
    - rewrite !lookup_ge_None_2; [done|lia|rewrite length_take; lia]. }
  rewrite <- (take_drop (length (text ++ [0])) (drop (256 * s) buf)), Hpre, <- app_assoc.
  by apply c_str_ok.
Qed.

Lemma poke_lookup (buf bytes : list Z) off i :
  (off + length bytes <= length buf)%nat ->
  (take off buf ++ bytes ++ drop (off + length bytes) buf) !! i =
    if decide (off <= i < off + length bytes)%nat then bytes !! (i - off)%nat else buf !! i.
Proof.
  intros Hl. destruct (decide _) as [Hi|Hi].
  - rewrite lookup_app_r by (rewrite length_take; lia). rewrite length_take, Nat.min_l by lia.
    apply lookup_app_l. lia.
  - destruct (decide (i < off)%nat).
    + rewrite lookup_app_l by (rewrite length_take; lia). by apply lookup_take_lt.
    + rewrite lookup_app_r by (rewrite length_take; lia). rewrite length_take, Nat.min_l by lia.
      rewrite lookup_app_r by lia. rewrite lookup_drop. f_equal. lia.
Qed.

(** The text of a line: 255 bytes of it, up to a zero byte. *)
Definition line_of (text : list Z) : list Z := upto0 (take 255 text).

Lemma terminated_length text : (length (terminated LOGBUFFER_ENTRY_SIZE text) <= 256)%nat.
Proof.
  unfold terminated, LOGBUFFER_ENTRY_SIZE. rewrite length_app, length_take.
  change (Z.to_nat (256 - 1)) with 255%nat. cbn [length]. lia.
Qed.

Lemma poke_line buf s text :
  (256 * s + 256 <= length buf)%nat ->
  exists buf', poke (256 * Z.of_nat s) (terminated LOGBUFFER_ENTRY_SIZE text) buf = Ret buf' /\
    length buf' = length buf /\ holds_line buf' s (line_of text) /\
    forall s' t, s' <> s -> holds_line buf s' t -> holds_line buf' s' t.
Proof.
  intros Hl. pose proof (terminated_length text) as Ht. set (bytes := terminated _ text) in *.
  assert (Hoff : Z.to_nat (256 * Z.of_nat s) = (256 * s)%nat) by lia.
  unfold poke. rewrite (proj2 (Z.leb_le 0 _)) by lia. rewrite (proj2 (Z.leb_le _ _)) by lia.
  cbn [andb]. rewrite Hoff. eexists; split; [done|]. split_and!.
  - rewrite !length_app, length_take, length_drop. lia.
  - destruct (upto0_split (take 255 text)) as [rest Hrest].
    assert (Hb : bytes = line_of text ++ 0 :: rest) by exact Hrest.
    split_and!; [|apply upto0_no_zero|].
    + unfold line_of. pose proof (length_upto0 (take 255 text)). rewrite length_take in *. lia.
    + intros k c Hk. pose proof (lookup_lt_Some _ _ _ Hk) as Hlt. rewrite length_app in Hlt. cbn [length] in Hlt.
      assert (Hlen : length bytes = (length (line_of text) + S (length rest))%nat) by (rewrite Hb, length_app; done).
      rewrite poke_lookup by lia. rewrite decide_True by lia.
      replace (256 * s + k - 256 * s)%nat with k by lia.
      rewrite Hb. change (0 :: rest) with ([0] ++ rest). rewrite app_assoc. by apply lookup_app_l_Some.
  - intros s' t Hne (Hlt & Hz & Hc). split_and!; [done..|]. intros k c Hk. rewrite poke_lookup by lia.
    pose proof (lookup_lt_Some _ _ _ Hk) as Hkl. rewrite length_app in Hkl. cbn [length] in Hkl.
    rewrite decide_False by nia. by apply Hc.
Qed.

(** ** The ring *)

(** What start-up leaves: a power of two, from 8 to 2^20. *)
Definition module_ok (m : lb_module) : Prop :=
  3 <= buffer_entry_shift m <= 20 /\ buffer_entries m = 2 ^ buffer_entry_shift m /\
  buffer_entry_mask m = Z.ones (buffer_entry_shift m) /\ 0 <= driver_suspended_count m <= U32_MAX.

Lemma entries_range m : module_ok m -> 8 <= buffer_entries m <= 2 ^ 20.
Proof.
  intros (Hs & -> & _). change 8 with (2 ^ 3). split; apply Z.pow_le_mono_r; lia.
Qed.

Lemma next_slot m i : module_ok m -> 0 <= i < buffer_entries m ->
  Z.land (u32 (i + 1)) (buffer_entry_mask m) = (i + 1) mod buffer_entries m.
Proof.
  intros Hm Hi. pose proof (entries_range m Hm). destruct Hm as (Hs & He & -> & _).
  rewrite wrap_id by lia. by rewrite Z.land_ones, He by lia.
Qed.

Lemma next_mod E j : 0 < E -> (j mod E + 1) mod E = (j + 1) mod E.
Proof. intros HE. by rewrite Z.add_mod_idemp_l by lia. Qed.

(** The oldest line that is kept, of [n]. *)
Definition oldest (E n : Z) : Z := Z.max 0 (n - (E - 1)).

Record lb_rep (m : lb_module) (b : logbuffer) (log : list (list Z)) : Prop := {
  rep_size : Z.of_nat (length (lb_buffer b)) = 256 * buffer_entries m;
  rep_head : lb_head b = Z.of_nat (length log) mod buffer_entries m;
  rep_tail : lb_tail b = oldest (buffer_entries m) (Z.of_nat (length log)) mod buffer_entries m;
  rep_lines : forall j t, oldest (buffer_entries m) (Z.of_nat (length log)) <= Z.of_nat j -> log !! j = Some t ->
    holds_line (lb_buffer b) (Z.to_nat (Z.of_nat j mod buffer_entries m)) t;
}.

(** Two numbers less than [E] apart are in different slots. *)
Lemma mod_near E i j : 0 < E -> i mod E = j mod E -> Z.abs (i - j) < E -> i = j.
Proof.
  intros HE Hm Hd. pose proof (Z.div_mod i E ltac:(lia)). pose proof (Z.div_mod j E ltac:(lia)).
  assert (i - j = E * (i / E - j / E)) by lia. assert (i / E - j / E = 0) by nia. lia.
Qed.

(** Head and tail meet only when nothing has been logged. *)
Lemma rep_empty m b log : module_ok m -> lb_rep m b log ->
  (lb_head b =? lb_tail b) = bool_decide (log = []).
Proof.
  intros Hm [_ -> -> _]. pose proof (entries_range m Hm). destruct (Z.eqb_spec
    (Z.of_nat (length log) mod buffer_entries m) (oldest (buffer_entries m) (Z.of_nat (length log)) mod buffer_entries m)) as [E|E].
  - apply mod_near in E; [|lia|unfold oldest; lia]. symmetry. apply bool_decide_eq_true. unfold oldest in E.
    destruct log; [done|]. cbn [length] in E. lia.
  - symmetry. apply bool_decide_eq_false. intros ->. apply E. f_equal.
    unfold oldest. cbn [length]. lia.
Qed.

Section ring.
Context `{Calendar}.

Lemma log_one m now tmp (utc : bool) b log :
  module_ok m -> lb_rep m b log -> (utc = false -> 0 ∈ tmp) ->
  exists b', __logbuffer_log m now tmp utc b = Ret b' /\
    lb_rep m b' (log ++ [line_of (if utc then utc_text now else stamp now ++ upto0 tmp)]) /\
    lb_suspend_count b' = lb_suspend_count b /\ lb_id b' = lb_id b /\ lb_name b' = lb_name b.
Proof.
  intros Hm [Hsize Hhead Htail Hlines] Ht. pose proof (entries_range m Hm) as HE.
  set (E := buffer_entries m) in *. set (n := Z.of_nat (length log)) in *.
  pose proof (Z.mod_pos_bound n E ltac:(lia)) as Hh. unfold __logbuffer_log.
  set (text := if utc then _ else stamp now ++ upto0 tmp).
  assert (Htext : (if utc then Ret (utc_text now) else let* s := c_str tmp in Ret (stamp now ++ s)) = Ret text).
  { subst text. destruct utc; [done|]. by rewrite (c_str_upto0 tmp (Ht eq_refl)). }
  rewrite Htext. run. rewrite Hhead.
  replace (u32 (n mod E * LOGBUFFER_ENTRY_SIZE)) with (256 * Z.of_nat (Z.to_nat (n mod E)))
    by (unfold LOGBUFFER_ENTRY_SIZE; rewrite wrap_id; lia).
  destruct (poke_line (lb_buffer b) (Z.to_nat (n mod E)) text) as (buf & -> & Hlen & Hnew & Hold); [lia|]. run.
  rewrite (next_slot m) by first [done|fold E; lia]. fold E. rewrite next_mod by lia.
  assert (Hn' : Z.of_nat (length (log ++ [line_of text])) = n + 1) by (rewrite length_app; cbn [length]; lia).
  eexists; split; [done|]. split; [|done].
  assert (Ho : oldest E n <= oldest E (n + 1) <= oldest E n + 1) by (unfold oldest; lia).
  split; cbn [lb_buffer lb_head lb_tail]; rewrite ?Hn'; [by rewrite Hlen|done| |].
  - rewrite Htail. destruct (Z.eqb_spec ((n + 1) mod E) (oldest E n mod E)) as [Heq|Hne].
    + rewrite (next_slot m) by first [done|apply Z.mod_pos_bound; lia]. fold E. rewrite next_mod by lia.
      destruct (decide (n < E - 1)).
      * exfalso. unfold oldest in Heq. rewrite Z.max_l in Heq by lia.
        apply mod_near in Heq; lia.
      * f_equal. unfold oldest. lia.
    + f_equal. unfold oldest in *. destruct (decide (n < E - 1)); [lia|]. exfalso. apply Hne.
      rewrite Z.max_r by lia. replace (n + 1) with (n - (E - 1) + 1 * E) by lia. by rewrite Z.mod_add by lia.
  - intros j t Hj Hlook. fold E in Hj |- *. apply lookup_app_Some in Hlook as [Hlook|[Hge Hlook]].
    + pose proof (lookup_lt_Some _ _ _ Hlook) as Hlt. apply Hold; [|apply Hlines; [lia|done]].
      intros Heq. apply Z2Nat.inj in Heq; [|apply Z.mod_pos_bound; lia|lia].
      apply mod_near in Heq; unfold oldest in *; lia.
    + apply list_lookup_singleton_Some in Hlook as [Hz <-].
      assert (Z.of_nat j = n) as -> by lia. done.
Qed.

(** The file shows the lines that are kept, in order. *)
Lemma show_loop_ok m b log : module_ok m -> lb_rep m b log ->
  forall k j, (j + k = length log)%nat -> oldest (buffer_entries m) (Z.of_nat (length log)) <= Z.of_nat j ->
  forall turns, (k <= turns)%nat ->
  show_loop turns m (Z.of_nat j mod buffer_entries m) b = Ret (drop j log).
Proof.
  intros Hm [Hsize Hhead Htail Hlines]. pose proof (entries_range m Hm) as HE. set (E := buffer_entries m) in *.
  induction k as [|k IH]; intros j Hj Hold turns Ht.
  { assert (j = length log) as -> by lia. rewrite drop_ge by lia.
    destruct turns; cbn [show_loop]; by rewrite Hhead, Z.eqb_refl. }
  destruct turns as [|turns]; [lia|]. cbn [show_loop]. rewrite Hhead. rewrite (proj2 (Z.eqb_neq _ _)).
  2: { intros Heq. apply mod_near in Heq; unfold oldest in *; lia. }
  destruct (lookup_lt_is_Some_2 log j) as [t Ht']; [lia|].
  pose proof (Z.mod_pos_bound (Z.of_nat j) E ltac:(lia)).
  replace (Z.to_nat (u32 (Z.of_nat j mod E * LOGBUFFER_ENTRY_SIZE))) with (256 * Z.to_nat (Z.of_nat j mod E))%nat
    by (unfold LOGBUFFER_ENTRY_SIZE; rewrite wrap_id; lia).
  rewrite (line_read _ _ _ (Hlines j t Hold Ht')). run.
  rewrite (next_slot m) by first [done|fold E; lia]. fold E. rewrite next_mod by lia.
  replace (Z.of_nat j + 1) with (Z.of_nat (S j)) by lia.
  rewrite (IH (S j)) by lia. run. by rewrite <- (drop_S log t j).
Qed.

Lemma show_ok m b log : module_ok m -> lb_rep m b log ->
  logbuffer_seq_show m b = Ret (drop (Z.to_nat (oldest (buffer_entries m) (Z.of_nat (length log)))) log).
Proof.
  intros Hm Hr. pose proof (entries_range m Hm). unfold logbuffer_seq_show. rewrite (rep_tail _ _ _ Hr).
  set (n := Z.of_nat (length log)). assert (0 <= oldest (buffer_entries m) n <= n) by (unfold oldest; lia).
  rewrite <- (Z2Nat.id (oldest _ n)) at 1 by lia.
  apply (show_loop_ok m b log Hm Hr (Z.to_nat (n - oldest (buffer_entries m) n))); unfold oldest in *; lia.
Qed.

(** ** The log without a bound *)

Record log_spec := mk_spec { sp_lines : list (list Z); sp_seen : Z }.

(** A line with the date comes first when nothing was logged yet and where the ring starts
    over. *)
Definition starts_over (E : Z) (s : log_spec) : bool :=
  bool_decide (sp_lines s = []) || (Z.of_nat (length (sp_lines s)) mod E =? E - 1).

(** The line of a message; without a format it is whatever the stack holds. *)
Definition message (now : lb_time) (fmt : option (list Z)) (expand : list Z -> list Z) (stack : list Z) : list Z :=
  line_of (stamp now ++ upto0 (match fmt with Some f => take 255 (expand f) | None => stack end)).

Definition spec_log (m : lb_module) (now : lb_time) (fmt : option (list Z)) (expand : list Z -> list Z)
    (stack : list Z) (s : log_spec) : log_spec :=
  let both := sp_lines s ++ [line_of (utc_text now); message now fmt expand stack] in
  if starts_over (buffer_entries m) s then mk_spec both (sp_seen s)
  else if negb (driver_suspended_count m =? sp_seen s) then mk_spec both (driver_suspended_count m)
  else match fmt with
       | None => s
       | Some _ => mk_spec (sp_lines s ++ [message now fmt expand stack]) (sp_seen s)
       end.

Inductive lb_event :=
| LbLog (now : lb_time) (fmt : option (list Z)) (expand : list Z -> list Z) (stack : list Z)
| LbLogk (now : lb_time) (fmt : list Z) (expand : list Z -> list Z) (stack : list Z)
| LbSuspend.

Definition lb_step (e : lb_event) (m : lb_module) (b : logbuffer) : outcome (lb_module * logbuffer) :=
  match e with
  | LbLog now fmt expand stack => let* b := logbuffer_vlog m now fmt expand stack b in Ret (m, b)
  | LbLogk now fmt expand stack => logbuffer_indexed_vlog m now fmt expand stack b
  | LbSuspend => Ret (logbuffer_suspend m, b)
  end.

Definition spec_step (e : lb_event) (m : lb_module) (s : log_spec) : lb_module * log_spec :=
  match e with
  | LbLog now fmt expand stack => (m, spec_log m now fmt expand stack s)
  | LbLogk now fmt expand stack =>
    (next_index m, spec_log m now (Some (indexed_format (log_index (next_index m)) fmt)) expand stack s)
  | LbSuspend => (logbuffer_suspend m, s)
  end.

Fixpoint lb_run (es : list lb_event) (m : lb_module) (b : logbuffer) : outcome (lb_module * logbuffer) :=
  match es with
  | [] => Ret (m, b)
  | e :: es => let* r := lb_step e m b in lb_run es r.1 r.2
  end.

Fixpoint spec_run (es : list lb_event) (m : lb_module) (s : log_spec) : lb_module * log_spec :=
  match es with
  | [] => (m, s)
  | e :: es => let '(m, s) := spec_step e m s in spec_run es m s
  end.

(** The log as it is meant: an empty message only logs the date. *)
Definition meant_log (m : lb_module) (now : lb_time) (fmt : option (list Z)) (expand : list Z -> list Z)
    (s : log_spec) : log_spec :=
  let text := match fmt with
              | Some f => [line_of (stamp now ++ upto0 (take 255 (expand f)))]
              | None => []
              end in
  let dated := sp_lines s ++ line_of (utc_text now) :: text in
  if starts_over (buffer_entries m) s then mk_spec dated (sp_seen s)
  else if negb (driver_suspended_count m =? sp_seen s) then mk_spec dated (driver_suspended_count m)
  else mk_spec (sp_lines s ++ text) (sp_seen s).

Definition meant_step (e : lb_event) (m : lb_module) (s : log_spec) : lb_module * log_spec :=
  match e with
  | LbLog now fmt expand _ => (m, meant_log m now fmt expand s)
  | LbLogk now fmt expand _ =>
    (next_index m, meant_log m now (Some (indexed_format (log_index (next_index m)) fmt)) expand s)
  | LbSuspend => (logbuffer_suspend m, s)
  end.

Fixpoint meant_run (es : list lb_event) (m : lb_module) (s : log_spec) : lb_module * log_spec :=
  match es with
  | [] => (m, s)
  | e :: es => let '(m, s) := meant_step e m s in meant_run es m s
  end.

(** The message is not empty. *)
Definition has_text (e : lb_event) : Prop :=
  match e with LbLog _ None _ _ => False | _ => True end.

Lemma step_as_meant e m s : has_text e -> spec_step e m s = meant_step e m s.
Proof. by destruct e as [now [f|] expand stack|now f expand stack|]. Qed.

Lemma run_as_meant es : forall m s, Forall has_text es -> spec_run es m s = meant_run es m s.
Proof.
  induction es as [|e es IH]; intros m s Ht; [done|]. apply Forall_cons in Ht as [He Ht].
  cbn [spec_run meant_run]. rewrite (step_as_meant e m s He). destruct (meant_step e m s). by apply IH.
Qed.

(** The stack is only read for a message without a format, and ends somewhere then. *)
Definition stack_ok (e : lb_event) : Prop :=
  match e with LbLog _ None _ stack => 0 ∈ stack | _ => True end.

Definition implements (m : lb_module) (b : logbuffer) (s : log_spec) : Prop :=
  module_ok m /\ lb_rep m b (sp_lines s) /\ lb_suspend_count b = sp_seen s.

Lemma tmpbuffer_text f (expand : list Z -> list Z) (stack : list Z) :
  let t := terminated LOGBUFFER_ENTRY_SIZE (expand f) in
  0 ∈ t ++ drop (length t) stack /\ upto0 (t ++ drop (length t) stack) = upto0 (take 255 (expand f)).
Proof.
  intros t. change t with (take 255 (expand f) ++ [0]). rewrite <- app_assoc. cbn [app].
  split; [set_solver|apply upto0_app].
Qed.

Lemma log_message m now fmt expand stack b log :
  module_ok m -> lb_rep m b log -> stack_ok (LbLog now fmt expand stack) ->
  let tmp := match fmt with
    | Some f => let t := terminated LOGBUFFER_ENTRY_SIZE (expand f) in t ++ drop (length t) stack
    | None => stack
    end in
  exists b', __logbuffer_log m now tmp false b = Ret b' /\ lb_rep m b' (log ++ [message now fmt expand stack]) /\
    lb_suspend_count b' = lb_suspend_count b.
Proof.
  intros Hm Hb Hs tmp.
  assert (Htmp : 0 ∈ tmp /\ message now fmt expand stack = line_of (stamp now ++ upto0 tmp)).
  { subst tmp. unfold message. destruct fmt as [f|]; [|done].
    destruct (tmpbuffer_text f expand stack) as [Hin ->]. done. }
  destruct Htmp as [Hin ->].
  destruct (log_one m now tmp false b log Hm Hb (fun _ => Hin)) as (b' & Hr & Hb' & Hc & _).
  by exists b'.
Qed.

Lemma vlog_ok m now fmt expand stack b s :
  implements m b s -> stack_ok (LbLog now fmt expand stack) ->
  exists b', logbuffer_vlog m now fmt expand stack b = Ret b' /\
    implements m b' (spec_log m now fmt expand stack s).
Proof.
  intros (Hm & Hb & Hc) Hs. pose proof (entries_range m Hm).
  unfold logbuffer_vlog, spec_log, starts_over.
  rewrite (rep_empty m b _ Hm Hb), (rep_head _ _ _ Hb), (wrap_id 32 (buffer_entries m - 1)), Hc by lia.
  set (tmp := match fmt with Some _ => _ | None => _ end).
  assert (Hboth : forall b0, lb_rep m b0 (sp_lines s) ->
    exists b1 b2, __logbuffer_log m now tmp true b0 = Ret b1 /\ lb_suspend_count b1 = lb_suspend_count b0 /\
      forall c, __logbuffer_log m now tmp false (mk_lb (lb_head b1) (lb_tail b1) (lb_buffer b1) (lb_id b1) (lb_name b1) c) = Ret (b2 c) /\
      lb_rep m (b2 c) (sp_lines s ++ [line_of (utc_text now); message now fmt expand stack]) /\
      lb_suspend_count (b2 c) = c).
  { intros b0 Hb0. destruct (log_one m now tmp true b0 _ Hm Hb0) as (b1 & H1 & Hb1 & Hc1 & _); [done|].
    assert (Hset : forall c, lb_rep m (mk_lb (lb_head b1) (lb_tail b1) (lb_buffer b1) (lb_id b1) (lb_name b1) c)
      (sp_lines s ++ [line_of (utc_text now)])) by (intros c; by destruct Hb1).
    assert (Hmsg := fun c => log_message m now fmt expand stack _ _ Hm (Hset c) Hs). cbv zeta in Hmsg. fold tmp in Hmsg.
    exists b1, (fun c => match __logbuffer_log m now tmp false
      (mk_lb (lb_head b1) (lb_tail b1) (lb_buffer b1) (lb_id b1) (lb_name b1) c) with Ret b2 => b2 | _ => b1 end).
    split_and!; [done|done|]. intros c. destruct (Hmsg c) as (b2 & Hr & Hb2 & Hc2). rewrite Hr. split; [done|].
    by rewrite <- app_assoc in Hb2. }
  destruct (Hboth b Hb) as (b1 & b2 & H1 & Hc1 & H2).
  assert (Heta : b1 = mk_lb (lb_head b1) (lb_tail b1) (lb_buffer b1) (lb_id b1) (lb_name b1) (sp_seen s))
    by (rewrite <- Hc, <- Hc1; by destruct b1).
  destruct (bool_decide _ || _).
  { rewrite H1. run. rewrite Heta. destruct (H2 (sp_seen s)) as (-> & Hb2 & Hc2). by exists (b2 (sp_seen s)). }
  destruct (negb _).
  { rewrite H1. run. destruct (H2 (driver_suspended_count m)) as (-> & Hb2 & Hc2). by eexists. }
  destruct fmt as [f|]; [|by exists b].
  destruct (log_message m now (Some f) expand stack b _ Hm Hb I) as (b' & Hr & Hb' & Hc'). fold tmp in Hr.
  exists b'. split; [exact Hr|]. split_and!; [done|done|]. cbn [sp_seen]. by rewrite Hc'.
Qed.

Lemma suspend_ok m : module_ok m -> module_ok (logbuffer_suspend m).
Proof.
  intros (? & ? & ? & ?). pose proof (wrap_range 32 (driver_suspended_count m + 1)).
  split_and!; try done; cbn; unfold U32_MAX; lia.
Qed.

Lemma ring_step_ok e m b s : implements m b s -> stack_ok e ->
  exists b', lb_step e m b = Ret ((spec_step e m s).1, b') /\
    implements (spec_step e m s).1 b' (spec_step e m s).2.
Proof.
  intros Hi Hs. destruct e as [now fmt expand stack|now fmt expand stack|]; cbn [lb_step spec_step fst snd].
  - destruct (vlog_ok m now fmt expand stack b s Hi Hs) as (b' & -> & Hb). run. by exists b'.
  - assert (Hn : implements (next_index m) b s) by (destruct Hi as (? & [] & ?); by split_and!).
    unfold logbuffer_indexed_vlog.
    destruct (vlog_ok (next_index m) now (Some (indexed_format (log_index (next_index m)) fmt)) expand stack b s Hn I)
      as (b' & -> & Hb). run. by exists b'.
  - exists b. split; [done|]. destruct Hi as (? & [] & ?). split_and!; [by apply suspend_ok|by split|done].
Qed.

Lemma ring_run_ok es : forall m b s, implements m b s -> Forall stack_ok es ->
  exists b', lb_run es m b = Ret ((spec_run es m s).1, b') /\
    implements (spec_run es m s).1 b' (spec_run es m s).2.
Proof.
  induction es as [|e es IH]; intros m b s Hi Hs; cbn [lb_run spec_run]; [by exists b|].
  apply Forall_cons in Hs as [He Hs]. destruct (ring_step_ok e m b s Hi He) as (b1 & -> & Hb1). run.
  destruct (spec_step e m s) as [m1 s1]. by apply IH.
Qed.

Lemma init_ok shift : module_ok (logbuffer_dev_init shift).
Proof.
  unfold logbuffer_dev_init, LOGBUFFER_ENTRY_SHIFT_MAX, LOGBUFFER_ENTRY_SHIFT_MIN.
  set (s := if _ <? 3 then 3 else _).
  assert (Hs : 3 <= s <= 20) by (subst s; repeat case_test; lia).
  assert (2 ^ s <= 2 ^ 20) by (apply Z.pow_le_mono_r; lia).
  split_and!; cbn [buffer_entry_shift buffer_entries buffer_entry_mask driver_suspended_count]; try done; try lia.
  rewrite Z.shiftl_1_l. apply wrap_id. split; [apply Z.pow_nonneg; lia|lia].
Qed.

Lemma register_ok m name b : module_ok m -> logbuffer_register m name true true 0 = inr b ->
  implements m b (mk_spec [] 0).
Proof.
  intros Hm [= <-]. pose proof (entries_range m Hm). split_and!; [done| |done].
  split; cbn [lb_buffer lb_head lb_tail sp_lines length].
  - rewrite length_replicate. unfold LOGBUFFER_ENTRY_SIZE. rewrite wrap_id; lia.
  - by rewrite Z.mod_0_l by lia.
  - unfold oldest. rewrite Z.max_l by lia. by rewrite Z.mod_0_l by lia.
  - intros j t _. by rewrite lookup_nil.
Qed.

(** C35. The log buffer keeps the latest lines. For any size parameter and any sequence of
    messages (of any length, with or without a number) and suspends, after registration every
    call returns; the file then shows, oldest first, the latest lines of the log as it is
    meant ([meant_run]: a line with the date whenever the ring starts over or the device was
    suspended, then the message, up to 255 bytes), as many as the ring has slots but one;
    reading changes nothing and ends. With empty messages it does the same for another log
    ([spec_run]), as long as the uninitialised buffer on the stack has a zero byte
    ([stack_ok]): where an empty message logs the date, it also logs that buffer, against the
    comment in the code ([empty_message_logs_stack]). *)
Theorem logbuffer_shows_latest shift name b es :
  let m0 := logbuffer_dev_init shift in
  logbuffer_register m0 name true true 0 = inr b -> Forall stack_ok es ->
  exists m b', lb_run es m0 b = Ret (m, b') /\
    let lines := sp_lines (spec_run es m0 (mk_spec [] 0)).2 in
    logbuffer_seq_show m b' = Ret (drop (length lines - (Z.to_nat (buffer_entries m) - 1)) lines) /\
    (Forall has_text es -> lines = sp_lines (meant_run es m0 (mk_spec [] 0)).2) /\
    8 <= buffer_entries m <= 2 ^ 20 /\ buffer_entries m = buffer_entries m0.
Proof.
  intros m0 Hreg Hs. pose proof (init_ok shift) as Hm0. fold m0 in Hm0.
  destruct (ring_run_ok es m0 b (mk_spec [] 0) (register_ok m0 name b Hm0 Hreg) Hs) as (b' & Hrun & Hm & Hrep & _).
  assert (Hent : forall es m s, buffer_entries (spec_run es m s).1 = buffer_entries m).
  { clear. induction es as [|e es IH]; intros m s; [done|]. cbn [spec_run].
    destruct (spec_step e m s) as [m1 s1] eqn:E. rewrite IH. by destruct e; injection E as <- _. }
  exists (spec_run es m0 (mk_spec [] 0)).1, b'. split; [done|]. cbv zeta.
  pose proof (entries_range _ Hm) as HE. split_and!; [|intros Ht; by rewrite run_as_meant|lia|lia|by rewrite Hent].
  rewrite (show_ok _ _ _ Hm Hrep). do 2 f_equal. unfold oldest. lia.
Qed.
End ring.

(** ** An instance and a defect *)

Definition zero_time : lb_time := mk_lbt 12345678901 0 0.

#[local] Instance no_calendar : Calendar := {|
  rtc_tm_to_time64 _ := 0;
  rtc_time64_to_tm _ := mk_tm 0 0 0 1 0 70;
|}.

Definition hello (n : Z) : lb_event := LbLog zero_time (Some (text_of "x")) (fun f => f ++ dec64 n) (replicate 256 7).

(** Nine messages and a suspend in a ring of eight, none of them empty. *)
Lemma logbuffer_shows_latest_witness :
  exists b m b', logbuffer_register (logbuffer_dev_init 1) (text_of "ssoc") true true 0 = inr b /\
    lb_run ((hello <$> seqZ 0 8) ++ [LbSuspend; hello 8]) (logbuffer_dev_init 1) b = Ret (m, b') /\
    logbuffer_seq_show m b' = Ret (text_of <$> [
      "[   12.345678] x4"; "[   12.345678] x5"; "[   12.345678] 1970-01-01 00:00:00.000000000 UTC";
      "[   12.345678] x6"; "[   12.345678] x7"; "[   12.345678] 1970-01-01 00:00:00.000000000 UTC";
      "[   12.345678] x8"])%string.
Proof.
  eexists. destruct (logbuffer_shows_latest 1 (text_of "ssoc") _
    ((hello <$> seqZ 0 8) ++ [LbSuspend; hello 8]) eq_refl) as (m & b' & Hrun & Hshow & Hmeant & _).
  - repeat (apply Forall_cons; split); [exact I..|by apply Forall_nil].
  - exists m, b'. split; [reflexivity|]. split; [exact Hrun|]. cbv zeta in Hmeant. rewrite Hmeant in Hshow.
    2:{ repeat (apply Forall_cons; split); [exact I..|by apply Forall_nil]. }
    rewrite Hshow.
    assert (Hm : buffer_entries m = 8) by (vm_compute in Hrun; by injection Hrun as <- _).
    rewrite Hm. vm_compute. reflexivity.
Defined.

(** An empty message, which is meant to log the date only, also logs what the stack holds;
    where that has no zero byte it reads past the stack. *)
Theorem empty_message_logs_stack :
  let run stack := match logbuffer_register (logbuffer_dev_init 3) (text_of "usb") true true 0 with
    | inr b => let* r := lb_run [hello 1; LbSuspend; LbLog zero_time None (fun f => f) stack] (logbuffer_dev_init 3) b in
               let* lines := logbuffer_seq_show r.1 r.2 in Ret (drop 3 lines)
    | inl _ => Undef
    end in
  run (text_of "left over" ++ [0]) = Ret [text_of "[   12.345678] left over"] /\
  run (replicate 256 7) = Undef.
Proof. split; vm_compute; reflexivity. Qed.
